(* ===== verification/_CoqProject ===== *)
-Q . S2P
Prelude.v
Js.v
JsOps.v
CanonicalJson.v
Graph.v
Workflow.v
WorkflowReducer.v
Samples.v
WorkflowSpec.v
WorkflowStable.v
WorkflowInv.v
WorkflowReady.v
WorkflowExecution.v
AuthorityDb.v
AuthorityStatements.v
WorkflowAuthority.v
AuthorityFacts.v
AuthorityJournal.v
AuthorityRefine.v
AuthorityTasks.v
AuthorityRecover.v
AuthorityEffects.v
AuthoritySamples.v
Plan.v
PlanSpec.v
Subagent.v
WorkingPlan.v
ReviewPlan.v
ReviewPlanEvents.v
ReviewSamples.v
ReviewPlanSpec.v
ReviewPlanInv.v
ReviewPlanSteps.v
Session.v
SessionReducer.v
SessionSamples.v
SessionInv.v
SessionLife.v
SessionPlan.v
SessionLegal.v
SessionReady.v
PlanValidator.v
PlanAdmission.v
PlanReplay.v
SessionEntry.v
SessionEntrySpec.v
SessionEntryErrors.v
SessionCommit.v
JournalDrafts.v
SessionPort.v
SessionPortSpec.v
Json.v
JsonSpec.v
Jsonl.v
JsonlStore.v
JsonlLines.v
JsonlJournal.v
JsonlCrash.v
JsonlAppend.v
JsonlSafe.v
JsonlRead.v
JsonlCatalog.v
JsonlRecovery.v
JsonlSamples.v
DraftReplay.v
DagScheduler.v
ClaimEntries.v
DagSelect.v
DagSchedule.v
ClaimReplay.v
DagRecovery.v
RecoverySpec.v
RecoveryReplay.v
Replan.v
ReplanFacts.v
ReplanSafe.v
ReplanReplay.v
ReplanSamples.v
SqliteStore.v
SqliteSpec.v
