(* ===== verification/Prelude.v ===== *)
(** * Praxis: a verification library of the runtime's durable core

    The runtime of Praxis keeps everything that it decides in a journal of
    entries per Session.  Writers build commits of entries, a store appends
    them, and everything else (sessions, plans, attempts, reviews, budgets) is a
    projection of the journal.  This library models the contracts of that core,
    the planner's coordinators that write to it and the store that keeps it on
    disk, and proves that they fit together.

    ** The parts

    - Values: [Js], [JsOps], [CanonicalJson], [Json].  A JavaScript value is a tree
      [jsval]; an object is the list of its properties in their order.
      packages/core-sdk/src/canonical-json.ts gives the text that is digested,
      JSON.stringify and JSON.parse the text of a file.
    - Workflow contract, packages/core-sdk/src/workflow.ts: [Workflow] has the
      validators of a specification, the projection and the readiness of nodes,
      [WorkflowReducer] one Definition per event of the Workflow journal.
    - Plan contract, packages/core-sdk/src/plan.ts: [Plan].  Proposals of plans
      and their admission, apps/runtime/src/planner/planValidator.ts:
      [PlanValidator].
    - The request of a child run, packages/core-sdk/src/subagent.ts: [Subagent].
    - The working plan and the review plan with its events,
      packages/core-sdk/src/working-plan.ts, review-plan.ts and
      review-plan-events.ts: [WorkingPlan], [ReviewPlan], [ReviewPlanEvents].
    - Session journal, packages/core-sdk/src/session-journal.ts: [Session] has the
      entries and the state, [SessionEntry] the validator of an entry from the
      value that a caller gives, [SessionReducer] the reducer, one Definition
      [on_...] per entry type, and the projection.
    - Commits and the journal port, packages/core-sdk/src/session-journal-port.ts:
      [SessionCommit] and [SessionPort].
    - The scheduler and the recovery of a plan,
      apps/runtime/src/planner/dagScheduler.ts and dagRecovery.ts: [DagScheduler],
      [DagRecovery]; [JournalDrafts] is the part of the two that makes a commit of
      drafts.  The decisions of the planner and the revision of a plan,
      apps/runtime/src/planner/replanCoordinator.ts: [Replan].
    - The Workflow authority, the SQLite store of workflows, their tasks and
      effects, apps/runtime/src/workflow/sqliteWorkflowAuthority.ts:
      [AuthorityDb] has the records of packages/core-sdk/src/workflow-port.ts and the
      tables, [AuthorityStatements] the statements with their constraints,
      [WorkflowAuthority] the methods of the class as computations over the store
      ([Db]: an error rolls its transaction back), and the
      methods that write as data and the states that they reach.
      [WorkflowExecution] is packages/core-sdk/src/workflow-execution.ts.
    - The JSONL store,
      apps/runtime/src/session-db/jsonlSessionJournalV3.ts: [Jsonl] has the records
      and their checks, [JsonlStore] the operations.
    - The SQLite store of the same journal,
      apps/runtime/src/session-db/sqliteSessionJournalV3.ts: [SqliteStore] has the
      tables with their constraints, the transactions of a connection, and the
      operations as computations over it ([Sq]).

    A function of the source is a Definition of the same name where Rocq allows
    it; an exception is [Err] with the code of the error ([res]), and a method
    of a store is a computation that reads the disk and emits durable writes
    ([Fs]).

    ** The interfaces

    [JsEngine] is what the source uses of the engine and its locale: the text of a
    number that is no integer, the comparison of texts, dates.  [JsCrypto] is the
    hash.  [ReviewPlanContract] is what the Session reducer uses of the review
    plan, with the reducer of review-plan-events.ts as its instance.
    [SessionJournalCommitStoreV3] is the store below the port: any function from
    the number of a read and a request to an answer; [jsonl_store] and
    [sqlite_store] are the two stores as instances.  [SqliteEngine] is what
    SQLite leaves open: the row of a query with LIMIT 1, the answers to BEGIN
    IMMEDIATE and COMMIT, the pragmas; [SqliteLaws] is what it promises of the row.  [NodeHost] is base64 and the order of a directory.
    [RandomUUID] is any sequence of identities that the engine may draw; no two
    of them need to differ.

    ** What the theorems show

    - [WorkflowSpec], [WorkflowStable], [WorkflowInv], [WorkflowReady]: an accepted
      specification is acyclic and within its bounds and validates again in any
      order of its nodes; the reducer keeps the invariant of a projection, and its
      changes are those of the transition tables.
    - [PlanSpec], [PlanAdmission], [PlanReplay]: an accepted graph is well-formed;
      an admitted plan stays within the grants of its parent (paths, capabilities,
      budgets) and its journal payloads are projected to that very plan.
    - [SessionEntrySpec], [SessionEntryErrors]: what validation establishes of the
      envelope and of the payload of each entry type ([payload_wf]), and the errors
      with which it ends.
    - [SessionInv], [SessionLife], [SessionPlan], [SessionLegal],
      [SessionReady]: the order of a journal, one running run, checkpoints,
      usage, the plan that is projected, its legal changes, and that success has
      evidence.
    - [ReviewPlanSpec], [ReviewPlanInv], [ReviewPlanSteps]: states of the review
      plan are well-formed, its steps are those of the tables, accepted items are
      reviewed and kept, and the session's plan refines the reducer of the events.
    - [SessionPortSpec]: the port never returns a part of a journal, whatever the
      store answers, and reads a store that keeps a journal to the end.
    - [DraftReplay], [ClaimEntries], [DagSelect], [DagSchedule], [ClaimReplay]: the
      scheduler's claims are ready, conflict-free and within the parent's budget,
      a decision without a claim is a true deadlock or a wait, and the commit of
      a claim is accepted by the journal, whose projection then has the attempts.
    - [RecoverySpec], [RecoveryReplay]: the same for the recovery
      of interrupted attempts; its commit is accepted exactly where every lost
      attempt is in a live step.
    - [ReplanFacts], [ReplanSafe], [ReplanReplay]: a revision keeps
      only steps with a verified attempt and the same definition, the coordinator
      revises the plan of a run at most once, and the journal accepts the commit of a revision and
      projects the next revision of the plan from it.
    - [AuthorityFacts] has the rules for what a computation over the store
      relates ([ensures], [always], [atomic]).  [AuthorityJournal],
      [AuthorityRefine]: the authority implements a set of append-only histories
      that replay to the stored projections.  A transaction happens once
      and at one sequence.  [AuthorityTasks], [AuthorityRecover]: the task table is consistent, a claim is granted, a
      recovery repeats only what may be repeated.  [AuthorityEffects]: an effect
      has one executor until it is released.
    - [JsonSpec], [JsonlLines], [JsonlJournal]: JSON texts and journal files are read
      back.  [JsonlCrash] has a weakest precondition with a crash condition;
      [JsonlAppend], [JsonlSafe], [JsonlRead], [JsonlCatalog], [JsonlRecovery] show
      that an append is atomic and stored exactly once, that the pages and
      projections of the store are those of its journals, and that
      [initialize] after crashes of appends and of other initializations makes all
      derived files agree with the journals; a deep scrub that is cut short may not
      ([deep_scrub_cut_short]).
    - [SqliteSpec]: the SQLite store refines an abstract journal ([journal_append],
      [journal_read]), with rollback on every fault and whichever duplicate row
      SQLite picks; the two stores agree on every append, read and projection.
    - [Samples], [ReviewSamples], [SessionSamples], [JsonlSamples],
      [ReplanSamples], [AuthoritySamples] have concrete inputs, on which the theorems are applied and some flaws are shown.

    ** Bounds and fuel

    A loop without a structural measure takes fuel and answers [None] without it,
    and a theorem says which fuel is enough: the number of nodes for the
    topological sort and the search of a cycle ([Graph]), one read for every 512
    entries for a journal ([readAllEntries_kept]), one unit per byte for a JSON text
    ([JSON_roundtrip]).  A store that makes no progress is read for ever
    ([readAllEntries_stalls]).  Integers are exact: the validators bound what they
    accept by 2^53 - 1, below which doubles and integers agree; the few sums
    beyond the validators are sums of such numbers.

    ** What is not modelled

    A value is a tree of plain data properties: accessors, prototypes, cycles and
    objects shared by identity do not occur in what JSON.parse or a literal
    gives; a property that is undefined is absent.  A lone surrogate has no UTF-8
    form and is outside [JSON_roundtrip].  Identities that the source draws at random
    are arguments.  Promises run one after the other: the locks of the store
    make its operations exclusive, and the lock files themselves are not modelled,
    nor is the migration of version 2 data.  A file that is replaced as a whole is the
    value that was written.  Of the SQL engine only what the statements ask for is
    in the model: rows that a query leaves unordered come in the order of their
    insertion, columns that no statement reads are left out, a column with JSON
    holds the value, and the database of the authority is never busy.  The supervisors, the
    Workflow orchestrator, the kernel, the agent loop, providers, tools and the
    client are control flow around promises, processes and the network; the
    contracts that they call are the ones modelled here. *)

From stdpp Require Export base gmap strings list sorting relations pretty.
From Stdlib Require Export ZArith Lia.
From Stdlib Require Export Ascii.
From Stdlib Require String.


(** ** The error monad

    The TypeScript functions of the modelled files either return or throw an
    error that carries a code ([fail('WORKFLOW_SPEC_INVALID')]).  [res] is that
    outcome; [fail_if] is the statement [if (cond) fail(code)]. *)

Inductive res (A : Type) : Type :=
| Ok (a : A)
| Err (code : string).
Arguments Ok {A} a.
Arguments Err {A} code.

#[export] Instance res_ret : MRet res := λ A a, Ok a.
#[export] Instance res_bind : MBind res := λ A B f m,
  match m with Ok a => f a | Err c => Err c end.
#[export] Instance res_fmap : FMap res := λ A B f m,
  match m with Ok a => Ok (f a) | Err c => Err c end.

Definition fail_if (cond : bool) (code : string) : res unit :=
  if cond then Err code else Ok tt.

Definition is_ok {A} (r : res A) : bool := match r with Ok _ => true | Err _ => false end.

(** [x === undefined]. *)
Definition is_none {A} (x : option A) : bool := match x with None => true | Some _ => false end.

(** [try { r } catch { throw code }]. *)
Definition rethrow {A} (code : string) (r : res A) : res A :=
  match r with Ok a => Ok a | Err _ => Err code end.

Section Res.
Context {A B : Type}.

Lemma bind_Ok (m : res A) (f : A → res B) b :
  (m ≫= f) = Ok b ↔ ∃ a, m = Ok a ∧ f a = Ok b.
Proof. destruct m; cbn; split; naive_solver. Qed.

Lemma bind_Err (m : res A) (f : A → res B) c :
  (m ≫= f) = Err c ↔ m = Err c ∨ ∃ a, m = Ok a ∧ f a = Err c.
Proof. destruct m; cbn; split; naive_solver. Qed.

Lemma fmap_Ok (m : res A) (f : A → B) b :
  (f <$> m) = Ok b ↔ ∃ a, m = Ok a ∧ b = f a.
Proof. destruct m; cbn; naive_solver. Qed.

Lemma fail_if_Ok cond code u : fail_if cond code = Ok u ↔ cond = false.
Proof. destruct cond, u; naive_solver. Qed.

Lemma fail_if_Err cond code c : fail_if cond code = Err c ↔ cond = true ∧ c = code.
Proof. destruct cond; naive_solver. Qed.

Lemma rethrow_Ok code (r : res A) a : rethrow code r = Ok a ↔ r = Ok a.
Proof. destruct r; naive_solver. Qed.

End Res.

Section MapM.
Context {A B : Type}.

(** [xs.map(f)] with a throwing [f]: every element maps, in order. *)
Lemma mapM_Ok (f : A → res B) xs ys :
  mapM f xs = Ok ys ↔ Forall2 (λ x y, f x = Ok y) xs ys.
Proof.
  split.
  - revert ys; induction xs as [|x xs IH]; intros ys; cbn.
    + injection 1 as <-. constructor.
    + intros (y & Hy & (zs & Hzs & Heq)%bind_Ok)%bind_Ok.
      injection Heq as <-. constructor; [done|]. by apply IH.
  - induction 1 as [|x y xs ys Hx _ IH]; cbn; [done|].
    rewrite Hx; cbn. by rewrite IH.
Qed.

Lemma mapM_Err (f : A → res B) xs c :
  mapM f xs = Err c → ∃ x, x ∈ xs ∧ f x = Err c.
Proof.
  induction xs as [|x xs IH]; cbn; [done|].
  intros [Hx|(y & _ & [Hm|(zs & _ & ?)]%bind_Err)]%bind_Err; [| |done].
  - exists x. split; [by left|done].
  - destruct (IH Hm) as (z & ? & ?). exists z. split; [by right|done].
Qed.
End MapM.

Lemma mapM_Ok_map {A B} (f : A → res B) (g : B → A) ys :
  Forall (λ y, f (g y) = Ok y) ys → mapM f (map g ys) = Ok ys.
Proof. intros H. apply mapM_Ok. induction H; cbn; by constructor. Qed.

(** ** Tactics

    [inv_ok] turns a hypothesis [body = Ok r] of a monadic body into its
    successful intermediate results; [split_bool] splits the guards. *)

Ltac inv_ok_step :=
  match goal with
  | H : (_ ≫= _) = Ok _ |- _ => apply bind_Ok in H as (? & ? & ?)
  | H : (_ <$> _) = Ok _ |- _ => apply fmap_Ok in H as (? & ? & ?)
  | H : fail_if _ _ = Ok _ |- _ => apply fail_if_Ok in H
  | H : rethrow _ _ = Ok _ |- _ => apply rethrow_Ok in H
  | H : Ok _ = Ok _ |- _ => injection H as H
  | H : mret _ = Ok _ |- _ => injection H as H
  | H : Err _ = Ok _ |- _ => discriminate H
  | x : unit |- _ => destruct x
  end.
Ltac inv_ok := repeat inv_ok_step; simplify_eq.

Ltac split_bool :=
  repeat match goal with
  | H : (_ || _) = false |- _ => apply orb_false_iff in H as [? ?]
  | H : (_ && _) = true |- _ => apply andb_true_iff in H as [? ?]
  | H : negb _ = false |- _ => apply negb_false_iff in H
  | H : negb _ = true |- _ => apply negb_true_iff in H
  | H : bool_decide _ = true |- _ => apply bool_decide_eq_true in H
  | H : bool_decide _ = false |- _ => apply bool_decide_eq_false in H
  end.

(** Case analysis on the innermost [match] of a hypothesis. *)
Ltac case_in H :=
  match type of H with
  | context [match ?e with _ => _ end] =>
      lazymatch e with context [match _ with _ => _ end] => fail | _ => idtac end;
      let E := fresh "E" in destruct e eqn:E
  end.

(** ** Lists *)

Lemma existsb_false {A} (p : A → bool) l :
  existsb p l = false ↔ Forall (λ x, p x = false) l.
Proof.
  induction l as [|x l IH]; cbn; [naive_solver|].
  rewrite orb_false_iff, IH, Forall_cons. done.
Qed.

Lemma existsb_true {A} (p : A → bool) l :
  existsb p l = true ↔ ∃ x, x ∈ l ∧ p x = true.
Proof.
  rewrite existsb_exists. by setoid_rewrite list_elem_of_In.
Qed.

Lemma forallb_true {A} (p : A → bool) l :
  forallb p l = true ↔ Forall (λ x, p x = true) l.
Proof.
  induction l as [|x l IH]; cbn; [naive_solver|].
  rewrite andb_true_iff, IH, Forall_cons. done.
Qed.

(** [new Set(values).size === values.length]. *)
Definition nodupb (l : list string) : bool := bool_decide (NoDup l).

Lemma nodupb_true l : nodupb l = true ↔ NoDup l.
Proof. apply bool_decide_eq_true. Qed.

(** [values.includes(v)] and [set.has(v)] on strings. *)
Definition memb (x : string) (l : list string) : bool := bool_decide (x ∈ l).

Lemma memb_true x l : memb x l = true ↔ x ∈ l.
Proof. apply bool_decide_eq_true. Qed.
Lemma memb_false x l : memb x l = false ↔ x ∉ l.
Proof. apply bool_decide_eq_false. Qed.

(** [values.find(p)]: stdpp's [list_find] without the index. *)
Definition findb {A} (p : A → bool) (l : list A) : option A := List.find p l.

Lemma findb_Some {A} (p : A → bool) l x : findb p l = Some x → x ∈ l ∧ p x = true.
Proof. intros [H1 H2]%find_some. by rewrite list_elem_of_In. Qed.

Lemma findb_None {A} (p : A → bool) l : findb p l = None ↔ Forall (λ x, p x = false) l.
Proof.
  unfold findb. induction l as [|x l IH]; cbn; [naive_solver|].
  rewrite Forall_cons. destruct (p x); naive_solver.
Qed.

Definition sumZ {A} (f : A → Z) (l : list A) : Z := foldr (λ x acc, (f x + acc)%Z) 0%Z l.

Lemma sumZ_cons {A} (f : A → Z) x l : sumZ f (x :: l) = (f x + sumZ f l)%Z.
Proof. done. Qed.

Lemma sumZ_fmap {A B} (f : B → Z) (g : A → B) l : sumZ f (g <$> l) = sumZ (f ∘ g) l.
Proof. induction l as [|x l IH]; [done|]. rewrite fmap_cons, !sumZ_cons. by rewrite IH. Qed.

Lemma sumZ_app {A} (f : A → Z) l k : sumZ f (l ++ k) = (sumZ f l + sumZ f k)%Z.
Proof. unfold sumZ. induction l as [|x l IH]; cbn; lia. Qed.

(** [array.reduce((total, x) => total + f(x), 0)] adds from the left. *)
Definition reduce_sum {A} (f : A → Z) (l : list A) : Z := foldl (λ acc x, (acc + f x)%Z) 0%Z l.

Lemma reduce_sum_sumZ {A} (f : A → Z) l : reduce_sum f l = sumZ f l.
Proof.
  unfold reduce_sum, sumZ.
  enough (∀ a, foldl (λ acc x, (acc + f x)%Z) a l = (a + foldr (λ x acc, (f x + acc)%Z) 0%Z l)%Z)
    as -> by lia.
  induction l as [|x l IH]; intros a; cbn; [lia|]. rewrite IH. lia.
Qed.

Create HintDb praxis.
#[export] Hint Resolve list_elem_of_here list_elem_of_further : praxis.
#[export] Hint Rewrite @existsb_false @forallb_true nodupb_true memb_true memb_false
  @fail_if_Ok @rethrow_Ok : praxis.

(** Every element of the second list has a related element in the first. *)
Lemma Forall2_r_elem {A B} (P : A → B → Prop) l k y :
  Forall2 P l k → y ∈ k → ∃ x, x ∈ l ∧ P x y.
Proof. induction 1; intros Hin; [by apply not_elem_of_nil in Hin|]. set_solver. Qed.

(** ** [array.every] and [array.filter] with a throwing predicate *)

Fixpoint every_res {A} (f : A → res bool) (l : list A) : res bool :=
  match l with
  | [] => Ok true
  | x :: l => b ← f x; match b with true => every_res f l | false => Ok false end
  end.

Fixpoint filter_res {A} (f : A → res bool) (l : list A) : res (list A) :=
  match l with
  | [] => Ok []
  | x :: l => b ← f x; k ← filter_res f l; Ok (match b with true => x :: k | false => k end)
  end.

Lemma every_res_true {A} (f : A → res bool) l :
  every_res f l = Ok true ↔ Forall (λ x, f x = Ok true) l.
Proof.
  induction l as [|x l IH]; cbn; [split; [constructor|done]|].
  rewrite Forall_cons. destruct (f x) as [[]|]; cbn; naive_solver.
Qed.

Lemma every_res_total {A} (f : A → res bool) l :
  Forall (λ x, ∃ b : bool, f x = Ok b) l → ∃ b, every_res f l = Ok b.
Proof.
  induction 1 as [|x l [b Hb] _ [c Hc]]; cbn; [by eexists|]. rewrite Hb; cbn. destruct b; eauto.
Qed.

Lemma filter_res_total {A} (f : A → res bool) l :
  Forall (λ x, ∃ b : bool, f x = Ok b) l → ∃ k, filter_res f l = Ok k.
Proof.
  induction 1 as [|x l [b Hb] _ [c Hc]]; cbn; [by eexists|]. rewrite Hb; cbn. rewrite Hc; cbn. eauto.
Qed.

Lemma filter_res_Ok {A} (f : A → res bool) l k :
  filter_res f l = Ok k → k `sublist_of` l ∧ ∀ x, x ∈ k ↔ x ∈ l ∧ f x = Ok true.
Proof.
  revert k; induction l as [|x l IH]; intros k; cbn.
  { intros [= <-]. split; [done|]. intros x. split; [by intros ?%elem_of_nil|by intros [?%elem_of_nil _]]. }
  intros (b & Hb & (k' & Hk & [= <-])%bind_Ok)%bind_Ok. destruct (IH k' Hk) as [Hs Hin].
  destruct b; (split; [by constructor|]); intros y; rewrite ?elem_of_cons, Hin.
  - split; [intros [->|[? ?]]|intros [[->|?] ?]]; auto.
  - split; [intros [? ?]|intros [[->|?] ?]]; auto. congruence.
Qed.

Lemma Forall2_l_elem {A B} (P : A → B → Prop) l k x :
  Forall2 P l k → x ∈ l → ∃ y, y ∈ k ∧ P x y.
Proof. intros Hf%Forall2_flip Hx. by apply (Forall2_r_elem _ _ _ _ Hf). Qed.

(** A list without duplicate keys has one element per key. *)
Lemma NoDup_fmap_elem {A B} (f : A → B) (l : list A) x y :
  NoDup (f <$> l) → x ∈ l → y ∈ l → f x = f y → x = y.
Proof.
  intros Hnd [i Hi]%list_elem_of_lookup [j Hj]%list_elem_of_lookup Hf.
  assert (i = j) as ->; [|congruence].
  eapply NoDup_lookup; [exact Hnd|rewrite list_lookup_fmap, Hi; cbn; reflexivity|].
  rewrite list_lookup_fmap, Hj. cbn. congruence.
Qed.

(** ** [array.filter(predicate)] *)

Lemma filter_length_zero {A} (p : A → bool) l :
  length (List.filter p l) = 0%nat ↔ ∀ x, x ∈ l → p x = false.
Proof.
  induction l as [|x l IH]; cbn; [split; [by intros _ x ?%elem_of_nil|done]|].
  destruct (p x) eqn:Hx; cbn; [split; [done|]|rewrite IH; split].
  - intros Hall. specialize (Hall x ltac:(by left)). congruence.
  - intros Hall y [->|?]%elem_of_cons; auto.
  - intros Hall y Hy. apply Hall. by right.
Qed.

Lemma filter_elem {A} (p : A → bool) l x : x ∈ List.filter p l ↔ x ∈ l ∧ p x = true.
Proof. rewrite !list_elem_of_In. apply filter_In. Qed.

Lemma filter_sublist_list {A} (p : A → bool) l : List.filter p l `sublist_of` l.
Proof. induction l as [|x l IH]; cbn; [done|]. destruct (p x); by constructor. Qed.

Lemma sumZ_zero {A} (f : A → Z) l : ((∀ x, x ∈ l → 0 ≤ f x) → sumZ f l = 0 ↔ ∀ x, x ∈ l → f x = 0)%Z.
Proof.
  induction l as [|x l IH]; intros Hpos; [split; [by intros _ x ?%elem_of_nil|done]|].
  rewrite sumZ_cons. assert (0 ≤ sumZ f l)%Z as Hl.
  { clear IH. assert (∀ y, y ∈ l → 0 ≤ f y)%Z as Hl by (intros; apply Hpos; by right). clear Hpos.
    induction l as [|y l IH]; [done|]. rewrite sumZ_cons.
    pose proof (Hl y ltac:(by left)). assert (0 ≤ sumZ f l)%Z; [|lia]. apply IH. intros; apply Hl; by right. }
  pose proof (Hpos x ltac:(by left)) as Hx. split.
  - intros Hs y [->|Hy]%elem_of_cons; [lia|]. apply IH; [intros; apply Hpos; by right|lia|done].
  - intros Hall. rewrite (Hall x) by (by left).
    rewrite (proj2 (IH ltac:(intros; apply Hpos; by right))); [done|]. intros; apply Hall; by right.
Qed.

Lemma filter_imap {A B} (p : A → bool) (q : B → bool) (f : nat → A → B) l :
  (∀ i x, q (f i x) = p x) → length (List.filter q (imap f l)) = length (List.filter p l).
Proof.
  revert f. induction l as [|x l IH]; intros f Hq; [done|]. cbn. rewrite Hq.
  pose proof (IH (f ∘ S) (λ i y, Hq (S i) y)) as Hl. destruct (p x); cbn; by rewrite Hl.
Qed.

(** ** [array.sort(compare)]

    The sort of the language is stable; [le x y] is [compare(x, y) <= 0]. *)

Fixpoint sort_insert {A} (le : A → A → bool) (x : A) (l : list A) : list A :=
  match l with
  | [] => [x]
  | y :: l' => if le x y then x :: l else y :: sort_insert le x l'
  end.
Definition js_sort {A} (le : A → A → bool) (l : list A) : list A := foldr (sort_insert le) [] l.

Lemma sort_insert_perm {A} (le : A → A → bool) x l : sort_insert le x l ≡ₚ x :: l.
Proof.
  induction l as [|y l IH]; cbn; [done|]. destruct (le x y); [done|].
  rewrite IH. apply Permutation_swap.
Qed.

Lemma js_sort_perm {A} (le : A → A → bool) l : js_sort le l ≡ₚ l.
Proof. induction l as [|x l IH]; cbn; [done|]. by rewrite sort_insert_perm, IH. Qed.

Lemma js_sort_elem {A} (le : A → A → bool) l x : x ∈ js_sort le l ↔ x ∈ l.
Proof. by rewrite js_sort_perm. Qed.

Lemma js_sort_fmap {A B} (le : B → B → bool) (f : A → B) l : js_sort le (f <$> l) = f <$> js_sort (λ x y, le (f x) (f y)) l.
Proof.
  assert (∀ x k, sort_insert le (f x) (f <$> k) = f <$> sort_insert (λ x y, le (f x) (f y)) x k) as Hins.
  { intros x k. induction k as [|y k IH]; [done|]. cbn. destruct (le (f x) (f y)); [done|]. cbn. f_equal. exact IH. }
  induction l as [|x l IH]; [done|]. cbn. rewrite <-Hins. f_equal. exact IH.
Qed.

(** A sorted list stays. *)
Lemma js_sort_id {A} (le : A → A → bool) l : StronglySorted (λ x y, le x y = true) l → js_sort le l = l.
Proof.
  induction 1 as [|x l _ IH Hx]; [done|]. cbn. change (foldr _ _ l) with (js_sort le l). rewrite IH.
  destruct Hx as [|y l Hy _]; cbn; [done|]. by rewrite Hy.
Qed.

(** Sorting by a key that no two elements share. *)
Lemma js_sort_key {A} (le : A → A → bool) (f : A → Z) l :
  NoDup (f <$> l) →
  (∀ x y, x ∈ l → y ∈ l → f x ≠ f y → le x y = bool_decide (f x < f y)%Z) →
  StronglySorted (λ x y, f x < f y)%Z (js_sort le l).
Proof.
  induction l as [|x l IH]; [constructor|]. rewrite fmap_cons. intros [Hx Hnd]%NoDup_cons Hle.
  change (js_sort le (x :: l)) with (sort_insert le x (js_sort le l)).
  assert (StronglySorted (λ x y, f x < f y)%Z (js_sort le l)) as Hs.
  { apply IH; [done|]. intros; apply Hle; [by right|by right|done]. }
  assert (∀ y, y ∈ js_sort le l → f x ≠ f y ∧ le x y = bool_decide (f x < f y)%Z) as Hy.
  { intros y Hy%js_sort_elem. assert (f x ≠ f y) as Hne.
    - intros Heq. apply Hx. rewrite Heq. by apply list_elem_of_fmap_2.
    - split; [done|]. apply Hle; [left|by right|done]. }
  clear Hle IH Hnd Hx. revert Hs Hy. generalize (js_sort le l) as m. intros m Hs Hy.
  induction Hs as [|y k Hk IH Hyk]; cbn; [constructor; constructor|].
  destruct (Hy y) as [Hne Hle]; [left|]. rewrite Hle. case_bool_decide.
  - constructor; [by constructor|]. constructor; [done|].
    eapply Forall_impl; [exact Hyk|]. cbn. intros z Hz. lia.
  - constructor; [apply IH; intros z Hz; apply Hy; by right|].
    rewrite sort_insert_perm. constructor; [lia|done].
Qed.

(** SQL queries: ORDER BY with several keys (texts are compared by bytes) and LIMIT. *)
Definition by_text {A} (f : A → string) (x y : A) : comparison := String.compare (f x) (f y).
Definition by_int {A} (f : A → Z) (x y : A) : comparison := Z.compare (f x) (f y).
Definition descending {A} (c : A → A → comparison) (x y : A) : comparison := c y x.
Definition then_by {A} (c c' : A → A → comparison) (x y : A) : comparison :=
  match c x y with Eq => c' x y | r => r end.
Definition order_by {A} (c : A → A → comparison) (l : list A) : list A :=
  js_sort (λ x y, match c x y with Gt => false | _ => true end) l.
Definition limit {A} (n : Z) (l : list A) : list A := take (Z.to_nat n) l.

(** ** Texts *)

Lemma string_app_assoc (a b c : string) : (a +:+ b) +:+ c = a +:+ b +:+ c.
Proof. induction a as [|x a IH]; [done|]. exact (f_equal (String x) IH). Qed.
Lemma string_app_nil_r (a : string) : a +:+ "" = a.
Proof. induction a as [|x a IH]; [done|]. exact (f_equal (String x) IH). Qed.
Lemma string_app_length (a b : string) : String.length (a +:+ b) = (String.length a + String.length b)%nat.
Proof. induction a as [|x a IH]; [done|]. exact (f_equal S IH). Qed.
