(* ===== verification/Js.v ===== *)
(** * JavaScript values

    The validators of the repository take [unknown]: a JSON-like value whose
    shape they check field by field.  This file models those values, the
    operations of the language the validators use ([typeof], property reads,
    [Object.keys], [Object.hasOwn], [String], [JSON.stringify], the byte
    length of a string) and the small predicates every contract file repeats
    ([safeId], [positiveInteger], SHA-256 digests, bounded text).

    Strings are represented by their UTF-8 bytes, so [Buffer.byteLength] is
    [String.length]; a string is empty exactly when its byte sequence is. *)

From S2P Require Import Prelude.
Declare Scope js_scope.
Local Open Scope Z_scope.

(** A number is an integer, a non-integral dyadic [n/d], or not finite. *)
Inductive jsnum : Type :=
| NInt (z : Z)
| NFrac (n : Z) (d : positive)
| NNaN
| NInf (negative : bool).

(** [JObj] lists the own enumerable properties in enumeration order;
    [JFun] is an opaque function value. *)
Inductive jsval : Type :=
| JUndef
| JNull
| JBool (b : bool)
| JNum (n : jsnum)
| JStr (s : string)
| JArr (items : list jsval)
| JObj (fields : list (string * jsval))
| JFun.

Abbreviation jsobj := (list (string * jsval)).

(** What ECMA-262 leaves to the engine: [Date.parse] (milliseconds, [None] for
    [NaN]) beyond the ISO format, the collation of [localeCompare], and the
    decimal expansion of numbers that are not integers below 1e21; and the
    conversion [Number(s)] of a text, which only comparisons of mixed operands use. *)
Class JsEngine := {
  Date_parse : string → option Z;
  localeCompare : string → string → comparison;
  Number_toString : jsnum → string;
  String_toNumber : string → jsnum;
}.

#[export] Instance jsnum_eq_dec : EqDecision jsnum.
Proof. solve_decision. Defined.
#[export] Instance jsval_eq_dec : EqDecision jsval.
Proof.
  refine (fix go v w := let _ : EqDecision _ := @go in
    match v, w with
    | JUndef, JUndef | JNull, JNull | JFun, JFun => left eq_refl
    | JBool b, JBool b' => cast_if (decide (b = b'))
    | JNum n, JNum n' => cast_if (decide (n = n'))
    | JStr s, JStr s' => cast_if (decide (s = s'))
    | JArr l, JArr l' => cast_if (decide (l = l'))
    | JObj o, JObj o' => cast_if (decide (o = o'))
    | _, _ => right _
    end); abstract congruence.
Defined.

Section JsvalInd.
(** Structural induction that reaches array items and property values. *)
Variable P : jsval → Prop.
Hypothesis HU : P JUndef.
Hypothesis HN : P JNull.
Hypothesis HB : ∀ b, P (JBool b).
Hypothesis HM : ∀ n, P (JNum n).
Hypothesis HS : ∀ s, P (JStr s).
Hypothesis HA : ∀ l, Forall P l → P (JArr l).
Hypothesis HO : ∀ l, Forall (λ kv, P kv.2) l → P (JObj l).
Hypothesis HF : P JFun.

Fixpoint jsval_nested_ind (v : jsval) : P v :=
  match v with
  | JUndef => HU | JNull => HN | JBool b => HB b | JNum n => HM n
  | JStr s => HS s | JFun => HF
  | JArr l => HA l
      ((fix go (l : list jsval) : Forall P l :=
        match l with
        | [] => Forall_nil_2 P
        | x :: l => Forall_cons_2 P x l (jsval_nested_ind x) (go l)
        end) l)
  | JObj l => HO l
      ((fix go (l : jsobj) : Forall (λ kv, P kv.2) l :=
        match l with
        | [] => Forall_nil_2 _
        | kv :: l => Forall_cons_2 _ kv l (jsval_nested_ind kv.2) (go l)
        end) l)
  end.
End JsvalInd.

(** ** Properties of objects *)

(** [input[key]] on an own property; a missing property reads [undefined]. *)
Fixpoint get (fields : jsobj) (key : string) : jsval :=
  match fields with
  | [] => JUndef
  | (k, v) :: rest => if String.eqb k key then v else get rest key
  end.

Notation "o .: k" := (get o k%string) (at level 8, left associativity) : js_scope.
Open Scope js_scope.

(** [Object.keys], [Object.hasOwn]. *)
Definition keys (o : jsobj) : list string := o.*1.
Definition hasOwn (o : jsobj) (k : string) : bool := memb k (keys o).

Definition is_undef (v : jsval) : bool := match v with JUndef => true | _ => false end.
Definition is_arr (v : jsval) : bool := match v with JArr _ => true | _ => false end.
Definition is_bool (v : jsval) : bool := match v with JBool _ => true | _ => false end.
Definition is_num (v : jsval) : bool := match v with JNum _ => true | _ => false end.
Definition is_string (v : jsval) : bool := match v with JStr _ => true | _ => false end.

(** [v === "s"] and [v === n]. *)
Definition is_str (v : jsval) (s : string) : bool :=
  match v with JStr s' => bool_decide (s' = s) | _ => false end.
Definition is_int (v : jsval) (z : Z) : bool :=
  match v with JNum (NInt z') => z' =? z | _ => false end.

(** The type casts [v as string], [v as number], [v as unknown[]], [v as boolean]
    after a check. *)
Definition js_str (v : jsval) : string := match v with JStr s => s | _ => "" end.
Definition js_int (v : jsval) : Z := match v with JNum (NInt z) => z | _ => 0 end.
Definition js_arr (v : jsval) : list jsval := match v with JArr l => l | _ => [] end.
Definition js_bool (v : jsval) : bool := match v with JBool b => b | _ => false end.

(** [v === undefined ? undefined : f(v)]. *)
Definition opt {A} (f : jsval → A) (v : jsval) : option A :=
  match v with JUndef => None | _ => Some (f v) end.
Definition opt_res {A} (f : jsval → res A) (v : jsval) : res (option A) :=
  match v with JUndef => Ok None | _ => Some <$> f v end.

(** An optional property of an object literal: [...(x === undefined ? {} : {k: x})]. *)
Definition opt_prop {A} (k : string) (f : A → jsval) (x : option A) : jsobj :=
  match x with None => [] | Some a => [(k, f a)] end.
(** A property that is present with the value [undefined]. *)
Definition undef_prop {A} (f : A → jsval) (x : option A) : jsval :=
  match x with None => JUndef | Some a => f a end.

Definition JInt (z : Z) : jsval := JNum (NInt z).
Definition JStrs (l : list string) : jsval := JArr (JStr <$> l).

(** ** Numbers *)

Definition MAX_SAFE_INTEGER : Z := 9007199254740991.

Definition isSafeInteger (v : jsval) : bool :=
  match v with JNum (NInt z) => Z.abs z <=? MAX_SAFE_INTEGER | _ => false end.
Definition positiveInteger (v : jsval) : bool :=
  isSafeInteger v && (0 <? js_int v).
Definition nonNegativeInteger (v : jsval) : bool :=
  isSafeInteger v && (0 <=? js_int v).

(** [n < 0]; every comparison with [NaN] is false. *)
Definition num_neg (n : jsnum) : bool :=
  match n with NInt z => z <? 0 | NFrac m _ => m <? 0 | NNaN => false | NInf neg => neg end.

(** ** Regular expressions on identifiers and digests *)

Definition byte_in (a : ascii) (lo hi : nat) : bool :=
  (Nat.leb lo (nat_of_ascii a)) && (Nat.leb (nat_of_ascii a) hi).
Definition is_digit (a : ascii) : bool := byte_in a 48 57.
Definition is_upper (a : ascii) : bool := byte_in a 65 90.
Definition is_lower (a : ascii) : bool := byte_in a 97 122.
Definition is_alnum (a : ascii) : bool := is_digit a || is_upper a || is_lower a.
Definition is_hex (a : ascii) : bool := is_digit a || byte_in a 97 102.

Fixpoint string_forallb (p : ascii → bool) (s : string) : bool :=
  match s with EmptyString => true | String a s => p a && string_forallb p s end.

Lemma string_forallb_impl (p q : ascii → bool) s :
  (∀ a, p a = true → q a = true) → string_forallb p s = true → string_forallb q s = true.
Proof.
  intros Hpq. induction s as [|a s IH]; cbn; [done|]. intros [Ha Hs]%andb_true_iff.
  by rewrite (Hpq a Ha), IH.
Qed.

Definition char_in (cs : string) (a : ascii) : bool :=
  existsb (λ b, bool_decide (a = b)) (String.list_ascii_of_string cs).

(** [^[A-Za-z0-9][<extra>]{0,127}$] with [extra] next to the alphanumerics. *)
Definition ident (extra : string) (s : string) : bool :=
  match s with
  | EmptyString => false
  | String a rest =>
      is_alnum a && string_forallb (λ c, is_alnum c || char_in extra c) rest
      && (Nat.leb (String.length rest) 127)
  end.

(** [SAFE_ID = /^[A-Za-z0-9][A-Za-z0-9._:/@+-]{0,127}$/]. *)
Definition SAFE_ID : string → bool := ident "._:/@+-".
Definition safeId (v : jsval) : bool := match v with JStr s => SAFE_ID s | _ => false end.

(** [SHA256 = /^sha256:[a-f0-9]{64}$/]. *)
Definition SHA256 (s : string) : bool :=
  (String.prefix "sha256:" s) && (Nat.eqb (String.length s) 71)
  && string_forallb is_hex (String.substring 7 64 s).
Definition digest (v : jsval) : bool := match v with JStr s => SHA256 s | _ => false end.

(** [typeof v === 'string' && v.length > 0 && Buffer.byteLength(v) <= maximum]. *)
Definition byteLength (s : string) : Z := Z.of_nat (String.length s).
Definition boundedText (v : jsval) (maximum : Z) : bool :=
  match v with JStr s => negb (bool_decide (s = "")) && (byteLength s <=? maximum) | _ => false end.

(** [v.trim().length > 0]: some character is not white space.  The UTF-8 forms
    of the white space that [trim] removes are the ASCII ones, U+00A0, U+1680,
    U+2000..U+200A, U+2028, U+2029, U+202F, U+205F, U+3000 and U+FEFF. *)
Fixpoint blank_bytes (l : list nat) : bool :=
  match l with
  | [] => true
  | (9 | 10 | 11 | 12 | 13 | 32)%nat :: l => blank_bytes l
  | 194%nat :: 160%nat :: l => blank_bytes l
  | 225%nat :: 154%nat :: 128%nat :: l => blank_bytes l
  | 226%nat :: 128%nat :: b :: l =>
      ((Nat.leb 128 b && Nat.leb b 138) || Nat.eqb b 168 || Nat.eqb b 169 || Nat.eqb b 175)
      && blank_bytes l
  | 226%nat :: 129%nat :: 159%nat :: l => blank_bytes l
  | 227%nat :: 128%nat :: 128%nat :: l => blank_bytes l
  | 239%nat :: 187%nat :: 191%nat :: l => blank_bytes l
  | _ => false
  end.
Definition blank (s : string) : bool := blank_bytes (nat_of_ascii <$> String.list_ascii_of_string s).

(** ** Text forms *)

Definition dquote : string := String (ascii_of_nat 34) EmptyString.
Definition backslash : string := String (ascii_of_nat 92) EmptyString.

Fixpoint join (sep : string) (l : list string) : string :=
  match l with
  | [] => ""
  | [x] => x
  | x :: l => x +:+ sep +:+ join sep l
  end.

(** A string literal of [JSON.stringify]: the short escapes, the six-byte form
    for the other control characters, every other byte unchanged. *)
Definition json_char (a : ascii) : string :=
  match nat_of_ascii a with
  | 8%nat => backslash +:+ "b" | 9%nat => backslash +:+ "t" | 10%nat => backslash +:+ "n"
  | 12%nat => backslash +:+ "f" | 13%nat => backslash +:+ "r"
  | 34%nat => backslash +:+ dquote | 92%nat => backslash +:+ backslash
  | n =>
      if Nat.ltb n 32 then
        let hex d := if Nat.ltb d 10 then ascii_of_nat (48 + d) else ascii_of_nat (87 + d) in
        backslash +:+ "u00"
          +:+ String (hex (Nat.div n 16)) (String (hex (Nat.modulo n 16)) EmptyString)
      else String a EmptyString
  end.
Fixpoint json_chars (s : string) : string :=
  match s with EmptyString => "" | String a s => json_char a +:+ json_chars s end.
Definition json_string (s : string) : string := dquote +:+ json_chars s +:+ dquote.

Section Text.
Context `{JsEngine}.

Definition num_string (n : jsnum) : string :=
  match n with
  | NInt z => if Z.abs z <? 10 ^ 21 then pretty z else Number_toString n
  | NFrac _ _ => Number_toString n
  | NNaN => "NaN"
  | NInf neg => if neg then "-Infinity" else "Infinity"
  end.

(** [JSON.stringify]; [None] is the result [undefined]. *)
Fixpoint JSON_stringify (v : jsval) : option string :=
  match v with
  | JUndef | JFun => None
  | JNull | JNum NNaN | JNum (NInf _) => Some "null"
  | JBool b => Some (if b then "true" else "false")
  | JNum n => Some (num_string n)
  | JStr s => Some (json_string s)
  | JArr l =>
      Some ("[" +:+ join "," (map (λ x, default "null" (JSON_stringify x)) l) +:+ "]")
  | JObj o =>
      Some ("{" +:+ join "," (flat_map (λ '(k, x),
        match JSON_stringify x with
        | None => []
        | Some s => [json_string k +:+ ":" +:+ s]
        end) o) +:+ "}")
  end.

(** [Buffer.byteLength(JSON.stringify(value))]; [None] stands for the
    [Infinity] of the [catch] branch, taken when there is no text. *)
Definition jsonBytes (v : jsval) : option Z := byteLength <$> JSON_stringify v.

(** [jsonBytes(v) > limit]. *)
Definition jsonBytes_over (v : jsval) (limit : Z) : bool :=
  match jsonBytes v with Some n => limit <? n | None => true end.

(** [String(v)]. *)
Fixpoint js_String (v : jsval) : string :=
  match v with
  | JUndef => "undefined"
  | JNull => "null"
  | JBool b => if b then "true" else "false"
  | JNum n => num_string n
  | JStr s => s
  | JArr l =>
      join "," (map (λ x, match x with JUndef | JNull => "" | _ => js_String x end) l)
  | JObj _ => "[object Object]"
  | JFun => "function"
  end.
End Text.

(** ** Instants *)

(** Proleptic Gregorian year, month, day of a day number counted from 1970-01-01. *)
Definition civil_from_days (days : Z) : Z * Z * Z :=
  let z := days + 719468 in
  let era := z / 146097 in
  let doe := z mod 146097 in
  let yoe := (doe - doe / 1460 + doe / 36524 - doe / 146096) / 365 in
  let doy := doe - (365 * yoe + yoe / 4 - yoe / 100) in
  let mp := (5 * doy + 2) / 153 in
  let m := if mp <? 10 then mp + 3 else mp - 9 in
  ((if m <=? 2 then yoe + era * 400 + 1 else yoe + era * 400), m,
   doy - (153 * mp + 2) / 5 + 1).

Fixpoint pad (width : nat) (z : Z) : string :=
  match width with
  | O => ""
  | S w => pad w (z / 10) +:+ String (ascii_of_nat (48 + Z.to_nat (z mod 10))) EmptyString
  end.

(** [new Date(ms).toISOString()] for a time value in range. *)
Definition toISOString (ms : Z) : string :=
  let '(y, m, d) := civil_from_days (ms / 86400000) in
  let t := ms mod 86400000 in
  (if (0 <=? y) && (y <=? 9999) then pad 4 y
   else (if y <? 0 then "-" else "+") +:+ pad 6 (Z.abs y))
  +:+ "-" +:+ pad 2 m +:+ "-" +:+ pad 2 d +:+ "T" +:+ pad 2 (t / 3600000) +:+ ":"
  +:+ pad 2 (t / 60000 mod 60) +:+ ":" +:+ pad 2 (t / 1000 mod 60) +:+ "."
  +:+ pad 3 (t mod 1000) +:+ "Z".

Section Instants.
Context `{JsEngine}.

(** [typeof v === 'string' && Number.isFinite(Date.parse(v))]. *)
Definition timestamp (v : jsval) : bool :=
  match v with JStr s => bool_decide (is_Some (Date_parse s)) | _ => false end.

(** [timestamp(v)] and [new Date(Date.parse(v)).toISOString() === v]. *)
Definition canonicalInstant (v : jsval) : bool :=
  match v with
  | JStr s =>
      match Date_parse s with
      | Some ms => bool_decide (toISOString ms = s)
      | None => false
      end
  | _ => false
  end.
End Instants.

(** [a < b] on strings that hold one byte per code unit (identifiers, instants). *)
Definition string_ltb (a b : string) : bool :=
  match String.compare a b with Lt => true | _ => false end.

Lemma string_ltb_irrefl s : string_ltb s s = false.
Proof.
  unfold string_ltb. assert (String.compare s s = Eq) as ->; [|done].
  induction s as [|a s IH]; cbn; [done|]. unfold Ascii.compare. by rewrite N.compare_refl.
Qed.

(** ** Maps with insertion order: [Map<string, V>] *)

Section JsMap.
Context {V : Type}.
Implicit Types (m : list (string * V)) (k : string).

Fixpoint mget k m : option V :=
  match m with
  | [] => None
  | (k', v) :: m => if decide (k' = k) then Some v else mget k m
  end.

(** [set] overwrites in place or appends. *)
Fixpoint mset k (v : V) m : list (string * V) :=
  match m with
  | [] => [(k, v)]
  | (k', v') :: m => if decide (k' = k) then (k, v) :: m else (k', v') :: mset k v m
  end.

(** [new Map(entries)]. *)
Definition mof (entries : list (string * V)) : list (string * V) :=
  foldl (λ m kv, mset kv.1 kv.2 m) [] entries.

Lemma mget_mset_eq k v m : mget k (mset k v m) = Some v.
Proof. induction m as [|[k' v'] m IH]; cbn; repeat (case_decide; cbn); by simplify_eq. Qed.

Lemma mget_mset_ne k k' v m : k ≠ k' → mget k' (mset k v m) = mget k' m.
Proof.
  intros Hne. induction m as [|[k0 v0] m IH]; cbn; repeat (case_decide; cbn); by simplify_eq.
Qed.

Lemma mget_mset k k' v m : mget k' (mset k v m) = if decide (k = k') then Some v else mget k' m.
Proof. case_decide; subst; [apply mget_mset_eq|by apply mget_mset_ne]. Qed.

Lemma mset_keys k v m : (mset k v m).*1 = if decide (k ∈ m.*1) then m.*1 else m.*1 ++ [k].
Proof.
  induction m as [|[k' v'] m IH]; cbn; [done|].
  destruct (decide (k' = k)) as [->|Hne]; cbn.
  - rewrite decide_True; [done|set_solver].
  - rewrite IH. destruct (decide (k ∈ m.*1)).
    + rewrite decide_True; [done|set_solver].
    + rewrite decide_False; [done|set_solver].
Qed.

Lemma mget_None k m : mget k m = None ↔ k ∉ m.*1.
Proof.
  induction m as [|[k' v'] m IH]; cbn; [split; intros; [apply not_elem_of_nil|done]|].
  rewrite not_elem_of_cons. case_decide; naive_solver.
Qed.

Lemma mof_snoc entries k v : mof (entries ++ [(k, v)]) = mset k v (mof entries).
Proof. unfold mof. by rewrite foldl_app. Qed.

(** On entries with distinct keys the map is the list of entries itself. *)
Lemma mset_fresh k v m : k ∉ m.*1 → mset k v m = m ++ [(k, v)].
Proof.
  induction m as [|[k' v'] m IH]; cbn; [done|].
  rewrite not_elem_of_cons. intros [? ?]. rewrite decide_False by done. by rewrite IH.
Qed.

Lemma mof_NoDup entries : NoDup (entries.*1) → mof entries = entries.
Proof.
  induction entries as [|[k v] l IH] using rev_ind; [done|].
  rewrite fmap_app, NoDup_app. intros (Hl & Hd & _).
  rewrite mof_snoc, IH by done. apply mset_fresh. intros Hin. by apply (Hd k); [|left].
Qed.

Lemma mget_elem k v m : NoDup (m.*1) → (k, v) ∈ m → mget k m = Some v.
Proof.
  induction m as [|[k' v'] m IH]; cbn; [intros _ Hin; by apply elem_of_nil in Hin|].
  intros [Hk Hm]%NoDup_cons [[= -> ->]|Hin]%elem_of_cons; [by rewrite decide_True|].
  rewrite decide_False; [by apply IH|]. intros ->. apply Hk. by apply (list_elem_of_fmap_2 fst) in Hin.
Qed.

Lemma mget_elem_inv k v m : mget k m = Some v → (k, v) ∈ m.
Proof.
  induction m as [|[k' v'] m IH]; cbn; [done|]. case_decide; intros; simplify_eq; [left|right; auto].
Qed.
End JsMap.

(** ** String enumerations

    A TypeScript union of string literals is an inductive type whose
    constructors carry the literals as names; [enum_of] is the test
    [SET.has(v)] followed by the cast. *)

Class JsEnum (A : Type) := {
  enum_all : list A;
  enum_name : A → string;
  enum_complete : ∀ a, a ∈ enum_all;
  enum_name_inj : Inj (=) (=) enum_name;
}.
#[export] Existing Instance enum_name_inj.

Section Enum.
Context `{JsEnum A}.

Definition enum_of (v : jsval) : option A := findb (λ a, is_str v (enum_name a)) enum_all.
Definition is_enum (v : jsval) : bool := bool_decide (is_Some (enum_of v)).

(** [v as A], with a default that is never used after [is_enum]. *)
Definition enum_cast (default : A) (v : jsval) : A := from_option id default (enum_of v).

Lemma enum_of_Some v a : enum_of v = Some a ↔ v = JStr (enum_name a).
Proof.
  unfold enum_of. split.
  - intros [_ Hs]%findb_Some. unfold is_str in Hs. destruct v; try done. split_bool. by subst.
  - intros ->. destruct (findb _ _) as [b|] eqn:Hf.
    + apply findb_Some in Hf as [_ Hb]. cbn in Hb. split_bool. f_equal. by apply (inj enum_name).
    + apply findb_None in Hf. rewrite Forall_forall in Hf. specialize (Hf a (enum_complete a)).
      cbn in Hf. by rewrite bool_decide_eq_true_2 in Hf.
Qed.

Lemma enum_of_name a : enum_of (JStr (enum_name a)) = Some a.
Proof. by apply enum_of_Some. Qed.

Lemma is_enum_name a : is_enum (JStr (enum_name a)) = true.
Proof. unfold is_enum. rewrite enum_of_name. done. Qed.

Lemma enum_cast_name d a : enum_cast d (JStr (enum_name a)) = a.
Proof. unfold enum_cast. by rewrite enum_of_name. Qed.

Lemma is_enum_inv v : is_enum v = true → ∃ a, v = JStr (enum_name a).
Proof.
  unfold is_enum. intros Hv. split_bool. destruct Hv as [a Ha]. exists a.
  by apply enum_of_Some.
Qed.
End Enum.

Ltac solve_enum :=
  match goal with
  | |- ∀ a, a ∈ _ => intros []; repeat (first [left | right])
  | |- Inj _ _ _ => intros [] []; cbn; congruence
  end.

#[global] Arguments enum_of : simpl never.
#[global] Arguments enum_name : simpl never.
#[global] Arguments is_enum : simpl never.
#[global] Arguments enum_cast : simpl never.
#[global] Arguments SAFE_ID : simpl never.
#[global] Arguments SHA256 : simpl never.
#[global] Arguments boundedText : simpl never.
#[global] Arguments positiveInteger : simpl never.
#[global] Arguments nonNegativeInteger : simpl never.

(** ** Inversion of the checks: a value that passes has the form its cast reads. *)

Lemma isSafeInteger_inv v : isSafeInteger v = true → v = JInt (js_int v).
Proof. by destruct v as [| | |[]| | | |]. Qed.
Lemma positiveInteger_inv v :
  positiveInteger v = true → ∃ z, v = JInt z ∧ 0 < z ≤ MAX_SAFE_INTEGER.
Proof.
  unfold positiveInteger. destruct v as [| | |[z| | |]| | | |]; try done.
  cbn -[MAX_SAFE_INTEGER]. intros [Hs Hp]%andb_true_iff. exists z. split; [done|]. lia.
Qed.
Lemma nonNegativeInteger_inv v :
  nonNegativeInteger v = true → ∃ z, v = JInt z ∧ 0 ≤ z ≤ MAX_SAFE_INTEGER.
Proof.
  unfold nonNegativeInteger. destruct v as [| | |[z| | |]| | | |]; try done.
  cbn -[MAX_SAFE_INTEGER]. intros [Hs Hp]%andb_true_iff. exists z. split; [done|]. lia.
Qed.
Lemma positiveInteger_int z : positiveInteger (JInt z) = true ↔ 0 < z ≤ MAX_SAFE_INTEGER.
Proof. unfold positiveInteger. cbn -[MAX_SAFE_INTEGER]. rewrite andb_true_iff. unfold MAX_SAFE_INTEGER; lia. Qed.
Lemma nonNegativeInteger_int z : nonNegativeInteger (JInt z) = true ↔ 0 ≤ z ≤ MAX_SAFE_INTEGER.
Proof. unfold nonNegativeInteger. cbn -[MAX_SAFE_INTEGER]. rewrite andb_true_iff. unfold MAX_SAFE_INTEGER; lia. Qed.
Lemma safeId_inv v : safeId v = true → ∃ s, v = JStr s ∧ SAFE_ID s = true.
Proof. destruct v; try done. by eexists. Qed.
Lemma digest_inv v : digest v = true → ∃ s, v = JStr s ∧ SHA256 s = true.
Proof. destruct v; try done. by eexists. Qed.
Lemma boundedText_inv v n : boundedText v n = true → ∃ s, v = JStr s ∧ boundedText (JStr s) n = true.
Proof. destruct v; try done. by eexists. Qed.
Lemma is_str_inv v s : is_str v s = true → v = JStr s.
Proof. destruct v; try done. cbn. intros. split_bool. by subst. Qed.
Lemma is_int_inv v z : is_int v z = true → v = JInt z.
Proof. destruct v as [| | |[]| | | |]; try done. cbn. intros ->%Z.eqb_eq. done. Qed.
Lemma is_arr_inv v : is_arr v = true → ∃ l, v = JArr l.
Proof. destruct v; try done. by eexists. Qed.
Lemma is_bool_inv v : is_bool v = true → ∃ b, v = JBool b.
Proof. destruct v; try done. by eexists. Qed.
Lemma is_undef_inv v : is_undef v = true → v = JUndef.
Proof. by destruct v. Qed.

Lemma js_strs_inv l : forallb is_string l = true → JStrs (js_str <$> l) = JArr l.
Proof.
  unfold JStrs. intros Hl%forallb_true. f_equal. rewrite <-list_fmap_compose.
  induction Hl as [|x l Hx _ IH]; cbn; [done|]. rewrite IH. by destruct x.
Qed.
