(* ===== verification/JsOps.v ===== *)
(** * Operations on values and their checks

    What the modelled files do with a value besides reading its members, and
    lemmas and tactics that turn the checks of a validator into the values they
    describe. *)

From Stdlib Require Import SpecFloat.
From S2P Require Import Prelude Js.
Local Open Scope Z_scope.

(** ** Binary64 numbers *)

(** The binary64 value of a number; [NFrac n d] has a power of two for [d]. *)
Definition num_float (n : jsnum) : spec_float :=
  match n with
  | NInt z => binary_normalize 53 1024 z 0 false
  | NFrac m d => binary_normalize 53 1024 m (- Z.log2 (Zpos d)) false
  | NNaN => S754_nan
  | NInf negative => S754_infinity negative
  end.

(** The number of a binary64 value, in lowest terms. *)
Definition float_num (f : spec_float) : jsnum :=
  match f with
  | S754_zero _ => NInt 0
  | S754_infinity negative => NInf negative
  | S754_nan => NNaN
  | S754_finite s m e =>
      let signed := if s then Zneg m else Zpos m in
      if 0 <=? e then NInt (signed * 2 ^ e)
      else
        let g := Z.gcd signed (2 ^ (- e)) in
        if 2 ^ (- e) / g =? 1 then NInt (signed / g)
        else NFrac (signed / g) (Z.to_pos (2 ^ (- e) / g))
  end.

(** [a + b] on numbers. *)
Definition num_add (a b : jsnum) : jsnum := float_num (SFadd 53 1024 (num_float a) (num_float b)).

Definition is_finite (n : jsnum) : bool :=
  match n with NInt _ | NFrac _ _ => true | NNaN | NInf _ => false end.

(** [a <= b] on numbers; a comparison with [NaN] is false. *)
Definition num_le (a b : jsnum) : bool :=
  match a, b with
  | NNaN, _ | _, NNaN => false
  | NInf negative, NInf negative' => negative || negb negative'
  | NInf negative, _ => negative
  | _, NInf negative => negb negative
  | NInt x, NInt y => x <=? y
  | NInt x, NFrac y d => x * Zpos d <=? y
  | NFrac x d, NInt y => x <=? y * Zpos d
  | NFrac x d, NFrac y d' => x * Zpos d' <=? y * Zpos d
  end.

Example num_add_exact : num_add (NFrac 1 2) (NFrac 1 4) = NFrac 3 4.
Proof. reflexivity. Qed.
Example num_add_rounds : num_add (NInt (2 ^ 53)) (NInt 1) = NInt (2 ^ 53).
Proof. vm_compute. reflexivity. Qed.

(** ** Strict identity *)

(** [a === b] for two values of which the object ones are distinct objects. *)
Definition identical (a b : jsval) : bool :=
  match a, b with
  | JUndef, JUndef | JNull, JNull => true
  | JBool x, JBool y => Bool.eqb x y
  | JNum x, JNum y => negb (bool_decide (x = NNaN)) && bool_decide (x = y)
  | JStr x, JStr y => String.eqb x y
  | _, _ => false
  end.

(** ** The order of texts *)

(** The UTF-16 code units of a text from its UTF-8 bytes.  A lone surrogate has
    the three bytes of its generalised form. *)
Fixpoint code_units (bytes : list Z) : list Z :=
  match bytes with
  | a :: rest =>
      if a <? 128 then a :: code_units rest
      else match rest with
      | b :: rest1 =>
          if a <? 224 then (a - 192) * 64 + (b - 128) :: code_units rest1
          else match rest1 with
          | c :: rest2 =>
              if a <? 240 then (a - 224) * 4096 + (b - 128) * 64 + (c - 128) :: code_units rest2
              else match rest2 with
              | d :: rest3 =>
                  let point := (a - 240) * 262144 + (b - 128) * 4096 + (c - 128) * 64 + (d - 128) - 65536 in
                  55296 + point / 1024 :: 56320 + point mod 1024 :: code_units rest3
              | [] => []
              end
          | [] => []
          end
      | [] => []
      end
  | [] => []
  end.
Definition utf16 (s : string) : list Z :=
  code_units ((λ a, Z.of_nat (nat_of_ascii a)) <$> String.list_ascii_of_string s).

Fixpoint units_ltb (a b : list Z) : bool :=
  match a, b with
  | _, [] => false
  | [], _ :: _ => true
  | x :: a, y :: b => (x <? y) || ((x =? y) && units_ltb a b)
  end.

(** [a < b] on strings. *)
Definition text_ltb (a b : string) : bool := units_ltb (utf16 a) (utf16 b).

(** ** The relational operator [<=] *)

(** [toString] of an object is looked up on the object first: an own property
    of that name is not callable, and the conversion throws. *)
Fixpoint converts (v : jsval) : bool :=
  match v with
  | JArr l => forallb converts l
  | JObj o => negb (hasOwn o "toString")
  | _ => true
  end.

Section Relational.
Context `{JsEngine}.

Definition primitive_number (v : jsval) : jsnum :=
  match v with
  | JUndef => NNaN
  | JNull => NInt 0
  | JBool b => NInt (if b then 1 else 0)
  | JNum n => n
  | _ => String_toNumber (js_String v)
  end.

(** [String(v)], with the exception of a failing conversion. *)
Definition to_text (v : jsval) : res string :=
  fail_if (negb (converts v)) "TypeError";; Ok (js_String v).

(** [a <= b], with the exception of a failing conversion. *)
Definition js_le (a b : jsval) : res bool :=
  let is_text v := match v with JStr _ | JArr _ | JObj _ | JFun => true | _ => false end in
  fail_if (negb (converts a) || negb (converts b)) "TypeError";;
  Ok (if is_text a && is_text b then negb (text_ltb (js_String b) (js_String a))
      else num_le (primitive_number a) (primitive_number b)).
End Relational.

Lemma is_string_inv v : is_string v = true → ∃ s, v = JStr s.
Proof. destruct v; try done. by eexists. Qed.
Lemma timestamp_inv `{JsEngine} v : timestamp v = true → ∃ s, v = JStr s ∧ timestamp (JStr s) = true.
Proof. destruct v; try done. by eexists. Qed.
Lemma canonicalInstant_inv `{JsEngine} v :
  canonicalInstant v = true → ∃ s, v = JStr s ∧ canonicalInstant (JStr s) = true.
Proof. destruct v; try done. by eexists. Qed.

(** Checks of one component, added where the component is treated. *)
Ltac canon_hook := fail.

(** Replace every checked property read by the value the check describes. *)
Ltac canon_step :=
  match goal with
  | H : positiveInteger (get _ _) = true |- _ =>
      apply positiveInteger_inv in H as (? & ? & ?)
  | H : nonNegativeInteger (get _ _) = true |- _ =>
      apply nonNegativeInteger_inv in H as (? & ? & ?)
  | H : safeId (get _ _) = true |- _ => apply safeId_inv in H as (? & ? & ?)
  | H : digest (get _ _) = true |- _ => apply digest_inv in H as (? & ? & ?)
  | H : is_str (get _ _) _ = true |- _ => apply is_str_inv in H
  | H : is_int (get _ _) _ = true |- _ => apply is_int_inv in H
  | H : is_string (get _ _) = true |- _ => apply is_string_inv in H as (? & ?)
  | H : is_arr (get _ _) = true |- _ => apply is_arr_inv in H as (? & ?)
  | H : is_bool (get _ _) = true |- _ => apply is_bool_inv in H as (? & ?)
  | H : is_undef (get _ _) = true |- _ => apply is_undef_inv in H
  | H : is_enum (get _ _) = true |- _ => apply is_enum_inv in H as (? & ?)
  | H : timestamp (get _ _) = true |- _ => apply timestamp_inv in H as (? & ? & ?)
  | H : canonicalInstant (get _ _) = true |- _ => apply canonicalInstant_inv in H as (? & ? & ?)
  | H : boundedText (get _ _) _ = true |- _ => apply boundedText_inv in H as (? & ? & ?)
  | _ => canon_hook
  | E : get ?o ?k = _, H : context [get ?o ?k] |- _ =>
      lazymatch type of H with get o k = _ => fail | _ => idtac end; rewrite E in H
  | E : get ?o ?k = _ |- context [get ?o ?k] => rewrite E
  end.

Lemma opt_check_inv v b : negb (is_undef v) && b = false → v = JUndef ∨ b = false.
Proof. destruct v, b; naive_solver. Qed.

Ltac canon := repeat (split_bool; first
  [ progress (repeat canon_step)
  | match goal with
    | H : negb (is_undef (get _ _)) && _ = false |- _ => apply opt_check_inv in H as [H|H]
    end ]).

(** The guards over the canonical values hold by the recorded facts. *)
Ltac guards_with tac := repeat progress (
  repeat match goal with
  | H : ?b = true |- context [?b] => rewrite H
  | H : ?b = false |- context [?b] => rewrite H
  | H : ?m = Ok ?r |- context [?m ≫= _] => rewrite H
  | |- context [positiveInteger (JInt ?z)] => rewrite (proj2 (positiveInteger_int z)) by done
  | |- context [nonNegativeInteger (JInt ?z)] => rewrite (proj2 (nonNegativeInteger_int z)) by done
  | |- context [is_enum (JStr (enum_name ?a))] => rewrite (is_enum_name a)
  | |- context [enum_cast ?d (JStr (enum_name ?a))] => rewrite (enum_cast_name d a)
  end; tac).
Ltac guards := guards_with ltac:(cbn).

(** Lists and optional parts read back when their elements do. *)
Lemma mapM_reparse {A} (f : jsval → res A) (g : A → jsval) xs ys :
  (∀ x y, f x = Ok y → f (g y) = Ok y) → mapM f xs = Ok ys → mapM f (g <$> ys) = Ok ys.
Proof.
  intros Hfg Hxs. apply mapM_Ok_map. apply mapM_Ok in Hxs.
  induction Hxs; constructor; eauto.
Qed.

Lemma opt_res_reparse {A} (f : jsval → res A) (g : A → jsval) v o :
  (∀ x y, f x = Ok y → f (g y) = Ok y) → (∀ y, g y ≠ JUndef) →
  opt_res f v = Ok o → opt_res f (undef_prop g o) = Ok o.
Proof.
  intros Hfg Hg. destruct v; cbn; intros Hv; inv_ok; try done;
    repeat inv_ok_step; subst; cbn;
    match goal with E : f _ = Ok ?y |- _ => apply Hfg in E; destruct (g y) eqn:Hgy; cbn in *;
      rewrite ?E; try done; by destruct (Hg y) end.
Qed.

(** Reading an optional property at the front of a literal. *)
Lemma get_opt_prop_eq {A} k (g : A → jsval) o rest :
  get rest k = JUndef → get (opt_prop k g o ++ rest) k = undef_prop g o.
Proof. destruct o; cbn; [rewrite String.eqb_refl|]; done. Qed.
Lemma get_opt_prop_eq_nil {A} k (g : A → jsval) o : get (opt_prop k g o) k = undef_prop g o.
Proof. rewrite <-(app_nil_r (opt_prop _ _ _)). by apply get_opt_prop_eq. Qed.
Lemma get_opt_prop_ne {A} k k' (g : A → jsval) o rest :
  String.eqb k k' = false → get (opt_prop k g o ++ rest) k' = get rest k'.
Proof. destruct o; cbn; [intros ->|]; done. Qed.
