(* ===== verification/CanonicalJson.v ===== *)
(** * Canonical JSON: packages/core-sdk/src/canonical-json.ts

    The text of a JSON value with sorted keys, over which the digests of the
    durable records are taken.  A [jsval] is a tree of plain data properties, so
    the tests for repeated objects, prototypes and accessors hold of it. *)

From S2P Require Import Prelude Js JsOps.
Local Open Scope Z_scope.

(** [compareCodeUnits(left, right) <= 0]. *)
Definition compareCodeUnits (left right : string) : bool := negb (text_ltb right left).

(** What [node:crypto] provides: the hexadecimal SHA-256 of a text. *)
Class JsCrypto := { sha256_hex : string → string }.

Section Serialize.
Context `{JsEngine}.

Fixpoint serialize (value : jsval) : res string :=
  match value with
  | JNull => Ok "null"%string
  | JBool b => Ok (if b then "true" else "false")%string
  | JStr s => Ok (json_string s)
  | JNum n => fail_if (negb (is_finite n)) "CANONICAL_JSON_INVALID";; Ok (num_string n)
  | JArr l => texts ← mapM serialize l; Ok ("[" +:+ join "," texts +:+ "]")
  | JObj o =>
      members ← mapM (λ '(k, x), t ← serialize x; Ok (k, json_string k +:+ ":" +:+ t)) o;
      Ok ("{" +:+ join "," (js_sort (λ a b, compareCodeUnits a.1 b.1) members).*2 +:+ "}")
  | JUndef | JFun => Err "CANONICAL_JSON_INVALID"
  end.

Definition canonicalJsonV1 (value : jsval) : res string := serialize value.
Definition canonicalDigestV1 `{JsCrypto} (value : jsval) : res string :=
  text ← canonicalJsonV1 value; Ok ("sha256:" +:+ sha256_hex text).
End Serialize.
