(* ===== verification/Graph.v ===== *)
(** * Dependency graphs

    Two cycle checks recur in the repository: the queue of in-degrees
    ([assertAcyclic] of packages/core-sdk/src/workflow.ts) and the depth-first
    visit with a [visiting] set ([assertAcyclic] of
    apps/runtime/src/planner/planValidator.ts, [assertPlanDependencies] of
    packages/core-sdk/src/session-journal.ts).  Both are modelled here on
    string identifiers and proved to accept exactly the acyclic graphs; the
    component files instantiate them. *)

From S2P Require Import Prelude Js.
Local Open Scope Z_scope.

(** ** Acyclic relations *)

(** No identifier precedes itself, in one or more steps. *)
Definition acyclic (R : relation string) : Prop := ∀ n, ¬ tc R n n.

(** Edges as pairs [(from, to)]. *)
Definition edge (E : list (string * string)) : relation string := λ a b, (a, b) ∈ E.

(** Every predecessor of an element of [P] occurs later in [P]. *)
Fixpoint topo (R : relation string) (P : list string) : Prop :=
  match P with
  | [] => True
  | b :: P => (∀ a, R a b → a ∈ P) ∧ topo R P
  end.

#[export] Instance acyclic_proper : Proper (pointwise_relation _ (pointwise_relation _ iff) ==> iff) acyclic.
Proof.
  intros R R' HR. unfold acyclic.
  assert (∀ x y, tc R x y ↔ tc R' x y) as Htc.
  { intros x y. split; (induction 1; [apply tc_once|eapply tc_l; [|done]]; by apply HR). }
  by setoid_rewrite Htc.
Qed.

(** ** Kahn's queue *)

Section Kahn.
(** The two maps: successors of each node, in-degree of each node. *)
Definition add_edge (st : list (string * list string) * list (string * Z))
    (e : string * string) : list (string * list string) * list (string * Z) :=
  (mset e.1 (default [] (mget e.1 st.1) ++ [e.2]) st.1,
   mset e.2 (default 0 (mget e.2 st.2) + 1) st.2).

Definition degrees (nodes : list string) (E : list (string * string)) :
    list (string * list string) * list (string * Z) :=
  foldl add_edge ([], mof ((λ n, (n, 0)) <$> nodes)) E.

(** The inner loop: decrement each successor, enqueue those that reach 0. *)
Fixpoint relax (targets : list string) (indegree : list (string * Z)) (ready : list string) :
    list (string * Z) * list string :=
  match targets with
  | [] => (indegree, ready)
  | next :: targets =>
      let count := default 0 (mget next indegree) - 1 in
      relax targets (mset next count indegree)
        (if count =? 0 then ready ++ [next] else ready)
  end.

(** The outer loop; [None] when the fuel runs out before the queue does. *)
Fixpoint kahn_loop (fuel : nat) (outgoing : list (string * list string))
    (indegree : list (string * Z)) (ready : list string) (visited : Z) : option Z :=
  match ready, fuel with
  | [], _ => Some visited
  | _, O => None
  | id :: ready, S fuel =>
      let '(indegree, ready) := relax (default [] (mget id outgoing)) indegree ready in
      kahn_loop fuel outgoing indegree ready (visited + 1)
  end.

(** The number of nodes the queue visits. *)
Definition kahn_visited (nodes : list string) (E : list (string * string)) : option Z :=
  let '(outgoing, indegree) := degrees nodes E in
  let ready := (filter (λ kv, kv.2 = 0) indegree).*1 in
  kahn_loop (length nodes) outgoing indegree ready 0.
End Kahn.

(** ** Depth-first visit *)

Section Dfs.
Variable deps : string → option (list string).
Variables (cycle missing : string).

Fixpoint visit_all (f : string → list string → option (res (list string)))
    (ds : list string) (visited : list string) : option (res (list string)) :=
  match ds with
  | [] => Some (Ok visited)
  | d :: ds =>
      match f d visited with
      | Some (Ok visited) => visit_all f ds visited
      | r => r
      end
  end.

(** [visit(key)]: the result is the new [visited] set; [visiting] is restored
    on return, so it is a parameter. *)
Fixpoint visit (fuel : nat) (key : string) (visiting visited : list string) :
    option (res (list string)) :=
  match fuel with
  | O => None
  | S fuel =>
      if memb key visited then Some (Ok visited)
      else if memb key visiting then Some (Err cycle)
      else
        match deps key with
        | None => Some (Err missing)
        | Some ds =>
            match visit_all (λ d vd, visit fuel d (key :: visiting) vd) ds visited with
            | Some (Ok visited) => Some (Ok (key :: visited))
            | r => r
            end
        end
  end.

(** [for (const key of keys) visit(key)]. *)
Definition visit_from (fuel : nat) (keys : list string) : option (res (list string)) :=
  visit_all (λ k vd, visit fuel k [] vd) keys [].

(** [a] is a dependency of [b]. *)
Definition depends : relation string := λ a b, ∃ ds, deps b = Some ds ∧ a ∈ ds.
End Dfs.

(** * Correctness *)

Lemma tc_last {A} (R : relation A) x y : tc R x y → ∃ z, rtc R x z ∧ R z y.
Proof.
  induction 1 as [x y Hxy|x y z Hxy _ (w & ? & ?)].
  - exists x. split; [apply rtc_refl|done].
  - exists w. split; [by eapply rtc_l|done].
Qed.

Section Topo.
Context (R : relation string).

Lemma topo_closed P a b : topo R P → R a b → b ∈ P → a ∈ P.
Proof.
  induction P as [|c P IH]; cbn; [intros _ _ Hb; by apply elem_of_nil in Hb|].
  intros [Hc HP] Hab [->|Hb]%elem_of_cons; right; eauto.
Qed.

Lemma topo_closed_rtc P a b : topo R P → rtc R a b → b ∈ P → a ∈ P.
Proof. intros HP. induction 1; eauto using topo_closed. Qed.

Lemma topo_irrefl P n : topo R P → NoDup P → n ∈ P → ¬ tc R n n.
Proof.
  induction P as [|b P IH]; cbn; [intros _ _ Hb; by apply elem_of_nil in Hb|].
  intros [Hb HP] [Hnb Hnd]%NoDup_cons [->|Hn]%elem_of_cons; [|by apply IH].
  intros (a & Hba & Hab)%tc_last. apply Hnb.
  by eapply topo_closed_rtc; [| |apply Hb].
Qed.

Lemma topo_acyclic P :
  topo R P → NoDup P → (∀ a b, R a b → b ∈ P) → acyclic R.
Proof.
  intros HP Hnd Hcov n Hn. destruct (tc_last _ _ _ Hn) as (a & _ & Han).
  by eapply topo_irrefl; [| |eapply Hcov|].
Qed.

(** In a finite acyclic graph a set that every outside node points into is total. *)
Lemma acyclic_total (nodes P : list string) :
  acyclic R →
  (∀ a b, R a b → a ∈ nodes) →
  (∀ b, b ∈ nodes → b ∉ P → ∃ a, R a b ∧ a ∉ P) →
  ∀ n, n ∈ nodes → n ∈ P.
Proof.
  intros Hac Hfin Hpred.
  assert (∀ n, sn (flip R) n) as Hsn.
  { intros n. apply tc_finite_sn.
    - intros x Hx. apply (Hac x). clear -Hx.
      assert (∀ y z, tc (flip R) y z → tc R z y) as Hflip; [|by apply Hflip].
      induction 1; [by apply tc_once|]. eapply tc_r; [done|]. done.
    - exists nodes. intros y Hy. destruct (tc_last _ _ _ Hy) as (z & _ & Hz). by eapply Hfin. }
  intros n. induction (Hsn n) as [n _ IH]. intros Hn.
  destruct (decide (n ∈ P)) as [|HnP]; [done|].
  destruct (Hpred n Hn HnP) as (a & Ha & HaP). destruct HaP. apply IH; [done|]. by eapply Hfin.
Qed.
End Topo.

(** A finite acyclic graph has a first node among the chosen ones. *)
Lemma acyclic_first (E : list (string * string)) (chosen : list string) :
  acyclic (edge E) → chosen ≠ [] →
  ∃ k, k ∈ chosen ∧ ∀ a, a ∈ chosen → (a, k) ∉ E.
Proof.
  intros Hac Hne.
  destruct (decide (Exists (λ k, Forall (λ a, (a, k) ∉ E) chosen) chosen)) as [Hex|Hno].
  - apply Exists_exists in Hex as (k & Hk & Hf). rewrite Forall_forall in Hf. by exists k.
  - exfalso. destruct chosen as [|c l]; [done|]. set (all := E.*1 ++ c :: l).
    assert (∀ n, n ∈ all → n ∈ filter (λ n, n ∉ c :: l) all) as Htotal.
    { apply (acyclic_total (edge E) all); [done|..].
      - intros a b Hab. apply elem_of_app. left. by apply (list_elem_of_fmap_2 fst) in Hab.
      - intros b Hb Hnb. rewrite list_elem_of_filter in Hnb.
        assert (b ∈ c :: l) as Hbc by (destruct (decide (b ∈ c :: l)); [done|naive_solver]).
        rewrite <-Forall_Exists_neg, Forall_forall in Hno. specialize (Hno b Hbc).
        apply not_Forall_Exists in Hno; [|apply _]. apply Exists_exists in Hno as (a & Ha & Hab).
        exists a. split; [unfold edge; by apply dec_stable|]. rewrite list_elem_of_filter. by intros [? _]. }
    specialize (Htotal c ltac:(apply elem_of_app; right; left)).
    apply list_elem_of_filter in Htotal as [Hc _]. apply Hc. left.
Qed.

(** ** Kahn's queue *)

(** Edges into [n] whose source is not in [P]. *)
Definition pend (E : list (string * string)) (P : list string) (n : string) : nat :=
  length (filter (λ e, e.2 = n ∧ e.1 ∉ P) E).
Definition occ (n : string) (l : list string) : nat := length (filter (λ x, x = n) l).
Definition outs (E : list (string * string)) (n : string) : list string :=
  (filter (λ e, e.1 = n) E).*2.

#[local] Arguments occ : simpl never.
#[local] Arguments pend : simpl never.

Section KahnProofs.
Implicit Types (E : list (string * string)) (P R : list string).

Lemma occ_cons n x l : occ n (x :: l) = ((if decide (x = n) then 1 else 0) + occ n l)%nat.
Proof. unfold occ. rewrite filter_cons. by case_decide. Qed.

Lemma occ_pos n l : n ∈ l ↔ (0 < occ n l)%nat.
Proof.
  induction l as [|x l IH].
  { unfold occ; cbn. split; [intros Hn; by apply elem_of_nil in Hn|lia]. }
  rewrite occ_cons, elem_of_cons, IH. case_decide; naive_solver lia.
Qed.

Lemma pend_step E P id n :
  id ∉ P → pend E P n = (pend E (id :: P) n + occ n (outs E id))%nat.
Proof.
  intros Hid. unfold pend, outs. induction E as [|[a b] E IH]; [done|].
  rewrite !filter_cons. cbn.
  destruct (decide (a = id)) as [->|Ha]; cbn; rewrite ?occ_cons;
    repeat case_decide; cbn; first [lia | exfalso; set_solver].
Qed.

Lemma pend_zero E P n : pend E P n = 0%nat ↔ ∀ a, (a, n) ∈ E → a ∈ P.
Proof.
  unfold pend. rewrite length_zero_iff_nil. split.
  - intros Hnil a Ha. destruct (decide (a ∈ P)) as [|Hn]; [done|].
    assert ((a, n) ∈ filter (λ e : string * string, e.2 = n ∧ e.1 ∉ P) E) as Hin
      by (by apply list_elem_of_filter).
    rewrite Hnil in Hin. by apply elem_of_nil in Hin.
  - intros H. destruct (filter _ E) as [|[a b] l] eqn:Hf; [done|].
    assert ((a, b) ∈ filter (λ e : string * string, e.2 = n ∧ e.1 ∉ P) E) as Hin
      by (rewrite Hf; left).
    apply list_elem_of_filter in Hin as [[? Hn] Hin]; cbn in *; subst.
    destruct Hn. by apply H.
Qed.

Lemma degrees_spec nodes E :
  let st := degrees nodes E in
  (∀ n, default [] (mget n st.1) = outs E n) ∧
  (∀ n, default 0 (mget n st.2) = Z.of_nat (pend E [] n)) ∧
  (NoDup nodes → (∀ a b, (a, b) ∈ E → b ∈ nodes) → st.2.*1 = nodes).
Proof.
  unfold degrees. induction E as [|[a b] E (IH1 & IH2 & IH3)] using rev_ind; cbn.
  { split; [done|split].
    - intros n. destruct (mget n _) as [z|] eqn:Hz; [|done].
      assert (∀ l m, (∀ z, (n, z) ∈ m → z = 0) →
        mget n (foldl (λ m kv, mset kv.1 kv.2 m) m ((λ n, (n, 0)) <$> l)) = Some z → z = 0) as Hgen.
      { induction l as [|x l IHl]; cbn; intros m Hm Hg; [by apply mget_elem_inv in Hg; apply Hm|].
        eapply IHl; [|done]. intros z' Hz'. clear -Hm Hz'. induction m as [|[k v] m IHm]; cbn in *.
        - set_solver.
        - case_decide; subst; set_solver. }
      rewrite (Hgen nodes [] ltac:(set_solver) Hz). done.
    - intros Hnd _. rewrite mof_NoDup; [|rewrite <-list_fmap_compose; cbn; by rewrite list_fmap_id].
      rewrite <-list_fmap_compose. cbn. by rewrite list_fmap_id. }
  rewrite foldl_app. cbn. split; [|split].
  - intros n. rewrite mget_mset. unfold outs. rewrite filter_app, fmap_app, filter_cons. cbn.
    destruct (decide (a = n)) as [->|?]; cbn; [by rewrite IH1|by rewrite app_nil_r, IH1].
  - intros n. rewrite mget_mset. unfold pend in *. rewrite filter_app, length_app, filter_cons. cbn.
    destruct (decide (b = n)) as [->|?]; cbn.
    + rewrite decide_True by set_solver. cbn. rewrite IH2. lia.
    + rewrite decide_False by set_solver. cbn. rewrite IH2. lia.
  - intros Hnd HE. rewrite mset_keys, IH3; [|done|set_solver].
    rewrite decide_True; [done|]. apply (HE a). set_solver.
Qed.

Lemma relax_spec ts ind R :
  (∀ n, Z.of_nat (occ n ts) ≤ default 0 (mget n ind)) →
  ∃ added, (relax ts ind R).2 = R ++ added ∧ NoDup added ∧
    (∀ n, default 0 (mget n (relax ts ind R).1) = default 0 (mget n ind) - Z.of_nat (occ n ts)) ∧
    (∀ n, n ∈ added ↔ n ∈ ts ∧ default 0 (mget n ind) = Z.of_nat (occ n ts)).
Proof.
  revert ind R. induction ts as [|t ts IH]; intros ind R Hocc; cbn.
  { exists []. rewrite app_nil_r. split_and!; [done|constructor|intros; unfold occ; cbn; lia|set_solver]. }
  set (c := default 0 (mget t ind) - 1).
  assert (∀ n, default 0 (mget n (mset t c ind))
    = default 0 (mget n ind) - (if decide (t = n) then 1 else 0)) as Hc.
  { intros n. rewrite mget_mset. case_decide; subst; cbn; lia. }
  destruct (IH (mset t c ind) (if c =? 0 then R ++ [t] else R)) as (added & HR & Hnd & Hind & Hin).
  { intros n. specialize (Hocc n). rewrite Hc. rewrite occ_cons in Hocc. case_decide; lia. }
  assert (∀ n, n ∈ added ↔ n ∈ ts ∧ default 0 (mget n ind) = Z.of_nat (occ n (t :: ts))) as Hin'.
  { intros n. rewrite Hin, Hc, occ_cons. case_decide; subst; split; intros [? ?]; split; auto; lia. }
  pose proof (Hocc t) as Ht. rewrite occ_cons, decide_True in Ht by done.
  exists (if c =? 0 then t :: added else added). split_and!.
  - rewrite HR. destruct (c =? 0); [by rewrite <-app_assoc|done].
  - destruct (Z.eqb_spec c 0) as [Hc0|]; [|done]. constructor; [|done].
    rewrite Hin'. intros [Hts%occ_pos _]. lia.
  - intros n. rewrite Hind, Hc, occ_cons. case_decide; lia.
  - intros n. rewrite elem_of_cons.
    destruct (Z.eqb_spec c 0) as [Hc0|Hc0].
    + rewrite elem_of_cons, Hin'. destruct (decide (n = t)) as [->|?]; [|naive_solver].
      rewrite occ_cons, decide_True by done. split; [|naive_solver]. intros _. split; [by left|].
      lia.
    + rewrite Hin'. split; [naive_solver|]. intros [[->|?] Hd]; [|done].
      split; [|done]. apply occ_pos. rewrite occ_cons, decide_True in Hd by done. lia.
Qed.
End KahnProofs.

(** Loop invariant: [P] the visited nodes (latest first), [R] the queue. *)
Record kahn_inv (nodes : list string) (E : list (string * string))
    (P R : list string) (indegree : list (string * Z)) : Prop := {
  ki_nodup : NoDup (P ++ R);
  ki_nodes : ∀ n, n ∈ P ++ R → n ∈ nodes;
  ki_count : ∀ n, default 0 (mget n indegree) = Z.of_nat (pend E P n);
  ki_ready : ∀ n, n ∈ nodes → n ∈ P ++ R ↔ pend E P n = 0%nat;
  ki_topo : topo (edge E) P;
}.

Section KahnLoop.
Context (nodes : list string) (E : list (string * string)).
Hypothesis Hends : ∀ a b, (a, b) ∈ E → a ∈ nodes ∧ b ∈ nodes.

Lemma kahn_inv_step P id R ind :
  kahn_inv nodes E P (id :: R) ind →
  kahn_inv nodes E (id :: P) (relax (outs E id) ind R).2 (relax (outs E id) ind R).1.
Proof.
  intros [Hnd Hin Hcnt Hrdy Htopo].
  assert (id ∉ P) as HidP.
  { apply NoDup_app in Hnd as (_ & Hdis & _). intros Hid. by apply (Hdis id Hid); left. }
  assert (Permutation (id :: P ++ R) (P ++ id :: R)) as Hperm by apply Permutation_middle.
  destruct (relax_spec (outs E id) ind R) as (added & HR & Hna & Hind & Hadd).
  { intros n. rewrite Hcnt, (pend_step E P id n) by done. lia. }
  rewrite HR.
  assert (∀ n, n ∈ added → n ∈ nodes ∧ n ∉ P ++ id :: R) as Hfresh.
  { intros n [Hn Hz]%Hadd. assert (n ∈ nodes) as Hnn.
    { unfold outs in Hn. apply list_elem_of_fmap in Hn as ([a b] & -> & Hf).
      apply list_elem_of_filter in Hf as [_ Hf]. by apply Hends in Hf as [_ ?]. }
    split; [done|]. rewrite (Hrdy n Hnn). rewrite Hcnt in Hz.
    apply occ_pos in Hn. lia. }
  split.
  - rewrite app_assoc. apply NoDup_app. split_and!; [cbn; by rewrite Hperm| |done].
    intros n Hn Hna'. destruct (Hfresh n Hna') as [_ Hno]. apply Hno. by rewrite <-Hperm.
  - intros n. rewrite app_assoc, elem_of_app. intros [Hn|Hn]; [|by apply Hfresh].
    apply Hin. rewrite <-Hperm. done.
  - intros n. rewrite Hind, Hcnt, (pend_step E P id n) by done. lia.
  - intros n Hn. cbn. rewrite app_assoc, app_comm_cons, elem_of_app, Hperm, (Hrdy n Hn), Hadd.
    rewrite Hcnt, (pend_step E P id n), occ_pos by done. lia.
  - cbn. split; [|done]. apply pend_zero. apply Hrdy; [apply Hin|]; set_solver.
Qed.

Lemma kahn_inv_init :
  NoDup nodes →
  kahn_inv nodes E [] (filter (λ kv, kv.2 = 0) (degrees nodes E).2).*1 (degrees nodes E).2.
Proof.
  intros Hnd. destruct (degrees_spec nodes E) as (_ & Hdeg & Hkeys).
  specialize (Hkeys Hnd (λ a b H, proj2 (Hends a b H))).
  set (ind := (degrees nodes E).2) in *; clearbody ind.
  assert (∀ n, n ∈ (filter (λ kv : string * Z, kv.2 = 0) ind).*1 ↔ n ∈ nodes ∧ mget n ind = Some 0) as Hm.
  { intros n. rewrite list_elem_of_fmap. rewrite <-Hkeys in *. split.
    - intros ([k z] & -> & [? Hf]%list_elem_of_filter); cbn in *; subst.
      split; [by apply (list_elem_of_fmap_2 fst) in Hf|]. by apply mget_elem.
    - intros [_ Hg%mget_elem_inv]. exists (n, 0). split; [done|]. by apply list_elem_of_filter. }
  split.
  - cbn. eapply sublist_NoDup; [|apply fmap_sublist, sublist_filter]. by rewrite Hkeys.
  - cbn. intros n [? _]%Hm. done.
  - done.
  - cbn. intros n Hn. rewrite Hm, <-(Nat2Z.inj_iff _ 0), <-Hdeg.
    destruct (mget n ind) as [z|] eqn:Hg; cbn; [naive_solver|].
    apply mget_None in Hg. by rewrite Hkeys in Hg.
  - done.
Qed.

Lemma kahn_loop_spec fuel P R ind :
  (length nodes ≤ length P + fuel)%nat →
  kahn_inv nodes E P R ind →
  ∃ P' ind', kahn_loop fuel (degrees nodes E).1 ind R (Z.of_nat (length P))
      = Some (Z.of_nat (length P')) ∧
    kahn_inv nodes E P' [] ind'.
Proof.
  revert P R ind. induction fuel as [|fuel IH]; intros P R ind Hfuel Hinv.
  - destruct R as [|id R]; [by exists P, ind|]. exfalso.
    destruct Hinv as [Hnd Hin _ _ _].
    assert (length (P ++ id :: R) ≤ length nodes)%nat as Hle.
    { apply submseteq_length, NoDup_submseteq; done. }
    rewrite length_app in Hle. cbn in Hle. lia.
  - destruct R as [|id R]; [by exists P, ind|]. cbn [kahn_loop].
    destruct (degrees_spec nodes E) as (Hout & _ & _). rewrite Hout.
    apply kahn_inv_step in Hinv. destruct (relax (outs E id) ind R) as [ind' R'].
    replace (Z.of_nat (length P) + 1) with (Z.of_nat (length (id :: P))) by (cbn; lia).
    apply IH; [cbn; lia|done].
Qed.

(** The queue always drains within [length nodes] rounds, and it visits every
    node exactly when the graph is acyclic. *)
Lemma kahn_visited_spec :
  NoDup nodes →
  ∃ v, kahn_visited nodes E = Some v ∧ (v = Z.of_nat (length nodes) ↔ acyclic (edge E)).
Proof.
  intros Hnd. unfold kahn_visited. destruct (degrees nodes E) as [out ind] eqn:Hd.
  pose proof (kahn_inv_init Hnd) as Hinit. rewrite Hd in Hinit; cbn in Hinit.
  destruct (kahn_loop_spec (length nodes) [] _ _ ltac:(cbn; lia) Hinit) as (P & ind' & Hrun & Hinv).
  rewrite Hd in Hrun; cbn in Hrun. exists (Z.of_nat (length P)). split; [done|].
  destruct Hinv as [HndP Hin _ Hrdy Htopo]. rewrite app_nil_r in *. split.
  - intros Hlen%Nat2Z.inj.
    assert (∀ n, n ∈ nodes → n ∈ P) as Hall.
    { assert (Permutation P nodes) as HPn; [|intros n Hn; by rewrite HPn].
      apply submseteq_length_Permutation; [by apply NoDup_submseteq|lia]. }
    eapply topo_acyclic; [done..|]. intros a b Hab. apply Hall. by apply Hends in Hab as [_ ?].
  - intros Hac. f_equal. apply Nat.le_antisymm.
    + by apply submseteq_length, NoDup_submseteq.
    + apply submseteq_length, NoDup_submseteq; [done|].
      apply (acyclic_total (edge E) nodes P Hac); [intros a b Hab; by apply Hends in Hab as [? _]|].
      intros b Hb HbP. specialize (Hrdy b Hb).
      destruct (decide (Exists (λ e, e.2 = b ∧ e.1 ∉ P) E)) as [Hex|Hno].
      * apply Exists_exists in Hex as ([a b'] & Hab & Hb' & HaP). cbn in *; subst. by exists a.
      * destruct HbP. apply Hrdy, pend_zero. intros a Ha.
        destruct (decide (a ∈ P)) as [|HaP]; [done|]. destruct Hno. apply Exists_exists.
        by exists (a, b).
Qed.
End KahnLoop.

(** ** Depth-first visit *)

Section DfsProofs.
Context (deps : string → option (list string)) (cycle missing : string).
Notation R := (depends deps).
Notation visit := (visit deps cycle missing).

(** What a successful visit returns: an extension of [visited] that is
    topologically ordered and avoids the nodes still being visited. *)
Record dfs_ok (visiting visited : list string) (keys : list string) (vd : list string) : Prop := {
  do_topo : topo R vd;
  do_nodup : NoDup vd;
  do_ext : ∀ k, k ∈ visited → k ∈ vd;
  do_avoid : ∀ k, k ∈ visiting → k ∉ vd;
  do_keys : ∀ k, k ∈ keys → k ∈ vd;
  do_deps : ∀ k, k ∈ vd → is_Some (deps k);
}.

Definition dfs_pre (visiting visited : list string) : Prop := dfs_ok visiting visited [] visited.

Lemma visit_all_ok f visiting ds visited vd :
  (∀ d v v', dfs_pre visiting v → f d v = Some (Ok v') → dfs_ok visiting v [d] v') →
  dfs_pre visiting visited → visit_all f ds visited = Some (Ok vd) →
  dfs_ok visiting visited ds vd.
Proof.
  intros Hf. revert visited. induction ds as [|d ds IH]; cbn; intros visited Hpre.
  { by intros [= <-]. }
  destruct (f d visited) as [[v1|]|] eqn:Hd; [|done..]. intros Hall.
  apply Hf in Hd; [|done].
  assert (dfs_pre visiting v1) as Hpre1 by (destruct Hd; split; auto; intros k ?%elem_of_nil; done).
  specialize (IH v1 Hpre1 Hall). destruct Hd, IH. split; auto.
  intros k [->|?]%elem_of_cons; auto. apply do_ext1, do_keys0. by left.
Qed.

Lemma visit_ok fuel key visiting visited vd :
  dfs_pre visiting visited → visit fuel key visiting visited = Some (Ok vd) →
  dfs_ok visiting visited [key] vd.
Proof.
  revert key visiting visited vd. induction fuel as [|fuel IH]; cbn; intros key visiting visited vd Hpre; [done|].
  destruct (memb key visited) eqn:Hv.
  { intros [= <-]. apply memb_true in Hv. destruct Hpre. split; auto.
    intros k ->%list_elem_of_singleton. done. }
  destruct (memb key visiting) eqn:Hvi; [done|]. apply memb_false in Hv, Hvi.
  destruct (deps key) as [ds|] eqn:Hds; [|done].
  destruct (visit_all _ ds visited) as [[v1|]|] eqn:Hall; [|done..]. intros [= <-].
  apply (visit_all_ok _ (key :: visiting)) in Hall.
  - destruct Hall as [Ht Hn He Ha Hk Hd]. split.
    + cbn. split; [|done]. intros a (ds' & Hds' & Hin). simplify_eq. by apply Hk.
    + constructor; [apply Ha; by left|done].
    + intros k Hk'. right. by apply He.
    + intros k Hk' [->|Hin]%elem_of_cons; [done|]. apply (Ha k); [by right|done].
    + intros k ->%list_elem_of_singleton. by left.
    + intros k [->|Hin]%elem_of_cons; [by eexists|by apply Hd].
  - intros d v v' Hpre' Hvis. by apply IH.
  - destruct Hpre as [Ht Hn He Ha Hk Hd]. split; auto.
    intros k [->|?]%elem_of_cons; auto.
Qed.

(** A reported cycle is one: every node being visited depends on the key. *)
Lemma visit_all_err f ds visited c :
  visit_all f ds visited = Some (Err c) → ∃ d v, d ∈ ds ∧ f d v = Some (Err c).
Proof.
  revert visited. induction ds as [|d ds IH]; cbn; intros visited; [done|].
  destruct (f d visited) as [[v1|c']|] eqn:Hd; [|intros [= ->]|done].
  - intros (d' & v & ? & ?)%IH. exists d', v. split; [by right|done].
  - exists d, visited. split; [by left|done].
Qed.

Lemma visit_err fuel key visiting visited c :
  (∀ v, v ∈ visiting → tc R key v) → visit fuel key visiting visited = Some (Err c) →
  (c = cycle ∧ ∃ n, tc R n n) ∨ (c = missing ∧ ∃ n, rtc R n key ∧ deps n = None).
Proof.
  revert key visiting visited. induction fuel as [|fuel IH]; cbn; intros key visiting visited Hanc; [done|].
  destruct (memb key visited); [done|].
  destruct (memb key visiting) eqn:Hvi.
  { intros [= <-]. left. split; [done|]. exists key. by apply Hanc, memb_true. }
  destruct (deps key) as [ds|] eqn:Hds; [|intros [= <-]; right; split; [done|]; exists key; split; [apply rtc_refl|done]].
  destruct (visit_all _ ds visited) as [[v1|c']|] eqn:Hall; [done|intros [= ->]|done].
  apply visit_all_err in Hall as (d & v & Hd & Herr).
  assert (R d key) as Hdk by (by exists ds).
  apply IH in Herr as [?|(? & n & Hn & ?)]; [by left| |].
  - right. split; [done|]. exists n. split; [by eapply rtc_r|done].
  - intros w [->|Hw]%elem_of_cons; [by apply tc_once|]. eapply tc_l; [done|by apply Hanc].
Qed.

(** Fuel above the number of nodes not yet being visited is enough. *)
Lemma visit_fuel fuel (U : list string) key visiting visited :
  (∀ k ds d, deps k = Some ds → d ∈ ds → d ∈ U) → key ∈ U →
  NoDup visiting → (∀ k, k ∈ visiting → k ∈ U) →
  (length U < fuel + length visiting)%nat →
  visit fuel key visiting visited ≠ None.
Proof.
  intros HU. revert key visiting visited.
  induction fuel as [|fuel IH]; intros key visiting visited Hkey Hnd Hin Hlen.
  { assert (length visiting ≤ length U)%nat by (by apply submseteq_length, NoDup_submseteq). lia. }
  cbn. destruct (memb key visited); [done|].
  destruct (memb key visiting) eqn:Hvi; [done|]. apply memb_false in Hvi.
  destruct (deps key) as [ds|] eqn:Hds; [|done].
  assert (∀ ds' v, (∀ d, d ∈ ds' → d ∈ U) →
    visit_all (λ d vd, visit fuel d (key :: visiting) vd) ds' v ≠ None) as Hall.
  { induction ds' as [|d ds' IHds]; cbn; intros v Hds'; [done|].
    assert (visit fuel d (key :: visiting) v ≠ None) as Hd.
    { apply IH; [apply Hds'; by left|by constructor| |cbn; lia].
      intros k [->|?]%elem_of_cons; auto. }
    destruct (visit fuel d _ v) as [[v1|]|]; [|done..]. apply IHds. intros. apply Hds'. by right. }
  specialize (Hall ds visited (λ d, HU key ds d Hds)).
  destruct (visit_all _ ds visited) as [[]|]; done.
Qed.

(** An accepted search has seen every key and every node below a key. *)
Lemma visit_from_Ok fuel (keys vd : list string) :
  visit_from deps cycle missing fuel keys = Some (Ok vd) → dfs_ok [] [] keys vd.
Proof.
  intros Hvd. apply (visit_all_ok _ []) in Hvd; [done| |].
  - intros d v v' Hpre Hvis. by apply (visit_ok fuel).
  - split; cbn; [done|constructor|by intros ? ?%elem_of_nil..].
Qed.

(** [visit_from] decides acyclicity on a closed set of nodes. *)
Lemma visit_from_spec (keys : list string) :
  (∀ k, k ∈ keys → is_Some (deps k)) →
  (∀ k ds d, deps k = Some ds → d ∈ ds → k ∈ keys ∧ d ∈ keys) →
  (acyclic R → ∃ vd, visit_from deps cycle missing (S (length keys)) keys = Some (Ok vd)) ∧
  (¬ acyclic R → visit_from deps cycle missing (S (length keys)) keys = Some (Err cycle)).
Proof.
  intros Hkeys Hcl.
  assert (∀ k v, k ∈ keys → visit (S (length keys)) k [] v ≠ None) as Hfuel.
  { intros k v Hk. apply (visit_fuel _ keys); [by intros; eapply Hcl|done|constructor|by intros ? ?%elem_of_nil|cbn; lia]. }
  assert (∀ ks v, (∀ k, k ∈ ks → k ∈ keys) →
    visit_all (λ k vd, visit (S (length keys)) k [] vd) ks v ≠ None) as Hall.
  { induction ks as [|k ks IH]; cbn [visit_all]; intros v Hks; [done|].
    specialize (Hfuel k v (Hks k ltac:(by left))).
    destruct (visit _ k [] v) as [[]|]; [|done..]. apply IH. intros. apply Hks. by right. }
  assert (∀ c, visit_from deps cycle missing (S (length keys)) keys = Some (Err c) → c = cycle ∧ ¬ acyclic R) as Herr.
  { intros c (k & v & Hk & Hv)%visit_all_err.
    apply visit_err in Hv as [(-> & n & Hn)|(-> & n & Hn & Hnone)]; [| |by intros ? ?%elem_of_nil].
    - split; [done|]. intros Hac. by apply (Hac n).
    - exfalso. assert (n ∈ keys) as Hnk.
      { destruct Hn as [|n m k (ds & Hds & Hin) _]; [done|exact (proj2 (Hcl _ _ _ Hds Hin))]. }
      apply Hkeys in Hnk as [? ?]. congruence. }
  assert (∀ vd, visit_from deps cycle missing (S (length keys)) keys = Some (Ok vd) → acyclic R) as Hok.
  { intros vd Hvd%visit_from_Ok. destruct Hvd. eapply topo_acyclic; [done..|].
    intros a b (ds & Hds & Hin). apply do_keys0. exact (proj1 (Hcl _ _ _ Hds Hin)). }
  specialize (Hall keys [] ltac:(done)). unfold visit_from in *.
  destruct (visit_all _ keys []) as [[vd|c]|]; [| |done].
  - split; [by eexists|]. intros Hn. destruct Hn. by eapply Hok.
  - destruct (Herr c eq_refl) as [-> Hn]. split; [done|done].
Qed.
End DfsProofs.
