(* ===== verification/Workflow.v ===== *)
(** * The Workflow contract: packages/core-sdk/src/workflow.ts

    The data of a Workflow (specification, projection, events), the validators
    of untrusted specifications, the event-sourced reducer and the evaluation
    of edges that decides which nodes may run.  Typed records keep the declared
    fields of the TypeScript types; a field the code passes through without
    checking ([unknown], [String(x)]-compared kinds, result references of
    events) stays a [jsval]. *)

From S2P Require Import Prelude Js Graph.
Local Open Scope Z_scope.

(** ** Enumerations *)

Inductive WorkflowModePolicyV1 := mode_auto | mode_solo | mode_workflow.
Inductive WorkflowTopologyV1 := single_agent | delegated_agents | workflow_graph.
Inductive WorkflowCompletionV1 := all_required | first_success | explicit_synthesis.
Inductive WorkflowStateV1 :=
| W_created | W_running | W_waiting | W_paused | W_cancelling
| W_cancelled | W_completed | W_failed | W_terminated.
Inductive WorkflowNodeKindV1 :=
| agent_task | tool_activity | decision | verification | human_task
| timer | signal_wait | subworkflow | compensation | synthesis.
Inductive WorkflowNodeStateV1 :=
| N_proposed | N_admitted | N_scheduled | N_leased | N_running | N_waiting | N_verifying
| N_retry_wait | N_unknown | N_skipped | N_succeeded | N_failed | N_cancelled
| N_manual_intervention.
Inductive WorkflowAttemptStateV1 :=
| A_scheduled | A_leased | A_running | A_waiting | A_verifying | A_retry_wait | A_unknown
| A_succeeded | A_failed | A_cancelled | A_manual_intervention.
Inductive WorkflowEffectClassV1 :=
| pure | read | workspace_write | external_idempotent | external_non_idempotent.

#[export] Instance WorkflowModePolicyV1_dec : EqDecision WorkflowModePolicyV1.
Proof. solve_decision. Defined.
#[export] Instance WorkflowStateV1_dec : EqDecision WorkflowStateV1.
Proof. solve_decision. Defined.
#[export] Instance WorkflowNodeKindV1_dec : EqDecision WorkflowNodeKindV1.
Proof. solve_decision. Defined.
#[export] Instance WorkflowNodeStateV1_dec : EqDecision WorkflowNodeStateV1.
Proof. solve_decision. Defined.
#[export] Instance WorkflowAttemptStateV1_dec : EqDecision WorkflowAttemptStateV1.
Proof. solve_decision. Defined.
#[export] Instance WorkflowEffectClassV1_dec : EqDecision WorkflowEffectClassV1.
Proof. solve_decision. Defined.

#[export] Instance MODE_POLICIES : JsEnum WorkflowModePolicyV1.
Proof.
  refine {|
  enum_all := [mode_auto; mode_solo; mode_workflow];
  enum_name m := match m with mode_auto => "auto" | mode_solo => "solo" | mode_workflow => "workflow" end;
|}; solve_enum.
Defined.

#[export] Instance TOPOLOGIES : JsEnum WorkflowTopologyV1.
Proof.
  refine {|
  enum_all := [single_agent; delegated_agents; workflow_graph];
  enum_name t := match t with
    | single_agent => "single_agent" | delegated_agents => "delegated_agents"
    | workflow_graph => "workflow_graph" end;
|}; solve_enum.
Defined.

#[export] Instance COMPLETION_POLICIES : JsEnum WorkflowCompletionV1.
Proof.
  refine {|
  enum_all := [all_required; first_success; explicit_synthesis];
  enum_name c := match c with
    | all_required => "all_required" | first_success => "first_success"
    | explicit_synthesis => "explicit_synthesis" end;
|}; solve_enum.
Defined.

#[export] Instance NODE_KINDS : JsEnum WorkflowNodeKindV1.
Proof.
  refine {|
  enum_all := [agent_task; tool_activity; decision; verification; human_task; timer;
               signal_wait; subworkflow; compensation; synthesis];
  enum_name k := match k with
    | agent_task => "agent_task" | tool_activity => "tool_activity" | decision => "decision"
    | verification => "verification" | human_task => "human_task" | timer => "timer"
    | signal_wait => "signal_wait" | subworkflow => "subworkflow"
    | compensation => "compensation" | synthesis => "synthesis" end;
|}; solve_enum.
Defined.

#[export] Instance EFFECT_CLASSES : JsEnum WorkflowEffectClassV1.
Proof.
  refine {|
  enum_all := [pure; read; workspace_write; external_idempotent; external_non_idempotent];
  enum_name c := match c with
    | pure => "pure" | read => "read" | workspace_write => "workspace_write"
    | external_idempotent => "external_idempotent"
    | external_non_idempotent => "external_non_idempotent" end;
|}; solve_enum.
Defined.

(** The literal of a node state, as edge conditions compare it. *)
Definition node_state_name (s : WorkflowNodeStateV1) : string :=
  match s with
  | N_proposed => "proposed" | N_admitted => "admitted" | N_scheduled => "scheduled"
  | N_leased => "leased" | N_running => "running" | N_waiting => "waiting"
  | N_verifying => "verifying" | N_retry_wait => "retry_wait" | N_unknown => "unknown"
  | N_skipped => "skipped" | N_succeeded => "succeeded" | N_failed => "failed"
  | N_cancelled => "cancelled" | N_manual_intervention => "manual_intervention"
  end.

(** ** Data *)

Record VersionedWorkflowRefV1 := { vr_id : string; vr_version : Z; vr_digest : option string }.
Record WorkflowArtifactRefV1 := { ar_artifactId : string; ar_digest : string; ar_mediaType : string }.

Record WorkflowBudgetV1 := {
  wb_maxWallClockMs : Z;
  wb_maxTokens : Z;
  wb_maxToolCalls : Z;
  wb_maxAgentTasks : Z;
  wb_maxParallelTasks : Z;
  wb_maxCostUsd : option jsnum;
}.

Record WorkflowCapacityGroupV1 := { cg_key : string; cg_limit : Z }.

Record CapabilityRequestV1 := {
  cr_tools : list string;
  cr_skills : list string;
  cr_mcpServers : list string;
  cr_workspace : jsval;
  cr_network : bool;
  cr_mayDelegate : bool;
}.

Record EffectContractV1 := {
  ec_class : WorkflowEffectClassV1;
  ec_idempotencyKey : jsval;
  ec_receiptSchemaRef : jsval;
  ec_compensationRef : jsval;
  ec_requiresApproval : bool;
}.

Record WorkflowRetryPolicyV1 := {
  rp_maxAttempts : Z;
  rp_initialBackoffMs : Z;
  rp_maxBackoffMs : Z;
  rp_retryableCodes : list string;
}.

Record WorkflowTimeoutPolicyV1 := { to_totalMs : Z; to_noProgressMs : Z; to_heartbeatMs : Z }.

Record WorkflowVerificationCriterionV1 := {
  vc_criterionId : string;
  vc_kind : jsval;
  vc_description : string;
  vc_ref : jsval;
}.

Inductive WorkflowJoinPolicyV1 := JoinAll | JoinAny | JoinQuorum (minimum : Z).

Record WorkflowNodeSpecV1 := {
  ns_nodeId : string;
  ns_kind : WorkflowNodeKindV1;
  ns_title : string;
  ns_required : option bool;
  ns_profileRef : option VersionedWorkflowRefV1;
  ns_inputRefs : list WorkflowArtifactRefV1;
  ns_outputSchemaRef : option VersionedWorkflowRefV1;
  ns_grantRequest : CapabilityRequestV1;
  ns_effect : EffectContractV1;
  ns_retry : WorkflowRetryPolicyV1;
  ns_timeout : WorkflowTimeoutPolicyV1;
  ns_criteria : list WorkflowVerificationCriterionV1;
  ns_maxIterations : option Z;
  ns_join : option WorkflowJoinPolicyV1;
}.

Record WorkflowEdgeConditionV1 := {
  cond_operator : jsval;
  cond_pointer : option string;
  cond_value : jsval;
}.
Record WorkflowEdgeV1 := {
  we_from : string;
  we_to : string;
  we_condition : option WorkflowEdgeConditionV1;
}.

Record WorkflowSpecV1 := {
  ws_workflowId : string;
  ws_runId : string;
  ws_sessionId : string;
  ws_parent : option (string * string);
  ws_executionTarget : option (string * string);
  ws_scheduling : option (list WorkflowCapacityGroupV1);
  ws_workspace : string;
  ws_objective : string;
  ws_modePolicy : WorkflowModePolicyV1;
  ws_topology : WorkflowTopologyV1;
  ws_revision : Z;
  ws_nodes : list WorkflowNodeSpecV1;
  ws_edges : list WorkflowEdgeV1;
  ws_completion : WorkflowCompletionV1;
  ws_budget : WorkflowBudgetV1;
  ws_maxGraphMutations : Z;
  ws_createdAt : string;
}.

(** ** Validators of parts *)

Definition MAX_TEXT_BYTES : Z := 32 * 1024.

(** [typeof value === 'object' && value !== null && !Array.isArray(value)]. *)
Definition record (code : string) (v : jsval) : res jsobj :=
  match v with JObj o => Ok o | _ => Err code end.

(** [text(value)]: a string with a character that is not white space, within the limit. *)
Definition text (v : jsval) : bool :=
  match v with JStr s => negb (blank s) && (byteLength s <=? MAX_TEXT_BYTES) | _ => false end.

#[global] Arguments text : simpl never.

(** [unique(values, code)]. *)
Definition unique (values : list string) (code : string) : res unit :=
  fail_if (negb (nodupb values)) code.

Definition validateVersionedRef (v : jsval) : res VersionedWorkflowRefV1 :=
  input ← record "WORKFLOW_REF_INVALID" v;
  fail_if (negb (safeId (input .: "id")) || negb (positiveInteger (input .: "version"))
           || (negb (is_undef (input .: "digest")) && negb (digest (input .: "digest"))))
    "WORKFLOW_REF_INVALID";;
  Ok {| vr_id := js_str (input .: "id"); vr_version := js_int (input .: "version");
        vr_digest := opt js_str (input .: "digest") |}.

Definition validateArtifactRef (v : jsval) : res WorkflowArtifactRefV1 :=
  input ← record "WORKFLOW_REF_INVALID" v;
  fail_if (negb (safeId (input .: "artifactId")) || negb (digest (input .: "digest"))
           || negb (text (input .: "mediaType"))) "WORKFLOW_REF_INVALID";;
  Ok {| ar_artifactId := js_str (input .: "artifactId"); ar_digest := js_str (input .: "digest");
        ar_mediaType := js_str (input .: "mediaType") |}.

Definition validateCapacityGroup (value : jsval) : res WorkflowCapacityGroupV1 :=
  group ← record "WORKFLOW_SPEC_INVALID" value;
  fail_if (negb (safeId (group .: "key")) || negb (positiveInteger (group .: "limit")))
    "WORKFLOW_SPEC_INVALID";;
  Ok {| cg_key := js_str (group .: "key"); cg_limit := js_int (group .: "limit") |}.

Definition validateSchedulingPolicy (v : jsval) : res (list WorkflowCapacityGroupV1) :=
  input ← record "WORKFLOW_SPEC_INVALID" v;
  fail_if (negb (is_arr (input .: "capacityGroups"))
           || (16 <? Z.of_nat (length (js_arr (input .: "capacityGroups")))))
    "WORKFLOW_SPEC_INVALID";;
  groups ← mapM validateCapacityGroup (js_arr (input .: "capacityGroups"));
  unique (cg_key <$> groups) "WORKFLOW_SPEC_INVALID";;
  Ok groups.

Definition validateBudget (v : jsval) : res WorkflowBudgetV1 :=
  input ← record "WORKFLOW_BUDGET_INVALID" v;
  fail_if (existsb (λ key, negb (positiveInteger (get input key)))
      ["maxWallClockMs"; "maxTokens"; "maxToolCalls"; "maxAgentTasks"; "maxParallelTasks"]%string)
    "WORKFLOW_BUDGET_INVALID";;
  maxCostUsd ← match input .: "maxCostUsd" with
    | JUndef => Ok None
    | JNum n => fail_if (num_neg n) "WORKFLOW_BUDGET_INVALID";; Ok (Some n)
    | _ => Err "WORKFLOW_BUDGET_INVALID"
    end;
  Ok {| wb_maxWallClockMs := js_int (input .: "maxWallClockMs");
        wb_maxTokens := js_int (input .: "maxTokens");
        wb_maxToolCalls := js_int (input .: "maxToolCalls");
        wb_maxAgentTasks := js_int (input .: "maxAgentTasks");
        wb_maxParallelTasks := js_int (input .: "maxParallelTasks");
        wb_maxCostUsd := maxCostUsd |}.

(** [item !== '*' && !safeId(item)] rejects. *)
Definition capability_item (v : jsval) : bool := is_str v "*" || safeId v.

Definition validateEffect (v : jsval) : res EffectContractV1 :=
  input ← record "WORKFLOW_EFFECT_INVALID" v;
  fail_if (negb (is_enum (A:=WorkflowEffectClassV1) (input .: "class"))
           || negb (is_bool (input .: "requiresApproval"))) "WORKFLOW_EFFECT_INVALID";;
  fail_if (is_str (input .: "class") "external_idempotent"
           && negb (safeId (input .: "idempotencyKey"))) "WORKFLOW_EFFECT_INVALID";;
  Ok {| ec_class := enum_cast pure (input .: "class");
        ec_idempotencyKey := input .: "idempotencyKey";
        ec_receiptSchemaRef := input .: "receiptSchemaRef";
        ec_compensationRef := input .: "compensationRef";
        ec_requiresApproval := js_bool (input .: "requiresApproval") |}.

Definition validateRetry (v : jsval) : res WorkflowRetryPolicyV1 :=
  input ← record "WORKFLOW_RETRY_INVALID" v;
  fail_if (negb (positiveInteger (input .: "maxAttempts"))
           || negb (nonNegativeInteger (input .: "initialBackoffMs"))
           || negb (nonNegativeInteger (input .: "maxBackoffMs"))
           || (js_int (input .: "maxBackoffMs") <? js_int (input .: "initialBackoffMs"))
           || negb (is_arr (input .: "retryableCodes"))
           || negb (forallb safeId (js_arr (input .: "retryableCodes"))))
    "WORKFLOW_RETRY_INVALID";;
  Ok {| rp_maxAttempts := js_int (input .: "maxAttempts");
        rp_initialBackoffMs := js_int (input .: "initialBackoffMs");
        rp_maxBackoffMs := js_int (input .: "maxBackoffMs");
        rp_retryableCodes := js_str <$> js_arr (input .: "retryableCodes") |}.

Definition validateTimeout (v : jsval) : res WorkflowTimeoutPolicyV1 :=
  input ← record "WORKFLOW_TIMEOUT_INVALID" v;
  fail_if (negb (positiveInteger (input .: "totalMs"))
           || negb (positiveInteger (input .: "noProgressMs"))
           || negb (positiveInteger (input .: "heartbeatMs"))
           || (js_int (input .: "totalMs") <? js_int (input .: "noProgressMs"))
           || (js_int (input .: "noProgressMs") <=? js_int (input .: "heartbeatMs")))
    "WORKFLOW_TIMEOUT_INVALID";;
  Ok {| to_totalMs := js_int (input .: "totalMs"); to_noProgressMs := js_int (input .: "noProgressMs");
        to_heartbeatMs := js_int (input .: "heartbeatMs") |}.

Definition validateJoin (v : jsval) : res WorkflowJoinPolicyV1 :=
  input ← record "WORKFLOW_JOIN_INVALID" v;
  if is_str (input .: "kind") "all" then Ok JoinAll
  else if is_str (input .: "kind") "any" then Ok JoinAny
  else if is_str (input .: "kind") "quorum" && positiveInteger (input .: "minimum") then
    Ok (JoinQuorum (js_int (input .: "minimum")))
  else Err "WORKFLOW_JOIN_INVALID".

Section Validators.
Context `{JsEngine}.

Definition validateCapabilityRequest (v : jsval) : res CapabilityRequestV1 :=
  input ← record "WORKFLOW_CAPABILITY_INVALID" v;
  fail_if (negb (is_arr (input .: "tools")) || negb (is_arr (input .: "skills"))
           || negb (is_arr (input .: "mcpServers"))
           || negb (memb (js_String (input .: "workspace")) ["none"; "read"; "write"]%string)
           || negb (is_bool (input .: "network")) || negb (is_bool (input .: "mayDelegate")))
    "WORKFLOW_CAPABILITY_INVALID";;
  fail_if (negb (forallb capability_item
      (js_arr (input .: "tools") ++ js_arr (input .: "skills") ++ js_arr (input .: "mcpServers"))))
    "WORKFLOW_CAPABILITY_INVALID";;
  Ok {| cr_tools := js_str <$> js_arr (input .: "tools");
        cr_skills := js_str <$> js_arr (input .: "skills");
        cr_mcpServers := js_str <$> js_arr (input .: "mcpServers");
        cr_workspace := input .: "workspace";
        cr_network := js_bool (input .: "network");
        cr_mayDelegate := js_bool (input .: "mayDelegate") |}.

Definition validateCriterion (v : jsval) : res WorkflowVerificationCriterionV1 :=
  input ← record "WORKFLOW_CRITERION_INVALID" v;
  fail_if (negb (safeId (input .: "criterionId"))
           || negb (memb (js_String (input .: "kind"))
                ["schema"; "digest"; "receipt"; "rule"; "check"; "semantic"; "human"]%string)
           || negb (text (input .: "description"))) "WORKFLOW_CRITERION_INVALID";;
  Ok {| vc_criterionId := js_str (input .: "criterionId"); vc_kind := input .: "kind";
        vc_description := js_str (input .: "description"); vc_ref := input .: "ref" |}.

Definition validateCondition (v : jsval) : res WorkflowEdgeConditionV1 :=
  condition ← record "WORKFLOW_EDGE_INVALID" v;
  fail_if (negb (memb (js_String (condition .: "operator"))
      ["status_is"; "exists"; "eq"; "in"]%string)) "WORKFLOW_EDGE_INVALID";;
  fail_if (negb (is_undef (condition .: "pointer"))
           && (negb (is_string (condition .: "pointer"))
               || negb (String.prefix "/" (js_str (condition .: "pointer")))))
    "WORKFLOW_EDGE_INVALID";;
  Ok {| cond_operator := condition .: "operator";
        cond_pointer := opt js_str (condition .: "pointer");
        cond_value := condition .: "value" |}.

Definition validateEdge (nodeIds : list string) (v : jsval) : res WorkflowEdgeV1 :=
  input ← record "WORKFLOW_EDGE_INVALID" v;
  let from := input .: "from" in
  let to := input .: "to" in
  fail_if (negb (safeId from) || negb (safeId to) || bool_decide (js_str from = js_str to)
           || negb (memb (js_str from) nodeIds) || negb (memb (js_str to) nodeIds))
    "WORKFLOW_EDGE_INVALID";;
  condition ← opt_res validateCondition (input .: "condition");
  Ok {| we_from := js_str from; we_to := js_str to; we_condition := condition |}.

Definition validateNode (v : jsval) : res WorkflowNodeSpecV1 :=
  input ← record "WORKFLOW_NODE_INVALID" v;
  fail_if (negb (safeId (input .: "nodeId"))
           || negb (is_enum (A:=WorkflowNodeKindV1) (input .: "kind"))
           || negb (text (input .: "title")) || negb (is_arr (input .: "inputRefs"))
           || negb (is_arr (input .: "criteria"))
           || (negb (is_undef (input .: "required")) && negb (is_bool (input .: "required")))
           || (negb (is_undef (input .: "maxIterations"))
               && negb (positiveInteger (input .: "maxIterations"))))
    "WORKFLOW_NODE_INVALID";;
  profileRef ← opt_res validateVersionedRef (input .: "profileRef");
  inputRefs ← mapM validateArtifactRef (js_arr (input .: "inputRefs"));
  outputSchemaRef ← opt_res validateVersionedRef (input .: "outputSchemaRef");
  grantRequest ← validateCapabilityRequest (input .: "grantRequest");
  effect ← validateEffect (input .: "effect");
  retry ← validateRetry (input .: "retry");
  timeout ← validateTimeout (input .: "timeout");
  criteria ← mapM validateCriterion (js_arr (input .: "criteria"));
  join ← opt_res validateJoin (input .: "join");
  Ok {| ns_nodeId := js_str (input .: "nodeId");
        ns_kind := enum_cast agent_task (input .: "kind");
        ns_title := js_str (input .: "title");
        ns_required := opt js_bool (input .: "required");
        ns_profileRef := profileRef;
        ns_inputRefs := inputRefs;
        ns_outputSchemaRef := outputSchemaRef;
        ns_grantRequest := grantRequest;
        ns_effect := effect;
        ns_retry := retry;
        ns_timeout := timeout;
        ns_criteria := criteria;
        ns_maxIterations := opt js_int (input .: "maxIterations");
        ns_join := join |}.

(** ** The specification *)

Definition edge_pairs (edges : list WorkflowEdgeV1) : list (string * string) :=
  (λ e, (we_from e, we_to e)) <$> edges.

Definition assertAcyclic (nodes : list WorkflowNodeSpecV1) (edges : list WorkflowEdgeV1) : res unit :=
  match kahn_visited (ns_nodeId <$> nodes) (edge_pairs edges) with
  | Some visited => fail_if (negb (visited =? Z.of_nat (length nodes))) "WORKFLOW_GRAPH_CYCLE"
  | None => Err "OUT_OF_FUEL"
  end.

Definition incoming (edges : list WorkflowEdgeV1) (nodeId : string) : list WorkflowEdgeV1 :=
  filter (λ e, we_to e = nodeId) edges.

(** The loop over [node.join]: the branch that calls [fail]. *)
Definition join_rejected (edges : list WorkflowEdgeV1) (node : WorkflowNodeSpecV1) : bool :=
  match ns_join node with
  | None => false
  | Some join =>
      let n := Z.of_nat (length (incoming edges (ns_nodeId node))) in
      (bool_decide (ns_kind node ≠ decision) && bool_decide (ns_kind node ≠ synthesis))
      || (n =? 0) || match join with JoinQuorum minimum => n <? minimum | _ => false end
  end.

Definition solo_rejected (node : WorkflowNodeSpecV1) : bool :=
  bool_decide (ns_nodeId node ≠ "root"%string) && bool_decide (ns_kind node ≠ tool_activity).

(** The conjunction of field checks at the head of [validateWorkflowSpecV1]. *)
Definition spec_header_rejected (input : jsobj) (executionTarget : option jsobj) : bool :=
  negb (is_int (input .: "schemaVersion") 1)
  || negb (safeId (input .: "workflowId")) || negb (safeId (input .: "runId"))
  || negb (safeId (input .: "sessionId"))
  || negb (Bool.eqb (is_undef (input .: "parentWorkflowId")) (is_undef (input .: "parentNodeId")))
  || (negb (is_undef (input .: "parentWorkflowId")) && negb (safeId (input .: "parentWorkflowId")))
  || (negb (is_undef (input .: "parentNodeId")) && negb (safeId (input .: "parentNodeId")))
  || match executionTarget with
     | Some target => negb (text (target .: "providerId")) || negb (text (target .: "model"))
     | None => false
     end
  || negb (is_string (input .: "workspace")) || bool_decide (js_str (input .: "workspace") = "")
  || negb (text (input .: "objective"))
  || negb (is_enum (A:=WorkflowModePolicyV1) (input .: "modePolicy"))
  || negb (is_enum (A:=WorkflowTopologyV1) (input .: "topology"))
  || negb (positiveInteger (input .: "revision"))
  || negb (is_arr (input .: "nodes")) || (Nat.eqb (length (js_arr (input .: "nodes"))) 0)
  || negb (is_arr (input .: "edges"))
  || negb (is_enum (A:=WorkflowCompletionV1) (input .: "completion"))
  || negb (nonNegativeInteger (input .: "maxGraphMutations"))
  || negb (timestamp (input .: "createdAt")).

Definition validateWorkflowSpecV1 (value : jsval) : res WorkflowSpecV1 :=
  input ← record "WORKFLOW_SPEC_INVALID" value;
  executionTarget ← opt_res (record "WORKFLOW_SPEC_INVALID") (input .: "executionTarget");
  scheduling ← opt_res validateSchedulingPolicy (input .: "scheduling");
  fail_if (spec_header_rejected input executionTarget) "WORKFLOW_SPEC_INVALID";;
  nodes ← mapM validateNode (js_arr (input .: "nodes"));
  unique (ns_nodeId <$> nodes) "WORKFLOW_NODE_DUPLICATE";;
  edges ← mapM (validateEdge (ns_nodeId <$> nodes)) (js_arr (input .: "edges"));
  assertAcyclic nodes edges;;
  fail_if (existsb (join_rejected edges) nodes) "WORKFLOW_JOIN_INVALID";;
  fail_if (is_str (input .: "modePolicy") "solo" && existsb solo_rejected nodes)
    "MODE_OVERRIDE_INCOMPATIBLE";;
  budget ← validateBudget (input .: "budget");
  Ok {| ws_workflowId := js_str (input .: "workflowId");
        ws_runId := js_str (input .: "runId");
        ws_sessionId := js_str (input .: "sessionId");
        ws_parent := opt (λ p, (js_str p, js_str (input .: "parentNodeId")))
                       (input .: "parentWorkflowId");
        ws_executionTarget :=
          (λ target, (js_str (target .: "providerId"), js_str (target .: "model"))) <$> executionTarget;
        ws_scheduling := scheduling;
        ws_workspace := js_str (input .: "workspace");
        ws_objective := js_str (input .: "objective");
        ws_modePolicy := enum_cast mode_auto (input .: "modePolicy");
        ws_topology := enum_cast single_agent (input .: "topology");
        ws_revision := js_int (input .: "revision");
        ws_nodes := nodes;
        ws_edges := edges;
        ws_completion := enum_cast all_required (input .: "completion");
        ws_budget := budget;
        ws_maxGraphMutations := js_int (input .: "maxGraphMutations");
        ws_createdAt := js_str (input .: "createdAt") |}.
End Validators.

(** ** The validated values as objects

    [applyWorkflowEventV1] passes a validated specification back to the
    validator ([{...current.spec, nodes: [...]}]); these are the objects it
    then sees. *)

Definition VersionedRef_js (r : VersionedWorkflowRefV1) : jsval :=
  JObj ([("id"%string, JStr (vr_id r)); ("version"%string, JInt (vr_version r))]
        ++ opt_prop "digest" JStr (vr_digest r)).

Definition ArtifactRef_js (r : WorkflowArtifactRefV1) : jsval :=
  JObj [("artifactId"%string, JStr (ar_artifactId r)); ("digest"%string, JStr (ar_digest r));
        ("mediaType"%string, JStr (ar_mediaType r))].

Definition CapacityGroup_js (g : WorkflowCapacityGroupV1) : jsval :=
  JObj [("key"%string, JStr (cg_key g)); ("limit"%string, JInt (cg_limit g))].
Definition SchedulingPolicy_js (groups : list WorkflowCapacityGroupV1) : jsval :=
  JObj [("capacityGroups"%string, JArr (CapacityGroup_js <$> groups))].

Definition Budget_js (b : WorkflowBudgetV1) : jsval :=
  JObj ([("maxWallClockMs"%string, JInt (wb_maxWallClockMs b));
         ("maxTokens"%string, JInt (wb_maxTokens b));
         ("maxToolCalls"%string, JInt (wb_maxToolCalls b));
         ("maxAgentTasks"%string, JInt (wb_maxAgentTasks b));
         ("maxParallelTasks"%string, JInt (wb_maxParallelTasks b))]
        ++ opt_prop "maxCostUsd" JNum (wb_maxCostUsd b)).

Definition CapabilityRequest_js (c : CapabilityRequestV1) : jsval :=
  JObj [("tools"%string, JStrs (cr_tools c)); ("skills"%string, JStrs (cr_skills c));
        ("mcpServers"%string, JStrs (cr_mcpServers c)); ("workspace"%string, cr_workspace c);
        ("network"%string, JBool (cr_network c)); ("mayDelegate"%string, JBool (cr_mayDelegate c))].

Definition Effect_js (e : EffectContractV1) : jsval :=
  JObj [("class"%string, JStr (enum_name (ec_class e)));
        ("idempotencyKey"%string, ec_idempotencyKey e);
        ("receiptSchemaRef"%string, ec_receiptSchemaRef e);
        ("compensationRef"%string, ec_compensationRef e);
        ("requiresApproval"%string, JBool (ec_requiresApproval e))].

Definition Retry_js (r : WorkflowRetryPolicyV1) : jsval :=
  JObj [("maxAttempts"%string, JInt (rp_maxAttempts r));
        ("initialBackoffMs"%string, JInt (rp_initialBackoffMs r));
        ("maxBackoffMs"%string, JInt (rp_maxBackoffMs r));
        ("retryableCodes"%string, JStrs (rp_retryableCodes r))].

Definition Timeout_js (t : WorkflowTimeoutPolicyV1) : jsval :=
  JObj [("totalMs"%string, JInt (to_totalMs t)); ("noProgressMs"%string, JInt (to_noProgressMs t));
        ("heartbeatMs"%string, JInt (to_heartbeatMs t))].

Definition Criterion_js (c : WorkflowVerificationCriterionV1) : jsval :=
  JObj [("criterionId"%string, JStr (vc_criterionId c)); ("kind"%string, vc_kind c);
        ("description"%string, JStr (vc_description c)); ("ref"%string, vc_ref c)].

Definition Join_js (j : WorkflowJoinPolicyV1) : jsval :=
  JObj match j with
       | JoinAll => [("kind"%string, JStr "all")]
       | JoinAny => [("kind"%string, JStr "any")]
       | JoinQuorum m => [("kind"%string, JStr "quorum"); ("minimum"%string, JInt m)]
       end.

Definition Condition_js (c : WorkflowEdgeConditionV1) : jsval :=
  JObj ([("operator"%string, cond_operator c)] ++ opt_prop "pointer" JStr (cond_pointer c)
        ++ [("value"%string, cond_value c)]).

Definition Edge_js (e : WorkflowEdgeV1) : jsval :=
  JObj ([("from"%string, JStr (we_from e)); ("to"%string, JStr (we_to e))]
        ++ opt_prop "condition" Condition_js (we_condition e)).

Definition NodeSpec_js (n : WorkflowNodeSpecV1) : jsval :=
  JObj ([("nodeId"%string, JStr (ns_nodeId n)); ("kind"%string, JStr (enum_name (ns_kind n)));
         ("title"%string, JStr (ns_title n))]
        ++ opt_prop "required" JBool (ns_required n)
        ++ [("profileRef"%string, undef_prop VersionedRef_js (ns_profileRef n));
            ("inputRefs"%string, JArr (ArtifactRef_js <$> ns_inputRefs n));
            ("outputSchemaRef"%string, undef_prop VersionedRef_js (ns_outputSchemaRef n));
            ("grantRequest"%string, CapabilityRequest_js (ns_grantRequest n));
            ("effect"%string, Effect_js (ns_effect n));
            ("retry"%string, Retry_js (ns_retry n));
            ("timeout"%string, Timeout_js (ns_timeout n));
            ("criteria"%string, JArr (Criterion_js <$> ns_criteria n));
            ("maxIterations"%string, undef_prop JInt (ns_maxIterations n));
            ("join"%string, undef_prop Join_js (ns_join n))]).

(** The specification with its node list replaced by [nodes]. *)
Definition Spec_js_with (s : WorkflowSpecV1) (nodes : list jsval) : jsval :=
  JObj ([("schemaVersion"%string, JInt 1); ("workflowId"%string, JStr (ws_workflowId s));
         ("runId"%string, JStr (ws_runId s)); ("sessionId"%string, JStr (ws_sessionId s))]
        ++ match ws_parent s with
           | None => []
           | Some (workflowId, nodeId) =>
               [("parentWorkflowId"%string, JStr workflowId); ("parentNodeId"%string, JStr nodeId)]
           end
        ++ opt_prop "executionTarget"
             (λ t, JObj [("providerId"%string, JStr t.1); ("model"%string, JStr t.2)])
             (ws_executionTarget s)
        ++ opt_prop "scheduling" SchedulingPolicy_js (ws_scheduling s)
        ++ [("workspace"%string, JStr (ws_workspace s)); ("objective"%string, JStr (ws_objective s));
            ("modePolicy"%string, JStr (enum_name (ws_modePolicy s)));
            ("topology"%string, JStr (enum_name (ws_topology s)));
            ("revision"%string, JInt (ws_revision s));
            ("nodes"%string, JArr nodes);
            ("edges"%string, JArr (Edge_js <$> ws_edges s));
            ("completion"%string, JStr (enum_name (ws_completion s)));
            ("budget"%string, Budget_js (ws_budget s));
            ("maxGraphMutations"%string, JInt (ws_maxGraphMutations s));
            ("createdAt"%string, JStr (ws_createdAt s))]).

Definition Spec_js (s : WorkflowSpecV1) : jsval := Spec_js_with s (NodeSpec_js <$> ws_nodes s).
