(* ===== verification/WorkflowReducer.v ===== *)
(** * The Workflow reducer: packages/core-sdk/src/workflow.ts

    The projection of a Workflow, the events of its history, the reducer
    [applyWorkflowEventV1], the replay [reduceWorkflowEventsV1] and the
    evaluation of incoming edges that decides which nodes may run. *)

From S2P Require Import Prelude Js Graph Workflow.
Local Open Scope Z_scope.

Record WorkflowNodeProjectionV1 := {
  np_nodeId : string;
  np_state : WorkflowNodeStateV1;
  np_attemptIds : list string;
  np_errorCode : option string;
  np_resultRef : jsval;
}.

Record WorkflowAttemptProjectionV1 := {
  ap_attemptId : string;
  ap_nodeId : string;
  ap_ordinal : Z;
  ap_state : WorkflowAttemptStateV1;
  ap_leaseToken : option string;
  ap_workerId : option string;
  ap_startedAt : option string;
  ap_lastProgressAt : option string;
  ap_finishedAt : option string;
  ap_resultRef : jsval;
  ap_receiptRef : jsval;
  ap_errorCode : option string;
}.

Record WorkflowUsageV1 := {
  us_turns : Z;
  us_toolCalls : Z;
  us_inputTokens : Z;
  us_outputTokens : Z;
  us_agentTasks : Z;
}.

Record WorkflowProjectionV1 := {
  wp_workflowId : string;
  wp_runId : string;
  wp_sessionId : string;
  wp_revision : Z;
  wp_sequence : Z;
  wp_state : WorkflowStateV1;
  wp_spec : WorkflowSpecV1;
  wp_nodes : list WorkflowNodeProjectionV1;
  wp_attempts : list WorkflowAttemptProjectionV1;
  wp_graphMutations : Z;
  wp_usage : WorkflowUsageV1;
  wp_updatedAt : string;
  wp_terminalCode : option string;
}.

(** The four states of [workflow.terminal]. *)
Inductive WorkflowTerminalStateV1 := T_cancelled | T_completed | T_failed | T_terminated.
Definition terminal_state (t : WorkflowTerminalStateV1) : WorkflowStateV1 :=
  match t with
  | T_cancelled => W_cancelled | T_completed => W_completed
  | T_failed => W_failed | T_terminated => W_terminated
  end.

Record NodeStateChanged := {
  nsc_nodeId : string;
  nsc_state : WorkflowNodeStateV1;
  nsc_errorCode : option string;
  nsc_resultRef : jsval;
}.

Record AttemptStateChanged := {
  asc_attemptId : string;
  asc_state : WorkflowAttemptStateV1;
  asc_leaseToken : option string;
  asc_workerId : option string;
  asc_at : string;
  asc_errorCode : option string;
  asc_resultRef : jsval;
  asc_receiptRef : jsval;
}.

(** [WorkflowEventDataV1]; a specification or node that the reducer validates
    before use is an unchecked value. *)
Inductive WorkflowEventDataV1 :=
| workflow_created (spec : jsval)
| workflow_started
| workflow_waiting
| workflow_paused
| workflow_resumed
| workflow_cancelling (code : string)
| workflow_terminal (state : WorkflowTerminalStateV1) (code : option string)
| workflow_topology_changed (topology : WorkflowTopologyV1)
| budget_charged (charge : WorkflowUsageV1)
| signal_received (signalId name : string)
| effect_receipt_recorded (receiptId nodeId attemptId : string)
| effect_reserved (nodeId attemptId idempotencyKey inputDigest : string)
| effect_replayed (nodeId attemptId idempotencyKey : string)
| execution_snapshot_bound (nodeId attemptId : string) (snapshotRef : jsval)
| effect_compensated (receiptId compensationReceiptId nodeId : string)
| timer_fired (timerId nodeId : string)
| human_task_resolved (humanTaskId nodeId state : string)
| graph_patched (spec : jsval)
| execution_task_admitted (requestId requestDigest : string) (node : jsval)
    (attempt : WorkflowAttemptProjectionV1)
| node_state_changed (change : NodeStateChanged)
| attempt_created (attempt : WorkflowAttemptProjectionV1)
| attempt_state_changed (change : AttemptStateChanged).

Record WorkflowEventV1 := {
  ev_schemaVersion : Z;
  ev_eventId : string;
  ev_workflowId : string;
  ev_runId : string;
  ev_sequence : Z;
  ev_occurredAt : string;
  ev_causationId : option string;
  ev_data : WorkflowEventDataV1;
}.

(** ** Transition tables *)

Definition WORKFLOW_TRANSITIONS (from : WorkflowStateV1) : list WorkflowStateV1 :=
  match from with
  | W_created => [W_running; W_cancelled; W_terminated]
  | W_running => [W_waiting; W_paused; W_cancelling; W_completed; W_failed; W_terminated]
  | W_waiting => [W_running; W_paused; W_cancelling; W_failed; W_terminated]
  | W_paused => [W_running; W_cancelling; W_terminated]
  | W_cancelling => [W_cancelled; W_failed; W_terminated]
  | W_cancelled | W_completed | W_failed | W_terminated => []
  end.

Definition NODE_TRANSITIONS (from : WorkflowNodeStateV1) : list WorkflowNodeStateV1 :=
  match from with
  | N_proposed => [N_admitted; N_cancelled; N_failed]
  | N_admitted => [N_scheduled; N_waiting; N_skipped; N_cancelled; N_failed]
  | N_scheduled => [N_leased; N_succeeded; N_cancelled; N_failed]
  | N_leased => [N_running; N_scheduled; N_unknown; N_cancelled]
  | N_running =>
      [N_waiting; N_verifying; N_retry_wait; N_unknown; N_succeeded; N_failed; N_cancelled]
  | N_waiting => [N_scheduled; N_succeeded; N_cancelled; N_failed]
  | N_verifying => [N_succeeded; N_retry_wait; N_failed; N_manual_intervention]
  | N_retry_wait => [N_scheduled; N_failed; N_cancelled]
  | N_unknown => [N_succeeded; N_failed; N_manual_intervention]
  | N_failed => [N_retry_wait]
  | N_skipped | N_succeeded | N_cancelled | N_manual_intervention => []
  end.

Definition ATTEMPT_TRANSITIONS (from : WorkflowAttemptStateV1) : list WorkflowAttemptStateV1 :=
  match from with
  | A_scheduled => [A_leased; A_cancelled]
  | A_leased => [A_running; A_scheduled; A_unknown; A_cancelled]
  | A_running =>
      [A_waiting; A_verifying; A_retry_wait; A_unknown; A_succeeded; A_failed; A_cancelled]
  | A_waiting => [A_running; A_retry_wait; A_succeeded; A_failed; A_cancelled]
  | A_verifying => [A_succeeded; A_retry_wait; A_failed; A_manual_intervention]
  | A_retry_wait => [A_scheduled; A_failed; A_cancelled]
  | A_unknown => [A_succeeded; A_failed; A_manual_intervention]
  | A_succeeded | A_failed | A_cancelled | A_manual_intervention => []
  end.

Definition TERMINAL_ATTEMPTS : list WorkflowAttemptStateV1 :=
  [A_succeeded; A_failed; A_cancelled; A_manual_intervention].

Definition assertWorkflowStateTransitionV1 (from to : WorkflowStateV1) : res unit :=
  fail_if (negb (bool_decide (to ∈ WORKFLOW_TRANSITIONS from))) "WORKFLOW_TRANSITION_INVALID".

Definition assertWorkflowNodeTransitionV1 (from to : WorkflowNodeStateV1) : res unit :=
  fail_if (negb (bool_decide (to ∈ NODE_TRANSITIONS from))) "WORKFLOW_TRANSITION_INVALID".

(** ** Updates of the projection *)

Definition updateNode (nodes : list WorkflowNodeProjectionV1) (data : NodeStateChanged) :
    res (list WorkflowNodeProjectionV1) :=
  updated ← mapM (λ node,
      if decide (np_nodeId node ≠ nsc_nodeId data) then Ok node
      else
        assertWorkflowNodeTransitionV1 (np_state node) (nsc_state data);;
        Ok {| np_nodeId := np_nodeId node; np_state := nsc_state data;
              np_attemptIds := np_attemptIds node; np_errorCode := nsc_errorCode data;
              np_resultRef := nsc_resultRef data |}) nodes;
  fail_if (negb (existsb (λ node, bool_decide (np_nodeId node = nsc_nodeId data)) nodes))
    "WORKFLOW_NODE_NOT_FOUND";;
  Ok updated.

Definition or_else {A} (x y : option A) : option A := match x with Some _ => x | None => y end.

Definition updateAttempt (attempts : list WorkflowAttemptProjectionV1) (data : AttemptStateChanged) :
    res (list WorkflowAttemptProjectionV1) :=
  updated ← mapM (λ attempt,
      if decide (ap_attemptId attempt ≠ asc_attemptId data) then Ok attempt
      else
        fail_if (negb (bool_decide (asc_state data ∈ ATTEMPT_TRANSITIONS (ap_state attempt))))
          "WORKFLOW_TRANSITION_INVALID";;
        Ok {| ap_attemptId := ap_attemptId attempt; ap_nodeId := ap_nodeId attempt;
              ap_ordinal := ap_ordinal attempt; ap_state := asc_state data;
              ap_leaseToken := or_else (asc_leaseToken data) (ap_leaseToken attempt);
              ap_workerId := or_else (asc_workerId data) (ap_workerId attempt);
              ap_startedAt := if bool_decide (asc_state data = A_running) then Some (asc_at data)
                              else ap_startedAt attempt;
              ap_lastProgressAt := Some (asc_at data);
              ap_finishedAt := if bool_decide (asc_state data ∈ TERMINAL_ATTEMPTS)
                               then Some (asc_at data) else ap_finishedAt attempt;
              ap_errorCode := asc_errorCode data; ap_resultRef := asc_resultRef data;
              ap_receiptRef := asc_receiptRef data |}) attempts;
  fail_if (negb (existsb (λ a, bool_decide (ap_attemptId a = asc_attemptId data)) attempts))
    "WORKFLOW_ATTEMPT_NOT_FOUND";;
  Ok updated.

Definition proposed_node (nodeId : string) : WorkflowNodeProjectionV1 :=
  {| np_nodeId := nodeId; np_state := N_proposed; np_attemptIds := [];
     np_errorCode := None; np_resultRef := JUndef |}.

(** Object spreads [{...projection, field: value}]. *)
Definition with_state (p : WorkflowProjectionV1) (state : WorkflowStateV1) (code : option string) :=
  {| wp_workflowId := wp_workflowId p; wp_runId := wp_runId p; wp_sessionId := wp_sessionId p;
     wp_revision := wp_revision p; wp_sequence := wp_sequence p; wp_state := state;
     wp_spec := wp_spec p; wp_nodes := wp_nodes p; wp_attempts := wp_attempts p;
     wp_graphMutations := wp_graphMutations p; wp_usage := wp_usage p;
     wp_updatedAt := wp_updatedAt p; wp_terminalCode := code |}.
Definition with_graph (p : WorkflowProjectionV1) (revision : Z) (spec : WorkflowSpecV1)
    (mutations : Z) (nodes : list WorkflowNodeProjectionV1)
    (attempts : list WorkflowAttemptProjectionV1) :=
  {| wp_workflowId := wp_workflowId p; wp_runId := wp_runId p; wp_sessionId := wp_sessionId p;
     wp_revision := revision; wp_sequence := wp_sequence p; wp_state := wp_state p;
     wp_spec := spec; wp_nodes := nodes; wp_attempts := attempts;
     wp_graphMutations := mutations; wp_usage := wp_usage p;
     wp_updatedAt := wp_updatedAt p; wp_terminalCode := wp_terminalCode p |}.
Definition with_usage (p : WorkflowProjectionV1) (usage : WorkflowUsageV1) :=
  {| wp_workflowId := wp_workflowId p; wp_runId := wp_runId p; wp_sessionId := wp_sessionId p;
     wp_revision := wp_revision p; wp_sequence := wp_sequence p; wp_state := wp_state p;
     wp_spec := wp_spec p; wp_nodes := wp_nodes p; wp_attempts := wp_attempts p;
     wp_graphMutations := wp_graphMutations p; wp_usage := usage;
     wp_updatedAt := wp_updatedAt p; wp_terminalCode := wp_terminalCode p |}.
Definition with_sequence (p : WorkflowProjectionV1) (sequence : Z) (updatedAt : string) :=
  {| wp_workflowId := wp_workflowId p; wp_runId := wp_runId p; wp_sessionId := wp_sessionId p;
     wp_revision := wp_revision p; wp_sequence := sequence; wp_state := wp_state p;
     wp_spec := wp_spec p; wp_nodes := wp_nodes p; wp_attempts := wp_attempts p;
     wp_graphMutations := wp_graphMutations p; wp_usage := wp_usage p;
     wp_updatedAt := updatedAt; wp_terminalCode := wp_terminalCode p |}.

Definition spec_with_topology (s : WorkflowSpecV1) (topology : WorkflowTopologyV1) : WorkflowSpecV1 :=
  {| ws_workflowId := ws_workflowId s; ws_runId := ws_runId s; ws_sessionId := ws_sessionId s;
     ws_parent := ws_parent s; ws_executionTarget := ws_executionTarget s;
     ws_scheduling := ws_scheduling s; ws_workspace := ws_workspace s;
     ws_objective := ws_objective s; ws_modePolicy := ws_modePolicy s; ws_topology := topology;
     ws_revision := ws_revision s; ws_nodes := ws_nodes s; ws_edges := ws_edges s;
     ws_completion := ws_completion s; ws_budget := ws_budget s;
     ws_maxGraphMutations := ws_maxGraphMutations s; ws_createdAt := ws_createdAt s |}.

Definition add_usage (u d : WorkflowUsageV1) : WorkflowUsageV1 :=
  {| us_turns := us_turns u + us_turns d; us_toolCalls := us_toolCalls u + us_toolCalls d;
     us_inputTokens := us_inputTokens u + us_inputTokens d;
     us_outputTokens := us_outputTokens u + us_outputTokens d;
     us_agentTasks := us_agentTasks u + us_agentTasks d |}.

(** [data.node.nodeId] of an unchecked node. *)
Definition node_field (node : jsval) (k : string) : jsval :=
  match node with JObj o => get o k | _ => JUndef end.

Section Reducer.
Context `{JsEngine}.

Definition initialWorkflowProjectionV1 (specValue : jsval) : res WorkflowProjectionV1 :=
  spec ← validateWorkflowSpecV1 specValue;
  Ok {| wp_workflowId := ws_workflowId spec; wp_runId := ws_runId spec;
        wp_sessionId := ws_sessionId spec; wp_revision := ws_revision spec; wp_sequence := 0;
        wp_state := W_created; wp_spec := spec;
        wp_nodes := (λ n, proposed_node (ns_nodeId n)) <$> ws_nodes spec;
        wp_attempts := []; wp_graphMutations := 0;
        wp_usage := {| us_turns := 0; us_toolCalls := 0; us_inputTokens := 0;
                       us_outputTokens := 0; us_agentTasks := 0 |};
        wp_updatedAt := ws_createdAt spec; wp_terminalCode := None |}.

(** The header check of every event. *)
Definition event_rejected (current : WorkflowProjectionV1) (event : WorkflowEventV1) : bool :=
  negb (ev_schemaVersion event =? 1) || negb (SAFE_ID (ev_eventId event))
  || bool_decide (ev_workflowId event ≠ wp_workflowId current)
  || bool_decide (ev_runId event ≠ wp_runId current)
  || negb (ev_sequence event =? wp_sequence current + 1)
  || negb (timestamp (JStr (ev_occurredAt event))).

(** A [workflow.*] state change. *)
Definition change_state (current next : WorkflowProjectionV1) (state : WorkflowStateV1)
    (code : option string) : res WorkflowProjectionV1 :=
  assertWorkflowStateTransitionV1 (wp_state current) state;;
  Ok (with_state next state code).

(** [case 'graph.patched']. *)
Definition apply_graph_patched (current next : WorkflowProjectionV1) (specValue : jsval) :
    res WorkflowProjectionV1 :=
  spec ← validateWorkflowSpecV1 specValue;
  fail_if (negb (ws_revision spec =? wp_revision current + 1)
           || (ws_maxGraphMutations (wp_spec current) <=? wp_graphMutations current))
    "WORKFLOW_GRAPH_PATCH_REJECTED";;
  let existing := mof ((λ node, (np_nodeId node, node)) <$> wp_nodes current) in
  Ok (with_graph next (ws_revision spec) spec (wp_graphMutations current + 1)
       ((λ n, default (proposed_node (ns_nodeId n)) (mget (ns_nodeId n) existing)) <$> ws_nodes spec)
       (wp_attempts next)).

(** [case 'execution.task_admitted']. *)
Definition apply_task_admitted (current next : WorkflowProjectionV1)
    (requestId requestDigest : string) (node : jsval) (attempt : WorkflowAttemptProjectionV1) :
    res WorkflowProjectionV1 :=
  let nodeId := node_field node "nodeId" in
  fail_if (negb (SAFE_ID requestId) || negb (SHA256 requestDigest)
           || existsb (λ n, is_str nodeId (np_nodeId n)) (wp_nodes current)
           || existsb (λ a, bool_decide (ap_attemptId a = ap_attemptId attempt)) (wp_attempts current)
           || negb (is_str nodeId (ap_nodeId attempt))
           || negb (ap_ordinal attempt =? 1)) "WORKFLOW_TASK_REQUEST_CONFLICT";;
  spec ← validateWorkflowSpecV1
    (Spec_js_with (wp_spec current) ((NodeSpec_js <$> ws_nodes (wp_spec current)) ++ [node]));
  Ok (with_graph next (wp_revision next) spec (wp_graphMutations next)
       (wp_nodes current ++
          [{| np_nodeId := js_str nodeId; np_state := N_scheduled;
              np_attemptIds := [ap_attemptId attempt]; np_errorCode := None;
              np_resultRef := JUndef |}])
       (wp_attempts current ++ [attempt])).

(** [case 'attempt.created']. *)
Definition apply_attempt_created (current next : WorkflowProjectionV1)
    (attempt : WorkflowAttemptProjectionV1) : res WorkflowProjectionV1 :=
  fail_if (existsb (λ a, bool_decide (ap_attemptId a = ap_attemptId attempt)) (wp_attempts current))
    "WORKFLOW_ATTEMPT_DUPLICATE";;
  match findb (λ n, bool_decide (np_nodeId n = ap_nodeId attempt)) (wp_nodes current) with
  | None => Err "WORKFLOW_ATTEMPT_INVALID"
  | Some node =>
      fail_if (negb (ap_ordinal attempt =? Z.of_nat (length (np_attemptIds node)) + 1))
        "WORKFLOW_ATTEMPT_INVALID";;
      Ok (with_graph next (wp_revision next) (wp_spec next) (wp_graphMutations next)
           ((λ candidate,
              if decide (np_nodeId candidate = np_nodeId node) then
                {| np_nodeId := np_nodeId candidate; np_state := np_state candidate;
                   np_attemptIds := np_attemptIds candidate ++ [ap_attemptId attempt];
                   np_errorCode := np_errorCode candidate; np_resultRef := np_resultRef candidate |}
              else candidate) <$> wp_nodes current)
           (wp_attempts current ++ [attempt]))
  end.

Definition applyWorkflowEventV1 (current : WorkflowProjectionV1) (event : WorkflowEventV1) :
    res WorkflowProjectionV1 :=
  fail_if (event_rejected current event) "WORKFLOW_HISTORY_INVALID";;
  let next := with_sequence current (ev_sequence event) (ev_occurredAt event) in
  let code := wp_terminalCode next in
  match ev_data event with
  | workflow_created spec =>
      fail_if (negb (wp_sequence current =? 0)
               || negb (is_str (node_field spec "workflowId") (wp_workflowId current)))
        "WORKFLOW_HISTORY_INVALID";;
      Ok next
  | workflow_started => change_state current next W_running code
  | workflow_waiting => change_state current next W_waiting code
  | workflow_paused => change_state current next W_paused code
  | workflow_resumed => change_state current next W_running code
  | workflow_cancelling c => change_state current next W_cancelling (Some c)
  | workflow_terminal state c => change_state current next (terminal_state state) c
  | workflow_topology_changed topology =>
      Ok (with_graph next (wp_revision next) (spec_with_topology (wp_spec current) topology)
           (wp_graphMutations next) (wp_nodes next) (wp_attempts next))
  | budget_charged charge => Ok (with_usage next (add_usage (wp_usage current) charge))
  | signal_received _ _ | effect_receipt_recorded _ _ _ | effect_reserved _ _ _ _
  | effect_replayed _ _ _ | execution_snapshot_bound _ _ _ | effect_compensated _ _ _
  | timer_fired _ _ | human_task_resolved _ _ _ => Ok next
  | graph_patched spec => apply_graph_patched current next spec
  | execution_task_admitted requestId requestDigest node attempt =>
      apply_task_admitted current next requestId requestDigest node attempt
  | node_state_changed data =>
      nodes ← updateNode (wp_nodes current) data;
      Ok (with_graph next (wp_revision next) (wp_spec next) (wp_graphMutations next) nodes
           (wp_attempts next))
  | attempt_created attempt => apply_attempt_created current next attempt
  | attempt_state_changed data =>
      attempts ← updateAttempt (wp_attempts current) data;
      Ok (with_graph next (wp_revision next) (wp_spec next) (wp_graphMutations next)
           (wp_nodes next) attempts)
  end.

Fixpoint apply_events (projection : WorkflowProjectionV1) (events : list WorkflowEventV1) :
    res WorkflowProjectionV1 :=
  match events with
  | [] => Ok projection
  | event :: events =>
      projection ← applyWorkflowEventV1 projection event;
      apply_events projection events
  end.

Definition reduceWorkflowEventsV1 (events : list WorkflowEventV1) : res WorkflowProjectionV1 :=
  match events with
  | {| ev_data := workflow_created spec |} :: _ =>
      projection ← initialWorkflowProjectionV1 spec;
      apply_events projection events
  | _ => Err "WORKFLOW_HISTORY_INVALID"
  end.

(** ** Readiness *)

Inductive WorkflowNodeReadinessV1 := r_waiting | r_ready | r_skipped | r_blocked.

#[export] Instance WorkflowNodeReadinessV1_dec : EqDecision WorkflowNodeReadinessV1.
Proof. solve_decision. Defined.

Definition terminal_node_states : list WorkflowNodeStateV1 :=
  [N_unknown; N_skipped; N_succeeded; N_failed; N_cancelled; N_manual_intervention].

(** A node projection as the object that edge conditions inspect. *)
Definition NodeProjection_js (n : WorkflowNodeProjectionV1) : jsval :=
  JObj [("nodeId"%string, JStr (np_nodeId n)); ("state"%string, JStr (node_state_name (np_state n)));
        ("attemptIds"%string, JStrs (np_attemptIds n));
        ("errorCode"%string, undef_prop JStr (np_errorCode n)); ("resultRef"%string, np_resultRef n)].

(** [deepEqual]: equal JSON texts. *)
Definition deepEqual (left right : jsval) : bool :=
  bool_decide (JSON_stringify left = JSON_stringify right).

(** Names inherited by every object and by every array; all but [__proto__] and
    [constructor] read as functions, and [constructor] is one too. *)
Definition OBJECT_PROTOTYPE : list string :=
  ["constructor"; "__defineGetter__"; "__defineSetter__"; "hasOwnProperty"; "__lookupGetter__";
   "__lookupSetter__"; "isPrototypeOf"; "propertyIsEnumerable"; "toString"; "valueOf";
   "toLocaleString"]%string.
Definition ARRAY_PROTOTYPE : list string :=
  ["at"; "concat"; "copyWithin"; "fill"; "find"; "findIndex"; "findLast"; "findLastIndex";
   "lastIndexOf"; "pop"; "push"; "reverse"; "shift"; "unshift"; "slice"; "sort"; "splice";
   "includes"; "indexOf"; "join"; "keys"; "entries"; "values"; "forEach"; "filter"; "flat";
   "flatMap"; "map"; "every"; "some"; "reduce"; "reduceRight"; "toReversed"; "toSorted";
   "toSpliced"; "with"]%string.

(** [token in v ? v[token] : undefined] on an object [v]; [None] when [v] is
    not an object or lacks the property. *)
Definition read_property (v : jsval) (token : string) : option jsval :=
  let inherited (own : list string) (proto : jsval) :=
    if memb token own then Some JFun
    else if bool_decide (token = "__proto__"%string) then Some proto else None in
  match v with
  | JObj o => if hasOwn o token then Some (get o token) else inherited OBJECT_PROTOTYPE (JObj [])
  | JArr l =>
      if bool_decide (token = "length"%string) then Some (JInt (Z.of_nat (length l)))
      else match findb (λ i, bool_decide (pretty i = token)) (seq 0 (length l)) with
           | Some i => l !! i
           | None => inherited (OBJECT_PROTOTYPE ++ ARRAY_PROTOTYPE) (JArr [])
           end
  | _ => None
  end.

Fixpoint split_slash (s : string) : list string :=
  match s with
  | EmptyString => [""%string]
  | String a s =>
      if decide (a = "/"%char) then ""%string :: split_slash s
      else match split_slash s with
           | part :: parts => String a part :: parts
           | [] => [String a EmptyString]
           end
  end.

(** [part.replaceAll('~d', by)]. *)
Fixpoint replace_tilde (d : ascii) (by_ : ascii) (s : string) : string :=
  match s with
  | String a ((String b s') as rest) =>
      if decide (a = "~"%char ∧ b = d) then String by_ (replace_tilde d by_ s')
      else String a (replace_tilde d by_ rest)
  | _ => s
  end.

Fixpoint walk (current : jsval) (tokens : list string) : jsval :=
  match tokens with
  | [] => current
  | token :: tokens =>
      match read_property current token with
      | Some v => walk v tokens
      | None => JUndef
      end
  end.

Definition jsonPointer (value : jsval) (pointer : string) : jsval :=
  match pointer with
  | EmptyString => value
  | String _ rest =>
      walk value ((λ part, replace_tilde "0" "~" (replace_tilde "1" "/" part)) <$> split_slash rest)
  end.

Definition edgeMatches (source : WorkflowNodeProjectionV1) (condition : WorkflowEdgeConditionV1) : bool :=
  if is_str (cond_operator condition) "status_is" then
    is_str (cond_value condition) (node_state_name (np_state source))
  else
    let selected := match cond_pointer condition with
                    | None => NodeProjection_js source
                    | Some pointer => jsonPointer (NodeProjection_js source) pointer
                    end in
    if is_str (cond_operator condition) "exists" then negb (is_undef selected)
    else if is_str (cond_operator condition) "eq" then deepEqual selected (cond_value condition)
    else match cond_value condition with
         | JArr values => existsb (deepEqual selected) values
         | _ => false
         end.

Record EdgeCounts := { active : Z; succeeded : Z; pending : Z }.

(** The loop over incoming edges; [None] is the early [return 'blocked']. *)
Fixpoint count_edges (sources : list (string * WorkflowNodeProjectionV1))
    (edges : list WorkflowEdgeV1) (c : EdgeCounts) : option EdgeCounts :=
  match edges with
  | [] => Some c
  | edge :: edges =>
      match mget (we_from edge) sources with
      | None => None
      | Some source =>
          if negb (bool_decide (np_state source ∈ terminal_node_states)) then
            count_edges sources edges
              {| active := active c + 1; succeeded := succeeded c; pending := pending c + 1 |}
          else
            let selected := match we_condition edge with
                            | None => bool_decide (np_state source ≠ N_skipped)
                            | Some condition => edgeMatches source condition
                            end in
            if negb selected then count_edges sources edges c
            else count_edges sources edges
              {| active := active c + 1;
                 succeeded := if bool_decide (np_state source = N_succeeded)
                              then succeeded c + 1 else succeeded c;
                 pending := pending c |}
      end
  end.

Definition workflowNodeReadinessV1 (projection : WorkflowProjectionV1) (nodeId : string) :
    WorkflowNodeReadinessV1 :=
  let incoming := incoming (ws_edges (wp_spec projection)) nodeId in
  match incoming with
  | [] => r_ready
  | _ =>
      let sources := mof ((λ node, (np_nodeId node, node)) <$> wp_nodes projection) in
      let spec := findb (λ n, bool_decide (ns_nodeId n = nodeId)) (ws_nodes (wp_spec projection)) in
      let join := spec ≫= ns_join in
      match count_edges sources incoming {| active := 0; succeeded := 0; pending := 0 |} with
      | None => r_blocked
      | Some c =>
          if active c =? 0 then
            match join with None | Some JoinAll => r_skipped | _ => r_blocked end
          else
            let minimum := match join with
                           | Some JoinAny => 1
                           | Some (JoinQuorum minimum) => minimum
                           | _ => active c
                           end in
            if minimum <=? succeeded c then r_ready
            else if succeeded c + pending c <? minimum then r_blocked else r_waiting
      end
  end.

Definition readyWorkflowNodeIdsV1 (projection : WorkflowProjectionV1) : list string :=
  if negb (bool_decide (wp_state projection = W_running)) then []
  else ns_nodeId <$> filter (λ spec,
    match findb (λ n, bool_decide (np_nodeId n = ns_nodeId spec)) (wp_nodes projection) with
    | Some node =>
        bool_decide (np_state node ∈ [N_proposed; N_admitted; N_retry_wait])
        && bool_decide (workflowNodeReadinessV1 projection (ns_nodeId spec) = r_ready)
    | None => false
    end = true) (ws_nodes (wp_spec projection)).
End Reducer.
