(* ===== verification/Samples.v ===== *)
(** * Concrete inputs

    An engine for the parts of the host that the model leaves open, and small
    well-formed inputs at which the properties of the other files are
    evaluated. *)

From S2P Require Import Prelude Js CanonicalJson Graph Workflow WorkflowReducer.
Local Open Scope Z_scope.

(** An engine that knows one instant, compares strings by bytes, prints every
    non-integral number alike and converts no text to a number. *)
Definition instant : string := "2026-01-01T00:00:00.000Z".
#[export] Instance sample_engine : JsEngine := {|
  Date_parse s := if decide (s = instant) then Some 1767225600000 else None;
  localeCompare := String.compare;
  Number_toString _ := "0.5"%string;
  String_toNumber _ := NNaN;
|}.

(** A digest function with one value. *)
#[export] Instance sample_crypto : JsCrypto :=
  {| sha256_hex _ := "0123456789abcdef0123456789abcdef0123456789abcdef0123456789abcdef" |}.

(** ** Workflows *)

Definition sample_digest : string :=
  "sha256:0123456789abcdef0123456789abcdef0123456789abcdef0123456789abcdef".

Definition sample_node_with (id kind : string) (extra : jsobj) : jsval := JObj ([
  ("nodeId", JStr id); ("kind", JStr kind); ("title", JStr "A node");
  ("inputRefs", JArr []); 
  ("grantRequest", JObj [("tools", JStrs ["*"]); ("skills", JArr []); ("mcpServers", JArr []);
     ("workspace", JStr "read"); ("network", JBool false); ("mayDelegate", JBool false)]);
  ("effect", JObj [("class", JStr "pure"); ("requiresApproval", JBool false)]);
  ("retry", JObj [("maxAttempts", JInt 2); ("initialBackoffMs", JInt 0); ("maxBackoffMs", JInt 10);
     ("retryableCodes", JArr [])]);
  ("timeout", JObj [("totalMs", JInt 1000); ("noProgressMs", JInt 500); ("heartbeatMs", JInt 100)]);
  ("criteria", JArr [])]%string ++ extra).
Definition sample_node (id kind : string) : jsval := sample_node_with id kind [].

Definition sample_edge (a b : string) : jsval := JObj [("from", JStr a); ("to", JStr b)]%string.

Definition sample_spec_with (revision mutations : Z) (nodes edges : list jsval) : jsval := JObj [
  ("schemaVersion", JInt 1); ("workflowId", JStr "w1"); ("runId", JStr "r1"); ("sessionId", JStr "s1");
  ("workspace", JStr "/w"); ("objective", JStr "Do it"); ("modePolicy", JStr "workflow");
  ("topology", JStr "workflow_graph"); ("revision", JInt revision);
  ("nodes", JArr nodes); ("edges", JArr edges); ("completion", JStr "all_required");
  ("budget", JObj [("maxWallClockMs", JInt 1000); ("maxTokens", JInt 1000); ("maxToolCalls", JInt 10);
     ("maxAgentTasks", JInt 5); ("maxParallelTasks", JInt 2)]);
  ("maxGraphMutations", JInt mutations); ("createdAt", JStr instant)]%string.

(** [a] feeds [b], and both feed a synthesis node with a quorum of one. *)
Definition sample_spec_js : jsval := sample_spec_with 1 1
  [sample_node "a" "agent_task"; sample_node "b" "tool_activity";
   sample_node_with "c" "synthesis"
     [("join"%string, JObj [("kind", JStr "quorum"); ("minimum", JInt 1)]%string)]]
  [sample_edge "a" "b"; sample_edge "a" "c"; sample_edge "b" "c"].

(** [value] of an outcome, with a default for the [Err] case. *)
Definition get_ok {A} (d : A) (r : res A) : A := match r with Ok a => a | Err _ => d end.

Definition sample_attempt (id node : string) (ordinal : Z) : WorkflowAttemptProjectionV1 :=
  {| ap_attemptId := id; ap_nodeId := node; ap_ordinal := ordinal; ap_state := A_scheduled;
     ap_leaseToken := None; ap_workerId := None; ap_startedAt := None; ap_lastProgressAt := None;
     ap_finishedAt := None; ap_resultRef := JUndef; ap_receiptRef := JUndef; ap_errorCode := None |}.

Definition sample_event (sequence : Z) (data : WorkflowEventDataV1) : WorkflowEventV1 :=
  {| ev_schemaVersion := 1; ev_eventId := "e"; ev_workflowId := "w1"; ev_runId := "r1";
     ev_sequence := sequence; ev_occurredAt := instant;
     ev_causationId := None; ev_data := data |}.

Definition node_to (id : string) (state : WorkflowNodeStateV1) : WorkflowEventDataV1 :=
  node_state_changed {| nsc_nodeId := id; nsc_state := state; nsc_errorCode := None;
                        nsc_resultRef := JUndef |}.
Definition attempt_to (id : string) (state : WorkflowAttemptStateV1) : WorkflowEventDataV1 :=
  attempt_state_changed {| asc_attemptId := id; asc_state := state; asc_leaseToken := None;
    asc_workerId := None; asc_at := instant; asc_errorCode := None; asc_resultRef := JUndef;
    asc_receiptRef := JUndef |}.

Definition numbered (data : list WorkflowEventDataV1) : list WorkflowEventV1 :=
  imap (λ i d, sample_event (Z.of_nat i + 1) d) data.

Definition sample_charge : WorkflowUsageV1 :=
  {| us_turns := 1; us_toolCalls := 2; us_inputTokens := 3; us_outputTokens := 4; us_agentTasks := 1 |}.

(** A run that admits, runs and finishes node [a], patches the graph, admits a
    task and completes. *)
Definition sample_data : list WorkflowEventDataV1 :=
  [workflow_created sample_spec_js; workflow_started; node_to "a" N_admitted; node_to "a" N_scheduled;
   attempt_created (sample_attempt "a1" "a" 1); node_to "a" N_leased; attempt_to "a1" A_leased;
   attempt_to "a1" A_running; attempt_to "a1" A_succeeded;
   node_to "a" N_running; node_to "a" N_succeeded; budget_charged sample_charge;
   execution_task_admitted "q1" sample_digest (sample_node "d" "agent_task") (sample_attempt "d1" "d" 1);
   workflow_topology_changed delegated_agents; workflow_terminal T_completed None].
Definition sample_history : list WorkflowEventV1 := numbered sample_data.

Example sample_spec_accepted : is_ok (validateWorkflowSpecV1 sample_spec_js) = true.
Proof. vm_compute. reflexivity. Qed.
Example sample_history_accepted : is_ok (reduceWorkflowEventsV1 sample_history) = true.
Proof. vm_compute. reflexivity. Qed.
