(* ===== verification/WorkflowSpec.v ===== *)
(** * What an accepted Workflow specification guarantees

    Well-formedness of the specifications that [validateWorkflowSpecV1] of
    packages/core-sdk/src/workflow.ts accepts, correctness of its cycle check
    and stability of validation: the validated value is accepted again, as
    itself. *)

From S2P Require Import Prelude Js JsOps Graph Workflow.
Local Open Scope Z_scope.

(** ** Reading back the parts *)

Lemma text_inv v : text v = true → ∃ s, v = JStr s ∧ text (JStr s) = true.
Proof. destruct v; try done. by eexists. Qed.
Ltac canon_hook ::= match goal with
  | H : text (get _ _) = true |- _ => apply text_inv in H as (? & ? & ?)
  end.

Lemma record_Ok code v o : record code v = Ok o ↔ v = JObj o.
Proof. destruct v; cbn; naive_solver. Qed.

Ltac open_step :=
  match goal with
  | H : record _ _ = Ok _ |- _ => apply record_Ok in H; subst
  | _ => inv_ok_step
  end.
Ltac open_validator := intros; repeat open_step; simplify_eq; canon;
  cbn [js_int js_str js_arr js_bool JInt] in *.

Ltac node_cbn :=
  cbn -[opt_res opt_prop undef_prop opt mapM validateVersionedRef validateArtifactRef
    validateCapabilityRequest validateEffect validateRetry validateTimeout validateCriterion
    validateJoin validateCondition validateSchedulingPolicy validateBudget].

Ltac node_guards := guards_with node_cbn.
Ltac get_props :=
  rewrite ?get_opt_prop_eq_nil;
  repeat rewrite get_opt_prop_eq by reflexivity;
  repeat rewrite get_opt_prop_ne by reflexivity;
  node_cbn.

Section Reparse.
Context `{JsEngine}.

Lemma validateVersionedRef_reparse v r :
  validateVersionedRef v = Ok r → validateVersionedRef (VersionedRef_js r) = Ok r.
Proof. unfold validateVersionedRef. open_validator; cbn; guards; done. Qed.

Lemma validateArtifactRef_reparse v r :
  validateArtifactRef v = Ok r → validateArtifactRef (ArtifactRef_js r) = Ok r.
Proof. unfold validateArtifactRef. open_validator; cbn -[text]; guards; done. Qed.

Lemma validateBudget_reparse v b :
  validateBudget v = Ok b → validateBudget (Budget_js b) = Ok b.
Proof.
  unfold validateBudget. cbn -[positiveInteger]. open_validator.
  destruct (x .: "maxCostUsd"); inv_ok; cbn -[positiveInteger]; guards; done.
Qed.

Lemma validateEffect_reparse v e :
  validateEffect v = Ok e → validateEffect (Effect_js e) = Ok e.
Proof. unfold validateEffect. open_validator; cbn -[is_str]; guards; done. Qed.

Lemma js_str_safeIds l :
  forallb safeId l = true → JStrs (js_str <$> l) = JArr l.
Proof.
  intros Hl. apply js_strs_inv. apply forallb_true in Hl. apply forallb_true.
  eapply Forall_impl; [done|]. intros x Hx. by destruct x.
Qed.

Lemma validateRetry_reparse v r :
  validateRetry v = Ok r → validateRetry (Retry_js r) = Ok r.
Proof.
  unfold validateRetry. open_validator. cbn -[JStrs]. rewrite js_str_safeIds by done.
  cbn. guards. done.
Qed.

Lemma validateTimeout_reparse v t :
  validateTimeout v = Ok t → validateTimeout (Timeout_js t) = Ok t.
Proof. unfold validateTimeout. open_validator; cbn; guards; done. Qed.

Lemma validateJoin_reparse v j :
  validateJoin v = Ok j → validateJoin (Join_js j) = Ok j.
Proof. unfold validateJoin. open_validator; repeat case_match; open_validator; cbn; guards; done. Qed.

Lemma validateCriterion_reparse v c :
  validateCriterion v = Ok c → validateCriterion (Criterion_js c) = Ok c.
Proof. unfold validateCriterion. open_validator; cbn -[text]; guards; done. Qed.

Lemma validateCapabilityRequest_reparse v c :
  validateCapabilityRequest v = Ok c → validateCapabilityRequest (CapabilityRequest_js c) = Ok c.
Proof.
  unfold validateCapabilityRequest. open_validator.
  match goal with H : forallb capability_item _ = true |- _ => rename H into Hitems end.
  pose proof Hitems as Hstr.
  rewrite !forallb_app, !andb_true_iff in Hstr. destruct Hstr as (Ht & Hs & Hm).
  assert (∀ l, forallb capability_item l = true → JStrs (js_str <$> l) = JArr l) as Hl.
  { intros l Hl%forallb_true. apply js_strs_inv, forallb_true. eapply Forall_impl; [done|].
    intros y Hy. by destruct y. }
  unfold CapabilityRequest_js. cbn -[JStrs]. rewrite !Hl by done. cbn. guards. done.
Qed.

Lemma validateCondition_reparse v c :
  validateCondition v = Ok c → validateCondition (Condition_js c) = Ok c.
Proof. unfold validateCondition. open_validator; cbn; guards; done. Qed.

Lemma validateEdge_reparse ids ids' v e :
  (∀ k, k ∈ ids → k ∈ ids') →
  validateEdge ids v = Ok e → validateEdge ids' (Edge_js e) = Ok e.
Proof.
  intros Hids. unfold validateEdge. open_validator.
  match goal with H : opt_res _ _ = Ok ?c |- _ =>
    apply (opt_res_reparse _ Condition_js _ _ validateCondition_reparse ltac:(done)) in H as Hc end.
  repeat match goal with H : memb _ ids = true |- _ => apply memb_true, Hids, memb_true in H end.
  cbn -[opt_res opt_prop undef_prop validateCondition]. rewrite !get_opt_prop_eq_nil. guards.
  rewrite bool_decide_eq_false_2 by done. cbn -[opt_res undef_prop validateCondition]. done.
Qed.

Lemma opt_bool_undef v : v = JUndef ∨ is_bool v = true →
  let o := opt js_bool v in
  negb (is_undef (undef_prop JBool o)) && negb (is_bool (undef_prop JBool o)) = false ∧
  opt js_bool (undef_prop JBool o) = o.
Proof. intros [->|[b ->]%is_bool_inv]; done. Qed.

Lemma opt_int_undef v : v = JUndef ∨ positiveInteger v = true →
  let o := opt js_int v in
  negb (is_undef (undef_prop JInt o)) && negb (positiveInteger (undef_prop JInt o)) = false ∧
  opt js_int (undef_prop JInt o) = o.
Proof.
  intros [->|(z & -> & Hz)%positiveInteger_inv]; [done|]. cbn.
  by rewrite (proj2 (positiveInteger_int z)).
Qed.

Lemma opt_check_or v b : negb (is_undef v) && negb b = false → v = JUndef ∨ b = true.
Proof. destruct v, b; naive_solver. Qed.

Lemma validateNode_reparse v n :
  validateNode v = Ok n → validateNode (NodeSpec_js n) = Ok n.
Proof.
  unfold validateNode. intros Hv. repeat open_step. simplify_eq. split_bool.
  repeat match goal with
  | H : negb (is_undef _) && negb _ = false |- _ => apply opt_check_or in H
  end.
  match goal with
  | H : _ ∨ is_bool _ = true |- _ => apply opt_bool_undef in H as [Hreq1 Hreq2]
  end.
  match goal with
  | H : _ ∨ positiveInteger _ = true |- _ => apply opt_int_undef in H as [Hmax1 Hmax2]
  end.
  repeat match goal with
  | H : opt_res validateVersionedRef (get _ _) = _ |- _ =>
      apply (opt_res_reparse _ VersionedRef_js _ _ validateVersionedRef_reparse ltac:(done)) in H
  | H : opt_res validateJoin (get _ _) = _ |- _ =>
      apply (opt_res_reparse _ Join_js _ _ validateJoin_reparse ltac:(done)) in H
  | H : mapM validateArtifactRef (js_arr _) = _ |- _ =>
      apply (mapM_reparse _ ArtifactRef_js _ _ validateArtifactRef_reparse) in H
  | H : mapM validateCriterion (js_arr _) = _ |- _ =>
      apply (mapM_reparse _ Criterion_js _ _ validateCriterion_reparse) in H
  | H : validateCapabilityRequest (get _ _) = _ |- _ => apply validateCapabilityRequest_reparse in H
  | H : validateEffect (get _ _) = _ |- _ => apply validateEffect_reparse in H
  | H : validateRetry (get _ _) = _ |- _ => apply validateRetry_reparse in H
  | H : validateTimeout (get _ _) = _ |- _ => apply validateTimeout_reparse in H
  end.
  canon. cbn [js_int js_str js_arr js_bool JInt] in *.
  node_cbn. get_props. rewrite Hreq1, Hreq2, Hmax1, Hmax2. node_guards. reflexivity.
Qed.

Lemma validateCapacityGroup_reparse v g :
  validateCapacityGroup v = Ok g → validateCapacityGroup (CapacityGroup_js g) = Ok g.
Proof. unfold validateCapacityGroup. open_validator; cbn; guards; done. Qed.

Lemma validateSchedulingPolicy_reparse v g :
  validateSchedulingPolicy v = Ok g → validateSchedulingPolicy (SchedulingPolicy_js g) = Ok g.
Proof.
  unfold validateSchedulingPolicy, unique. intros Hv. repeat open_step. simplify_eq. split_bool.
  match goal with H : mapM _ (js_arr _) = Ok g |- _ =>
    pose proof (Forall2_length _ _ _ (proj1 (mapM_Ok _ _ _) H)) as Hlen;
    apply (mapM_reparse _ CapacityGroup_js _ _ validateCapacityGroup_reparse) in H as Hg end.
  rewrite Hlen in *. cbn -[mapM]. rewrite length_fmap. guards_with ltac:(cbn -[mapM]). done.
Qed.
End Reparse.

(** ** The graph part *)

(** What the loops over nodes and edges establish. *)
Record graph_wf (mode : WorkflowModePolicyV1) (nodes : list WorkflowNodeSpecV1)
    (edges : list WorkflowEdgeV1) : Prop := {
  gw_unique : NoDup (ns_nodeId <$> nodes);
  gw_ends : ∀ e, e ∈ edges →
    we_from e ∈ ns_nodeId <$> nodes ∧ we_to e ∈ ns_nodeId <$> nodes ∧ we_from e ≠ we_to e;
  gw_acyclic : acyclic (edge (edge_pairs edges));
  gw_joins : ∀ n j, n ∈ nodes → ns_join n = Some j →
    (ns_kind n = decision ∨ ns_kind n = synthesis) ∧
    incoming edges (ns_nodeId n) ≠ [] ∧
    ∀ m, j = JoinQuorum m → m ≤ Z.of_nat (length (incoming edges (ns_nodeId n)));
  gw_solo : mode = mode_solo → ∀ n, n ∈ nodes →
    ns_nodeId n = "root"%string ∨ ns_kind n = tool_activity;
}.

Lemma edge_pairs_elem edges a b :
  (a, b) ∈ edge_pairs edges ↔ ∃ e, e ∈ edges ∧ we_from e = a ∧ we_to e = b.
Proof.
  unfold edge_pairs. rewrite list_elem_of_fmap. naive_solver.
Qed.

(** The queue decides acyclicity, and it always answers. *)
Lemma assertAcyclic_spec nodes edges :
  NoDup (ns_nodeId <$> nodes) →
  (∀ e, e ∈ edges → we_from e ∈ ns_nodeId <$> nodes ∧ we_to e ∈ ns_nodeId <$> nodes) →
  assertAcyclic nodes edges = Ok () ∧ acyclic (edge (edge_pairs edges)) ∨
  assertAcyclic nodes edges = Err "WORKFLOW_GRAPH_CYCLE" ∧ ¬ acyclic (edge (edge_pairs edges)).
Proof.
  intros Hnd Hends. unfold assertAcyclic.
  destruct (kahn_visited_spec (ns_nodeId <$> nodes) (edge_pairs edges)) as (v & -> & Hv); [|done|].
  { intros a b (e & He & <- & <-)%edge_pairs_elem. by apply Hends. }
  rewrite length_fmap in Hv. destruct (Z.eqb_spec v (Z.of_nat (length nodes))) as [E|E]; cbn.
  - left. split; [done|]. by apply Hv.
  - right. split; [done|]. by rewrite <-Hv.
Qed.

Lemma join_rejected_false edges n :
  join_rejected edges n = false ↔ ∀ j, ns_join n = Some j →
    (ns_kind n = decision ∨ ns_kind n = synthesis) ∧
    incoming edges (ns_nodeId n) ≠ [] ∧
    ∀ m, j = JoinQuorum m → m ≤ Z.of_nat (length (incoming edges (ns_nodeId n))).
Proof.
  unfold join_rejected. destruct (ns_join n) as [j|]; [|naive_solver].
  rewrite !orb_false_iff, andb_false_iff, !bool_decide_eq_false, Z.eqb_neq. split.
  - intros ((Hk & Hn) & Hq) j' [= <-]. split_and!.
    + destruct (decide (ns_kind n = decision)); [by left|].
      destruct (decide (ns_kind n = synthesis)); [by right|]. naive_solver.
    + intros Hnil. by rewrite Hnil in Hn.
    + intros m ->. lia.
  - intros Hj. destruct (Hj j eq_refl) as (Hk & Hn & Hq). split_and!.
    + destruct Hk; [left|right]; naive_solver.
    + destruct (incoming _ _); [done|]. cbn. lia.
    + destruct j; try done. specialize (Hq _ eq_refl). lia.
Qed.

Lemma solo_rejected_false n :
  solo_rejected n = false ↔ ns_nodeId n = "root"%string ∨ ns_kind n = tool_activity.
Proof.
  unfold solo_rejected. rewrite andb_false_iff, !bool_decide_eq_false.
  split; intros [?|?]; try (left; by apply dec_stable); try (right; by apply dec_stable);
    [left|right]; naive_solver.
Qed.

(** ** Soundness of the validator *)

Definition spec_with_nodes (s : WorkflowSpecV1) (nodes : list WorkflowNodeSpecV1) : WorkflowSpecV1 :=
  {| ws_workflowId := ws_workflowId s; ws_runId := ws_runId s; ws_sessionId := ws_sessionId s;
     ws_parent := ws_parent s; ws_executionTarget := ws_executionTarget s;
     ws_scheduling := ws_scheduling s; ws_workspace := ws_workspace s;
     ws_objective := ws_objective s; ws_modePolicy := ws_modePolicy s;
     ws_topology := ws_topology s; ws_revision := ws_revision s; ws_nodes := nodes;
     ws_edges := ws_edges s; ws_completion := ws_completion s; ws_budget := ws_budget s;
     ws_maxGraphMutations := ws_maxGraphMutations s; ws_createdAt := ws_createdAt s |}.

Section Sound.
Context `{JsEngine}.

Lemma validateEdge_ends ids v e :
  validateEdge ids v = Ok e → we_from e ∈ ids ∧ we_to e ∈ ids ∧ we_from e ≠ we_to e.
Proof.
  unfold validateEdge. intros Hv. repeat open_step. simplify_eq. split_bool. cbn.
  repeat match goal with H : memb _ _ = true |- _ => apply memb_true in H end. done.
Qed.

(** The graph checks that follow the header succeed exactly on well-formed graphs. *)
Lemma graph_checks nodes edges (solo : bool) mode :
  (solo = true ↔ mode = mode_solo) →
  (∀ e, e ∈ edges → we_from e ∈ ns_nodeId <$> nodes ∧ we_to e ∈ ns_nodeId <$> nodes ∧
    we_from e ≠ we_to e) →
  (unique (ns_nodeId <$> nodes) "WORKFLOW_NODE_DUPLICATE" = Ok () ∧
   assertAcyclic nodes edges = Ok () ∧ existsb (join_rejected edges) nodes = false ∧
   solo && existsb solo_rejected nodes = false) ↔ graph_wf mode nodes edges.
Proof.
  intros Hsolo Hends. unfold unique. rewrite fail_if_Ok, negb_false_iff, nodupb_true, existsb_false.
  rewrite Forall_forall. setoid_rewrite join_rejected_false.
  assert (solo && existsb solo_rejected nodes = false ↔ (mode = mode_solo → ∀ n, n ∈ nodes →
    ns_nodeId n = "root"%string ∨ ns_kind n = tool_activity)) as ->.
  { rewrite andb_false_iff, existsb_false, Forall_forall. setoid_rewrite solo_rejected_false.
    destruct solo; [|naive_solver]. split; [naive_solver|]. intros Hx. right. apply Hx. by apply Hsolo. }
  split.
  - intros (Hnd & Hac & Hj & Hs).
    destruct (assertAcyclic_spec nodes edges Hnd) as [[_ ?]|[Hc _]]; [naive_solver| |congruence].
    split; auto.
  - intros [Hnd _ Hac Hj Hs]. split_and!; auto.
    destruct (assertAcyclic_spec nodes edges Hnd) as [[? _]|[_ Hc]]; [naive_solver|done|done].
Qed.

Record spec_parts (s : WorkflowSpecV1) : Prop := {
  sp_graph : graph_wf (ws_modePolicy s) (ws_nodes s) (ws_edges s);
  sp_nonempty : ws_nodes s ≠ [];
  sp_nodes : Forall (λ n, validateNode (NodeSpec_js n) = Ok n) (ws_nodes s);
  sp_edges : ∀ ids, (∀ k, k ∈ ns_nodeId <$> ws_nodes s → k ∈ ids) →
    Forall (λ e, validateEdge ids (Edge_js e) = Ok e) (ws_edges s);
  sp_budget : validateBudget (Budget_js (ws_budget s)) = Ok (ws_budget s);
  sp_mutations : 0 ≤ ws_maxGraphMutations s;
  sp_revision : 0 < ws_revision s;
}.

Lemma validateSpec_parts v s : validateWorkflowSpecV1 v = Ok s → spec_parts s.
Proof.
  unfold validateWorkflowSpecV1. intros Hv. repeat open_step. subst.
  match goal with H : spec_header_rejected _ _ = false |- _ =>
    unfold spec_header_rejected in H; rename H into Hhead end.
  split_bool.
  match goal with H : mapM validateNode _ = Ok ?ns |- _ =>
    rename H into Hnodes; rename ns into nodes end.
  match goal with H : mapM (validateEdge _) _ = Ok ?es |- _ =>
    rename H into Hedges; rename es into edges end.
  apply mapM_Ok in Hnodes as HnodesF. apply mapM_Ok in Hedges as HedgesF.
  split; cbn.
  - apply (graph_checks _ _ (is_str (x .: "modePolicy") "solo")).
    + match goal with H : is_enum (A:=WorkflowModePolicyV1) _ = true |- _ =>
        apply is_enum_inv in H as [m Hm] end. rewrite Hm, enum_cast_name.
      cbn. rewrite bool_decide_eq_true. change "solo"%string with (enum_name mode_solo).
      split; [by intros ?%(inj _)|by intros ->].
    + intros e He. apply (Forall2_r_elem _ _ _ _ HedgesF) in He as (w & _ & Hw).
      by apply validateEdge_ends in Hw.
    + done.
  - intros ->. apply Forall2_length in HnodesF.
    destruct (js_arr (x .: "nodes")); [done|]. cbn in HnodesF. lia.
  - clear -HnodesF. induction HnodesF; constructor; [by eapply validateNode_reparse|done].
  - intros ids Hids. clear -HedgesF Hids. induction HedgesF; constructor; [|done].
    by eapply validateEdge_reparse.
  - by eapply validateBudget_reparse.
  - match goal with H : nonNegativeInteger _ = true |- _ =>
      apply nonNegativeInteger_inv in H as (z & -> & ?) end. cbn; lia.
  - match goal with H : positiveInteger _ = true |- _ =>
      apply positiveInteger_inv in H as (z & -> & ?) end. cbn; lia.
Qed.
End Sound.
