(* ===== verification/WorkflowStable.v ===== *)
(** * Stability of Workflow validation

    packages/core-sdk/src/workflow.ts feeds accepted specifications back to the
    validator ([{...current.spec, nodes: [...]}] on task admission).  Here:
    what it takes to accept such a specification again, and the round trip. *)

From S2P Require Import Prelude Js JsOps Graph Workflow WorkflowReducer Samples WorkflowSpec.
Local Open Scope Z_scope.

Section Stable.
Context `{JsEngine}.

(** The header checks read back from the typed fields. *)
Lemma spec_header_reparse x target js nodes s :
  spec_header_rejected x target = false → js ≠ [] →
  opt_res (record "WORKFLOW_SPEC_INVALID") (x .: "executionTarget") = Ok target →
  s = {| ws_workflowId := js_str (x .: "workflowId");
        ws_runId := js_str (x .: "runId");
        ws_sessionId := js_str (x .: "sessionId");
        ws_parent := opt (λ p, (js_str p, js_str (x .: "parentNodeId")))
                       (x .: "parentWorkflowId");
        ws_executionTarget :=
          (λ target, (js_str (target .: "providerId"), js_str (target .: "model"))) <$> target;
        ws_scheduling := ws_scheduling s;
        ws_workspace := js_str (x .: "workspace");
        ws_objective := js_str (x .: "objective");
        ws_modePolicy := enum_cast mode_auto (x .: "modePolicy");
        ws_topology := enum_cast single_agent (x .: "topology");
        ws_revision := js_int (x .: "revision");
        ws_nodes := nodes;
        ws_edges := ws_edges s;
        ws_completion := enum_cast all_required (x .: "completion");
        ws_budget := ws_budget s;
        ws_maxGraphMutations := js_int (x .: "maxGraphMutations");
        ws_createdAt := js_str (x .: "createdAt") |} →
  ∃ o target', Spec_js_with s js = JObj o ∧
    opt_res (record "WORKFLOW_SPEC_INVALID") (o .: "executionTarget") = Ok target' ∧
    spec_header_rejected o target' = false ∧
    o .: "scheduling" = undef_prop SchedulingPolicy_js (ws_scheduling s) ∧
    o .: "nodes" = JArr js ∧ o .: "edges" = JArr (Edge_js <$> ws_edges s) ∧
    o .: "budget" = Budget_js (ws_budget s) ∧
    o .: "modePolicy" = JStr (enum_name (ws_modePolicy s)) ∧
    ∀ nodes', spec_with_nodes s nodes' = 
     {| ws_workflowId := js_str (o .: "workflowId");
        ws_runId := js_str (o .: "runId");
        ws_sessionId := js_str (o .: "sessionId");
        ws_parent := opt (λ p, (js_str p, js_str (o .: "parentNodeId")))
                       (o .: "parentWorkflowId");
        ws_executionTarget :=
          (λ target, (js_str (target .: "providerId"), js_str (target .: "model"))) <$> target';
        ws_scheduling := ws_scheduling s;
        ws_workspace := js_str (o .: "workspace");
        ws_objective := js_str (o .: "objective");
        ws_modePolicy := enum_cast mode_auto (o .: "modePolicy");
        ws_topology := enum_cast single_agent (o .: "topology");
        ws_revision := js_int (o .: "revision");
        ws_nodes := nodes';
        ws_edges := ws_edges s;
        ws_completion := enum_cast all_required (o .: "completion");
        ws_budget := ws_budget s;
        ws_maxGraphMutations := js_int (o .: "maxGraphMutations");
        ws_createdAt := js_str (o .: "createdAt") |}.
Proof.
  unfold spec_header_rejected. intros Hhead Hjs Htarget Hs. split_bool.
  match goal with H : Bool.eqb _ _ = true |- _ => apply eqb_prop in H as Hparent end.
  assert (Nat.eqb (length js) 0 = false) as Hlen by (by destruct js).
  eexists _, ((λ t, [("providerId"%string, JStr t.1); ("model"%string, JStr t.2)]) <$>
    ws_executionTarget s).
  split; [reflexivity|]. 
  destruct s; cbn [Workflow.ws_scheduling Workflow.ws_edges Workflow.ws_budget] in *.
  canon; try done; injection Hs as -> -> -> -> -> -> -> -> -> -> -> -> -> ->.
  all: destruct target as [target|], ws_scheduling as [groups|]; split_bool; canon.
  all: cbn [js_int js_str js_arr js_bool JInt opt] in *; subst.
  all: cbn -[SchedulingPolicy_js Budget_js text timestamp].
  all: rewrite ?enum_cast_name; split_and!; try reflexivity.
  all: repeat canon_step; cbn [js_str].
  all: guards_with ltac:(cbn -[text timestamp]).
  all: rewrite bool_decide_eq_false_2 by done; reflexivity.
Qed.

Lemma validateSpec_with v s js nodes' :
  validateWorkflowSpecV1 v = Ok s →
  mapM validateNode js = Ok nodes' → js ≠ [] →
  (∀ k, k ∈ ns_nodeId <$> ws_nodes s → k ∈ ns_nodeId <$> nodes') →
  graph_wf (ws_modePolicy s) nodes' (ws_edges s) →
  validateWorkflowSpecV1 (Spec_js_with s js) = Ok (spec_with_nodes s nodes').
Proof.
  intros Hv Hjs Hne Hids Hwf.
  apply validateSpec_parts in Hv as Hparts.
  assert (mapM (validateEdge (ns_nodeId <$> nodes')) (Edge_js <$> ws_edges s) = Ok (ws_edges s))
    as Hedges by (apply mapM_Ok_map; by apply sp_edges).
  unfold validateWorkflowSpecV1 in Hv. repeat open_step.
  match goal with H : opt_res validateSchedulingPolicy _ = Ok _ |- _ =>
    apply (opt_res_reparse _ SchedulingPolicy_js _ _ validateSchedulingPolicy_reparse ltac:(done)) in H
    as Hsched end.
  match goal with H : spec_header_rejected _ _ = false |- _ =>
    destruct (spec_header_reparse x _ js (ws_nodes s) s H Hne) as
      (o & target & Ho & Ht & Hhead & Ho1 & Ho2 & Ho3 & Ho4 & Ho5 & Hres); [done|by subst s|] end.
  rewrite Ho, Hres. unfold validateWorkflowSpecV1.
  cbn [record mbind res_bind]. rewrite Ht, Ho1, Ho2, Ho3, Ho4, Ho5.
  cbn [js_arr mbind res_bind is_str enum_name]. rewrite Hhead, Hjs.
  apply (graph_checks _ _ (bool_decide (enum_name (ws_modePolicy s) = "solo"%string)))
    in Hwf as (Hu & Ha & Hj & Hs); [| |by apply (gw_ends _ _ _ Hwf)].
  2: { rewrite bool_decide_eq_true. change "solo"%string with (enum_name mode_solo).
       split; [by intros ?%(inj _)|by intros ->]. }
  pose proof (sp_budget _ Hparts) as Hbudget.
  assert (opt_res validateSchedulingPolicy (undef_prop SchedulingPolicy_js (ws_scheduling s)) =
    Ok (ws_scheduling s)) as Hsched' by (by subst s).
  rewrite Hsched'. cbn [mbind res_bind fail_if]. rewrite Hu. cbn [mbind res_bind].
  rewrite Hedges. cbn [mbind res_bind]. rewrite Ha. cbn [mbind res_bind]. rewrite Hj.
  cbn [fail_if mbind res_bind is_str]. rewrite Hs. cbn [fail_if mbind res_bind].
  rewrite Hbudget. reflexivity.
Qed.

(** A specification that the validator returns as itself. *)
Definition spec_valid (s : WorkflowSpecV1) : Prop := validateWorkflowSpecV1 (Spec_js s) = Ok s.

Lemma spec_with_own_nodes s : spec_with_nodes s (ws_nodes s) = s.
Proof. by destruct s. Qed.

Lemma spec_nodes_mapM s : spec_parts s → mapM validateNode (NodeSpec_js <$> ws_nodes s) = Ok (ws_nodes s).
Proof. intros Hs. apply mapM_Ok_map, (sp_nodes _ Hs). Qed.

Lemma validateSpec_valid v s : validateWorkflowSpecV1 v = Ok s → spec_valid s.
Proof.
  intros Hv. apply validateSpec_parts in Hv as Hs. unfold spec_valid, Spec_js.
  rewrite (validateSpec_with v s _ (ws_nodes s)); [by rewrite spec_with_own_nodes|done|..].
  - by apply spec_nodes_mapM.
  - pose proof (sp_nonempty _ Hs). by destruct (ws_nodes s).
  - done.
  - apply Hs.
Qed.

Lemma spec_valid_parts s : spec_valid s → spec_parts s.
Proof. apply validateSpec_parts. Qed.

(** One fresh node without incoming edges keeps the graph well-formed. *)
Lemma graph_wf_snoc mode nodes edges n :
  graph_wf mode nodes edges → ns_nodeId n ∉ ns_nodeId <$> nodes →
  ns_join n = None → (mode = mode_solo → ns_nodeId n = "root"%string ∨ ns_kind n = tool_activity) →
  graph_wf mode (nodes ++ [n]) edges.
Proof.
  intros [Hu He Ha Hj Hs] Hfresh Hjoin Hsolo. split; [..|done| |].
  - rewrite fmap_app, NoDup_app. cbn. split_and!; [done| |apply NoDup_singleton].
    intros k Hk ->%list_elem_of_singleton. done.
  - intros e Hin. rewrite fmap_app. destruct (He e Hin) as (? & ? & ?). set_solver.
  - intros m j [Hm| ->%list_elem_of_singleton]%elem_of_app Hmj; [by apply Hj|by simplify_eq].
  - intros Hm m [Hin| ->%list_elem_of_singleton]%elem_of_app; [by apply Hs|by apply Hsolo].
Qed.

(** Appending a node to a valid specification, as task admission does. *)
Lemma validateSpec_snoc s v n :
  spec_valid s → validateNode v = Ok n →
  ns_nodeId n ∉ ns_nodeId <$> ws_nodes s → ns_join n = None →
  (ws_modePolicy s = mode_solo → ns_nodeId n = "root"%string ∨ ns_kind n = tool_activity) →
  validateWorkflowSpecV1 (Spec_js_with s ((NodeSpec_js <$> ws_nodes s) ++ [v]))
    = Ok (spec_with_nodes s (ws_nodes s ++ [n])).
Proof.
  intros Hs Hn Hfresh Hjoin Hsolo. apply spec_valid_parts in Hs as Hp.
  eapply validateSpec_with; [exact Hs| | |set_solver|by apply graph_wf_snoc; [apply Hp|..]].
  - apply mapM_Ok, Forall2_app; [|by constructor]. apply mapM_Ok. by apply spec_nodes_mapM.
  - by destruct (NodeSpec_js <$> ws_nodes s).
Qed.

Lemma validateEdge_ids ids ids' v e e' :
  validateEdge ids v = Ok e → validateEdge ids' v = Ok e' → e' = e.
Proof.
  unfold validateEdge. destruct v; try done. cbn [record mbind res_bind]. intros He He'.
  inv_ok. congruence.
Qed.

(** The opposite reading: whatever relisting is accepted only changed the nodes. *)
Lemma validateSpec_with_inv v s js spec :
  validateWorkflowSpecV1 v = Ok s → js ≠ [] →
  validateWorkflowSpecV1 (Spec_js_with s js) = Ok spec →
  ∃ nodes', mapM validateNode js = Ok nodes' ∧ spec = spec_with_nodes s nodes'.
Proof.
  intros Hv Hne Hspec. apply validateSpec_parts in Hv as Hparts.
  unfold validateWorkflowSpecV1 in Hv. repeat open_step.
  match goal with H : opt_res validateSchedulingPolicy _ = Ok _ |- _ =>
    apply (opt_res_reparse _ SchedulingPolicy_js _ _ validateSchedulingPolicy_reparse ltac:(done)) in H
    as Hsched end.
  match goal with H : spec_header_rejected _ _ = false |- _ =>
    destruct (spec_header_reparse x _ js (ws_nodes s) s H Hne) as
      (o & target & Ho & Ht & _ & Ho1 & Ho2 & Ho3 & Ho4 & Ho5 & Hres); [done|by subst s|] end.
  assert (opt_res validateSchedulingPolicy (undef_prop SchedulingPolicy_js (ws_scheduling s)) =
    Ok (ws_scheduling s)) as Hsched' by (by subst s).
  clear - Hspec Hparts Ho Ht Ho1 Ho2 Ho3 Ho4 Hres Hsched'.
  rewrite Ho in Hspec. unfold validateWorkflowSpecV1 in Hspec. cbn [record mbind res_bind] in Hspec.
  rewrite Ht, Ho1, Ho2, Ho3, Ho4, Hsched', (sp_budget _ Hparts) in Hspec.
  cbn [js_arr mbind res_bind] in Hspec. inv_ok.
  match goal with H : mapM validateNode js = Ok ?l |- _ => exists l; split; [done|]; rename l into nodes' end.
  rewrite Hres. f_equal.
  match goal with H : mapM _ (Edge_js <$> _) = Ok ?l |- _ => rename H into Hes; rename l into es end.
  apply mapM_Ok in Hes. pose proof (sp_edges _ Hparts _ (λ k Hk, Hk)) as Hold. clear - Hes Hold.
  revert es Hes. induction Hold as [|e l He Hl IH]; intros es Hes; inversion Hes; subst; [done|].
  f_equal; [by eapply validateEdge_ids|by apply IH].
Qed.

Lemma validateNode_id v n : validateNode v = Ok n → JStr (ns_nodeId n) = node_field v "nodeId".
Proof.
  unfold validateNode. intros Hv. repeat open_step. split_bool. subst. cbn.
  by match goal with H : safeId _ = true |- _ => apply safeId_inv in H as (? & -> & _) end.
Qed.

Lemma get_replace (l1 l2 : jsobj) k k' a b :
  k' ≠ k → get (l1 ++ (k, a) :: l2) k' = get (l1 ++ (k, b) :: l2) k'.
Proof.
  intros Hne. induction l1 as [|[k0 v0] l1 IH]; cbn; [|by rewrite IH].
  destruct (String.eqb_spec k k'); [by subst|done].
Qed.

Lemma validateSpec_topology_get o o' s t :
  (∀ k, k ≠ "topology"%string → get o' k = get o k) →
  get o' "topology" = JStr (enum_name t) →
  validateWorkflowSpecV1 (JObj o) = Ok s → validateWorkflowSpecV1 (JObj o') = Ok (spec_with_topology s t).
Proof.
  intros Ho Ht. unfold validateWorkflowSpecV1, spec_header_rejected. cbn [record mbind res_bind].
  intros Hs. inv_ok. rewrite Ht, is_enum_name, enum_cast_name. rewrite !Ho by done. split_bool.
  repeat (match goal with H : ?b = _ |- context [?b] => rewrite H end; cbn -[opt_res mapM]).
  rewrite bool_decide_eq_false_2 by done. reflexivity.
Qed.

Definition obj_of (v : jsval) : jsobj := match v with JObj o => o | _ => [] end.

Lemma spec_valid_topology s t : spec_valid s → spec_valid (spec_with_topology s t).
Proof.
  unfold spec_valid. intros Hs.
  assert (∃ l1 l2, ∀ t,
    Spec_js (spec_with_topology s t) = JObj (l1 ++ ("topology"%string, JStr (enum_name t)) :: l2) ∧
    get (l1 ++ ("topology"%string, JStr (enum_name t)) :: l2) "topology" = JStr (enum_name t))
    as (l1 & l2 & Ho).
  { pose (at_index n := (take n (obj_of (Spec_js s)), drop (S n) (obj_of (Spec_js s)))).
    enough (∃ n, ∀ t, Spec_js (spec_with_topology s t) =
        JObj ((at_index n).1 ++ ("topology"%string, JStr (enum_name t)) :: (at_index n).2) ∧
      get ((at_index n).1 ++ ("topology"%string, JStr (enum_name t)) :: (at_index n).2) "topology"
        = JStr (enum_name t)) as [n Hn] by by eexists _, _.
    unfold at_index. destruct s as [? ? ? [[]|] [|] [|]];
      first [by exists 7%nat | by exists 8%nat | by exists 9%nat | by exists 10%nat | by exists 11%nat]. }
  destruct (Ho (ws_topology s)) as [Ho1 _], (Ho t) as [-> Ht].
  assert (spec_with_topology s (ws_topology s) = s) as Hsame by by destruct s.
  rewrite Hsame in Ho1. rewrite Ho1 in Hs.
  eapply validateSpec_topology_get; [|exact Ht|exact Hs].
  intros k Hk. by apply get_replace.
Qed.

(** ** Bounds of the parts *)

(** The ceiling of the cost is any number that [< 0] does not hold of, [NaN] and
    [Infinity] included. *)
Definition budget_wf (b : WorkflowBudgetV1) : Prop :=
  Forall (λ z, 0 < z ≤ MAX_SAFE_INTEGER)
    [wb_maxWallClockMs b; wb_maxTokens b; wb_maxToolCalls b; wb_maxAgentTasks b; wb_maxParallelTasks b] ∧
  ∀ cost, wb_maxCostUsd b = Some cost → num_neg cost = false.

Definition retry_wf (r : WorkflowRetryPolicyV1) : Prop :=
  0 < rp_maxAttempts r ∧ 0 ≤ rp_initialBackoffMs r ≤ rp_maxBackoffMs r.
Definition timeout_wf (t : WorkflowTimeoutPolicyV1) : Prop :=
  0 < to_heartbeatMs t < to_noProgressMs t ∧ to_noProgressMs t ≤ to_totalMs t.
Definition effect_wf (e : EffectContractV1) : Prop :=
  ec_class e = external_idempotent → safeId (ec_idempotencyKey e) = true.

Record node_wf (n : WorkflowNodeSpecV1) : Prop := {
  nw_id : SAFE_ID (ns_nodeId n) = true;
  nw_retry : retry_wf (ns_retry n);
  nw_timeout : timeout_wf (ns_timeout n);
  nw_effect : effect_wf (ns_effect n);
  nw_iterations : ∀ z, ns_maxIterations n = Some z → 0 < z ≤ MAX_SAFE_INTEGER;
}.

Lemma validateBudget_wf v b : validateBudget v = Ok b → budget_wf b.
Proof.
  unfold validateBudget. intros Hb. apply bind_Ok in Hb as (o & Ho & Hb). apply bind_Ok in Hb as ([] & Hlimits & Hb).
  apply bind_Ok in Hb as (cost & Hcost & [= <-]). apply fail_if_Ok, existsb_false in Hlimits.
  unfold budget_wf. cbn [wb_maxWallClockMs wb_maxTokens wb_maxToolCalls wb_maxAgentTasks wb_maxParallelTasks wb_maxCostUsd]. split.
  - revert Hlimits. rewrite !Forall_cons. setoid_rewrite negb_false_iff. intros Hl. destruct_and?.
    split_and!; try constructor; match goal with |- 0 < js_int ?v ∧ _ => idtac | |- _ => idtac end;
    repeat match goal with Hx : positiveInteger _ = true |- _ => apply positiveInteger_inv in Hx as (? & -> & ?) end; cbn; lia.
  - intros c ->. destruct (o .: "maxCostUsd"); inv_ok; by subst.
Qed.

Lemma validateRetry_wf v r : validateRetry v = Ok r → retry_wf r.
Proof. unfold validateRetry. open_validator. unfold retry_wf. cbn. lia. Qed.

Lemma validateTimeout_wf v t : validateTimeout v = Ok t → timeout_wf t.
Proof. unfold validateTimeout. open_validator. unfold timeout_wf. cbn. lia. Qed.

Lemma validateEffect_wf v e : validateEffect v = Ok e → effect_wf e.
Proof.
  unfold validateEffect, effect_wf. intros Hv. repeat open_step. subst. split_bool. cbn.
  match goal with H : is_enum _ = true |- _ => apply is_enum_inv in H as [c Hc] end.
  rewrite Hc, enum_cast_name in *. intros ->. cbn in *.
  match goal with H : _ && _ = false |- _ => apply andb_false_iff in H as [H|H] end; [done|by split_bool].
Qed.

Lemma validateNode_wf v n : validateNode v = Ok n → node_wf n.
Proof.
  unfold validateNode. intros Hv. repeat open_step. subst. split_bool. split; cbn.
  - match goal with H : safeId _ = true |- _ => by apply safeId_inv in H as (? & -> & ?) end.
  - by eapply validateRetry_wf.
  - by eapply validateTimeout_wf.
  - by eapply validateEffect_wf.
  - intros z. match goal with Hx : negb (is_undef ?w) && _ = false |- _ => destruct w as [| | |n| | | |]; try discriminate Hx end; [done|].
    match goal with Hx : _ && negb (positiveInteger _) = false |- _ =>
      apply negb_false_iff, positiveInteger_inv in Hx as (? & [= ->] & ?) end. by intros [= <-].
Qed.

(** ** Properties *)

(** C30 An accepted specification is well formed: node ids are distinct, edges
    join distinct existing nodes and have no cycle, joins sit on decision or
    synthesis nodes and ask for no more branches than there are, solo runs hold
    only the root and tool activities, every node has ordered positive time limits,
    ordered retry bounds, a positive safe integer as its limit of iterations where it
    has one, and an idempotency key where its effect needs one; the five limits of the
    budget that are counts or milliseconds (wall clock, tokens, tool calls, tasks,
    parallel tasks) are positive safe integers, and the ceiling of the cost, where
    there is one, is a number that is not below zero ([NaN] and [Infinity] pass the
    check of the code); the revision is positive and the number of graph mutations is
    not negative. *)
Theorem validateWorkflowSpecV1_sound v s :
  validateWorkflowSpecV1 v = Ok s →
  graph_wf (ws_modePolicy s) (ws_nodes s) (ws_edges s) ∧ ws_nodes s ≠ [] ∧
  Forall node_wf (ws_nodes s) ∧ budget_wf (ws_budget s) ∧
  0 < ws_revision s ∧ 0 ≤ ws_maxGraphMutations s.
Proof.
  intros Hs%validateSpec_parts. split_and!; try apply Hs.
  - eapply Forall_impl; [apply Hs|]. intros n Hn. exact (validateNode_wf _ _ Hn).
  - by eapply validateBudget_wf, Hs.
Qed.

(** C34 The queue of the cycle check always empties, and it accepts exactly the
    acyclic graphs: with distinct node ids and edges between them the check
    returns, or throws WORKFLOW_GRAPH_CYCLE, according to whether some node
    reaches itself. *)
Theorem assertAcyclic_decides nodes edges :
  NoDup (ns_nodeId <$> nodes) →
  (∀ e, e ∈ edges → we_from e ∈ ns_nodeId <$> nodes ∧ we_to e ∈ ns_nodeId <$> nodes) →
  (assertAcyclic nodes edges = Ok () ↔ ∀ k, ¬ tc (edge (edge_pairs edges)) k k) ∧
  (assertAcyclic nodes edges = Err "WORKFLOW_GRAPH_CYCLE" ↔
   ¬ ∀ k, ¬ tc (edge (edge_pairs edges)) k k).
Proof.
  intros Hnd He. destruct (assertAcyclic_spec nodes edges Hnd He) as [[-> Ha]|[-> Ha]].
  - split; [done|]. by split.
  - split; [|done]. split; [done|]. intros Hno. by destruct Ha.
Qed.

(** C40 The cyclic graph and the other malformed ones are what is refused: an
    accepted specification with its nodes relisted (none removed) is accepted
    exactly when the new graph is well formed. *)
Theorem validateWorkflowSpecV1_relist_iff v s js nodes' :
  validateWorkflowSpecV1 v = Ok s → mapM validateNode js = Ok nodes' → js ≠ [] →
  (∀ k, k ∈ ns_nodeId <$> ws_nodes s → k ∈ ns_nodeId <$> nodes') →
  validateWorkflowSpecV1 (Spec_js_with s js) = Ok (spec_with_nodes s nodes')
  ↔ graph_wf (ws_modePolicy s) nodes' (ws_edges s).
Proof.
  intros Hv Hjs Hne Hids. split; [|by apply (validateSpec_with v)].
  intros Hs. apply validateSpec_parts, sp_graph in Hs. done.
Qed.

(** Round trip: the object of an accepted specification is accepted again,
    as the same specification. *)
Theorem validateWorkflowSpecV1_roundtrip v s :
  validateWorkflowSpecV1 v = Ok s → validateWorkflowSpecV1 (Spec_js s) = Ok s.
Proof. apply validateSpec_valid. Qed.
End Stable.

(** ** Evaluation at the sample specification *)

Lemma is_ok_inv {A} (r : res A) : is_ok r = true → ∃ a, r = Ok a.
Proof. destruct r; [by eexists|done]. Qed.

Lemma validateWorkflowSpecV1_sound_witness : ∃ s, validateWorkflowSpecV1 sample_spec_js = Ok s ∧
  graph_wf (ws_modePolicy s) (ws_nodes s) (ws_edges s).
Proof.
  destruct (is_ok_inv (validateWorkflowSpecV1 sample_spec_js)) as [s Hs]; [vm_compute; reflexivity|].
  exists s. split; [exact Hs|exact (proj1 (validateWorkflowSpecV1_sound _ s Hs))].
Defined.

Lemma validateWorkflowSpecV1_roundtrip_witness : ∃ s, validateWorkflowSpecV1 sample_spec_js = Ok s ∧
  validateWorkflowSpecV1 (Spec_js s) = Ok s.
Proof.
  destruct (is_ok_inv (validateWorkflowSpecV1 sample_spec_js)) as [s Hs]; [vm_compute; reflexivity|].
  exists s. split; [exact Hs|exact (validateWorkflowSpecV1_roundtrip _ s Hs)].
Defined.

(** The sample nodes with an isolated fourth one. *)
Definition sample_nodes_more : list jsval :=
  js_arr (get (obj_of sample_spec_js) "nodes") ++ [sample_node "d" "timer"].

Lemma validateWorkflowSpecV1_relist_iff_witness : ∃ s nodes',
  validateWorkflowSpecV1 sample_spec_js = Ok s ∧ mapM validateNode sample_nodes_more = Ok nodes' ∧
  (validateWorkflowSpecV1 (Spec_js_with s sample_nodes_more) = Ok (spec_with_nodes s nodes')
   ↔ graph_wf (ws_modePolicy s) nodes' (ws_edges s)).
Proof.
  assert (match validateWorkflowSpecV1 sample_spec_js, mapM validateNode sample_nodes_more with
    | Ok s, Ok nodes' => forallb (λ k, memb k (ns_nodeId <$> nodes')) (ns_nodeId <$> ws_nodes s)
    | _, _ => false
    end = true) as Hcheck by (vm_compute; reflexivity).
  destruct (validateWorkflowSpecV1 sample_spec_js) as [s|] eqn:Hs; [|discriminate Hcheck].
  destruct (mapM validateNode sample_nodes_more) as [nodes'|] eqn:Hn; [|discriminate Hcheck].
  exists s, nodes'. split_and!; [reflexivity|reflexivity|].
  apply (validateWorkflowSpecV1_relist_iff _ s _ nodes' Hs Hn); [discriminate|].
  apply forallb_true in Hcheck. rewrite Forall_forall in Hcheck.
  intros k Hk. apply memb_true, Hcheck, Hk.
Defined.

Lemma assertAcyclic_decides_witness : ∃ s, validateWorkflowSpecV1 sample_spec_js = Ok s ∧
  (assertAcyclic (ws_nodes s) (ws_edges s) = Ok () ↔
   ∀ k, ¬ tc (edge (edge_pairs (ws_edges s))) k k).
Proof.
  destruct (is_ok_inv (validateWorkflowSpecV1 sample_spec_js)) as [s Hs]; [vm_compute; reflexivity|].
  pose proof (sp_graph _ (validateSpec_parts _ _ Hs)) as Hg.
  exists s. split; [exact Hs|]. apply (assertAcyclic_decides (ws_nodes s) (ws_edges s)).
  - apply Hg.
  - intros e He. destruct (gw_ends _ _ _ Hg e He) as (? & ? & _). split; assumption.
Defined.
