(* ===== verification/WorkflowInv.v ===== *)
(** * Invariants of the Workflow reducer

    The reducer of packages/core-sdk/src/workflow.ts as a step relation, the
    invariant of its projections and what a replay of a history establishes. *)

From S2P Require Import Prelude Js Graph Workflow WorkflowReducer WorkflowSpec WorkflowStable Samples.
Local Open Scope Z_scope.

(** ** The effect of one event, as a relation *)

Definition replace_node (data : NodeStateChanged) (node : WorkflowNodeProjectionV1) :
    WorkflowNodeProjectionV1 :=
  if decide (np_nodeId node = nsc_nodeId data) then
    {| np_nodeId := np_nodeId node; np_state := nsc_state data;
       np_attemptIds := np_attemptIds node; np_errorCode := nsc_errorCode data;
       np_resultRef := nsc_resultRef data |}
  else node.

Definition replace_attempt (data : AttemptStateChanged) (attempt : WorkflowAttemptProjectionV1) :
    WorkflowAttemptProjectionV1 :=
  if decide (ap_attemptId attempt = asc_attemptId data) then
    {| ap_attemptId := ap_attemptId attempt; ap_nodeId := ap_nodeId attempt;
       ap_ordinal := ap_ordinal attempt; ap_state := asc_state data;
       ap_leaseToken := or_else (asc_leaseToken data) (ap_leaseToken attempt);
       ap_workerId := or_else (asc_workerId data) (ap_workerId attempt);
       ap_startedAt := if bool_decide (asc_state data = A_running) then Some (asc_at data)
                       else ap_startedAt attempt;
       ap_lastProgressAt := Some (asc_at data);
       ap_finishedAt := if bool_decide (asc_state data ∈ TERMINAL_ATTEMPTS)
                        then Some (asc_at data) else ap_finishedAt attempt;
       ap_errorCode := asc_errorCode data; ap_resultRef := asc_resultRef data;
       ap_receiptRef := asc_receiptRef data |}
  else attempt.

Definition append_attempt (attempt : WorkflowAttemptProjectionV1) (node : WorkflowNodeProjectionV1) :
    WorkflowNodeProjectionV1 :=
  if decide (np_nodeId node = ap_nodeId attempt) then
    {| np_nodeId := np_nodeId node; np_state := np_state node;
       np_attemptIds := np_attemptIds node ++ [ap_attemptId attempt];
       np_errorCode := np_errorCode node; np_resultRef := np_resultRef node |}
  else node.

Definition scheduled_node (attempt : WorkflowAttemptProjectionV1) : WorkflowNodeProjectionV1 :=
  {| np_nodeId := ap_nodeId attempt; np_state := N_scheduled;
     np_attemptIds := [ap_attemptId attempt]; np_errorCode := None; np_resultRef := JUndef |}.

(** The node projections of a patched graph: kept by id, else proposed. *)
Definition patched_nodes (nodes : list WorkflowNodeProjectionV1) (spec : WorkflowSpecV1) :=
  (λ n, default (proposed_node (ns_nodeId n))
          (mget (ns_nodeId n) ((λ node, (np_nodeId node, node)) <$> nodes))) <$> ws_nodes spec.

Abbreviation attempt_ids p := (ap_attemptId <$> wp_attempts p).
Abbreviation node_ids p := (np_nodeId <$> wp_nodes p).

Section Step.
Context `{JsEngine}.

(** [wf_step p next q]: from [p], of which [next] is the copy with the new
    sequence number and instant, an accepted event leads to [q]. *)
Inductive wf_step (p next : WorkflowProjectionV1) : WorkflowProjectionV1 → Prop :=
| step_state to code :
    to ∈ WORKFLOW_TRANSITIONS (wp_state p) → wf_step p next (with_state next to code)
| step_recorded : wf_step p next next
| step_topology topology :
    wf_step p next (with_graph next (wp_revision p) (spec_with_topology (wp_spec p) topology)
      (wp_graphMutations p) (wp_nodes p) (wp_attempts p))
| step_charged charge : wf_step p next (with_usage next (add_usage (wp_usage p) charge))
| step_patched v spec :
    validateWorkflowSpecV1 v = Ok spec → ws_revision spec = wp_revision p + 1 →
    wp_graphMutations p < ws_maxGraphMutations (wp_spec p) →
    NoDup (node_ids p) →
    wf_step p next (with_graph next (ws_revision spec) spec (wp_graphMutations p + 1)
      (patched_nodes (wp_nodes p) spec) (wp_attempts p))
| step_admitted v spec attempt :
    ap_nodeId attempt ∉ node_ids p → ap_attemptId attempt ∉ attempt_ids p → ap_ordinal attempt = 1 →
    node_field v "nodeId" = JStr (ap_nodeId attempt) →
    validateWorkflowSpecV1 (Spec_js_with (wp_spec p) ((NodeSpec_js <$> ws_nodes (wp_spec p)) ++ [v]))
      = Ok spec →
    wf_step p next (with_graph next (wp_revision p) spec (wp_graphMutations p)
      (wp_nodes p ++ [scheduled_node attempt]) (wp_attempts p ++ [attempt]))
| step_node data :
    nsc_nodeId data ∈ node_ids p →
    (∀ n, n ∈ wp_nodes p → np_nodeId n = nsc_nodeId data →
      nsc_state data ∈ NODE_TRANSITIONS (np_state n)) →
    wf_step p next (with_graph next (wp_revision p) (wp_spec p) (wp_graphMutations p)
      (replace_node data <$> wp_nodes p) (wp_attempts p))
| step_created attempt node :
    ap_attemptId attempt ∉ attempt_ids p → node ∈ wp_nodes p → np_nodeId node = ap_nodeId attempt →
    ap_ordinal attempt = Z.of_nat (length (np_attemptIds node)) + 1 →
    wf_step p next (with_graph next (wp_revision p) (wp_spec p) (wp_graphMutations p)
      (append_attempt attempt <$> wp_nodes p) (wp_attempts p ++ [attempt]))
| step_attempt data :
    asc_attemptId data ∈ attempt_ids p →
    (∀ a, a ∈ wp_attempts p → ap_attemptId a = asc_attemptId data →
      asc_state data ∈ ATTEMPT_TRANSITIONS (ap_state a)) →
    wf_step p next (with_graph next (wp_revision p) (wp_spec p) (wp_graphMutations p)
      (wp_nodes p) (replace_attempt data <$> wp_attempts p)).

Lemma updateNode_Ok nodes data nodes' :
  updateNode nodes data = Ok nodes' →
  nsc_nodeId data ∈ np_nodeId <$> nodes ∧
  (∀ n, n ∈ nodes → np_nodeId n = nsc_nodeId data → nsc_state data ∈ NODE_TRANSITIONS (np_state n)) ∧
  nodes' = replace_node data <$> nodes.
Proof.
  unfold updateNode. intros Hu. inv_ok. split_bool.
  match goal with H : existsb _ _ = true |- _ => apply existsb_true in H as (m & Hm & Hid) end.
  split_bool. apply mapM_Ok in H0. split.
  - rewrite <-Hid. by apply list_elem_of_fmap_2.
  - clear m Hm Hid. induction H0 as [|n n' l l' Hn _ [IH1 IH2]]; [split; [set_solver|done]|].
    unfold replace_node. cbn. fold (replace_node data). subst l'.
    unfold assertWorkflowNodeTransitionV1 in Hn.
    case_decide; inv_ok; split_bool.
    + rewrite decide_False by done. split; [|done].
      intros m [->|?]%elem_of_cons Hid; [done|by apply IH1].
    + rewrite decide_True by done. split; [|done].
      intros m [->|?]%elem_of_cons Hid; [done|by apply IH1].
Qed.

Lemma updateAttempt_Ok attempts data attempts' :
  updateAttempt attempts data = Ok attempts' →
  asc_attemptId data ∈ ap_attemptId <$> attempts ∧
  (∀ a, a ∈ attempts → ap_attemptId a = asc_attemptId data →
    asc_state data ∈ ATTEMPT_TRANSITIONS (ap_state a)) ∧
  attempts' = replace_attempt data <$> attempts.
Proof.
  unfold updateAttempt. intros Hu. inv_ok. split_bool.
  match goal with H : existsb _ _ = true |- _ => apply existsb_true in H as (m & Hm & Hid) end.
  split_bool. apply mapM_Ok in H0. split.
  - rewrite <-Hid. by apply list_elem_of_fmap_2.
  - clear m Hm Hid. induction H0 as [|n n' l l' Hn _ [IH1 IH2]]; [split; [set_solver|done]|].
    unfold replace_attempt. cbn. fold (replace_attempt data). subst l'.
    case_decide; inv_ok; split_bool.
    + rewrite decide_False by done. split; [|done].
      intros m [->|?]%elem_of_cons Hid; [done|by apply IH1].
    + rewrite decide_True by done. split; [|done].
      intros m [->|?]%elem_of_cons Hid; [done|by apply IH1].
Qed.

Lemma existsb_id_false {A} (f : A → string) (l : list A) k :
  existsb (λ a, bool_decide (f a = k)) l = false → k ∉ f <$> l.
Proof.
  rewrite existsb_false, Forall_forall. intros Hl (a & -> & Ha)%list_elem_of_fmap.
  specialize (Hl a Ha). by rewrite bool_decide_eq_false in Hl.
Qed.

Lemma change_state_step p next to code q :
  change_state p next to code = Ok q → wf_step p next q.
Proof.
  unfold change_state, assertWorkflowStateTransitionV1. intros Hq. inv_ok. split_bool.
  by constructor.
Qed.

Lemma graph_patched_step p next v q :
  NoDup (node_ids p) → wp_attempts next = wp_attempts p →
  apply_graph_patched p next v = Ok q → wf_step p next q.
Proof.
  unfold apply_graph_patched. intros Hnd Hnext Hq. inv_ok. split_bool.
  rewrite Hnext, mof_NoDup by by rewrite <-list_fmap_compose.
  apply (step_patched _ _ v); [done|lia|lia|done].
Qed.

Lemma task_admitted_step p next r d v attempt q :
  wp_revision next = wp_revision p → wp_graphMutations next = wp_graphMutations p →
  apply_task_admitted p next r d v attempt = Ok q → wf_step p next q.
Proof.
  unfold apply_task_admitted. intros Hrev Hmut Hq. inv_ok. split_bool.
  rewrite Hrev, Hmut.
  match goal with H : is_str _ _ = true |- _ => apply is_str_inv in H as Hid end.
  rewrite Hid in *. apply (step_admitted _ _ v); try done; [| |lia].
  - match goal with H : existsb (λ n, is_str _ _) _ = false |- _ =>
      rewrite existsb_false, Forall_forall in H; rename H into Hl end.
    intros (n & Heq & Hn)%list_elem_of_fmap. specialize (Hl n Hn). cbn in Hl. split_bool. done.
  - by apply existsb_id_false.
Qed.

Lemma attempt_created_step p next attempt q :
  wp_revision next = wp_revision p → wp_graphMutations next = wp_graphMutations p →
  wp_spec next = wp_spec p →
  apply_attempt_created p next attempt = Ok q → wf_step p next q.
Proof.
  unfold apply_attempt_created. intros Hrev Hmut Hspec Hq. inv_ok.
  destruct (findb _ _) as [node|] eqn:Hf; [|done]. inv_ok. split_bool.
  apply findb_Some in Hf as [Hin Hid]. split_bool.
  rewrite Hrev, Hmut, Hspec.
  match goal with |- wf_step _ _ (with_graph _ _ _ _ (?f <$> _) _) =>
    assert (f = append_attempt attempt) as -> by (unfold append_attempt; by rewrite Hid) end.
  apply (step_created _ _ _ node); [by apply existsb_id_false|done|done|lia].
Qed.

(** Every accepted event is a step. *)
Lemma apply_step p e q :
  NoDup (node_ids p) → applyWorkflowEventV1 p e = Ok q →
  event_rejected p e = false ∧
  wf_step p (with_sequence p (ev_sequence e) (ev_occurredAt e)) q.
Proof.
  intros Hnd. unfold applyWorkflowEventV1. intros Hq.
  apply bind_Ok in Hq as ([] & Hrej & Hq). apply fail_if_Ok in Hrej. split; [done|].
  destruct (ev_data e); try (by eapply change_state_step); try (inv_ok; by constructor).
  - by eapply graph_patched_step.
  - by eapply task_admitted_step.
  - inv_ok. apply updateNode_Ok in H0 as (? & ? & ->). by constructor.
  - by eapply attempt_created_step.
  - inv_ok. apply updateAttempt_Ok in H0 as (? & ? & ->). by constructor.
Qed.

(** ** The invariant *)

(** Every attempt id listed at position [k] of a node is the id of an attempt of
    that node with ordinal [k + 1]. *)
Definition ordinals_ok (p : WorkflowProjectionV1) : Prop :=
  ∀ n k a, n ∈ wp_nodes p → np_attemptIds n !! k = Some a →
    ∃ att, att ∈ wp_attempts p ∧ ap_attemptId att = a ∧ ap_nodeId att = np_nodeId n ∧
      ap_ordinal att = Z.of_nat k + 1.

Record projection_wf (p : WorkflowProjectionV1) : Prop := {
  pw_spec : spec_valid (wp_spec p);
  pw_nodes : node_ids p = ns_nodeId <$> ws_nodes (wp_spec p);
  pw_revision : wp_revision p = ws_revision (wp_spec p);
  pw_attempts : NoDup (attempt_ids p);
  pw_ordinals : ordinals_ok p;
}.

Lemma pw_unique p : projection_wf p → NoDup (node_ids p).
Proof.
  intros Hp. rewrite (pw_nodes _ Hp).
  exact (gw_unique _ _ _ (sp_graph _ (spec_valid_parts _ (pw_spec _ Hp)))).
Qed.

Lemma replace_node_ids data (nodes : list WorkflowNodeProjectionV1) : np_nodeId <$> (replace_node data <$> nodes) = np_nodeId <$> nodes.
Proof.
  rewrite <-list_fmap_compose. apply list_fmap_ext. intros _ n _. cbn.
  unfold replace_node. by case_decide.
Qed.
Lemma append_attempt_ids a (nodes : list WorkflowNodeProjectionV1) : np_nodeId <$> (append_attempt a <$> nodes) = np_nodeId <$> nodes.
Proof.
  rewrite <-list_fmap_compose. apply list_fmap_ext. intros _ n _. cbn.
  unfold append_attempt. by case_decide.
Qed.
Lemma replace_attempt_ids data (atts : list WorkflowAttemptProjectionV1) :
  ap_attemptId <$> (replace_attempt data <$> atts) = ap_attemptId <$> atts.
Proof.
  rewrite <-list_fmap_compose. apply list_fmap_ext. intros _ n _. cbn.
  unfold replace_attempt. by case_decide.
Qed.

Lemma patched_node_cases nodes spec n :
  n ∈ patched_nodes nodes spec → n ∈ nodes ∨ ∃ k, n = proposed_node k.
Proof.
  intros (m & -> & _)%list_elem_of_fmap.
  destruct (mget _ _) as [n|] eqn:Hget; [left|right; by eexists].
  apply mget_elem_inv, list_elem_of_fmap in Hget as (n' & [= _ ->] & ?). done.
Qed.

Lemma patched_nodes_ids nodes spec :
  np_nodeId <$> patched_nodes nodes spec = ns_nodeId <$> ws_nodes spec.
Proof.
  unfold patched_nodes. rewrite <-list_fmap_compose. apply list_fmap_ext. intros _ n _. cbn.
  destruct (mget _ _) as [m|] eqn:Hget; [|done].
  by apply mget_elem_inv, list_elem_of_fmap in Hget as (n' & [= -> ->] & ?).
Qed.

Lemma append_attempt_cases attempt n m :
  m = append_attempt attempt n → np_nodeId m = np_nodeId n ∧
  (m = n ∨ np_nodeId n = ap_nodeId attempt ∧ np_attemptIds m = np_attemptIds n ++ [ap_attemptId attempt]).
Proof. intros ->. unfold append_attempt. case_decide; naive_solver. Qed.

Lemma ordinals_ok_created p attempt node q :
  ordinals_ok p → NoDup (node_ids p) → node ∈ wp_nodes p → np_nodeId node = ap_nodeId attempt →
  ap_ordinal attempt = Z.of_nat (length (np_attemptIds node)) + 1 →
  wp_nodes q = append_attempt attempt <$> wp_nodes p → wp_attempts q = wp_attempts p ++ [attempt] →
  ordinals_ok q.
Proof.
  intros Hp Hnd Hnode Hid Hord Hqn Hqa n k a. rewrite Hqn, Hqa.
  intros (m & Hm & Hin)%list_elem_of_fmap Hk.
  apply append_attempt_cases in Hm as [Hmid [->|[Hmn Hl]]].
  - destruct (Hp m k a Hin Hk) as (att & ? & ? & ? & ?). exists att. set_solver.
  - rewrite Hl in Hk. apply lookup_snoc_Some in Hk as [[_ Hk]|[-> Ha]].
    + destruct (Hp m k a Hin Hk) as (att & ? & ? & ? & ?). exists att.
      rewrite Hmid. set_solver.
    + assert (m = node) as ->.
      { apply list_elem_of_lookup in Hin as [i Hi], Hnode as [j Hj].
        assert (i = j) as ->; [|congruence].
        eapply NoDup_lookup; [exact Hnd|rewrite list_lookup_fmap, Hi; cbn; reflexivity|].
        rewrite list_lookup_fmap, Hj. cbn. congruence. }
      exists attempt. rewrite Hmid, Hord. split_and!; [set_solver|done|congruence|done].
Qed.

Lemma ordinals_ok_attempts p data :
  ordinals_ok p → ∀ n k a, n ∈ wp_nodes p → np_attemptIds n !! k = Some a →
    ∃ att, att ∈ replace_attempt data <$> wp_attempts p ∧ ap_attemptId att = a ∧
      ap_nodeId att = np_nodeId n ∧ ap_ordinal att = Z.of_nat k + 1.
Proof.
  intros Hp n k a Hn Hk. destruct (Hp n k a Hn Hk) as (att & Hin & <- & Hid & Hord).
  exists (replace_attempt data att). split; [by apply list_elem_of_fmap_2|].
  unfold replace_attempt. by case_decide.
Qed.

Lemma wf_step_wf p s t q :
  projection_wf p → wf_step p (with_sequence p s t) q → projection_wf q.
Proof.
  intros Hp Hstep. pose proof (pw_unique p Hp) as Hnd.
  destruct Hp as [Hs Hn Hr Ha Ho].
  destruct Hstep as [| | | |v spec Hv Hrev Hmut _|v spec attempt Hfn Hfa Hord Hid Hspec
    |data Hin Htr|attempt node Hfa Hin Hid Hord|data Hin Htr];
    split; cbn; try done.
  - by apply spec_valid_topology.
  - by eapply validateSpec_valid.
  - apply patched_nodes_ids.
  - intros n k a [?|[m ->]]%patched_node_cases Hk; [by eapply Ho|done].
  - by eapply validateSpec_valid.
  - apply (validateSpec_with_inv _ _ _ _ Hs) in Hspec as (nodes' & Hm & ->);
      [|by destruct (NodeSpec_js <$> _)].
    cbn. apply mapM_Ok, Forall2_app_inv_l in Hm as (l1 & l2 & H1%mapM_Ok & H2 & ->).
    rewrite spec_nodes_mapM in H1 by by apply spec_valid_parts. simplify_eq.
    apply Forall2_cons_inv_l in H2 as (n & l & Hv & ->%Forall2_nil_inv_l & ->).
    apply validateNode_id in Hv. rewrite Hid in Hv. rewrite !fmap_app, Hn. cbn. congruence.
  - apply (validateSpec_with_inv _ _ _ _ Hs) in Hspec as (nodes' & Hm & ->);
      [done|by destruct (NodeSpec_js <$> _)].
  - rewrite fmap_app. apply NoDup_app. split_and!; [done|set_solver|apply NoDup_singleton].
  - intros n k a [Hn'| ->%list_elem_of_singleton]%elem_of_app; cbn.
    + intros Hk. destruct (Ho n k a Hn' Hk) as (att & ? & ?). exists att. set_solver.
    + intros [-> <-]%list_lookup_singleton_Some. exists attempt. set_solver.
  - by rewrite replace_node_ids.
  - intros n k a (m & -> & Hm)%list_elem_of_fmap Hk.
    destruct (Ho m k a Hm) as (att & ?); [|exists att]; unfold replace_node in *; by case_decide.
  - by rewrite append_attempt_ids.
  - rewrite fmap_app. apply NoDup_app. split_and!; [done|set_solver|apply NoDup_singleton].
  - by eapply ordinals_ok_created.
  - by rewrite replace_attempt_ids.
  - exact (ordinals_ok_attempts p data Ho).
Qed.

Lemma initial_wf v p : initialWorkflowProjectionV1 v = Ok p → projection_wf p.
Proof.
  unfold initialWorkflowProjectionV1. intros Hp. inv_ok. split; cbn; try done.
  - by eapply validateSpec_valid.
  - by rewrite <-list_fmap_compose.
  - constructor.
  - intros n k a (m & -> & _)%list_elem_of_fmap. done.
Qed.

Lemma apply_wf p e q : projection_wf p → applyWorkflowEventV1 p e = Ok q → projection_wf q.
Proof.
  intros Hp Hq. apply apply_step in Hq as [_ Hq]; [|by apply pw_unique]. by eapply wf_step_wf.
Qed.

(** ** Histories *)

Lemma apply_events_app p es es' :
  apply_events p (es ++ es') = q ← apply_events p es; apply_events q es'.
Proof.
  revert p; induction es as [|e es IH]; intros p; cbn; [done|].
  destruct (applyWorkflowEventV1 p e); cbn; [apply IH|done].
Qed.

(** Rule induction over an accepted history, from a well-formed projection. *)
Lemma apply_events_ind (P : WorkflowProjectionV1 → list WorkflowEventV1 → Prop) p :
  projection_wf p → P p [] →
  (∀ q es e q', projection_wf q → P q es → apply_events p es = Ok q →
    event_rejected q e = false →
    wf_step q (with_sequence q (ev_sequence e) (ev_occurredAt e)) q' →
    applyWorkflowEventV1 q e = Ok q' → P q' (es ++ [e])) →
  ∀ es q, apply_events p es = Ok q → projection_wf q ∧ P q es.
Proof.
  intros Hp H0 Hstep es. induction es as [|e es IH] using rev_ind; intros q Hq.
  { cbn in Hq. by simplify_eq. }
  rewrite apply_events_app in Hq. apply bind_Ok in Hq as (q0 & Hq0 & Hq). cbn in Hq.
  apply bind_Ok in Hq as (q1 & Hq1 & [= <-]).
  destruct (IH q0 Hq0) as [Hwf HP]. split; [by eapply apply_wf|].
  apply apply_step in Hq1 as Hs; [|by apply pw_unique]. destruct Hs as [Hrej Hs].
  by eapply Hstep.
Qed.

Lemma reduce_Ok es p :
  reduceWorkflowEventsV1 es = Ok p ↔
  ∃ e es' v p0, es = e :: es' ∧ ev_data e = workflow_created v ∧
    initialWorkflowProjectionV1 v = Ok p0 ∧ apply_events p0 es = Ok p.
Proof.
  split.
  - intros Hes. destruct es as [|[? ? ? ? ? ? ? []] es']; try done.
    cbn -[apply_events] in Hes. apply bind_Ok in Hes as (p0 & H0 & Hes). by eexists _, _, _, _.
  - intros (e & es' & v & p0 & -> & Hd & H0 & Hes). destruct e; cbn in Hd; subst.
    cbn -[apply_events]. by rewrite H0.
Qed.

Lemma step_identity p next q :
  wf_step p next q → wp_workflowId q = wp_workflowId next ∧ wp_runId q = wp_runId next ∧
    wp_sequence q = wp_sequence next.
Proof. by destruct 1. Qed.

Lemma event_accepted p e :
  event_rejected p e = false → ev_sequence e = wp_sequence p + 1 ∧
    ev_workflowId e = wp_workflowId p ∧ ev_runId e = wp_runId p.
Proof.
  unfold event_rejected. intros He. split_bool. split_and!; [lia|by apply dec_stable..].
Qed.

(** The events of a history continue a projection. *)
Definition continues (p0 p : WorkflowProjectionV1) (es : list WorkflowEventV1) : Prop :=
  wp_sequence p = wp_sequence p0 + Z.of_nat (length es) ∧
  wp_workflowId p = wp_workflowId p0 ∧ wp_runId p = wp_runId p0 ∧
  ∀ i e, es !! i = Some e → ev_sequence e = wp_sequence p0 + Z.of_nat i + 1 ∧
    ev_workflowId e = wp_workflowId p0 ∧ ev_runId e = wp_runId p0.

Lemma apply_events_continues p0 es p :
  projection_wf p0 → apply_events p0 es = Ok p → projection_wf p ∧ continues p0 p es.
Proof.
  intros Hp. apply (apply_events_ind (λ p es, continues p0 p es)); [done|..].
  - split_and!; cbn; [lia|done|done|]. intros i e. by rewrite lookup_nil.
  - intros q es' e q' _ (Hs & Hw & Hr & Hes) _ Hrej Hstep _.
    apply step_identity in Hstep as (Hw' & Hr' & Hs'). apply event_accepted in Hrej as (Hes1 & Hes2 & Hes3).
    cbn in *. split_and!; [rewrite length_app; cbn; lia|congruence|congruence|].
    intros i e' [[_ ?]|[-> <-]]%lookup_snoc_Some; [by apply Hes|].
    split_and!; [lia|congruence|congruence].
Qed.

(** Where the parts of a projection come from after one event. *)
Definition node_origin (p : WorkflowProjectionV1) (m : WorkflowNodeProjectionV1) : Prop :=
  (∃ n, n ∈ wp_nodes p ∧ np_nodeId n = np_nodeId m ∧ np_attemptIds n `prefix_of` np_attemptIds m ∧
    (np_state m = np_state n ∨ np_state m ∈ NODE_TRANSITIONS (np_state n))) ∨
  np_nodeId m ∉ node_ids p ∧ np_state m ∈ [N_proposed; N_scheduled].

Definition attempt_origin (p : WorkflowProjectionV1) (b : WorkflowAttemptProjectionV1) : Prop :=
  b ∈ wp_attempts p ∨ ap_attemptId b ∉ attempt_ids p ∨
  ∃ a, a ∈ wp_attempts p ∧ ap_attemptId a = ap_attemptId b ∧ ap_nodeId a = ap_nodeId b ∧
    ap_ordinal a = ap_ordinal b ∧ ap_state b ∈ ATTEMPT_TRANSITIONS (ap_state a).

Lemma node_origin_same p m : m ∈ wp_nodes p → node_origin p m.
Proof. intros Hm. left. exists m. by split_and!; [| | |left]. Qed.

Lemma patched_node_origin p spec m : m ∈ patched_nodes (wp_nodes p) spec → node_origin p m.
Proof.
  intros (n & -> & _)%list_elem_of_fmap. destruct (mget _ _) as [m|] eqn:Hget; cbn.
  - apply mget_elem_inv, list_elem_of_fmap in Hget as (n' & [= _ ->] & ?). by apply node_origin_same.
  - right. split; [|set_solver]. apply mget_None in Hget. by rewrite <-list_fmap_compose in Hget.
Qed.

Lemma wf_step_node_origin p s t q m :
  wf_step p (with_sequence p s t) q → m ∈ wp_nodes q → node_origin p m.
Proof.
  destruct 1 as [| | | | |v spec attempt Hfn|data _ Htr|attempt node _ Hin Hid _|];
    cbn; try by apply node_origin_same.
  - apply patched_node_origin.
  - intros [?| ->%list_elem_of_singleton]%elem_of_app; [by apply node_origin_same|].
    right. cbn. set_solver.
  - intros (n & -> & Hn)%list_elem_of_fmap. unfold replace_node. case_decide; [|by apply node_origin_same].
    left. exists n. cbn. split_and!; [done..|]. right. by apply Htr.
  - intros (n & -> & Hn)%list_elem_of_fmap. unfold append_attempt. case_decide; [|by apply node_origin_same].
    left. exists n. cbn. split_and!; [done|done|by apply prefix_app_r|by left].
Qed.

Lemma wf_step_attempt_origin p s t q b :
  wf_step p (with_sequence p s t) q → b ∈ wp_attempts q → attempt_origin p b.
Proof.
  destruct 1 as [| | | | |v spec attempt _ Hfa| |attempt node Hfa| data Hin Htr]; cbn; try by left.
  - intros [?| ->%list_elem_of_singleton]%elem_of_app; [by left|]. by right; left.
  - intros [?| ->%list_elem_of_singleton]%elem_of_app; [by left|]. by right; left.
  - intros (a & -> & Ha)%list_elem_of_fmap. unfold replace_attempt. case_decide; [|by left].
    right; right. exists a. cbn. split_and!; [done..|]. by apply Htr.
Qed.

Lemma wf_step_state p s t q :
  wf_step p (with_sequence p s t) q →
  wp_state q = wp_state p ∨ wp_state q ∈ WORKFLOW_TRANSITIONS (wp_state p).
Proof. destruct 1; cbn; auto. Qed.

(** Nothing removes an attempt, and a terminal attempt never changes. *)
Lemma wf_step_keeps_attempt p s t q a :
  wf_step p (with_sequence p s t) q → a ∈ wp_attempts p → ATTEMPT_TRANSITIONS (ap_state a) = [] →
  a ∈ wp_attempts q.
Proof.
  destruct 1 as [| | | | | | | |data Hin Htr]; cbn; intros Ha Hterm; try done; try set_solver.
  apply list_elem_of_fmap. exists a. split; [|done]. unfold replace_attempt. case_decide as Hid; [|done].
  specialize (Htr a Ha Hid). rewrite Hterm in Htr. by apply not_elem_of_nil in Htr.
Qed.

(** The usage an event charges and the graph mutations it makes. *)
Definition charge_of (e : WorkflowEventV1) : option WorkflowUsageV1 :=
  match ev_data e with budget_charged charge => Some charge | _ => None end.
Definition is_patch (e : WorkflowEventV1) : bool :=
  match ev_data e with graph_patched _ => true | _ => false end.

Lemma apply_accounting p e q :
  applyWorkflowEventV1 p e = Ok q →
  wp_usage q = from_option (add_usage (wp_usage p)) (wp_usage p) (charge_of e) ∧
  wp_graphMutations q = wp_graphMutations p + (if is_patch e then 1 else 0) ∧
  wp_revision q = wp_revision p + (if is_patch e then 1 else 0) ∧
  (is_patch e = true → wp_graphMutations p < ws_maxGraphMutations (wp_spec p)).
Proof.
  unfold applyWorkflowEventV1, charge_of, is_patch, change_state, apply_graph_patched,
    apply_task_admitted, apply_attempt_created.
  intros Hq. destruct (ev_data e); inv_ok; cbn; try (split_and!; [done|lia|lia|done]).
  - split_bool. split_and!; [done|lia|lia|lia].
  - destruct (findb _ _); [|done]. inv_ok. cbn. split_and!; [done|lia|lia|done].
Qed.

Lemma apply_events_accounting p0 es p :
  apply_events p0 es = Ok p →
  wp_usage p = foldl add_usage (wp_usage p0) (omap charge_of es) ∧
  wp_graphMutations p = wp_graphMutations p0 + Z.of_nat (length (List.filter is_patch es)) ∧
  wp_revision p = wp_revision p0 + Z.of_nat (length (List.filter is_patch es)).
Proof.
  revert p0; induction es as [|e es IH]; intros p0; cbn.
  { intros [= ->]. split_and!; [done|lia|lia]. }
  intros (q & Hq & Hes)%bind_Ok. apply apply_accounting in Hq as (Hu & Hm & Hr & _).
  apply IH in Hes as (-> & -> & ->). rewrite Hu, Hm, Hr.
  destruct (charge_of e); cbn; (split_and!; [done|destruct (is_patch e); cbn; lia..]).
Qed.

Lemma reduce_wf events p : reduceWorkflowEventsV1 events = Ok p → projection_wf p.
Proof.
  intros (e & es & v & p0 & _ & _ & H0 & Hp)%reduce_Ok.
  by apply apply_events_continues in Hp as [? _]; [|eapply initial_wf].
Qed.

(** ** Properties *)

(** C35 Every projection that a replay of a history returns is well formed: its
    specification is one the validator accepts (and returns) as it is, its node
    projections are those of the specification in order, its revision is the
    specification's, attempt ids are unique, and the attempts listed by a node
    are attempts of that node numbered 1, 2, ... without gaps. *)
Theorem reduce_invariant events p :
  reduceWorkflowEventsV1 events = Ok p → projection_wf p.
Proof. apply reduce_wf. Qed.

(** A replayed history is complete and in order: its events carry the
    sequence numbers 1 .. n of one workflow and run, and the projection stands
    at sequence n. *)
Theorem reduce_sequence events p :
  reduceWorkflowEventsV1 events = Ok p →
  wp_sequence p = Z.of_nat (length events) ∧
  ∀ i e, events !! i = Some e → ev_sequence e = Z.of_nat i + 1 ∧
    ev_workflowId e = wp_workflowId p ∧ ev_runId e = wp_runId p.
Proof.
  intros (e & es & v & p0 & _ & _ & H0 & Hp)%reduce_Ok.
  apply apply_events_continues in Hp as [_ (Hs & Hw & Hr & Hes)]; [|by eapply initial_wf].
  assert (wp_sequence p0 = 0) as Hz.
  { unfold initialWorkflowProjectionV1 in H0. inv_ok. done. }
  split; [lia|]. intros i e' He. apply Hes in He as (? & ? & ?). split_and!; [lia|congruence..].
Qed.

(** Incremental application is replay: applying the next event to the
    projection of a history gives, result or error, what replaying the longer
    history gives. *)
Theorem reduce_snoc events e :
  events ≠ [] →
  reduceWorkflowEventsV1 (events ++ [e]) = p ← reduceWorkflowEventsV1 events; applyWorkflowEventV1 p e.
Proof.
  destruct events as [|[? ? ? ? ? ? ? []] es]; try done. intros _.
  cbn -[apply_events]. destruct (initialWorkflowProjectionV1 spec) as [p0|]; [|done].
  cbn [mbind res_bind]. rewrite (app_comm_cons es [e]), apply_events_app.
  destruct (apply_events _ _) as [p|]; [|done]. cbn. by destruct (applyWorkflowEventV1 p e).
Qed.

(** What one accepted event may do to a well-formed projection: the workflow
    state stays or moves along the transition table; every node afterwards is a
    node from before, in the same state or moved along the node table and with
    its attempts extended, or is new and proposed or scheduled; every attempt
    is unchanged, new, or moved along the attempt table with its node and
    ordinal kept. *)
Theorem apply_legal p e q :
  projection_wf p → applyWorkflowEventV1 p e = Ok q →
  (wp_state q = wp_state p ∨ wp_state q ∈ WORKFLOW_TRANSITIONS (wp_state p)) ∧
  Forall (node_origin p) (wp_nodes q) ∧ Forall (attempt_origin p) (wp_attempts q).
Proof.
  intros Hp Hq. apply apply_step in Hq as [_ Hq]; [|by apply pw_unique].
  rewrite !Forall_forall. split_and!.
  - by eapply wf_step_state.
  - intros m. by eapply wf_step_node_origin.
  - intros b. by eapply wf_step_attempt_origin.
Qed.

(** C36 Terminal is final: once a workflow is cancelled, completed, failed or
    terminated no further accepted events change its state, and an attempt that
    has succeeded, failed, been cancelled or handed to a human stays in every
    later projection exactly as it was. *)
Theorem terminal_is_final p es q :
  projection_wf p → apply_events p es = Ok q →
  (WORKFLOW_TRANSITIONS (wp_state p) = [] → wp_state q = wp_state p) ∧
  ∀ a, a ∈ wp_attempts p → ap_state a ∈ TERMINAL_ATTEMPTS → a ∈ wp_attempts q.
Proof.
  intros Hp Hq. split.
  - intros Ht. revert Hq. apply (apply_events_ind (λ q _, wp_state q = wp_state p)); [done|done|].
    intros q' _ e q'' _ IH _ _ Hs _. apply wf_step_state in Hs as [->|Hs]; [done|].
    rewrite IH, Ht in Hs. by apply not_elem_of_nil in Hs.
  - intros a Ha Hterm. revert Hq. apply (apply_events_ind (λ q _, a ∈ wp_attempts q)); [done|done|].
    intros q' _ e q'' _ IH _ _ Hs _. eapply wf_step_keeps_attempt; [done..|].
    clear -Hterm. unfold TERMINAL_ATTEMPTS in Hterm. destruct (ap_state a); try done; set_solver.
Qed.

(** Accounting: the usage of a replayed projection is the sum of the charges
    of its history in order, and its revision and mutation count grew by one for
    each graph patch. *)
Theorem reduce_accounting events v p0 p :
  initialWorkflowProjectionV1 v = Ok p0 → apply_events p0 events = Ok p →
  wp_usage p = foldl add_usage (wp_usage p0) (omap charge_of events) ∧
  wp_graphMutations p = Z.of_nat (length (List.filter is_patch events)) ∧
  wp_revision p = wp_revision p0 + wp_graphMutations p.
Proof.
  intros H0 Hp. apply apply_events_accounting in Hp as (-> & -> & ->).
  unfold initialWorkflowProjectionV1 in H0. inv_ok. cbn. split_and!; [done|lia|lia].
Qed.

(** A task request for a fresh node id is always admitted into a valid
    workflow: when the event header fits, the request and digest are well
    formed, the node validates, has no join and its id and the attempt's id are
    unused, and the workflow is not solo, the reducer accepts it and appends
    the node (scheduled) and its first attempt. *)
Theorem task_admission_succeeds p e r d v n attempt :
  projection_wf p → event_rejected p e = false →
  ev_data e = execution_task_admitted r d v attempt →
  SAFE_ID r = true → SHA256 d = true → validateNode v = Ok n → ns_join n = None →
  ns_nodeId n ∉ node_ids p → ap_attemptId attempt ∉ attempt_ids p →
  ap_nodeId attempt = ns_nodeId n → ap_ordinal attempt = 1 →
  ws_modePolicy (wp_spec p) ≠ mode_solo →
  applyWorkflowEventV1 p e =
    Ok (with_graph (with_sequence p (ev_sequence e) (ev_occurredAt e)) (wp_revision p)
      (spec_with_nodes (wp_spec p) (ws_nodes (wp_spec p) ++ [n])) (wp_graphMutations p)
      (wp_nodes p ++ [scheduled_node attempt]) (wp_attempts p ++ [attempt])).
Proof.
  intros Hp Hrej Hd Hr Hdig Hv Hj Hfn Hfa Hid Hord Hsolo.
  unfold applyWorkflowEventV1. rewrite Hrej, Hd. cbn [fail_if mbind res_bind].
  unfold apply_task_admitted. rewrite <-(validateNode_id _ _ Hv), Hr, Hdig, Hid.
  rewrite (validateSpec_snoc _ _ n); [|by apply pw_spec|done| |done|done].
  2: { by rewrite <-(pw_nodes _ Hp). }
  rewrite (proj2 (existsb_false _ _)).
  2: { apply Forall_forall. intros m Hm. cbn. rewrite bool_decide_eq_false. intros Heq.
       apply Hfn. rewrite Heq. by apply list_elem_of_fmap_2. }
  rewrite (proj2 (existsb_false _ _)).
  2: { apply Forall_forall. intros m Hm. cbn. rewrite bool_decide_eq_false. intros Heq.
       apply Hfa. rewrite <-Heq. by apply list_elem_of_fmap_2. }
  cbn [is_str js_str]. rewrite bool_decide_eq_true_2 by done. rewrite Hord. cbn.
  unfold scheduled_node. by rewrite Hid.
Qed.
End Step.

(** ** Evaluation at the sample run *)

(** The projection after the first [n] events of the sample run, if accepted. *)
Abbreviation sample_after n := (reduceWorkflowEventsV1 (take n sample_history)).

(** The sample run is accepted to its end. *)
Lemma sample_accepted n m :
  is_ok (p ← sample_after n; apply_events p m) = true →
  ∃ p q, sample_after n = Ok p ∧ apply_events p m = Ok q.
Proof.
  destruct (sample_after n) as [p|]; cbn; [|done]. destruct (apply_events p m) as [q|] eqn:E; [|done].
  intros _. by eexists _, _.
Qed.

Lemma reduce_invariant_witness : ∃ p, sample_after 15 = Ok p ∧ projection_wf p.
Proof.
  destruct (sample_accepted 15 []) as (p & _ & Hp & _); [vm_compute; reflexivity|].
  exists p. split; [exact Hp|exact (reduce_invariant _ p Hp)].
Defined.

Lemma reduce_sequence_witness : ∃ p, sample_after 15 = Ok p ∧ wp_sequence p = 15.
Proof.
  destruct (sample_accepted 15 []) as (p & _ & Hp & _); [vm_compute; reflexivity|].
  exists p. split; [exact Hp|exact (proj1 (reduce_sequence _ p Hp))].
Defined.

Lemma reduce_snoc_witness :
  reduceWorkflowEventsV1 (take 4 sample_history ++ [sample_event 5 (node_to "b" N_admitted)]) =
  p ← sample_after 4; applyWorkflowEventV1 p (sample_event 5 (node_to "b" N_admitted)).
Proof. apply (reduce_snoc (take 4 sample_history)). discriminate. Defined.

Lemma apply_legal_witness : ∃ p q, sample_after 10 = Ok p ∧
  applyWorkflowEventV1 p (sample_event 11 (node_to "a" N_succeeded)) = Ok q ∧
  Forall (node_origin p) (wp_nodes q).
Proof.
  destruct (sample_accepted 10 [sample_event 11 (node_to "a" N_succeeded)]) as (p & q & Hp & Hq);
    [vm_compute; reflexivity|].
  apply bind_Ok in Hq as (q' & Hq & _). exists p, q'. split_and!; [exact Hp|exact Hq|].
  exact (proj1 (proj2 (apply_legal p _ q' (reduce_wf _ _ Hp) Hq))).
Defined.

Lemma terminal_is_final_witness : ∃ p q, sample_after 9 = Ok p ∧
  apply_events p (drop 9 sample_history) = Ok q ∧
  ∀ a, a ∈ wp_attempts p → ap_state a ∈ TERMINAL_ATTEMPTS → a ∈ wp_attempts q.
Proof.
  destruct (sample_accepted 9 (drop 9 sample_history)) as (p & q & Hp & Hq); [vm_compute; reflexivity|].
  exists p, q. split_and!; [exact Hp|exact Hq|].
  exact (proj2 (terminal_is_final p _ q (reduce_wf _ _ Hp) Hq)).
Defined.

Lemma reduce_accounting_witness : ∃ p0 p, initialWorkflowProjectionV1 sample_spec_js = Ok p0 ∧
  apply_events p0 sample_history = Ok p ∧ wp_revision p = wp_revision p0 + wp_graphMutations p.
Proof.
  destruct (sample_accepted 15 []) as (p & _ & Hp & _); [vm_compute; reflexivity|].
  apply reduce_Ok in Hp as (e & es & v & p0 & He & Hv & H0 & Hp). injection He as <- <-.
  injection Hv as <-. exists p0, p. split_and!; [exact H0|exact Hp|].
  exact (proj2 (proj2 (reduce_accounting _ _ _ _ H0 Hp))).
Defined.

Lemma task_admission_succeeds_witness : ∃ p, sample_after 12 = Ok p ∧
  is_ok (applyWorkflowEventV1 p (sample_event 13 (execution_task_admitted "q1" sample_digest
    (sample_node "d" "agent_task") (sample_attempt "d1" "d" 1)))) = true.
Proof.
  set (e := sample_event _ _).
  assert (match sample_after 12, validateNode (sample_node "d" "agent_task") with
    | Ok p, Ok n =>
        negb (event_rejected p e) && match ns_join n with None => true | _ => false end
        && negb (memb (ns_nodeId n) (node_ids p)) && negb (memb "d1" (attempt_ids p))
        && bool_decide ("d"%string = ns_nodeId n)
        && negb (bool_decide (ws_modePolicy (wp_spec p) = mode_solo))
    | _, _ => false
    end = true) as Hcheck by (vm_compute; reflexivity).
  destruct (sample_after 12) as [p|] eqn:Hp; [|discriminate Hcheck].
  destruct (validateNode _) as [n|] eqn:Hn; [|discriminate Hcheck].
  destruct (ns_join n) eqn:Hj; [split_bool; discriminate|]. split_bool.
  exists p. split; [reflexivity|].
  rewrite (task_admission_succeeds p e "q1" sample_digest (sample_node "d" "agent_task") n
    (sample_attempt "d1" "d" 1)); try assumption; try reflexivity.
  - exact (reduce_wf _ _ Hp).
  - by apply memb_false.
  - by apply memb_false.
Defined.
