(* ===== verification/WorkflowReady.v ===== *)
(** * Readiness of Workflow nodes

    [workflowNodeReadinessV1] and [readyWorkflowNodeIdsV1] of
    packages/core-sdk/src/workflow.ts: the single pass over the incoming edges
    computes the counts of the declarative reading, the four outcomes under each
    join policy, and progress of the evaluation on acyclic graphs. *)

From S2P Require Import Prelude Js Graph Workflow WorkflowReducer Samples WorkflowSpec WorkflowStable WorkflowInv.
Local Open Scope Z_scope.

Section Ready.
Context `{JsEngine}.
Implicit Types (p : WorkflowProjectionV1) (e : WorkflowEdgeV1).

(** ** The declarative reading of an edge *)

Definition source_of p e : option WorkflowNodeProjectionV1 :=
  mget (we_from e) (mof ((λ node, (np_nodeId node, node)) <$> wp_nodes p)).

(** The source has not finished. *)
Definition edge_pending p e : bool :=
  match source_of p e with
  | Some n => negb (bool_decide (np_state n ∈ terminal_node_states))
  | None => false
  end.
(** The source has finished and the edge is taken. *)
Definition edge_taken p e : bool :=
  match source_of p e with
  | Some n => bool_decide (np_state n ∈ terminal_node_states)
      && match we_condition e with
         | None => bool_decide (np_state n ≠ N_skipped)
         | Some condition => edgeMatches n condition
         end
  | None => false
  end.
Definition edge_succeeded p e : bool :=
  edge_taken p e && match source_of p e with
                    | Some n => bool_decide (np_state n = N_succeeded) | None => false end.
Definition edge_active p e : bool := edge_pending p e || edge_taken p e.

Definition count (b : WorkflowEdgeV1 → bool) (l : list WorkflowEdgeV1) : Z :=
  Z.of_nat (length (List.filter b l)).

Lemma count_cons b e l : count b (e :: l) = (if b e then 1 else 0) + count b l.
Proof. unfold count. cbn. destruct (b e); cbn; lia. Qed.
Lemma count_nonneg b l : 0 ≤ count b l.
Proof. unfold count. lia. Qed.
Lemma count_le b b' l : (∀ e, b e = true → b' e = true) → count b l ≤ count b' l.
Proof.
  intros Hb. induction l as [|e l IH]; [done|]. rewrite !count_cons.
  specialize (Hb e). destruct (b e); [rewrite Hb by done|destruct (b' e)]; lia.
Qed.
Lemma count_zero b l : count b l = 0 ↔ ∀ e, e ∈ l → b e = false.
Proof.
  induction l as [|e l IH]; [split; [set_solver|done]|]. rewrite count_cons.
  pose proof (count_nonneg b l). destruct (b e) eqn:He.
  - split; [lia|]. intros Hl. rewrite Hl in He; [done|by left].
  - rewrite Z.add_0_l, IH. setoid_rewrite elem_of_cons. naive_solver.
Qed.
Lemma count_pos b l : 0 < count b l ↔ ∃ e, e ∈ l ∧ b e = true.
Proof.
  induction l as [|e l IH]; [split; [done|set_solver]|]. rewrite count_cons.
  pose proof (count_nonneg b l). destruct (b e) eqn:He.
  - split; [|lia]. intros _. exists e. split; [by left|done].
  - rewrite Z.add_0_l, IH. split; intros (x & Hx & Hbx).
    + exists x. split; [by right|done].
    + apply elem_of_cons in Hx as [->|Hx]; [congruence|by exists x].
Qed.

(** The loop computes the three counts, unless a source is missing. *)
Lemma count_edges_spec p l c :
  (∀ e, e ∈ l → is_Some (source_of p e)) →
  count_edges (mof ((λ node, (np_nodeId node, node)) <$> wp_nodes p)) l c =
    Some {| active := active c + count (edge_active p) l;
            succeeded := succeeded c + count (edge_succeeded p) l;
            pending := pending c + count (edge_pending p) l |}.
Proof.
  revert c. induction l as [|e l IH]; intros c Hl; cbn [count_edges].
  { unfold count. cbn [List.filter length Z.of_nat]. rewrite !Z.add_0_r. by destruct c. }
  assert (is_Some (source_of p e)) as [n Hn] by (apply Hl; by left).
  assert (∀ e, e ∈ l → is_Some (source_of p e)) as Hl' by (intros; apply Hl; by right).
  rewrite !count_cons. change (mget (we_from e) _) with (source_of p e).
  assert (edge_pending p e = negb (bool_decide (np_state n ∈ terminal_node_states))) as Hpend
    by (unfold edge_pending; by rewrite Hn).
  assert (edge_taken p e = bool_decide (np_state n ∈ terminal_node_states)
      && match we_condition e with
         | None => bool_decide (np_state n ≠ N_skipped)
         | Some condition => edgeMatches n condition end) as Htaken
    by (unfold edge_taken; by rewrite Hn).
  assert (edge_succeeded p e = edge_taken p e && bool_decide (np_state n = N_succeeded)) as Hsucc
    by (unfold edge_succeeded; by rewrite Hn).
  unfold edge_active at 1. rewrite Hn, Hsucc, Htaken, Hpend.
  generalize (bool_decide (np_state n ∈ terminal_node_states)) as term.
  generalize (bool_decide (np_state n = N_succeeded)) as ok.
  generalize (match we_condition e with
    | None => bool_decide (np_state n ≠ N_skipped)
    | Some condition => edgeMatches n condition end) as sel.
  intros [] [] []; cbn [negb andb orb]; rewrite IH by done; cbn [active succeeded pending];
    do 2 f_equal; lia.
Qed.

Lemma wf_sources p e :
  projection_wf p → e ∈ ws_edges (wp_spec p) → is_Some (source_of p e).
Proof.
  intros Hp He. pose proof (sp_graph _ (spec_valid_parts _ (pw_spec _ Hp))) as Hg.
  destruct (gw_ends _ _ _ Hg e He) as (Hfrom & _ & _). unfold source_of.
  destruct (mget _ _) eqn:Hget; [by eexists|].
  rewrite mof_NoDup in Hget by (rewrite <-list_fmap_compose; by apply pw_unique).
  apply mget_None in Hget. destruct Hget. rewrite <-list_fmap_compose.
  by change (we_from e ∈ node_ids p); rewrite (pw_nodes _ Hp).
Qed.

Lemma source_of_Some p e n :
  source_of p e = Some n → NoDup (node_ids p) → n ∈ wp_nodes p ∧ np_nodeId n = we_from e.
Proof.
  unfold source_of. intros Hn Hnd.
  rewrite mof_NoDup in Hn by by rewrite <-list_fmap_compose.
  by apply mget_elem_inv, list_elem_of_fmap in Hn as (m & [= -> ->] & ?).
Qed.

Definition incoming_of p k := incoming (ws_edges (wp_spec p)) k.
Definition join_of p k : option WorkflowJoinPolicyV1 :=
  findb (λ n, bool_decide (ns_nodeId n = k)) (ws_nodes (wp_spec p)) ≫= ns_join.

(** The readiness of a node with incoming edges, by the counts. *)
Lemma readiness_counts p k :
  projection_wf p → incoming_of p k ≠ [] →
  let a := count (edge_active p) (incoming_of p k) in
  let s := count (edge_succeeded p) (incoming_of p k) in
  let w := count (edge_pending p) (incoming_of p k) in
  workflowNodeReadinessV1 p k =
    if a =? 0 then match join_of p k with None | Some JoinAll => r_skipped | _ => r_blocked end
    else let minimum := match join_of p k with
           | Some JoinAny => 1 | Some (JoinQuorum m) => m | _ => a end in
      if minimum <=? s then r_ready else if s + w <? minimum then r_blocked else r_waiting.
Proof.
  intros Hp Hne a s w. unfold workflowNodeReadinessV1.
  destruct (incoming _ k) as [|e0 l0] eqn:Hin; [done|]. rewrite <-Hin.
  rewrite count_edges_spec; [done|].
  intros e He. apply wf_sources; [done|]. by apply list_elem_of_filter in He as [_ ?].
Qed.

Lemma active_split p l :
  count (edge_active p) l = count (edge_pending p) l + count (edge_taken p) l.
Proof.
  induction l as [|e l IH]; [done|]. rewrite !count_cons, IH. unfold edge_active.
  assert (edge_pending p e && edge_taken p e = false) as Hdisj.
  { unfold edge_pending, edge_taken. destruct (source_of p e); [|done].
    by destruct (bool_decide (np_state _ ∈ terminal_node_states)). }
  destruct (edge_pending p e), (edge_taken p e); cbn in *; try done; lia.
Qed.

Lemma taken_split p l :
  count (edge_taken p) l = count (edge_succeeded p) l
    + count (λ e, edge_taken p e && negb (edge_succeeded p e)) l.
Proof.
  induction l as [|e l IH]; [done|]. rewrite !count_cons, IH.
  unfold edge_succeeded. destruct (edge_taken p e); cbn; [|lia].
  destruct (source_of p e) as [n|]; cbn; [destruct (bool_decide _); cbn|]; lia.
Qed.

Lemma validateNode_join n : validateNode (NodeSpec_js n) = Ok n →
  opt_res validateJoin (undef_prop Join_js (ns_join n)) = Ok (ns_join n).
Proof.
  unfold validateNode, NodeSpec_js. cbn [record mbind res_bind]. intros Hv.
  repeat (apply bind_Ok in Hv as (? & ? & Hv)). injection Hv as Hv.
  match goal with H : opt_res validateJoin _ = Ok ?j |- _ =>
    assert (ns_join n = j) as -> by (by rewrite <-Hv); rewrite <-H end.
  f_equal. destruct n, ns_required; cbn in *; congruence.
Qed.

Lemma node_join_positive p n m :
  projection_wf p → n ∈ ws_nodes (wp_spec p) → ns_join n = Some (JoinQuorum m) → 0 < m.
Proof.
  intros Hp Hn Hj. pose proof (sp_nodes _ (spec_valid_parts _ (pw_spec _ Hp))) as Hv.
  rewrite Forall_forall in Hv. specialize (Hv n Hn). apply validateNode_join in Hv.
  rewrite Hj in Hv. cbn in Hv. unfold validateJoin in Hv. cbn in Hv.
  destruct (positiveInteger (JInt m)) eqn:Hm; [|done]. by apply positiveInteger_int in Hm as [? _].
Qed.

(** The number of successes a joining node asks for. *)
Definition quorum_of (join : option WorkflowJoinPolicyV1) : option Z :=
  match join with Some JoinAny => Some 1 | Some (JoinQuorum m) => Some m | _ => None end.

Lemma quorum_positive p k m : projection_wf p → quorum_of (join_of p k) = Some m → 0 < m.
Proof.
  intros Hp. unfold join_of. destruct (findb _ _) as [n|] eqn:Hf; [|done]. cbn.
  apply findb_Some in Hf as [Hn _]. destruct (ns_join n) as [[]|] eqn:Hj; cbn; intros [= <-]; [lia|].
  by eapply node_join_positive.
Qed.

(** ** Finding a node to act on *)

Definition startable (n : WorkflowNodeProjectionV1) : bool :=
  bool_decide (np_state n ∈ [N_proposed; N_admitted; N_retry_wait]).
Definition settled (n : WorkflowNodeProjectionV1) : bool :=
  bool_decide (np_state n ∈ terminal_node_states).

(** Without pending sources the evaluation is decided. *)
Lemma not_waiting p k :
  projection_wf p → count (edge_pending p) (incoming_of p k) = 0 →
  workflowNodeReadinessV1 p k ≠ r_waiting.
Proof.
  intros Hp Hw. destruct (decide (incoming_of p k = [])) as [Hnil|Hne].
  { unfold workflowNodeReadinessV1. unfold incoming_of in Hnil. by rewrite Hnil. }
  rewrite readiness_counts by done. cbv zeta. rewrite Hw.
  destruct (_ =? 0); [by repeat case_match|].
  destruct (Z.leb_spec (match join_of p k with
    | Some JoinAny => 1 | Some (JoinQuorum m) => m
    | _ => count (edge_active p) (incoming_of p k) end)
    (count (edge_succeeded p) (incoming_of p k))) as [?|Hlt]; [done|].
  rewrite Z.add_0_r. by apply Z.ltb_lt in Hlt as ->.
Qed.

Lemma ready_ids_elem p k :
  k ∈ readyWorkflowNodeIdsV1 p ↔ wp_state p = W_running ∧ k ∈ ns_nodeId <$> ws_nodes (wp_spec p) ∧
    workflowNodeReadinessV1 p k = r_ready ∧
    ∃ n, findb (λ n, bool_decide (np_nodeId n = k)) (wp_nodes p) = Some n ∧ startable n = true.
Proof.
  unfold readyWorkflowNodeIdsV1, startable. case_bool_decide as Hrun; cbn [negb].
  2: { split; [by intros ?%elem_of_nil|]. by intros (? & _). }
  rewrite list_elem_of_fmap. setoid_rewrite list_elem_of_filter. split.
  - intros (m & -> & Hf & Hm). destruct (findb _ _) as [n|] eqn:Hn; [|done]. split_bool.
    split_and!; [done|by apply list_elem_of_fmap_2|done|]. exists n. split; [done|].
    by apply bool_decide_eq_true.
  - intros (_ & (m & -> & Hm)%list_elem_of_fmap & Hr & n & Hf & Hs).
    exists m. split_and!; [done| |done]. rewrite Hf, Hs. by rewrite bool_decide_eq_true_2.
Qed.

Lemma find_node p n :
  projection_wf p → n ∈ wp_nodes p →
  findb (λ m, bool_decide (np_nodeId m = np_nodeId n)) (wp_nodes p) = Some n.
Proof.
  intros Hp Hn. pose proof (pw_unique p Hp) as Hnd.
  destruct (findb _ _) as [m|] eqn:Hf.
  - apply findb_Some in Hf as [Hm Hid]. split_bool. f_equal.
    apply list_elem_of_lookup in Hm as [i Hi], Hn as [j Hj].
    assert (i = j) as ->; [|congruence].
    eapply NoDup_lookup; [exact Hnd|rewrite list_lookup_fmap, Hi; cbn; reflexivity|].
    rewrite list_lookup_fmap, Hj. cbn. congruence.
  - apply findb_None in Hf. rewrite Forall_forall in Hf. specialize (Hf n Hn). by split_bool.
Qed.

(** ** Properties *)

(** A node that joins all its branches: it is ready when some incoming edge
    is active and every active edge comes from a succeeded node, skipped when no
    incoming edge is active, and blocked when some taken edge comes from a node
    that finished without success. *)
Theorem readiness_join_all p k :
  projection_wf p → incoming_of p k ≠ [] → quorum_of (join_of p k) = None →
  let ins := incoming_of p k in
  (workflowNodeReadinessV1 p k = r_ready ↔
    (∃ e, e ∈ ins ∧ edge_active p e = true) ∧
    (∀ e, e ∈ ins → edge_active p e = true → edge_succeeded p e = true)) ∧
  (workflowNodeReadinessV1 p k = r_skipped ↔ ∀ e, e ∈ ins → edge_active p e = false) ∧
  (workflowNodeReadinessV1 p k = r_blocked ↔
    ∃ e, e ∈ ins ∧ edge_taken p e = true ∧ edge_succeeded p e = false).
Proof.
  intros Hp Hne Hq ins. rewrite readiness_counts by done. cbv zeta. fold ins.
  pose proof (active_split p ins) as Ha. pose proof (taken_split p ins) as Ht.
  set (lost := count (λ e, edge_taken p e && negb (edge_succeeded p e)) ins) in *.
  pose proof (count_nonneg (edge_pending p) ins). pose proof (count_nonneg (edge_succeeded p) ins).
  assert (0 ≤ lost) by apply count_nonneg.
  assert ((∃ e, e ∈ ins ∧ edge_active p e = true) ↔ 0 < count (edge_active p) ins) as ->
    by by rewrite count_pos.
  assert ((∀ e, e ∈ ins → edge_active p e = false) ↔ count (edge_active p) ins = 0) as ->
    by by rewrite count_zero.
  assert ((∃ e, e ∈ ins ∧ edge_taken p e = true ∧ edge_succeeded p e = false) ↔ 0 < lost) as ->.
  { unfold lost. rewrite count_pos. setoid_rewrite andb_true_iff. by setoid_rewrite negb_true_iff. }
  assert ((∀ e, e ∈ ins → edge_active p e = true → edge_succeeded p e = true) ↔
    count (edge_pending p) ins = 0 ∧ lost = 0) as ->.
  { unfold lost. rewrite !count_zero. split.
    - intros Hall. split; intros e He.
      + destruct (edge_pending p e) eqn:Hpe; [|done]. specialize (Hall e He).
        unfold edge_active in Hall. rewrite Hpe in Hall. specialize (Hall eq_refl).
        unfold edge_succeeded, edge_taken, edge_pending in *. destruct (source_of p e); [|done].
        by destruct (bool_decide (np_state w ∈ terminal_node_states)).
      + destruct (edge_taken p e) eqn:Hte; [|done]. cbn. rewrite (Hall e He); [done|].
        unfold edge_active. rewrite Hte. apply orb_true_r.
    - intros [Hp0 Hl0] e He Hact. specialize (Hp0 e He). specialize (Hl0 e He).
      unfold edge_active in Hact. rewrite Hp0 in Hact. cbn in Hact. rewrite Hact in Hl0. cbn in Hl0.
      by apply negb_false_iff in Hl0. }
  destruct (join_of p k) as [[]|]; try done;
    repeat match goal with |- context [?x =? ?y] => destruct (Z.eqb_spec x y)
      | |- context [?x <=? ?y] => destruct (Z.leb_spec x y)
      | |- context [?x <? ?y] => destruct (Z.ltb_spec x y) end;
    (split_and!; split; try done; try lia).
Qed.

(** A node that joins any branch or a quorum of [m] of them: it is ready as
    soon as [m] taken edges come from succeeded nodes, blocked exactly when the
    successes and the pending edges together cannot reach [m], waiting in
    between, and never skipped. *)
Theorem readiness_join_quorum p k m :
  projection_wf p → incoming_of p k ≠ [] → quorum_of (join_of p k) = Some m →
  let s := count (edge_succeeded p) (incoming_of p k) in
  let w := count (edge_pending p) (incoming_of p k) in
  (workflowNodeReadinessV1 p k = r_ready ↔ m ≤ s) ∧
  (workflowNodeReadinessV1 p k = r_blocked ↔ s + w < m) ∧
  (workflowNodeReadinessV1 p k = r_waiting ↔ s < m ≤ s + w) ∧
  workflowNodeReadinessV1 p k ≠ r_skipped.
Proof.
  intros Hp Hne Hq s w. pose proof (quorum_positive _ _ _ Hp Hq) as Hm.
  rewrite readiness_counts by done. cbv zeta. fold s w.
  pose proof (active_split p (incoming_of p k)) as Ha.
  pose proof (taken_split p (incoming_of p k)) as Ht.
  pose proof (count_nonneg (λ e, edge_taken p e && negb (edge_succeeded p e)) (incoming_of p k)).
  pose proof (count_nonneg (edge_pending p) (incoming_of p k)) as Hw.
  pose proof (count_nonneg (edge_succeeded p) (incoming_of p k)) as Hs.
  fold s in Ht, Hs. fold w in Ha, Hw.
  destruct (join_of p k) as [[| |m']|]; try done; injection Hq as <-;
    repeat match goal with |- context [?x =? ?y] => destruct (Z.eqb_spec x y)
      | |- context [?x <=? ?y] => destruct (Z.leb_spec x y)
      | |- context [?x <? ?y] => destruct (Z.ltb_spec x y) end;
    (split_and!; [split..|]; try done; try lia).
Qed.

(** The dispatch list: in a running workflow it holds exactly the nodes that
    are proposed, admitted or waiting for a retry and whose incoming edges make
    them ready, each once and in the order of the specification; in any other
    state it is empty. *)
Theorem readyWorkflowNodeIdsV1_spec p :
  projection_wf p →
  (∀ n, n ∈ wp_nodes p → (np_nodeId n ∈ readyWorkflowNodeIdsV1 p ↔
    wp_state p = W_running ∧ startable n = true ∧ workflowNodeReadinessV1 p (np_nodeId n) = r_ready)) ∧
  readyWorkflowNodeIdsV1 p `sublist_of` node_ids p.
Proof.
  intros Hp. split.
  - intros n Hn. rewrite ready_ids_elem, (find_node p n Hp Hn), <-(pw_nodes _ Hp).
    split; [|intros (? & ? & ?)].
    + intros (? & _ & ? & m & [= <-] & ?). done.
    + split_and!; [done|by apply list_elem_of_fmap_2|done|by exists n].
  - rewrite (pw_nodes _ Hp). unfold readyWorkflowNodeIdsV1.
    destruct (negb _); [apply sublist_nil_l|]. apply fmap_sublist, sublist_filter.
Qed.

(** The evaluation never deadlocks: when nothing is in flight (every node
    has finished or can still be started) and some node can be started, then
    some startable node is decided, that is ready, skipped or blocked, and not
    waiting. *)
Theorem readiness_progress p :
  projection_wf p → (∀ n, n ∈ wp_nodes p → settled n || startable n = true) →
  (∃ n, n ∈ wp_nodes p ∧ startable n = true) →
  ∃ n, n ∈ wp_nodes p ∧ startable n = true ∧
    workflowNodeReadinessV1 p (np_nodeId n) ≠ r_waiting.
Proof.
  intros Hp Hall (n0 & Hn0 & Hs0). pose proof (pw_unique p Hp) as Hnd.
  pose proof (sp_graph _ (spec_valid_parts _ (pw_spec _ Hp))) as Hg.
  destruct (acyclic_first (edge_pairs (ws_edges (wp_spec p)))
    (np_nodeId <$> filter (λ n, startable n = true) (wp_nodes p))) as (k & Hk & Hfirst).
  - apply Hg.
  - intros Hnil. assert (np_nodeId n0 ∈ np_nodeId <$> filter (λ n, startable n = true) (wp_nodes p)) as Hin
      by (apply list_elem_of_fmap_2, list_elem_of_filter; done).
    rewrite Hnil in Hin. by apply elem_of_nil in Hin.
  - apply list_elem_of_fmap in Hk as (n & -> & [Hs Hn]%list_elem_of_filter).
    exists n. split_and!; [done..|]. apply not_waiting; [done|]. apply count_zero.
    intros e [Hto He]%list_elem_of_filter. unfold edge_pending.
    destruct (source_of p e) as [src|] eqn:Hsrc; [|done].
    apply source_of_Some in Hsrc as [Hin Hid]; [|done].
    specialize (Hall src Hin). unfold settled in Hall.
    destruct (bool_decide (np_state src ∈ terminal_node_states)); [done|]. cbn in Hall.
    destruct (Hfirst (np_nodeId src)).
    + apply list_elem_of_fmap_2, list_elem_of_filter. done.
    + apply edge_pairs_elem. exists e. by split_and!.
Qed.
End Ready.

(** ** Evaluation at the sample run *)

Lemma sample_state (check : WorkflowProjectionV1 → bool) n :
  match sample_after n with Ok p => check p | Err _ => false end = true →
  ∃ p, sample_after n = Ok p ∧ projection_wf p ∧ check p = true.
Proof.
  destruct (sample_after n) as [p|] eqn:Hp; [|done]. exists p. split_and!; [done| |done].
  by eapply reduce_wf.
Qed.

Lemma readiness_join_all_witness : ∃ p, sample_after 11 = Ok p ∧
  (workflowNodeReadinessV1 p "b" = r_skipped ↔
    ∀ e, e ∈ incoming_of p "b" → edge_active p e = false).
Proof.
  destruct (sample_state (λ p, negb (bool_decide (length (incoming_of p "b") = 0%nat))
    && bool_decide (quorum_of (join_of p "b") = None)) 11) as (p & Hp & Hwf & Hc);
    [vm_compute; reflexivity|].
  apply andb_true_iff in Hc as [Hin%negb_true_iff%bool_decide_eq_false Hq%bool_decide_eq_true].
  exists p. split; [exact Hp|].
  assert (incoming_of p "b" ≠ []) as Hne by (intros Hnil; rewrite Hnil in Hin; contradiction).
  exact (proj1 (proj2 (readiness_join_all p "b" Hwf Hne Hq))).
Defined.

Lemma readiness_join_quorum_witness : ∃ p, sample_after 11 = Ok p ∧
  (workflowNodeReadinessV1 p "c" = r_ready ↔
    1 ≤ count (edge_succeeded p) (incoming_of p "c")).
Proof.
  destruct (sample_state (λ p, negb (bool_decide (length (incoming_of p "c") = 0%nat))
    && bool_decide (quorum_of (join_of p "c") = Some 1)) 11) as (p & Hp & Hwf & Hc);
    [vm_compute; reflexivity|].
  apply andb_true_iff in Hc as [Hin%negb_true_iff%bool_decide_eq_false Hq%bool_decide_eq_true].
  exists p. split; [exact Hp|].
  assert (incoming_of p "c" ≠ []) as Hne by (intros Hnil; rewrite Hnil in Hin; contradiction).
  exact (proj1 (readiness_join_quorum p "c" 1 Hwf Hne Hq)).
Defined.

Lemma readyWorkflowNodeIdsV1_spec_witness : ∃ p, sample_after 11 = Ok p ∧
  readyWorkflowNodeIdsV1 p `sublist_of` node_ids p.
Proof.
  destruct (sample_state (λ _, true) 11) as (p & Hp & Hwf & _); [vm_compute; reflexivity|].
  exists p. split; [exact Hp|exact (proj2 (readyWorkflowNodeIdsV1_spec p Hwf))].
Defined.

Lemma readiness_progress_witness : ∃ p, sample_after 11 = Ok p ∧
  ∃ n, n ∈ wp_nodes p ∧ startable n = true ∧ workflowNodeReadinessV1 p (np_nodeId n) ≠ r_waiting.
Proof.
  destruct (sample_state (λ p, forallb (λ n, settled n || startable n) (wp_nodes p)
    && existsb startable (wp_nodes p)) 11) as (p & Hp & Hwf & Hc); [vm_compute; reflexivity|].
  apply andb_true_iff in Hc as [Hall%forallb_true Hex%existsb_true]. rewrite Forall_forall in Hall.
  exists p. split; [exact Hp|exact (readiness_progress p Hwf Hall Hex)].
Defined.
