(* ===== verification/WorkflowExecution.v ===== *)
(** * Execution requests: packages/core-sdk/src/workflow-execution.ts

    The binding of an execution to an item of the review plan, the request and
    the task specification that the authority admits, and their digest. *)

From S2P Require Import Prelude Js JsOps CanonicalJson Workflow.
Local Open Scope Z_scope.

Inductive WorkflowTaskKindV1 := kind_agent | kind_tool | kind_verification | kind_compensation | kind_subworkflow.

#[export] Instance WorkflowTaskKindV1_dec : EqDecision WorkflowTaskKindV1.
Proof. solve_decision. Defined.

Definition task_kind_name (kind : WorkflowTaskKindV1) : string :=
  match kind with
  | kind_agent => "agent" | kind_tool => "tool" | kind_verification => "verification"
  | kind_compensation => "compensation" | kind_subworkflow => "subworkflow"
  end.

Record PlanExecutionBindingV1 := {
  eb_sessionId : string;
  eb_planId : string;
  eb_planRevision : Z;
  eb_itemId : string;
  eb_itemAttemptId : string;
  eb_requestId : string;
}.

Record ReviewPlanExecutionRequestV1 := {
  xr_binding : PlanExecutionBindingV1;
  xr_workflowId : string;
  xr_inputDigest : string;
}.

(** The node is the object that the caller gives; the reducer validates it. *)
Record WorkflowTaskSpecV1 := {
  xs_schemaVersion : Z;
  xs_node : jsval;
  xs_kind : WorkflowTaskKindV1;
  xs_profileRef : option VersionedWorkflowRefV1;
  xs_payload : jsval;
  xs_priority : Z;
  xs_readyAt : string;
  xs_deadlineAt : string;
  xs_conflictKeys : list string;
}.

Definition BINDING_KEYS : list string :=
  ["sessionId"; "planId"; "planRevision"; "itemId"; "itemAttemptId"; "requestId"]%string.

Definition binding_fields (b : PlanExecutionBindingV1) : jsobj :=
  [("sessionId"%string, JStr (eb_sessionId b)); ("planId"%string, JStr (eb_planId b));
   ("planRevision"%string, JInt (eb_planRevision b)); ("itemId"%string, JStr (eb_itemId b));
   ("itemAttemptId"%string, JStr (eb_itemAttemptId b)); ("requestId"%string, JStr (eb_requestId b))].
Definition Binding_js (b : PlanExecutionBindingV1) : jsval := JObj (binding_fields b).

Definition ExecutionRequest_js (r : ReviewPlanExecutionRequestV1) : jsval :=
  JObj (binding_fields (xr_binding r)
    ++ [("workflowId"%string, JStr (xr_workflowId r)); ("inputDigest"%string, JStr (xr_inputDigest r))]).

Definition TaskSpec_js (s : WorkflowTaskSpecV1) : jsval :=
  JObj ([("schemaVersion"%string, JInt (xs_schemaVersion s)); ("node"%string, xs_node s);
         ("kind"%string, JStr (task_kind_name (xs_kind s)))]
    ++ opt_prop "profileRef" VersionedRef_js (xs_profileRef s)
    ++ [("payload"%string, xs_payload s); ("priority"%string, JInt (xs_priority s));
        ("readyAt"%string, JStr (xs_readyAt s)); ("deadlineAt"%string, JStr (xs_deadlineAt s));
        ("conflictKeys"%string, JStrs (xs_conflictKeys s))]).

Definition onlyKeys (value : jsobj) (allowed : list string) : bool :=
  Nat.eqb (length (keys value)) (length allowed) && forallb (λ key, memb key allowed) (keys value).

Definition validatePlanExecutionBindingV1 (input : jsval) : res PlanExecutionBindingV1 :=
  let code := "PLAN_EXECUTION_BINDING_INVALID"%string in
  value ← record code input;
  fail_if (negb (onlyKeys value BINDING_KEYS)) code;;
  fail_if (negb (safeId (value .: "sessionId")) || negb (safeId (value .: "planId"))
           || negb (positiveInteger (value .: "planRevision")) || negb (safeId (value .: "itemId"))
           || negb (safeId (value .: "itemAttemptId")) || negb (safeId (value .: "requestId"))) code;;
  Ok {| eb_sessionId := js_str (value .: "sessionId"); eb_planId := js_str (value .: "planId");
        eb_planRevision := js_int (value .: "planRevision"); eb_itemId := js_str (value .: "itemId");
        eb_itemAttemptId := js_str (value .: "itemAttemptId");
        eb_requestId := js_str (value .: "requestId") |}.

Section Digest.
Context `{JsEngine} `{JsCrypto}.

Definition workflowTaskRequestDigestV1 (request : ReviewPlanExecutionRequestV1)
    (taskSpec : WorkflowTaskSpecV1) : res string :=
  validatePlanExecutionBindingV1 (Binding_js (xr_binding request));;
  fail_if (negb (SAFE_ID (xr_workflowId request)) || negb (SHA256 (xr_inputDigest request))
           || negb (xs_schemaVersion taskSpec =? 1)
           || negb (isSafeInteger (JInt (xs_priority taskSpec)))
           || negb (timestamp (JStr (xs_readyAt taskSpec)))
           || negb (timestamp (JStr (xs_deadlineAt taskSpec)))
           || existsb (λ key, negb (SAFE_ID key)) (xs_conflictKeys taskSpec))
    "WORKFLOW_TASK_REQUEST_INVALID";;
  canonicalDigestV1 (JObj [("request"%string, ExecutionRequest_js request);
                           ("taskSpec"%string, TaskSpec_js taskSpec)]).
End Digest.

(** A binding that is accepted is validated again as it is. *)
Lemma validateBinding_stable v b :
  validatePlanExecutionBindingV1 v = Ok b → validatePlanExecutionBindingV1 (Binding_js b) = Ok b.
Proof.
  unfold validatePlanExecutionBindingV1. intros Hv. inv_ok. split_bool.
  repeat match goal with
  | Hs : safeId _ = true |- _ => apply safeId_inv in Hs as (? & Hs & ?); rewrite ?Hs
  | Hp : positiveInteger _ = true |- _ => apply positiveInteger_inv in Hp as (? & Hp & ?); rewrite ?Hp
  end.
  cbn. unfold safeId. repeat match goal with Hs : SAFE_ID _ = true |- _ => rewrite Hs; clear Hs end.
  cbn. by rewrite (proj2 (positiveInteger_int _)).
Qed.
