(* ===== verification/AuthorityDb.v ===== *)
(** * The database of the Workflow authority

    The records of packages/core-sdk/src/workflow-port.ts and the tables that
    apps/runtime/src/workflow/sqliteWorkflowAuthority.ts keeps of them.  A table
    is the list of its rows in the order of their insertion, which is also the
    order of a query without ORDER BY; columns that no statement reads are left
    out, and a JSON column holds the value that was written.  An operation is a
    computation over the store, and a statement that violates a constraint ends
    with the error of the driver. *)

From S2P Require Import Prelude Js CanonicalJson Workflow WorkflowReducer WorkflowExecution.
Local Open Scope Z_scope.

(** ** Records of the port *)

Inductive WorkflowTaskStateV1 := task_ready | task_leased | task_completed | task_failed | task_unknown | task_cancelled.
#[export] Instance WorkflowTaskStateV1_dec : EqDecision WorkflowTaskStateV1.
Proof. solve_decision. Defined.

Record WorkflowTaskLeaseV1 := {
  le_token : string;
  le_workerId : string;
  le_acquiredAt : string;
  le_expiresAt : string;
  le_lastHeartbeatAt : string;
  le_lastProgressAt : string;
}.

Record WorkflowTaskV1 := {
  tk_schemaVersion : Z;
  tk_taskId : string;
  tk_workflowId : string;
  tk_runId : string;
  tk_nodeId : string;
  tk_attemptId : string;
  tk_kind : WorkflowTaskKindV1;
  tk_profileRef : option VersionedWorkflowRefV1;
  tk_capabilityBundleRef : option VersionedWorkflowRefV1;
  tk_payload : jsval;
  tk_state : WorkflowTaskStateV1;
  tk_priority : Z;
  tk_readyAt : string;
  tk_deadlineAt : string;
  tk_conflictKeys : list string;
  tk_effect : EffectContractV1;
  tk_retry : WorkflowRetryPolicyV1;
  tk_timeout : WorkflowTimeoutPolicyV1;
  tk_lease : option WorkflowTaskLeaseV1;
  tk_createdAt : string;
  tk_updatedAt : string;
  tk_executionBinding : option PlanExecutionBindingV1;
}.

Record WorkflowOutboxMessageV1 := {
  ob_messageId : string;
  ob_workflowId : string;
  ob_topic : string;
  ob_key : string;
  ob_payload : jsval;
  ob_availableAt : string;
}.

Record WorkflowTimerV1 := {
  ti_timerId : string;
  ti_workflowId : string;
  ti_nodeId : string;
  ti_fireAt : string;
  ti_payload : jsval;
}.

Record WorkflowSignalV1 := {
  sg_signalId : string;
  sg_workflowId : string;
  sg_name : string;
  sg_payload : jsval;
  sg_receivedAt : string;
}.

Inductive WorkflowHumanTaskStateV1 := human_waiting | human_allowed | human_denied | human_expired | human_cancelled.
#[export] Instance WorkflowHumanTaskStateV1_dec : EqDecision WorkflowHumanTaskStateV1.
Proof. solve_decision. Defined.

Record WorkflowHumanTaskV1 := {
  ht_humanTaskId : string;
  ht_workflowId : string;
  ht_nodeId : string;
  ht_state : WorkflowHumanTaskStateV1;
  ht_request : jsval;
  ht_expiresAt : option string;
  ht_resolution : option jsval;
}.

Inductive ReceiptStateV1 := receipt_committed | receipt_compensated.
#[export] Instance ReceiptStateV1_dec : EqDecision ReceiptStateV1.
Proof. solve_decision. Defined.

Record WorkflowEffectReceiptV1 := {
  rc_receiptId : string;
  rc_workflowId : string;
  rc_nodeId : string;
  rc_attemptId : string;
  rc_effectClass : WorkflowEffectClassV1;
  rc_idempotencyKey : option string;
  rc_state : ReceiptStateV1;
  rc_artifactRef : WorkflowArtifactRefV1;
  rc_createdAt : string;
  rc_compensatedAt : option string;
  rc_compensationReceiptRef : option WorkflowArtifactRefV1;
  rc_requestId : option string;
  rc_executionBinding : option PlanExecutionBindingV1;
  rc_changedFilesDigest : option string;
  rc_workspaceEvidenceRef : option WorkflowArtifactRefV1;
  rc_source : option string;
  rc_attestationDigest : option string;
}.

Inductive ReservationStateV1 := rsv_reserved | rsv_committed | rsv_unknown | rsv_released.
#[export] Instance ReservationStateV1_dec : EqDecision ReservationStateV1.
Proof. solve_decision. Defined.

(** The optional [requestId] of a reservation, and [resolutionRequestId],
    [controlEventId] and [blockId] of an effect request, are members that no
    operation of the authority writes. *)
Record WorkflowEffectReservationV1 := {
  rv_workflowId : string;
  rv_idempotencyKey : string;
  rv_inputDigest : string;
  rv_attemptId : string;
  rv_state : ReservationStateV1;
  rv_leaseExpiresAt : string;
  rv_receiptRef : option WorkflowArtifactRefV1;
  rv_updatedAt : string;
}.

Inductive EffectRequestStateV1 :=
  rq_reserved | rq_committed | rq_unknown | rq_released | rq_failed | rq_cancelled.
Record WorkflowEffectRequestV1 := {
  rq_workflowId : string;
  rq_requestId : string;
  rq_requestDigest : string;
  rq_effectKind : WorkflowEffectClassV1;
  rq_executionBinding : PlanExecutionBindingV1;
  rq_externalIdempotencyKey : option string;
  rq_state : EffectRequestStateV1;
  rq_leaseExpiresAt : option string;
  rq_receiptId : option string;
  rq_receiptRef : option WorkflowArtifactRefV1;
  rq_createdAt : string;
  rq_updatedAt : string;
}.

Inductive AdmissionDecisionV1 := admit_execute | admit_replay | admit_in_progress | admit_conflict.
#[export] Instance AdmissionDecisionV1_dec : EqDecision AdmissionDecisionV1.
Proof. solve_decision. Defined.

(** [effectReservationTerminal] and [acknowledgeTask] of a transaction, with the
    states that their types allow. *)
Inductive TerminalReservationV1 := end_committed | end_unknown | end_released.
Definition terminal_reservation (t : TerminalReservationV1) : ReservationStateV1 :=
  match t with end_committed => rsv_committed | end_unknown => rsv_unknown | end_released => rsv_released end.
Inductive TaskOutcomeV1 := outcome_completed | outcome_failed | outcome_unknown | outcome_cancelled.
Definition task_outcome (t : TaskOutcomeV1) : WorkflowTaskStateV1 :=
  match t with
  | outcome_completed => task_completed | outcome_failed => task_failed
  | outcome_unknown => task_unknown | outcome_cancelled => task_cancelled
  end.
Record EffectReservationTerminal := {
  rt_idempotencyKey : string;
  rt_attemptId : string;
  rt_state : TerminalReservationV1;
  rt_receiptRef : option WorkflowArtifactRefV1;
}.
Record AcknowledgeTask := { ak_taskId : string; ak_leaseToken : string; ak_state : TaskOutcomeV1 }.

(** The messages are objects that the code checks member by member. *)
Record WorkflowTransactionV1 := {
  wt_transactionId : string;
  wt_workflowId : string;
  wt_expectedSequence : Z;
  wt_events : list WorkflowEventDataV1;
  wt_enqueueTasks : list WorkflowTaskV1;
  wt_outbox : list WorkflowOutboxMessageV1;
  wt_timers : list WorkflowTimerV1;
  wt_humanTasks : list WorkflowHumanTaskV1;
  wt_effectReceipts : list WorkflowEffectReceiptV1;
  wt_messages : list jsval;
  wt_effectReservationTerminal : option EffectReservationTerminal;
  wt_acknowledgeTask : option AcknowledgeTask;
  wt_cancelReadyTasks : list string;
  wt_occurredAt : string;
}.

Inductive RecoveryDecisionV1 := recover_retry | recover_unknown | recover_manual_intervention.
Record WorkflowRecoveryDecisionV1 := {
  rd_taskId : string;
  rd_attemptId : string;
  rd_priorState : WorkflowAttemptStateV1;
  rd_decision : RecoveryDecisionV1;
  rd_code : string;
}.

(** ** Tables *)

Record WorkflowRow := {
  wr_workflowId : string;
  wr_sessionId : string;
  wr_state : WorkflowStateV1;
  wr_projection : WorkflowProjectionV1;
  wr_updatedAt : string;
}.
Record EventRow := {
  vr_workflowId : string;
  vr_sequence : Z;
  vr_eventId : string;
  vr_event : WorkflowEventV1;
}.
Record TransactionRow := { xa_transactionId : string; xa_projection : WorkflowProjectionV1 }.
Record TaskRow := {
  tr_taskId : string;
  tr_workflowId : string;
  tr_nodeId : string;
  tr_attemptId : string;
  tr_kind : WorkflowTaskKindV1;
  tr_state : WorkflowTaskStateV1;
  tr_priority : Z;
  tr_readyAt : string;
  tr_leaseExpiresAt : option string;
  tr_task : WorkflowTaskV1;
  tr_createdAt : string;
}.
Record FairnessRow := { fr_workflowId : string; fr_lastClaimedAt : string }.
Record TimerRow := { mr_timer : WorkflowTimerV1; mr_firedAt : option string }.
Record MessageRow := {
  gr_messageId : string;
  gr_workflowId : string;
  gr_sequence : Z;
  gr_recipientKind : string;
  gr_recipientId : string;
  gr_messageType : string;
  gr_message : jsval;
  gr_acknowledgedAt : option string;
}.
Record HumanTaskRow := {
  hr_humanTaskId : string;
  hr_workflowId : string;
  hr_state : WorkflowHumanTaskStateV1;
  hr_task : WorkflowHumanTaskV1;
  hr_expiresAt : option string;
}.
Record ReceiptRow := {
  cr_receiptId : string;
  cr_workflowId : string;
  cr_idempotencyKey : option string;
  cr_requestId : option string;
  cr_state : ReceiptStateV1;
  cr_receipt : WorkflowEffectReceiptV1;
  cr_createdAt : string;
}.
Record ReservationRow := {
  sr_workflowId : string;
  sr_idempotencyKey : string;
  sr_reservation : WorkflowEffectReservationV1;
}.
Record TaskRequestRow := {
  qr_workflowId : string;
  qr_requestId : string;
  qr_requestDigest : string;
  qr_taskId : string;
}.
Record EffectRequestRow := {
  er_workflowId : string;
  er_requestId : string;
  er_request : WorkflowEffectRequestV1;
}.
Record ProfileRow := { pr_profileId : string; pr_version : Z; pr_profile : jsval }.

Record AuthorityDb := {
  db_schema : list Z;
  db_workflows : list WorkflowRow;
  db_events : list EventRow;
  db_transactions : list TransactionRow;
  db_tasks : list TaskRow;
  db_fairness : list FairnessRow;
  db_outbox : list WorkflowOutboxMessageV1;
  db_timers : list TimerRow;
  db_signals : list WorkflowSignalV1;
  db_messages : list MessageRow;
  db_humanTasks : list HumanTaskRow;
  db_receipts : list ReceiptRow;
  db_reservations : list ReservationRow;
  db_taskRequests : list TaskRequestRow;
  db_effectRequests : list EffectRequestRow;
  db_profiles : list ProfileRow;
}.

Definition empty_db : AuthorityDb :=
  {| db_schema := []; db_workflows := []; db_events := []; db_transactions := []; db_tasks := [];
     db_fairness := []; db_outbox := []; db_timers := []; db_signals := []; db_messages := [];
     db_humanTasks := []; db_receipts := []; db_reservations := []; db_taskRequests := [];
     db_effectRequests := []; db_profiles := [] |}.

(** A write replaces one table. *)
Definition set_schema (t : list Z) (d : AuthorityDb) : AuthorityDb :=
  {| db_schema := t; db_workflows := db_workflows d; db_events := db_events d; db_transactions :=
     db_transactions d; db_tasks := db_tasks d; db_fairness := db_fairness d; db_outbox := db_outbox
     d; db_timers := db_timers d; db_signals := db_signals d; db_messages := db_messages d;
     db_humanTasks := db_humanTasks d; db_receipts := db_receipts d; db_reservations :=
     db_reservations d; db_taskRequests := db_taskRequests d; db_effectRequests := db_effectRequests
     d; db_profiles := db_profiles d |}.
Definition set_workflows (t : list WorkflowRow) (d : AuthorityDb) : AuthorityDb :=
  {| db_schema := db_schema d; db_workflows := t; db_events := db_events d; db_transactions :=
     db_transactions d; db_tasks := db_tasks d; db_fairness := db_fairness d; db_outbox := db_outbox
     d; db_timers := db_timers d; db_signals := db_signals d; db_messages := db_messages d;
     db_humanTasks := db_humanTasks d; db_receipts := db_receipts d; db_reservations :=
     db_reservations d; db_taskRequests := db_taskRequests d; db_effectRequests := db_effectRequests
     d; db_profiles := db_profiles d |}.
Definition set_events (t : list EventRow) (d : AuthorityDb) : AuthorityDb :=
  {| db_schema := db_schema d; db_workflows := db_workflows d; db_events := t; db_transactions :=
     db_transactions d; db_tasks := db_tasks d; db_fairness := db_fairness d; db_outbox := db_outbox
     d; db_timers := db_timers d; db_signals := db_signals d; db_messages := db_messages d;
     db_humanTasks := db_humanTasks d; db_receipts := db_receipts d; db_reservations :=
     db_reservations d; db_taskRequests := db_taskRequests d; db_effectRequests := db_effectRequests
     d; db_profiles := db_profiles d |}.
Definition set_transactions (t : list TransactionRow) (d : AuthorityDb) : AuthorityDb :=
  {| db_schema := db_schema d; db_workflows := db_workflows d; db_events := db_events d;
     db_transactions := t; db_tasks := db_tasks d; db_fairness := db_fairness d; db_outbox :=
     db_outbox d; db_timers := db_timers d; db_signals := db_signals d; db_messages := db_messages
     d; db_humanTasks := db_humanTasks d; db_receipts := db_receipts d; db_reservations :=
     db_reservations d; db_taskRequests := db_taskRequests d; db_effectRequests := db_effectRequests
     d; db_profiles := db_profiles d |}.
Definition set_tasks (t : list TaskRow) (d : AuthorityDb) : AuthorityDb :=
  {| db_schema := db_schema d; db_workflows := db_workflows d; db_events := db_events d;
     db_transactions := db_transactions d; db_tasks := t; db_fairness := db_fairness d; db_outbox :=
     db_outbox d; db_timers := db_timers d; db_signals := db_signals d; db_messages := db_messages
     d; db_humanTasks := db_humanTasks d; db_receipts := db_receipts d; db_reservations :=
     db_reservations d; db_taskRequests := db_taskRequests d; db_effectRequests := db_effectRequests
     d; db_profiles := db_profiles d |}.
Definition set_fairness (t : list FairnessRow) (d : AuthorityDb) : AuthorityDb :=
  {| db_schema := db_schema d; db_workflows := db_workflows d; db_events := db_events d;
     db_transactions := db_transactions d; db_tasks := db_tasks d; db_fairness := t; db_outbox :=
     db_outbox d; db_timers := db_timers d; db_signals := db_signals d; db_messages := db_messages
     d; db_humanTasks := db_humanTasks d; db_receipts := db_receipts d; db_reservations :=
     db_reservations d; db_taskRequests := db_taskRequests d; db_effectRequests := db_effectRequests
     d; db_profiles := db_profiles d |}.
Definition set_outbox (t : list WorkflowOutboxMessageV1) (d : AuthorityDb) : AuthorityDb :=
  {| db_schema := db_schema d; db_workflows := db_workflows d; db_events := db_events d;
     db_transactions := db_transactions d; db_tasks := db_tasks d; db_fairness := db_fairness d;
     db_outbox := t; db_timers := db_timers d; db_signals := db_signals d; db_messages :=
     db_messages d; db_humanTasks := db_humanTasks d; db_receipts := db_receipts d; db_reservations
     := db_reservations d; db_taskRequests := db_taskRequests d; db_effectRequests :=
     db_effectRequests d; db_profiles := db_profiles d |}.
Definition set_timers (t : list TimerRow) (d : AuthorityDb) : AuthorityDb :=
  {| db_schema := db_schema d; db_workflows := db_workflows d; db_events := db_events d;
     db_transactions := db_transactions d; db_tasks := db_tasks d; db_fairness := db_fairness d;
     db_outbox := db_outbox d; db_timers := t; db_signals := db_signals d; db_messages :=
     db_messages d; db_humanTasks := db_humanTasks d; db_receipts := db_receipts d; db_reservations
     := db_reservations d; db_taskRequests := db_taskRequests d; db_effectRequests :=
     db_effectRequests d; db_profiles := db_profiles d |}.
Definition set_signals (t : list WorkflowSignalV1) (d : AuthorityDb) : AuthorityDb :=
  {| db_schema := db_schema d; db_workflows := db_workflows d; db_events := db_events d;
     db_transactions := db_transactions d; db_tasks := db_tasks d; db_fairness := db_fairness d;
     db_outbox := db_outbox d; db_timers := db_timers d; db_signals := t; db_messages := db_messages
     d; db_humanTasks := db_humanTasks d; db_receipts := db_receipts d; db_reservations :=
     db_reservations d; db_taskRequests := db_taskRequests d; db_effectRequests := db_effectRequests
     d; db_profiles := db_profiles d |}.
Definition set_messages (t : list MessageRow) (d : AuthorityDb) : AuthorityDb :=
  {| db_schema := db_schema d; db_workflows := db_workflows d; db_events := db_events d;
     db_transactions := db_transactions d; db_tasks := db_tasks d; db_fairness := db_fairness d;
     db_outbox := db_outbox d; db_timers := db_timers d; db_signals := db_signals d; db_messages :=
     t; db_humanTasks := db_humanTasks d; db_receipts := db_receipts d; db_reservations :=
     db_reservations d; db_taskRequests := db_taskRequests d; db_effectRequests := db_effectRequests
     d; db_profiles := db_profiles d |}.
Definition set_humanTasks (t : list HumanTaskRow) (d : AuthorityDb) : AuthorityDb :=
  {| db_schema := db_schema d; db_workflows := db_workflows d; db_events := db_events d;
     db_transactions := db_transactions d; db_tasks := db_tasks d; db_fairness := db_fairness d;
     db_outbox := db_outbox d; db_timers := db_timers d; db_signals := db_signals d; db_messages :=
     db_messages d; db_humanTasks := t; db_receipts := db_receipts d; db_reservations :=
     db_reservations d; db_taskRequests := db_taskRequests d; db_effectRequests := db_effectRequests
     d; db_profiles := db_profiles d |}.
Definition set_receipts (t : list ReceiptRow) (d : AuthorityDb) : AuthorityDb :=
  {| db_schema := db_schema d; db_workflows := db_workflows d; db_events := db_events d;
     db_transactions := db_transactions d; db_tasks := db_tasks d; db_fairness := db_fairness d;
     db_outbox := db_outbox d; db_timers := db_timers d; db_signals := db_signals d; db_messages :=
     db_messages d; db_humanTasks := db_humanTasks d; db_receipts := t; db_reservations :=
     db_reservations d; db_taskRequests := db_taskRequests d; db_effectRequests := db_effectRequests
     d; db_profiles := db_profiles d |}.
Definition set_reservations (t : list ReservationRow) (d : AuthorityDb) : AuthorityDb :=
  {| db_schema := db_schema d; db_workflows := db_workflows d; db_events := db_events d;
     db_transactions := db_transactions d; db_tasks := db_tasks d; db_fairness := db_fairness d;
     db_outbox := db_outbox d; db_timers := db_timers d; db_signals := db_signals d; db_messages :=
     db_messages d; db_humanTasks := db_humanTasks d; db_receipts := db_receipts d; db_reservations
     := t; db_taskRequests := db_taskRequests d; db_effectRequests := db_effectRequests d;
     db_profiles := db_profiles d |}.
Definition set_taskRequests (t : list TaskRequestRow) (d : AuthorityDb) : AuthorityDb :=
  {| db_schema := db_schema d; db_workflows := db_workflows d; db_events := db_events d;
     db_transactions := db_transactions d; db_tasks := db_tasks d; db_fairness := db_fairness d;
     db_outbox := db_outbox d; db_timers := db_timers d; db_signals := db_signals d; db_messages :=
     db_messages d; db_humanTasks := db_humanTasks d; db_receipts := db_receipts d; db_reservations
     := db_reservations d; db_taskRequests := t; db_effectRequests := db_effectRequests d;
     db_profiles := db_profiles d |}.
Definition set_effectRequests (t : list EffectRequestRow) (d : AuthorityDb) : AuthorityDb :=
  {| db_schema := db_schema d; db_workflows := db_workflows d; db_events := db_events d;
     db_transactions := db_transactions d; db_tasks := db_tasks d; db_fairness := db_fairness d;
     db_outbox := db_outbox d; db_timers := db_timers d; db_signals := db_signals d; db_messages :=
     db_messages d; db_humanTasks := db_humanTasks d; db_receipts := db_receipts d; db_reservations
     := db_reservations d; db_taskRequests := db_taskRequests d; db_effectRequests := t; db_profiles
     := db_profiles d |}.
Definition set_profiles (t : list ProfileRow) (d : AuthorityDb) : AuthorityDb :=
  {| db_schema := db_schema d; db_workflows := db_workflows d; db_events := db_events d;
     db_transactions := db_transactions d; db_tasks := db_tasks d; db_fairness := db_fairness d;
     db_outbox := db_outbox d; db_timers := db_timers d; db_signals := db_signals d; db_messages :=
     db_messages d; db_humanTasks := db_humanTasks d; db_receipts := db_receipts d; db_reservations
     := db_reservations d; db_taskRequests := db_taskRequests d; db_effectRequests :=
     db_effectRequests d; db_profiles := t |}.

(** ** Computations over the store *)

(** The connection is open after [initialize]; [st_uuids] counts the calls of
    [randomUUID]. *)
Record Authority := { st_open : bool; st_uuids : nat; st_db : AuthorityDb }.

(** [randomUUID]: the text that a call returns, by the number of the call. *)
Class RandomUUID := { uuid : nat → string }.

Definition with_db (s : Authority) (d : AuthorityDb) : Authority :=
  {| st_open := st_open s; st_uuids := st_uuids s; st_db := d |}.

Definition Db (A : Type) : Type := Authority → res A * Authority.
#[export] Instance db_ret : MRet Db := λ A a s, (Ok a, s).
#[export] Instance db_bind : MBind Db := λ A B f m s,
  match m s with
  | (Ok a, s') => f a s'
  | (Err code, s') => (Err code, s')
  end.
Definition of_res {A} (r : res A) : Db A := λ s, (r, s).
Definition select {A} (f : AuthorityDb → A) : Db A := λ s, (Ok (f (st_db s)), s).
Definition update (f : AuthorityDb → AuthorityDb) : Db unit := λ s, (Ok tt, with_db s (f (st_db s))).
Definition throw {A} (code : string) : Db A := of_res (Err code).
Definition throw_if (cond : bool) (code : string) : Db unit := of_res (fail_if cond code).
Definition randomUUID `{RandomUUID} : Db string := λ s,
  (Ok (uuid (st_uuids s)), {| st_open := st_open s; st_uuids := S (st_uuids s); st_db := st_db s |}).

(** A statement that violates a constraint of its table. *)
Definition SQLITE_ERROR : string := "ERR_SQLITE_ERROR".
Definition constraint (holds : AuthorityDb → bool) : Db unit := λ s,
  (fail_if (negb (holds (st_db s))) SQLITE_ERROR, s).

(** [for (const x of l) f(x)]. *)
Fixpoint for_each {A} (f : A → Db unit) (l : list A) : Db unit :=
  match l with
  | [] => mret tt
  | x :: l => f x;; for_each f l
  end.

(** [l.map(f)] with effects, and a loop that pushes to an array. *)
Fixpoint for_map {A B} (f : A → Db B) (l : list A) : Db (list B) :=
  match l with
  | [] => mret []
  | x :: l => y ← f x; ys ← for_map f l; mret (y :: ys)
  end.

(** The comparison of texts by bytes. *)
Definition string_leb (a b : string) : bool := negb (string_ltb b a).

(** UPDATE ... WHERE: the rows that match are replaced. *)
Definition update_rows {A} (p : A → bool) (f : A → A) (l : list A) : list A :=
  (λ x, if p x then f x else x) <$> l.
