(* ===== verification/AuthorityStatements.v ===== *)
(** * Statements of the Workflow authority

    The functions below the class of
    apps/runtime/src/workflow/sqliteWorkflowAuthority.ts: the transaction with
    its rollback, the statements that insert and update rows with the checks
    around them, the messages, and the events that are appended to the history
    of a workflow.  An instant that the source reads from the clock is an
    argument; a busy database of another process is not modelled. *)

From S2P Require Import Prelude Js JsOps CanonicalJson Workflow WorkflowReducer WorkflowExecution AuthorityDb.
Local Open Scope Z_scope.

Definition MAX_MESSAGE_BYTES : Z := 64 * 1024.

(** ** Helpers *)

(** [/^[A-Za-z0-9][A-Za-z0-9._:/@+-]{0,255}$/]. *)
Definition AUTHORITY_ID (s : string) : bool :=
  match s with
  | EmptyString => false
  | String a rest =>
      is_alnum a && string_forallb (λ c, is_alnum c || char_in "._:/@+-" c) rest
      && Nat.leb (String.length rest) 255
  end.
Definition authority_safeId (v : jsval) : bool := match v with JStr s => AUTHORITY_ID s | _ => false end.

#[global] Arguments AUTHORITY_ID : simpl never.

Definition mapError (code : string) : string :=
  if String.prefix "WORKFLOW_" code || String.prefix "MODE_" code then code
  else "WORKFLOW_PERSISTENCE_FAILED".

(** [this.database()]. *)
Definition database : Db unit := λ s,
  (fail_if (negb (st_open s)) "WORKFLOW_STORE_NOT_INITIALIZED", s).

Definition transaction {A} (body : Db A) : Db A := λ s,
  if st_open s then
    match body s with
    | (Ok a, s') => (Ok a, s')
    | (Err code, s') => (Err (mapError code), with_db s' (st_db s))
    end
  else (Err "WORKFLOW_STORE_NOT_INITIALIZED", s).

(** The largest time value of the language. *)
Definition MAX_TIME : Z := 8640000000000000.

(** [case 'x' || case 'y'] on an effect class. *)
Definition recoverable_classes : list WorkflowEffectClassV1 := [pure; read; external_idempotent].
Definition effectful_classes : list WorkflowEffectClassV1 :=
  [workspace_write; external_idempotent; external_non_idempotent].

Definition workflow_state_name (s : WorkflowStateV1) : string :=
  match s with
  | W_created => "created" | W_running => "running" | W_waiting => "waiting" | W_paused => "paused"
  | W_cancelling => "cancelling" | W_cancelled => "cancelled" | W_completed => "completed"
  | W_failed => "failed" | W_terminated => "terminated"
  end.

Definition human_state_name (s : WorkflowHumanTaskStateV1) : string :=
  match s with
  | human_waiting => "waiting" | human_allowed => "allowed" | human_denied => "denied"
  | human_expired => "expired" | human_cancelled => "cancelled"
  end.
(** [state.toUpperCase()]. *)
Definition human_state_upper (s : WorkflowHumanTaskStateV1) : string :=
  match s with
  | human_waiting => "WAITING" | human_allowed => "ALLOWED" | human_denied => "DENIED"
  | human_expired => "EXPIRED" | human_cancelled => "CANCELLED"
  end.

(** The two events that most operations append. *)
Definition node_change (nodeId : string) (state : WorkflowNodeStateV1) (errorCode : option string) :=
  node_state_changed {| nsc_nodeId := nodeId; nsc_state := state; nsc_errorCode := errorCode;
                        nsc_resultRef := JUndef |}.
Definition attempt_change (attemptId : string) (state : WorkflowAttemptStateV1) (at_ : string)
    (errorCode : option string) :=
  attempt_state_changed {| asc_attemptId := attemptId; asc_state := state; asc_leaseToken := None;
    asc_workerId := None; asc_at := at_; asc_errorCode := errorCode; asc_resultRef := JUndef;
    asc_receiptRef := JUndef |}.
Definition new_attempt (attemptId nodeId : string) (ordinal : Z) : WorkflowAttemptProjectionV1 :=
  {| ap_attemptId := attemptId; ap_nodeId := nodeId; ap_ordinal := ordinal; ap_state := A_scheduled;
     ap_leaseToken := None; ap_workerId := None; ap_startedAt := None; ap_lastProgressAt := None;
     ap_finishedAt := None; ap_resultRef := JUndef; ap_receiptRef := JUndef; ap_errorCode := None |}.

(** Object spreads of a task and the columns that an UPDATE sets. *)
Definition task_with (t : WorkflowTaskV1) (state : WorkflowTaskStateV1)
    (lease : option WorkflowTaskLeaseV1) (updatedAt : string) : WorkflowTaskV1 :=
  {| tk_schemaVersion := tk_schemaVersion t; tk_taskId := tk_taskId t;
     tk_workflowId := tk_workflowId t; tk_runId := tk_runId t; tk_nodeId := tk_nodeId t;
     tk_attemptId := tk_attemptId t; tk_kind := tk_kind t; tk_profileRef := tk_profileRef t;
     tk_capabilityBundleRef := tk_capabilityBundleRef t; tk_payload := tk_payload t;
     tk_state := state; tk_priority := tk_priority t; tk_readyAt := tk_readyAt t;
     tk_deadlineAt := tk_deadlineAt t; tk_conflictKeys := tk_conflictKeys t;
     tk_effect := tk_effect t; tk_retry := tk_retry t; tk_timeout := tk_timeout t;
     tk_lease := lease; tk_createdAt := tk_createdAt t; tk_updatedAt := updatedAt;
     tk_executionBinding := tk_executionBinding t |}.
Definition task_with_bundle (t : WorkflowTaskV1) (ref : VersionedWorkflowRefV1) (updatedAt : string) :
    WorkflowTaskV1 :=
  {| tk_schemaVersion := tk_schemaVersion t; tk_taskId := tk_taskId t;
     tk_workflowId := tk_workflowId t; tk_runId := tk_runId t; tk_nodeId := tk_nodeId t;
     tk_attemptId := tk_attemptId t; tk_kind := tk_kind t; tk_profileRef := tk_profileRef t;
     tk_capabilityBundleRef := Some ref; tk_payload := tk_payload t; tk_state := tk_state t;
     tk_priority := tk_priority t; tk_readyAt := tk_readyAt t; tk_deadlineAt := tk_deadlineAt t;
     tk_conflictKeys := tk_conflictKeys t; tk_effect := tk_effect t; tk_retry := tk_retry t;
     tk_timeout := tk_timeout t; tk_lease := tk_lease t; tk_createdAt := tk_createdAt t;
     tk_updatedAt := updatedAt; tk_executionBinding := tk_executionBinding t |}.
(** [{...task, taskId, attemptId, state: 'ready', lease: undefined, ...}]. *)
Definition retry_task (t : WorkflowTaskV1) (taskId attemptId readyAt at_ : string) : WorkflowTaskV1 :=
  {| tk_schemaVersion := tk_schemaVersion t; tk_taskId := taskId;
     tk_workflowId := tk_workflowId t; tk_runId := tk_runId t; tk_nodeId := tk_nodeId t;
     tk_attemptId := attemptId; tk_kind := tk_kind t; tk_profileRef := tk_profileRef t;
     tk_capabilityBundleRef := None; tk_payload := tk_payload t; tk_state := task_ready;
     tk_priority := tk_priority t; tk_readyAt := readyAt; tk_deadlineAt := tk_deadlineAt t;
     tk_conflictKeys := tk_conflictKeys t; tk_effect := tk_effect t; tk_retry := tk_retry t;
     tk_timeout := tk_timeout t; tk_lease := None; tk_createdAt := at_; tk_updatedAt := at_;
     tk_executionBinding := tk_executionBinding t |}.

Definition put_task (state : WorkflowTaskStateV1) (leaseExpiresAt : option string)
    (task : WorkflowTaskV1) (r : TaskRow) : TaskRow :=
  {| tr_taskId := tr_taskId r; tr_workflowId := tr_workflowId r; tr_nodeId := tr_nodeId r;
     tr_attemptId := tr_attemptId r; tr_kind := tr_kind r; tr_state := state;
     tr_priority := tr_priority r; tr_readyAt := tr_readyAt r; tr_leaseExpiresAt := leaseExpiresAt;
     tr_task := task; tr_createdAt := tr_createdAt r |}.

(** [UPDATE workflow_tasks SET ... WHERE task_id = ?]. *)
Definition update_task (taskId : string) (f : TaskRow → TaskRow) : Db unit :=
  update (λ d, set_tasks (update_rows (λ r, bool_decide (tr_taskId r = taskId)) f (db_tasks d)) d).

Definition lease_with (l : WorkflowTaskLeaseV1) (expiresAt heartbeatAt progressAt : string) :
    WorkflowTaskLeaseV1 :=
  {| le_token := le_token l; le_workerId := le_workerId l; le_acquiredAt := le_acquiredAt l;
     le_expiresAt := expiresAt; le_lastHeartbeatAt := heartbeatAt; le_lastProgressAt := progressAt |}.

(** [task.lease?.token === token] of a leased task. *)
Definition holds_lease (t : WorkflowTaskV1) (token : string) : bool :=
  bool_decide (tk_state t = task_leased)
  && match tk_lease t with Some l => bool_decide (le_token l = token) | None => false end.

Definition with_reservation (r : WorkflowEffectReservationV1) (attemptId : string)
    (state : ReservationStateV1) (leaseExpiresAt : string)
    (receiptRef : option WorkflowArtifactRefV1) (updatedAt : string) : WorkflowEffectReservationV1 :=
  {| rv_workflowId := rv_workflowId r; rv_idempotencyKey := rv_idempotencyKey r;
     rv_inputDigest := rv_inputDigest r; rv_attemptId := attemptId; rv_state := state;
     rv_leaseExpiresAt := leaseExpiresAt; rv_receiptRef := receiptRef; rv_updatedAt := updatedAt |}.

Definition find_reservation (workflowId idempotencyKey : string) (d : AuthorityDb) :
    option WorkflowEffectReservationV1 :=
  sr_reservation <$> findb (λ r, bool_decide (sr_workflowId r = workflowId)
    && bool_decide (sr_idempotencyKey r = idempotencyKey)) (db_reservations d).
Definition update_reservation (workflowId idempotencyKey : string)
    (reservation : WorkflowEffectReservationV1) : Db unit :=
  update (λ d, set_reservations (update_rows (λ r, bool_decide (sr_workflowId r = workflowId)
      && bool_decide (sr_idempotencyKey r = idempotencyKey))
    (λ r, {| sr_workflowId := sr_workflowId r; sr_idempotencyKey := sr_idempotencyKey r;
             sr_reservation := reservation |}) (db_reservations d)) d).

Definition backoffMs (task : WorkflowTaskV1) (ordinal : Z) : option Z :=
  let retry := tk_retry task in
  let exponent := Z.max 0 (ordinal - 1) in
  if (rp_initialBackoffMs retry =? 0) && (1024 <=? exponent) then None
  else Some (Z.min (rp_maxBackoffMs retry) (rp_initialBackoffMs retry * 2 ^ exponent)).

Definition envelopeEvents (spec : WorkflowSpecV1) (after : Z) (transactionId : string)
    (data : list WorkflowEventDataV1) (occurredAt : string) : list WorkflowEventV1 :=
  imap (λ index entry,
    let sequence := after + Z.of_nat index + 1 in
    {| ev_schemaVersion := 1; ev_eventId := transactionId +:+ ":" +:+ pretty sequence;
       ev_workflowId := ws_workflowId spec; ev_runId := ws_runId spec; ev_sequence := sequence;
       ev_occurredAt := occurredAt; ev_causationId := Some transactionId; ev_data := entry |}) data.

Definition workflow_exists (workflowId : string) (d : AuthorityDb) : bool :=
  existsb (λ r, bool_decide (wr_workflowId r = workflowId)) (db_workflows d).

Definition insertEvent (event : WorkflowEventV1) : Db unit :=
  constraint (λ d, workflow_exists (ev_workflowId event) d
    && negb (existsb (λ r, (bool_decide (vr_workflowId r = ev_workflowId event)
                            && (vr_sequence r =? ev_sequence event))
                           || bool_decide (vr_eventId r = ev_eventId event)) (db_events d)));;
  update (λ d, set_events (db_events d ++
    [{| vr_workflowId := ev_workflowId event; vr_sequence := ev_sequence event;
        vr_eventId := ev_eventId event; vr_event := event |}]) d).
Definition insertEvents (events : list WorkflowEventV1) : Db unit := for_each insertEvent events.

Definition insertTask (task : WorkflowTaskV1) : Db unit :=
  throw_if (negb (AUTHORITY_ID (tk_taskId task)) || negb (AUTHORITY_ID (tk_workflowId task))
            || negb (AUTHORITY_ID (tk_nodeId task)) || negb (AUTHORITY_ID (tk_attemptId task))
            || negb (tk_schemaVersion task =? 1) || bool_decide (tk_state task ≠ task_ready))
    "WORKFLOW_TASK_INVALID";;
  constraint (λ d, workflow_exists (tk_workflowId task) d
    && negb (existsb (λ r, bool_decide (tr_taskId r = tk_taskId task)
                           || bool_decide (tr_attemptId r = tk_attemptId task)) (db_tasks d)));;
  update (λ d, set_tasks (db_tasks d ++
    [{| tr_taskId := tk_taskId task; tr_workflowId := tk_workflowId task;
        tr_nodeId := tk_nodeId task; tr_attemptId := tk_attemptId task; tr_kind := tk_kind task;
        tr_state := tk_state task; tr_priority := tk_priority task; tr_readyAt := tk_readyAt task;
        tr_leaseExpiresAt := None; tr_task := task; tr_createdAt := tk_createdAt task |}]) d).

Definition insertOutbox (message : WorkflowOutboxMessageV1) : Db unit :=
  constraint (λ d, negb (existsb (λ r, bool_decide (ob_messageId r = ob_messageId message)
      || (bool_decide (ob_topic r = ob_topic message) && bool_decide (ob_key r = ob_key message)))
    (db_outbox d)));;
  update (λ d, set_outbox (db_outbox d ++ [message]) d).

Definition insertTimer (timer : WorkflowTimerV1) : Db unit :=
  constraint (λ d, negb (existsb (λ r, bool_decide (ti_timerId (mr_timer r) = ti_timerId timer))
    (db_timers d)));;
  update (λ d, set_timers (db_timers d ++ [{| mr_timer := timer; mr_firedAt := None |}]) d).

Definition insertHumanTask (task : WorkflowHumanTaskV1) : Db unit :=
  constraint (λ d, negb (existsb (λ r, bool_decide (hr_humanTaskId r = ht_humanTaskId task))
    (db_humanTasks d)));;
  update (λ d, set_humanTasks (db_humanTasks d ++
    [{| hr_humanTaskId := ht_humanTaskId task; hr_workflowId := ht_workflowId task;
        hr_state := ht_state task; hr_task := task; hr_expiresAt := ht_expiresAt task |}]) d).

Definition saveProjection (projection : WorkflowProjectionV1) : Db unit :=
  update (λ d, set_workflows (update_rows
    (λ r, bool_decide (wr_workflowId r = wp_workflowId projection))
    (λ r, {| wr_workflowId := wr_workflowId r; wr_sessionId := wr_sessionId r;
             wr_state := wp_state projection; wr_projection := projection;
             wr_updatedAt := wp_updatedAt projection |}) (db_workflows d)) d).

Definition parseProjection (projection : WorkflowProjectionV1) : res WorkflowProjectionV1 :=
  fail_if (negb (AUTHORITY_ID (wp_workflowId projection))) "WORKFLOW_PROJECTION_CORRUPT";;
  Ok projection.

Definition loadProjection (workflowId : string) : Db WorkflowProjectionV1 :=
  row ← select (λ d, findb (λ r, bool_decide (wr_workflowId r = workflowId)) (db_workflows d));
  match row with
  | None => throw "WORKFLOW_NOT_FOUND"
  | Some row => of_res (parseProjection (wr_projection row))
  end.

Definition transactionProjection (transactionId : string) : Db (option WorkflowProjectionV1) :=
  row ← select (λ d, findb (λ r, bool_decide (xa_transactionId r = transactionId)) (db_transactions d));
  match row with
  | None => mret None
  | Some row => projection ← of_res (parseProjection (xa_projection row)); mret (Some projection)
  end.

Definition recordTransaction (transactionId : string) (projection : WorkflowProjectionV1) : Db unit :=
  constraint (λ d, negb (existsb (λ r, bool_decide (xa_transactionId r = transactionId))
    (db_transactions d)));;
  update (λ d, set_transactions (db_transactions d ++
    [{| xa_transactionId := transactionId; xa_projection := projection |}]) d).

Definition parseTask (task : WorkflowTaskV1) : res WorkflowTaskV1 :=
  fail_if (negb (tk_schemaVersion task =? 1) || negb (AUTHORITY_ID (tk_taskId task))
           || negb (AUTHORITY_ID (tk_workflowId task))
           || match tk_executionBinding task with
              | None => false
              | Some binding => negb (is_ok (validatePlanExecutionBindingV1 (Binding_js binding)))
              end) "WORKFLOW_TASK_CORRUPT";;
  Ok task.

(** [SELECT task_json ... LIMIT 1] and the parse of the row. *)
Definition read_task (p : TaskRow → bool) : Db WorkflowTaskV1 :=
  row ← select (λ d, findb p (db_tasks d));
  match row with
  | None => throw "WORKFLOW_TASK_NOT_FOUND"
  | Some row => of_res (parseTask (tr_task row))
  end.
Definition taskById (taskId : string) : Db WorkflowTaskV1 :=
  read_task (λ r, bool_decide (tr_taskId r = taskId)).
Definition taskForAttempt (workflowId attemptId : string) : Db WorkflowTaskV1 :=
  read_task (λ r, bool_decide (tr_workflowId r = workflowId) && bool_decide (tr_attemptId r = attemptId)).

Definition acknowledgeTask (ack : AcknowledgeTask) (at_ : string) : Db unit :=
  task ← taskById (ak_taskId ack);
  throw_if (negb (holds_lease task (ak_leaseToken ack))) "WORKFLOW_LEASE_LOST";;
  let state := task_outcome (ak_state ack) in
  update_task (ak_taskId ack) (put_task state None (task_with task state None at_)).

Definition cancelReadyTask (workflowId taskId at_ : string) : Db unit :=
  throw_if (negb (AUTHORITY_ID taskId)) "WORKFLOW_TASK_INVALID";;
  task ← taskById taskId;
  throw_if (bool_decide (tk_workflowId task ≠ workflowId) || bool_decide (tk_state task ≠ task_ready))
    "WORKFLOW_TASK_CANCEL_INVALID_STATE";;
  update_task taskId (put_task task_cancelled None (task_with task task_cancelled None at_)).

Definition releaseEffectReservation (workflowId idempotencyKey attemptId at_ : string) : Db unit :=
  prior ← select (find_reservation workflowId idempotencyKey);
  match prior with
  | None => mret tt
  | Some reservation =>
      if bool_decide (rv_attemptId reservation ≠ attemptId)
         || bool_decide (rv_state reservation ≠ rsv_reserved) then mret tt
      else update_reservation workflowId idempotencyKey
             (with_reservation reservation (rv_attemptId reservation) rsv_released
                (rv_leaseExpiresAt reservation) (rv_receiptRef reservation) at_)
  end.

(** The UPDATE of the request that a receipt answers. *)
Definition commit_request (receipt : WorkflowEffectReceiptV1) (r : EffectRequestRow) : EffectRequestRow :=
  let q := er_request r in
  {| er_workflowId := er_workflowId r; er_requestId := er_requestId r; er_request :=
     {| rq_workflowId := rq_workflowId q; rq_requestId := rq_requestId q;
        rq_requestDigest := rq_requestDigest q; rq_effectKind := rq_effectKind q;
        rq_executionBinding := rq_executionBinding q;
        rq_externalIdempotencyKey := rq_externalIdempotencyKey q; rq_state := rq_committed;
        rq_leaseExpiresAt := rq_leaseExpiresAt q; rq_receiptId := Some (rc_receiptId receipt);
        rq_receiptRef := Some (rc_artifactRef receipt); rq_createdAt := rq_createdAt q;
        rq_updatedAt := rc_createdAt receipt |} |}.

(** UNIQUE(workflow_id, column) where the column may be NULL. *)
Definition same_key (a b : option string) : bool :=
  match a, b with Some x, Some y => bool_decide (x = y) | _, _ => false end.

(** The row of a receipt with the same idempotency key. *)
Definition find_receipt (receipt : WorkflowEffectReceiptV1) (d : AuthorityDb) : option ReceiptRow :=
  findb (λ r, bool_decide (cr_workflowId r = rc_workflowId receipt)
              && same_key (cr_idempotencyKey r) (rc_idempotencyKey receipt)) (db_receipts d).

Definition insert_receipt_row (receipt : WorkflowEffectReceiptV1) : Db unit :=
  constraint (λ d, negb (existsb (λ r, bool_decide (cr_receiptId r = rc_receiptId receipt)
      || (bool_decide (cr_workflowId r = rc_workflowId receipt)
          && (same_key (cr_idempotencyKey r) (rc_idempotencyKey receipt)
              || same_key (cr_requestId r) (rc_requestId receipt)))) (db_receipts d)));;
  update (λ d, set_receipts (db_receipts d ++
    [{| cr_receiptId := rc_receiptId receipt; cr_workflowId := rc_workflowId receipt;
        cr_idempotencyKey := rc_idempotencyKey receipt; cr_requestId := rc_requestId receipt;
        cr_state := rc_state receipt; cr_receipt := receipt; cr_createdAt := rc_createdAt receipt |}]) d);;
  match rc_requestId receipt with
  | None => mret tt
  | Some requestId => update (λ d, set_effectRequests (update_rows
      (λ r, bool_decide (er_workflowId r = rc_workflowId receipt) && bool_decide (er_requestId r = requestId))
      (commit_request receipt) (db_effectRequests d)) d)
  end.

Section Statements.
Context `{JsEngine}.

Definition insertEffectReceipt (receipt : WorkflowEffectReceiptV1) : Db unit :=
  throw_if (negb (AUTHORITY_ID (rc_receiptId receipt)) || negb (AUTHORITY_ID (rc_workflowId receipt))
            || negb (AUTHORITY_ID (rc_nodeId receipt)) || negb (AUTHORITY_ID (rc_attemptId receipt))
            || negb (bool_decide (rc_effectClass receipt ∈ effectful_classes))
            || match rc_idempotencyKey receipt with Some key => negb (AUTHORITY_ID key) | None => false end
            || negb (timestamp (JStr (rc_createdAt receipt)))) "WORKFLOW_EFFECT_RECEIPT_INVALID";;
  existing ← select (find_receipt receipt);
  match existing with
  | Some row =>
      throw_if (bool_decide (rc_effectClass (cr_receipt row) ≠ rc_effectClass receipt)
                || bool_decide (ar_digest (rc_artifactRef (cr_receipt row)) ≠ ar_digest (rc_artifactRef receipt)))
        "WORKFLOW_EFFECT_IDEMPOTENCY_CONFLICT"
  | None => insert_receipt_row receipt
  end.

(** [new Date(Date.parse(at) + ms).toISOString()]. *)
Definition iso_after (at_ : string) (ms : option Z) : res string :=
  match Date_parse at_, ms with
  | Some t, Some ms =>
      fail_if (MAX_TIME <? Z.abs (t + ms)) "RangeError";; Ok (toISOString (t + ms))
  | _, _ => Err "RangeError"
  end.

(** [Date.parse(a) <= Date.parse(b)]; false when one is [NaN]. *)
Definition date_le (a b : string) : bool :=
  match Date_parse a, Date_parse b with Some x, Some y => x <=? y | _, _ => false end.

(** *** Messages *)

(** [v.k] on a value that may be no object. *)
Definition member (v : jsval) (k : string) : res jsval :=
  match v with
  | JUndef | JNull => Err "TypeError"
  | JObj o => Ok (get o k)
  | _ => Ok JUndef
  end.
(** [literals.includes(v)]. *)
Definition one_of (v : jsval) (literals : list string) : bool := existsb (is_str v) literals.

(** What [JSON.parse] reads from the text of [JSON.stringify]: members without
    a text are dropped, and such an item is null. *)
Fixpoint json_value (v : jsval) : jsval :=
  match v with
  | JNum NNaN | JNum (NInf _) => JNull
  | JArr l => JArr (map (λ x, match x with JUndef | JFun => JNull | _ => json_value x end) l)
  | JObj o => JObj (flat_map (λ '(k, x),
      match x with JUndef | JFun => [] | _ => [(k, json_value x)] end) o)
  | _ => v
  end.

Definition MESSAGE_TYPES : list string :=
  ["instruction"; "progress"; "milestone"; "question"; "answer"; "result"; "error"; "control"]%string.

Definition optional_id (v : jsval) : bool := is_undef v || authority_safeId v.

Definition validateMessageArtifact (ref : jsval) : res unit :=
  let code := "WORKFLOW_MESSAGE_INVALID"%string in
  artifactId ← member ref "artifactId";
  fail_if (negb (authority_safeId artifactId)) code;;
  value ← member ref "digest"; text ← to_text value;
  fail_if (negb (SHA256 text)) code;;
  mediaType ← member ref "mediaType";
  fail_if (negb (is_string mediaType) || Nat.eqb (length (utf16 (js_str mediaType))) 0
           || Nat.ltb 256 (length (utf16 (js_str mediaType)))) code.

Definition validateWorkflowMessageInput (input : jsobj) : res unit :=
  let code := "WORKFLOW_MESSAGE_INVALID"%string in
  let sender := input .: "sender" in
  let recipient := input .: "recipient" in
  fail_if (negb (is_int (input .: "schemaVersion") 1) || negb (authority_safeId (input .: "messageId"))
           || negb (authority_safeId (input .: "workflowId"))) code;;
  senderKind ← member sender "kind"; senderId ← member sender "id";
  attemptId ← member sender "attemptId";
  fail_if (negb (one_of senderKind ["user"; "runtime"; "node"]%string) || negb (authority_safeId senderId)
           || negb (optional_id attemptId)) code;;
  recipientKind ← member recipient "kind"; recipientId ← member recipient "id";
  fail_if (negb (one_of recipientKind ["workflow"; "node"]%string) || negb (authority_safeId recipientId)
           || negb (one_of (input .: "type") MESSAGE_TYPES)
           || match input .: "payload" with JObj _ => false | _ => true end
           || negb (optional_id (input .: "causationId")) || negb (optional_id (input .: "correlationId"))
           || negb (timestamp (input .: "createdAt"))
           || match JSON_stringify (JObj input) with
              | Some serialized => MAX_MESSAGE_BYTES <? byteLength serialized
              | None => true
              end) code;;
  match input .: "artifactRefs" with
  | JUndef | JNull => Ok tt
  | JArr refs => mapM validateMessageArtifact refs;; Ok tt
  | JStr s => fail_if (negb (bool_decide (s = ""%string))) code
  | _ => Err "TypeError"
  end.

Definition parseWorkflowMessage (value : jsval) : res jsobj :=
  message ← match value with JObj o => Ok o | _ => Err "TypeError" end;
  validateWorkflowMessageInput message;;
  fail_if (negb (positiveInteger (message .: "sequence"))
           || (negb (is_undef (message .: "acknowledgedAt")) && negb (timestamp (message .: "acknowledgedAt"))))
    "WORKFLOW_MESSAGE_CORRUPT";;
  Ok message.

Definition messageInput (message : jsobj) : jsobj :=
  [("schemaVersion"%string, JInt 1); ("messageId"%string, message .: "messageId");
   ("workflowId"%string, message .: "workflowId"); ("sender"%string, message .: "sender");
   ("recipient"%string, message .: "recipient"); ("type"%string, message .: "type");
   ("payload"%string, message .: "payload")]
  ++ (if is_undef (message .: "artifactRefs") then [] else [("artifactRefs"%string, message .: "artifactRefs")])
  ++ (if is_undef (message .: "causationId") then [] else [("causationId"%string, message .: "causationId")])
  ++ (if is_undef (message .: "correlationId") then [] else [("correlationId"%string, message .: "correlationId")])
  ++ [("createdAt"%string, message .: "createdAt")].

(** Sorted keys; a value without a text prints as undefined in the template. *)
Fixpoint canonicalJson (value : jsval) : string :=
  match value with
  | JArr l => "[" +:+ join "," (map canonicalJson l) +:+ "]"
  | JObj o =>
      let members := map (λ '(k, x), (k, json_string k +:+ ":" +:+ canonicalJson x)) o in
      "{" +:+ join "," (js_sort (λ a b,
        match localeCompare a.1 b.1 with Gt => false | _ => true end) members).*2 +:+ "}"
  | _ => default "undefined" (JSON_stringify value)
  end.

Definition find_message (messageId : string) (d : AuthorityDb) : option MessageRow :=
  findb (λ r, bool_decide (gr_messageId r = messageId)) (db_messages d).

(** [SELECT COALESCE(MAX(sequence), 0) + 1]. *)
Definition next_sequence (workflowId : string) (d : AuthorityDb) : Z :=
  foldr (λ r next, if decide (gr_workflowId r = workflowId) then Z.max next (gr_sequence r + 1) else next)
    1 (db_messages d).

Definition insertWorkflowMessage (input : jsobj) : Db jsobj :=
  of_res (validateWorkflowMessageInput input);;
  let messageId := js_str (input .: "messageId") in
  let workflowId := js_str (input .: "workflowId") in
  existing ← select (find_message messageId);
  match existing with
  | Some row =>
      prior ← of_res (parseWorkflowMessage (gr_message row));
      throw_if (negb (bool_decide (canonicalJson (JObj (messageInput prior)) = canonicalJson (JObj input))))
        "WORKFLOW_MESSAGE_ID_CONFLICT";;
      mret prior
  | None =>
      sequence ← select (next_sequence workflowId);
      throw_if (negb (positiveInteger (JInt sequence))) "WORKFLOW_MESSAGE_SEQUENCE_INVALID";;
      let message := mset "sequence" (JInt sequence) input in
      recipientKind ← of_res (member (input .: "recipient") "kind");
      recipientId ← of_res (member (input .: "recipient") "id");
      constraint (λ d, workflow_exists workflowId d
        && negb (existsb (λ r, bool_decide (gr_messageId r = messageId)
             || (bool_decide (gr_workflowId r = workflowId) && (gr_sequence r =? sequence))) (db_messages d)));;
      update (λ d, set_messages (db_messages d ++
        [{| gr_messageId := messageId; gr_workflowId := workflowId; gr_sequence := sequence;
            gr_recipientKind := js_str recipientKind; gr_recipientId := js_str recipientId;
            gr_messageType := js_str (input .: "type"); gr_message := json_value (JObj message);
            gr_acknowledgedAt := None |}]) d);;
      mret message
  end.

(** *** Histories *)

Definition appendInternalEvents (workflowId transactionId at_ : string)
    (data : list WorkflowEventDataV1) : Db WorkflowProjectionV1 :=
  projection ← loadProjection workflowId;
  let events := envelopeEvents (wp_spec projection) (wp_sequence projection) transactionId data at_ in
  next ← of_res (apply_events projection events);
  insertEvents events;;
  saveProjection next;;
  recordTransaction transactionId next;;
  mret next.
End Statements.

