(* ===== verification/WorkflowAuthority.v ===== *)
(** * The Workflow authority: apps/runtime/src/workflow/sqliteWorkflowAuthority.ts

    Every operation of the class SqliteWorkflowAuthorityV1 as a computation over
    the store, its statements and guards in their order.  The writer runs one
    operation after the other: at the end, the operations that may change the
    store as data, and the states that any sequence of them can reach. *)

From S2P Require Import Prelude Js JsOps CanonicalJson Workflow WorkflowReducer WorkflowExecution AuthorityDb AuthorityStatements.
Local Open Scope Z_scope.

Definition SCHEMA_VERSION : Z := 2.
Definition DEFAULT_LEASE_MS : Z := 60000.
Definition MAX_LIST : Z := 500.

(** ** The operations of the class *)

Record WorkflowBootstrap := {
  wb_events : list WorkflowEventDataV1;
  wb_tasks : list WorkflowTaskV1;
  wb_outbox : list WorkflowOutboxMessageV1;
  wb_timers : list WorkflowTimerV1;
  wb_humanTasks : list WorkflowHumanTaskV1;
  wb_effectReceipts : list WorkflowEffectReceiptV1;
}.

Record ClaimOptions := {
  co_workflowId : option string;
  co_nodeId : option string;
  co_kinds : option (list WorkflowTaskKindV1);
  co_leaseMs : option Z;
}.

Record ActiveCapacityGroup := { ac_count : Z; ac_limit : Z }.

Definition terminal_states : list WorkflowStateV1 := [W_cancelled; W_completed; W_failed; W_terminated].

(** [options.values === undefined || values.includes(x)]. *)
Definition allowed {A} `{EqDecision A} (values : option (list A)) (x : A) : bool :=
  match values with None => true | Some l => bool_decide (x ∈ l) end.
(** [option === undefined || option === x]. *)
Definition matches (option_ : option string) (x : string) : bool :=
  match option_ with None => true | Some y => bool_decide (y = x) end.
(** [Math.min(MAX_LIST, Math.max(1, limit ?? 100))]. *)
Definition list_limit (limit_ : option Z) : Z := Z.min MAX_LIST (Z.max 1 (default 100 limit_)).

(** The last claim of a workflow, of the LEFT JOIN with the fairness table. *)
Definition last_claimed (d : AuthorityDb) (workflowId : string) : string :=
  match findb (λ r, bool_decide (fr_workflowId r = workflowId)) (db_fairness d) with
  | Some r => fr_lastClaimedAt r
  | None => ""
  end.

(** INSERT ... ON CONFLICT(workflow_id) DO UPDATE. *)
Definition mset_fairness (workflowId now : string) (rows : list FairnessRow) : list FairnessRow :=
  let row := {| fr_workflowId := workflowId; fr_lastClaimedAt := now |} in
  if existsb (λ r, bool_decide (fr_workflowId r = workflowId)) rows
  then update_rows (λ r, bool_decide (fr_workflowId r = workflowId)) (λ _, row) rows
  else rows ++ [row].

(** [projection.spec.scheduling?.capacityGroups ?? []]. *)
Definition capacity_groups (projection : WorkflowProjectionV1) : list WorkflowCapacityGroupV1 :=
  default [] (ws_scheduling (wp_spec projection)).

Definition add_capacity (groups : list (string * ActiveCapacityGroup)) (group : WorkflowCapacityGroupV1) :
    list (string * ActiveCapacityGroup) :=
  let current := mget (cg_key group) groups in
  mset (cg_key group)
    {| ac_count := from_option ac_count 0 current + 1;
       ac_limit := Z.min (from_option ac_limit (cg_limit group) current) (cg_limit group) |} groups.

Fixpoint activeCapacityGroups (tasks : list WorkflowTaskV1) (groups : list (string * ActiveCapacityGroup)) :
    Db (list (string * ActiveCapacityGroup)) :=
  match tasks with
  | [] => mret groups
  | task :: tasks =>
      projection ← loadProjection (tk_workflowId task);
      activeCapacityGroups tasks (foldl add_capacity groups (capacity_groups projection))
  end.

Definition capacityAvailable (projection : WorkflowProjectionV1)
    (active : list (string * ActiveCapacityGroup)) : bool :=
  forallb (λ group,
    match mget (cg_key group) active with
    | None => true
    | Some occupied => ac_count occupied <? Z.min (ac_limit occupied) (cg_limit group)
    end) (capacity_groups projection).

Definition delegates (kind : WorkflowTaskKindV1) : bool := bool_decide (kind ∈ [kind_agent; kind_subworkflow]).

Definition find_node (projection : WorkflowProjectionV1) (nodeId : string) : option WorkflowNodeProjectionV1 :=
  findb (λ n, bool_decide (np_nodeId n = nodeId)) (wp_nodes projection).
Definition find_attempt (projection : WorkflowProjectionV1) (attemptId : string) :
    option WorkflowAttemptProjectionV1 :=
  findb (λ a, bool_decide (ap_attemptId a = attemptId)) (wp_attempts projection).
(** [projection.attempts.find(({attemptId}) => attemptId === node?.attemptIds.at(-1))]. *)
Definition last_attempt (projection : WorkflowProjectionV1) (node : option WorkflowNodeProjectionV1) :
    option WorkflowAttemptProjectionV1 :=
  node ≫= λ n, last (np_attemptIds n) ≫= find_attempt projection.

Fixpoint find_candidate (p : WorkflowTaskV1 → Db bool) (l : list WorkflowTaskV1) : Db (option WorkflowTaskV1) :=
  match l with
  | [] => mret None
  | task :: l =>
      found ← p task;
      match found with true => mret (Some task) | false => find_candidate p l end
  end.

Section Operations.
Context `{JsEngine} `{JsCrypto} `{RandomUUID}.

(** *** [initialize], [migrate], [close] *)

Definition migrate : Db unit :=
  versions ← select db_schema;
  throw_if (match versions with
            | [] => false
            | [version] => negb (bool_decide (version ∈ [1; SCHEMA_VERSION]))
            | _ => true
            end) "WORKFLOW_SCHEMA_UNSUPPORTED";;
  update (set_schema [SCHEMA_VERSION]).

Definition initialize : Db unit := λ s,
  if st_open s then (Ok tt, s)
  else match migrate s with
  | (Ok _, s') => (Ok tt, {| st_open := true; st_uuids := st_uuids s'; st_db := st_db s' |})
  | (Err code, s') => (Err (mapError code), with_db s' (st_db s))
  end.

Definition close : Db unit := λ s,
  (Ok tt, {| st_open := false; st_uuids := st_uuids s; st_db := st_db s |}).

(** *** Workflows and transactions *)

Definition create (specValue : jsval) (transactionId : string) (bootstrap : WorkflowBootstrap) :
    Db WorkflowProjectionV1 :=
  spec ← of_res (validateWorkflowSpecV1 specValue);
  transaction (
    duplicate ← transactionProjection transactionId;
    match duplicate with
    | Some projection => mret projection
    | None =>
        exists_ ← select (workflow_exists (ws_workflowId spec));
        throw_if exists_ "WORKFLOW_ALREADY_EXISTS";;
        initial ← of_res (initialWorkflowProjectionV1 (Spec_js spec));
        let events := envelopeEvents spec (wp_sequence initial) transactionId
          ([workflow_created (Spec_js spec); workflow_started] ++ wb_events bootstrap) (ws_createdAt spec) in
        projection ← of_res (apply_events initial events);
        update (λ d, set_workflows (db_workflows d ++
          [{| wr_workflowId := ws_workflowId spec; wr_sessionId := ws_sessionId spec;
              wr_state := wp_state projection; wr_projection := projection;
              wr_updatedAt := wp_updatedAt projection |}]) d);;
        insertEvents events;;
        for_each insertTask (wb_tasks bootstrap);;
        for_each insertOutbox (wb_outbox bootstrap);;
        for_each insertTimer (wb_timers bootstrap);;
        for_each insertHumanTask (wb_humanTasks bootstrap);;
        for_each insertEffectReceipt (wb_effectReceipts bootstrap);;
        recordTransaction transactionId projection;;
        mret projection
    end).

(** [effectReservationTerminal] of a transaction. *)
Definition end_reservation (workflowId occurredAt : string) (terminal : EffectReservationTerminal) : Db unit :=
  prior ← select (find_reservation workflowId (rt_idempotencyKey terminal));
  match prior with
  | None => throw "WORKFLOW_EFFECT_RESERVATION_NOT_FOUND"
  | Some reservation =>
      throw_if (bool_decide (rv_attemptId reservation ≠ rt_attemptId terminal))
        "WORKFLOW_EFFECT_RESERVATION_OWNER_MISMATCH";;
      update_reservation workflowId (rt_idempotencyKey terminal)
        (with_reservation reservation (rv_attemptId reservation) (terminal_reservation (rt_state terminal))
           (rv_leaseExpiresAt reservation)
           (or_else (rt_receiptRef terminal) (rv_receiptRef reservation)) occurredAt)
  end.

(** [optional !== undefined]: f(optional). *)
Definition for_option {A} (f : A → Db unit) (x : option A) : Db unit :=
  match x with None => mret tt | Some a => f a end.

(** What a transaction writes besides the history. *)
Definition write_transaction (input : WorkflowTransactionV1) : Db unit :=
  for_each insertTask (wt_enqueueTasks input);;
  for_each insertOutbox (wt_outbox input);;
  for_each insertTimer (wt_timers input);;
  for_each insertHumanTask (wt_humanTasks input);;
  for_each insertEffectReceipt (wt_effectReceipts input);;
  for_each (λ message, match message with
                       | JObj o => insertWorkflowMessage o;; mret tt
                       | _ => throw "TypeError"
                       end) (wt_messages input);;
  for_option (end_reservation (wt_workflowId input) (wt_occurredAt input)) (wt_effectReservationTerminal input);;
  for_option (λ ack, acknowledgeTask ack (wt_occurredAt input)) (wt_acknowledgeTask input);;
  for_each (λ taskId, cancelReadyTask (wt_workflowId input) taskId (wt_occurredAt input))
    (wt_cancelReadyTasks input).

Definition transaction_rejected (input : WorkflowTransactionV1) : bool :=
  negb (AUTHORITY_ID (wt_transactionId input)) || negb (AUTHORITY_ID (wt_workflowId input))
  || negb (nonNegativeInteger (JInt (wt_expectedSequence input)))
  || negb (timestamp (JStr (wt_occurredAt input))).

Definition transact (input : WorkflowTransactionV1) : Db WorkflowProjectionV1 :=
  throw_if (transaction_rejected input) "WORKFLOW_TRANSACTION_INVALID";;
  transaction (
    duplicate ← transactionProjection (wt_transactionId input);
    match duplicate with
    | Some projection => mret projection
    | None =>
        projection ← loadProjection (wt_workflowId input);
        throw_if (negb (wp_sequence projection =? wt_expectedSequence input)) "WORKFLOW_SEQUENCE_CONFLICT";;
        let events := envelopeEvents (wp_spec projection) (wp_sequence projection)
          (wt_transactionId input) (wt_events input) (wt_occurredAt input) in
        next ← of_res (apply_events projection events);
        insertEvents events;;
        write_transaction input;;
        saveProjection next;;
        recordTransaction (wt_transactionId input) next;;
        mret next
    end).

Definition get_workflow (workflowId : string) : Db WorkflowProjectionV1 :=
  database;; loadProjection workflowId.

Definition events (workflowId : string) (afterSequence : Z) : Db (list WorkflowEventV1) :=
  throw_if (negb (nonNegativeInteger (JInt afterSequence))) "WORKFLOW_READ_INVALID";;
  database;;
  rows ← select (λ d, order_by (by_int vr_sequence) (List.filter (λ r,
    bool_decide (vr_workflowId r = workflowId) && (afterSequence <? vr_sequence r)) (db_events d)));
  exists_ ← select (workflow_exists workflowId);
  throw_if (match rows with [] => negb exists_ | _ => false end) "WORKFLOW_NOT_FOUND";;
  mret (vr_event <$> rows).

Definition list_workflows (sessionId : option string) (states : option (list string)) (limit_ : option Z) :
    Db (list WorkflowProjectionV1) :=
  database;;
  rows ← select (λ d, limit (list_limit limit_) (order_by (descending (by_text wr_updatedAt)) (List.filter (λ r,
    matches sessionId (wr_sessionId r) && allowed states (workflow_state_name (wr_state r))) (db_workflows d))));
  projections ← of_res (mapM (λ r, parseProjection (wr_projection r)) rows);
  mret (List.filter (λ p, allowed states (workflow_state_name (wp_state p))) projections).

Definition listTasks (workflowId : option string) (states : option (list WorkflowTaskStateV1))
    (kinds : option (list WorkflowTaskKindV1)) (limit_ : option Z) : Db (list WorkflowTaskV1) :=
  database;;
  rows ← select (λ d, limit (list_limit limit_) (order_by
    (then_by (by_text (λ r, last_claimed d (tr_workflowId r)))
    (then_by (descending (by_int tr_priority))
    (then_by (by_text tr_readyAt) (by_text tr_taskId)))) (List.filter (λ r,
      matches workflowId (tr_workflowId r) && allowed states (tr_state r)
      && allowed kinds (tr_kind r)) (db_tasks d))));
  tasks ← of_res (mapM (λ r, parseTask (tr_task r)) rows);
  mret (List.filter (λ t, allowed states (tk_state t) && allowed kinds (tk_kind t)) tasks).

(** *** Tasks *)

(** The values of the source that the caller passes on without looking at them. *)
Definition effect_cast (v : jsval) : EffectContractV1 :=
  {| ec_class := enum_cast pure (node_field v "class"); ec_idempotencyKey := node_field v "idempotencyKey";
     ec_receiptSchemaRef := node_field v "receiptSchemaRef";
     ec_compensationRef := node_field v "compensationRef";
     ec_requiresApproval := js_bool (node_field v "requiresApproval") |}.
Definition retry_cast (v : jsval) : WorkflowRetryPolicyV1 :=
  {| rp_maxAttempts := js_int (node_field v "maxAttempts");
     rp_initialBackoffMs := js_int (node_field v "initialBackoffMs");
     rp_maxBackoffMs := js_int (node_field v "maxBackoffMs");
     rp_retryableCodes := js_str <$> js_arr (node_field v "retryableCodes") |}.
Definition timeout_cast (v : jsval) : WorkflowTimeoutPolicyV1 :=
  {| to_totalMs := js_int (node_field v "totalMs"); to_noProgressMs := js_int (node_field v "noProgressMs");
     to_heartbeatMs := js_int (node_field v "heartbeatMs") |}.

Definition admitted_task (projection : WorkflowProjectionV1) (taskSpec : WorkflowTaskSpecV1)
    (binding : PlanExecutionBindingV1) (taskId attemptId : string) : WorkflowTaskV1 :=
  let node := xs_node taskSpec in
  {| tk_schemaVersion := 1; tk_taskId := taskId; tk_workflowId := wp_workflowId projection;
     tk_runId := wp_runId projection; tk_nodeId := js_str (node_field node "nodeId");
     tk_attemptId := attemptId; tk_kind := xs_kind taskSpec; tk_profileRef := xs_profileRef taskSpec;
     tk_capabilityBundleRef := None; tk_payload := xs_payload taskSpec; tk_state := task_ready;
     tk_priority := xs_priority taskSpec; tk_readyAt := xs_readyAt taskSpec;
     tk_deadlineAt := xs_deadlineAt taskSpec; tk_conflictKeys := xs_conflictKeys taskSpec;
     tk_effect := effect_cast (node_field node "effect"); tk_retry := retry_cast (node_field node "retry");
     tk_timeout := timeout_cast (node_field node "timeout"); tk_lease := None;
     tk_createdAt := xs_readyAt taskSpec; tk_updatedAt := xs_readyAt taskSpec;
     tk_executionBinding := Some binding |}.

Definition insert_task_request (row : TaskRequestRow) : Db unit :=
  constraint (λ d, workflow_exists (qr_workflowId row) d
    && existsb (λ r, bool_decide (tr_taskId r = qr_taskId row)) (db_tasks d)
    && negb (existsb (λ r, bool_decide (qr_taskId r = qr_taskId row)
         || (bool_decide (qr_workflowId r = qr_workflowId row)
             && bool_decide (qr_requestId r = qr_requestId row))) (db_taskRequests d)));;
  update (λ d, set_taskRequests (db_taskRequests d ++ [row]) d).

Definition find_task_request (workflowId requestId : string) (d : AuthorityDb) : option TaskRequestRow :=
  findb (λ r, bool_decide (qr_workflowId r = workflowId) && bool_decide (qr_requestId r = requestId))
    (db_taskRequests d).

(** The task of a request and whether it was there before. *)
Definition admitTaskForRequest (request : ReviewPlanExecutionRequestV1) (taskSpec : WorkflowTaskSpecV1) :
    Db (WorkflowTaskV1 * bool) :=
  requestDigest ← of_res (workflowTaskRequestDigestV1 request taskSpec);
  binding ← of_res (validatePlanExecutionBindingV1 (Binding_js (xr_binding request)));
  let requestId := eb_requestId (xr_binding request) in
  transaction (
    prior ← select (find_task_request (xr_workflowId request) requestId);
    match prior with
    | Some row =>
        throw_if (bool_decide (qr_requestDigest row ≠ requestDigest)) "WORKFLOW_TASK_REQUEST_CONFLICT";;
        task ← taskById (qr_taskId row);
        mret (task, true)
    | None =>
        projection ← loadProjection (xr_workflowId request);
        throw_if (bool_decide (wp_sessionId projection ≠ eb_sessionId (xr_binding request)))
          "WORKFLOW_TASK_REQUEST_CONFLICT";;
        let at_ := xs_readyAt taskSpec in
        taskUuid ← randomUUID; attemptUuid ← randomUUID;
        let taskId := "task-" +:+ taskUuid in
        let attemptId := "attempt-" +:+ attemptUuid in
        let task := admitted_task projection taskSpec binding taskId attemptId in
        let transactionId := "execution-admit-" +:+ requestId in
        let events := envelopeEvents (wp_spec projection) (wp_sequence projection) transactionId
          [execution_task_admitted requestId requestDigest (xs_node taskSpec)
             (new_attempt attemptId (tk_nodeId task) 1)] at_ in
        next ← of_res (apply_events projection events);
        insertEvents events;;
        insertTask task;;
        insertOutbox {| ob_messageId := "outbox-" +:+ taskId; ob_workflowId := wp_workflowId next;
          ob_topic := "workflow.task.ready"; ob_key := taskId;
          ob_payload := JObj [("taskId"%string, JStr taskId)]; ob_availableAt := at_ |};;
        insert_task_request {| qr_workflowId := wp_workflowId next; qr_requestId := requestId;
          qr_requestDigest := requestDigest; qr_taskId := taskId |};;
        saveProjection next;;
        recordTransaction transactionId next;;
        mret (task, false)
    end).

Definition getTaskByRequestId (workflowId requestId : string) : Db (option WorkflowTaskV1) :=
  throw_if (negb (AUTHORITY_ID workflowId) || negb (AUTHORITY_ID requestId)) "WORKFLOW_TASK_REQUEST_INVALID";;
  database;;
  row ← select (λ d, request ← find_task_request workflowId requestId d;
    findb (λ r, bool_decide (tr_taskId r = qr_taskId request)) (db_tasks d));
  match row with
  | None => mret None
  | Some row => task ← of_res (parseTask (tr_task row)); mret (Some task)
  end.

Definition bindTaskCapabilityBundle (taskId leaseToken : string) (ref : VersionedWorkflowRefV1)
    (at_ : string) : Db WorkflowTaskV1 :=
  throw_if (negb (AUTHORITY_ID taskId) || negb (AUTHORITY_ID leaseToken) || negb (AUTHORITY_ID (vr_id ref))
            || negb (vr_version ref =? 1)
            || match vr_digest ref with Some digest => negb (SHA256 digest) | None => true end
            || negb (timestamp (JStr at_))) "WORKFLOW_EXECUTION_SNAPSHOT_INVALID";;
  transaction (
    task ← taskById taskId;
    throw_if (negb (holds_lease task leaseToken)) "WORKFLOW_LEASE_LOST";;
    throw_if (match tk_capabilityBundleRef task with
              | Some prior => bool_decide (JSON_stringify (VersionedRef_js prior)
                                           ≠ JSON_stringify (VersionedRef_js ref))
              | None => false
              end) "WORKFLOW_EXECUTION_SNAPSHOT_CONFLICT";;
    let updated := task_with_bundle task ref at_ in
    update_task taskId (λ r, put_task (tr_state r) (tr_leaseExpiresAt r) updated r);;
    appendInternalEvents (tk_workflowId task)
      ("execution-snapshot-" +:+ tk_taskId task +:+ "-" +:+ tk_attemptId task) at_
      [execution_snapshot_bound (tk_nodeId task) (tk_attemptId task)
         (JObj [("artifactId", JStr (vr_id ref)); ("digest", JStr (default "" (vr_digest ref)));
                ("mediaType", JStr "application/vnd.praxis.workflow-execution-snapshot+json")]%string)];;
    mret updated).

(** The tasks that a claim looks at, and the tasks under a lease. *)
Definition claim_candidates (now : string) (d : AuthorityDb) : list TaskRow :=
  limit 100 (order_by
    (then_by (descending (by_int tr_priority))
    (then_by (by_text (λ r, last_claimed d (tr_workflowId r)))
    (then_by (by_text tr_readyAt) (by_text tr_taskId)))) (List.filter (λ r,
      bool_decide (tr_state r = task_ready) && string_leb (tr_readyAt r) now
      && existsb (λ w, bool_decide (wr_workflowId w = tr_workflowId r)
                       && bool_decide (wr_state w = W_running)) (db_workflows d)) (db_tasks d))).
Definition leased_rows (now : string) (d : AuthorityDb) : list TaskRow :=
  List.filter (λ r, bool_decide (tr_state r = task_leased)
    && match tr_leaseExpiresAt r with Some at_ => string_ltb now at_ | None => false end) (db_tasks d).

(** The predicate of the [find] over the candidates. *)
Definition claimable (options : ClaimOptions) (occupied : list string)
    (active : list (string * ActiveCapacityGroup)) (candidate : WorkflowTaskV1) : Db bool :=
  if negb (matches (co_workflowId options) (tk_workflowId candidate))
     || negb (matches (co_nodeId options) (tk_nodeId candidate))
     || negb (allowed (co_kinds options) (tk_kind candidate))
     || negb (forallb (λ key, negb (memb key occupied)) (tk_conflictKeys candidate))
  then mret false
  else
    projection ← loadProjection (tk_workflowId candidate);
    mret (bool_decide (np_state <$> find_node projection (tk_nodeId candidate) = Some N_scheduled)
          && (negb (delegates (tk_kind candidate)) || capacityAvailable projection active)).

Definition claim (workerId : string) (options : ClaimOptions) (now : string) :
    Db (option (WorkflowTaskV1 * WorkflowTaskLeaseV1)) :=
  throw_if (negb (AUTHORITY_ID workerId)) "WORKFLOW_WORKER_INVALID";;
  let leaseMs := default DEFAULT_LEASE_MS (co_leaseMs options) in
  throw_if (negb (timestamp (JStr now)) || negb (isSafeInteger (JInt leaseMs)) || (leaseMs <? 1000))
    "WORKFLOW_LEASE_INVALID";;
  transaction (
    candidates ← select (claim_candidates now);
    active ← select (leased_rows now);
    leasedTasks ← of_res (mapM (λ r, parseTask (tr_task r)) active);
    let activeTasks := List.filter (λ t, delegates (tk_kind t)) leasedTasks in
    let occupied := flat_map tk_conflictKeys leasedTasks in
    activeCapacity ← activeCapacityGroups activeTasks [];
    tasks ← of_res (mapM (λ r, parseTask (tr_task r)) candidates);
    found ← find_candidate (claimable options occupied activeCapacity) tasks;
    match found with
    | None => mret None
    | Some task =>
        token ← randomUUID;
        expiresAt ← of_res (iso_after now (Some leaseMs));
        let lease := {| le_token := "lease-" +:+ token; le_workerId := workerId; le_acquiredAt := now;
                        le_expiresAt := expiresAt; le_lastHeartbeatAt := now; le_lastProgressAt := now |} in
        let leased := task_with task task_leased (Some lease) now in
        update (λ d, set_tasks (update_rows
          (λ r, bool_decide (tr_taskId r = tk_taskId task) && bool_decide (tr_state r = task_ready))
          (put_task task_leased (Some expiresAt) leased) (db_tasks d)) d);;
        constraint (workflow_exists (tk_workflowId task));;
        update (λ d, set_fairness (mset_fairness (tk_workflowId task) now (db_fairness d)) d);;
        appendInternalEvents (tk_workflowId task) ("claim-" +:+ tk_taskId task +:+ "-" +:+ le_token lease) now
          [node_change (tk_nodeId task) N_leased None;
           attempt_state_changed {| asc_attemptId := tk_attemptId task; asc_state := A_leased;
             asc_leaseToken := Some (le_token lease); asc_workerId := Some workerId; asc_at := now;
             asc_errorCode := None; asc_resultRef := JUndef; asc_receiptRef := JUndef |}];;
        mret (Some (leased, lease))
    end).

Definition heartbeat (taskId leaseToken : string) (progress : bool) (now : string) : Db WorkflowTaskLeaseV1 :=
  transaction (
    task ← taskById taskId;
    match tk_lease task with
    | Some held =>
        throw_if (negb (holds_lease task leaseToken) || date_le (le_expiresAt held) now) "WORKFLOW_LEASE_LOST";;
        expiresAt ← of_res (iso_after now (Some (Z.max 1000 (to_heartbeatMs (tk_timeout task) * 3))));
        let lease := lease_with held expiresAt now (if progress then now else le_lastProgressAt held) in
        update_task taskId (λ r, put_task (tr_state r) (Some expiresAt)
          (task_with task (tk_state task) (Some lease) now) r);;
        mret lease
    | None => throw "WORKFLOW_LEASE_LOST"
    end).

(** *** Recovery of expired leases *)

Definition expired_rows (now : string) (d : AuthorityDb) : list TaskRow :=
  order_by (by_text (λ r, default "" (tr_leaseExpiresAt r))) (List.filter (λ r,
    bool_decide (tr_state r = task_leased)
    && match tr_leaseExpiresAt r with Some at_ => string_leb at_ now | None => false end) (db_tasks d)).

(** The branch of a workflow that has ended. *)
Definition recover_terminal (now : string) (task : WorkflowTaskV1) (projection : WorkflowProjectionV1)
    (oldAttempt : WorkflowAttemptProjectionV1) : Db unit :=
  update_task (tk_taskId task) (put_task task_cancelled None (task_with task task_cancelled None now));;
  let code := Some "WORKFLOW_PARENT_TERMINAL"%string in
  appendInternalEvents (tk_workflowId task)
    ("recover-terminal-" +:+ tk_taskId task +:+ "-" +:+ pretty (wp_sequence projection)) now
    ((if bool_decide (ap_state oldAttempt ∈ [A_succeeded; A_failed; A_cancelled; A_unknown]) then []
      else [attempt_change (tk_attemptId task) A_cancelled now code])
     ++ match find_node projection (tk_nodeId task) with
        | None => []
        | Some node =>
            if bool_decide (np_state node ∈ [N_succeeded; N_failed; N_cancelled; N_skipped; N_unknown]) then []
            else [node_change (tk_nodeId task) N_cancelled code]
        end);;
  mret tt.

Definition recovery_decision (task : WorkflowTaskV1) (oldAttempt : WorkflowAttemptProjectionV1) :
    WorkflowRecoveryDecisionV1 :=
  let safe := bool_decide (ec_class (tk_effect task) ∈ recoverable_classes) in
  let mayRetry := safe && (ap_ordinal oldAttempt <? rp_maxAttempts (tk_retry task)) in
  {| rd_taskId := tk_taskId task; rd_attemptId := tk_attemptId task; rd_priorState := ap_state oldAttempt;
     rd_decision := if mayRetry then recover_retry
                    else if safe then recover_manual_intervention else recover_unknown;
     rd_code := if mayRetry then "LEASE_EXPIRED_RETRYABLE"
                else if safe then "LEASE_EXPIRED_ATTEMPTS_EXHAUSTED"
                else "LEASE_EXPIRED_EFFECT_UNKNOWN" |}.

(** The new attempt of a task that may be repeated, and its events. *)
Definition recover_with_retry (now code : string) (task : WorkflowTaskV1)
    (oldAttempt : WorkflowAttemptProjectionV1) : Db (list WorkflowEventDataV1) :=
  attemptUuid ← randomUUID; taskUuid ← randomUUID;
  let attemptId := "attempt-" +:+ attemptUuid in
  retryAt ← of_res (iso_after now (backoffMs task (ap_ordinal oldAttempt)));
  insertTask (retry_task task ("task-" +:+ taskUuid) attemptId retryAt now);;
  (if bool_decide (ec_class (tk_effect task) = external_idempotent)
      && negb (is_undef (ec_idempotencyKey (tk_effect task)))
   then releaseEffectReservation (tk_workflowId task) (js_str (ec_idempotencyKey (tk_effect task)))
          (tk_attemptId task) now
   else mret tt);;
  mret [attempt_change (tk_attemptId task) A_failed now (Some code);
        node_change (tk_nodeId task) N_failed (Some code);
        node_change (tk_nodeId task) N_retry_wait (Some code);
        attempt_created (new_attempt attemptId (tk_nodeId task) (ap_ordinal oldAttempt + 1));
        node_change (tk_nodeId task) N_scheduled None].

Definition recover_row (now : string) (row : TaskRow) : Db (option WorkflowRecoveryDecisionV1) :=
  task ← of_res (parseTask (tr_task row));
  projection ← loadProjection (tk_workflowId task);
  match find_attempt projection (tk_attemptId task) with
  | None => throw "WORKFLOW_ATTEMPT_NOT_FOUND"
  | Some oldAttempt =>
      if bool_decide (wp_state projection ∈ terminal_states) then
        recover_terminal now task projection oldAttempt;; mret None
      else
        let taken := recovery_decision task oldAttempt in
        let code := rd_code taken in
        let state := match rd_decision taken with recover_unknown => task_unknown | _ => task_failed end in
        update_task (tk_taskId task) (put_task state None (task_with task state None now));;
        more ← match rd_decision taken with
          | recover_retry => recover_with_retry now code task oldAttempt
          | recover_manual_intervention =>
              mret [attempt_change (tk_attemptId task) A_manual_intervention now (Some code);
                    node_change (tk_nodeId task) N_manual_intervention (Some code)]
          | recover_unknown => mret []
          end;
        eventUuid ← randomUUID;
        appendInternalEvents (tk_workflowId task)
          ("recover-" +:+ tk_taskId task +:+ "-" +:+ eventUuid) now
          ([attempt_change (tk_attemptId task) A_unknown now (Some code);
            node_change (tk_nodeId task) N_unknown (Some code)] ++ more);;
        mret (Some taken)
  end.

Definition recoverExpired (now : string) : Db (list WorkflowRecoveryDecisionV1) :=
  transaction (
    rows ← select (expired_rows now);
    decisions ← for_map (recover_row now) rows;
    mret (omap id decisions)).

(** *** Signals and messages *)

Definition resumed (projection : WorkflowProjectionV1) : list WorkflowEventDataV1 :=
  if bool_decide (wp_state projection = W_waiting) then [workflow_resumed] else [].

Definition signal (input : WorkflowSignalV1) : Db bool :=
  throw_if (negb (AUTHORITY_ID (sg_signalId input)) || negb (AUTHORITY_ID (sg_workflowId input))
            || negb (AUTHORITY_ID (sg_name input)) || negb (timestamp (JStr (sg_receivedAt input))))
    "WORKFLOW_SIGNAL_INVALID";;
  transaction (
    projection ← loadProjection (sg_workflowId input);
    present ← select (λ d, existsb (λ r, bool_decide (sg_workflowId r = sg_workflowId input)
      && bool_decide (sg_signalId r = sg_signalId input)) (db_signals d));
    match present with
    | true => mret false
    | false =>
        update (λ d, set_signals (db_signals d ++ [input]) d);;
        appendInternalEvents (sg_workflowId input) ("signal-" +:+ sg_signalId input) (sg_receivedAt input)
          ([signal_received (sg_signalId input) (sg_name input)] ++ resumed projection);;
        mret true
    end).

Definition postMessage (input : jsobj) : Db jsobj :=
  transaction (
    existing ← select (find_message (js_str (input .: "messageId")));
    match existing with
    | Some row =>
        prior ← of_res (parseWorkflowMessage (gr_message row));
        throw_if (negb (identical (prior .: "workflowId") (input .: "workflowId"))
                  || negb (bool_decide (canonicalJson (JObj (messageInput prior)) = canonicalJson (JObj input))))
          "WORKFLOW_MESSAGE_ID_CONFLICT";;
        mret prior
    | None =>
        loadProjection (js_str (input .: "workflowId"));;
        insertWorkflowMessage input
    end).

(** The rows addressed to a node. *)
Definition for_node (nodeId : string) (r : MessageRow) : bool :=
  bool_decide (gr_recipientKind r = "node"%string) && bool_decide (gr_recipientId r = nodeId).

Definition listMessages (workflowId : string) (recipientNodeId : option string) (afterSequence_ : option Z)
    (types : option (list string)) (includeAcknowledged : bool) (limit_ : option Z) : Db (list jsobj) :=
  let afterSequence := default 0 afterSequence_ in
  throw_if (negb (AUTHORITY_ID workflowId)
            || match recipientNodeId with Some nodeId => negb (AUTHORITY_ID nodeId) | None => false end
            || negb (nonNegativeInteger (JInt afterSequence))) "WORKFLOW_MESSAGE_READ_INVALID";;
  database;;
  rows ← select (λ d, limit (list_limit limit_) (order_by (by_int gr_sequence) (List.filter (λ r,
    bool_decide (gr_workflowId r = workflowId) && (afterSequence <? gr_sequence r)
    && match recipientNodeId with Some nodeId => for_node nodeId r | None => true end
    && (includeAcknowledged || is_none (gr_acknowledgedAt r))
    && allowed types (gr_messageType r)) (db_messages d))));
  of_res (mapM (λ r, parseWorkflowMessage (gr_message r)) rows).

(** The UPDATE of one message; the number of its changes. *)
Definition acknowledge_row (at_ : string) (row : MessageRow) : Db Z :=
  message ← of_res (parseWorkflowMessage (gr_message row));
  let open r := bool_decide (gr_messageId r = gr_messageId row) && is_none (gr_acknowledgedAt r) in
  changes ← select (λ d, Z.of_nat (length (List.filter open (db_messages d))));
  update (λ d, set_messages (update_rows open (λ r,
    {| gr_messageId := gr_messageId r; gr_workflowId := gr_workflowId r; gr_sequence := gr_sequence r;
       gr_recipientKind := gr_recipientKind r; gr_recipientId := gr_recipientId r;
       gr_messageType := gr_messageType r;
       gr_message := json_value (JObj (mset "acknowledgedAt" (JStr at_) message));
       gr_acknowledgedAt := Some at_ |}) (db_messages d)) d);;
  mret changes.

Definition acknowledgeMessages (workflowId recipientNodeId : string) (throughSequence : Z) (at_ : string) :
    Db Z :=
  throw_if (negb (AUTHORITY_ID workflowId) || negb (AUTHORITY_ID recipientNodeId)
            || negb (positiveInteger (JInt throughSequence)) || negb (timestamp (JStr at_)))
    "WORKFLOW_MESSAGE_ACK_INVALID";;
  transaction (
    loadProjection workflowId;;
    rows ← select (λ d, order_by (by_int gr_sequence) (List.filter (λ r,
      bool_decide (gr_workflowId r = workflowId) && for_node recipientNodeId r
      && (gr_sequence r <=? throughSequence) && is_none (gr_acknowledgedAt r)) (db_messages d)));
    changes ← for_map (acknowledge_row at_) rows;
    mret (reduce_sum id changes)).

Definition acknowledgeMessage (workflowId messageId recipientNodeId at_ : string) : Db bool :=
  throw_if (negb (AUTHORITY_ID workflowId) || negb (AUTHORITY_ID messageId)
            || negb (AUTHORITY_ID recipientNodeId) || negb (timestamp (JStr at_)))
    "WORKFLOW_MESSAGE_ACK_INVALID";;
  transaction (
    found ← select (λ d, findb (λ r, bool_decide (gr_workflowId r = workflowId)
      && bool_decide (gr_messageId r = messageId) && for_node recipientNodeId r) (db_messages d));
    match found with
    | None => throw "WORKFLOW_MESSAGE_NOT_FOUND"
    | Some row =>
        message ← of_res (parseWorkflowMessage (gr_message row));
        if negb (is_undef (message .: "acknowledgedAt")) then mret false
        else changes ← acknowledge_row at_ row; mret (changes =? 1)
    end).

(** *** Timers and human tasks *)

(** The events of a node that waited, after its timer or human task has ended. *)
Definition end_waiting (projection : WorkflowProjectionV1) (nodeId : string) (kind : WorkflowNodeKindV1)
    (change : string → list WorkflowEventDataV1) : list WorkflowEventDataV1 :=
  let node := find_node projection nodeId in
  let spec := findb (λ n, bool_decide (ns_nodeId n = nodeId)) (ws_nodes (wp_spec projection)) in
  match node ≫= λ n, last (np_attemptIds n) with
  | Some attemptId =>
      if bool_decide (np_state <$> node = Some N_waiting) && bool_decide (ns_kind <$> spec = Some kind)
      then change attemptId else []
  | None => []
  end.

Definition fire_timer (now : string) (row : TimerRow) : Db (option WorkflowTimerV1) :=
  let timer := mr_timer row in
  let unfired r := bool_decide (ti_timerId (mr_timer r) = ti_timerId timer) && is_none (mr_firedAt r) in
  changes ← select (λ d, Z.of_nat (length (List.filter unfired (db_timers d))));
  update (λ d, set_timers (update_rows unfired
    (λ r, {| mr_timer := mr_timer r; mr_firedAt := Some now |}) (db_timers d)) d);;
  if negb (changes =? 1) then mret None
  else
    projection ← loadProjection (ti_workflowId timer);
    appendInternalEvents (ti_workflowId timer) ("timer-" +:+ ti_timerId timer) now
      ([timer_fired (ti_timerId timer) (ti_nodeId timer)]
       ++ end_waiting projection (ti_nodeId timer) Workflow.timer (λ attemptId,
            [attempt_change attemptId A_succeeded now None;
             node_change (ti_nodeId timer) N_succeeded None])
       ++ resumed projection);;
    mret (Some timer).

Definition fireDueTimers (now : string) : Db (list WorkflowTimerV1) :=
  throw_if (negb (timestamp (JStr now))) "WORKFLOW_TIMER_INVALID";;
  transaction (
    rows ← select (λ d, order_by
      (then_by (by_text (λ r, ti_fireAt (mr_timer r))) (by_text (λ r, ti_timerId (mr_timer r))))
      (List.filter (λ r, is_none (mr_firedAt r) && string_leb (ti_fireAt (mr_timer r)) now) (db_timers d)));
    fired ← for_map (fire_timer now) rows;
    mret (omap id fired)).

Definition listHumanTasks (workflowId : string) (states : option (list WorkflowHumanTaskStateV1)) :
    Db (list WorkflowHumanTaskV1) :=
  throw_if (negb (AUTHORITY_ID workflowId)) "WORKFLOW_HUMAN_TASK_INVALID";;
  database;;
  rows ← select (λ d, order_by (by_text hr_humanTaskId) (List.filter (λ r,
    bool_decide (hr_workflowId r = workflowId)) (db_humanTasks d)));
  mret (List.filter (λ t, allowed states (ht_state t)) (hr_task <$> rows)).

Definition resolveHumanTask (humanTaskId : string) (state : WorkflowHumanTaskStateV1) (resolution : jsval)
    (at_ : string) : Db WorkflowHumanTaskV1 :=
  throw_if (negb (AUTHORITY_ID humanTaskId) || negb (timestamp (JStr at_)) || bool_decide (state = human_waiting))
    "WORKFLOW_HUMAN_TASK_INVALID";;
  transaction (
    row ← select (λ d, findb (λ r, bool_decide (hr_humanTaskId r = humanTaskId)) (db_humanTasks d));
    match row with
    | None => throw "WORKFLOW_HUMAN_TASK_NOT_FOUND"
    | Some row =>
        let task := hr_task row in
        if bool_decide (ht_state task ≠ human_waiting) then mret task
        else
          let resolved := {| ht_humanTaskId := ht_humanTaskId task; ht_workflowId := ht_workflowId task;
            ht_nodeId := ht_nodeId task; ht_state := state; ht_request := ht_request task;
            ht_expiresAt := ht_expiresAt task; ht_resolution := Some resolution |} in
          update (λ d, set_humanTasks (update_rows
            (λ r, bool_decide (hr_humanTaskId r = humanTaskId) && bool_decide (hr_state r = human_waiting))
            (λ r, {| hr_humanTaskId := hr_humanTaskId r; hr_workflowId := hr_workflowId r;
                     hr_state := state; hr_task := resolved; hr_expiresAt := hr_expiresAt r |})
            (db_humanTasks d)) d);;
          projection ← loadProjection (ht_workflowId task);
          let code := if bool_decide (state = human_allowed) then None
                      else Some ("WORKFLOW_HUMAN_TASK_" +:+ human_state_upper state) in
          let '(attempt, node) := match state with
            | human_allowed => (A_succeeded, N_succeeded)
            | human_cancelled => (A_cancelled, N_cancelled)
            | _ => (A_failed, N_failed)
            end in
          appendInternalEvents (ht_workflowId task)
            ("human-" +:+ humanTaskId +:+ "-" +:+ human_state_name state) at_
            ([human_task_resolved humanTaskId (ht_nodeId task) (human_state_name state)]
             ++ end_waiting projection (ht_nodeId task) human_task (λ attemptId,
                  [attempt_change attemptId attempt at_ code; node_change (ht_nodeId task) node code])
             ++ resumed projection);;
          mret resolved
    end).

(** Each task is resolved in a transaction of its own. *)
Definition expireDueHumanTasks (now : string) : Db (list WorkflowHumanTaskV1) :=
  throw_if (negb (timestamp (JStr now))) "WORKFLOW_HUMAN_TASK_INVALID";;
  database;;
  rows ← select (λ d, order_by
    (then_by (by_text (λ r, default "" (hr_expiresAt r))) (by_text hr_humanTaskId))
    (List.filter (λ r, bool_decide (hr_state r = human_waiting)
      && match hr_expiresAt r with Some at_ => string_leb at_ now | None => false end) (db_humanTasks d)));
  for_map (λ r, resolveHumanTask (ht_humanTaskId (hr_task r)) human_expired
    (JObj [("reason", JStr "deadline")]%string) now) rows.

(** *** Effects *)

Definition getEffectReceipt (workflowId idempotencyKey : string) : Db (option WorkflowEffectReceiptV1) :=
  throw_if (negb (AUTHORITY_ID workflowId) || negb (AUTHORITY_ID idempotencyKey)) "WORKFLOW_EFFECT_RECEIPT_INVALID";;
  database;;
  select (λ d, cr_receipt <$> findb (λ r, bool_decide (cr_workflowId r = workflowId)
    && same_key (cr_idempotencyKey r) (Some idempotencyKey)) (db_receipts d)).

Definition getEffectReceiptByRequestId (workflowId requestId : string) : Db (option WorkflowEffectReceiptV1) :=
  throw_if (negb (AUTHORITY_ID workflowId) || negb (AUTHORITY_ID requestId)) "WORKFLOW_EFFECT_RECEIPT_INVALID";;
  database;;
  select (λ d, cr_receipt <$> findb (λ r, bool_decide (cr_workflowId r = workflowId)
    && same_key (cr_requestId r) (Some requestId)) (db_receipts d)).

Definition listEffectReceipts (workflowId : string) : Db (list WorkflowEffectReceiptV1) :=
  throw_if (negb (AUTHORITY_ID workflowId)) "WORKFLOW_EFFECT_RECEIPT_INVALID";;
  database;;
  select (λ d, cr_receipt <$> order_by (then_by (by_text cr_createdAt) (by_text cr_receiptId))
    (List.filter (λ r, bool_decide (cr_workflowId r = workflowId)) (db_receipts d))).

Definition find_effect_request (workflowId requestId : string) (d : AuthorityDb) : option WorkflowEffectRequestV1 :=
  er_request <$> findb (λ r, bool_decide (er_workflowId r = workflowId)
    && bool_decide (er_requestId r = requestId)) (db_effectRequests d).

Definition getEffectRequestByRequestId (workflowId requestId : string) : Db (option WorkflowEffectRequestV1) :=
  throw_if (negb (AUTHORITY_ID workflowId) || negb (AUTHORITY_ID requestId)) "WORKFLOW_EFFECT_REQUEST_INVALID";;
  database;;
  select (find_effect_request workflowId requestId).

(** The request and whether it was there before. *)
Definition reserveEffectRequest (input : ReviewPlanExecutionRequestV1) (requestDigest : string)
    (effectKind : WorkflowEffectClassV1) (externalIdempotencyKey leaseExpiresAt : option string) (at_ : string) :
    Db (WorkflowEffectRequestV1 * bool) :=
  binding ← of_res (validatePlanExecutionBindingV1 (Binding_js (xr_binding input)));
  throw_if (negb (AUTHORITY_ID (xr_workflowId input)) || negb (SHA256 requestDigest)
            || negb (bool_decide (effectKind ∈ effectful_classes))
            || (bool_decide (effectKind = external_idempotent)
                && match externalIdempotencyKey with Some key => negb (AUTHORITY_ID key) | None => true end)
            || (bool_decide (effectKind ≠ external_idempotent) && negb (is_none externalIdempotencyKey))
            || match leaseExpiresAt with Some lease => negb (timestamp (JStr lease)) | None => false end
            || negb (timestamp (JStr at_))) "WORKFLOW_EFFECT_REQUEST_INVALID";;
  let requestId := eb_requestId (xr_binding input) in
  let request := {| rq_workflowId := xr_workflowId input; rq_requestId := requestId;
    rq_requestDigest := requestDigest; rq_effectKind := effectKind; rq_executionBinding := binding;
    rq_externalIdempotencyKey := externalIdempotencyKey; rq_state := rq_reserved;
    rq_leaseExpiresAt := leaseExpiresAt; rq_receiptId := None; rq_receiptRef := None;
    rq_createdAt := at_; rq_updatedAt := at_ |} in
  transaction (
    projection ← loadProjection (xr_workflowId input);
    throw_if (bool_decide (wp_sessionId projection ≠ eb_sessionId (xr_binding input)))
      "WORKFLOW_EFFECT_REQUEST_CONFLICT";;
    prior ← select (find_effect_request (xr_workflowId input) requestId);
    match prior with
    | Some prior =>
        priorText ← of_res (canonicalJsonV1 (Binding_js (rq_executionBinding prior)));
        text ← of_res (canonicalJsonV1 (Binding_js binding));
        throw_if (bool_decide (rq_requestDigest prior ≠ requestDigest) || bool_decide (priorText ≠ text))
          "WORKFLOW_EFFECT_REQUEST_CONFLICT";;
        mret (prior, true)
    | None =>
        constraint (workflow_exists (xr_workflowId input));;
        update (λ d, set_effectRequests (db_effectRequests d ++
          [{| er_workflowId := rq_workflowId request; er_requestId := requestId; er_request := request |}]) d);;
        mret (request, false)
    end).

(** The decision on a reservation that is already there. *)
Definition reservation_decision (prior : WorkflowEffectReservationV1) (inputDigest : string) : AdmissionDecisionV1 :=
  if bool_decide (rv_inputDigest prior ≠ inputDigest) then admit_conflict
  else match rv_state prior with
  | rsv_committed => admit_replay
  | rsv_released => admit_execute
  | rsv_reserved | rsv_unknown => admit_in_progress
  end.

Definition reserve_event (workflowId idempotencyKey inputDigest attemptId at_ : string) : Db unit :=
  task ← taskForAttempt workflowId attemptId;
  appendInternalEvents workflowId ("effect-reserved-" +:+ attemptId) at_
    [effect_reserved (tk_nodeId task) attemptId idempotencyKey inputDigest];;
  mret tt.

Definition reserveEffect (workflowId idempotencyKey inputDigest attemptId leaseExpiresAt at_ : string) :
    Db (AdmissionDecisionV1 * WorkflowEffectReservationV1) :=
  throw_if (negb (AUTHORITY_ID workflowId) || negb (AUTHORITY_ID idempotencyKey) || negb (AUTHORITY_ID attemptId)
            || negb (SHA256 inputDigest) || negb (timestamp (JStr leaseExpiresAt))
            || negb (timestamp (JStr at_))) "WORKFLOW_EFFECT_RESERVATION_INVALID";;
  transaction (
    row ← select (find_reservation workflowId idempotencyKey);
    match row with
    | Some prior =>
        match reservation_decision prior inputDigest with
        | admit_execute =>
            let renewed := with_reservation prior attemptId rsv_reserved leaseExpiresAt None at_ in
            update_reservation workflowId idempotencyKey renewed;;
            reserve_event workflowId idempotencyKey inputDigest attemptId at_;;
            mret (admit_execute, renewed)
        | admit_replay =>
            task ← taskForAttempt workflowId attemptId;
            appendInternalEvents workflowId ("effect-replayed-" +:+ attemptId) at_
              [effect_replayed (tk_nodeId task) attemptId idempotencyKey];;
            mret (admit_replay, prior)
        | other => mret (other, prior)
        end
    | None =>
        let reservation := {| rv_workflowId := workflowId; rv_idempotencyKey := idempotencyKey;
          rv_inputDigest := inputDigest; rv_attemptId := attemptId; rv_state := rsv_reserved;
          rv_leaseExpiresAt := leaseExpiresAt; rv_receiptRef := None; rv_updatedAt := at_ |} in
        update (λ d, set_reservations (db_reservations d ++
          [{| sr_workflowId := workflowId; sr_idempotencyKey := idempotencyKey;
              sr_reservation := reservation |}]) d);;
        reserve_event workflowId idempotencyKey inputDigest attemptId at_;;
        mret (admit_execute, reservation)
    end).

Definition compensated (source compensation : WorkflowEffectReceiptV1) (at_ : string) : WorkflowEffectReceiptV1 :=
  {| rc_receiptId := rc_receiptId source; rc_workflowId := rc_workflowId source;
     rc_nodeId := rc_nodeId source; rc_attemptId := rc_attemptId source;
     rc_effectClass := rc_effectClass source; rc_idempotencyKey := rc_idempotencyKey source;
     rc_state := receipt_compensated; rc_artifactRef := rc_artifactRef source;
     rc_createdAt := rc_createdAt source; rc_compensatedAt := Some at_;
     rc_compensationReceiptRef := Some (rc_artifactRef compensation); rc_requestId := rc_requestId source;
     rc_executionBinding := rc_executionBinding source; rc_changedFilesDigest := rc_changedFilesDigest source;
     rc_workspaceEvidenceRef := rc_workspaceEvidenceRef source; rc_source := rc_source source;
     rc_attestationDigest := rc_attestationDigest source |}.

Definition markEffectCompensated (workflowId sourceId compensationId at_ : string) : Db WorkflowEffectReceiptV1 :=
  throw_if (negb (AUTHORITY_ID workflowId) || negb (AUTHORITY_ID sourceId) || negb (AUTHORITY_ID compensationId)
            || bool_decide (sourceId = compensationId) || negb (timestamp (JStr at_)))
    "WORKFLOW_COMPENSATION_INVALID";;
  transaction (
    let artifact id r := bool_decide (ar_artifactId (rc_artifactRef r) = id) in
    receipts ← select (λ d, cr_receipt <$> List.filter (λ r, bool_decide (cr_workflowId r = workflowId)
      && (artifact sourceId (cr_receipt r) || artifact compensationId (cr_receipt r))) (db_receipts d));
    match findb (artifact sourceId) receipts, findb (artifact compensationId) receipts with
    | Some source, Some other =>
        throw_if (bool_decide (rc_state other ≠ receipt_committed)) "WORKFLOW_COMPENSATION_RECEIPT_NOT_FOUND";;
        if bool_decide (rc_state source = receipt_compensated) then
          throw_if (negb (bool_decide (ar_artifactId <$> rc_compensationReceiptRef source = Some compensationId)))
            "WORKFLOW_COMPENSATION_CONFLICT";;
          mret source
        else
          let updated := compensated source other at_ in
          update (λ d, set_receipts (update_rows
            (λ r, bool_decide (cr_receiptId r = rc_receiptId source) && bool_decide (cr_state r = receipt_committed))
            (λ r, {| cr_receiptId := cr_receiptId r; cr_workflowId := cr_workflowId r;
                     cr_idempotencyKey := cr_idempotencyKey r; cr_requestId := cr_requestId r;
                     cr_state := receipt_compensated; cr_receipt := updated; cr_createdAt := cr_createdAt r |})
            (db_receipts d)) d);;
          appendInternalEvents workflowId
            ("compensate-" +:+ rc_receiptId source +:+ "-" +:+ rc_receiptId other) at_
            [effect_compensated (rc_receiptId source) (rc_receiptId other) (rc_nodeId source)];;
          mret updated
    | _, _ => throw "WORKFLOW_COMPENSATION_RECEIPT_NOT_FOUND"
    end).

(** *** Retries and unknown outcomes *)

Definition retryNode (workflowId nodeId at_ : string) : Db WorkflowProjectionV1 :=
  throw_if (negb (AUTHORITY_ID workflowId) || negb (AUTHORITY_ID nodeId) || negb (timestamp (JStr at_)))
    "WORKFLOW_RETRY_INVALID";;
  transaction (
    projection ← loadProjection workflowId;
    let node := find_node projection nodeId in
    match last_attempt projection node with
    | Some attempt =>
        throw_if (negb (bool_decide (np_state <$> node = Some N_failed)) || bool_decide (ap_state attempt ≠ A_failed))
          "WORKFLOW_RETRY_INVALID_STATE";;
        row ← select (λ d, head (order_by (descending (by_text tr_createdAt)) (List.filter (λ r,
          bool_decide (tr_workflowId r = workflowId) && bool_decide (tr_nodeId r = nodeId)) (db_tasks d))));
        match row with
        | None => throw "WORKFLOW_TASK_NOT_FOUND"
        | Some row =>
            prior ← of_res (parseTask (tr_task row));
            throw_if (rp_maxAttempts (tk_retry prior) <=? ap_ordinal attempt) "WORKFLOW_RETRY_EXHAUSTED";;
            attemptUuid ← randomUUID;
            let attemptId := "attempt-" +:+ attemptUuid in
            retryAt ← of_res (iso_after at_ (backoffMs prior (ap_ordinal attempt)));
            taskUuid ← randomUUID;
            let task := retry_task prior ("task-" +:+ taskUuid) attemptId retryAt at_ in
            appendInternalEvents workflowId ("retry-" +:+ tk_taskId task) at_
              [node_change nodeId N_retry_wait None;
               attempt_created (new_attempt attemptId nodeId (ap_ordinal attempt + 1));
               node_change nodeId N_scheduled None];;
            insertTask task;;
            loadProjection workflowId
        end
    | None => throw "WORKFLOW_RETRY_INVALID_STATE"
    end).

Inductive ResolutionV1 := resolve_succeeded | resolve_failed | resolve_manual_intervention.
Definition resolution_states (resolution : ResolutionV1) : WorkflowAttemptStateV1 * WorkflowNodeStateV1 :=
  match resolution with
  | resolve_succeeded => (A_succeeded, N_succeeded)
  | resolve_failed => (A_failed, N_failed)
  | resolve_manual_intervention => (A_manual_intervention, N_manual_intervention)
  end.

Definition resolveUnknown (workflowId nodeId : string) (resolution : ResolutionV1) (code : option string)
    (at_ : string) : Db WorkflowProjectionV1 :=
  throw_if (negb (AUTHORITY_ID workflowId) || negb (AUTHORITY_ID nodeId) || negb (timestamp (JStr at_)))
    "WORKFLOW_RESOLUTION_INVALID";;
  projection ← get_workflow workflowId;
  let node := find_node projection nodeId in
  match last_attempt projection node with
  | Some attempt =>
      throw_if (negb (bool_decide (np_state <$> node = Some N_unknown)) || bool_decide (ap_state attempt ≠ A_unknown))
        "WORKFLOW_RESOLUTION_INVALID_STATE";;
      tasks ← listTasks (Some workflowId) (Some [task_unknown]) None (Some MAX_LIST);
      let task := findb (λ t, bool_decide (tk_attemptId t = ap_attemptId attempt)) tasks in
      let key := match task with Some t => ec_idempotencyKey (tk_effect t) | None => JUndef end in
      throw_if (match resolution with resolve_succeeded => true | _ => false end
                && negb (is_undef key) && is_undef (ap_receiptRef attempt)) "WORKFLOW_EFFECT_RECEIPT_REQUIRED";;
      let '(attemptState, nodeState) := resolution_states resolution in
      transact {| wt_transactionId := "resolve-" +:+ workflowId +:+ "-" +:+ nodeId +:+ "-" +:+ pretty (wp_sequence projection);
        wt_workflowId := workflowId; wt_expectedSequence := wp_sequence projection;
        wt_events := [attempt_change (ap_attemptId attempt) attemptState at_ code;
                      node_change nodeId nodeState code];
        wt_enqueueTasks := []; wt_outbox := []; wt_timers := []; wt_humanTasks := [];
        wt_effectReceipts := []; wt_messages := [];
        wt_effectReservationTerminal :=
          match resolution, task with
          | resolve_failed, Some t =>
              if is_undef key then None
              else Some {| rt_idempotencyKey := js_str key; rt_attemptId := tk_attemptId t;
                           rt_state := end_released; rt_receiptRef := None |}
          | _, _ => None
          end;
        wt_acknowledgeTask := None; wt_cancelReadyTasks := []; wt_occurredAt := at_ |}
  | None => throw "WORKFLOW_RESOLUTION_INVALID_STATE"
  end.

(** *** Profiles *)

Definition profileDigest (profile : jsobj) : string :=
  let semantic := List.filter (λ member, negb (bool_decide (member.1 = "digest"%string))) profile in
  "sha256:" +:+ sha256_hex (default "" (JSON_stringify (JObj semantic))).

Definition profile_corrupt (profile : jsobj) : bool :=
  negb (digest (profile .: "digest")) || negb (is_str (profile .: "digest") (profileDigest profile)).

Definition parse_profile (row : ProfileRow) : res jsobj :=
  match pr_profile row with
  | JObj profile => fail_if (profile_corrupt profile) "AGENT_PROFILE_CORRUPT";; Ok profile
  | _ => Err "AGENT_PROFILE_CORRUPT"
  end.

Definition find_profile (profileId : string) (version : Z) (d : AuthorityDb) : option ProfileRow :=
  findb (λ r, bool_decide (pr_profileId r = profileId) && (pr_version r =? version)) (db_profiles d).

(** One statement, outside of a transaction. *)
Definition registerProfile (profile : jsobj) : Db unit :=
  throw_if (negb (authority_safeId (profile .: "profileId")) || negb (positiveInteger (profile .: "version"))
            || profile_corrupt profile) "AGENT_PROFILE_INVALID";;
  database;;
  let profileId := js_str (profile .: "profileId") in
  let version := js_int (profile .: "version") in
  existing ← select (find_profile profileId version);
  match existing with
  | Some row =>
      throw_if (match pr_profile row with
                | JObj prior =>
                    negb (identical (prior .: "digest") (profile .: "digest"))
                    || bool_decide (JSON_stringify (JObj prior) ≠ JSON_stringify (JObj profile))
                | _ => true
                end) "AGENT_PROFILE_VERSION_CONFLICT"
  | None => update (λ d, set_profiles (db_profiles d ++
      [{| pr_profileId := profileId; pr_version := version; pr_profile := json_value (JObj profile) |}]) d)
  end.

Definition getProfile (profileId : string) (version : option Z) : Db jsobj :=
  database;;
  row ← select (λ d, match version with
    | None => head (order_by (descending (by_int pr_version))
        (List.filter (λ r, bool_decide (pr_profileId r = profileId)) (db_profiles d)))
    | Some version => find_profile profileId version d
    end);
  match row with
  | None => throw "AGENT_PROFILE_NOT_FOUND"
  | Some row => of_res (parse_profile row)
  end.

Definition listProfiles : Db (list jsobj) :=
  database;;
  rows ← select (λ d, order_by (by_text pr_profileId) (List.filter (λ r,
    forallb (λ other, negb (bool_decide (pr_profileId other = pr_profileId r)) || (pr_version other <=? pr_version r))
      (db_profiles d)) (db_profiles d)));
  of_res (mapM parse_profile rows).
End Operations.

Inductive authority_request :=
| do_initialize
| do_close
| do_create (specValue : jsval) (transactionId : string) (bootstrap : WorkflowBootstrap)
| do_transact (input : WorkflowTransactionV1)
| do_admitTaskForRequest (request : ReviewPlanExecutionRequestV1) (taskSpec : WorkflowTaskSpecV1)
| do_bindTaskCapabilityBundle (taskId leaseToken : string) (ref : VersionedWorkflowRefV1) (at_ : string)
| do_claim (workerId : string) (options : ClaimOptions) (now : string)
| do_heartbeat (taskId leaseToken : string) (progress : bool) (now : string)
| do_recoverExpired (now : string)
| do_signal (input : WorkflowSignalV1)
| do_postMessage (input : jsobj)
| do_acknowledgeMessages (workflowId recipientNodeId : string) (throughSequence : Z) (at_ : string)
| do_acknowledgeMessage (workflowId messageId recipientNodeId at_ : string)
| do_fireDueTimers (now : string)
| do_resolveHumanTask (humanTaskId : string) (state : WorkflowHumanTaskStateV1) (resolution : jsval) (at_ : string)
| do_expireDueHumanTasks (now : string)
| do_reserveEffectRequest (input : ReviewPlanExecutionRequestV1) (requestDigest : string)
    (effectKind : WorkflowEffectClassV1) (externalIdempotencyKey leaseExpiresAt : option string) (at_ : string)
| do_reserveEffect (workflowId idempotencyKey inputDigest attemptId leaseExpiresAt at_ : string)
| do_markEffectCompensated (workflowId sourceId compensationId at_ : string)
| do_retryNode (workflowId nodeId at_ : string)
| do_resolveUnknown (workflowId nodeId : string) (resolution : ResolutionV1) (code : option string) (at_ : string)
| do_registerProfile (profile : jsobj).

Section Requests.
Context `{JsEngine} `{JsCrypto} `{RandomUUID}.

Definition execute (request : authority_request) : Db unit :=
  match request with
  | do_initialize => initialize
  | do_close => close
  | do_create v x b => create v x b;; mret tt
  | do_transact input => transact input;; mret tt
  | do_admitTaskForRequest r t => admitTaskForRequest r t;; mret tt
  | do_bindTaskCapabilityBundle t l r a => bindTaskCapabilityBundle t l r a;; mret tt
  | do_claim w o n => claim w o n;; mret tt
  | do_heartbeat t l p n => heartbeat t l p n;; mret tt
  | do_recoverExpired n => recoverExpired n;; mret tt
  | do_signal input => signal input;; mret tt
  | do_postMessage input => postMessage input;; mret tt
  | do_acknowledgeMessages w r t a => acknowledgeMessages w r t a;; mret tt
  | do_acknowledgeMessage w m r a => acknowledgeMessage w m r a;; mret tt
  | do_fireDueTimers n => fireDueTimers n;; mret tt
  | do_resolveHumanTask h s r a => resolveHumanTask h s r a;; mret tt
  | do_expireDueHumanTasks n => expireDueHumanTasks n;; mret tt
  | do_reserveEffectRequest i d k e l a => reserveEffectRequest i d k e l a;; mret tt
  | do_reserveEffect w k i a l t => reserveEffect w k i a l t;; mret tt
  | do_markEffectCompensated w s c a => markEffectCompensated w s c a;; mret tt
  | do_retryNode w n a => retryNode w n a;; mret tt
  | do_resolveUnknown w n r c a => resolveUnknown w n r c a;; mret tt
  | do_registerProfile p => registerProfile p
  end.

(** The store after a request, whatever its outcome. *)
Definition after_request (s : Authority) (request : authority_request) : Authority := (execute request s).2.

(** From the new, unopened store. *)
Definition fresh : Authority := {| st_open := false; st_uuids := 0; st_db := empty_db |}.

Inductive reachable : Authority → Prop :=
| reach_fresh : reachable fresh
| reach_request s request : reachable s → reachable (after_request s request).

Lemma reachable_foldl s requests : reachable s → reachable (foldl after_request s requests).
Proof. revert s; induction requests as [|q l IH]; intros s Hs; [done|]. apply IH. by constructor. Qed.
End Requests.
