(* ===== verification/AuthorityFacts.v ===== *)
(** * Reasoning about computations over the store

    Inversion of the monad, the computations that keep a part of the database,
    and what the statements of the authority do. *)

From S2P Require Import Prelude Js JsOps CanonicalJson Workflow WorkflowReducer WorkflowSpec WorkflowStable WorkflowInv WorkflowExecution AuthorityDb AuthorityStatements WorkflowAuthority.
Local Open Scope Z_scope.

(** ** Successful computations *)

Section Monad.
Context {A B : Type}.

Lemma bind_db_Ok (m : Db A) (f : A → Db B) s b s' :
  (m ≫= f) s = (Ok b, s') ↔ ∃ a s1, m s = (Ok a, s1) ∧ f a s1 = (Ok b, s').
Proof. unfold mbind, db_bind. destruct (m s) as [[a|c] s1]; naive_solver. Qed.
Lemma bind_db_Err (m : Db A) (f : A → Db B) s c s' :
  (m ≫= f) s = (Err c, s') ↔ m s = (Err c, s') ∨ ∃ a s1, m s = (Ok a, s1) ∧ f a s1 = (Err c, s').
Proof. unfold mbind, db_bind. destruct (m s) as [[a|c'] s1]; naive_solver. Qed.
Lemma ret_db_Ok (a : A) s a' s' : mret (M:=Db) a s = (Ok a', s') ↔ a' = a ∧ s' = s.
Proof. unfold mret, db_ret. naive_solver. Qed.
Lemma of_res_Ok (r : res A) s a s' : of_res r s = (Ok a, s') ↔ r = Ok a ∧ s' = s.
Proof. unfold of_res. naive_solver. Qed.
Lemma throw_Ok code s (a : A) s' : throw code s = (Ok a, s') ↔ False.
Proof. unfold throw, of_res. naive_solver. Qed.
Lemma select_Ok (f : AuthorityDb → A) s a s' : select f s = (Ok a, s') ↔ a = f (st_db s) ∧ s' = s.
Proof. unfold select. naive_solver. Qed.
Lemma update_Ok f s u s' : update f s = (Ok u, s') ↔ s' = with_db s (f (st_db s)).
Proof. unfold update. destruct u. naive_solver. Qed.
Lemma throw_if_Ok cond code s u s' : throw_if cond code s = (Ok u, s') ↔ cond = false ∧ s' = s.
Proof. unfold throw_if, of_res. destruct cond, u; naive_solver. Qed.
Lemma constraint_Ok holds s u s' : constraint holds s = (Ok u, s') ↔ holds (st_db s) = true ∧ s' = s.
Proof. unfold constraint. destruct (holds (st_db s)), u; naive_solver. Qed.
Lemma database_Ok s u s' : database s = (Ok u, s') ↔ st_open s = true ∧ s' = s.
Proof. unfold database. destruct (st_open s), u; naive_solver. Qed.
Lemma transaction_Ok (m : Db A) s a s' :
  transaction m s = (Ok a, s') ↔ st_open s = true ∧ m s = (Ok a, s').
Proof. unfold transaction. destruct (st_open s), (m s) as [[]]; naive_solver. Qed.
Lemma transaction_Err (m : Db A) s c s' : transaction m s = (Err c, s') → st_db s' = st_db s.
Proof. unfold transaction. destruct (st_open s), (m s) as [[]]; naive_solver. Qed.
End Monad.

Lemma randomUUID_Ok `{RandomUUID} s u s' :
  randomUUID s = (Ok u, s') → u = uuid (st_uuids s) ∧ st_db s' = st_db s ∧ st_open s' = st_open s.
Proof. unfold randomUUID. by intros [= <- <-]. Qed.

Ltac inv_db_step :=
  match goal with
  | Hm : (_ ≫= _) _ = (Ok _, _) |- _ => apply bind_db_Ok in Hm as (? & ? & ? & Hm)
  | Hm : mret _ _ = (Ok _, _) |- _ => apply ret_db_Ok in Hm as [? ?]
  | Hm : of_res _ _ = (Ok _, _) |- _ => apply of_res_Ok in Hm as [Hm ?]
  | Hm : throw _ _ = (Ok _, _) |- _ => by apply throw_Ok in Hm
  | Hm : select _ _ = (Ok _, _) |- _ => apply select_Ok in Hm as [? ?]
  | Hm : update _ _ = (Ok _, _) |- _ => apply update_Ok in Hm
  | Hm : throw_if _ _ _ = (Ok _, _) |- _ => apply throw_if_Ok in Hm as [Hm ?]
  | Hm : constraint _ _ = (Ok _, _) |- _ => apply constraint_Ok in Hm as [Hm ?]
  | Hm : database _ = (Ok _, _) |- _ => apply database_Ok in Hm as [Hm ?]
  | Hm : transaction _ _ = (Ok _, _) |- _ => apply transaction_Ok in Hm as [? Hm]
  | x : unit |- _ => destruct x
  end; subst.
Ltac inv_db := repeat inv_db_step.

(** ** What a computation ensures between the databases before and after *)

(** A successful [m] relates the database before to the database after. *)
Definition ensures {A} (R : relation AuthorityDb) (m : Db A) : Prop :=
  ∀ s a s', m s = (Ok a, s') → R (st_db s) (st_db s').

(** [agree f]: the part [f] is kept; [invariant_ I]: [I] is kept. *)
Definition agree {X} (f : AuthorityDb → X) : relation AuthorityDb := λ d d', f d' = f d.
Definition maintains (I : AuthorityDb → Prop) : relation AuthorityDb := λ d d', I d → I d'.
#[export] Instance agree_preorder {X} (f : AuthorityDb → X) : PreOrder (agree f).
Proof. unfold agree. split; [done|]. intros x y z -> ->. done. Qed.
#[export] Instance maintains_preorder I : PreOrder (maintains I).
Proof. unfold maintains. split; [by intros ?|]. intros x y z ? ? ?. auto. Qed.

Section Ensures.
Context (R : relation AuthorityDb) `{!PreOrder R}.

Lemma ensures_bind {A B} (m : Db A) (k : A → Db B) :
  ensures R m → (∀ a, ensures R (k a)) → ensures R (m ≫= k).
Proof. intros Hm Hk s b s' (a & s1 & H1 & H2)%bind_db_Ok. etrans; [by eapply Hm|by eapply Hk]. Qed.
Lemma ensures_ret {A} (a : A) : ensures R (mret (M:=Db) a).
Proof. intros s b s' ?. by inv_db. Qed.
Lemma ensures_of_res {A} (r : res A) : ensures R (of_res r).
Proof. intros s b s' ?. by inv_db. Qed.
Lemma ensures_throw {A} code : ensures R (throw (A:=A) code).
Proof. apply ensures_of_res. Qed.
Lemma ensures_throw_if cond code : ensures R (throw_if cond code).
Proof. apply ensures_of_res. Qed.
Lemma ensures_select {A} (g : AuthorityDb → A) : ensures R (select g).
Proof. intros s b s' ?. by inv_db. Qed.
Lemma ensures_constraint holds : ensures R (constraint holds).
Proof. intros s b s' ?. by inv_db. Qed.
Lemma ensures_database : ensures R database.
Proof. intros s b s' ?. by inv_db. Qed.
Lemma ensures_uuid `{RandomUUID} : ensures R randomUUID.
Proof. intros s b s' (_ & -> & _)%randomUUID_Ok. done. Qed.
Lemma ensures_update g : (∀ d, R d (g d)) → ensures R (update g).
Proof. intros Hg s b s' ?. inv_db. apply Hg. Qed.
Lemma ensures_transaction {A} (m : Db A) : ensures R m → ensures R (transaction m).
Proof. intros Hm s b s' ?. inv_db. by eapply Hm. Qed.
Lemma ensures_for_each {A} (g : A → Db unit) l : (∀ x, ensures R (g x)) → ensures R (for_each g l).
Proof. intros Hg. induction l; cbn; [apply ensures_ret|]. apply ensures_bind; auto. Qed.
Lemma ensures_for_map {A B} (g : A → Db B) l : (∀ x, ensures R (g x)) → ensures R (for_map g l).
Proof.
  intros Hg. induction l as [|x l IH]; cbn; [apply ensures_ret|].
  apply ensures_bind; [auto|]. intros. apply ensures_bind; [auto|]. intros. apply ensures_ret.
Qed.
Lemma ensures_for_map_elem {A B} (g : A → Db B) l : (∀ x, x ∈ l → ensures R (g x)) → ensures R (for_map g l).
Proof.
  induction l as [|x l IH]; intros Hg; cbn; [apply ensures_ret|].
  apply ensures_bind; [apply Hg; by left|]. intros. apply ensures_bind; [|intros; apply ensures_ret].
  apply IH. intros y Hy. apply Hg. by right.
Qed.
Lemma ensures_for_option {A} (g : A → Db unit) x : (∀ a, ensures R (g a)) → ensures R (for_option g x).
Proof. destruct x; cbn; [auto|]. intros _. apply ensures_ret. Qed.
End Ensures.

Lemma ensures_mono {A} (R R' : relation AuthorityDb) (m : Db A) :
  (∀ d d', R d d' → R' d d') → ensures R m → ensures R' m.
Proof. intros HR Hm s a s' Hs. apply HR. by eapply Hm. Qed.

Create HintDb ensures.
#[export] Hint Resolve ensures_ret ensures_of_res ensures_throw ensures_throw_if ensures_select
  ensures_constraint ensures_database ensures_uuid : ensures.
#[export] Hint Extern 0 (agree _ _ _) => reflexivity : ensures.
#[export] Hint Extern 0 (PreOrder _) => typeclasses eauto : ensures.

(** Walks through the body of a computation to its statements. *)
Ltac ensures_step :=
  match goal with
  | |- ∀ _, _ => intro
  | |- PreOrder _ => typeclasses eauto
  | |- ensures _ _ => solve [auto with ensures]
  | |- ensures _ (_ ≫= _) => apply ensures_bind
  | |- ensures _ (transaction _) => apply ensures_transaction
  | |- ensures _ (for_each _ _) => apply ensures_for_each
  | |- ensures _ (for_map _ _) => apply ensures_for_map
  | |- ensures _ (for_option _ _) => apply ensures_for_option
  | |- ensures _ (match ?x with _ => _ end) => destruct x
  | |- ensures _ (update _) => apply ensures_update; solve [auto with ensures]
  end.
Ltac solve_ensures := repeat ensures_step.

(** The goal from a run of a computation that ensures it. *)
Ltac by_ensures R Hs :=
  lazymatch type of Hs with
  | ?m ?s = (Ok ?a, ?s') =>
      let Hens := fresh in
      assert (ensures R m) as Hens; [|exact (Hens s a s' Hs)]
  end.

(** ** Which tables the statements write *)

Section Statements.
Context `{JsEngine} (R : relation AuthorityDb) `{!PreOrder R}.

Lemma ensures_loadProjection w : ensures R (loadProjection w).
Proof. unfold loadProjection. solve_ensures. Qed.
Lemma ensures_transactionProjection x : ensures R (transactionProjection x).
Proof. unfold transactionProjection. solve_ensures. Qed.
Lemma ensures_read_task p : ensures R (read_task p).
Proof. unfold read_task. solve_ensures. Qed.
End Statements.
#[export] Hint Resolve ensures_loadProjection ensures_transactionProjection ensures_read_task : ensures.

Section Writes.
Context `{JsEngine} (R : relation AuthorityDb) `{!PreOrder R}.

Section Tasks.
Hypothesis HR : ∀ t d, R d (set_tasks t d).
Lemma ensures_insertTask task : ensures R (insertTask task).
Proof. unfold insertTask. solve_ensures. Qed.
Lemma ensures_update_task id g : ensures R (update_task id g).
Proof. unfold update_task. solve_ensures. Qed.
Lemma ensures_acknowledgeTask ack at_ : ensures R (acknowledgeTask ack at_).
Proof. unfold acknowledgeTask, taskById. solve_ensures. apply ensures_update_task. Qed.
Lemma ensures_cancelReadyTask w id at_ : ensures R (cancelReadyTask w id at_).
Proof. unfold cancelReadyTask, taskById. solve_ensures. apply ensures_update_task. Qed.
End Tasks.

Lemma ensures_insertOutbox m : (∀ t d, R d (set_outbox t d)) → ensures R (insertOutbox m).
Proof. intros HR. unfold insertOutbox. solve_ensures. Qed.
Lemma ensures_insertTimer m : (∀ t d, R d (set_timers t d)) → ensures R (insertTimer m).
Proof. intros HR. unfold insertTimer. solve_ensures. Qed.
Lemma ensures_insertHumanTask m : (∀ t d, R d (set_humanTasks t d)) → ensures R (insertHumanTask m).
Proof. intros HR. unfold insertHumanTask. solve_ensures. Qed.

Section Reservations.
Hypothesis HR : ∀ t d, R d (set_reservations t d).
Lemma ensures_update_reservation w k r : ensures R (update_reservation w k r).
Proof. unfold update_reservation. solve_ensures. Qed.
Lemma ensures_releaseEffectReservation w k a at_ : ensures R (releaseEffectReservation w k a at_).
Proof. unfold releaseEffectReservation. solve_ensures. apply ensures_update_reservation. Qed.
Lemma ensures_end_reservation w at_ t : ensures R (end_reservation w at_ t).
Proof. unfold end_reservation. solve_ensures. apply ensures_update_reservation. Qed.
End Reservations.

Lemma ensures_insertEffectReceipt r :
  (∀ t d, R d (set_receipts t d)) → (∀ t d, R d (set_effectRequests t d)) → ensures R (insertEffectReceipt r).
Proof. intros HR HR'. unfold insertEffectReceipt, insert_receipt_row. solve_ensures. Qed.
Lemma ensures_insertWorkflowMessage m : (∀ t d, R d (set_messages t d)) → ensures R (insertWorkflowMessage m).
Proof. intros HR. unfold insertWorkflowMessage. solve_ensures. Qed.
Lemma ensures_insertEvents es : (∀ t d, R d (set_events t d)) → ensures R (insertEvents es).
Proof. intros HR. unfold insertEvents, insertEvent. solve_ensures. Qed.
Lemma ensures_saveProjection p : (∀ t d, R d (set_workflows t d)) → ensures R (saveProjection p).
Proof. intros HR. unfold saveProjection. solve_ensures. Qed.
Lemma ensures_recordTransaction x p : (∀ t d, R d (set_transactions t d)) → ensures R (recordTransaction x p).
Proof. intros HR. unfold recordTransaction. solve_ensures. Qed.
End Writes.
#[export] Hint Resolve ensures_insertTask ensures_update_task ensures_acknowledgeTask ensures_cancelReadyTask
  ensures_insertOutbox ensures_insertTimer ensures_insertHumanTask ensures_update_reservation
  ensures_releaseEffectReservation ensures_end_reservation ensures_insertEffectReceipt
  ensures_insertWorkflowMessage ensures_insertEvents ensures_saveProjection ensures_recordTransaction : ensures.

Section Appends.
Context `{JsEngine} (R : relation AuthorityDb) `{!PreOrder R}.
Hypothesis HW : ∀ t d, R d (set_workflows t d).
Hypothesis HE : ∀ t d, R d (set_events t d).
Hypothesis HX : ∀ t d, R d (set_transactions t d).

Lemma ensures_appendInternalEvents w x at_ data : ensures R (appendInternalEvents w x at_ data).
Proof. unfold appendInternalEvents. solve_ensures. Qed.
End Appends.
#[export] Hint Resolve ensures_appendInternalEvents : ensures.

(** What a transaction writes besides the history. *)
Lemma ensures_write_transaction `{JsEngine} (R : relation AuthorityDb) `{!PreOrder R} input :
  (∀ t d, R d (set_tasks t d)) → (∀ t d, R d (set_outbox t d)) → (∀ t d, R d (set_timers t d)) →
  (∀ t d, R d (set_humanTasks t d)) → (∀ t d, R d (set_receipts t d)) → (∀ t d, R d (set_effectRequests t d)) →
  (∀ t d, R d (set_messages t d)) → (∀ t d, R d (set_reservations t d)) →
  ensures R (write_transaction input).
Proof. intros. unfold write_transaction. solve_ensures. Qed.
#[export] Hint Resolve ensures_write_transaction : ensures.

(** ** The computations that an operation is made of *)

Section Parts.
Context `{JsEngine} (R : relation AuthorityDb) `{!PreOrder R}.

Lemma ensures_activeCapacityGroups tasks groups : ensures R (activeCapacityGroups tasks groups).
Proof. revert groups. induction tasks; intros; cbn; solve_ensures. Qed.
Lemma ensures_claimable o k a t : ensures R (claimable o k a t).
Proof. unfold claimable. solve_ensures. Qed.
Lemma ensures_find_candidate p l : (∀ t, ensures R (p t)) → ensures R (find_candidate p l).
Proof. intros Hp. induction l; cbn; solve_ensures. Qed.
Lemma ensures_acknowledge_row a r : (∀ t d, R d (set_messages t d)) → ensures R (acknowledge_row a r).
Proof. intros HR. unfold acknowledge_row. solve_ensures. Qed.
End Parts.
#[export] Hint Resolve ensures_activeCapacityGroups ensures_claimable ensures_find_candidate
  ensures_acknowledge_row : ensures.

(** ** Whatever the outcome

    [always R m]: the databases before and after are related, also when [m]
    ends with an error. *)

Definition always {A} (R : relation AuthorityDb) (m : Db A) : Prop := ∀ s, R (st_db s) (st_db (m s).2).

Section Always.
Context (R : relation AuthorityDb) `{!PreOrder R}.

Lemma always_of_res {A} (r : res A) : always R (of_res r).
Proof. intros s. cbn. reflexivity. Qed.
Lemma always_ret {A} (a : A) : always R (mret (M:=Db) a).
Proof. intros s. cbn. reflexivity. Qed.
Lemma always_throw {A} code : always R (throw (A:=A) code).
Proof. intros s. cbn. reflexivity. Qed.
Lemma always_throw_if cond code : always R (throw_if cond code).
Proof. intros s. cbn. reflexivity. Qed.
Lemma always_select {A} (f : AuthorityDb → A) : always R (select f).
Proof. intros s. cbn. reflexivity. Qed.
Lemma always_database : always R database.
Proof. intros s. cbn. reflexivity. Qed.
Lemma always_bind {A B} (m : Db A) (k : A → Db B) : always R m → (∀ a, always R (k a)) → always R (m ≫= k).
Proof.
  intros Hm Hk s. specialize (Hm s). unfold mbind, db_bind. destruct (m s) as [[a|c] s']; [|done].
  etrans; [exact Hm|apply Hk].
Qed.
Lemma always_transaction {A} (m : Db A) : ensures R m → always R (transaction m).
Proof.
  intros Hm s. unfold transaction. destruct (st_open s); [|done]. destruct (m s) as [[a|c] s'] eqn:Hs; [|done].
  by eapply Hm.
Qed.
Lemma always_for_map {A B} (f : A → Db B) l : (∀ x, always R (f x)) → always R (for_map f l).
Proof.
  intros Hf. induction l as [|x l IH]; [apply always_ret|]. cbn. apply always_bind; [done|]. intros y.
  apply always_bind; [done|]. intros ys. apply always_ret.
Qed.
Lemma always_ensures {A} (m : Db A) : always R m → ensures R m.
Proof. intros Hm s a s' Hs. specialize (Hm s). by rewrite Hs in Hm. Qed.
Lemma always_loadProjection w : always R (loadProjection w).
Proof. unfold loadProjection. apply always_bind; [apply always_select|]. intros [row|]; [apply always_of_res|apply always_throw]. Qed.
End Always.
#[export] Hint Resolve always_of_res always_ret always_throw always_throw_if always_select always_database
  always_loadProjection : ensures.

Ltac always_step :=
  match goal with
  | |- ∀ _, _ => intro
  | |- PreOrder _ => typeclasses eauto
  | |- always _ _ => solve [auto with ensures]
  | |- always _ (_ ≫= _) => apply always_bind
  | |- always _ (transaction _) => apply always_transaction
  | |- always _ (for_map _ _) => apply always_for_map
  | |- always _ (match ?x with _ => _ end) => destruct x
  | |- ensures _ _ => ensures_step
  end.
Ltac solve_always := repeat always_step.

(** ** A request that fails changes nothing *)

Definition atomic {A} (m : Db A) : Prop := ∀ s c s', m s = (Err c, s') → st_db s' = st_db s.

Section Atomic.
Context {A B : Type}.

Lemma atomic_of_res (r : res A) : atomic (of_res r).
Proof. intros s c s'. unfold of_res. by intros [= _ <-]. Qed.
Lemma atomic_ret (a : A) : atomic (mret (M:=Db) a).
Proof. by intros s c s'. Qed.
Lemma atomic_select (f : AuthorityDb → A) : atomic (select f).
Proof. by intros s c s'. Qed.
Lemma atomic_database : atomic database.
Proof. intros s c s'. unfold database. by intros [= _ <-]. Qed.
Lemma atomic_transaction (m : Db A) : atomic (transaction m).
Proof. intros s c s'. apply transaction_Err. Qed.
(** Reads before the part that writes. *)
Lemma atomic_bind (m : Db A) (k : A → Db B) :
  ensures (agree id) m → atomic m → (∀ a, atomic (k a)) → atomic (m ≫= k).
Proof.
  intros Hm Ha Hk s c s' [Hs|(a & s1 & Hs & Hs')]%bind_db_Err; [by eapply Ha|].
  apply Hm in Hs. apply Hk in Hs'. by rewrite Hs'.
Qed.
(** Only the first part can fail. *)
Lemma atomic_then (m : Db A) (b : B) : atomic m → atomic (m;; mret b).
Proof. intros Ha s c s' [Hs|(a & s1 & _ & Hs')]%bind_db_Err; [by eapply Ha|done]. Qed.
End Atomic.

Ltac atomic_step :=
  match goal with
  | |- ∀ _, _ => intro
  | |- atomic (_ ≫= λ _, mret _) => apply atomic_then
  | |- atomic (transaction _) => apply atomic_transaction
  | |- atomic (of_res _) => apply atomic_of_res
  | |- atomic (throw _) => apply atomic_of_res
  | |- atomic (throw_if _ _) => apply atomic_of_res
  | |- atomic (mret _) => apply atomic_ret
  | |- atomic (select _) => apply atomic_select
  | |- atomic database => apply atomic_database
  | |- atomic (_ ≫= _) => apply atomic_bind
  | |- atomic (match ?x with _ => _ end) => destruct x
  | |- PreOrder _ => typeclasses eauto
  | |- ensures _ _ => ensures_step
  end.
Ltac solve_atomic := repeat atomic_step.
