(* ===== verification/AuthorityJournal.v ===== *)
(** * The histories of the Workflow authority

    The history of a workflow is the list of its event rows.  Every operation
    keeps the stored projections equal to the replay of the histories and only
    extends them. *)

From S2P Require Import Prelude Js JsOps CanonicalJson Workflow WorkflowReducer WorkflowSpec WorkflowStable WorkflowInv WorkflowExecution AuthorityDb AuthorityStatements WorkflowAuthority AuthorityFacts.
Local Open Scope Z_scope.

(** ** The invariant *)

Definition of_workflow (w : string) (r : EventRow) : bool := bool_decide (vr_workflowId r = w).
Definition history (w : string) (d : AuthorityDb) : list WorkflowEventV1 :=
  vr_event <$> List.filter (of_workflow w) (db_events d).

Section Journal.
Context `{JsEngine}.

(** A row of the workflows table is the replay of its history. *)
Record row_wf (d : AuthorityDb) (r : WorkflowRow) : Prop := {
  rw_replay : reduceWorkflowEventsV1 (history (wr_workflowId r) d) = Ok (wr_projection r);
  rw_workflowId : wp_workflowId (wr_projection r) = wr_workflowId r;
  rw_sessionId : wp_sessionId (wr_projection r) = wr_sessionId r;
  rw_state : wp_state (wr_projection r) = wr_state r;
  rw_updatedAt : wp_updatedAt (wr_projection r) = wr_updatedAt r;
}.
Record event_row_wf (d : AuthorityDb) (r : EventRow) : Prop := {
  ew_workflowId : ev_workflowId (vr_event r) = vr_workflowId r;
  ew_sequence : ev_sequence (vr_event r) = vr_sequence r;
  ew_stored : workflow_exists (vr_workflowId r) d = true;
}.
Record journal_wf (d : AuthorityDb) : Prop := {
  jw_ids : NoDup (wr_workflowId <$> db_workflows d);
  jw_rows : ∀ r, r ∈ db_workflows d → row_wf d r;
  jw_events : ∀ r, r ∈ db_events d → event_row_wf d r;
}.

(** Every history is kept or extended. *)
Definition extends (d d' : AuthorityDb) : Prop := ∀ w, ∃ es, history w d' = history w d ++ es.
(** One step of the abstract store: a set of journals that replay, each of
    which may be extended. *)
Definition advances (d d' : AuthorityDb) : Prop := journal_wf d → journal_wf d' ∧ extends d d'.

#[export] Instance extends_preorder : PreOrder extends.
Proof.
  split.
  - intros d w. exists []. by rewrite app_nil_r.
  - intros d1 d2 d3 H1 H2 w. destruct (H1 w) as [es1 E1], (H2 w) as [es2 E2].
    exists (es1 ++ es2). by rewrite E2, E1, app_assoc.
Qed.
#[export] Instance advances_preorder : PreOrder advances.
Proof.
  split; [by intros d ?|]. intros d1 d2 d3 H1 H2 Hj.
  destruct (H1 Hj) as [Hj2 E1], (H2 Hj2) as [Hj3 E2]. split; [done|by etrans].
Qed.

(** The invariant is about two tables. *)
Definition journal (d : AuthorityDb) := (db_workflows d, db_events d).

Lemma advances_agree d d' : journal d' = journal d → advances d d'.
Proof.
  destruct d, d'. unfold journal. cbn. intros [= -> ->] [Hi Hr He]. split.
  - split; [exact Hi| |].
    + intros r Hin. destruct (Hr r Hin). by split.
    + intros r Hin. destruct (He r Hin). by split.
  - intros w. exists []. by rewrite app_nil_r.
Qed.

Lemma ensures_agree {A} (m : Db A) : ensures (agree journal) m → ensures advances m.
Proof. apply ensures_mono, advances_agree. Qed.

(** ** The statements on a history *)

Definition event_row (e : WorkflowEventV1) : EventRow :=
  {| vr_workflowId := ev_workflowId e; vr_sequence := ev_sequence e; vr_eventId := ev_eventId e; vr_event := e |}.

Lemma insertEvents_Ok es s u s' :
  insertEvents es s = (Ok u, s') →
  st_db s' = set_events (db_events (st_db s) ++ (event_row <$> es)) (st_db s) ∧
  (∀ e, e ∈ es → workflow_exists (ev_workflowId e) (st_db s) = true).
Proof.
  unfold insertEvents. revert s; induction es as [|e es IH]; intros s; cbn -[insertEvent].
  - intros Hs. inv_db. split; [|set_solver]. rewrite app_nil_r. by destruct (st_db _).
  - intros Hs. apply bind_db_Ok in Hs as ([] & s1 & Hs & Hes). unfold insertEvent in Hs. inv_db.
    apply IH in Hes as [-> Hex]. cbn -[workflow_exists] in *.
    split; [by rewrite <-app_assoc|].
    match goal with Hc : _ && _ = true |- _ => apply andb_true_iff in Hc as [Hc _]; rename Hc into He end.
    intros e' [->|He']%elem_of_cons; [done|exact (Hex e' He')].
Qed.

Lemma history_append w rows d :
  history w (set_events (db_events d ++ rows) d) = history w d ++ (vr_event <$> List.filter (of_workflow w) rows).
Proof. unfold history. cbn. by rewrite List.filter_app, fmap_app. Qed.

Lemma history_event_rows w v es :
  (∀ e, e ∈ es → ev_workflowId e = v) →
  vr_event <$> List.filter (of_workflow w) (event_row <$> es) = if decide (v = w) then es else [].
Proof.
  induction es as [|e es IH]; intros Hv; [by case_decide|].
  rewrite fmap_cons. change (List.filter ?p (?x :: ?l)) with (if p x then x :: List.filter p l else List.filter p l).
  assert (of_workflow w (event_row e) = bool_decide (v = w)) as -> by (unfold of_workflow; cbn; by rewrite (Hv e) by set_solver).
  assert (∀ e, e ∈ es → ev_workflowId e = v) as Hes by set_solver. specialize (IH Hes).
  destruct (decide (v = w)); case_bool_decide; try done. rewrite fmap_cons. by rewrite IH.
Qed.

Lemma apply_events_ids p es q e :
  projection_wf p → apply_events p es = Ok q → e ∈ es → ev_workflowId e = wp_workflowId p.
Proof.
  intros Hp Hq [i Hi]%list_elem_of_lookup. apply apply_events_continues in Hq as [_ (_ & _ & _ & Hes)]; [|done].
  by destruct (Hes i e Hi) as (_ & -> & _).
Qed.

Lemma apply_events_session p es q :
  projection_wf p → apply_events p es = Ok q → wp_sessionId q = wp_sessionId p.
Proof.
  intros Hp Hq. revert Hq. apply (apply_events_ind (λ q _, wp_sessionId q = wp_sessionId p)); [done|done|].
  intros q' _ e q'' _ IH _ _ Hs _. rewrite <-IH. by destruct Hs.
Qed.

Lemma reduce_append hs p es q :
  reduceWorkflowEventsV1 hs = Ok p → apply_events p es = Ok q → reduceWorkflowEventsV1 (hs ++ es) = Ok q.
Proof.
  intros (e & es' & v & p0 & -> & Hd & H0 & Hp)%reduce_Ok Hq. apply reduce_Ok.
  exists e, (es' ++ es), v, p0. split_and!; [done..|].
  rewrite apply_events_app, Hp. exact Hq.
Qed.

(** The stored projection of a workflow. *)
Definition stored (w : string) (d : AuthorityDb) : option WorkflowProjectionV1 :=
  wr_projection <$> findb (λ r, bool_decide (wr_workflowId r = w)) (db_workflows d).

Lemma loadProjection_Ok w s p s' :
  loadProjection w s = (Ok p, s') ↔ s' = s ∧ stored w (st_db s) = Some p ∧ AUTHORITY_ID (wp_workflowId p) = true.
Proof.
  unfold loadProjection, stored, parseProjection. split.
  - intros Hs. inv_db. destruct (findb _ _) as [r|]; inv_db. inv_ok. split_bool. done.
  - intros (-> & Hp & Hid). apply bind_db_Ok. eexists _, s. split; [by apply select_Ok|].
    destruct (findb _ _) as [r|]; [|done]. injection Hp as ->. apply of_res_Ok. by rewrite Hid.
Qed.

Lemma stored_row w d p :
  stored w d = Some p → ∃ r, r ∈ db_workflows d ∧ wr_workflowId r = w ∧ wr_projection r = p.
Proof.
  unfold stored. destruct (findb _ _) as [r|] eqn:Hf; cbn; [|done]. intros [= <-].
  apply findb_Some in Hf as [Hin Hw]. split_bool. by exists r.
Qed.

Lemma stored_wf w d p :
  journal_wf d → stored w d = Some p →
  reduceWorkflowEventsV1 (history w d) = Ok p ∧ wp_workflowId p = w ∧ projection_wf p.
Proof.
  intros Hj (r & Hin & <- & <-)%stored_row. destruct (jw_rows _ Hj r Hin) as [Hr Hw _ _ _].
  split_and!; [done|done|by eapply reduce_wf].
Qed.

(** The row after [saveProjection]. *)
Definition save_row (q : WorkflowProjectionV1) (r : WorkflowRow) : WorkflowRow :=
  {| wr_workflowId := wr_workflowId r; wr_sessionId := wr_sessionId r; wr_state := wp_state q;
     wr_projection := q; wr_updatedAt := wp_updatedAt q |}.
Definition save_rows (q : WorkflowProjectionV1) (rows : list WorkflowRow) : list WorkflowRow :=
  update_rows (λ r, bool_decide (wr_workflowId r = wp_workflowId q)) (save_row q) rows.

Lemma save_rows_ids q rows : wr_workflowId <$> save_rows q rows = wr_workflowId <$> rows.
Proof.
  unfold save_rows, update_rows. rewrite <-list_fmap_compose. apply list_fmap_ext.
  intros _ r _. cbn. by case_bool_decide.
Qed.

Lemma workflow_exists_ids w d : workflow_exists w d = true ↔ w ∈ wr_workflowId <$> db_workflows d.
Proof.
  unfold workflow_exists. rewrite existsb_true, list_elem_of_fmap. split.
  - intros (r & Hin & Hw). split_bool. by exists r.
  - intros (r & -> & Hin). exists r. split; [done|]. by apply bool_decide_eq_true.
Qed.

(** The tables of the journal after the events [es] of the workflow [w] and its
    projection [q] are written. *)
Lemma commit_history w d d' p es q :
  journal_wf d → stored w d = Some p → apply_events p es = Ok q →
  journal d' = (save_rows q (db_workflows d), db_events d ++ (event_row <$> es)) →
  journal_wf d' ∧ history w d' = history w d ++ es ∧ (∀ v, v ≠ w → history v d' = history v d).
Proof.
  intros Hj Hp Hq Hd. destruct (stored_wf _ _ _ Hj Hp) as (Hreplay & Hw & Hwf).
  assert (∀ e, e ∈ es → ev_workflowId e = w) as Hids.
  { intros e He. rewrite <-Hw. by eapply apply_events_ids. }
  assert (wp_workflowId q = w) as Hwq.
  { apply apply_events_continues in Hq as [_ (_ & -> & _)]; done. }
  injection Hd as Hdw Hde.
  assert (∀ v, history v d' = history v d ++ if decide (w = v) then es else []) as Hh.
  { intros v. unfold history. rewrite Hde, List.filter_app, fmap_app. f_equal. by apply history_event_rows. }
  split_and!.
  - split; rewrite ?Hdw, ?Hde, ?save_rows_ids; [by apply jw_ids| |].
    + intros r (r0 & -> & Hin)%list_elem_of_fmap. destruct (jw_rows _ Hj r0 Hin) as [H1 H2 H3 H4 H5].
      case_bool_decide as Hr0; split; cbn; rewrite ?Hh.
      * rewrite decide_True by congruence. eapply reduce_append; [|exact Hq]. congruence.
      * congruence.
      * rewrite (apply_events_session _ _ _ Hwf Hq). rewrite <-H3. f_equal.
        assert (Ok p = Ok (wr_projection r0)) as [= ->]; [|done]. rewrite <-Hreplay, <-H1. congruence.
      * done.
      * done.
      * rewrite decide_False by congruence. by rewrite app_nil_r.
      * done.
      * done.
      * done.
      * done.
    + assert (∀ v, workflow_exists v d = true → workflow_exists v d' = true) as Hex.
      { intros v. rewrite !workflow_exists_ids, Hdw, save_rows_ids. done. }
      intros r [Hin|(e & -> & He)%list_elem_of_fmap]%elem_of_app.
      * destruct (jw_events _ Hj r Hin). split; auto.
      * split; cbn; [done|done|]. apply Hex, workflow_exists_ids. rewrite (Hids e He).
        destruct (stored_row _ _ _ Hp) as (r & Hin & <- & _). by apply list_elem_of_fmap_2.
  - rewrite Hh. by rewrite decide_True.
  - intros v Hv. rewrite Hh, decide_False by congruence. apply app_nil_r.
Qed.

Lemma save_rows_find w q rows :
  wp_workflowId q = w → w ∈ wr_workflowId <$> rows →
  wr_projection <$> findb (λ r, bool_decide (wr_workflowId r = w)) (save_rows q rows) = Some q.
Proof.
  intros <-. unfold save_rows, update_rows, findb. induction rows as [|r rows IH]; [by intros ?%elem_of_nil|].
  rewrite !fmap_cons. cbn [List.find]. intros Hin. destruct (decide (wr_workflowId r = wp_workflowId q)) as [Hr|Hr].
  - pose proof (bool_decide_eq_true_2 _ Hr) as Hb. rewrite Hb. cbn. by rewrite Hb.
  - pose proof (bool_decide_eq_false_2 _ Hr) as Hb. rewrite Hb, Hb. apply IH.
    by apply elem_of_cons in Hin as [?|?].
Qed.

Lemma commit_stored w d d' p es q :
  journal_wf d → stored w d = Some p → apply_events p es = Ok q →
  journal d' = (save_rows q (db_workflows d), db_events d ++ (event_row <$> es)) → stored w d' = Some q.
Proof.
  intros Hj Hp Hq Hd. destruct (stored_wf _ _ _ Hj Hp) as (_ & Hw & Hwf).
  unfold stored. pose proof (f_equal fst Hd) as Hd1. cbn [fst journal] in Hd1. rewrite Hd1. apply save_rows_find.
  - rewrite <-Hw. apply apply_events_continues in Hq as [_ (_ & -> & _)]; done.
  - destruct (stored_row _ _ _ Hp) as (r & Hin & <- & _). by apply list_elem_of_fmap_2.
Qed.

Lemma commit_advances w d d' p es q :
  stored w d = Some p → apply_events p es = Ok q →
  journal d' = (save_rows q (db_workflows d), db_events d ++ (event_row <$> es)) →
  advances d d'.
Proof.
  intros Hp Hq Hd Hj. destruct (commit_history _ _ _ _ _ _ Hj Hp Hq Hd) as (Hj' & Hw & Hv).
  split; [done|]. intros v. destruct (decide (v = w)) as [->|Hne]; [by exists es|].
  exists []. rewrite app_nil_r. by apply Hv.
Qed.

Lemma appendInternalEvents_Ok w x at_ data s q s' :
  appendInternalEvents w x at_ data s = (Ok q, s') → ∃ p,
    stored w (st_db s) = Some p ∧
    let es := envelopeEvents (wp_spec p) (wp_sequence p) x data at_ in
    apply_events p es = Ok q ∧
    st_db s' = set_transactions (db_transactions (st_db s) ++ [{| xa_transactionId := x; xa_projection := q |}])
      (set_workflows (save_rows q (db_workflows (st_db s)))
        (set_events (db_events (st_db s) ++ (event_row <$> es)) (st_db s))).
Proof.
  unfold appendInternalEvents. intros Hs. apply bind_db_Ok in Hs as (p & s1 & Hp & Hs).
  apply loadProjection_Ok in Hp as (-> & Hp & _). exists p. split; [done|]. cbn zeta in Hs |- *.
  apply bind_db_Ok in Hs as (q' & s1 & [Hq ->]%of_res_Ok & Hs).
  apply bind_db_Ok in Hs as (? & s1 & [He _]%insertEvents_Ok & Hs).
  unfold saveProjection, recordTransaction in Hs. inv_db. cbn. by rewrite He.
Qed.

Lemma appendInternalEvents_advances w x at_ data : ensures advances (appendInternalEvents w x at_ data).
Proof.
  intros s q s' Hs. apply appendInternalEvents_Ok in Hs as (p & Hp & Hq & ->).
  by eapply commit_advances.
Qed.
(** ** A new workflow *)

Lemma create_history d d' spec initial es q row :
  journal_wf d → workflow_exists (ws_workflowId spec) d = false → spec_valid spec →
  initialWorkflowProjectionV1 (Spec_js spec) = Ok initial → apply_events initial es = Ok q →
  (∃ e es', es = e :: es' ∧ ev_data e = workflow_created (Spec_js spec)) →
  row = {| wr_workflowId := ws_workflowId spec; wr_sessionId := ws_sessionId spec; wr_state := wp_state q;
           wr_projection := q; wr_updatedAt := wp_updatedAt q |} →
  journal d' = (db_workflows d ++ [row], db_events d ++ (event_row <$> es)) →
  journal_wf d' ∧ extends d d' ∧ history (ws_workflowId spec) d' = es.
Proof.
  intros Hj Hnew Hspec H0 Hq (e & es' & -> & He) -> Hd.
  pose proof (f_equal fst Hd) as Hdw. pose proof (f_equal snd Hd) as Hde. cbn [journal fst snd] in Hdw, Hde. clear Hd.
  assert (wp_workflowId initial = ws_workflowId spec ∧ wp_sessionId initial = ws_sessionId spec) as [Hw0 Hs0].
  { unfold initialWorkflowProjectionV1 in H0. rewrite Hspec in H0. cbn in H0. by simplify_eq. }
  assert (projection_wf initial) as Hwf by by eapply initial_wf.
  assert (wp_workflowId q = ws_workflowId spec) as Hwq.
  { rewrite <-Hw0. apply apply_events_continues in Hq as [_ (_ & -> & _)]; done. }
  assert (wp_sessionId q = ws_sessionId spec) as Hsq.
  { rewrite <-Hs0. by eapply apply_events_session. }
  assert (∀ e', e' ∈ e :: es' → ev_workflowId e' = ws_workflowId spec) as Hids.
  { intros e' He'. rewrite <-Hw0. by eapply apply_events_ids. }
  assert (∀ v, history v d' = history v d ++ if decide (ws_workflowId spec = v) then e :: es' else []) as Hh.
  { intros v. unfold history. rewrite Hde, List.filter_app, fmap_app. f_equal.
    exact (history_event_rows v (ws_workflowId spec) (e :: es') Hids). }
  assert (history (ws_workflowId spec) d = []) as Hempty.
  { unfold history. destruct (List.filter _ _) as [|r rs] eqn:Hf; [done|].
    assert (r ∈ List.filter (of_workflow (ws_workflowId spec)) (db_events d)) as Hr by (rewrite Hf; by left).
    apply filter_elem in Hr as [Hr Hrw]. unfold of_workflow in Hrw. split_bool.
    pose proof (ew_stored _ _ (jw_events _ Hj r Hr)). congruence. }
  assert (∀ v, workflow_exists v d = true → workflow_exists v d' = true) as Hex.
  { intros v. rewrite !workflow_exists_ids, Hdw, fmap_app. set_solver. }
  split_and!.
  - split; rewrite ?Hdw, ?Hde.
    + rewrite fmap_app. apply NoDup_app. split_and!; [by apply jw_ids| |by apply NoDup_singleton].
      intros w Hw ->%list_elem_of_singleton. apply workflow_exists_ids in Hw. cbn in Hw. congruence.
    + intros r [Hin| ->%list_elem_of_singleton]%elem_of_app.
      * destruct (jw_rows _ Hj r Hin). split; try done. rewrite Hh, decide_False; [by rewrite app_nil_r|].
        intros Heq. assert (workflow_exists (ws_workflowId spec) d = true); [|congruence].
        rewrite Heq. apply workflow_exists_ids. by apply list_elem_of_fmap_2.
      * split; cbn; try done. rewrite Hh, decide_True, Hempty by done. apply reduce_Ok.
        by exists e, es', (Spec_js spec), initial.
    + intros r [Hin|(e' & -> & He')%list_elem_of_fmap]%elem_of_app.
      * destruct (jw_events _ Hj r Hin). split; auto.
      * split; cbn; [done|done|]. rewrite (Hids e' He'). apply workflow_exists_ids.
        rewrite Hdw, fmap_app. set_solver.
  - intros v. rewrite Hh. by eexists.
  - rewrite Hh, decide_True, Hempty by done. done.
Qed.

Lemma journal_agree {A} (m : Db A) s a s' :
  ensures (agree journal) m → m s = (Ok a, s') → journal (st_db s') = journal (st_db s).
Proof. intros Hm. apply Hm. Qed.
End Journal.
#[export] Hint Extern 0 (advances _ _) => apply advances_agree; reflexivity : ensures.
#[export] Hint Resolve appendInternalEvents_advances : ensures.

Section Operations.
Context `{JsEngine} `{JsCrypto} `{RandomUUID}.

(** *** The operations that write the journal themselves *)

Lemma create_advances v x b : ensures advances (create v x b).
Proof.
  intros s q s' Hs. unfold create in Hs.
  apply bind_db_Ok in Hs as (spec & s1 & [Hspec ->]%of_res_Ok & Hs). apply transaction_Ok in Hs as [_ Hs].
  apply bind_db_Ok in Hs as (dup & s1 & Hdup & Hs).
  assert (st_db s1 = st_db s) as Es1 by (eapply (ensures_transactionProjection (agree id)); exact Hdup).
  destruct dup as [p|]; [inv_db; by rewrite Es1|]. rewrite <-Es1. clear Es1 Hdup.
  apply bind_db_Ok in Hs as (ex & s2 & [-> ->]%select_Ok & Hs).
  apply bind_db_Ok in Hs as (? & s2 & [Hnew ->]%throw_if_Ok & Hs).
  apply bind_db_Ok in Hs as (initial & s2 & [Hinit ->]%of_res_Ok & Hs). cbn zeta in Hs.
  set (es := envelopeEvents _ _ _ _ _) in Hs.
  apply bind_db_Ok in Hs as (p & s2 & [Hp ->]%of_res_Ok & Hs).
  apply bind_db_Ok in Hs as (? & s2 & ->%update_Ok & Hs).
  apply bind_db_Ok in Hs as (? & s3 & [He _]%insertEvents_Ok & Hs).
  intros Hj. edestruct (create_history (st_db s1) (st_db s') spec initial es p) as (? & ? & _);
    [exact Hj|exact Hnew|by eapply validateSpec_valid|exact Hinit|exact Hp| |reflexivity| |done].
  { eexists _, _. split; [reflexivity|done]. }
  transitivity (journal (st_db s3)); [|rewrite He; reflexivity].
  revert Hs. apply journal_agree. solve_ensures.
Qed.

(** Between the events and the projection of a transaction the other tables are
    written. *)
Lemma commit_advances_around w p es q s1 s2 s3 s4 u u' :
  stored w (st_db s1) = Some p → apply_events p es = Ok q →
  insertEvents es s1 = (Ok u, s2) → agree journal (st_db s2) (st_db s3) → saveProjection q s3 = (Ok u', s4) →
  advances (st_db s1) (st_db s4).
Proof.
  intros Hp Hq [He _]%insertEvents_Ok Hm Hs. unfold saveProjection in Hs. inv_db.
  eapply commit_advances; [exact Hp|exact Hq|]. unfold agree in Hm. rewrite He in Hm.
  unfold journal in *. cbn [st_db with_db]. injection Hm as Hw' He'. cbn. by rewrite Hw', He'.
Qed.

Lemma transact_advances input : ensures advances (transact input).
Proof.
  intros s q s' Hs. unfold transact in Hs.
  apply bind_db_Ok in Hs as (? & s1 & [_ ->]%throw_if_Ok & Hs). apply transaction_Ok in Hs as [_ Hs].
  apply bind_db_Ok in Hs as (dup & s1 & Hdup & Hs).
  assert (st_db s1 = st_db s) as Es1 by (eapply (ensures_transactionProjection (agree id)); exact Hdup).
  destruct dup as [p|]; [inv_db; by rewrite Es1|]. rewrite <-Es1. clear Es1 Hdup.
  apply bind_db_Ok in Hs as (p & s2 & (-> & Hp & _)%loadProjection_Ok & Hs).
  apply bind_db_Ok in Hs as (? & s2 & [_ ->]%throw_if_Ok & Hs). cbn zeta in Hs.
  apply bind_db_Ok in Hs as (n & s2 & [Hn ->]%of_res_Ok & Hs).
  apply bind_db_Ok in Hs as (? & s2 & He & Hs).
  apply bind_db_Ok in Hs as (? & s3 & Hw & Hs). apply bind_db_Ok in Hs as (? & s4 & Hv & Hs).
  trans (st_db s4).
  - eapply commit_advances_around; [exact Hp|exact Hn|exact He| |exact Hv].
    by_ensures (agree journal) Hw. solve_ensures.
  - revert Hs. apply ensures_bind; solve_ensures.
Qed.

Lemma admitTaskForRequest_advances request spec : ensures advances (admitTaskForRequest request spec).
Proof.
  intros s q s' Hs. unfold admitTaskForRequest in Hs.
  apply bind_db_Ok in Hs as (digest & s1 & [_ ->]%of_res_Ok & Hs).
  apply bind_db_Ok in Hs as (binding & s1 & [_ ->]%of_res_Ok & Hs). cbn zeta in Hs.
  apply transaction_Ok in Hs as [_ Hs]. apply bind_db_Ok in Hs as (prior & s1 & [-> ->]%select_Ok & Hs).
  destruct (find_task_request _ _ _) as [row|]; [by_ensures advances Hs; unfold taskById; solve_ensures|].
  apply bind_db_Ok in Hs as (p & s2 & (-> & Hp & _)%loadProjection_Ok & Hs).
  apply bind_db_Ok in Hs as (? & s2 & [_ ->]%throw_if_Ok & Hs).
  apply bind_db_Ok in Hs as (u1 & s1 & (_ & E1 & _)%randomUUID_Ok & Hs).
  apply bind_db_Ok in Hs as (u2 & s2 & (_ & E2 & _)%randomUUID_Ok & Hs).
  rewrite <-E1, <-E2 in *. clear E1 E2.
  apply bind_db_Ok in Hs as (n & s3 & [Hn ->]%of_res_Ok & Hs).
  apply bind_db_Ok in Hs as (? & s3 & He & Hs).
  apply bind_db_Ok in Hs as (? & s4 & Ht & Hs). apply bind_db_Ok in Hs as (? & s5 & Ho & Hs).
  apply bind_db_Ok in Hs as (? & s6 & Hr & Hs). apply bind_db_Ok in Hs as (? & s7 & Hv & Hs).
  trans (st_db s7).
  - eapply commit_advances_around; [exact Hp|exact Hn|exact He| |exact Hv].
    trans (st_db s4); [by_ensures (agree journal) Ht; solve_ensures|].
    trans (st_db s5); [by_ensures (agree journal) Ho; solve_ensures|].
    by_ensures (agree journal) Hr. unfold insert_task_request. solve_ensures.
  - revert Hs. apply ensures_bind; solve_ensures.
Qed.

(** *** Every request *)

Lemma create_always v x b : always advances (create v x b).
Proof.
  intros s. destruct (create v x b s) as [[q|c] s'] eqn:Hs; [by eapply create_advances|].
  unfold create in Hs. apply bind_db_Err in Hs as [[= _ <-]|(spec & s1 & [_ ->]%of_res_Ok & Hs)]; [done|].
  apply transaction_Err in Hs. cbn. by rewrite Hs.
Qed.
Lemma transact_always input : always advances (transact input).
Proof.
  intros s. destruct (transact input s) as [[q|c] s'] eqn:Hs; [by eapply transact_advances|].
  unfold transact in Hs. apply bind_db_Err in Hs as [[= _ <-]|(u & s1 & [_ ->]%throw_if_Ok & Hs)]; [done|].
  apply transaction_Err in Hs. cbn. by rewrite Hs.
Qed.
Lemma admitTaskForRequest_always request spec : always advances (admitTaskForRequest request spec).
Proof.
  intros s. destruct (admitTaskForRequest request spec s) as [[q|c] s'] eqn:Hs; [by eapply admitTaskForRequest_advances|].
  unfold admitTaskForRequest in Hs.
  apply bind_db_Err in Hs as [[= _ <-]|(u & s1 & [_ ->]%of_res_Ok & Hs)]; [done|].
  apply bind_db_Err in Hs as [[= _ <-]|(u' & s1 & [_ ->]%of_res_Ok & Hs)]; [done|].
  apply transaction_Err in Hs. cbn. by rewrite Hs.
Qed.
Lemma resolveHumanTask_always h t r a : always advances (resolveHumanTask h t r a).
Proof. unfold resolveHumanTask. solve_always. Qed.

Lemma initialize_always : always advances initialize.
Proof.
  intros s. unfold initialize. destruct (st_open s); [done|].
  assert (ensures advances migrate) as Hm by (unfold migrate; solve_ensures).
  destruct (migrate s) as [[u|c] s'] eqn:Hs; cbn; [by eapply Hm|done].
Qed.

Lemma listTasks_always w states kinds n : always advances (listTasks w states kinds n).
Proof. unfold listTasks. solve_always. Qed.

Lemma execute_always request : always advances (execute request).
Proof.
  destruct request; cbn [execute].
  - apply initialize_always.
  - intros s. done.
  - apply always_bind; [typeclasses eauto|apply create_always|solve_always].
  - apply always_bind; [typeclasses eauto|apply transact_always|solve_always].
  - apply always_bind; [typeclasses eauto|apply admitTaskForRequest_always|solve_always].
  - unfold bindTaskCapabilityBundle, taskById. solve_always.
  - unfold claim. solve_always.
  - unfold heartbeat, taskById. solve_always.
  - unfold recoverExpired, recover_row, recover_terminal, recover_with_retry. solve_always.
  - unfold signal. solve_always.
  - unfold postMessage. solve_always.
  - unfold acknowledgeMessages. solve_always.
  - unfold acknowledgeMessage. solve_always.
  - unfold fireDueTimers, fire_timer. solve_always.
  - apply always_bind; [typeclasses eauto|apply resolveHumanTask_always|solve_always].
  - unfold expireDueHumanTasks. solve_always. apply resolveHumanTask_always.
  - unfold reserveEffectRequest. solve_always.
  - unfold reserveEffect, reserve_event, taskForAttempt. solve_always.
  - unfold markEffectCompensated. solve_always.
  - unfold retryNode. solve_always.
  - unfold resolveUnknown, get_workflow. solve_always; [apply listTasks_always|apply transact_always].
  - unfold registerProfile. solve_always. intros s. by apply advances_agree.
Qed.

Definition is_expiry (request : authority_request) : bool :=
  match request with do_expireDueHumanTasks _ => true | _ => false end.

Lemma execute_atomic request : is_expiry request = false → atomic (execute request).
Proof.
  intros Hr. destruct request; try discriminate Hr; cbn [execute]; clear Hr.
  - intros s c s'. unfold initialize. destruct (st_open s); [done|]. destruct (migrate s) as [[u|code] s1]; [done|].
    by intros [= _ <-].
  - done.
  - unfold create. solve_atomic.
  - unfold transact. solve_atomic.
  - unfold admitTaskForRequest. solve_atomic.
  - unfold bindTaskCapabilityBundle. solve_atomic.
  - unfold claim. solve_atomic.
  - unfold heartbeat. solve_atomic.
  - unfold recoverExpired. solve_atomic.
  - unfold signal. solve_atomic.
  - unfold postMessage. solve_atomic.
  - unfold acknowledgeMessages. solve_atomic.
  - unfold acknowledgeMessage. solve_atomic.
  - unfold fireDueTimers. solve_atomic.
  - unfold resolveHumanTask. solve_atomic.
  - unfold reserveEffectRequest. solve_atomic.
  - unfold reserveEffect. solve_atomic.
  - unfold markEffectCompensated. solve_atomic.
  - unfold retryNode. solve_atomic.
  - unfold resolveUnknown, get_workflow, listTasks, transact, loadProjection. solve_atomic.
  - unfold registerProfile. solve_atomic. by intros s c s'.
Qed.
End Operations.
