(* ===== verification/AuthorityRefine.v ===== *)
(** * The Workflow authority as a set of journals

    What the reads answer in terms of the histories, what a request does to
    them, and that a transaction happens once and at one sequence. *)

From S2P Require Import Prelude Js JsOps CanonicalJson Workflow WorkflowReducer Samples WorkflowSpec WorkflowStable WorkflowInv WorkflowExecution AuthorityDb AuthorityStatements WorkflowAuthority AuthorityFacts AuthorityJournal.
Local Open Scope Z_scope.

Section Reads.
Context `{JsEngine}.

(** ** Identities *)

(** An identity of the contract is one of the authority. *)
Lemma SAFE_ID_authority s : SAFE_ID s = true → AUTHORITY_ID s = true.
Proof.
  unfold SAFE_ID, AUTHORITY_ID, ident. destruct s as [|a s]; [done|]. intros Hs. split_bool.
  repeat (apply andb_true_iff; split); [done|done|].
  match goal with Hl : Nat.leb _ 127 = true |- _ => apply Nat.leb_le in Hl; apply Nat.leb_le; lia end.
Qed.

Lemma validateSpec_id v s : validateWorkflowSpecV1 v = Ok s → SAFE_ID (ws_workflowId s) = true.
Proof.
  unfold validateWorkflowSpecV1. intros Hv. repeat open_step. subst.
  match goal with Hh : spec_header_rejected _ _ = false |- _ => unfold spec_header_rejected in Hh end.
  split_bool. cbn. match goal with Hw : safeId (?x .: "workflowId") = true |- _ =>
    apply safeId_inv in Hw as (? & -> & ?) end. done.
Qed.

Lemma reduce_id es p : reduceWorkflowEventsV1 es = Ok p → AUTHORITY_ID (wp_workflowId p) = true.
Proof.
  intros (e & es' & v & p0 & -> & _ & Hi & Hp)%reduce_Ok.
  apply apply_events_continues in Hp as [_ (_ & -> & _)]; [|by eapply initial_wf].
  unfold initialWorkflowProjectionV1 in Hi. apply bind_Ok in Hi as (spec & Hs & [= <-]). cbn.
  eapply SAFE_ID_authority, validateSpec_id, Hs.
Qed.

(** ** Rows in their order *)

Lemma numbered_after (rows : list EventRow) k after :
  (∀ i r, rows !! i = Some r → vr_sequence r = Z.of_nat i + k + 1) → k ≤ after →
  List.filter (λ r, after <? vr_sequence r) rows = drop (Z.to_nat (after - k)) rows.
Proof.
  revert k; induction rows as [|r rows IH]; intros k Hrows Hk; [by rewrite drop_nil|].
  pose proof (Hrows 0%nat r eq_refl) as Hr. cbn [List.filter]. destruct (Z.ltb_spec after (vr_sequence r)).
  - assert (after = k) as -> by lia. rewrite Z.sub_diag, drop_0. f_equal.
    apply forallb_filter_id, forallb_true, Forall_forall. intros r' [i Hi]%list_elem_of_lookup.
    apply Z.ltb_lt. rewrite (Hrows (S i) r' Hi). lia.
  - replace (Z.to_nat (after - k)) with (S (Z.to_nat (after - (k + 1)))) by lia. cbn [drop].
    apply IH; [|lia]. intros i r' Hi. rewrite (Hrows (S i) r' Hi). lia.
Qed.

Lemma numbered_sorted (rows : list EventRow) k :
  (∀ i r, rows !! i = Some r → vr_sequence r = Z.of_nat i + k + 1) → order_by (by_int vr_sequence) rows = rows.
Proof.
  intros Hrows. unfold order_by. apply js_sort_id. revert k Hrows.
  induction rows as [|r rows IH]; intros k Hrows; [constructor|]. constructor.
  - apply (IH (k + 1)). intros i r' Hi. rewrite (Hrows (S i) r' Hi). lia.
  - apply Forall_forall. intros r' [i Hi]%list_elem_of_lookup. unfold by_int.
    pose proof (Hrows 0%nat r eq_refl). pose proof (Hrows (S i) r' Hi).
    destruct (Z.compare_spec (vr_sequence r) (vr_sequence r')); [done|done|lia].
Qed.

Lemma filter_and {A} (p q : A → bool) l :
  List.filter (λ x, p x && q x) l = List.filter q (List.filter p l).
Proof.
  induction l as [|x l IH]; [done|]. cbn. destruct (p x); cbn; [|done]. destruct (q x); by rewrite IH.
Qed.

(** The rows of a stored workflow carry 1, 2, ... *)
Lemma stored_rows_numbered w d p :
  journal_wf d → stored w d = Some p → ∀ i r,
  List.filter (of_workflow w) (db_events d) !! i = Some r → vr_sequence r = Z.of_nat i + 0 + 1.
Proof.
  intros Hj Hp i r Hi. destruct (stored_wf _ _ _ Hj Hp) as (Hreplay & _ & _).
  apply reduce_sequence in Hreplay as [_ Hseq].
  assert (r ∈ db_events d) as Hr by (apply list_elem_of_lookup_2, filter_elem in Hi; by destruct Hi).
  rewrite <-(ew_sequence _ _ (jw_events _ Hj r Hr)).
  destruct (Hseq i (vr_event r)) as [-> _]; [|lia]. unfold history. by rewrite list_lookup_fmap, Hi.
Qed.

Lemma history_empty w d : journal_wf d → stored w d = None → history w d = [].
Proof.
  intros Hj Hp. unfold history. destruct (List.filter _ _) as [|r rs] eqn:Hf; [done|].
  assert (r ∈ List.filter (of_workflow w) (db_events d)) as Hr by (rewrite Hf; by left).
  apply filter_elem in Hr as [Hr Hw]. unfold of_workflow in Hw. split_bool. subst.
  pose proof (ew_stored _ _ (jw_events _ Hj r Hr)) as Hex. unfold workflow_exists in Hex.
  unfold stored in Hp. destruct (findb _ _) eqn:Hn; [done|]. apply findb_None in Hn.
  apply existsb_false in Hn. congruence.
Qed.

Lemma stored_exists w d : workflow_exists w d = match stored w d with Some _ => true | None => false end.
Proof.
  unfold workflow_exists, stored. destruct (findb _ _) as [r|] eqn:Hf; cbn.
  - apply existsb_true. exists r. by apply findb_Some in Hf.
  - by apply findb_None, existsb_false in Hf.
Qed.

(** ** The operations that read a history *)

Lemma get_workflow_reads w s :
  st_open s = true → journal_wf (st_db s) →
  get_workflow w s = (match history w (st_db s) with
                      | [] => Err "WORKFLOW_NOT_FOUND"
                      | es => reduceWorkflowEventsV1 es
                      end, s).
Proof.
  intros Ho Hj. unfold get_workflow. destruct (stored w (st_db s)) as [p|] eqn:Hp.
  - destruct (stored_wf _ _ _ Hj Hp) as (Hr & _ & _).
    assert (loadProjection w s = (Ok p, s)) as Hl.
    { apply loadProjection_Ok. split_and!; [done|done|by eapply reduce_id]. }
    unfold mbind, db_bind, database. rewrite Ho. cbn [fail_if negb]. rewrite Hl.
    destruct (history w (st_db s)) eqn:He; [done|]. by rewrite <-Hr.
  - rewrite (history_empty _ _ Hj Hp). unfold mbind, db_bind, database. rewrite Ho. cbn [fail_if negb].
    unfold loadProjection, mbind, db_bind, select. unfold stored in Hp. by destruct (findb _ _).
Qed.

Lemma events_reads w after s :
  st_open s = true → journal_wf (st_db s) → 0 ≤ after ≤ MAX_SAFE_INTEGER →
  events w after s = (match history w (st_db s) with
                      | [] => Err "WORKFLOW_NOT_FOUND"
                      | es => Ok (drop (Z.to_nat after) es)
                      end, s).
Proof.
  intros Ho Hj Ha. unfold events. rewrite (proj2 (nonNegativeInteger_int after) Ha).
  unfold mbind, db_bind, database, throw_if, of_res, select. rewrite Ho. cbn [fail_if negb].
  change (λ r : EventRow, bool_decide (vr_workflowId r = w) && (after <? vr_sequence r))
    with (λ r : EventRow, of_workflow w r && (after <? vr_sequence r)).
  rewrite filter_and, stored_exists. destruct (stored w (st_db s)) as [p|] eqn:Hp.
  - pose proof (stored_rows_numbered _ _ _ Hj Hp) as Hn. destruct (stored_wf _ _ _ Hj Hp) as (Hr & _ & _).
    rewrite (numbered_after _ 0) by (done || lia). rewrite (numbered_sorted _ after).
    + rewrite Z.sub_0_r. unfold mret, db_ret. rewrite fmap_drop.
      assert (history w (st_db s) ≠ []) as Hne by (by intros Hz; rewrite Hz in Hr).
      change (vr_event <$> List.filter (of_workflow w) (db_events (st_db s))) with (history w (st_db s)).
      destruct (history w (st_db s)); [done|].
      by destruct (drop _ (List.filter _ _)).
    + intros i r. rewrite lookup_drop. intros Hi%Hn. lia.
  - rewrite (history_empty _ _ Hj Hp). pose proof (history_empty _ _ Hj Hp) as He. unfold history in He.
    apply fmap_nil_inv in He. by rewrite He.
Qed.
End Reads.

Section Refinement.
Context `{JsEngine} `{JsCrypto} `{RandomUUID}.

Lemma fresh_journal : journal_wf (st_db fresh).
Proof. split; [constructor|intros r Hr; by apply elem_of_nil in Hr..]. Qed.

Lemma reachable_journal s : reachable s → journal_wf (st_db s).
Proof.
  induction 1 as [|s request _ IH]; [apply fresh_journal|]. by apply (execute_always request s).
Qed.

Lemma request_extends s request : journal_wf (st_db s) → extends (st_db s) (st_db (after_request s request)).
Proof. intros Hj. by apply (execute_always request s). Qed.

(** C10 The authority implements a set of append-only journals.  In every state
    that requests can reach from a new store, each workflow row is the replay of
    its events ([get] answers what the reducer makes of the history, [events]
    answers the history after the given sequence, and both say not-found for an
    unknown workflow); every request leaves every history as a prefix of the
    history after it, and one that fails, except for the sweep over expired human
    tasks, changes nothing at all. *)
Theorem authority_refines s :
  reachable s → st_open s = true →
  (∀ w, get_workflow w s = (match history w (st_db s) with
                            | [] => Err "WORKFLOW_NOT_FOUND"
                            | es => reduceWorkflowEventsV1 es
                            end, s)) ∧
  (∀ w after, 0 ≤ after ≤ MAX_SAFE_INTEGER →
    events w after s = (match history w (st_db s) with
                        | [] => Err "WORKFLOW_NOT_FOUND"
                        | es => Ok (drop (Z.to_nat after) es)
                        end, s)) ∧
  ∀ request, extends (st_db s) (st_db (after_request s request)) ∧
    (is_expiry request = false → ∀ code, (execute request s).1 = Err code →
      st_db (after_request s request) = st_db s).
Proof.
  intros Hs Ho. pose proof (reachable_journal _ Hs) as Hj. split_and!.
  - intros w. by apply get_workflow_reads.
  - intros w after Ha. by apply events_reads.
  - intros request. split; [by apply request_extends|]. intros Hr code Hc. unfold after_request.
    destruct (execute request s) as [r s'] eqn:He. cbn in Hc |- *. subst r. by eapply execute_atomic.
Qed.
End Refinement.

(** ** Recorded transactions stay *)

Definition recorded (x : string) (d : AuthorityDb) : option WorkflowProjectionV1 :=
  xa_projection <$> findb (λ r, bool_decide (xa_transactionId r = x)) (db_transactions d).

(** The table of transactions grows at its end. *)
Definition records (d d' : AuthorityDb) : Prop := ∃ l, db_transactions d' = db_transactions d ++ l.

#[export] Instance records_preorder : PreOrder records.
Proof.
  split.
  - intros d. exists []. by rewrite app_nil_r.
  - intros d1 d2 d3 [l1 E1] [l2 E2]. exists (l1 ++ l2). by rewrite E2, E1, app_assoc.
Qed.
Lemma records_agree d d' : db_transactions d' = db_transactions d → records d d'.
Proof. intros E. exists []. by rewrite E, app_nil_r. Qed.
#[export] Hint Extern 0 (records _ _) => apply records_agree; reflexivity : ensures.

Lemma findb_app_Some {A} (p : A → bool) l k x : findb p l = Some x → findb p (l ++ k) = Some x.
Proof. unfold findb. induction l as [|y l IH]; cbn; [done|]. destruct (p y); auto. Qed.
Lemma findb_app_None {A} (p : A → bool) l k : findb p l = None → findb p (l ++ k) = findb p k.
Proof. unfold findb. induction l as [|y l IH]; cbn; [done|]. destruct (p y); [done|auto]. Qed.

Lemma recorded_stays x p d d' : records d d' → recorded x d = Some p → recorded x d' = Some p.
Proof.
  unfold recorded. intros [l ->]. destruct (findb _ (db_transactions d)) as [r|] eqn:Hf; [|done].
  by rewrite (findb_app_Some _ _ _ _ Hf).
Qed.

Section Transactions.
Context `{JsEngine} `{JsCrypto} `{RandomUUID}.

Lemma recordTransaction_records x p : ensures records (recordTransaction x p).
Proof. intros s u s' Hs. unfold recordTransaction in Hs. inv_db. by eexists. Qed.
End Transactions.
#[export] Hint Resolve recordTransaction_records : ensures.

Section Transactions.
Context `{JsEngine} `{JsCrypto} `{RandomUUID}.

Lemma appendInternalEvents_records w x a data : ensures records (appendInternalEvents w x a data).
Proof. unfold appendInternalEvents. solve_ensures. Qed.
End Transactions.
#[export] Hint Resolve appendInternalEvents_records : ensures.

Section Transactions.
Context `{JsEngine} `{JsCrypto} `{RandomUUID}.

Lemma execute_records request : always records (execute request).
Proof.
  destruct request; cbn [execute].
  - intros s. unfold initialize. destruct (st_open s); [done|].
    assert (ensures records migrate) as Hm by (unfold migrate; solve_ensures).
    destruct (migrate s) as [[u|c] s'] eqn:Hs; cbn; [by eapply Hm|done].
  - intros s. done.
  - unfold create. solve_always.
  - unfold transact. solve_always.
  - unfold admitTaskForRequest, taskById, insert_task_request. solve_always.
  - unfold bindTaskCapabilityBundle, taskById. solve_always.
  - unfold claim. solve_always.
  - unfold heartbeat, taskById. solve_always.
  - unfold recoverExpired, recover_row, recover_terminal, recover_with_retry. solve_always.
  - unfold signal. solve_always.
  - unfold postMessage. solve_always.
  - unfold acknowledgeMessages. solve_always.
  - unfold acknowledgeMessage. solve_always.
  - unfold fireDueTimers, fire_timer. solve_always.
  - unfold resolveHumanTask. solve_always.
  - unfold expireDueHumanTasks, resolveHumanTask. solve_always.
  - unfold reserveEffectRequest. solve_always.
  - unfold reserveEffect, reserve_event, taskForAttempt. solve_always.
  - unfold markEffectCompensated. solve_always.
  - unfold retryNode. solve_always.
  - unfold resolveUnknown, get_workflow, listTasks, transact. solve_always.
  - unfold registerProfile. solve_always. intros s. by apply records_agree.
Qed.

Lemma requests_records requests s : records (st_db s) (st_db (foldl after_request s requests)).
Proof.
  revert s; induction requests as [|q l IH]; intros s; [done|]. cbn.
  etrans; [apply (execute_records q s)|apply IH].
Qed.

(** ** Runs of [transact] *)

Lemma transactionProjection_Ok x s o s' :
  transactionProjection x s = (Ok o, s') → s' = s ∧ recorded x (st_db s) = o ∧
  match o with Some p => AUTHORITY_ID (wp_workflowId p) = true | None => True end.
Proof.
  unfold transactionProjection, recorded, parseProjection. intros Hs. inv_db.
  destruct (findb _ _) as [r|]; inv_db; [|done]. inv_ok. split_bool. done.
Qed.
Lemma transactionProjection_run x s :
  (∀ p, recorded x (st_db s) = Some p → AUTHORITY_ID (wp_workflowId p) = true) →
  transactionProjection x s = (Ok (recorded x (st_db s)), s).
Proof.
  unfold transactionProjection, recorded, parseProjection, mbind, db_bind, select.
  destruct (findb _ _) as [r|]; cbn; [|done]. intros Hp. by rewrite (Hp _ eq_refl).
Qed.

(** A successful transaction was recorded before, or extends the history. *)
Lemma transact_Ok input s p s' :
  journal_wf (st_db s) → transact input s = (Ok p, s') →
  transaction_rejected input = false ∧ st_open s = true ∧ AUTHORITY_ID (wp_workflowId p) = true ∧
  recorded (wt_transactionId input) (st_db s') = Some p ∧
  (recorded (wt_transactionId input) (st_db s) = Some p ∧ s' = s ∨
   recorded (wt_transactionId input) (st_db s) = None ∧
   ∃ q, stored (wt_workflowId input) (st_db s) = Some q ∧ wp_sequence q = wt_expectedSequence input ∧
     let es := envelopeEvents (wp_spec q) (wp_sequence q) (wt_transactionId input) (wt_events input)
       (wt_occurredAt input) in
     apply_events q es = Ok p ∧
     history (wt_workflowId input) (st_db s') = history (wt_workflowId input) (st_db s) ++ es ∧
     stored (wt_workflowId input) (st_db s') = Some p).
Proof.
  intros Hj Hs. unfold transact in Hs.
  apply bind_db_Ok in Hs as (? & s1 & [Hrej ->]%throw_if_Ok & Hs). apply transaction_Ok in Hs as [Ho Hs].
  apply bind_db_Ok in Hs as (dup & s1 & (-> & Hdup & Hid)%transactionProjection_Ok & Hs).
  split; [done|]. split; [done|]. destruct dup as [p0|].
  { apply ret_db_Ok in Hs as [-> ->]. split_and!; [done|done|by left]. }
  apply bind_db_Ok in Hs as (q & s2 & (-> & Hq & Hqid)%loadProjection_Ok & Hs).
  apply bind_db_Ok in Hs as (? & s2 & [Hseq ->]%throw_if_Ok & Hs). cbn zeta in Hs.
  apply bind_db_Ok in Hs as (n & s2 & [Hn ->]%of_res_Ok & Hs).
  apply bind_db_Ok in Hs as (? & s2 & He & Hs).
  apply bind_db_Ok in Hs as (? & s3 & Hw & Hs). apply bind_db_Ok in Hs as (? & s4 & Hv & Hs).
  assert (agree journal (st_db s2) (st_db s3)) as Hj3 by (by_ensures (agree journal) Hw; solve_ensures).
  assert (agree db_transactions (st_db s2) (st_db s3)) as Hx3 by (by_ensures (agree db_transactions) Hw; solve_ensures).
  apply bind_db_Ok in Hs as (? & s5 & Hr & [-> ->]%ret_db_Ok).
  apply insertEvents_Ok in He as [He _]. unfold saveProjection in Hv. apply update_Ok in Hv as ->.
  unfold recordTransaction in Hr. inv_db.
  destruct (stored_wf _ _ _ Hj Hq) as (_ & Hwq & Hwf).
  assert (wp_workflowId n = wt_workflowId input) as Hwp.
  { rewrite <-Hwq. apply apply_events_continues in Hn as [_ (_ & -> & _)]; done. }
  unfold agree in Hj3, Hx3. rewrite He in Hj3, Hx3.
  assert (db_workflows (st_db s3) = db_workflows (st_db s)) as Hw3 by exact (f_equal fst Hj3).
  pose proof (f_equal snd Hj3) as Hv3. cbn [snd journal db_events set_events] in Hv3. cbn in Hx3.
  set (d' := set_transactions _ _).
  assert (journal d' = (save_rows n (db_workflows (st_db s)), db_events (st_db s) ++ (event_row <$>
    envelopeEvents (wp_spec q) (wp_sequence q) (wt_transactionId input) (wt_events input) (wt_occurredAt input)))) as Hd.
  { unfold journal, d'. cbn. by rewrite Hw3, Hv3. }
  destruct (commit_history _ _ _ _ _ _ Hj Hq Hn Hd) as (_ & Hh & _).
  assert (recorded (wt_transactionId input) d' = Some n) as Hrec.
  { unfold recorded in *. unfold d'. cbn. rewrite Hx3. destruct (findb _ _) eqn:Hf; [done|].
    rewrite (findb_app_None _ _ _ Hf). cbn. by rewrite bool_decide_eq_true_2. }
  split_and!; [by rewrite Hwp, <-Hwq|exact Hrec|].
  right. split; [done|]. exists q. split; [done|]. split; [by apply negb_false_iff, Z.eqb_eq in Hseq|].
  split; [done|]. split; [exact Hh|]. by eapply commit_stored.
Qed.

Lemma reachable_after s input p s1 : reachable s → transact input s = (Ok p, s1) → reachable s1.
Proof.
  intros Hs Ht. replace s1 with (after_request s (do_transact input)) by
    (unfold after_request; cbn [execute]; unfold mbind, db_bind; by rewrite Ht). by constructor.
Qed.

Lemma with_db_id s : with_db s (st_db s) = s.
Proof. by destruct s. Qed.

(** What a transaction does before it reads the workflow. *)
Lemma transact_recorded input s :
  transaction_rejected input = false → st_open s = true →
  (∀ p, recorded (wt_transactionId input) (st_db s) = Some p → AUTHORITY_ID (wp_workflowId p) = true) →
  ∀ p, recorded (wt_transactionId input) (st_db s) = Some p → transact input s = (Ok p, s).
Proof.
  intros Hrej Ho Hid p Hp. unfold transact. rewrite Hrej. unfold mbind at 1, db_bind at 1, throw_if, of_res, fail_if.
  unfold transaction. rewrite Ho. unfold mbind at 1, db_bind at 1.
  by rewrite (transactionProjection_run _ _ Hid), Hp.
Qed.

(** The length of a history is the sequence of its projection. *)
Lemma stored_sequence w d p :
  journal_wf d → stored w d = Some p → wp_sequence p = Z.of_nat (length (history w d)).
Proof. intros Hj (Hr & _ & _)%stored_wf; [|done]. by apply reduce_sequence in Hr as [-> _]. Qed.

Lemma extends_stored w d d' p :
  journal_wf d → journal_wf d' → extends d d' → stored w d = Some p →
  ∃ q, stored w d' = Some q ∧ wp_sequence p ≤ wp_sequence q.
Proof.
  intros Hj Hj' Hext Hp. destruct (Hext w) as [es He]. pose proof (stored_sequence _ _ _ Hj Hp) as Hs.
  destruct (stored_wf _ _ _ Hj Hp) as (Hr & _ & _).
  destruct (stored w d') as [q|] eqn:Hq.
  - exists q. split; [done|]. rewrite Hs, (stored_sequence _ _ _ Hj' Hq), He, length_app. lia.
  - rewrite (history_empty _ _ Hj' Hq) in He. destruct (history w d); [by cbn in Hr|done].
Qed.

Lemma requests_extend requests s :
  reachable s → extends (st_db s) (st_db (foldl after_request s requests)).
Proof.
  revert s; induction requests as [|q l IH]; intros s Hs; [done|]. cbn.
  etrans; [apply request_extends, reachable_journal, Hs|]. apply IH. by constructor.
Qed.

(** C14 Transactions are idempotent: once a transaction with an identity has
    returned a projection, any later transaction with that identity, after any
    requests in between and whatever else it asks for, returns the same projection
    and changes nothing. *)
Theorem transact_once s input p s1 requests input' :
  reachable s → transact input s = (Ok p, s1) →
  transaction_rejected input' = false → wt_transactionId input' = wt_transactionId input →
  let s2 := foldl after_request s1 requests in
  st_open s2 = true → transact input' s2 = (Ok p, s2).
Proof.
  intros Hs Ht Hrej Hid s2 Ho. destruct (transact_Ok _ _ _ _ (reachable_journal _ Hs) Ht) as (_ & _ & Hp & Hrec & _).
  pose proof (recorded_stays _ _ _ _ (requests_records requests s1) Hrec) as Hrec2. fold s2 in Hrec2.
  rewrite <-Hid in Hrec2. apply transact_recorded; [done|done| |done]. intros p' Hp'. congruence.
Qed.

(** C15 Optimistic concurrency: when a new transaction has appended events at a
    sequence of a workflow, every other new transaction that expects this sequence
    is refused with a sequence conflict, whatever happens in between, and changes
    nothing. *)
Theorem transact_exclusive s input p s1 requests input' :
  reachable s → transact input s = (Ok p, s1) →
  recorded (wt_transactionId input) (st_db s) = None → wt_events input ≠ [] →
  transaction_rejected input' = false → wt_workflowId input' = wt_workflowId input →
  wt_expectedSequence input' = wt_expectedSequence input →
  let s2 := foldl after_request s1 requests in
  st_open s2 = true → recorded (wt_transactionId input') (st_db s2) = None →
  transact input' s2 = (Err "WORKFLOW_SEQUENCE_CONFLICT", s2).
Proof.
  intros Hs Ht Hnew Hev Hrej Hw Hseq s2 Ho Hnew2.
  pose proof (reachable_after _ _ _ _ Hs Ht) as Hs1.
  pose proof (reachable_journal _ (reachable_foldl _ requests Hs1)) as Hj2. fold s2 in Hj2.
  destruct (transact_Ok _ _ _ _ (reachable_journal _ Hs) Ht) as (_ & _ & _ & _ & [[? _]|(_ & q & Hq & Hqs & Hn & _ & Hst)]);
    [congruence|].
  assert (wp_sequence p = wp_sequence q + Z.of_nat (length (wt_events input))) as Hps.
  { apply apply_events_continues in Hn as [_ (-> & _)]; [|by destruct (stored_wf _ _ _ (reachable_journal _ Hs) Hq) as (_ & _ & ?)].
    unfold envelopeEvents. by rewrite length_imap. }
  destruct (extends_stored _ _ _ _ (reachable_journal _ Hs1) Hj2 (requests_extend requests s1 Hs1) Hst) as (r & Hr & Hle).
  fold s2 in Hr. destruct (stored_wf _ _ _ Hj2 Hr) as (Hrr & _ & _).
  unfold transact. rewrite Hrej. unfold mbind at 1, db_bind at 1, throw_if, of_res, fail_if.
  unfold transaction. rewrite Ho. unfold mbind at 1, db_bind at 1.
  rewrite transactionProjection_run by congruence. rewrite Hnew2, Hw, Hseq.
  assert (loadProjection (wt_workflowId input) s2 = (Ok r, s2)) as Hl.
  { apply loadProjection_Ok. split_and!; [done|done|by eapply reduce_id]. }
  unfold mbind at 1, db_bind at 1. rewrite Hl. unfold mbind at 1, db_bind at 1.
  assert (0 < length (wt_events input))%nat by (destruct (wt_events input); [done|cbn; lia]).
  assert (wp_sequence r =? wt_expectedSequence input = false) as -> by (apply Z.eqb_neq; lia).
  cbn. by rewrite with_db_id.
Qed.
End Transactions.
