(* ===== verification/AuthorityTasks.v ===== *)
(** * The task table of the Workflow authority

    The columns of a task row agree with the task that its JSON column holds, a
    row is under a lease exactly when its task is, identities are unique and
    stay; what a claim reads, grants and writes. *)

From S2P Require Import Prelude Js JsOps CanonicalJson Workflow WorkflowReducer WorkflowExecution AuthorityDb AuthorityStatements WorkflowAuthority AuthorityFacts AuthorityJournal.
Local Open Scope Z_scope.

(** ** The invariant *)

(** The columns that no statement updates, as the task has them. *)
Definition task_key (t : WorkflowTaskV1) :=
  (tk_taskId t, tk_workflowId t, tk_nodeId t, tk_attemptId t, tk_kind t, tk_priority t, tk_readyAt t, tk_createdAt t).
Definition row_key (r : TaskRow) :=
  (tr_taskId r, tr_workflowId r, tr_nodeId r, tr_attemptId r, tr_kind r, tr_priority r, tr_readyAt r, tr_createdAt r).

(** The expiry column of a task. *)
Definition lease_column (t : WorkflowTaskV1) : option string :=
  if bool_decide (tk_state t = task_leased) then le_expiresAt <$> tk_lease t else None.

Record task_row_wf (r : TaskRow) : Prop := {
  tw_key : row_key r = task_key (tr_task r);
  tw_state : tr_state r = tk_state (tr_task r);
  tw_expires : tr_leaseExpiresAt r = lease_column (tr_task r);
  tw_leased : tr_state r = task_leased → is_Some (tk_lease (tr_task r));
}.
Record tasks_wf (d : AuthorityDb) : Prop := {
  tw_ids : NoDup (tr_taskId <$> db_tasks d);
  tw_attempts : NoDup (tr_attemptId <$> db_tasks d);
  tw_rows : ∀ r, r ∈ db_tasks d → task_row_wf r;
}.

(** Rows are added at the end and keep their identities. *)
Definition keys (d : AuthorityDb) := row_key <$> db_tasks d.
Definition keys_grow (d d' : AuthorityDb) : Prop := keys d `prefix_of` keys d'.
#[export] Instance keys_grow_preorder : PreOrder keys_grow.
Proof. unfold keys_grow. split; [by intros d|]. intros d1 d2 d3 ? ?. by etrans. Qed.

Definition tasks_step (d d' : AuthorityDb) : Prop := tasks_wf d → tasks_wf d' ∧ keys_grow d d'.
#[export] Instance tasks_step_preorder : PreOrder tasks_step.
Proof.
  split; [by intros d ?|]. intros d1 d2 d3 H1 H2 Hd. destruct (H1 Hd) as [Hd2 ?], (H2 Hd2). split; [done|by etrans].
Qed.

Lemma tasks_step_agree d d' : db_tasks d' = db_tasks d → tasks_step d d'.
Proof.
  intros E [H1 H2 H3]. split; [split; by rewrite E|]. unfold keys_grow, keys. by rewrite E.
Qed.
#[export] Hint Extern 0 (tasks_step _ _) => apply tasks_step_agree; reflexivity : ensures.

(** ** Updates *)

Lemma update_rows_elem {A} p (f : A → A) rows x :
  x ∈ update_rows p f rows ↔ ∃ y, y ∈ rows ∧ x = if p y then f y else y.
Proof. unfold update_rows. rewrite list_elem_of_fmap. naive_solver. Qed.

Lemma ids_of_keys (rows rows' : list TaskRow) :
  row_key <$> rows' = row_key <$> rows →
  tr_taskId <$> rows' = tr_taskId <$> rows ∧ tr_attemptId <$> rows' = tr_attemptId <$> rows.
Proof.
  intros Hk.
  assert (∀ (l : list TaskRow), tr_taskId <$> l = (λ k, k.1.1.1.1.1.1.1) <$> (row_key <$> l)) as Hi
    by (intros l; rewrite <-list_fmap_compose; by apply list_fmap_ext).
  assert (∀ (l : list TaskRow), tr_attemptId <$> l = (λ k, k.1.1.1.1.2) <$> (row_key <$> l)) as Ha
    by (intros l; rewrite <-list_fmap_compose; by apply list_fmap_ext).
  by rewrite !Hi, !Ha, Hk.
Qed.

(** The row of a task. *)
Definition put_version (t : WorkflowTaskV1) : TaskRow → TaskRow := put_task (tk_state t) (lease_column t) t.

(** Rows are replaced by a task of the same key. *)
Lemma put_row_step p f t d :
  (∀ r, r ∈ db_tasks d → p r = true → row_key r = task_key t ∧ f r = put_version t r) →
  (tk_state t = task_leased → is_Some (tk_lease t)) →
  tasks_step d (set_tasks (update_rows p f (db_tasks d)) d).
Proof.
  intros Hp Hl [Hi Ha Hr].
  assert (row_key <$> update_rows p f (db_tasks d) = row_key <$> db_tasks d) as Hk.
  { clear -Hp. unfold update_rows. induction (db_tasks d) as [|r l IH]; [done|]. rewrite !fmap_cons. f_equal.
    - destruct (p r) eqn:Hpr; [|done]. destruct (Hp r ltac:(by left) Hpr) as [_ ->]. done.
    - apply IH. intros r' Hr'. apply Hp. by right. }
  destruct (ids_of_keys _ _ Hk) as [E1 E2]. split.
  - split; cbn; [by rewrite E1|by rewrite E2|].
    intros r (y & Hy & ->)%update_rows_elem. destruct (p y) eqn:Hpy; [|by apply Hr].
    destruct (Hp y Hy Hpy) as [Hky ->]. split; cbn; [|done|done|done]. by rewrite <-Hky.
  - unfold keys_grow, keys. cbn. by rewrite Hk.
Qed.

Lemma task_unique d r r' :
  tasks_wf d → r ∈ db_tasks d → r' ∈ db_tasks d → tr_taskId r = tr_taskId r' → r = r'.
Proof. intros Hd. apply (NoDup_fmap_elem tr_taskId), tw_ids, Hd. Qed.

(** A row of an earlier state has a successor with its key. *)
Lemma row_successor d0 d r0 :
  keys_grow d0 d → r0 ∈ db_tasks d0 → ∃ r, r ∈ db_tasks d ∧ row_key r = row_key r0.
Proof.
  intros [l Hl] Hr. assert (row_key r0 ∈ keys d) as Hin.
  { rewrite Hl. apply elem_of_app. left. by apply list_elem_of_fmap_2. }
  apply list_elem_of_fmap in Hin as (r & ? & ?). by exists r.
Qed.

Lemma earlier_task_key d0 d r0 r :
  tasks_wf d0 → tasks_wf d → keys_grow d0 d → r0 ∈ db_tasks d0 → r ∈ db_tasks d →
  tr_taskId r = tk_taskId (tr_task r0) → row_key r = task_key (tr_task r0).
Proof.
  intros Hd0 Hd Hg Hr0 Hr Hid. pose proof (tw_key _ (tw_rows _ Hd0 r0 Hr0)) as Hk0. rewrite <-Hk0.
  destruct (row_successor _ _ _ Hg Hr0) as (r' & Hr' & Hk). rewrite <-Hk. f_equal.
  apply (task_unique d); [done|done|done|]. rewrite Hid. unfold row_key, task_key in *. congruence.
Qed.

(** ** New rows *)

Definition task_ids (d : AuthorityDb) : list string := tr_taskId <$> db_tasks d.
Definition attempt_ids (d : AuthorityDb) : list string := tr_attemptId <$> db_tasks d.

(** The row that [insertTask] adds. *)
Definition task_row (t : WorkflowTaskV1) : TaskRow :=
  {| tr_taskId := tk_taskId t; tr_workflowId := tk_workflowId t; tr_nodeId := tk_nodeId t;
     tr_attemptId := tk_attemptId t; tr_kind := tk_kind t; tr_state := tk_state t; tr_priority := tk_priority t;
     tr_readyAt := tk_readyAt t; tr_leaseExpiresAt := None; tr_task := t; tr_createdAt := tk_createdAt t |}.

Lemma add_step t d :
  tk_taskId t ∉ task_ids d → tk_attemptId t ∉ attempt_ids d → tk_state t = task_ready →
  tasks_step d (set_tasks (db_tasks d ++ [task_row t]) d).
Proof.
  intros Hid Hat Hready [Hi Ha Hr]. split; [split; cbn|].
  - rewrite fmap_app. apply NoDup_app. split_and!; [done| |apply NoDup_singleton]. by intros i Hin ->%list_elem_of_singleton.
  - rewrite fmap_app. apply NoDup_app. split_and!; [done| |apply NoDup_singleton]. by intros i Hin ->%list_elem_of_singleton.
  - intros r [?| ->%list_elem_of_singleton]%elem_of_app; [by apply Hr|].
    split; cbn; [done|done| |congruence]. unfold lease_column. by rewrite bool_decide_eq_false_2 by congruence.
  - unfold keys_grow, keys. cbn. rewrite fmap_app. by apply prefix_app_r.
Qed.

(** ** Statements *)

Section Statements.
Context `{JsEngine}.

Lemma read_task_Ok p s t s' :
  read_task p s = (Ok t, s') → s' = s ∧ ∃ r, r ∈ db_tasks (st_db s) ∧ p r = true ∧ tr_task r = t ∧ parseTask t = Ok t.
Proof.
  unfold read_task. intros Hs. inv_db. destruct (findb _ _) as [r|] eqn:Hf; inv_db.
  apply findb_Some in Hf as [Hin Hp]. split; [done|]. exists r.
  assert (tr_task r = t) as <-; [|done]. unfold parseTask in Hs. by inv_ok.
Qed.

Lemma taskById_Ok id s t s' :
  tasks_wf (st_db s) → taskById id s = (Ok t, s') →
  s' = s ∧ tk_taskId t = id ∧ (∃ r, r ∈ db_tasks (st_db s) ∧ tr_task r = t ∧ tr_taskId r = id) ∧
  ∀ r, r ∈ db_tasks (st_db s) → tr_taskId r = id → tr_task r = t ∧ row_key r = task_key t.
Proof.
  intros Hd (-> & r & Hin & Hp & <- & _)%read_task_Ok. split_bool. split; [done|].
  pose proof (tw_key _ (tw_rows _ Hd r Hin)) as Hk.
  split; [unfold row_key, task_key in Hk; congruence|]. split; [by exists r|].
  intros r' Hin' Hid. assert (r' = r) as -> by (eapply task_unique; try done; congruence). done.
Qed.

(** The update of one task by a version of it. *)
Lemma update_task_step id f t s u s' :
  (∀ r, r ∈ db_tasks (st_db s) → tr_taskId r = id → row_key r = task_key t ∧ f r = put_version t r) →
  (tk_state t = task_leased → is_Some (tk_lease t)) →
  update_task id f s = (Ok u, s') → tasks_step (st_db s) (st_db s').
Proof.
  intros Hk Hl Hs. unfold update_task in Hs. inv_db. apply (put_row_step _ _ t); [|done].
  intros r Hin Hid. split_bool. by apply Hk.
Qed.

Lemma insertTask_Ok task s u s' :
  insertTask task s = (Ok u, s') →
  tk_taskId task ∉ task_ids (st_db s) ∧ tk_attemptId task ∉ attempt_ids (st_db s) ∧ tk_state task = task_ready ∧
  st_db s' = set_tasks (db_tasks (st_db s) ++ [task_row task]) (st_db s).
Proof.
  unfold insertTask. intros Hs. inv_db. split_bool.
  match goal with Hx : existsb _ _ = false |- _ => rewrite existsb_false, Forall_forall in Hx; rename Hx into Hfresh end.
  match goal with Hx : ¬ _ ≠ _ |- _ => apply dec_stable in Hx; rename Hx into Hready end.
  split_and!; [| |done|done];
    intros (r & Hid & Hr)%list_elem_of_fmap; specialize (Hfresh r Hr); cbn in Hfresh; split_bool; done.
Qed.

Lemma insertTask_step task : ensures tasks_step (insertTask task).
Proof. intros s u s' (Hi & Ha & Hr & ->)%insertTask_Ok. by apply add_step. Qed.

Lemma acknowledgeTask_step ack a : ensures tasks_step (acknowledgeTask ack a).
Proof.
  intros s u s' Hs Hd. unfold acknowledgeTask in Hs.
  apply bind_db_Ok in Hs as (t & s1 & (-> & Hid & _ & Hk)%taskById_Ok & Hs); [|done].
  apply bind_db_Ok in Hs as (? & s1 & [_ ->]%throw_if_Ok & Hs). cbn zeta in Hs.
  eapply (update_task_step _ _ (task_with t (task_outcome (ak_state ack)) None a)); [| |exact Hs|done].
  - intros r Hr Hri. destruct (Hk r Hr Hri) as [_ ->]. split; [done|]. by destruct (ak_state ack).
  - cbn. by destruct (ak_state ack).
Qed.

Lemma cancelReadyTask_step w id a : ensures tasks_step (cancelReadyTask w id a).
Proof.
  intros s u s' Hs Hd. unfold cancelReadyTask in Hs.
  apply bind_db_Ok in Hs as (? & s1 & [_ ->]%throw_if_Ok & Hs).
  apply bind_db_Ok in Hs as (t & s1 & (-> & Hid & _ & Hk)%taskById_Ok & Hs); [|done].
  apply bind_db_Ok in Hs as (? & s1 & [_ ->]%throw_if_Ok & Hs).
  eapply (update_task_step _ _ (task_with t task_cancelled None a)); [| |exact Hs|done].
  - intros r Hr Hri. by destruct (Hk r Hr Hri) as [_ ->].
  - done.
Qed.
End Statements.
#[export] Hint Resolve insertTask_step acknowledgeTask_step cancelReadyTask_step : ensures.

Section Operations.
Context `{JsEngine} `{JsCrypto} `{RandomUUID}.

Lemma expect_lease t l : tk_state t = task_leased → tk_lease t = Some l → lease_column t = Some (le_expiresAt l).
Proof. intros Hs Hl. unfold lease_column. by rewrite bool_decide_eq_true_2, Hl. Qed.

Lemma holds_lease_Ok t token :
  holds_lease t token = true → tk_state t = task_leased ∧ ∃ l, tk_lease t = Some l ∧ le_token l = token.
Proof. unfold holds_lease. intros Hh. split_bool. destruct (tk_lease t); [|done]. split_bool. eauto. Qed.

Lemma bind_step id token ref a : ensures tasks_step (bindTaskCapabilityBundle id token ref a).
Proof.
  intros s q s' Hs Hd. unfold bindTaskCapabilityBundle in Hs.
  apply bind_db_Ok in Hs as (? & s1 & [_ ->]%throw_if_Ok & Hs). apply transaction_Ok in Hs as [_ Hs].
  apply bind_db_Ok in Hs as (t & s1 & (-> & Hid & _ & Hk)%taskById_Ok & Hs); [|done].
  apply bind_db_Ok in Hs as (? & s1 & [Hl ->]%throw_if_Ok & Hs).
  apply bind_db_Ok in Hs as (? & s1 & [_ ->]%throw_if_Ok & Hs). cbn zeta in Hs.
  apply bind_db_Ok in Hs as (? & s1 & Hu & Hs).
  apply negb_false_iff, holds_lease_Ok in Hl as (Hst & l & Hl & _).
  assert (tasks_step (st_db s1) (st_db s')) as Hrest by (by_ensures tasks_step Hs; solve_ensures).
  apply (update_task_step _ _ (task_with_bundle t ref a)) in Hu; [|..].
  - destruct (Hu Hd) as [Hd1 ?], (Hrest (proj1 (Hu Hd))). split; [done|by etrans].
  - intros r Hr Hri. destruct (Hk r Hr Hri) as [Ht Hkey]. split; [done|].
    destruct (tw_rows _ Hd r Hr) as [_ Hrs Hre _]. unfold put_version. cbn. f_equal; [congruence|].
    rewrite Hre, Ht. unfold lease_column. by cbn.
  - cbn. intros _. by rewrite Hl.
Qed.

Lemma heartbeat_step id token progress now : ensures tasks_step (heartbeat id token progress now).
Proof.
  intros s q s' Hs Hd. unfold heartbeat in Hs. apply transaction_Ok in Hs as [_ Hs].
  apply bind_db_Ok in Hs as (t & s1 & (-> & Hid & _ & Hk)%taskById_Ok & Hs); [|done].
  destruct (tk_lease t) as [held|] eqn:Hheld; [|by inv_db].
  apply bind_db_Ok in Hs as (? & s1 & [Hl ->]%throw_if_Ok & Hs). split_bool.
  match goal with Hh : holds_lease _ _ = true |- _ => apply holds_lease_Ok in Hh as (Hst & _) end.
  apply bind_db_Ok in Hs as (e & s1 & [He ->]%of_res_Ok & Hs). cbn zeta in Hs.
  apply bind_db_Ok in Hs as (? & s1 & Hu & [-> ->]%ret_db_Ok).
  eapply (update_task_step _ _ (task_with t (tk_state t) _ now)); [| |exact Hu|done].
  - intros r Hr Hri. destruct (Hk r Hr Hri) as [Ht Hkey]. split; [done|].
    destruct (tw_rows _ Hd r Hr) as [_ Hrs _ _]. unfold put_version. cbn. f_equal; [congruence|].
    unfold lease_column. cbn. by rewrite bool_decide_eq_true_2.
  - cbn. by eexists.
Qed.
End Operations.

(** ** Shared capacity *)

(** The capacity groups of the stored workflow of a task. *)
Definition stored_groups (d : AuthorityDb) (workflowId : string) : list WorkflowCapacityGroupV1 :=
  match stored workflowId d with Some p => capacity_groups p | None => [] end.
Definition active_groups (d : AuthorityDb) (tasks : list WorkflowTaskV1) : list WorkflowCapacityGroupV1 :=
  flat_map (λ t, stored_groups d (tk_workflowId t)) tasks.
Definition of_group (key : string) : list WorkflowCapacityGroupV1 → list WorkflowCapacityGroupV1 :=
  List.filter (λ g, bool_decide (cg_key g = key)).

(** What the map of the active groups holds. *)
Lemma add_capacity_groups gs key :
  match mget key (foldl add_capacity [] gs) with
  | None => of_group key gs = []
  | Some c => ac_count c = Z.of_nat (length (of_group key gs)) ∧ ∀ g, g ∈ of_group key gs → ac_limit c ≤ cg_limit g
  end.
Proof.
  induction gs as [|g gs IH] using rev_ind; [done|]. rewrite foldl_app. cbn [foldl].
  unfold add_capacity at 1. rewrite mget_mset. unfold of_group in *. rewrite List.filter_app. cbn [List.filter].
  case_decide as Hk.
  - rewrite bool_decide_eq_true_2 by done. subst. split; cbn [ac_count ac_limit].
    + rewrite length_app. cbn [length]. destruct (mget _ _) as [c|]; cbn [from_option]; [destruct IH; lia|].
      rewrite IH. cbn. lia.
    + intros g' [Hg'| ->%list_elem_of_singleton]%elem_of_app; [|lia].
      destruct (mget _ _) as [c|]; cbn [from_option].
      * destruct IH as [_ IH]. specialize (IH g' Hg'). lia.
      * rewrite IH in Hg'. by apply elem_of_nil in Hg'.
  - rewrite bool_decide_eq_false_2 by done. by rewrite app_nil_r.
Qed.

Section Claim.
Context `{JsEngine} `{JsCrypto} `{RandomUUID}.

Lemma activeCapacityGroups_Ok tasks groups s m s' :
  activeCapacityGroups tasks groups s = (Ok m, s') →
  s' = s ∧ m = foldl add_capacity groups (active_groups (st_db s) tasks).
Proof.
  revert groups; induction tasks as [|t tasks IH]; intros groups; cbn [activeCapacityGroups active_groups flat_map].
  - by intros [-> ->]%ret_db_Ok.
  - intros (p & s1 & (-> & Hp & _)%loadProjection_Ok & Hs)%bind_db_Ok. apply IH in Hs as [-> ->].
    split; [done|]. rewrite foldl_app. unfold stored_groups. by rewrite Hp.
Qed.

(** A workflow with room for one more task: below its own limits and those of
    every active task in the same group. *)
Definition has_capacity (d : AuthorityDb) (projection : WorkflowProjectionV1) (active : list WorkflowTaskV1) : Prop :=
  ∀ g, g ∈ capacity_groups projection →
    let used := of_group (cg_key g) (active_groups d active) in
    used = [] ∨ ∀ g', g' ∈ g :: used → Z.of_nat (length used) < cg_limit g'.

Lemma capacityAvailable_Ok d projection active :
  capacityAvailable projection (foldl add_capacity [] (active_groups d active)) = true →
  has_capacity d projection active.
Proof.
  unfold capacityAvailable. rewrite forallb_true, Forall_forall. intros Hall g Hg used. specialize (Hall g Hg).
  pose proof (add_capacity_groups (active_groups d active) (cg_key g)) as Hm. cbn beta in Hall.
  destruct (mget _ _) as [c|]; [|by left]. right. destruct Hm as [Hc Hl].
  apply Z.ltb_lt in Hall. fold used in Hc, Hl. intros g' [->|Hg']%elem_of_cons; [lia|]. specialize (Hl g' Hg'). lia.
Qed.

(** ** The candidate *)

Lemma claimable_Ok o occupied active t s b s' :
  claimable o occupied active t s = (Ok b, s') →
  s' = s ∧ (b = true →
    matches (co_workflowId o) (tk_workflowId t) = true ∧ matches (co_nodeId o) (tk_nodeId t) = true ∧
    allowed (co_kinds o) (tk_kind t) = true ∧ (∀ key, key ∈ tk_conflictKeys t → key ∉ occupied) ∧
    ∃ p, stored (tk_workflowId t) (st_db s) = Some p ∧
      np_state <$> find_node p (tk_nodeId t) = Some N_scheduled ∧
      (delegates (tk_kind t) = true → capacityAvailable p active = true)).
Proof.
  unfold claimable. destruct (_ || _) eqn:Hc.
  - intros [-> ->]%ret_db_Ok. done.
  - intros (p & s1 & (-> & Hp & _)%loadProjection_Ok & [-> ->]%ret_db_Ok)%bind_db_Ok. split; [done|].
    intros Hb. split_bool. split_and!; [done|done|done| |].
    + intros key Hkey. match goal with Hf : forallb _ _ = true |- _ => rewrite forallb_true, Forall_forall in Hf;
        specialize (Hf key Hkey) end. split_bool. by apply memb_false.
    + exists p. split_and!; [done|done|]. intros Hd. rewrite Hd in *. match goal with Ho : negb true || _ = true |- _ => exact Ho end.
Qed.

Lemma find_candidate_Ok p l s o s' :
  (∀ t s b s', p t s = (Ok b, s') → s' = s) → find_candidate p l s = (Ok o, s') →
  s' = s ∧ ∀ t, o = Some t → t ∈ l ∧ p t s = (Ok true, s).
Proof.
  intros Hp. revert s; induction l as [|t l IH]; intros s; cbn.
  - by intros [-> ->]%ret_db_Ok.
  - intros (b & s1 & Hb & Hs)%bind_db_Ok. pose proof (Hp _ _ _ _ Hb) as ->. destruct b.
    + apply ret_db_Ok in Hs as [-> ->]. split; [done|]. intros t' [= <-]. split; [by left|done].
    + destruct (IH _ Hs) as [-> Ho]. split; [done|]. intros t' Ht'. destruct (Ho t' Ht'). split; [by right|done].
Qed.

Lemma claim_candidates_elem now d r :
  r ∈ claim_candidates now d → r ∈ db_tasks d ∧ tr_state r = task_ready ∧ string_leb (tr_readyAt r) now = true ∧
  ∃ w, w ∈ db_workflows d ∧ wr_workflowId w = tr_workflowId r ∧ wr_state w = W_running.
Proof.
  unfold claim_candidates, limit, order_by. intros Hr. eapply subseteq_take, js_sort_elem, filter_elem in Hr as [Hin Hr].
  split_bool. split_and!; [done..|].
  match goal with He : existsb _ _ = true |- _ => apply existsb_true in He as (w & Hw & He) end. split_bool. by exists w.
Qed.

Lemma parse_tasks_Ok rows tasks :
  mapM (λ r, parseTask (tr_task r)) rows = Ok tasks → tasks = tr_task <$> rows.
Proof.
  intros Hm%mapM_Ok. induction Hm as [|r t rows tasks Hr _ IH]; [done|]. rewrite fmap_cons, <-IH. f_equal.
  unfold parseTask in Hr. by inv_ok.
Qed.

(** The tasks whose lease has not expired. *)
Definition active_tasks (now : string) (d : AuthorityDb) : list WorkflowTaskV1 := tr_task <$> leased_rows now d.
Definition active_delegates (now : string) (d : AuthorityDb) : list WorkflowTaskV1 :=
  List.filter (λ t, delegates (tk_kind t)) (active_tasks now d).

(** Why the task of a row may be given out: it is ready and due, in a running
    workflow that wants the node to run; no unexpired lease holds one of its
    conflict keys, and a task that delegates finds capacity. *)
Record grants (now : string) (o : ClaimOptions) (d : AuthorityDb) (r : TaskRow) (p : WorkflowProjectionV1) : Prop := {
  gr_row : r ∈ db_tasks d;
  gr_ready : tr_state r = task_ready;
  gr_due : string_leb (tr_readyAt r) now = true;
  gr_running : ∃ w, w ∈ db_workflows d ∧ wr_workflowId w = tr_workflowId r ∧ wr_state w = W_running;
  gr_workflow : matches (co_workflowId o) (tk_workflowId (tr_task r)) = true;
  gr_node : matches (co_nodeId o) (tk_nodeId (tr_task r)) = true;
  gr_kind : allowed (co_kinds o) (tk_kind (tr_task r)) = true;
  gr_keys : ∀ t key, t ∈ active_tasks now d → key ∈ tk_conflictKeys t → key ∉ tk_conflictKeys (tr_task r);
  gr_projection : stored (tk_workflowId (tr_task r)) d = Some p;
  gr_scheduled : np_state <$> find_node p (tk_nodeId (tr_task r)) = Some N_scheduled;
  gr_capacity : delegates (tk_kind (tr_task r)) = true → has_capacity d p (active_delegates now d);
}.

Definition lease_for (worker now e token : string) : WorkflowTaskLeaseV1 :=
  {| le_token := "lease-" +:+ token; le_workerId := worker; le_acquiredAt := now;
     le_expiresAt := e; le_lastHeartbeatAt := now; le_lastProgressAt := now |}.
Definition claim_events (t : WorkflowTaskV1) (worker token now : string) : list WorkflowEventDataV1 :=
  [node_change (tk_nodeId t) N_leased None;
   attempt_state_changed {| asc_attemptId := tk_attemptId t; asc_state := A_leased;
     asc_leaseToken := Some token; asc_workerId := Some worker; asc_at := now;
     asc_errorCode := None; asc_resultRef := JUndef; asc_receiptRef := JUndef |}].
Definition ready_row (t : WorkflowTaskV1) (r : TaskRow) : bool :=
  bool_decide (tr_taskId r = tk_taskId t) && bool_decide (tr_state r = task_ready).

(** What a claim that finds a task has read and written. *)
Lemma claim_granted worker o now s task lease s' :
  claim worker o now s = (Ok (Some (task, lease)), s') →
  ∃ r p e token s1 q, grants now o (st_db s) r p ∧
    iso_after now (Some (default DEFAULT_LEASE_MS (co_leaseMs o))) = Ok e ∧ lease = lease_for worker now e token ∧
    task = task_with (tr_task r) task_leased (Some lease) now ∧
    journal (st_db s1) = journal (st_db s) ∧
    db_tasks (st_db s1) = update_rows (ready_row (tr_task r)) (put_version task) (db_tasks (st_db s)) ∧
    appendInternalEvents (tk_workflowId task) ("claim-" +:+ tk_taskId task +:+ "-" +:+ le_token lease) now
      (claim_events task worker (le_token lease) now) s1 = (Ok q, s').
Proof.
  intros Hs. unfold claim in Hs.
  apply bind_db_Ok in Hs as (? & s1 & [_ ->]%throw_if_Ok & Hs). cbn zeta in Hs.
  apply bind_db_Ok in Hs as (? & s1 & [_ ->]%throw_if_Ok & Hs). apply transaction_Ok in Hs as [_ Hs].
  apply bind_db_Ok in Hs as (cs & s1 & [-> ->]%select_Ok & Hs).
  apply bind_db_Ok in Hs as (acts & s1 & [-> ->]%select_Ok & Hs).
  apply bind_db_Ok in Hs as (leased & s1 & [Hleased%parse_tasks_Ok ->]%of_res_Ok & Hs).
  apply bind_db_Ok in Hs as (groups & s1 & [-> Hgroups]%activeCapacityGroups_Ok & Hs).
  apply bind_db_Ok in Hs as (tasks & s1 & [Htasks%parse_tasks_Ok ->]%of_res_Ok & Hs).
  apply bind_db_Ok in Hs as (found & s1 & Hfound & Hs).
  apply find_candidate_Ok in Hfound as [-> Hfound]; [|intros; by eapply claimable_Ok].
  destruct found as [old|]; [|by inv_db]. destruct (Hfound old eq_refl) as [Hold Hc]. clear Hfound.
  apply claimable_Ok in Hc as [_ Hc]. destruct (Hc eq_refl) as (Hm1 & Hm2 & Hm3 & Hkeys & p & Hp & Hnode & Hcap). clear Hc.
  rewrite Htasks in Hold. apply list_elem_of_fmap in Hold as (r & -> & Hr).
  apply claim_candidates_elem in Hr as (Hr & Hready & Hdue & Hw).
  apply bind_db_Ok in Hs as (token & s1 & (_ & Eu & _)%randomUUID_Ok & Hs).
  apply bind_db_Ok in Hs as (e & s2 & [He ->]%of_res_Ok & Hs). cbn zeta in Hs.
  apply bind_db_Ok in Hs as (? & s2 & Hs2%update_Ok & Hs). apply bind_db_Ok in Hs as (? & s3 & [_ ->]%constraint_Ok & Hs).
  apply bind_db_Ok in Hs as (? & s3 & Hs3%update_Ok & Hs). apply bind_db_Ok in Hs as (q & s4 & Hq & Hs).
  apply ret_db_Ok in Hs as [[= -> ->] ->]. subst leased groups.
  exists r, p, e, token, s3, q. subst s3 s2. rewrite !Eu in *. split_and!; try done.
  split; try done.
  - intros t key Ht Hkey Hk. apply (Hkeys key Hk), list_elem_of_In, in_flat_map. exists t.
    by rewrite <-!list_elem_of_In.
  - intros Hdel. by apply capacityAvailable_Ok, Hcap.
Qed.

(** The update of the claimed row. *)
Lemma claim_rows d r task lease now :
  tasks_wf d → r ∈ db_tasks d → tr_state r = task_ready → task = task_with (tr_task r) task_leased (Some lease) now →
  update_rows (ready_row (tr_task r)) (put_version task) (db_tasks d) =
    update_rows (λ r', bool_decide (tr_taskId r' = tr_taskId r)) (put_version task) (db_tasks d) ∧
  tasks_step d (set_tasks (update_rows (ready_row (tr_task r)) (put_version task) (db_tasks d)) d).
Proof.
  intros Hd Hr Hready ->. pose proof (tw_key _ (tw_rows _ Hd r Hr)) as Hk.
  assert (∀ r', r' ∈ db_tasks d → ready_row (tr_task r) r' = bool_decide (tr_taskId r' = tr_taskId r)) as Hrow.
  { intros r' Hr'. unfold ready_row. assert (tk_taskId (tr_task r) = tr_taskId r) as -> by (unfold row_key, task_key in Hk; congruence).
    case_bool_decide as Hid; [|done]. rewrite (task_unique d r' r) by done. by apply bool_decide_eq_true. }
  split.
  - unfold update_rows. apply list_fmap_ext. intros i r' Hr'%list_elem_of_lookup_2. by rewrite (Hrow r' Hr').
  - apply (put_row_step _ _ (task_with (tr_task r) task_leased (Some lease) now)); [|by eexists]. intros r' Hr' Hp. rewrite (Hrow r' Hr') in Hp. split_bool.
    by rewrite (task_unique d r' r).
Qed.

Lemma claim_step worker o now s a s' : claim worker o now s = (Ok a, s') → tasks_step (st_db s) (st_db s').
Proof.
  destruct a as [[task lease]|].
  - intros (r & p & e & token & s1 & q & [Hr Hready _ _ _ _ _ _ _ _ _] & _ & _ & Ht & _ & Hrows & Hq)%claim_granted Hd.
    destruct (claim_rows _ _ _ _ _ Hd Hr Hready Ht) as [_ Hstep].
    assert (tasks_step (st_db s) (st_db s1)) as Hs1.
    { trans (set_tasks (update_rows (ready_row (tr_task r)) (put_version task) (db_tasks (st_db s))) (st_db s)); [done|].
      by apply tasks_step_agree. }
    assert (tasks_step (st_db s1) (st_db s')) as Hs2; [|exact (transitivity Hs1 Hs2 Hd)].
    apply appendInternalEvents_Ok in Hq as (? & _ & _ & ->). by apply tasks_step_agree.
  - intros Hs. apply tasks_step_agree. revert Hs. unfold claim. intros Hs.
    apply bind_db_Ok in Hs as (? & s1 & [_ ->]%throw_if_Ok & Hs). cbn zeta in Hs.
    apply bind_db_Ok in Hs as (? & s1 & [_ ->]%throw_if_Ok & Hs). apply transaction_Ok in Hs as [_ Hs].
    apply bind_db_Ok in Hs as (cs & s1 & [-> ->]%select_Ok & Hs).
    apply bind_db_Ok in Hs as (acts & s1 & [-> ->]%select_Ok & Hs).
    apply bind_db_Ok in Hs as (leased & s1 & [_ ->]%of_res_Ok & Hs).
    apply bind_db_Ok in Hs as (groups & s1 & [-> _]%activeCapacityGroups_Ok & Hs).
    apply bind_db_Ok in Hs as (tasks & s1 & [_ ->]%of_res_Ok & Hs).
    apply bind_db_Ok in Hs as (found & s1 & Hfound & Hs).
    apply find_candidate_Ok in Hfound as [-> _]; [|intros; by eapply claimable_Ok].
    destruct found; [|by inv_db]. inv_db. discriminate.
Qed.
End Claim.
