(* ===== verification/AuthorityRecover.v ===== *)
(** * Recovery of expired leases in the Workflow authority

    What one pass of [recoverExpired] does to the task table, and that every
    request keeps the table well formed. *)

From S2P Require Import Prelude Js JsOps CanonicalJson Workflow WorkflowReducer WorkflowSpec WorkflowExecution AuthorityDb AuthorityStatements WorkflowAuthority AuthorityFacts AuthorityJournal AuthorityTasks AuthorityRefine.
Local Open Scope Z_scope.

(** ** One row *)

Definition by_id (id : string) (r : TaskRow) : bool := bool_decide (tr_taskId r = id).

(** A task may be repeated: its effect is harmless or carries a key, and it has
    attempts left. *)
Definition repeatable (t : WorkflowTaskV1) (a : WorkflowAttemptProjectionV1) : Prop :=
  (ec_class (tk_effect t) = pure ∨ ec_class (tk_effect t) = read ∨ ec_class (tk_effect t) = external_idempotent) ∧
  ap_ordinal a < rp_maxAttempts (tk_retry t).
Definition unsafe (t : WorkflowTaskV1) : Prop :=
  ec_class (tk_effect t) = workspace_write ∨ ec_class (tk_effect t) = external_non_idempotent.

Section Recovers.
Context `{JsEngine}.

(** The new attempt of a task. *)
Definition retried (now : string) (t : WorkflowTaskV1) (a : WorkflowAttemptProjectionV1) (r : TaskRow) : Prop :=
  ∃ taskId attemptId readyAt, iso_after now (backoffMs t (ap_ordinal a)) = Ok readyAt ∧
    r = task_row (retry_task t taskId attemptId readyAt now).

(** What becomes of a task whose lease has expired, in a workflow with the
    projection [p]: its new state and the rows of its next attempt. *)
Inductive recovers (now : string) (t : WorkflowTaskV1) (p : WorkflowProjectionV1) :
    WorkflowTaskStateV1 → list TaskRow → Prop :=
| recovers_cancelled : wp_state p ∈ terminal_states → recovers now t p task_cancelled []
| recovers_unknown a : wp_state p ∉ terminal_states → find_attempt p (tk_attemptId t) = Some a →
    unsafe t → recovers now t p task_unknown []
| recovers_failed a : wp_state p ∉ terminal_states → find_attempt p (tk_attemptId t) = Some a →
    ¬ unsafe t → ¬ repeatable t a → recovers now t p task_failed []
| recovers_retried a r : wp_state p ∉ terminal_states → find_attempt p (tk_attemptId t) = Some a →
    repeatable t a → retried now t a r → recovers now t p task_failed [r].

(** The step of the task table for one row. *)
Definition row_recovered (now : string) (t : WorkflowTaskV1) (d d' : AuthorityDb) : Prop :=
  ∃ p state new, stored (tk_workflowId t) d = Some p ∧ recovers now t p state new ∧
    Forall (λ r, tr_taskId r ∉ task_ids d ∧ tr_attemptId r ∉ attempt_ids d) new ∧
    db_tasks d' = update_rows (by_id (tk_taskId t)) (put_version (task_with t state None now)) (db_tasks d) ++ new.

End Recovers.

Lemma update_ids p state e t rows :
  tr_taskId <$> update_rows p (put_task state e t) rows = tr_taskId <$> rows.
Proof.
  unfold update_rows. rewrite <-list_fmap_compose. apply list_fmap_ext. intros _ r _. cbn. by destruct (p r).
Qed.
Lemma update_attempts p state e t rows :
  tr_attemptId <$> update_rows p (put_task state e t) rows = tr_attemptId <$> rows.
Proof.
  unfold update_rows. rewrite <-list_fmap_compose. apply list_fmap_ext. intros _ r _. cbn. by destruct (p r).
Qed.

Section Row.
Context `{JsEngine} `{JsCrypto} `{RandomUUID}.

Lemma recovery_decision_spec t a :
  match rd_decision (recovery_decision t a) with
  | recover_retry => repeatable t a
  | recover_manual_intervention => ¬ unsafe t ∧ ¬ repeatable t a
  | recover_unknown => unsafe t
  end.
Proof.
  unfold recovery_decision, repeatable, unsafe, recoverable_classes. cbn.
  destruct (ap_ordinal a <? _) eqn:Ho; [apply Z.ltb_lt in Ho|apply Z.ltb_ge in Ho];
    destruct (ec_class (tk_effect t)); vm_compute bool_decide; cbn; naive_solver lia.
Qed.

Lemma recover_row_Ok now row s o s' :
  recover_row now row s = (Ok o, s') → row_recovered now (tr_task row) (st_db s) (st_db s').
Proof.
  intros Hs. unfold recover_row in Hs.
  apply bind_db_Ok in Hs as (t & s1 & [Ht ->]%of_res_Ok & Hs).
  assert (t = tr_task row) as -> by (unfold parseTask in Ht; by inv_ok). clear Ht.
  apply bind_db_Ok in Hs as (p & s1 & (-> & Hp & _)%loadProjection_Ok & Hs).
  destruct (find_attempt _ _) as [a|] eqn:Ha; [|by inv_db].
  case_bool_decide as Hterm.
  - exists p, task_cancelled, []. split_and!; [done|by constructor|done|]. rewrite app_nil_r.
    unfold recover_terminal in Hs. apply bind_db_Ok in Hs as (? & s1 & Hs & [_ ->]%ret_db_Ok).
    apply bind_db_Ok in Hs as (? & s2 & ->%update_Ok & Hs). cbn zeta in Hs.
    apply bind_db_Ok in Hs as (? & s2 & (? & _ & _ & Hd)%appendInternalEvents_Ok & [_ ->]%ret_db_Ok).
    by rewrite Hd.
  - pose proof (recovery_decision_spec (tr_task row) a) as Hdec.
    apply bind_db_Ok in Hs as (? & s1 & ->%update_Ok & Hs). apply bind_db_Ok in Hs as (more & s1 & Hm & Hs).
    apply bind_db_Ok in Hs as (u & s2 & (_ & Eu & _)%randomUUID_Ok & Hs).
    apply bind_db_Ok in Hs as (? & s3 & (? & _ & _ & Hd)%appendInternalEvents_Ok & [_ ->]%ret_db_Ok).
    assert (db_tasks (st_db s3) = db_tasks (st_db s1)) as E by (rewrite Hd, Eu; done). clear Hd Eu.
    unfold row_recovered. rewrite E. clear E.
    destruct (rd_decision _).
    + unfold recover_with_retry in Hm.
      apply bind_db_Ok in Hm as (u1 & s4 & (_ & E1 & _)%randomUUID_Ok & Hm).
      apply bind_db_Ok in Hm as (u2 & s5 & (_ & E2 & _)%randomUUID_Ok & Hm). cbn zeta in Hm.
      apply bind_db_Ok in Hm as (at_ & s6 & [Hat ->]%of_res_Ok & Hm).
      apply bind_db_Ok in Hm as (? & s6 & (Hid & Hat' & _ & Hd)%insertTask_Ok & Hm).
      apply bind_db_Ok in Hm as (? & s7 & Hrel & [_ ->]%ret_db_Ok).
      assert (db_tasks (st_db s7) = db_tasks (st_db s6)) as E.
      { change (agree db_tasks (st_db s6) (st_db s7)). by_ensures (agree db_tasks) Hrel. solve_ensures. }
      unfold task_ids in Hid. unfold attempt_ids in Hat'. rewrite E2, E1 in Hid, Hat'. cbn in Hid, Hat'.
      rewrite update_ids in Hid. rewrite update_attempts in Hat'.
      exists p, task_failed, [task_row (retry_task (tr_task row) ("task-" +:+ u2) ("attempt-" +:+ u1) at_ now)]. split_and!; [done| |by apply Forall_singleton|by rewrite E, Hd, E2, E1].
      eapply recovers_retried; [done|exact Ha|done|]. by eexists _, _, _.
    + apply ret_db_Ok in Hm as [_ ->]. exists p, task_unknown, []. rewrite app_nil_r.
      split_and!; [done| |done|done]. by eapply recovers_unknown.
    + apply ret_db_Ok in Hm as [_ ->]. exists p, task_failed, []. rewrite app_nil_r.
      split_and!; [done| |done|done]. destruct Hdec. by eapply recovers_failed.
Qed.

Lemma recover_row_advances now row : ensures advances (recover_row now row).
Proof. unfold recover_row, recover_terminal, recover_with_retry. solve_ensures. Qed.

(** ** The pass over the expired rows *)

Definition old_id (row : TaskRow) : string := tk_taskId (tr_task row).

(** What becomes of a task in a pass from [d] to [d']: its workflow is read
    after a history between those before and after the pass. *)
Definition outcome (now : string) (d d' : AuthorityDb) (t : WorkflowTaskV1) (state : WorkflowTaskStateV1)
    (new : list TaskRow) : Prop :=
  ∃ p hs, history (tk_workflowId t) d `prefix_of` hs ∧ hs `prefix_of` history (tk_workflowId t) d' ∧
    reduceWorkflowEventsV1 hs = Ok p ∧ recovers now t p state new.

Lemma outcome_between now d0 d d' d1 t state new :
  extends d0 d → extends d' d1 → outcome now d d' t state new → outcome now d0 d1 t state new.
Proof.
  intros H0' H1' (p & hs & Hl & Hr & ?). exists p, hs. split_and!; [|..|naive_solver|naive_solver].
  - etrans; [apply H0'|done].
  - etrans; [done|apply H1'].
Qed.

Lemma recover_rows_Ok now rows s ds s' :
  for_map (recover_row now) rows s = (Ok ds, s') → journal_wf (st_db s) → NoDup (old_id <$> rows) →
  (∀ row, row ∈ rows → old_id row ∈ task_ids (st_db s)) →
  extends (st_db s) (st_db s') ∧ ∃ F new,
    db_tasks (st_db s') = (F <$> db_tasks (st_db s)) ++ new ∧
    (∀ r, tr_taskId r ∉ old_id <$> rows → F r = r) ∧
    (∀ row, row ∈ rows → ∃ state rs, rs ⊆ new ∧ outcome now (st_db s) (st_db s') (tr_task row) state rs ∧
      ∀ r, tr_taskId r = old_id row → F r = put_version (task_with (tr_task row) state None now) r) ∧
    (∀ n, n ∈ new → tr_taskId n ∉ task_ids (st_db s) ∧ ∃ row state, row ∈ rows ∧
      outcome now (st_db s) (st_db s') (tr_task row) state [n]).
Proof.
  revert s ds; induction rows as [|row rows IH]; intros s ds Hs Hj Hnd Hids; cbn [for_map] in Hs.
  - apply ret_db_Ok in Hs as [_ ->]. split; [done|]. exists (λ r, r), []. rewrite list_fmap_id, app_nil_r.
    split_and!; [done|done|by intros ? ?%elem_of_nil|by intros ? ?%elem_of_nil].
  - apply bind_db_Ok in Hs as (o & s1 & Hrow & Hs). apply bind_db_Ok in Hs as (os & s2 & Hs & [_ ->]%ret_db_Ok).
    pose proof (recover_row_advances now row s o s1 Hrow Hj) as [Hj1 He1].
    apply recover_row_Ok in Hrow as (p & state & new1 & Hp & Hrec & Hnew1 & Hd).
    rewrite fmap_cons in Hnd. apply NoDup_cons in Hnd as [Hnot Hnd].
    set (g := λ r, if by_id (old_id row) r then put_version (task_with (tr_task row) state None now) r else r).
    assert (∀ r, tr_taskId (g r) = tr_taskId r) as Hg by (intros r; unfold g; by destruct (by_id _ r)).
    assert (db_tasks (st_db s1) = (g <$> db_tasks (st_db s)) ++ new1) as Hd1 by exact Hd. clear Hd.
    assert (task_ids (st_db s1) = task_ids (st_db s) ++ (tr_taskId <$> new1)) as Hi1.
    { unfold task_ids. rewrite Hd1, fmap_app. f_equal. rewrite <-list_fmap_compose. apply list_fmap_ext. intros; apply Hg. }
    assert (∀ row', row' ∈ rows → old_id row' ∈ task_ids (st_db s1)) as Hids1.
    { intros row' Hrow'. rewrite Hi1, elem_of_app. left. apply Hids. by right. }
    destruct (IH s1 os Hs Hj1 Hnd Hids1) as (He2 & F & new2 & Hd2 & Hkeep & Hold & Hnew2).
    split; [by trans (st_db s1)|]. rewrite Forall_forall in Hnew1.
    assert (F <$> new1 = new1) as HF.
    { rewrite <-(list_fmap_id new1) at 2. apply list_fmap_ext. intros i n Hn%list_elem_of_lookup_2. apply Hkeep.
      intros (row' & Hid & Hrow')%list_elem_of_fmap. apply (proj1 (Hnew1 n Hn)). cbn in Hid. rewrite Hid. apply Hids. by right. }
    assert (outcome now (st_db s) (st_db s2) (tr_task row) state new1) as Hout.
    { exists p, (history (tk_workflowId (tr_task row)) (st_db s)).
      split_and!; [done|etrans; [apply He1|apply He2]| |done]. by destruct (stored_wf _ _ _ Hj Hp). }
    exists (F ∘ g), (new1 ++ new2). split_and!.
    + by rewrite Hd2, Hd1, fmap_app, HF, list_fmap_compose, app_assoc.
    + intros r Hr. rewrite fmap_cons, not_elem_of_cons in Hr. destruct Hr as [Hr1 Hr2]. cbn.
      assert (g r = r) as -> by (unfold g, by_id; by rewrite bool_decide_eq_false_2). by apply Hkeep.
    + intros row' [->|Hrow']%elem_of_cons.
      * exists state, new1. split_and!; [intros n Hn; apply elem_of_app; by left|done|]. intros r Hr. cbn. rewrite Hkeep by (by rewrite Hg, Hr).
        unfold g, by_id. by rewrite bool_decide_eq_true_2.
      * destruct (Hold row' Hrow') as (state' & rs & Hsub & Hout' & Hr). exists state', rs.
        split_and!; [intros n Hn; apply elem_of_app; right; by apply Hsub|by apply (outcome_between _ _ (st_db s1) (st_db s2))|]. intros r Hid. cbn.
        assert (g r = r) as ->; [|by apply Hr]. unfold g, by_id. rewrite bool_decide_eq_false_2; [done|].
        intros Heq. apply Hnot. rewrite <-Heq, Hid. by apply list_elem_of_fmap_2.
    + intros n [Hn|Hn]%elem_of_app.
      * split; [by apply (Hnew1 n Hn)|]. exists row, state. split; [by left|].
        assert (new1 = [n]) as <-; [|done]. clear -Hrec Hn. inversion Hrec; subst; first [by apply elem_of_nil in Hn | by apply list_elem_of_singleton in Hn as ->].
      * destruct (Hnew2 n Hn) as [Hfresh (row' & state' & Hrow' & Hout')].
        rewrite Hi1, not_elem_of_app in Hfresh. split; [by destruct Hfresh|].
        exists row', state'. split; [by right|]. by apply (outcome_between _ _ (st_db s1) (st_db s2)).
Qed.

(** ** Every request keeps the table well formed *)

Lemma row_recovered_step now t d d' :
  (∀ r, r ∈ db_tasks d → tr_taskId r = tk_taskId t → row_key r = task_key t) →
  row_recovered now t d d' → tasks_step d d'.
Proof.
  intros Hk (p & state & new & _ & Hrec & Hnew & Hd).
  assert (state ≠ task_leased) as Hstate by by inversion Hrec.
  trans (set_tasks (update_rows (by_id (tk_taskId t)) (put_version (task_with t state None now)) (db_tasks d)) d).
  { apply (put_row_step _ _ (task_with t state None now)); [|done]. intros r Hr Hid. unfold by_id in Hid. split_bool.
    split; [by apply Hk|done]. }
  assert (new = [] ∨ ∃ t', new = [task_row t'] ∧ tk_state t' = task_ready) as [->|(t' & -> & Hready)].
  { inversion Hrec as [| | |a r ? ? ? (? & ? & ? & ? & ->)]; [by left..|]. right. by eexists. }
  - apply tasks_step_agree. cbn. by rewrite Hd, app_nil_r.
  - apply Forall_singleton in Hnew as [Hi Ha]. etrans; [apply (add_step t')|by apply tasks_step_agree].
    + unfold task_ids. cbn. unfold put_version. by rewrite update_ids.
    + unfold attempt_ids. cbn. unfold put_version. by rewrite update_attempts.
    + done.
Qed.

Definition lease_expired (now : string) (r : TaskRow) : Prop :=
  tr_state r = task_leased ∧ ∃ e, tr_leaseExpiresAt r = Some e ∧ string_leb e now = true.

Lemma lease_expired_em now r : lease_expired now r ∨ ¬ lease_expired now r.
Proof.
  unfold lease_expired. destruct (decide (tr_state r = task_leased)); [|naive_solver].
  destruct (tr_leaseExpiresAt r) as [at_|]; [|right; by intros (_ & ? & ? & _)].
  destruct (string_leb at_ now) eqn:Hle; [left; eauto|right]. intros (_ & ? & [= <-] & Hx). congruence.
Qed.

Lemma expired_rows_elem now d r : r ∈ expired_rows now d ↔ r ∈ db_tasks d ∧ lease_expired now r.
Proof.
  unfold lease_expired, expired_rows, order_by. rewrite js_sort_elem, filter_elem.
  destruct (tr_leaseExpiresAt r); rewrite andb_true_iff, bool_decide_eq_true; naive_solver.
Qed.

Lemma recoverExpired_step now : ensures tasks_step (recoverExpired now).
Proof.
  intros s ds s' Hs Hd. unfold recoverExpired in Hs. apply transaction_Ok in Hs as [_ Hs].
  apply bind_db_Ok in Hs as (rows & s1 & [-> ->]%select_Ok & Hs).
  apply bind_db_Ok in Hs as (os & s1 & Hs & [_ ->]%ret_db_Ok).
  set (R := λ d d', tasks_wf d → keys_grow (st_db s) d → tasks_wf d' ∧ keys_grow d d').
  assert (PreOrder R) as HR.
  { split; [by intros d ??|]. intros d1 d2 d3 Hr1 Hr2 Hw Hg. destruct (Hr1 Hw Hg) as [Hw2 Hg2].
    destruct (Hr2 Hw2) as [Hw3 Hg3]; [by trans d1|]. split; [done|by trans d2]. }
  assert (ensures R (for_map (recover_row now) (expired_rows now (st_db s)))) as Hloop; [|by apply Hloop in Hs; apply Hs].
  apply ensures_for_map_elem; [done|]. intros row (Hrow & _)%expired_rows_elem s2 o s3 Hs2%recover_row_Ok Hw Hg.
  apply (row_recovered_step _ _ _ _) in Hs2; [by apply Hs2|]. intros r Hr Hid.
  by apply (earlier_task_key (st_db s) (st_db s2)).
Qed.

Lemma write_transaction_step input : ensures tasks_step (write_transaction input).
Proof. unfold write_transaction. solve_ensures. Qed.
#[local] Hint Resolve write_transaction_step bind_step heartbeat_step recoverExpired_step : ensures.

(** An operation that starts with its guards. *)
Lemma transact_step input : ensures tasks_step (transact input).
Proof. unfold transact. solve_ensures. Qed.

Lemma claim_ensures w o now : ensures tasks_step (claim w o now).
Proof. intros s a s'. apply claim_step. Qed.
#[local] Hint Resolve transact_step claim_ensures : ensures.

Lemma execute_tasks request : ensures tasks_step (execute request).
Proof.
  destruct request; cbn [execute]; try (apply ensures_bind; [typeclasses eauto| |solve [solve_ensures]]).
  - intros s u s'. unfold initialize. destruct (st_open s); [by intros [= _ <-]|].
    destruct (migrate s) as [[]] eqn:Hm; intros [= _ <-]. cbn.
    by_ensures tasks_step Hm. unfold migrate. solve_ensures.
  - intros s u s' [= _ <-]. cbn. done.
  - unfold create. solve_ensures.
  - solve_ensures.
  - unfold admitTaskForRequest, taskById, insert_task_request. solve_ensures.
  - solve_ensures.
  - solve_ensures.
  - solve_ensures.
  - solve_ensures.
  - unfold signal. solve_ensures.
  - unfold postMessage. solve_ensures.
  - unfold acknowledgeMessages. solve_ensures.
  - unfold acknowledgeMessage. solve_ensures.
  - unfold fireDueTimers, fire_timer. solve_ensures.
  - unfold resolveHumanTask. solve_ensures.
  - unfold expireDueHumanTasks, resolveHumanTask. solve_ensures.
  - unfold reserveEffectRequest. solve_ensures.
  - unfold reserveEffect, reserve_event, taskForAttempt. solve_ensures.
  - unfold markEffectCompensated. solve_ensures.
  - unfold retryNode. solve_ensures.
  - unfold resolveUnknown, get_workflow, listTasks. solve_ensures.
  - unfold registerProfile. solve_ensures.
Qed.

Lemma execute_tasks_always request : always tasks_step (execute request).
Proof.
  intros s. destruct (is_expiry request) eqn:He.
  - destruct request; try discriminate He. cbn [execute].
    assert (always tasks_step (expireDueHumanTasks now;; mret tt)) as Ha; [|apply Ha].
    unfold expireDueHumanTasks, resolveHumanTask. solve_always.
  - destruct (execute request s) as [[u|c] s'] eqn:Hs; cbn; [by eapply execute_tasks|].
    by rewrite (execute_atomic request He _ _ _ Hs).
Qed.

Lemma reachable_tasks s : reachable s → tasks_wf (st_db s).
Proof.
  induction 1 as [|s request _ IH]; [|by apply execute_tasks_always].
  split; cbn; [constructor|constructor|by intros r ?%elem_of_nil].
Qed.

Lemma envelope_data spec n x data at_ : ev_data <$> envelopeEvents spec n x data at_ = data.
Proof.
  unfold envelopeEvents. rewrite fmap_imap. apply list_eq. intros i. rewrite list_lookup_imap. by destruct (data !! i).
Qed.

(** C16 The task table is consistent after any requests: task and attempt
    identities are unique, the columns of a row agree with the task that its JSON
    column holds, a row has an expiry exactly when its task is under a lease that
    expires then; and no request removes a row or changes its identity, node, kind,
    priority or dates. *)
Theorem tasks_consistent s request :
  reachable s → tasks_wf (st_db s) ∧ keys_grow (st_db s) (st_db (after_request s request)).
Proof.
  intros Hs%reachable_tasks. split; [done|]. by apply execute_tasks_always.
Qed.

(** C12 A claim hands out a task only when its row grants it (ready and due, in a
    running workflow whose node is scheduled, no key in conflict with an unexpired
    lease, capacity for a task that delegates) and matches the options; it puts
    exactly this row under a lease of the worker that expires as asked, and
    extends only the history of its workflow, by the lease of the node and of the
    attempt. *)
Theorem claim_safe worker o now s task lease s' :
  reachable s → claim worker o now s = (Ok (Some (task, lease)), s') →
  ∃ r p q token, grants now o (st_db s) r p ∧
    iso_after now (Some (default DEFAULT_LEASE_MS (co_leaseMs o))) = Ok (le_expiresAt lease) ∧
    lease = lease_for worker now (le_expiresAt lease) token ∧
    task = task_with (tr_task r) task_leased (Some lease) now ∧
    db_tasks (st_db s') = update_rows (by_id (tr_taskId r)) (put_version task) (db_tasks (st_db s)) ∧
    stored (tk_workflowId task) (st_db s') = Some q ∧
    ev_data <$> history (tk_workflowId task) (st_db s') =
      (ev_data <$> history (tk_workflowId task) (st_db s)) ++ claim_events task worker (le_token lease) now ∧
    ∀ w, w ≠ tk_workflowId task → history w (st_db s') = history w (st_db s).
Proof.
  intros Hs (r & p & e & token & s1 & q & Hg & He & -> & Ht & Hj1 & Hrows & Hq)%claim_granted.
  exists r, p, q, token. cbn in *.
  destruct (claim_rows _ _ _ _ _ (reachable_tasks _ Hs) (gr_row _ _ _ _ _ Hg) (gr_ready _ _ _ _ _ Hg) Ht) as [Hrows' _].
  apply appendInternalEvents_Ok in Hq as (p' & Hp' & Hes & Hd).
  pose proof (advances_agree _ _ Hj1 (reachable_journal _ Hs)) as [Hj _].
  assert (∀ w, history w (st_db s1) = history w (st_db s)) as Hh.
  { intros w. unfold history, journal in *. congruence. }
  destruct (commit_history _ _ (st_db s') _ _ _ Hj Hp' Hes) as (_ & Hw & Hother); [by rewrite Hd|].
  split_and!; try done.
  - rewrite Hd. cbn. by rewrite Hrows, Hrows'.
  - eapply commit_stored; [exact Hj|exact Hp'|exact Hes|by rewrite Hd].
  - by rewrite Hw, Hh, fmap_app, envelope_data.
  - intros w Hne. by rewrite Hother, Hh.
Qed.

Lemma expired_rows_ids now d : tasks_wf d → NoDup (old_id <$> expired_rows now d).
Proof.
  intros Hd. assert (old_id <$> expired_rows now d = tr_taskId <$> expired_rows now d) as ->.
  { apply list_fmap_ext. intros i r Hr%list_elem_of_lookup_2. apply expired_rows_elem in Hr as [Hr _].
    pose proof (tw_key _ (tw_rows _ Hd r Hr)) as Hk. unfold row_key, task_key, old_id in *. congruence. }
  unfold expired_rows, order_by. rewrite js_sort_perm.
  eapply sublist_NoDup; [apply (tw_ids _ Hd)|apply fmap_sublist, filter_sublist_list].
Qed.

Lemma recovers_state now t p state new :
  recovers now t p state new → state ≠ task_leased ∧ ∀ n, n ∈ new → state = task_failed ∧ new = [n] ∧ tr_state n = task_ready.
Proof.
  destruct 1 as [| | |a r ? ? ? (? & ? & ? & ? & ->)]; (split; [done|]); intros n Hn;
    try by apply elem_of_nil in Hn. by apply list_elem_of_singleton in Hn as ->.
Qed.

(** C13 A pass of the recovery leaves no expired lease and does not touch the
    tasks that are not under one.  An expired task is cancelled when its workflow
    has ended, unknown when its effect is neither harmless nor keyed, failed
    otherwise, as its workflow says at some point of the pass; it gets a new
    attempt, ready after the back-off, exactly when it may be repeated, and every
    new task is such an attempt. *)
Theorem recover_safe now s ds s' :
  reachable s → recoverExpired now s = (Ok ds, s') →
  let d := st_db s in let d' := st_db s' in
  (∀ r, r ∈ db_tasks d' → ¬ lease_expired now r) ∧
  (∀ r, r ∈ db_tasks d → ¬ lease_expired now r → r ∈ db_tasks d') ∧
  (∀ r, r ∈ db_tasks d → lease_expired now r → ∃ state new, outcome now d d' (tr_task r) state new ∧
     put_version (task_with (tr_task r) state None now) r ∈ db_tasks d' ∧ new ⊆ db_tasks d') ∧
  (∀ r', r' ∈ db_tasks d' → tr_taskId r' ∉ task_ids d →
     ∃ r, r ∈ db_tasks d ∧ lease_expired now r ∧ outcome now d d' (tr_task r) task_failed [r']).
Proof.
  intros Hreach Hs d d'. pose proof (reachable_tasks _ Hreach) as Hwf. unfold recoverExpired in Hs.
  apply transaction_Ok in Hs as [_ Hs].
  apply bind_db_Ok in Hs as (rows & s1 & [-> ->]%select_Ok & Hs).
  apply bind_db_Ok in Hs as (os & s1 & Hs & [_ ->]%ret_db_Ok).
  assert (∀ r, r ∈ db_tasks d → old_id r = tr_taskId r) as Hid.
  { intros r Hr. pose proof (tw_key _ (tw_rows _ Hwf r Hr)). unfold row_key, task_key, old_id in *. congruence. }
  apply recover_rows_Ok in Hs as (_ & F & new & Hd & Hkeep & Hold & Hnew);
    [|by apply reachable_journal|by apply expired_rows_ids|].
  2:{ intros row [Hr _]%expired_rows_elem. rewrite Hid by done. by apply list_elem_of_fmap_2. }
  assert (∀ r, r ∈ db_tasks d → ¬ lease_expired now r → F r = r) as Hsame.
  { intros r Hr Hne. apply Hkeep. intros (row & Heq & Hrow)%list_elem_of_fmap.
    apply expired_rows_elem in Hrow as [Hrow He]. rewrite (Hid row Hrow) in Heq.
    by rewrite (task_unique d r row) in Hne. }
  assert (∀ r, r ∈ db_tasks d → lease_expired now r → ∃ state rs, rs ⊆ new ∧ outcome now d d' (tr_task r) state rs ∧
    F r = put_version (task_with (tr_task r) state None now) r) as Hexp.
  { intros r Hr He. destruct (Hold r) as (state & rs & Hsub & Hout & HF); [by apply expired_rows_elem|].
    exists state, rs. split_and!; [done|done|]. by rewrite HF by by rewrite Hid. }
  fold d in Hd. fold d' in Hd. split_and!.
  - intros r'. rewrite Hd. intros [(r & -> & Hr)%list_elem_of_fmap|Hn]%elem_of_app.
    + destruct (lease_expired_em now r) as [He|Hne]; [|by rewrite Hsame].
      destruct (Hexp r Hr He) as (state & rs & _ & (p & hs & _ & _ & _ & Hrec) & ->). apply recovers_state in Hrec as [Hst _].
      intros [Hl _]. done.
    + destruct (Hnew r' Hn) as (_ & row & state & _ & p & hs & _ & _ & _ & Hrec).
      apply recovers_state in Hrec as [_ Hrec]. destruct (Hrec r' ltac:(by left)) as (_ & _ & Hready).
      intros [Hl _]. congruence.
  - intros r Hr Hne. rewrite Hd. apply elem_of_app. left. rewrite <-(Hsame r Hr Hne). by apply list_elem_of_fmap_2.
  - intros r Hr He. destruct (Hexp r Hr He) as (state & rs & Hsub & Hout & HF). exists state, rs.
    split_and!; [done| |].
    + rewrite Hd. apply elem_of_app. left. rewrite <-HF. by apply list_elem_of_fmap_2.
    + intros n Hn. rewrite Hd. apply elem_of_app. right. by apply Hsub.
  - intros r'. rewrite Hd. intros [(r & -> & Hr)%list_elem_of_fmap|Hn]%elem_of_app Hfresh.
    + destruct Hfresh. assert (tr_taskId (F r) = tr_taskId r) as ->; [|by apply list_elem_of_fmap_2].
      destruct (lease_expired_em now r) as [He|Hne]; [|by rewrite Hsame]. by destruct (Hexp r Hr He) as (? & ? & _ & _ & ->).
    + destruct (Hnew r' Hn) as (_ & row & state & [Hrow He]%expired_rows_elem & Hout). exists row.
      split_and!; [done|done|]. pose proof Hout as (p & hs & _ & _ & _ & Hrec).
      apply recovers_state in Hrec as [_ Hrec]. by destruct (Hrec r' ltac:(by left)) as (-> & _).
Qed.
End Row.
