(* ===== verification/AuthorityEffects.v ===== *)
(** * Effect reservations of the Workflow authority

    A reservation of an effect has one owner and one input; another attempt may
    own it only after it is released. *)

From S2P Require Import Prelude Js JsOps CanonicalJson Workflow WorkflowReducer WorkflowSpec WorkflowExecution AuthorityDb AuthorityStatements WorkflowAuthority AuthorityFacts AuthorityJournal AuthorityRefine AuthorityTasks.
Local Open Scope Z_scope.

(** ** The table *)

Definition same_effect (w k : string) (r : ReservationRow) : bool :=
  bool_decide (sr_workflowId r = w) && bool_decide (sr_idempotencyKey r = k).

Lemma same_effect_true w k r : same_effect w k r = true ↔ sr_workflowId r = w ∧ sr_idempotencyKey r = k.
Proof. unfold same_effect. by rewrite andb_true_iff, !bool_decide_eq_true. Qed.

(** The reservations that an UPDATE of one effect leaves. *)
Definition put_reservation (rv : WorkflowEffectReservationV1) (r : ReservationRow) : ReservationRow :=
  {| sr_workflowId := sr_workflowId r; sr_idempotencyKey := sr_idempotencyKey r; sr_reservation := rv |}.

Lemma find_updated w k rv v j d :
  find_reservation v j (set_reservations (update_rows (same_effect w k) (put_reservation rv) (db_reservations d)) d) =
  if decide (v = w ∧ j = k) then (λ _, rv) <$> find_reservation v j d else find_reservation v j d.
Proof.
  unfold find_reservation. cbn. change (λ r, bool_decide (sr_workflowId r = v) && bool_decide (sr_idempotencyKey r = j))
    with (same_effect v j). unfold findb, update_rows. induction (db_reservations d) as [|r l IH]; [by case_decide|].
  rewrite fmap_cons. cbn [List.find]. destruct (same_effect w k r) eqn:Hwk.
  - apply same_effect_true in Hwk as [<- <-]. unfold same_effect at 1. cbn [put_reservation sr_workflowId sr_idempotencyKey].
    fold (same_effect v j r). destruct (same_effect v j r) eqn:Hvj.
    + apply same_effect_true in Hvj as [-> ->]. by rewrite decide_True.
    + rewrite IH. done.
  - destruct (same_effect v j r) eqn:Hvj; [|exact IH].
    rewrite decide_False; [done|]. intros [-> ->]. congruence.
Qed.

Lemma find_added rv v j d :
  find_reservation v j (set_reservations (db_reservations d ++ [{| sr_workflowId := rv_workflowId rv;
    sr_idempotencyKey := rv_idempotencyKey rv; sr_reservation := rv |}]) d) =
  match find_reservation v j d with
  | Some prior => Some prior
  | None => if decide (v = rv_workflowId rv ∧ j = rv_idempotencyKey rv) then Some rv else None
  end.
Proof.
  unfold find_reservation. cbn. destruct (findb _ (db_reservations d)) as [r|] eqn:Hf; cbn.
  - by rewrite (findb_app_Some _ _ _ _ Hf).
  - rewrite (findb_app_None _ _ _ Hf). cbn. case_decide as Hd.
    + destruct Hd as [-> ->]. by rewrite !bool_decide_eq_true_2.
    + destruct (decide (rv_workflowId rv = v)) as [Hv|Hv]; [|by rewrite (bool_decide_eq_false_2 _ Hv)].
      destruct (decide (rv_idempotencyKey rv = j)) as [Hj|Hj]; [naive_solver|].
      by rewrite (bool_decide_eq_false_2 _ Hj), andb_false_r.
Qed.

(** ** Owners *)

(** Every reservation stays, with its input and its owner. *)
Definition owned (d d' : AuthorityDb) : Prop := ∀ w k rv, find_reservation w k d = Some rv → ∃ rv',
  find_reservation w k d' = Some rv' ∧ rv_inputDigest rv' = rv_inputDigest rv ∧ rv_attemptId rv' = rv_attemptId rv.
#[export] Instance owned_preorder : PreOrder owned.
Proof.
  split; [intros d w k rv ?; by exists rv|]. intros d1 d2 d3 H1 H2 w k rv Hrv.
  destruct (H1 w k rv Hrv) as (rv2 & Hrv2 & <- & <-). by apply H2.
Qed.
Lemma owned_agree d d' : db_reservations d' = db_reservations d → owned d d'.
Proof. intros E w k rv Hrv. exists rv. unfold find_reservation in *. by rewrite E. Qed.
#[export] Hint Extern 0 (owned _ _) => apply owned_agree; reflexivity : ensures.

Section Effects.
Context `{JsEngine} `{JsCrypto} `{RandomUUID}.

(** The owner writes a new state of its reservation. *)
Lemma owned_update w k rv rv' d :
  find_reservation w k d = Some rv → rv_inputDigest rv' = rv_inputDigest rv → rv_attemptId rv' = rv_attemptId rv →
  owned d (set_reservations (update_rows (same_effect w k) (put_reservation rv') (db_reservations d)) d).
Proof.
  intros Hrv Hi Ha v j rv0 Hrv0. rewrite find_updated. case_decide as Hd.
  - destruct Hd as [-> ->]. rewrite Hrv0. cbn. exists rv'. split; [done|]. split; congruence.
  - by exists rv0.
Qed.

Lemma release_owned w k a at_ : ensures owned (releaseEffectReservation w k a at_).
Proof.
  intros s u s' Hs. unfold releaseEffectReservation in Hs.
  apply bind_db_Ok in Hs as (prior & s1 & [-> ->]%select_Ok & Hs).
  destruct (find_reservation w k (st_db s)) as [rv|] eqn:Hrv; [|by inv_db].
  destruct (_ || _); [by inv_db|]. apply update_Ok in Hs as ->. by eapply owned_update.
Qed.
Lemma end_reservation_owned w at_ t : ensures owned (end_reservation w at_ t).
Proof.
  intros s u s' Hs. unfold end_reservation in Hs.
  apply bind_db_Ok in Hs as (prior & s1 & [-> ->]%select_Ok & Hs).
  destruct (find_reservation _ _ (st_db s)) as [rv|] eqn:Hrv; [|by inv_db].
  apply bind_db_Ok in Hs as (? & s1 & [_ ->]%throw_if_Ok & Hs). apply update_Ok in Hs as ->. by eapply owned_update.
Qed.
End Effects.
#[local] Hint Resolve release_owned end_reservation_owned : ensures.

Section Requests.
Context `{JsEngine} `{JsCrypto} `{RandomUUID}.

Lemma write_transaction_owned input : ensures owned (write_transaction input).
Proof. unfold write_transaction. solve_ensures. Qed.
#[local] Hint Resolve write_transaction_owned : ensures.
Lemma transact_owned input : ensures owned (transact input).
Proof. unfold transact. solve_ensures. Qed.
#[local] Hint Resolve transact_owned : ensures.

Definition is_reserve (request : authority_request) : bool :=
  match request with do_reserveEffect _ _ _ _ _ _ => true | _ => false end.

Lemma execute_owned request : is_reserve request = false → ensures owned (execute request).
Proof.
  intros Hr. destruct request; try discriminate Hr; cbn [execute];
    try (apply ensures_bind; [typeclasses eauto| |solve [solve_ensures]]); clear Hr.
  - intros s u s'. unfold initialize. destruct (st_open s); [by intros [= _ <-]|].
    destruct (migrate s) as [[]] eqn:Hm; intros [= _ <-]. cbn.
    by_ensures owned Hm. unfold migrate. solve_ensures.
  - intros s u s' [= _ <-]. cbn. done.
  - unfold create. solve_ensures.
  - solve_ensures.
  - unfold admitTaskForRequest, taskById, insert_task_request. solve_ensures.
  - unfold bindTaskCapabilityBundle, taskById. solve_ensures.
  - unfold claim. solve_ensures.
  - unfold heartbeat, taskById. solve_ensures.
  - unfold recoverExpired, recover_row, recover_terminal, recover_with_retry. solve_ensures.
  - unfold signal. solve_ensures.
  - unfold postMessage. solve_ensures.
  - unfold acknowledgeMessages. solve_ensures.
  - unfold acknowledgeMessage. solve_ensures.
  - unfold fireDueTimers, fire_timer. solve_ensures.
  - unfold resolveHumanTask. solve_ensures.
  - unfold expireDueHumanTasks, resolveHumanTask. solve_ensures.
  - unfold reserveEffectRequest. solve_ensures.
  - unfold markEffectCompensated. solve_ensures.
  - unfold retryNode. solve_ensures.
  - unfold resolveUnknown, get_workflow, listTasks. solve_ensures.
  - unfold registerProfile. solve_ensures.
Qed.

Lemma execute_owned_always request : is_reserve request = false → always owned (execute request).
Proof.
  intros Hr s. destruct (is_expiry request) eqn:He.
  - destruct request; try discriminate He. cbn [execute].
    assert (always owned (expireDueHumanTasks now;; mret tt)) as Ha; [|apply Ha].
    unfold expireDueHumanTasks, resolveHumanTask. solve_always.
  - destruct (execute request s) as [[u|c] s'] eqn:Hs; cbn; [by eapply execute_owned|].
    by rewrite (execute_atomic request He _ _ _ Hs).
Qed.
End Requests.

(** ** Reservations *)

Section Reserve.
Context `{JsEngine} `{JsCrypto} `{RandomUUID}.

Lemma appended_reservations w x at_ data s q s' :
  appendInternalEvents w x at_ data s = (Ok q, s') → db_reservations (st_db s') = db_reservations (st_db s).
Proof. by intros (p & _ & _ & ->)%appendInternalEvents_Ok. Qed.

Lemma reserve_event_reservations w k i a t s u s' :
  reserve_event w k i a t s = (Ok u, s') → db_reservations (st_db s') = db_reservations (st_db s).
Proof.
  intros Hs. change (agree db_reservations (st_db s) (st_db s')). by_ensures (agree db_reservations) Hs.
  unfold reserve_event, taskForAttempt. solve_ensures.
Qed.

(** What the answer of a reservation says of the reservation before and after. *)
Definition reserve_answer (d d' : AuthorityDb) (w k i a : string) (answer : AdmissionDecisionV1)
    (rv : WorkflowEffectReservationV1) : Prop :=
  match answer with
  | admit_execute =>
      (find_reservation w k d = None ∨ ∃ prior, find_reservation w k d = Some prior ∧
         rv_state prior = rsv_released ∧ rv_inputDigest prior = i) ∧
      find_reservation w k d' = Some rv ∧ rv_attemptId rv = a ∧ rv_inputDigest rv = i ∧ rv_state rv = rsv_reserved
  | admit_replay => find_reservation w k d = Some rv ∧ rv_state rv = rsv_committed ∧ rv_inputDigest rv = i ∧
      find_reservation w k d' = Some rv
  | admit_in_progress => find_reservation w k d = Some rv ∧ (rv_state rv = rsv_reserved ∨ rv_state rv = rsv_unknown) ∧
      rv_inputDigest rv = i ∧ d' = d
  | admit_conflict => find_reservation w k d = Some rv ∧ rv_inputDigest rv ≠ i ∧ d' = d
  end.

(** Execute only when there was no reservation or a released one of the same
    input, and then the attempt owns it; replay only when the effect is committed
    and in progress only while an attempt holds it or its outcome is unknown, both
    for the same input; a conflict for any other input.  Other effects are not
    touched. *)
Lemma reserveEffect_Ok w k i a l t s answer rv s' :
  reserveEffect w k i a l t s = (Ok (answer, rv), s') →
  reserve_answer (st_db s) (st_db s') w k i a answer rv ∧
  ∀ v j, ¬ (v = w ∧ j = k) → find_reservation v j (st_db s') = find_reservation v j (st_db s).
Proof.
  intros Hs. unfold reserveEffect in Hs. apply bind_db_Ok in Hs as (? & s1 & [_ ->]%throw_if_Ok & Hs).
  apply transaction_Ok in Hs as [_ Hs]. apply bind_db_Ok in Hs as (row & s1 & [-> ->]%select_Ok & Hs).
  destruct (find_reservation w k (st_db s)) as [prior|] eqn:Hp.
  - unfold reservation_decision in Hs. case_bool_decide as Hi; [apply ret_db_Ok in Hs as [[= -> ->] ->]; by repeat split|].
    assert (∀ d', db_reservations d' = db_reservations (st_db s) → ∀ v j,
      find_reservation v j d' = find_reservation v j (st_db s)) as Hsame by (intros d' E v j; unfold find_reservation; by rewrite E).
    destruct (rv_state prior) eqn:Hst.
    + apply ret_db_Ok in Hs as [[= -> ->] ->]. split; [|done]. repeat split; auto.
    + apply bind_db_Ok in Hs as (task & s1 & Ht & Hs). apply bind_db_Ok in Hs as (q & s2 & Hq%appended_reservations & Hs).
      apply ret_db_Ok in Hs as [[= -> ->] ->]. apply read_task_Ok in Ht as [-> _].
      split; [split_and!; [done..|by rewrite (Hsame _ Hq)]|]. intros v j _. by apply Hsame.
    + apply ret_db_Ok in Hs as [[= -> ->] ->]. split; [|done]. repeat split; auto.
    + apply bind_db_Ok in Hs as (? & s1 & ->%update_Ok & Hs).
      apply bind_db_Ok in Hs as (? & s2 & Hq%reserve_event_reservations & Hs). apply ret_db_Ok in Hs as [[= -> ->] ->].
      assert (∀ v j, find_reservation v j (st_db s2) = _) as Hf
        by (intros v j; etrans; [unfold find_reservation at 1; rewrite Hq; reflexivity|apply (find_updated w k _ v j)]).
      split; [split_and!; [right; by exists prior| |done|done|done]|].
      * rewrite Hf, decide_True by done. by rewrite Hp.
      * intros v j Hne. by rewrite Hf, decide_False.
  - apply bind_db_Ok in Hs as (? & s1 & ->%update_Ok & Hs).
    apply bind_db_Ok in Hs as (? & s2 & Hq%reserve_event_reservations & Hs). apply ret_db_Ok in Hs as [[= -> ->] ->].
    assert (∀ v j, find_reservation v j (st_db s2) = _) as Hf
      by (intros v j; etrans; [unfold find_reservation at 1; rewrite Hq; reflexivity|exact (find_added {| rv_workflowId := w |} v j (st_db s))]).
    split; [split_and!; [by left| |done|done|done]|].
    + by rewrite Hf, Hp, decide_True.
    + intros v j Hne. rewrite Hf, decide_False by done. by destruct (find_reservation v j (st_db s)).
Qed.

(** The request that may give the reservation [(w, k)] of the attempt [a] and the
    input [i] to another attempt, and when. *)
Definition hands_over (request : authority_request) (w k i : string) (rv : WorkflowEffectReservationV1) : Prop :=
  (∃ b l t, request = do_reserveEffect w k i b l t) ∧ rv_state rv = rsv_released.

Lemma request_reservation s request w k rv :
  find_reservation w k (st_db s) = Some rv → ∃ rv',
    find_reservation w k (st_db (after_request s request)) = Some rv' ∧ rv_inputDigest rv' = rv_inputDigest rv ∧
    (rv_attemptId rv' = rv_attemptId rv ∨ hands_over request w k (rv_inputDigest rv) rv).
Proof.
  intros Hrv. destruct (is_reserve request) eqn:Hr.
  - destruct request as [| | | | | | | | | | | | | | | | |w' k' i a l t| | | |]; try discriminate Hr. unfold after_request. cbn [execute].
    destruct (reserveEffect w' k' i a l t s) as [[[answer rv']|c] s'] eqn:Hs.
    + unfold mbind, db_bind. rewrite Hs. cbn. apply reserveEffect_Ok in Hs as [Ha Hother].
      destruct (decide (w = w' ∧ k = k')) as [[<- <-]|Hne]; [|exists rv; rewrite Hother by done; eauto].
      destruct answer; cbn in Ha.
      * destruct Ha as ([Hn|(prior & Hp & Hst & Hi)] & Hf & Hat & Hi' & _); [congruence|]. rewrite Hrv in Hp. injection Hp as <-.
        exists rv'. split; [done|]. split; [congruence|]. right. split; [|done]. exists a, l, t. by rewrite Hi.
      * destruct Ha as (Hp & _ & _ & Hf). exists rv'. split; [done|]. rewrite Hrv in Hp. injection Hp as ->. eauto.
      * destruct Ha as (_ & _ & _ & ->). eauto.
      * destruct Ha as (_ & _ & ->). eauto.
    + unfold mbind, db_bind. rewrite Hs. cbn. unfold reserveEffect in Hs.
      apply bind_db_Err in Hs as [[= _ <-]|(? & s1 & [_ ->]%throw_if_Ok & Hs%transaction_Err)]; [|rewrite Hs]; eauto.
  - destruct (execute_owned_always request Hr s w k rv Hrv) as (rv' & ? & ? & ?). eauto.
Qed.

Lemma requests_reservation requests s w k rv :
  find_reservation w k (st_db s) = Some rv → ∃ rv',
    find_reservation w k (st_db (foldl after_request s requests)) = Some rv' ∧ rv_inputDigest rv' = rv_inputDigest rv.
Proof.
  revert s rv; induction requests as [|request l IH]; intros s rv Hrv; [by exists rv|].
  destruct (request_reservation s request w k rv Hrv) as (rv1 & Hrv1 & <- & _). by apply IH.
Qed.

(** C11 An effect has one executor at a time: after an attempt is told to execute,
    and any requests, it still owns the reservation with its input, unless on the
    way a reservation for the same input found that it was released. *)
Theorem effect_exclusive w k i a l t s rv s1 requests :
  reserveEffect w k i a l t s = (Ok (admit_execute, rv), s1) → ∃ rv',
    find_reservation w k (st_db (foldl after_request s1 requests)) = Some rv' ∧ rv_inputDigest rv' = i ∧
    (rv_attemptId rv' = a ∨ ∃ before request after rv0, requests = before ++ request :: after ∧
       find_reservation w k (st_db (foldl after_request s1 before)) = Some rv0 ∧ rv_attemptId rv0 = a ∧
       hands_over request w k i rv0).
Proof.
  intros ((_ & Hf & <- & <- & _) & _)%reserveEffect_Ok. clear s. revert s1 rv Hf.
  induction requests as [|request l' IH]; intros s rv Hf; [by exists rv; auto|]. cbn [foldl].
  destruct (request_reservation s request w k rv Hf) as (rv1 & Hf1 & Hi & [Ha|Hh]).
  - rewrite <-Hi, <-Ha. destruct (IH _ _ Hf1) as (rv2 & Hf2 & Hi2 & [Ha2|(before & r & after & rv0 & -> & ? & ? & ?)]).
    + exists rv2. auto.
    + exists rv2. split_and!; [done|done|]. right. by exists (request :: before), r, after, rv0.
  - destruct (requests_reservation l' _ _ _ _ Hf1) as (rv2 & Hf2 & Hi2). exists rv2. split_and!; [done|congruence|].
    right. by exists [], request, l', rv.
Qed.
End Reserve.
