(* ===== verification/AuthoritySamples.v ===== *)
(** * Concrete runs of the Workflow authority

    A workflow with two tasks that conflict, and what the authority answers to
    transactions, claims, a recovery, reservations and repeated signals. *)

From S2P Require Import Prelude Js JsOps CanonicalJson Workflow WorkflowReducer Samples WorkflowExecution AuthorityDb AuthorityStatements WorkflowAuthority AuthorityFacts AuthorityJournal AuthorityRefine AuthorityTasks AuthorityRecover AuthorityEffects.
Local Open Scope Z_scope.

(** An engine that knows the first minutes of a year. *)
Definition minute (k : Z) : string := toISOString (1767225600000 + k * 60000).
#[export] Instance authority_engine : JsEngine := {|
  Date_parse s := (λ k, 1767225600000 + Z.of_nat k * 60000) <$> findb (λ k, bool_decide (minute (Z.of_nat k) = s)) (seq 0 10);
  localeCompare := String.compare;
  Number_toString _ := "0.5"%string;
  String_toNumber _ := NNaN;
|}.
#[export] Instance authority_uuid : RandomUUID := {| uuid n := "u" +:+ pretty n |}.

Definition sample_task (taskId attemptId nodeId : string) (conflictKeys : list string) (effect : EffectContractV1) : WorkflowTaskV1 :=
  {| tk_schemaVersion := 1; tk_taskId := taskId; tk_workflowId := "w1"; tk_runId := "r1"; tk_nodeId := nodeId;
     tk_attemptId := attemptId; tk_kind := kind_agent; tk_profileRef := None; tk_capabilityBundleRef := None;
     tk_payload := JObj []; tk_state := task_ready; tk_priority := 0; tk_readyAt := minute 0;
     tk_deadlineAt := minute 9; tk_conflictKeys := conflictKeys; tk_effect := effect;
     tk_retry := {| rp_maxAttempts := 2; rp_initialBackoffMs := 0; rp_maxBackoffMs := 10; rp_retryableCodes := [] |};
     tk_timeout := {| to_totalMs := 1000; to_noProgressMs := 500; to_heartbeatMs := 100 |};
     tk_lease := None; tk_createdAt := minute 0; tk_updatedAt := minute 0; tk_executionBinding := None |}.
Definition sample_effect (class : WorkflowEffectClassV1) (key : jsval) : EffectContractV1 :=
  {| ec_class := class; ec_idempotencyKey := key; ec_receiptSchemaRef := JUndef; ec_compensationRef := JUndef; ec_requiresApproval := false |}.

Definition sample_bootstrap : WorkflowBootstrap :=
  {| wb_events := [node_to "a" N_admitted; node_to "a" N_scheduled; attempt_created (sample_attempt "a1" "a" 1);
                   node_to "b" N_admitted; node_to "b" N_scheduled; attempt_created (sample_attempt "b1" "b" 1)];
     wb_tasks := [sample_task "ta" "a1" "a" ["k"%string] (sample_effect read JUndef);
                  sample_task "tb" "b1" "b" ["k"%string] (sample_effect external_idempotent (JStr "e1"))];
     wb_outbox := []; wb_timers := []; wb_humanTasks := []; wb_effectReceipts := [] |}.

Definition any_worker : ClaimOptions := {| co_workflowId := None; co_nodeId := None; co_kinds := None; co_leaseMs := None |}.

(** The store after the workflow is created. *)
Definition created_requests : list authority_request := [do_initialize; do_create sample_spec_js "tx1" sample_bootstrap].
Definition created : Authority := foldl after_request fresh created_requests.
Lemma created_reachable : reachable created.
Proof. apply reachable_foldl. constructor. Qed.

(** A transaction that charges the budget at a sequence. *)
Definition charge_at (transactionId : string) (sequence : Z) : WorkflowTransactionV1 :=
  {| wt_transactionId := transactionId; wt_workflowId := "w1"; wt_expectedSequence := sequence;
     wt_events := [budget_charged sample_charge]; wt_enqueueTasks := []; wt_outbox := []; wt_timers := [];
     wt_humanTasks := []; wt_effectReceipts := []; wt_messages := []; wt_effectReservationTerminal := None;
     wt_acknowledgeTask := None; wt_cancelReadyTasks := []; wt_occurredAt := minute 1 |}.

(** The answer to a request and the store after it. *)
Definition answered {A} (m : Db A) (s : Authority) (p : A → bool) : bool :=
  match (m s).1 with Ok a => p a | Err _ => false end.
Lemma answered_Ok {A} (m : Db A) s p : answered m s p = true → ∃ a s', m s = (Ok a, s') ∧ p a = true.
Proof. unfold answered. destruct (m s) as [[a|c] s']; [|done]. by exists a, s'. Qed.
(** The code of a request that fails. *)
Definition refused {A} (m : Db A) (s : Authority) : string := match (m s).1 with Ok _ => "" | Err code => code end.

Lemma authority_refines_witness :
  st_open created = true ∧
  events "w1" 8 created = (Ok (drop 8 (history "w1" (st_db created))), created).
Proof.
  assert (Ho : st_open created = true) by (vm_compute; reflexivity). split; [exact Ho|].
  destruct (authority_refines created created_reachable Ho) as (_ & He & _).
  rewrite (He "w1"%string 8) by (vm_compute; intuition discriminate).
  destruct (history "w1" (st_db created)) as [|e es] eqn:Hh; [|reflexivity].
  assert (Hl : bool_decide (history "w1" (st_db created) = []) = false) by (vm_compute; reflexivity). rewrite Hh in Hl. discriminate Hl.
Defined.

Lemma transact_once_witness : ∃ p s1,
  transact (charge_at "tx2" 8) created = (Ok p, s1) ∧
  transact (charge_at "tx2" 5) (foldl after_request s1 [do_claim "worker" any_worker (minute 1)]) =
    (Ok p, foldl after_request s1 [do_claim "worker" any_worker (minute 1)]).
Proof.
  assert (Hr : answered (transact (charge_at "tx2" 8)) created (λ _, true) = true) by (vm_compute; reflexivity).
  apply answered_Ok in Hr as (p & s1 & Ht & _). exists p, s1. split; [exact Ht|].
  apply (transact_once created (charge_at "tx2" 8) p s1 _ (charge_at "tx2" 5) created_reachable Ht).
  - vm_compute. reflexivity.
  - reflexivity.
  - assert (Hs1 : s1 = (transact (charge_at "tx2" 8) created).2) by (rewrite Ht; reflexivity).
    rewrite Hs1. vm_compute. reflexivity.
Defined.

Lemma transact_exclusive_witness : ∃ p s1,
  transact (charge_at "tx2" 8) created = (Ok p, s1) ∧
  transact (charge_at "tx3" 8) s1 = (Err "WORKFLOW_SEQUENCE_CONFLICT", s1).
Proof.
  assert (Hr : answered (transact (charge_at "tx2" 8)) created (λ _, true) = true) by (vm_compute; reflexivity).
  apply answered_Ok in Hr as (p & s1 & Ht & _). exists p, s1. split; [exact Ht|].
  assert (Hs1 : s1 = (transact (charge_at "tx2" 8) created).2) by (rewrite Ht; reflexivity).
  apply (transact_exclusive created (charge_at "tx2" 8) p s1 [] (charge_at "tx3" 8) created_reachable Ht).
  - vm_compute. reflexivity.
  - discriminate.
  - vm_compute. reflexivity.
  - reflexivity.
  - reflexivity.
  - cbn [foldl]. rewrite Hs1. vm_compute. reflexivity.
  - cbn [foldl]. rewrite Hs1. vm_compute. reflexivity.
Defined.

(** ** Leases *)

(** The first claim gets [ta]; [tb] shares its key. *)
Lemma claim_safe_witness : ∃ task lease s1,
  claim "worker" any_worker (minute 0) created = (Ok (Some (task, lease)), s1) ∧ tk_taskId task = "ta"%string ∧
  ∃ r p, grants (minute 0) any_worker (st_db created) r p ∧ tr_task r ≠ task.
Proof.
  assert (Hr : answered (claim "worker" any_worker (minute 0)) created
    (λ c, bool_decide (tk_taskId ∘ fst <$> c = Some "ta"%string)) = true) by (vm_compute; reflexivity).
  apply answered_Ok in Hr as ([[task lease]|] & s1 & Hc & Hid); [|vm_compute in Hid; discriminate Hid].
  exists task, lease, s1. split; [exact Hc|]. split.
  { apply bool_decide_eq_true_1 in Hid. cbn in Hid. injection Hid as Hid. exact Hid. }
  destruct (claim_safe "worker" any_worker (minute 0) created task lease s1 created_reachable Hc)
    as (r & p & q & token & Hg & _ & _ & Ht & _). exists r, p. split; [exact Hg|]. intros Heq.
  assert (Hs : tr_state r = task_leased).
  { destruct (reachable_tasks _ created_reachable) as [_ _ Hrows]. rewrite (tw_state _ (Hrows r (gr_row _ _ _ _ _ Hg))), Heq, Ht. reflexivity. }
  rewrite (gr_ready _ _ _ _ _ Hg) in Hs. discriminate Hs.
Defined.

Example conflicting_claim :
  (claim "other" any_worker (minute 0) (after_request created (do_claim "worker" any_worker (minute 0)))).1 = Ok None.
Proof. vm_compute. reflexivity. Qed.

Lemma tasks_consistent_witness :
  tasks_wf (st_db created) ∧ keys_grow (st_db created) (st_db (after_request created (do_recoverExpired (minute 1)))).
Proof. exact (tasks_consistent created (do_recoverExpired (minute 1)) created_reachable). Defined.

(** A minute later the lease of [ta] has expired, and its node may run again. *)
Definition claimed : Authority := after_request created (do_claim "worker" any_worker (minute 0)).
Lemma claimed_reachable : reachable claimed.
Proof. apply reach_request, created_reachable. Qed.

Definition retried_one (ds : list WorkflowRecoveryDecisionV1) : bool :=
  match rd_decision <$> ds with [recover_retry] => true | _ => false end.

Lemma recover_safe_witness : ∃ ds s1, recoverExpired (minute 1) claimed = (Ok ds, s1) ∧
  rd_decision <$> ds = [recover_retry] ∧ ∀ r, r ∈ db_tasks (st_db s1) → ¬ lease_expired (minute 1) r.
Proof.
  assert (Hr : answered (recoverExpired (minute 1)) claimed retried_one = true)
    by (vm_compute; reflexivity).
  apply answered_Ok in Hr as (ds & s1 & Hs & Hd). exists ds, s1. split; [exact Hs|].
  split.
  { unfold retried_one in Hd. destruct (rd_decision <$> ds) as [|[] [|]]; try discriminate Hd. reflexivity. }
  exact (proj1 (recover_safe (minute 1) claimed ds s1 claimed_reachable Hs)).
Defined.

(** ** Effects *)

Local Notation reserve k attemptId := (reserveEffect "w1" k sample_digest attemptId (minute 2) (minute 1)).
Definition executes (answer : AdmissionDecisionV1 * WorkflowEffectReservationV1) : bool :=
  match answer.1 with admit_execute => true | _ => false end.

Lemma effect_exclusive_witness : ∃ rv s1, reserve "e1" "b1" created = (Ok (admit_execute, rv), s1) ∧
  ∃ rv', find_reservation "w1" "e1" (st_db (after_request s1 (do_reserveEffect "w1" "e1" sample_digest "a1" (minute 2) (minute 1)))) = Some rv' ∧
    rv_inputDigest rv' = sample_digest.
Proof.
  assert (Hr : answered (reserve "e1" "b1") created executes = true) by (vm_compute; reflexivity).
  apply answered_Ok in Hr as ([answer rv] & s1 & Hs & Ha). destruct answer; try discriminate Ha.
  exists rv, s1. split; [exact Hs|].
  destruct (effect_exclusive "w1" "e1" sample_digest "b1" (minute 2) (minute 1) created rv s1
    [do_reserveEffect "w1" "e1" sample_digest "a1" (minute 2) (minute 1)] Hs) as (rv' & Hf & Hi & _).
  exists rv'. split; [exact Hf|exact Hi].
Defined.

(** The identity of the transaction of a reservation is that of the attempt: an
    attempt that holds one effect cannot reserve another. *)
Example second_effect_refused :
  refused (reserve "e2" "b1") (after_request created (do_reserveEffect "w1" "e1" sample_digest "b1" (minute 2) (minute 1)))
  = "WORKFLOW_PERSISTENCE_FAILED"%string.
Proof. vm_compute. reflexivity. Qed.

(** ** Identities that all workflows share *)

Definition second_spec_js : jsval :=
  match sample_spec_js with JObj o => JObj (mset "workflowId" (JStr "w2") o) | v => v end.
Definition no_bootstrap : WorkflowBootstrap :=
  {| wb_events := []; wb_tasks := []; wb_outbox := []; wb_timers := []; wb_humanTasks := []; wb_effectReceipts := [] |}.
Definition two_workflows : Authority := after_request created (do_create second_spec_js "tx-second" no_bootstrap).
Definition sample_signal (workflowId : string) : WorkflowSignalV1 :=
  {| sg_signalId := "go"; sg_workflowId := workflowId; sg_name := "go"; sg_payload := JObj []; sg_receivedAt := minute 1 |}.

(** Signals are kept by workflow and identity, but the identity of their
    transaction is that of the signal: the second workflow never gets it. *)
Example signal_of_two_workflows :
  (signal (sample_signal "w2") two_workflows).1 = Ok true ∧
  refused (signal (sample_signal "w2")) (after_request two_workflows (do_signal (sample_signal "w1")))
    = "WORKFLOW_PERSISTENCE_FAILED"%string.
Proof. vm_compute. split; reflexivity. Qed.
