(* ===== verification/Plan.v ===== *)
(** * The plan graph contract: packages/core-sdk/src/plan.ts

    The durable plan graph: its data, the strict bounded validators, the
    transition tables and the selection of ready steps. *)

From S2P Require Import Prelude Js.
Local Open Scope Z_scope.

Definition MAX_GRAPH_BYTES : Z := 256 * 1024.
Definition MAX_STEPS : Z := 64.
Definition MAX_ATTEMPTS : Z := 512.
Definition MAX_DEPENDENCIES : Z := 32.
Definition MAX_CAPABILITIES : Z := 64.
Definition MAX_CONFLICT_KEYS : Z := 64.
Definition MAX_CRITERIA : Z := 32.
Definition MAX_PATHS : Z := 64.
Definition MAX_TEXT_BYTES : Z := 8 * 1024.
Definition MAX_REFERENCE_BYTES : Z := 2 * 1024.

(** ** Enumerations *)

Inductive PlanStateV1 :=
| P_draft | P_running | P_blocked | P_succeeded | P_failed | P_cancelled | P_interrupted.
Inductive PlanStepStateV1 :=
| S_pending | S_running | S_verifying | S_succeeded | S_failed | S_blocked | S_cancelled
| S_interrupted.
Inductive PlanAttemptStateV1 :=
| A_reserved | A_running | A_execution_succeeded | A_execution_failed | A_verifying | A_verified
| A_rejected | A_cancelled | A_interrupted.
Inductive PlanAccessModeV1 := read_only | isolated_process | workspace_write.
Inductive PlanCriterionKindV1 :=
| K_schema | K_file | K_digest | K_command | K_check | K_rule | K_semantic.

#[export] Instance PlanStateV1_dec : EqDecision PlanStateV1.
Proof. solve_decision. Defined.
#[export] Instance PlanStepStateV1_dec : EqDecision PlanStepStateV1.
Proof. solve_decision. Defined.
#[export] Instance PlanAttemptStateV1_dec : EqDecision PlanAttemptStateV1.
Proof. solve_decision. Defined.
#[export] Instance PlanAccessModeV1_dec : EqDecision PlanAccessModeV1.
Proof. solve_decision. Defined.
#[export] Instance PlanCriterionKindV1_dec : EqDecision PlanCriterionKindV1.
Proof. solve_decision. Defined.

#[export] Instance PLAN_STATES : JsEnum PlanStateV1.
Proof.
  refine {|
  enum_all := [P_draft; P_running; P_blocked; P_succeeded; P_failed; P_cancelled; P_interrupted];
  enum_name s := match s with
    | P_draft => "draft" | P_running => "running" | P_blocked => "blocked"
    | P_succeeded => "succeeded" | P_failed => "failed" | P_cancelled => "cancelled"
    | P_interrupted => "interrupted" end;
|}; solve_enum.
Defined.

#[export] Instance STEP_STATES : JsEnum PlanStepStateV1.
Proof.
  refine {|
  enum_all := [S_pending; S_running; S_verifying; S_succeeded; S_failed; S_blocked; S_cancelled;
               S_interrupted];
  enum_name s := match s with
    | S_pending => "pending" | S_running => "running" | S_verifying => "verifying"
    | S_succeeded => "succeeded" | S_failed => "failed" | S_blocked => "blocked"
    | S_cancelled => "cancelled" | S_interrupted => "interrupted" end;
|}; solve_enum.
Defined.

#[export] Instance ATTEMPT_STATES : JsEnum PlanAttemptStateV1.
Proof.
  refine {|
  enum_all := [A_reserved; A_running; A_execution_succeeded; A_execution_failed; A_verifying;
               A_verified; A_rejected; A_cancelled; A_interrupted];
  enum_name s := match s with
    | A_reserved => "reserved" | A_running => "running"
    | A_execution_succeeded => "execution_succeeded" | A_execution_failed => "execution_failed"
    | A_verifying => "verifying" | A_verified => "verified" | A_rejected => "rejected"
    | A_cancelled => "cancelled" | A_interrupted => "interrupted" end;
|}; solve_enum.
Defined.

(** The three literals that the access mode is compared with. *)
#[export] Instance ACCESS_MODES : JsEnum PlanAccessModeV1.
Proof.
  refine {|
  enum_all := [read_only; isolated_process; workspace_write];
  enum_name m := match m with
    | read_only => "read_only" | isolated_process => "isolated_process"
    | workspace_write => "workspace_write" end;
|}; solve_enum.
Defined.

#[export] Instance CRITERION_KINDS : JsEnum PlanCriterionKindV1.
Proof.
  refine {|
  enum_all := [K_schema; K_file; K_digest; K_command; K_check; K_rule; K_semantic];
  enum_name k := match k with
    | K_schema => "schema" | K_file => "file" | K_digest => "digest" | K_command => "command"
    | K_check => "check" | K_rule => "rule" | K_semantic => "semantic" end;
|}; solve_enum.
Defined.

(** ** Data *)

Record ExecutionBudget := {
  eb_maxTurns : Z;
  eb_maxToolCalls : Z;
  eb_maxTokens : option Z;
  eb_maxChildRuns : Z;
  eb_maxParallelChildren : Z;
  eb_maxDepth : Z;
  eb_deadlineAt : option string;
}.

Record PlanStepAccessV1 := { ac_mode : PlanAccessModeV1; ac_paths : list string }.

Record PlanSuccessCriterionV1 := {
  sc_criterionId : string;
  sc_kind : PlanCriterionKindV1;
  sc_description : string;
  sc_ref : option string;
  sc_expectedDigest : option string;
}.

Record PlanStepV1 := {
  st_stepId : string;
  st_title : string;
  st_order : Z;
  st_state : PlanStepStateV1;
  st_dependencies : list string;
  st_access : PlanStepAccessV1;
  st_capabilities : list string;
  st_conflictKeys : list string;
  st_criteria : list PlanSuccessCriterionV1;
  st_budget : ExecutionBudget;
  st_maxAttempts : Z;
  st_attemptIds : list string;
}.

Record PlanAttemptV1 := {
  at_attemptId : string;
  at_stepId : string;
  at_ordinal : Z;
  at_state : PlanAttemptStateV1;
  at_childRunId : option string;
  at_resultRef : option string;
  at_resultDigest : option string;
  at_verificationRef : option string;
}.

Record PlanGraphV1 := {
  pg_planId : string;
  pg_revision : Z;
  pg_objective : string;
  pg_state : PlanStateV1;
  pg_steps : list PlanStepV1;
  pg_attempts : list PlanAttemptV1;
}.

Record PlanStepTransitionOptions := {
  retryApproved : bool;
  recoveryRetryApproved : bool;
  externalConditionChanged : bool;
  createsNewAttempt : bool;
}.

(** ** Transition tables *)

Definition PLAN_TRANSITIONS (from : PlanStateV1) : list PlanStateV1 :=
  match from with
  | P_draft => [P_running; P_cancelled]
  | P_running => [P_blocked; P_succeeded; P_failed; P_cancelled; P_interrupted]
  | P_blocked => [P_running; P_failed; P_cancelled; P_interrupted]
  | P_succeeded | P_failed | P_cancelled => []
  | P_interrupted => [P_running; P_failed; P_cancelled]
  end.

Definition STEP_TRANSITIONS (from : PlanStepStateV1) : list PlanStepStateV1 :=
  match from with
  | S_pending => [S_running; S_cancelled; S_interrupted]
  | S_running => [S_verifying; S_failed; S_cancelled; S_interrupted]
  | S_verifying => [S_succeeded; S_failed; S_blocked; S_cancelled; S_interrupted]
  | S_succeeded | S_failed | S_blocked | S_cancelled => []
  | S_interrupted => [S_blocked]
  end.

Definition ATTEMPT_TRANSITIONS (from : PlanAttemptStateV1) : list PlanAttemptStateV1 :=
  match from with
  | A_reserved => [A_running; A_cancelled; A_interrupted]
  | A_running => [A_execution_succeeded; A_execution_failed; A_cancelled; A_interrupted]
  | A_execution_succeeded => [A_verifying; A_interrupted]
  | A_verifying => [A_verified; A_rejected; A_cancelled; A_interrupted]
  | A_execution_failed | A_verified | A_rejected | A_cancelled | A_interrupted => []
  end.

Definition assertPlanStateTransitionV1 (from to : PlanStateV1) : res unit :=
  fail_if (negb (bool_decide (to ∈ PLAN_TRANSITIONS from))) "PLAN_TRANSITION_INVALID".

Definition assertPlanStepTransitionV1 (from to : PlanStepStateV1) (options : PlanStepTransitionOptions) :
    res unit :=
  match from, to with
  | S_failed, S_pending =>
      fail_if (negb (retryApproved options && createsNewAttempt options)) "PLAN_TRANSITION_INVALID"
  | S_blocked, S_pending =>
      fail_if (negb (externalConditionChanged options && createsNewAttempt options))
        "PLAN_TRANSITION_INVALID"
  | S_interrupted, S_pending =>
      fail_if (negb (recoveryRetryApproved options && createsNewAttempt options))
        "PLAN_TRANSITION_INVALID"
  | _, _ => fail_if (negb (bool_decide (to ∈ STEP_TRANSITIONS from))) "PLAN_TRANSITION_INVALID"
  end.

Definition assertPlanAttemptTransitionV1 (from to : PlanAttemptStateV1) : res unit :=
  fail_if (negb (bool_decide (to ∈ ATTEMPT_TRANSITIONS from))) "PLAN_TRANSITION_INVALID".

(** ** Validators *)

(** The checks of an exact record: every required key, no key but the listed ones. *)
Definition exact_record (code : string) (required optional : list string) (v : jsval) : res jsobj :=
  match v with
  | JObj o =>
      fail_if (existsb (λ k, negb (hasOwn o k)) required
               || existsb (λ k, negb (memb k (required ++ optional))) (keys o)) code;;
      Ok o
  | _ => Err code
  end.

Definition exactRecord (v : jsval) (required optional : list string) : res jsobj :=
  exact_record "PLAN_GRAPH_INVALID" required optional v.

Definition unique (values : list string) : res unit :=
  fail_if (negb (nodupb values)) "PLAN_GRAPH_INVALID".

Definition idList (input : jsval) (maximum : Z) : res (list string) :=
  fail_if (negb (is_arr input) || (maximum <? Z.of_nat (length (js_arr input)))
           || negb (forallb safeId (js_arr input))) "PLAN_GRAPH_INVALID";;
  unique (js_str <$> js_arr input);;
  Ok (js_str <$> js_arr input).

Definition textList (input : jsval) (maximum bytes : Z) : res (list string) :=
  fail_if (negb (is_arr input) || (maximum <? Z.of_nat (length (js_arr input)))
           || negb (forallb (λ v, boundedText v bytes) (js_arr input))) "PLAN_GRAPH_INVALID";;
  unique (js_str <$> js_arr input);;
  Ok (js_str <$> js_arr input).

Definition validateAccess (input : jsval) : res PlanStepAccessV1 :=
  access ← exactRecord input ["mode"; "paths"]%string [];
  fail_if (negb (is_enum (A:=PlanAccessModeV1) (access .: "mode"))) "PLAN_GRAPH_INVALID";;
  paths ← textList (access .: "paths") MAX_PATHS MAX_REFERENCE_BYTES;
  Ok {| ac_mode := enum_cast read_only (access .: "mode"); ac_paths := paths |}.

(** [v !== undefined && !check(v)] rejects. *)
Definition opt_rejected (v : jsval) (check : jsval → bool) : bool :=
  negb (is_undef v) && negb (check v).

Definition validateCriterion (input : jsval) : res PlanSuccessCriterionV1 :=
  criterion ← exactRecord input ["criterionId"; "kind"; "description"]%string
    ["ref"; "expectedDigest"]%string;
  fail_if (negb (safeId (criterion .: "criterionId"))
           || negb (is_enum (A:=PlanCriterionKindV1) (criterion .: "kind"))
           || negb (boundedText (criterion .: "description") MAX_TEXT_BYTES)
           || opt_rejected (criterion .: "ref") (λ v, boundedText v MAX_REFERENCE_BYTES)
           || opt_rejected (criterion .: "expectedDigest") digest) "PLAN_GRAPH_INVALID";;
  Ok {| sc_criterionId := js_str (criterion .: "criterionId");
        sc_kind := enum_cast K_schema (criterion .: "kind");
        sc_description := js_str (criterion .: "description");
        sc_ref := opt js_str (criterion .: "ref");
        sc_expectedDigest := opt js_str (criterion .: "expectedDigest") |}.

Definition validatePlanAttemptV1 (input : jsval) : res PlanAttemptV1 :=
  attempt ← exactRecord input ["attemptId"; "stepId"; "ordinal"; "state"]%string
    ["childRunId"; "resultRef"; "resultDigest"; "verificationRef"]%string;
  fail_if (negb (safeId (attempt .: "attemptId")) || negb (safeId (attempt .: "stepId"))
           || negb (positiveInteger (attempt .: "ordinal"))
           || negb (is_enum (A:=PlanAttemptStateV1) (attempt .: "state"))
           || opt_rejected (attempt .: "childRunId") safeId
           || opt_rejected (attempt .: "resultRef") (λ v, boundedText v MAX_REFERENCE_BYTES)
           || opt_rejected (attempt .: "resultDigest") digest
           || opt_rejected (attempt .: "verificationRef") (λ v, boundedText v MAX_REFERENCE_BYTES)
           || negb (Bool.eqb (is_undef (attempt .: "resultRef")) (is_undef (attempt .: "resultDigest"))))
    "PLAN_GRAPH_INVALID";;
  Ok {| at_attemptId := js_str (attempt .: "attemptId"); at_stepId := js_str (attempt .: "stepId");
        at_ordinal := js_int (attempt .: "ordinal");
        at_state := enum_cast A_reserved (attempt .: "state");
        at_childRunId := opt js_str (attempt .: "childRunId");
        at_resultRef := opt js_str (attempt .: "resultRef");
        at_resultDigest := opt js_str (attempt .: "resultDigest");
        at_verificationRef := opt js_str (attempt .: "verificationRef") |}.

Section Validators.
Context `{JsEngine}.

Definition validateBudget (input : jsval) : res ExecutionBudget :=
  budget ← exactRecord input
    ["maxTurns"; "maxToolCalls"; "maxChildRuns"; "maxParallelChildren"; "maxDepth"]%string
    ["maxTokens"; "deadlineAt"]%string;
  fail_if (negb (nonNegativeInteger (budget .: "maxTurns"))
           || negb (nonNegativeInteger (budget .: "maxToolCalls"))
           || opt_rejected (budget .: "maxTokens") positiveInteger
           || negb (is_int (budget .: "maxChildRuns") 0)
           || negb (is_int (budget .: "maxParallelChildren") 0)
           || negb (is_int (budget .: "maxDepth") 0)
           || opt_rejected (budget .: "deadlineAt") canonicalInstant) "PLAN_GRAPH_INVALID";;
  Ok {| eb_maxTurns := js_int (budget .: "maxTurns");
        eb_maxToolCalls := js_int (budget .: "maxToolCalls");
        eb_maxTokens := opt js_int (budget .: "maxTokens");
        eb_maxChildRuns := 0; eb_maxParallelChildren := 0; eb_maxDepth := 0;
        eb_deadlineAt := opt js_str (budget .: "deadlineAt") |}.

Definition validatePlanStepV1 (input : jsval) : res PlanStepV1 :=
  step ← exactRecord input
    ["stepId"; "title"; "order"; "state"; "dependencies"; "access"; "capabilities"; "conflictKeys";
     "criteria"; "budget"; "maxAttempts"; "attemptIds"]%string [];
  fail_if (negb (safeId (step .: "stepId")) || negb (boundedText (step .: "title") MAX_TEXT_BYTES)
           || negb (nonNegativeInteger (step .: "order"))
           || negb (is_enum (A:=PlanStepStateV1) (step .: "state"))
           || negb (positiveInteger (step .: "maxAttempts")) || (16 <? js_int (step .: "maxAttempts")))
    "PLAN_GRAPH_INVALID";;
  dependencies ← idList (step .: "dependencies") MAX_DEPENDENCIES;
  capabilities ← idList (step .: "capabilities") MAX_CAPABILITIES;
  conflictKeys ← textList (step .: "conflictKeys") MAX_CONFLICT_KEYS MAX_REFERENCE_BYTES;
  attemptIds ← idList (step .: "attemptIds") 16;
  fail_if (memb (js_str (step .: "stepId")) dependencies
           || (js_int (step .: "maxAttempts") <? Z.of_nat (length attemptIds))
           || negb (is_arr (step .: "criteria"))
           || (Z.of_nat (length (js_arr (step .: "criteria"))) <? 1)
           || (MAX_CRITERIA <? Z.of_nat (length (js_arr (step .: "criteria")))))
    "PLAN_GRAPH_INVALID";;
  access ← validateAccess (step .: "access");
  criteria ← mapM validateCriterion (js_arr (step .: "criteria"));
  budget ← validateBudget (step .: "budget");
  Ok {| st_stepId := js_str (step .: "stepId"); st_title := js_str (step .: "title");
        st_order := js_int (step .: "order"); st_state := enum_cast S_pending (step .: "state");
        st_dependencies := dependencies; st_access := access; st_capabilities := capabilities;
        st_conflictKeys := conflictKeys; st_criteria := criteria; st_budget := budget;
        st_maxAttempts := js_int (step .: "maxAttempts"); st_attemptIds := attemptIds |}.

(** The inner loop over [step.attemptIds]: true when it does not throw. *)
Fixpoint attempts_linked (attemptsById : list (string * PlanAttemptV1)) (stepId : string)
    (attemptIds : list string) (ordinals : list Z) : bool :=
  match attemptIds with
  | [] => true
  | attemptId :: attemptIds =>
      match mget attemptId attemptsById with
      | None => false
      | Some attempt =>
          if bool_decide (at_stepId attempt ≠ stepId) || bool_decide (at_ordinal attempt ∈ ordinals)
          then false
          else attempts_linked attemptsById stepId attemptIds (at_ordinal attempt :: ordinals)
      end
  end.

Definition validatePlanGraphV1 (input : jsval) : res PlanGraphV1 :=
  fail_if (jsonBytes_over input MAX_GRAPH_BYTES) "PLAN_GRAPH_OVERSIZED";;
  graph ← exactRecord input
    ["schemaVersion"; "planId"; "revision"; "objective"; "state"; "steps"; "attempts"]%string [];
  fail_if (negb (is_int (graph .: "schemaVersion") 1) || negb (safeId (graph .: "planId"))
           || negb (positiveInteger (graph .: "revision"))
           || negb (boundedText (graph .: "objective") MAX_TEXT_BYTES)
           || negb (is_enum (A:=PlanStateV1) (graph .: "state"))
           || negb (is_arr (graph .: "steps"))
           || (Z.of_nat (length (js_arr (graph .: "steps"))) <? 1)
           || (MAX_STEPS <? Z.of_nat (length (js_arr (graph .: "steps"))))
           || negb (is_arr (graph .: "attempts"))
           || (MAX_ATTEMPTS <? Z.of_nat (length (js_arr (graph .: "attempts")))))
    "PLAN_GRAPH_INVALID";;
  steps ← mapM validatePlanStepV1 (js_arr (graph .: "steps"));
  attempts ← mapM validatePlanAttemptV1 (js_arr (graph .: "attempts"));
  unique (st_stepId <$> steps);;
  unique ((λ step, js_String (JInt (st_order step))) <$> steps);;
  unique (at_attemptId <$> attempts);;
  unique (omap at_childRunId attempts);;
  let attemptsById := mof ((λ a, (at_attemptId a, a)) <$> attempts) in
  fail_if (existsb (λ step, negb (attempts_linked attemptsById (st_stepId step) (st_attemptIds step) []))
    steps) "PLAN_GRAPH_INVALID";;
  let linkedAttemptIds := steps ≫= st_attemptIds in
  fail_if (existsb (λ a, negb (memb (at_attemptId a) linkedAttemptIds)) attempts) "PLAN_GRAPH_INVALID";;
  Ok {| pg_planId := js_str (graph .: "planId"); pg_revision := js_int (graph .: "revision");
        pg_objective := js_str (graph .: "objective"); pg_state := enum_cast P_draft (graph .: "state");
        pg_steps := steps; pg_attempts := attempts |}.
(** ** Ready steps *)

(** [left.order - right.order || left.stepId.localeCompare(right.stepId)] is at most 0. *)
Definition step_before (left right : PlanStepV1) : bool :=
  (st_order left <? st_order right)
  || (st_order left =? st_order right)
     && match localeCompare (st_stepId left) (st_stepId right) with Gt => false | _ => true end.

(** The predicate of the filter. *)
Definition step_ready (byId : list (string * PlanStepV1)) (step : PlanStepV1) : res bool :=
  if negb (bool_decide (st_state step = S_pending))
     || (st_maxAttempts step <=? Z.of_nat (length (st_attemptIds step)))
  then Ok false
  else every_res (λ dependencyId,
    match mget dependencyId byId with
    | None => Err "PLAN_GRAPH_DEPENDENCY_MISSING"
    | Some dependency => Ok (bool_decide (st_state dependency = S_succeeded))
    end) (st_dependencies step).

Definition readyPlanStepIdsV1 (input : jsval) : res (list string) :=
  graph ← validatePlanGraphV1 input;
  if negb (bool_decide (pg_state graph = P_running)) then Ok []
  else
    let byId := mof ((λ step, (st_stepId step, step)) <$> pg_steps graph) in
    ready ← filter_res (step_ready byId) (pg_steps graph);
    Ok (st_stepId <$> js_sort step_before ready).
End Validators.

(** ** The validated values as objects *)

Definition PlanBudget_js (b : ExecutionBudget) : jsval :=
  JObj ([("maxTurns"%string, JInt (eb_maxTurns b)); ("maxToolCalls"%string, JInt (eb_maxToolCalls b))]
        ++ opt_prop "maxTokens" JInt (eb_maxTokens b)
        ++ [("maxChildRuns"%string, JInt (eb_maxChildRuns b));
            ("maxParallelChildren"%string, JInt (eb_maxParallelChildren b));
            ("maxDepth"%string, JInt (eb_maxDepth b))]
        ++ opt_prop "deadlineAt" JStr (eb_deadlineAt b)).

Definition PlanAccess_js (a : PlanStepAccessV1) : jsval :=
  JObj [("mode"%string, JStr (enum_name (ac_mode a))); ("paths"%string, JStrs (ac_paths a))].

Definition PlanCriterion_js (c : PlanSuccessCriterionV1) : jsval :=
  JObj ([("criterionId"%string, JStr (sc_criterionId c)); ("kind"%string, JStr (enum_name (sc_kind c)));
         ("description"%string, JStr (sc_description c))]
        ++ opt_prop "ref" JStr (sc_ref c) ++ opt_prop "expectedDigest" JStr (sc_expectedDigest c)).

Definition PlanStep_js (s : PlanStepV1) : jsval :=
  JObj [("stepId"%string, JStr (st_stepId s)); ("title"%string, JStr (st_title s));
        ("order"%string, JInt (st_order s)); ("state"%string, JStr (enum_name (st_state s)));
        ("dependencies"%string, JStrs (st_dependencies s));
        ("access"%string, PlanAccess_js (st_access s));
        ("capabilities"%string, JStrs (st_capabilities s));
        ("conflictKeys"%string, JStrs (st_conflictKeys s));
        ("criteria"%string, JArr (PlanCriterion_js <$> st_criteria s));
        ("budget"%string, PlanBudget_js (st_budget s));
        ("maxAttempts"%string, JInt (st_maxAttempts s));
        ("attemptIds"%string, JStrs (st_attemptIds s))].

Definition PlanAttempt_js (a : PlanAttemptV1) : jsval :=
  JObj ([("attemptId"%string, JStr (at_attemptId a)); ("stepId"%string, JStr (at_stepId a));
         ("ordinal"%string, JInt (at_ordinal a)); ("state"%string, JStr (enum_name (at_state a)))]
        ++ opt_prop "childRunId" JStr (at_childRunId a)
        ++ opt_prop "resultRef" JStr (at_resultRef a)
        ++ opt_prop "resultDigest" JStr (at_resultDigest a)
        ++ opt_prop "verificationRef" JStr (at_verificationRef a)).

Definition PlanGraph_js (g : PlanGraphV1) : jsval :=
  JObj [("schemaVersion"%string, JInt 1); ("planId"%string, JStr (pg_planId g));
        ("revision"%string, JInt (pg_revision g)); ("objective"%string, JStr (pg_objective g));
        ("state"%string, JStr (enum_name (pg_state g)));
        ("steps"%string, JArr (PlanStep_js <$> pg_steps g));
        ("attempts"%string, JArr (PlanAttempt_js <$> pg_attempts g))].
