(* ===== verification/PlanSpec.v ===== *)
(** * What an accepted plan graph guarantees

    Soundness and stability of the validators of packages/core-sdk/src/plan.ts
    and the meaning of [readyPlanStepIdsV1]. *)

From S2P Require Import Prelude Js JsOps Graph Samples Plan.
Local Open Scope Z_scope.
#[local] Arguments JStrs : simpl never.
#[local] Arguments textList : simpl never.
#[local] Arguments idList : simpl never.
#[local] Arguments canonicalInstant : simpl never.

(** ** Reading back the parts *)

Lemma exact_record_Ok code req opts v o :
  exact_record code req opts v = Ok o ↔
  v = JObj o ∧ (∀ k, k ∈ req → k ∈ keys o) ∧ (∀ k, k ∈ keys o → k ∈ req ++ opts).
Proof.
  unfold exact_record. destruct v; try (split; [done|by intros [? _]]).
  split.
  - intros Hv. inv_ok. split_bool. rewrite !existsb_false, !Forall_forall in *. split_and!; [done|..].
    + intros k Hk. specialize (H k Hk). split_bool. by apply memb_true.
    + intros k Hk. specialize (H0 k Hk). split_bool. by apply memb_true.
  - intros ([= ->] & Hreq & Hall). rewrite !(proj2 (existsb_false _ _)); [done|..];
      apply Forall_forall; intros k Hk; apply negb_false_iff, memb_true; auto.
Qed.

Lemma exactRecord_Ok v req opts o :
  exactRecord v req opts = Ok o → v = JObj o.
Proof. intros Ho. by apply exact_record_Ok in Ho as (? & _). Qed.

(** A literal object with the right property names is an exact record. *)
Definition exact_keys (ks req opts : list string) : bool :=
  forallb (λ k, memb k ks) req && forallb (λ k, memb k (req ++ opts)) ks.

Lemma exact_record_lit code o req opts :
  exact_keys (keys o) req opts = true → exact_record code req opts (JObj o) = Ok o.
Proof.
  unfold exact_keys. rewrite andb_true_iff, !forallb_true, !Forall_forall. intros [Hreq Hall].
  apply exact_record_Ok. split_and!; [done|..]; intros k Hk; apply memb_true; auto.
Qed.

Ltac plan_lit :=
  unfold exactRecord; rewrite exact_record_lit by (vm_compute; reflexivity);
  cbn [mbind res_bind].

Ltac open_plan_step :=
  match goal with
  | H : exactRecord _ _ _ = Ok _ |- _ => apply exactRecord_Ok in H; subst
  | _ => inv_ok_step
  end.
Ltac open_plan := intros; repeat open_plan_step; unfold opt_rejected in *; simplify_eq; canon;
  cbn [js_int js_str js_arr js_bool JInt opt] in *.

Lemma js_strs_forallb (f : jsval → bool) l :
  (∀ v, f v = true → is_string v = true) → forallb f l = true → JStrs (js_str <$> l) = JArr l.
Proof.
  intros Hf Hl. apply js_strs_inv. apply forallb_true in Hl. apply forallb_true.
  eapply Forall_impl; [done|]. cbn. auto.
Qed.

Section Reparse.
Context `{JsEngine}.

Lemma idList_reparse v n l : idList v n = Ok l → idList (JStrs l) n = Ok l.
Proof.
  unfold idList. destruct v; try done. cbn [is_arr js_arr negb orb]. intros Hl. inv_ok. split_bool.
  rewrite (js_strs_forallb safeId) by (try done; by intros []). cbn [is_arr js_arr negb orb].
  repeat match goal with H : ?b = _ |- context [?b] => rewrite H end. done.
Qed.

Lemma textList_reparse v n m l : textList v n m = Ok l → textList (JStrs l) n m = Ok l.
Proof.
  unfold textList. destruct v; try done. cbn [is_arr js_arr negb orb]. intros Hl. inv_ok. split_bool.
  rewrite (js_strs_forallb (λ v, boundedText v m)) by (try done; by intros []).
  cbn [is_arr js_arr negb orb].
  repeat match goal with H : ?b = _ |- context [?b] => rewrite H end. done.
Qed.

Lemma validateAccess_reparse v a : validateAccess v = Ok a → validateAccess (PlanAccess_js a) = Ok a.
Proof.
  unfold validateAccess. open_plan. unfold PlanAccess_js. plan_lit. cbn. guards.
  by erewrite textList_reparse.
Qed.

Lemma validatePlanCriterion_reparse v c :
  validateCriterion v = Ok c → validateCriterion (PlanCriterion_js c) = Ok c.
Proof. unfold validateCriterion, PlanCriterion_js. open_plan; plan_lit; cbn; guards; done. Qed.

Lemma validatePlanAttemptV1_reparse v a :
  validatePlanAttemptV1 v = Ok a → validatePlanAttemptV1 (PlanAttempt_js a) = Ok a.
Proof.
  unfold validatePlanAttemptV1, PlanAttempt_js.
  open_plan; try discriminate; plan_lit; cbn; guards; done.
Qed.

Lemma validatePlanBudget_reparse v b :
  validateBudget v = Ok b → validateBudget (PlanBudget_js b) = Ok b.
Proof. unfold validateBudget, PlanBudget_js. open_plan; plan_lit; cbn; guards; done. Qed.

Lemma validatePlanStepV1_reparse v s :
  validatePlanStepV1 v = Ok s → validatePlanStepV1 (PlanStep_js s) = Ok s.
Proof.
  unfold validatePlanStepV1, PlanStep_js. open_plan.
  repeat match goal with
  | H : idList (get _ _) _ = Ok _ |- _ => apply idList_reparse in H
  | H : textList (get _ _) _ _ = Ok _ |- _ => apply textList_reparse in H
  | H : validateAccess (get _ _) = Ok _ |- _ => apply validateAccess_reparse in H
  | H : validateBudget (get _ _) = Ok _ |- _ => apply validatePlanBudget_reparse in H
  end.
  match goal with H : mapM validateCriterion _ = Ok _ |- _ =>
    pose proof (Forall2_length _ _ _ (proj1 (mapM_Ok _ _ _) H)) as Hlen;
    apply (mapM_reparse _ PlanCriterion_js _ _ validatePlanCriterion_reparse) in H as Hcrit
  end.
  rewrite Hlen in *. plan_lit.
  cbn [get String.eqb Ascii.eqb Bool.eqb js_str js_int js_arr is_arr JInt safeId st_stepId st_title
    st_order st_state st_dependencies st_access st_capabilities st_conflictKeys st_criteria st_budget
    st_maxAttempts st_attemptIds].
  rewrite length_fmap. guards_with ltac:(cbn [negb orb fail_if mbind res_bind]). done.
Qed.
End Reparse.

(** ** Well-formed graphs *)

Record step_wf (s : PlanStepV1) : Prop := {
  sw_id : SAFE_ID (st_stepId s) = true;
  sw_order : 0 ≤ st_order s;
  sw_attempts : Z.of_nat (length (st_attemptIds s)) ≤ st_maxAttempts s ≤ 16;
  sw_dependencies : NoDup (st_dependencies s) ∧ st_stepId s ∉ st_dependencies s ∧
    Z.of_nat (length (st_dependencies s)) ≤ MAX_DEPENDENCIES;
  sw_criteria : 1 ≤ Z.of_nat (length (st_criteria s)) ≤ MAX_CRITERIA;
  sw_budget : eb_maxChildRuns (st_budget s) = 0 ∧ eb_maxParallelChildren (st_budget s) = 0 ∧
    eb_maxDepth (st_budget s) = 0 ∧ 0 ≤ eb_maxTurns (st_budget s) ∧ 0 ≤ eb_maxToolCalls (st_budget s);
}.

(** The attempts of the graph are those that its steps list, each under its step. *)
Record plan_wf (g : PlanGraphV1) : Prop := {
  gw_size : 1 ≤ Z.of_nat (length (pg_steps g)) ≤ MAX_STEPS ∧
    Z.of_nat (length (pg_attempts g)) ≤ MAX_ATTEMPTS;
  gw_steps : Forall step_wf (pg_steps g);
  gw_ids : NoDup (st_stepId <$> pg_steps g);
  gw_orders : NoDup (st_order <$> pg_steps g);
  gw_attempt_ids : NoDup (at_attemptId <$> pg_attempts g);
  gw_children : NoDup (omap at_childRunId (pg_attempts g));
  gw_listed : ∀ s a, s ∈ pg_steps g → a ∈ st_attemptIds s →
    ∃ att, att ∈ pg_attempts g ∧ at_attemptId att = a ∧ at_stepId att = st_stepId s;
  gw_owned : ∀ att, att ∈ pg_attempts g →
    ∃ s, s ∈ pg_steps g ∧ at_attemptId att ∈ st_attemptIds s ∧ st_stepId s = at_stepId att;
  gw_ordinals : ∀ a b, a ∈ pg_attempts g → b ∈ pg_attempts g →
    at_stepId a = at_stepId b → at_ordinal a = at_ordinal b → a = b;
}.

(** The inner loop accepts the lists of known attempts of the step with fresh ordinals. *)
Lemma attempts_linked_spec byId sid ids ords :
  attempts_linked byId sid ids ords = true →
  ∃ atts, Forall2 (λ id a, mget id byId = Some a ∧ at_stepId a = sid) ids atts ∧
    NoDup (at_ordinal <$> atts) ∧ ∀ o, o ∈ at_ordinal <$> atts → o ∉ ords.
Proof.
  revert ords. induction ids as [|id ids IH]; intros ords; cbn.
  - intros _. exists []. split_and!; [constructor|constructor|]. by intros o ?%elem_of_nil.
  - destruct (mget id byId) as [a|] eqn:Ha; [|done].
    destruct (_ || _) eqn:Hb; [done|]. split_bool. intros (atts & H1 & H2 & H3)%IH.
    exists (a :: atts). cbn. split_and!.
    + constructor; [|done]. split; [done|]. by apply dec_stable.
    + constructor; [|done]. intros Hin. apply (H3 _ Hin). left.
    + intros o [->|Hin]%elem_of_cons; [done|]. specialize (H3 _ Hin). set_solver.
Qed.

Lemma unique_Ok l u : unique l = Ok u ↔ NoDup l.
Proof. unfold unique. by rewrite fail_if_Ok, negb_false_iff, nodupb_true. Qed.

Lemma idList_Ok v n l : idList v n = Ok l → NoDup l ∧ Z.of_nat (length l) ≤ n.
Proof.
  unfold idList. intros Hl. repeat inv_ok_step. subst. split_bool. rewrite unique_Ok in *.
  split; [done|]. rewrite length_fmap. lia.
Qed.

Section Sound.
Context `{JsEngine}.

Lemma validateBudget_bounds v b : validateBudget v = Ok b →
  eb_maxChildRuns b = 0 ∧ eb_maxParallelChildren b = 0 ∧ eb_maxDepth b = 0 ∧
  0 ≤ eb_maxTurns b ∧ 0 ≤ eb_maxToolCalls b.
Proof. unfold validateBudget. open_plan; cbn; lia. Qed.

Lemma validatePlanStepV1_wf v s : validatePlanStepV1 v = Ok s → step_wf s.
Proof.
  unfold validatePlanStepV1. intros Hs. repeat open_plan_step. subst s.
  repeat match goal with
  | H : idList _ _ = Ok _ |- _ => apply idList_Ok in H as [? ?]
  | H : validateBudget _ = Ok _ |- _ => apply validateBudget_bounds in H
  | H : mapM validateCriterion _ = Ok ?l |- _ =>
      apply mapM_Ok, Forall2_length in H; rename H into Hlen
  end.
  canon. cbn [js_int js_str js_arr JInt] in *.
  split; cbn; try done; [lia|lia| |lia].
  split_and!; [done| |done]. by apply memb_false.
Qed.

Lemma linked_attempts g :
  NoDup (st_stepId <$> pg_steps g) → NoDup (at_attemptId <$> pg_attempts g) →
  existsb (λ step, negb (attempts_linked (mof ((λ a, (at_attemptId a, a)) <$> pg_attempts g))
    (st_stepId step) (st_attemptIds step) [])) (pg_steps g) = false →
  existsb (λ a, negb (memb (at_attemptId a) (pg_steps g ≫= st_attemptIds))) (pg_attempts g) = false →
  (∀ s a, s ∈ pg_steps g → a ∈ st_attemptIds s →
    ∃ att, att ∈ pg_attempts g ∧ at_attemptId att = a ∧ at_stepId att = st_stepId s) ∧
  (∀ att, att ∈ pg_attempts g →
    ∃ s, s ∈ pg_steps g ∧ at_attemptId att ∈ st_attemptIds s ∧ st_stepId s = at_stepId att) ∧
  (∀ a b, a ∈ pg_attempts g → b ∈ pg_attempts g →
    at_stepId a = at_stepId b → at_ordinal a = at_ordinal b → a = b).
Proof.
  intros Hids Hatt Hlink Howned. rewrite existsb_false, Forall_forall in Hlink. rewrite existsb_false, Forall_forall in Howned.
  rewrite mof_NoDup in Hlink by by rewrite <-list_fmap_compose.
  assert (∀ k a, mget k ((λ a, (at_attemptId a, a)) <$> pg_attempts g) = Some a →
    a ∈ pg_attempts g ∧ at_attemptId a = k) as Hget.
  { intros k a Ha. apply mget_elem_inv, list_elem_of_fmap in Ha as (? & [= -> ->] & ?). done. }
  assert (∀ s, s ∈ pg_steps g → ∃ atts, NoDup (at_ordinal <$> atts) ∧
    Forall2 (λ id a, a ∈ pg_attempts g ∧ at_attemptId a = id ∧ at_stepId a = st_stepId s)
      (st_attemptIds s) atts) as Hs.
  { intros s Hs. specialize (Hlink s Hs). split_bool.
    apply attempts_linked_spec in Hlink as (atts & H1 & H2 & _). exists atts. split; [done|].
    eapply Forall2_impl; [exact H1|]. cbn. intros k a [Ha ?]. apply Hget in Ha as [? ?]. done. }
  assert (∀ att, att ∈ pg_attempts g →
    ∃ s, s ∈ pg_steps g ∧ at_attemptId att ∈ st_attemptIds s ∧ st_stepId s = at_stepId att) as Hown.
  { intros att Hin. specialize (Howned att Hin). split_bool. rewrite memb_true in Howned.
    apply list_elem_of_bind in Howned as (s & Hk & Hs'). exists s. split_and!; [done|done|].
    destruct (Hs s Hs') as (atts & _ & Hf). destruct (Forall2_l_elem _ _ _ _ Hf Hk) as (b & _ & Hb & Hbid & Hbs). by rewrite (NoDup_fmap_elem _ _ _ _ Hatt Hb Hin Hbid) in Hbs. }
  split_and!; [|done|].
  - intros s k Hs' Hk. destruct (Hs s Hs') as (atts & _ & Hf).
    destruct (Forall2_l_elem _ _ _ _ Hf Hk) as (b & _ & ?). by exists b.
  - intros a b Ha Hb Hsid Hord.
    destruct (Hown a Ha) as (s & Hs1 & Ha1 & Hsa), (Hown b Hb) as (s' & Hs2 & Hb1 & Hsb).
    assert (s = s') as <- by (eapply (NoDup_fmap_elem st_stepId); [exact Hids|done|done|congruence]).
    destruct (Hs s Hs1) as (atts & Hnd & Hf).
    destruct (Forall2_l_elem _ _ _ _ Hf Ha1) as (a' & Ha' & Ha2 & Ha3 & _).
    destruct (Forall2_l_elem _ _ _ _ Hf Hb1) as (b' & Hb' & Hb2 & Hb3 & _).
    assert (a' = a) as -> by (eapply (NoDup_fmap_elem at_attemptId); [exact Hatt|done..]).
    assert (b' = b) as -> by (eapply (NoDup_fmap_elem at_attemptId); [exact Hatt|done..]).
    by eapply (NoDup_fmap_elem at_ordinal).
Qed.

Lemma validatePlanGraphV1_wf v g : validatePlanGraphV1 v = Ok g → plan_wf g.
Proof.
  unfold validatePlanGraphV1. intros Hg. repeat open_plan_step.
  rewrite unique_Ok in *.
  repeat match goal with
  | H : mapM _ _ = Ok _ |- _ => apply mapM_Ok in H
  end.
  match goal with H : NoDup ((λ step, js_String _) <$> _) |- _ => rename H into Hnd end.
  destruct (linked_attempts g) as (Hl & Ho & Hord); subst g; try done.
  cbn [pg_steps pg_attempts] in *.
  match goal with H : Forall2 (λ x y, validatePlanStepV1 _ = _) _ _ |- _ =>
    pose proof (Forall2_length _ _ _ H) as Hls; rename H into Hsteps end.
  match goal with H : Forall2 (λ x y, validatePlanAttemptV1 _ = _) _ _ |- _ =>
    pose proof (Forall2_length _ _ _ H) as Hla end.
  split_bool. split; cbn; try done.
  - split; lia.
  - clear -Hsteps. induction Hsteps; constructor; [by eapply validatePlanStepV1_wf|done].
  - eapply (NoDup_fmap_1 (λ z, js_String (JInt z))). by rewrite <-list_fmap_compose.
Qed.
End Sound.

(** ** Ready steps *)

(** Step [s] may start: it is pending, has attempts left and all its
    dependencies are steps that have succeeded. *)
Definition step_may_start (g : PlanGraphV1) (s : PlanStepV1) : Prop :=
  st_state s = S_pending ∧ Z.of_nat (length (st_attemptIds s)) < st_maxAttempts s ∧
  ∀ d, d ∈ st_dependencies s → ∃ t, t ∈ pg_steps g ∧ st_stepId t = d ∧ st_state t = S_succeeded.

Definition dependencies_known (g : PlanGraphV1) : Prop :=
  ∀ s d, s ∈ pg_steps g → d ∈ st_dependencies s → d ∈ st_stepId <$> pg_steps g.

Abbreviation plan_byId g := (mof ((λ step, (st_stepId step, step)) <$> pg_steps g)).

Lemma plan_byId_Some g d t :
  plan_wf g → mget d (plan_byId g) = Some t ↔ t ∈ pg_steps g ∧ st_stepId t = d.
Proof.
  intros Hg. assert (((λ step, (st_stepId step, step)) <$> pg_steps g).*1 = st_stepId <$> pg_steps g) as Hk
    by by rewrite <-list_fmap_compose.
  rewrite mof_NoDup by (rewrite Hk; apply Hg). split.
  - intros Ht%mget_elem_inv. apply list_elem_of_fmap in Ht as (? & [= -> ->] & ?). done.
  - intros [Ht <-]. apply mget_elem; [rewrite Hk; apply Hg|].
    apply list_elem_of_fmap. by exists t.
Qed.

Lemma step_ready_true g s :
  plan_wf g → step_ready (plan_byId g) s = Ok true ↔ step_may_start g s.
Proof.
  intros Hg. unfold step_ready, step_may_start. destruct (_ || _) eqn:Hb.
  - split; [done|]. intros (Hp & Ha & _). apply orb_true_iff in Hb as [Hb|Hb]; split_bool; [done|lia].
  - split_bool. rewrite every_res_true, Forall_forall. split.
    + intros Hd. split_and!; [done|lia|]. intros d Hin. specialize (Hd d Hin).
      destruct (mget d _) as [t|] eqn:Ht; [|done]. apply (plan_byId_Some g d t Hg) in Ht as [? ?].
      injection Hd as Hd. split_bool. by exists t.
    + intros (_ & _ & Hd) d Hin. destruct (Hd d Hin) as (t & Ht & Hid & Hs).
      rewrite (proj2 (plan_byId_Some g d t Hg)) by done. by rewrite bool_decide_eq_true_2.
Qed.

Lemma step_ready_total g s :
  plan_wf g → dependencies_known g → s ∈ pg_steps g → ∃ b : bool, step_ready (plan_byId g) s = Ok b.
Proof.
  intros Hg Hk Hs. unfold step_ready. destruct (_ || _); [by eexists|].
  apply every_res_total, Forall_forall. intros d Hd.
  specialize (Hk s d Hs Hd). apply list_elem_of_fmap in Hk as (t & -> & Ht).
  rewrite (proj2 (plan_byId_Some g _ t Hg)) by done. by eexists.
Qed.

Section Ready.
Context `{JsEngine}.

Lemma ready_ids_Ok v g ids :
  validatePlanGraphV1 v = Ok g → pg_state g = P_running → readyPlanStepIdsV1 v = Ok ids →
  ∃ ss, ids = st_stepId <$> ss ∧ (∀ s, s ∈ ss ↔ s ∈ pg_steps g ∧ step_may_start g s) ∧
    StronglySorted (λ a b, st_order a < st_order b) ss.
Proof.
  intros Hg Hrun. unfold readyPlanStepIdsV1. rewrite Hg. cbn [mbind res_bind].
  rewrite Hrun. cbn [negb bool_decide decide_rel]. rewrite bool_decide_eq_true_2 by done. cbn [negb].
  intros Hids. apply bind_Ok in Hids as (ready & Hr & [= <-]).
  apply validatePlanGraphV1_wf in Hg. apply filter_res_Ok in Hr as [Hsub Hin].
  exists (js_sort step_before ready). split_and!; [done|..].
  - intros s. rewrite js_sort_elem, Hin. by rewrite (step_ready_true g s Hg).
  - apply js_sort_key.
    + eapply sublist_NoDup; [apply (gw_orders _ Hg)|]. by apply fmap_sublist.
    + intros x y _ _ Hne. unfold step_before. destruct (Z.eqb_spec (st_order x) (st_order y)); [done|].
      rewrite orb_false_r. case_bool_decide; lia.
Qed.

Lemma readyPlanStepIdsV1_ok v g ids :
  validatePlanGraphV1 v = Ok g → readyPlanStepIdsV1 v = Ok ids →
  ∃ ss, ids = st_stepId <$> ss ∧
    (∀ s, s ∈ ss ↔ pg_state g = P_running ∧ s ∈ pg_steps g ∧ step_may_start g s) ∧
    StronglySorted (λ a b, st_order a < st_order b) ss.
Proof.
  intros Hg Hids. destruct (decide (pg_state g = P_running)) as [Hrun|Hno].
  - destruct (ready_ids_Ok v g ids Hg Hrun Hids) as (ss & -> & Hin & Hs).
    exists ss. split_and!; [done| |done]. intros s. rewrite Hin. naive_solver.
  - unfold readyPlanStepIdsV1 in Hids. rewrite Hg in Hids. cbn [mbind res_bind] in Hids.
    rewrite bool_decide_eq_false_2 in Hids by done. injection Hids as <-.
    exists []. split_and!; [done| |constructor]. intros s. split; [by intros ?%elem_of_nil|by intros [? _]].
Qed.

(** ** Properties *)

(** An accepted plan graph is well formed: 1 to 64 steps and at most 512
    attempts; step ids, step orders, attempt ids and child runs are each unique;
    no step depends on itself or lists more attempts than it may make, which are
    at most 16; child budgets are zero; every attempt listed by a step is an
    attempt of that step, every attempt is listed by its step, and no two
    attempts of a step share an ordinal. *)
Theorem validatePlanGraphV1_sound v g : validatePlanGraphV1 v = Ok g → plan_wf g.
Proof. apply validatePlanGraphV1_wf. Qed.

(** Round trip: the object of an accepted plan graph is accepted again as
    the same graph, as long as its JSON text is within the size limit, and is
    refused as oversized otherwise. *)
Theorem validatePlanGraphV1_roundtrip v g :
  validatePlanGraphV1 v = Ok g →
  validatePlanGraphV1 (PlanGraph_js g) =
    if jsonBytes_over (PlanGraph_js g) MAX_GRAPH_BYTES then Err "PLAN_GRAPH_OVERSIZED" else Ok g.
Proof.
  intros Hg. unfold validatePlanGraphV1 at 1. destruct (jsonBytes_over _ _); [done|].
  cbn [fail_if mbind res_bind]. unfold validatePlanGraphV1 in Hg. open_plan.
  unfold PlanGraph_js at 1. plan_lit.
  repeat match goal with
  | H : mapM validatePlanStepV1 _ = Ok _ |- _ =>
      pose proof (Forall2_length _ _ _ (proj1 (mapM_Ok _ _ _) H)) as Hls;
      apply (mapM_reparse _ PlanStep_js _ _ validatePlanStepV1_reparse) in H as Hsteps; clear H
  | H : mapM validatePlanAttemptV1 _ = Ok _ |- _ =>
      pose proof (Forall2_length _ _ _ (proj1 (mapM_Ok _ _ _) H)) as Hla;
      apply (mapM_reparse _ PlanAttempt_js _ _ validatePlanAttemptV1_reparse) in H as Hatts; clear H
  end.
  rewrite Hls, Hla in *.
  cbn [get String.eqb Ascii.eqb Bool.eqb js_str js_int js_arr is_arr is_int JInt safeId pg_planId
    pg_revision pg_objective pg_state pg_steps pg_attempts].
  rewrite !length_fmap. guards_with ltac:(cbn [negb orb fail_if mbind res_bind]). done.
Qed.

(** Ready steps: in a running plan the call returns exactly the steps that
    are pending, have attempts left and whose dependencies have all succeeded,
    in strictly increasing order; in any other state it returns none. *)
Theorem readyPlanStepIdsV1_spec v g ids :
  validatePlanGraphV1 v = Ok g → readyPlanStepIdsV1 v = Ok ids →
  ∃ ss, ids = st_stepId <$> ss ∧ StronglySorted (λ a b, st_order a < st_order b) ss ∧
    ∀ s, s ∈ ss ↔ pg_state g = P_running ∧ s ∈ pg_steps g ∧ step_may_start g s.
Proof.
  intros Hg Hids. destruct (readyPlanStepIdsV1_ok v g ids Hg Hids) as (ss & ? & ? & ?). by exists ss.
Qed.

(** A plan never stalls by itself: when every step of a running plan has
    succeeded or is pending with attempts left, dependencies are steps of the
    plan without cycles, and some step is still pending, the call returns, and
    it returns at least one step. *)
Theorem readyPlanStepIdsV1_progress v g :
  validatePlanGraphV1 v = Ok g → pg_state g = P_running → dependencies_known g →
  acyclic (λ a b, ∃ s, s ∈ pg_steps g ∧ st_stepId s = b ∧ a ∈ st_dependencies s) →
  (∀ s, s ∈ pg_steps g → st_state s = S_succeeded ∨
    st_state s = S_pending ∧ Z.of_nat (length (st_attemptIds s)) < st_maxAttempts s) →
  (∃ s, s ∈ pg_steps g ∧ st_state s = S_pending) →
  ∃ k ids, readyPlanStepIdsV1 v = Ok (k :: ids).
Proof.
  intros Hg Hrun Hk Hac Hall (s0 & Hs0 & Hp0). pose proof (validatePlanGraphV1_wf _ _ Hg) as Hwf.
  assert (∃ ids, readyPlanStepIdsV1 v = Ok ids) as [ids Hids].
  { unfold readyPlanStepIdsV1. rewrite Hg. cbn [mbind res_bind].
    rewrite bool_decide_eq_true_2 by done. cbn [negb].
    destruct (filter_res_total (step_ready (plan_byId g)) (pg_steps g)) as [k ->]; [|by eexists].
    apply Forall_forall. intros s Hs. by apply step_ready_total. }
  destruct (acyclic_first (pg_steps g ≫= λ s, (λ d, (d, st_stepId s)) <$> st_dependencies s)
    (st_stepId <$> filter (λ s, st_state s = S_pending) (pg_steps g))) as (k & Hkin & Hfirst).
  - eapply acyclic_proper; [|exact Hac]. intros a b. unfold edge. rewrite list_elem_of_bind.
    setoid_rewrite list_elem_of_fmap. naive_solver.
  - intros Hnil. assert (st_stepId s0 ∈ st_stepId <$> filter (λ s, st_state s = S_pending) (pg_steps g)) as Hin
      by (apply list_elem_of_fmap_2, list_elem_of_filter; done).
    rewrite Hnil in Hin. by apply elem_of_nil in Hin.
  - apply list_elem_of_fmap in Hkin as (s & -> & [Hp Hs]%list_elem_of_filter).
    destruct (ready_ids_Ok v g ids Hg Hrun Hids) as (ss & -> & Hin & _).
    assert (s ∈ ss) as Hss.
    { apply Hin. split; [done|]. destruct (Hall s Hs) as [?|[_ Hleft]]; [congruence|].
      split_and!; [done|done|]. intros d Hd. specialize (Hk s d Hs Hd).
      apply list_elem_of_fmap in Hk as (t & -> & Ht). exists t. split_and!; [done|done|].
      destruct (Hall t Ht) as [?|[Htp _]]; [done|]. destruct (Hfirst (st_stepId t)).
      - apply list_elem_of_fmap_2, list_elem_of_filter. done.
      - apply list_elem_of_bind. exists s. split; [|done]. apply list_elem_of_fmap. by exists (st_stepId t). }
    destruct ss as [|a ss]; [by apply elem_of_nil in Hss|]. exists (st_stepId a), (st_stepId <$> ss). done.
Qed.
End Ready.

(** ** Evaluation at a small plan *)

Definition sample_step (id : string) (order : Z) (state : string) (deps attempts : list string) : jsval :=
  JObj [("stepId", JStr id); ("title", JStr "A step"); ("order", JInt order); ("state", JStr state);
    ("dependencies", JStrs deps);
    ("access", JObj [("mode", JStr "read_only"); ("paths", JStrs ["."])]);
    ("capabilities", JArr []); ("conflictKeys", JArr []);
    ("criteria", JArr [JObj [("criterionId", JStr "c1"); ("kind", JStr "check"); ("description", JStr "ok")]]);
    ("budget", JObj [("maxTurns", JInt 3); ("maxToolCalls", JInt 3); ("maxChildRuns", JInt 0);
       ("maxParallelChildren", JInt 0); ("maxDepth", JInt 0)]);
    ("maxAttempts", JInt 2); ("attemptIds", JStrs attempts)]%string.

(** Step [a] is done, [c] waits for [b] and [b] for [a]. *)
Definition sample_plan_js : jsval :=
  JObj [("schemaVersion", JInt 1); ("planId", JStr "p1"); ("revision", JInt 3);
    ("objective", JStr "Do it"); ("state", JStr "running");
    ("steps", JArr [sample_step "c" 2 "pending" ["b"] []; sample_step "a" 0 "succeeded" [] ["a1"];
       sample_step "b" 1 "pending" ["a"] []]);
    ("attempts", JArr [JObj [("attemptId", JStr "a1"); ("stepId", JStr "a"); ("ordinal", JInt 1);
       ("state", JStr "verified"); ("childRunId", JStr "r2")]])]%string.

Example sample_plan_ready : readyPlanStepIdsV1 sample_plan_js = Ok ["b"%string].
Proof. vm_compute. reflexivity. Qed.

(** The sample plan is accepted and satisfies a decidable condition. *)
Lemma sample_plan (check : PlanGraphV1 → bool) :
  match validatePlanGraphV1 sample_plan_js with Ok g => check g | Err _ => false end = true →
  ∃ g, validatePlanGraphV1 sample_plan_js = Ok g ∧ check g = true.
Proof. destruct (validatePlanGraphV1 _) as [g|]; [|done]. intros Hc. by exists g. Qed.

Lemma validatePlanGraphV1_sound_witness :
  ∃ g, validatePlanGraphV1 sample_plan_js = Ok g ∧ plan_wf g.
Proof.
  destruct (sample_plan (λ _, true)) as (g & Hg & _); [vm_compute; reflexivity|].
  exists g. split; [exact Hg|exact (validatePlanGraphV1_sound _ g Hg)].
Defined.

Lemma validatePlanGraphV1_roundtrip_witness :
  ∃ g, validatePlanGraphV1 sample_plan_js = Ok g ∧ validatePlanGraphV1 (PlanGraph_js g) = Ok g.
Proof.
  destruct (sample_plan (λ g, negb (jsonBytes_over (PlanGraph_js g) MAX_GRAPH_BYTES))) as (g & Hg & Hc);
    [vm_compute; reflexivity|].
  exists g. split; [exact Hg|]. rewrite (validatePlanGraphV1_roundtrip _ g Hg).
  apply negb_true_iff in Hc. rewrite Hc. reflexivity.
Defined.

Lemma readyPlanStepIdsV1_spec_witness :
  ∃ g ss, validatePlanGraphV1 sample_plan_js = Ok g ∧ ["b"%string] = st_stepId <$> ss ∧
    StronglySorted (λ a b, st_order a < st_order b) ss.
Proof.
  destruct (sample_plan (λ _, true)) as (g & Hg & _); [vm_compute; reflexivity|].
  destruct (readyPlanStepIdsV1_spec _ g ["b"%string] Hg) as (ss & Hss & Hsort & _);
    [vm_compute; reflexivity|].
  exists g, ss. split_and!; assumption.
Defined.

(** The position of the sample steps in their dependency order. *)
Definition sample_rank (id : string) : Z :=
  if decide (id = "a"%string) then 0 else if decide (id = "b"%string) then 1 else 2.

Lemma readyPlanStepIdsV1_progress_witness : ∃ k ids, readyPlanStepIdsV1 sample_plan_js = Ok (k :: ids).
Proof.
  destruct (sample_plan (λ g, bool_decide (pg_state g = P_running)
    && forallb (λ s, forallb (λ d, memb d (st_stepId <$> pg_steps g)) (st_dependencies s)) (pg_steps g)
    && forallb (λ s, bool_decide (st_state s = S_succeeded) || bool_decide (st_state s = S_pending)
         && (Z.of_nat (length (st_attemptIds s)) <? st_maxAttempts s)) (pg_steps g)
    && existsb (λ s, bool_decide (st_state s = S_pending)) (pg_steps g)
    && forallb (λ s, forallb (λ d, sample_rank d <? sample_rank (st_stepId s)) (st_dependencies s)) (pg_steps g)))
    as (g & Hg & Hc); [vm_compute; reflexivity|].
  rewrite !andb_true_iff, !forallb_true, existsb_true, !Forall_forall in Hc.
  destruct Hc as ((((Hrun & Hk) & Hall) & Hex) & Hlt).
  apply (readyPlanStepIdsV1_progress _ g Hg).
  - apply bool_decide_eq_true in Hrun. exact Hrun.
  - intros s d Hs Hd. specialize (Hk s Hs). rewrite forallb_true, Forall_forall in Hk.
    apply memb_true, Hk, Hd.
  - intros n Hn. assert (∀ x y, tc (λ a b, ∃ s, s ∈ pg_steps g ∧ st_stepId s = b ∧ a ∈ st_dependencies s) x y →
      sample_rank x < sample_rank y) as Hmono.
    { assert (∀ x y, (∃ s, s ∈ pg_steps g ∧ st_stepId s = y ∧ x ∈ st_dependencies s) →
        sample_rank x < sample_rank y)
        as H1.
      { intros x y (s & Hs & <- & Hd). specialize (Hlt s Hs). rewrite forallb_true, Forall_forall in Hlt.
        apply Z.ltb_lt, Hlt, Hd. }
      induction 1 as [x y Hxy|x y z Hxy _ IH]; [apply H1, Hxy|].
      specialize (H1 x y Hxy). lia. }
    specialize (Hmono n n Hn). lia.
  - intros s Hs. specialize (Hall s Hs). apply orb_true_iff in Hall as [Hs1|Hs1].
    + left. apply bool_decide_eq_true in Hs1. exact Hs1.
    + right. apply andb_true_iff in Hs1 as [Hs1 Hs2]. apply bool_decide_eq_true in Hs1. split; [exact Hs1|apply Z.ltb_lt, Hs2].
  - destruct Hex as (s & Hs & Hp). exists s. apply bool_decide_eq_true in Hp. split; assumption.
Defined.

(** ** Validation returns what the object holds *)

Ltac plan_lit_in H :=
  unfold exactRecord in H; rewrite exact_record_lit in H by (vm_compute; reflexivity);
  cbn [mbind res_bind] in H.

Lemma js_strs_read (l : list string) : js_str <$> (JStr <$> l) = l.
Proof. rewrite <-list_fmap_compose. apply list_fmap_id. Qed.

Lemma idList_decode l n k : idList (JStrs l) n = Ok k → k = l.
Proof. unfold idList, JStrs. cbn [js_arr]. rewrite js_strs_read. intros Hk. by repeat inv_ok_step. Qed.
Lemma textList_decode l n m k : textList (JStrs l) n m = Ok k → k = l.
Proof. unfold textList, JStrs. cbn [js_arr]. rewrite js_strs_read. intros Hk. by repeat inv_ok_step. Qed.

Lemma mapM_decode {A} (f : jsval → res A) (g : A → jsval) l k :
  (∀ x y, f (g x) = Ok y → y = x) → mapM f (g <$> l) = Ok k → k = l.
Proof.
  intros Hfg Hk%mapM_Ok. revert k Hk. induction l as [|x l IH]; intros k Hk; inversion Hk; subst; [done|].
  f_equal; [by apply Hfg|by apply IH].
Qed.

Section Decode.
Context `{JsEngine}.

Lemma validateAccess_decode a b : validateAccess (PlanAccess_js a) = Ok b → b = a.
Proof.
  unfold validateAccess, PlanAccess_js. intros Hb. plan_lit_in Hb. cbn in Hb. inv_ok.
  match goal with H : textList _ _ _ = _ |- _ => apply textList_decode in H as -> end.
  rewrite enum_cast_name. by destruct a.
Qed.

Lemma validatePlanCriterion_decode c d : validateCriterion (PlanCriterion_js c) = Ok d → d = c.
Proof.
  unfold validateCriterion, PlanCriterion_js.
  destruct c as [? ? ? [|] [|]]; intros Hd; plan_lit_in Hd; cbn in Hd; inv_ok; by rewrite enum_cast_name.
Qed.

Lemma validatePlanBudget_decode b c : validateBudget (PlanBudget_js b) = Ok c → c = b.
Proof.
  unfold validateBudget, PlanBudget_js.
  destruct b as [? ? [|] ? ? ? [|]]; intros Hd; plan_lit_in Hd; cbn in Hd; inv_ok; split_bool;
    repeat match goal with H : (_ =? _) = true |- _ => apply Z.eqb_eq in H; subst end; done.
Qed.

Lemma validatePlanStepV1_decode s t : validatePlanStepV1 (PlanStep_js s) = Ok t → t = s.
Proof.
  unfold validatePlanStepV1, PlanStep_js. intros Ht. plan_lit_in Ht.
  cbn [get String.eqb Ascii.eqb Bool.eqb js_str js_int js_arr JInt] in Ht. repeat inv_ok_step. subst t.
  repeat match goal with
  | H : idList _ _ = Ok _ |- _ => apply idList_decode in H; subst
  | H : textList _ _ _ = Ok _ |- _ => apply textList_decode in H; subst
  | H : validateAccess _ = Ok _ |- _ => apply validateAccess_decode in H; subst
  | H : validateBudget _ = Ok _ |- _ => apply validatePlanBudget_decode in H; subst
  | H : mapM validateCriterion _ = Ok _ |- _ =>
      apply (mapM_decode _ _ _ _ validatePlanCriterion_decode) in H; subst
  end.
  rewrite enum_cast_name. by destruct s.
Qed.

Lemma validatePlanAttemptV1_decode a b : validatePlanAttemptV1 (PlanAttempt_js a) = Ok b → b = a.
Proof.
  unfold validatePlanAttemptV1, PlanAttempt_js.
  destruct a as [? ? ? ? [|] [|] [|] [|]]; intros Hd; plan_lit_in Hd; cbn in Hd; inv_ok;
    by rewrite enum_cast_name.
Qed.

Lemma validatePlanGraphV1_decode g h : validatePlanGraphV1 (PlanGraph_js g) = Ok h → h = g.
Proof.
  unfold validatePlanGraphV1. intros Hh. apply bind_Ok in Hh as ([] & _ & Hh).
  unfold PlanGraph_js in Hh. plan_lit_in Hh.
  cbn [get String.eqb Ascii.eqb Bool.eqb js_str js_int js_arr JInt] in Hh. repeat inv_ok_step. subst h.
  repeat match goal with
  | H : mapM validatePlanStepV1 _ = Ok _ |- _ =>
      apply (mapM_decode _ _ _ _ validatePlanStepV1_decode) in H; subst
  | H : mapM validatePlanAttemptV1 _ = Ok _ |- _ =>
      apply (mapM_decode _ _ _ _ validatePlanAttemptV1_decode) in H; subst
  end.
  rewrite enum_cast_name. by destruct g.
Qed.
End Decode.
