(* ===== verification/Subagent.v ===== *)
(** * The subagent execution request: packages/core-sdk/src/subagent.ts

    The exact record that binds an attempt to the material of its child run,
    and its validator. *)

From S2P Require Import Prelude Js JsOps.
Local Open Scope Z_scope.

Record SubagentVersionedRefV1 := {
  vr_kind : string;
  vr_id : string;
  vr_version : Z;
  vr_digest : string;
}.

Record SubagentExecutionRequestV1 := {
  sr_parentRunId : string;
  sr_childRunId : string;
  sr_packetRef : SubagentVersionedRefV1;
  sr_profileRef : SubagentVersionedRefV1;
  sr_bundleRef : SubagentVersionedRefV1;
  sr_budgetRef : SubagentVersionedRefV1;
}.

#[export] Instance SubagentVersionedRefV1_dec : EqDecision SubagentVersionedRefV1.
Proof. solve_decision. Defined.

(** The own keys are as many as the listed ones, and every listed one is there.
    The prototype and the property descriptors are those of a plain object. *)
Definition isExactRecord (value : jsval) (expected : list string) : option jsobj :=
  match value with
  | JObj o =>
      if negb (Nat.eqb (length (keys o)) (length expected))
         || existsb (λ key, negb (hasOwn o key)) expected
      then None else Some o
  | _ => None
  end.

Definition versionedRef (input : jsval) (kind : string) (version : Z) : res SubagentVersionedRefV1 :=
  match isExactRecord input ["schemaVersion"; "kind"; "id"; "version"; "digest"]%string with
  | None => Err "SUBAGENT_EXECUTOR_REQUEST_INVALID"
  | Some o =>
      fail_if (negb (is_int (o .: "schemaVersion") 1) || negb (is_str (o .: "kind") kind)
               || negb (safeId (o .: "id")) || negb (is_int (o .: "version") version)
               || negb (digest (o .: "digest"))) "SUBAGENT_EXECUTOR_REQUEST_INVALID";;
      Ok {| vr_kind := kind; vr_id := js_str (o .: "id"); vr_version := version;
            vr_digest := js_str (o .: "digest") |}
  end.

Definition validateSubagentExecutionRequestV1 (input : jsval) : res SubagentExecutionRequestV1 :=
  match isExactRecord input ["schemaVersion"; "parentRunId"; "childRunId"; "packetRef"; "profileRef";
                             "bundleRef"; "budgetRef"]%string with
  | None => Err "SUBAGENT_EXECUTOR_REQUEST_INVALID"
  | Some o =>
      fail_if (negb (is_int (o .: "schemaVersion") 1) || negb (safeId (o .: "parentRunId"))
               || negb (safeId (o .: "childRunId"))
               || bool_decide (js_str (o .: "parentRunId") = js_str (o .: "childRunId")))
        "SUBAGENT_EXECUTOR_REQUEST_INVALID";;
      packetRef ← versionedRef (o .: "packetRef") "context_packet" 1;
      profileRef ← versionedRef (o .: "profileRef") "bootstrap_profile" 3;
      bundleRef ← versionedRef (o .: "bundleRef") "capability_bundle" 1;
      budgetRef ← versionedRef (o .: "budgetRef") "execution_budget" 1;
      Ok {| sr_parentRunId := js_str (o .: "parentRunId"); sr_childRunId := js_str (o .: "childRunId");
            sr_packetRef := packetRef; sr_profileRef := profileRef; sr_bundleRef := bundleRef;
            sr_budgetRef := budgetRef |}
  end.

(** ** The validated values as objects *)

Definition VersionedRef_js (r : SubagentVersionedRefV1) : jsval :=
  JObj [("schemaVersion", JInt 1); ("kind", JStr (vr_kind r)); ("id", JStr (vr_id r));
        ("version", JInt (vr_version r)); ("digest", JStr (vr_digest r))]%string.

Definition SubagentExecutionRequest_js (r : SubagentExecutionRequestV1) : jsval :=
  JObj [("schemaVersion", JInt 1); ("parentRunId", JStr (sr_parentRunId r));
        ("childRunId", JStr (sr_childRunId r)); ("packetRef", VersionedRef_js (sr_packetRef r));
        ("profileRef", VersionedRef_js (sr_profileRef r));
        ("bundleRef", VersionedRef_js (sr_bundleRef r));
        ("budgetRef", VersionedRef_js (sr_budgetRef r))]%string.

(** ** Soundness and stability *)

Lemma isExactRecord_Some v ks o : isExactRecord v ks = Some o → v = JObj o.
Proof. unfold isExactRecord. destruct v; try done. case_match; [done|]. by intros [= ->]. Qed.

Lemma versionedRef_Ok v kind version r :
  versionedRef v kind version = Ok r →
  vr_kind r = kind ∧ vr_version r = version ∧ SAFE_ID (vr_id r) = true ∧ SHA256 (vr_digest r) = true.
Proof.
  unfold versionedRef. destruct (isExactRecord _ _) as [o|]; [|done]. intros Hr. inv_ok. canon.
  cbn. done.
Qed.

Lemma versionedRef_reparse v kind version r :
  versionedRef v kind version = Ok r → versionedRef (VersionedRef_js r) kind version = Ok r.
Proof.
  intros Hr. destruct (versionedRef_Ok _ _ _ _ Hr) as (Hk & Hv & Hi & Hd).
  destruct r as [k i n d]; cbn in *. subst. unfold versionedRef, VersionedRef_js.
  assert (is_str (JStr kind) kind = true) as Hs by by apply bool_decide_eq_true_2.
  assert (is_int (JInt version) version = true) as Hn by apply Z.eqb_refl.
  change (isExactRecord _ _) with (Some [("schemaVersion", JInt 1); ("kind", JStr kind); ("id", JStr i);
    ("version", JInt version); ("digest", JStr d)]%string).
  cbn [get String.eqb Ascii.eqb Bool.eqb safeId digest js_str]. rewrite Hs, Hn, Hi, Hd. done.
Qed.

Lemma validateSubagentExecutionRequestV1_parts v r :
  validateSubagentExecutionRequestV1 v = Ok r →
  SAFE_ID (sr_parentRunId r) = true ∧ SAFE_ID (sr_childRunId r) = true ∧
  sr_parentRunId r ≠ sr_childRunId r ∧
  vr_kind (sr_packetRef r) = "context_packet"%string ∧ vr_kind (sr_profileRef r) = "bootstrap_profile"%string ∧
  vr_kind (sr_bundleRef r) = "capability_bundle"%string ∧ vr_kind (sr_budgetRef r) = "execution_budget"%string.
Proof.
  unfold validateSubagentExecutionRequestV1. destruct (isExactRecord _ _) as [o|]; [|done]. intros Hr.
  repeat inv_ok_step. subst r. canon.
  repeat match goal with H : versionedRef _ _ _ = Ok _ |- _ => apply versionedRef_Ok in H as (? & _) end.
  by split_and!.
Qed.

Lemma validateSubagentExecutionRequestV1_reparse v r :
  validateSubagentExecutionRequestV1 v = Ok r →
  validateSubagentExecutionRequestV1 (SubagentExecutionRequest_js r) = Ok r.
Proof.
  unfold validateSubagentExecutionRequestV1. destruct (isExactRecord v _) as [o|]; [|done]. intros Hr.
  repeat inv_ok_step. subst r. canon.
  unfold SubagentExecutionRequest_js. cbn [sr_parentRunId sr_childRunId sr_packetRef sr_profileRef
    sr_bundleRef sr_budgetRef].
  match goal with |- context [isExactRecord (JObj ?l) ?ks] =>
    change (isExactRecord (JObj l) ks) with (Some l) end.
  cbn [get String.eqb Ascii.eqb Bool.eqb is_int JInt safeId js_str negb orb] in *.
  rewrite Z.eqb_refl, bool_decide_eq_false_2 by congruence.
  repeat match goal with
  | H : ?b = true |- context [negb ?b] => rewrite H
  end; cbn [negb orb fail_if mbind res_bind].
  do 4 (erewrite versionedRef_reparse by eassumption; cbn [mbind res_bind]). done.
Qed.
