(* ===== verification/WorkingPlan.v ===== *)
(** * The working plan: packages/core-sdk/src/working-plan.ts

    The model-owned notes of a session and their reviews: the data and the
    validators.  The regular expressions and the sets of literals are tested on
    [String(v)], which also accepts a one-element array of a string, so the
    fields they check keep their value ([jsval]). *)

From S2P Require Import Prelude Js JsOps Plan CanonicalJson.
Local Open Scope Z_scope.

Record WorkingPlanV1 := {
  wp_planId : string;
  wp_revision : Z;
  wp_objective : string;
  wp_state : jsval;
  wp_items : jsval;
}.
Record WorkingReviewV1 := {
  wr_reviewRequestId : string;
  wr_operationId : string;
  wr_inputDigest : jsval;
  wr_inputRef : jsval;
  wr_requestDigest : jsval;
  wr_planRevision : option Z;
  wr_snapshotSequence : Z;
  wr_evidenceSequence : Z;
  wr_reportRef : option jsval;
  wr_verdict : option jsval;
}.

Definition wp_invalid {A} : res A := Err "WORKING_PLAN_INVALID".
Definition wp_reject_if (cond : bool) : res unit := fail_if cond "WORKING_PLAN_INVALID".

Definition wp_text (value : jsval) : res string :=
  match value with JStr s => wp_reject_if (blank s);; Ok s | _ => wp_invalid end.
Definition wp_id (value : jsval) : res string :=
  match value with JStr s => wp_reject_if (negb (SAFE_ID s));; Ok s | _ => wp_invalid end.
Definition wp_object (value : jsval) : res jsobj :=
  match value with JObj o => Ok o | _ => wp_invalid end.
Definition wp_exact (value : jsobj) (required optional : list string) : res unit :=
  wp_reject_if (existsb (λ k, negb (hasOwn value k)) required
              || existsb (λ k, negb (memb k required) && negb (memb k optional)) (keys value)).

(** [/^artifact-[a-f0-9]{64}$/]. *)
Definition ARTIFACT_REF (s : string) : bool :=
  String.prefix "artifact-" s && Nat.eqb (String.length s) 73
  && string_forallb is_hex (String.substring 9 64 s).

Section Validators.
Context `{JsEngine}.

Definition digest_text (v : jsval) : res jsval :=
  s ← to_text v; wp_reject_if (negb (SHA256 s));; Ok v.
(** [undefined] is passed over. *)
Definition artifact_text (v : jsval) : res jsval :=
  match v with
  | JUndef => Ok JUndef
  | v => s ← to_text v; wp_reject_if (negb (ARTIFACT_REF s));; Ok v
  end.
Definition literal_text (names : list string) (v : jsval) : res jsval :=
  s ← to_text v; wp_reject_if (negb (memb s names));; Ok v.

(** One turn of the loop over the items, with the identities seen so far. *)
Fixpoint check_items (seen : list string) (items : list jsval) : res unit :=
  match items with
  | [] => Ok tt
  | value :: rest =>
      item ← wp_object value;
      wp_exact item ["id"; "title"; "status"]%string [];;
      itemId ← wp_id (item .: "id");
      wp_text (item .: "title");;
      wp_reject_if (memb itemId seen);;
      literal_text ["pending"; "in_progress"; "done"; "blocked"; "skipped"]%string (item .: "status");;
      check_items (itemId :: seen) rest
  end.

Definition validateWorkingPlanV1 (value : jsval) : res WorkingPlanV1 :=
  p ← wp_object value;
  wp_exact p ["schemaVersion"; "planId"; "revision"; "objective"; "state"; "items"]%string [];;
  wp_reject_if (negb (is_int (p .: "schemaVersion") 1) || negb (positiveInteger (p .: "revision")));;
  planId ← wp_id (p .: "planId");
  objective ← wp_text (p .: "objective");
  state ← literal_text ["active"; "done"; "abandoned"]%string (p .: "state");
  wp_reject_if (negb (is_arr (p .: "items")));;
  check_items [] (js_arr (p .: "items"));;
  Ok {| wp_planId := planId; wp_revision := js_int (p .: "revision"); wp_objective := objective;
        wp_state := state; wp_items := p .: "items" |}.

Definition planRevision_of (v : jsval) : res (option Z) :=
  match v with
  | JNull => Ok None
  | v => wp_reject_if (negb (positiveInteger v));; Ok (Some (js_int v))
  end.

Definition validateWorkingReviewV1 (value : jsval) : res WorkingReviewV1 :=
  r ← wp_object value;
  wp_exact r ["reviewRequestId"; "operationId"; "inputDigest"; "inputRef"; "requestDigest"; "planRevision";
           "snapshotSequence"; "evidenceSequence"]%string ["reportRef"; "verdict"]%string;;
  reviewRequestId ← wp_id (r .: "reviewRequestId");
  operationId ← wp_id (r .: "operationId");
  inputDigest ← digest_text (r .: "inputDigest");
  requestDigest ← digest_text (r .: "requestDigest");
  inputRef ← artifact_text (r .: "inputRef");
  reportRef ← opt_res artifact_text (r .: "reportRef");
  planRevision ← planRevision_of (r .: "planRevision");
  wp_reject_if (negb (nonNegativeInteger (r .: "snapshotSequence"))
              || negb (nonNegativeInteger (r .: "evidenceSequence")));;
  wp_reject_if (js_int (r .: "snapshotSequence") <? js_int (r .: "evidenceSequence"));;
  wp_reject_if (negb (Bool.eqb (is_undef (r .: "verdict")) (is_undef (r .: "reportRef"))));;
  verdict ← opt_res (literal_text ["accepted"; "needs_fix"; "replan"; "blocked"; "unavailable"]%string)
              (r .: "verdict");
  Ok {| wr_reviewRequestId := reviewRequestId; wr_operationId := operationId;
        wr_inputDigest := inputDigest; wr_inputRef := inputRef; wr_requestDigest := requestDigest;
        wr_planRevision := planRevision; wr_snapshotSequence := js_int (r .: "snapshotSequence");
        wr_evidenceSequence := js_int (r .: "evidenceSequence"); wr_reportRef := reportRef;
        wr_verdict := verdict |}.

(** What [validateWorkingPlanEventV1] has checked: the parts of the payload. *)
Inductive WorkingPlanEventV1 :=
| plan_saved (operationId : string) (inputDigest : jsval) (plan : WorkingPlanV1)
| review_event (review : WorkingReviewV1).

Definition validateWorkingPlanEventV1 (type : string) (data : jsobj) : res WorkingPlanEventV1 :=
  event ← (if String.eqb type "working_plan.saved" then
      wp_exact data ["operationId"; "inputDigest"; "plan"]%string [];;
      operationId ← wp_id (data .: "operationId");
      inputDigest ← digest_text (data .: "inputDigest");
      plan ← validateWorkingPlanV1 (data .: "plan");
      Ok (plan_saved operationId inputDigest plan)
    else
      wp_exact data ["review"]%string [];;
      review ← validateWorkingReviewV1 (data .: "review");
      wp_reject_if (negb (Bool.eqb (String.eqb type "working_plan.reviewed")
                                 (match wr_reportRef review with Some _ => true | None => false end)));;
      Ok (review_event review));
  canonicalJsonV1 (JObj data);;
  Ok event.
End Validators.
