(* ===== verification/ReviewPlan.v ===== *)
(** * Review plans: packages/core-sdk/src/review-plan.ts

    The criteria, items and projection of a reviewed plan, their validators and
    the two transition tables.  A validator returns the typed copy of what it has
    checked; what nothing reads again (the checks of mechanical criteria, prepared
    files, effect references) stays [jsval].  Values are JSON values: a property
    is absent rather than [undefined]. *)

From S2P Require Import Prelude Js CanonicalJson.
Local Open Scope Z_scope.

Definition REVIEW_PLAN_SCHEMA_VERSION_V1 : Z := 1.
Definition MAX_OBJECTIVE_BYTES : Z := 16384.
Definition MAX_DESCRIPTION_BYTES : Z := 8192.
Definition MAX_ITEMS : Z := 128.
Definition MAX_REVIEW_CRITERIA : Z := 128.
Definition MAX_PARAMETERS : Z := 64.
Definition MAX_PATH_BYTES : Z := 2048.
Definition MAX_DURABLE_ATTEMPT_EVIDENCE_REFS : Z := 65536.
Definition MAX_REVIEW_EVIDENCE_ITEMS_V1 : Z := 256.

(** ** Data *)

Inductive ReviewSemanticV1 := final_only | final_and_checkpoints.
Inductive ReviewPlanStateV1 := RP_active | RP_reviewing | RP_blocked | RP_completed | RP_abandoned | RP_cancelled.
Inductive ReviewPlanItemStateV1 :=
| RI_pending | RI_running | RI_review_requested | RI_accepted | RI_needs_fix | RI_blocked | RI_skipped.
Inductive ReviewItemAttemptStateV1 :=
| RA_open | RA_review_requested | RA_accepted | RA_needs_fix | RA_blocked | RA_cancelled.
Inductive ReviewVerdictV1 := RV_accepted | RV_needs_fix | RV_replan | RV_blocked.
Inductive ReviewResolverV1 := by_plan_revision | by_user_input | by_runtime_health | by_trusted_host.
Inductive ReviewCriterionStatusV1 := criterion_active | criterion_retired.

#[export] Instance ReviewPlanStateV1_dec : EqDecision ReviewPlanStateV1.
Proof. solve_decision. Defined.
#[export] Instance ReviewPlanItemStateV1_dec : EqDecision ReviewPlanItemStateV1.
Proof. solve_decision. Defined.
#[export] Instance ReviewItemAttemptStateV1_dec : EqDecision ReviewItemAttemptStateV1.
Proof. solve_decision. Defined.
#[export] Instance ReviewVerdictV1_dec : EqDecision ReviewVerdictV1.
Proof. solve_decision. Defined.

#[export] Instance REVIEW_SEMANTICS : JsEnum ReviewSemanticV1.
Proof.
  refine {| enum_all := [final_only; final_and_checkpoints];
  enum_name s := match s with final_only => "final" | final_and_checkpoints => "final_and_checkpoints" end |};
  solve_enum.
Defined.
#[export] Instance REVIEW_PLAN_STATES : JsEnum ReviewPlanStateV1.
Proof.
  refine {| enum_all := [RP_active; RP_reviewing; RP_blocked; RP_completed; RP_abandoned; RP_cancelled];
  enum_name s := match s with RP_active => "active" | RP_reviewing => "reviewing" | RP_blocked => "blocked"
    | RP_completed => "completed" | RP_abandoned => "abandoned" | RP_cancelled => "cancelled" end |}; solve_enum.
Defined.
#[export] Instance REVIEW_ITEM_STATES : JsEnum ReviewPlanItemStateV1.
Proof.
  refine {| enum_all := [RI_pending; RI_running; RI_review_requested; RI_accepted; RI_needs_fix; RI_blocked; RI_skipped];
  enum_name s := match s with RI_pending => "pending" | RI_running => "running"
    | RI_review_requested => "review_requested" | RI_accepted => "accepted" | RI_needs_fix => "needs_fix"
    | RI_blocked => "blocked" | RI_skipped => "skipped" end |}; solve_enum.
Defined.
#[export] Instance REVIEW_ATTEMPT_STATES : JsEnum ReviewItemAttemptStateV1.
Proof.
  refine {| enum_all := [RA_open; RA_review_requested; RA_accepted; RA_needs_fix; RA_blocked; RA_cancelled];
  enum_name s := match s with RA_open => "open" | RA_review_requested => "review_requested"
    | RA_accepted => "accepted" | RA_needs_fix => "needs_fix" | RA_blocked => "blocked"
    | RA_cancelled => "cancelled" end |}; solve_enum.
Defined.
#[export] Instance REVIEW_VERDICTS : JsEnum ReviewVerdictV1.
Proof.
  refine {| enum_all := [RV_accepted; RV_needs_fix; RV_replan; RV_blocked];
  enum_name v := match v with RV_accepted => "accepted" | RV_needs_fix => "needs_fix" | RV_replan => "replan"
    | RV_blocked => "blocked" end |}; solve_enum.
Defined.
#[export] Instance REVIEW_RESOLVERS : JsEnum ReviewResolverV1.
Proof.
  refine {| enum_all := [by_plan_revision; by_user_input; by_runtime_health; by_trusted_host];
  enum_name r := match r with by_plan_revision => "plan_revision" | by_user_input => "user_input"
    | by_runtime_health => "runtime_health" | by_trusted_host => "trusted_host" end |}; solve_enum.
Defined.
#[export] Instance REVIEW_CRITERION_STATUSES : JsEnum ReviewCriterionStatusV1.
Proof.
  refine {| enum_all := [criterion_active; criterion_retired];
  enum_name s := match s with criterion_active => "active" | criterion_retired => "retired" end |}; solve_enum.
Defined.

(** [cri_check] is the check of a mechanical criterion; a semantic one has none. *)
Record ReviewCriterionV1 := {
  cri_id : string;
  cri_description : string;
  cri_required : bool;
  cri_reviewRequired : option bool;
  cri_check : option jsval;
}.
Record ReviewPolicyV1 := {
  pol_semantic : ReviewSemanticV1;
  pol_maxRepairAttemptsPerItem : Z;
  pol_maxReplans : Z;
  pol_maxReviewAttempts : Z;
  pol_maxNoProgressAttempts : Z;
}.
Definition DEFAULT_REVIEW_POLICY_V1 : ReviewPolicyV1 :=
  {| pol_semantic := final_and_checkpoints; pol_maxRepairAttemptsPerItem := 8; pol_maxReplans := 8;
     pol_maxReviewAttempts := 3; pol_maxNoProgressAttempts := 3 |}.
Record ReviewPlanItemDefinitionV1 := {
  idf_id : string;
  idf_title : string;
  idf_criterionIds : list string;
  idf_reviewCheckpoint : bool;
}.
Record PlanCreateInputV1 := {
  pci_objective : string;
  pci_acceptanceCriteria : list ReviewCriterionV1;
  pci_items : list ReviewPlanItemDefinitionV1;
  pci_reviewPolicy : option ReviewPolicyV1;
}.
Record ReviewPlanItemAttemptV1 := {
  iat_itemAttemptId : string;
  iat_attemptNumber : Z;
  iat_state : ReviewItemAttemptStateV1;
  iat_evidenceRefs : option (list string);
}.
Record ReviewPlanTaskContractV1 := {
  tct_runId : string;
  tct_messageId : string;
  tct_text : string;
  tct_digest : string;
}.
(** [Some itemId], or the final review of the plan. *)
Inductive ReviewScopeV1 := scope_item (itemId : string) | scope_final.
Record PreparedReviewRefV1 := {
  prp_preparedReviewId : string;
  prp_scope : ReviewScopeV1;
  prp_planRevision : Z;
  prp_itemAttemptId : option string;
  prp_criterionIds : list string;
  prp_evidenceRefs : list string;
  prp_reviewInputDigest : string;
  prp_resultSummaryArtifactRef : string;
  prp_resultSummaryDigest : string;
  prp_resultSummaryBytes : Z;
  prp_preparedFileInputs : list jsval;
  prp_changedFilesArtifactRef : option string;
  prp_changedFilesDigest : option string;
  prp_triggerReasons : list string;
}.
Record ReviewPlanBlockV1 := {
  blk_blockId : string;
  blk_code : string;
  blk_allowedResolver : ReviewResolverV1;
  blk_detailDigest : string;
  blk_createdAt : string;
  blk_effectRefs : option (list jsval);
}.
Record ReviewDecisionRefV1 := {
  dcs_reviewRequestId : string;
  dcs_decisionArtifactRef : string;
  dcs_decisionDigest : string;
  dcs_verdict : ReviewVerdictV1;
}.
Record ReviewCriterionProjectionV1 := {
  crp_criterion : ReviewCriterionV1;
  crp_definitionDigest : string;
  crp_definitionArtifactRef : option string;
  crp_status : ReviewCriterionStatusV1;
  crp_supersedesCriterionId : option string;
}.
Record ReviewPlanItemProjectionV1 := {
  itm_id : string;
  itm_title : string;
  itm_order : Z;
  itm_criterionIds : list string;
  itm_state : ReviewPlanItemStateV1;
  itm_reviewCheckpoint : bool;
  itm_attemptCount : Z;
  itm_currentAttempt : option ReviewPlanItemAttemptV1;
  itm_block : option ReviewPlanBlockV1;
  itm_preparedReview : option PreparedReviewRefV1;
  itm_taskRefs : list string;
  itm_evidenceRefs : list string;
  itm_acceptedEvidenceRefs : option (list string);
  itm_acceptedAttemptId : option string;
  itm_acceptedInputDigest : option string;
  itm_lastReview : option ReviewDecisionRefV1;
}.
Record ReviewPlanProjectionV1 := {
  rpl_planId : string;
  rpl_revision : Z;
  rpl_objective : string;
  rpl_objectiveDigest : string;
  rpl_taskContract : option ReviewPlanTaskContractV1;
  rpl_state : ReviewPlanStateV1;
  rpl_policy : ReviewPolicyV1;
  rpl_criteria : list ReviewCriterionProjectionV1;
  rpl_items : list ReviewPlanItemProjectionV1;
  rpl_attemptCount : Z;
  rpl_replanCount : Z;
  rpl_noProgressCount : Z;
  rpl_focusedRootAttemptId : option string;
  rpl_block : option ReviewPlanBlockV1;
  rpl_finalPreparedReview : option PreparedReviewRefV1;
  rpl_lastReview : option ReviewDecisionRefV1;
}.

(** ** Field checks

    A check returns what the cast after it reads, or fails with [code]. *)

(** [onlyKeys], and [exactKeys] of review-plan-events.ts. *)
Definition exactKeys (value : jsobj) (required optional : list string) : bool :=
  forallb (hasOwn value) required && forallb (λ k, memb k required || memb k optional) (keys value).

(** [/^<tag>[A-Za-z0-9._:+-]{1,124}$/u] for a tag of four bytes. *)
Definition tagged_id (tag s : string) : bool :=
  String.prefix tag s && Nat.leb 5 (String.length s) && Nat.leb (String.length s) 128
  && string_forallb (λ c, is_alnum c || char_in "._:+-" c) (String.substring 4 124 s).

Section Fields.
Context (code : string).

Definition recordOf (value : jsval) (required optional : list string) : res jsobj :=
  match value with
  | JObj o => fail_if (negb (exactKeys o required optional)) code;; Ok o
  | _ => Err code
  end.
Definition idField (value : jsval) : res string :=
  fail_if (negb (safeId value)) code;; Ok (js_str value).
Definition hashField (value : jsval) : res string :=
  fail_if (negb (digest value)) code;; Ok (js_str value).
Definition limitedText (maximum : Z) (value : jsval) : res string :=
  fail_if (negb (boundedText value maximum)) code;; Ok (js_str value).
Definition flagField (value : jsval) : res bool :=
  match value with JBool b => Ok b | _ => Err code end.
Definition positiveOf (value : jsval) : res Z :=
  fail_if (negb (positiveInteger value)) code;; Ok (js_int value).
Definition countOf (value : jsval) : res Z :=
  fail_if (negb (nonNegativeInteger value)) code;; Ok (js_int value).
Definition stateOf (A : Type) `{JsEnum A} (value : jsval) : res A :=
  match enum_of value with Some a => Ok a | None => Err code end.
Definition boundedArray (minimum maximum : Z) (value : jsval) : res (list jsval) :=
  match value with
  | JArr l => fail_if ((Z.of_nat (length l) <? minimum) || (maximum <? Z.of_nat (length l))) code;; Ok l
  | _ => Err code
  end.
End Fields.

(** [throw new TypeError(...)]: every caller replaces it by a code of its own. *)
Local Abbreviation T := "TypeError"%string.
Local Abbreviation CI := "REVIEW_CRITERION_INVALID"%string.
Local Abbreviation PI := "PLAN_CREATE_INVALID"%string.
Local Abbreviation JI := "REVIEW_PLAN_PROJECTION_INVALID"%string.

Definition unique_ids (values : list string) : res unit := fail_if (negb (nodupb values)) T.
Definition stringIds (minimum maximum : Z) (value : jsval) : res (list string) :=
  l ← boundedArray PI minimum maximum value; mapM (idField T) l.
Definition stringTexts (maximum : Z) (value : jsval) : res (list string) :=
  l ← boundedArray JI 0 maximum value; mapM (limitedText T 512) l.
(** [stringIds(value, 1, MAX_CRITERIA)] and [unique(value)]. *)
Definition criterionIds (value : jsval) : res (list string) :=
  ids ← stringIds 1 MAX_REVIEW_CRITERIA value; unique_ids ids;; Ok ids.

(** ** Paths *)

Definition path_separator (c : ascii) : bool := char_in ("/" +:+ backslash) c.
(** A line terminator, which [.] does not match, at the front of a text. *)
Definition line_end (s : string) : bool :=
  match nat_of_ascii <$> String.list_ascii_of_string s with
  | 10%nat :: _ | 13%nat :: _ => true
  | 226%nat :: 128%nat :: b :: _ => Nat.eqb b 168 || Nat.eqb b 169
  | _ => false
  end.
(** [".."] followed by a separator or the end. *)
Definition parent_segment (s : string) : bool :=
  match s with
  | String a (String b rest) =>
      Ascii.eqb a "." && Ascii.eqb b "." && match rest with EmptyString => true | String c _ => path_separator c end
  | _ => false
  end.
(** The alternative [.*(?:^|[/\\])\.\.(?:[/\\]|$)]: a parent segment that starts
    the text or follows a separator on its first line. *)
Fixpoint climbs (at_segment : bool) (s : string) : bool :=
  (at_segment && parent_segment s) ||
  match s with
  | EmptyString => false
  | String c rest => if line_end s then false else climbs (path_separator c) rest
  end.
Definition absolute_path (s : string) : bool :=
  match s with
  | String a rest =>
      path_separator a || ((is_upper a || is_lower a) && match rest with String b _ => Ascii.eqb b ":" | _ => false end)
  | EmptyString => false
  end.
Definition has_nul (s : string) : bool := negb (string_forallb (λ c, negb (Nat.eqb (nat_of_ascii c) 0)) s).

Definition workspacePath (value : jsval) : res string :=
  path ← limitedText T MAX_PATH_BYTES value;
  fail_if (absolute_path path || climbs true path || has_nul path) CI;;
  Ok path.
Definition pathList (value : jsval) : res (list string) :=
  l ← boundedArray CI 0 64 value; mapM workspacePath l.

(** ** Criteria *)

Definition validateSchemaRef (value : jsval) : res unit :=
  let kind := match value with JObj o => o .: "kind" | _ => JUndef end in
  if is_str kind "catalog" then
    o ← recordOf CI value ["kind"; "schemaId"; "schemaVersion"; "schemaDigest"]%string [];
    idField T (o .: "schemaId");; idField T (o .: "schemaVersion");; hashField T (o .: "schemaDigest");; Ok tt
  else if is_str kind "artifact" then
    o ← recordOf CI value ["kind"; "artifactRef"; "contentDigest"]%string [];
    limitedText T 512 (o .: "artifactRef");; hashField T (o .: "contentDigest");; Ok tt
  else Err CI.

Definition validateFileRule (value : jsval) : res unit :=
  let kind := match value with JObj o => o .: "kind" | _ => JUndef end in
  if is_str kind "exists" then recordOf CI value ["kind"]%string [];; Ok tt
  else if is_str kind "sha256" then
    o ← recordOf CI value ["kind"; "expectedDigest"]%string [];
    hashField T (o .: "expectedDigest");; Ok tt
  else if is_str kind "registered_content_rule" then
    o ← recordOf CI value ["kind"; "ruleId"; "ruleVersion"; "ruleDigest"]%string [];
    idField T (o .: "ruleId");; idField T (o .: "ruleVersion");; hashField T (o .: "ruleDigest");; Ok tt
  else Err CI.

Definition parameter_value (value : jsval) : bool :=
  match value with
  | JStr _ | JBool _ => true
  | JNum n => match n with NNaN | NInf _ => false | _ => true end
  | _ => false
  end.
Definition validateParameters (value : jsval) : res unit :=
  match value with
  | JObj o =>
      fail_if (MAX_PARAMETERS <? Z.of_nat (length o)) CI;;
      mapM (λ '(key, v), idField T (JStr key);; fail_if (negb (parameter_value v)) CI) o;;
      Ok tt
  | _ => Err CI
  end.

(** [if (value !== undefined) check(value)]. *)
Definition if_defined {A} (check : jsval → res A) (value : jsval) : res unit :=
  opt_res check value;; Ok tt.

(** The [switch] of [validateMechanicalCheck]: the checks of each checker. *)
Definition checker_cases : list (string * (jsval → res unit)) :=
  [("registered_check", λ value,
      o ← recordOf CI value ["checker"; "checkerId"; "checkerVersion"; "checkerDigest"; "expectedExitCodes"]
            ["parameters"];
      idField T (o .: "checkerId");; idField T (o .: "checkerVersion");; hashField T (o .: "checkerDigest");;
      codes ← boundedArray CI 1 32 (o .: "expectedExitCodes");
      fail_if (existsb (λ c, negb (isSafeInteger c)) codes) CI;;
      if_defined validateParameters (o .: "parameters"));
   ("json_schema", λ value,
      o ← recordOf CI value ["checker"; "evidenceRole"; "schemaRef"] [];
      idField T (o .: "evidenceRole");; validateSchemaRef (o .: "schemaRef"));
   ("file_rule", λ value,
      o ← recordOf CI value ["checker"; "path"; "rule"] [];
      workspacePath (o .: "path");; validateFileRule (o .: "rule"));
   ("content_digest", λ value,
      o ← recordOf CI value ["checker"; "expectedDigest"] ["evidenceRole"];
      if_defined (idField T) (o .: "evidenceRole");; hashField T (o .: "expectedDigest");; Ok tt);
   ("diff_boundary", λ value,
      o ← recordOf CI value ["checker"; "allowedPathPrefixes"; "deniedPathPrefixes"] [];
      pathList (o .: "allowedPathPrefixes");; pathList (o .: "deniedPathPrefixes");; Ok tt);
   ("tool_receipt", λ value,
      o ← recordOf CI value ["checker"; "expectedState"] ["evidenceRole"; "toolName"];
      fail_if (negb (is_str (o .: "expectedState") "succeeded")) CI;;
      if_defined (idField T) (o .: "evidenceRole");; if_defined (idField T) (o .: "toolName"));
   ("effect_receipt", λ value,
      o ← recordOf CI value ["checker"; "expectedState"] ["evidenceRole"; "effectKind"];
      fail_if (negb (is_str (o .: "expectedState") "committed")) CI;;
      if_defined (idField T) (o .: "evidenceRole");;
      if_defined (λ v, fail_if (negb (existsb (is_str v)
        ["workspace_write"; "external_idempotent"; "external_non_idempotent"])) T) (o .: "effectKind"));
   ("artifact_or_child_result", λ value,
      o ← recordOf CI value ["checker"; "source"] ["evidenceRole"];
      if_defined (idField T) (o .: "evidenceRole");;
      fail_if (negb (existsb (is_str (o .: "source")) ["artifact"; "child_result"])) T)]%string.

Definition validateMechanicalCheck (value : jsval) : res jsval :=
  match value with
  | JObj o =>
      match mget (js_str (o .: "checker")) checker_cases with
      | Some check => fail_if (negb (is_string (o .: "checker"))) CI;; check value;; Ok value
      | None => Err CI
      end
  | _ => Err CI
  end.

Definition validateReviewCriterionV1 (value : jsval) : res ReviewCriterionV1 :=
  rethrow CI (
    let kind := match value with JObj o => o .: "kind" | _ => JUndef end in
    let mechanical := is_str kind "mechanical" in
    fail_if (negb mechanical && negb (is_str kind "semantic")) CI;;
    o ← recordOf CI value (if mechanical then ["id"; "description"; "kind"; "required"; "check"]
                         else ["id"; "description"; "kind"; "required"])%string ["reviewRequired"]%string;
    id ← idField T (o .: "id");
    description ← limitedText T MAX_DESCRIPTION_BYTES (o .: "description");
    required ← flagField T (o .: "required");
    reviewRequired ← opt_res (flagField T) (o .: "reviewRequired");
    check ← (if mechanical then Some <$> validateMechanicalCheck (o .: "check") else Ok None);
    Ok {| cri_id := id; cri_description := description; cri_required := required;
          cri_reviewRequired := reviewRequired; cri_check := check |}).

Definition validateItemDefinition (value : jsval) : res ReviewPlanItemDefinitionV1 :=
  o ← recordOf PI value ["id"; "title"; "criterionIds"; "reviewCheckpoint"]%string [];
  id ← idField T (o .: "id");
  title ← limitedText T MAX_DESCRIPTION_BYTES (o .: "title");
  ids ← criterionIds (o .: "criterionIds");
  reviewCheckpoint ← flagField T (o .: "reviewCheckpoint");
  Ok {| idf_id := id; idf_title := title; idf_criterionIds := ids; idf_reviewCheckpoint := reviewCheckpoint |}.

Definition validateReviewPolicyV1 (value : jsval) : res ReviewPolicyV1 :=
  o ← recordOf PI value ["semantic"; "maxRepairAttemptsPerItem"; "maxReplans"; "maxReviewAttempts";
                         "maxNoProgressAttempts"]%string [];
  semantic ← stateOf T ReviewSemanticV1 (o .: "semantic");
  maxRepairAttemptsPerItem ← positiveOf T (o .: "maxRepairAttemptsPerItem");
  maxReplans ← positiveOf T (o .: "maxReplans");
  maxReviewAttempts ← positiveOf T (o .: "maxReviewAttempts");
  maxNoProgressAttempts ← positiveOf T (o .: "maxNoProgressAttempts");
  fail_if (existsb (λ z, 32 <? z)
             [maxRepairAttemptsPerItem; maxReplans; maxReviewAttempts; maxNoProgressAttempts]) PI;;
  Ok {| pol_semantic := semantic; pol_maxRepairAttemptsPerItem := maxRepairAttemptsPerItem;
        pol_maxReplans := maxReplans; pol_maxReviewAttempts := maxReviewAttempts;
        pol_maxNoProgressAttempts := maxNoProgressAttempts |}.

(** Every criterion of an item is known, and every required one is in an item. *)
Definition criteria_rejected (criteria : list ReviewCriterionV1) (items : list ReviewPlanItemDefinitionV1) : bool :=
  existsb (λ item, Nat.eqb (length (idf_criterionIds item)) 0
                   || existsb (λ id, negb (memb id (cri_id <$> criteria))) (idf_criterionIds item)) items
  || existsb (λ criterion, cri_required criterion
       && negb (existsb (λ item, memb (cri_id criterion) (idf_criterionIds item)) items)) criteria.

Definition validatePlanCreateInputV1 (value : jsval) : res PlanCreateInputV1 :=
  rethrow PI (
    o ← recordOf PI value ["objective"; "acceptanceCriteria"; "items"]%string ["reviewPolicy"]%string;
    objective ← limitedText T MAX_OBJECTIVE_BYTES (o .: "objective");
    acceptanceCriteria ← boundedArray PI 1 MAX_REVIEW_CRITERIA (o .: "acceptanceCriteria");
    items ← boundedArray PI 1 MAX_ITEMS (o .: "items");
    criteria ← mapM validateReviewCriterionV1 acceptanceCriteria;
    unique_ids (cri_id <$> criteria);;
    items ← mapM validateItemDefinition items;
    unique_ids (idf_id <$> items);;
    fail_if (criteria_rejected criteria items) PI;;
    reviewPolicy ← match o .: "reviewPolicy" with
                   | JNull => Ok (Some DEFAULT_REVIEW_POLICY_V1)
                   | v => opt_res validateReviewPolicyV1 v
                   end;
    Ok {| pci_objective := objective; pci_acceptanceCriteria := criteria; pci_items := items;
          pci_reviewPolicy := reviewPolicy |}).

(** ** The parts of a projection *)

Definition validateScope (value : jsval) : res ReviewScopeV1 :=
  let kind := match value with JObj o => o .: "kind" | _ => JUndef end in
  if is_str kind "item" then
    o ← recordOf JI value ["kind"; "itemId"]%string [];
    itemId ← idField T (o .: "itemId"); Ok (scope_item itemId)
  else if is_str kind "final" then recordOf JI value ["kind"]%string [];; Ok scope_final
  else Err JI.

Definition is_item_scope (scope : ReviewScopeV1) : bool :=
  match scope with scope_item _ => true | scope_final => false end.

Definition validatePreparedFile (value : jsval) : res unit :=
  o ← recordOf JI value ["criterionId"; "path"; "exists"; "workspaceBaselineDigest"]%string
        ["artifactRef"; "contentDigest"; "contentBytes"; "fileIdentityDigest"]%string;
  idField T (o .: "criterionId");;
  workspacePath (o .: "path");;
  present ← flagField T (o .: "exists");
  hashField T (o .: "workspaceBaselineDigest");;
  let contentFields := [o .: "artifactRef"; o .: "contentDigest"; o .: "contentBytes"; o .: "fileIdentityDigest"] in
  fail_if (present && existsb is_undef contentFields) JI;;
  fail_if (negb present && existsb (λ v, negb (is_undef v)) contentFields) JI;;
  if_defined (limitedText T 512) (o .: "artifactRef");;
  if_defined (hashField T) (o .: "contentDigest");;
  if_defined (countOf T) (o .: "contentBytes");;
  if_defined (hashField T) (o .: "fileIdentityDigest").

Definition validatePreparedReview (value : jsval) : res PreparedReviewRefV1 :=
  o ← recordOf JI value ["preparedReviewId"; "scope"; "planRevision"; "criterionIds"; "evidenceRefs";
        "reviewInputDigest"; "resultSummaryArtifactRef"; "resultSummaryDigest"; "resultSummaryBytes";
        "preparedFileInputs"; "triggerReasons"]%string
        ["itemAttemptId"; "changedFilesArtifactRef"; "changedFilesDigest"]%string;
  preparedReviewId ← idField T (o .: "preparedReviewId");
  scope ← validateScope (o .: "scope");
  planRevision ← positiveOf T (o .: "planRevision");
  itemAttemptId ← opt_res (idField T) (o .: "itemAttemptId");
  fail_if (is_item_scope scope && is_none itemAttemptId) JI;;
  ids ← criterionIds (o .: "criterionIds");
  evidenceRefs ← stringTexts MAX_REVIEW_EVIDENCE_ITEMS_V1 (o .: "evidenceRefs");
  reviewInputDigest ← hashField T (o .: "reviewInputDigest");
  resultSummaryArtifactRef ← limitedText T 512 (o .: "resultSummaryArtifactRef");
  resultSummaryDigest ← hashField T (o .: "resultSummaryDigest");
  resultSummaryBytes ← countOf T (o .: "resultSummaryBytes");
  preparedFileInputs ← boundedArray JI 0 64 (o .: "preparedFileInputs");
  mapM validatePreparedFile preparedFileInputs;;
  changedFilesArtifactRef ← opt_res (limitedText T 512) (o .: "changedFilesArtifactRef");
  changedFilesDigest ← opt_res (hashField T) (o .: "changedFilesDigest");
  fail_if (negb (Bool.eqb (is_none changedFilesArtifactRef) (is_none changedFilesDigest))) JI;;
  triggerReasons ← stringTexts 64 (o .: "triggerReasons");
  Ok {| prp_preparedReviewId := preparedReviewId; prp_scope := scope; prp_planRevision := planRevision;
        prp_itemAttemptId := itemAttemptId; prp_criterionIds := ids; prp_evidenceRefs := evidenceRefs;
        prp_reviewInputDigest := reviewInputDigest; prp_resultSummaryArtifactRef := resultSummaryArtifactRef;
        prp_resultSummaryDigest := resultSummaryDigest; prp_resultSummaryBytes := resultSummaryBytes;
        prp_preparedFileInputs := preparedFileInputs; prp_changedFilesArtifactRef := changedFilesArtifactRef;
        prp_changedFilesDigest := changedFilesDigest; prp_triggerReasons := triggerReasons |}.
Definition validatePreparedReviewRefV1 (value : jsval) : res PreparedReviewRefV1 :=
  rethrow JI (validatePreparedReview value).

Definition validateEffectRef (value : jsval) : res unit :=
  o ← recordOf JI value ["workflowId"; "effectRequestId"; "requestDigest"]%string [];
  idField T (o .: "workflowId");; idField T (o .: "effectRequestId");; hashField T (o .: "requestDigest");; Ok tt.

Definition validateDecisionRef (value : jsval) : res ReviewDecisionRefV1 :=
  o ← recordOf JI value ["reviewRequestId"; "decisionArtifactRef"; "decisionDigest"; "verdict"]%string [];
  reviewRequestId ← idField T (o .: "reviewRequestId");
  decisionArtifactRef ← limitedText T 512 (o .: "decisionArtifactRef");
  decisionDigest ← hashField T (o .: "decisionDigest");
  verdict ← stateOf T ReviewVerdictV1 (o .: "verdict");
  Ok {| dcs_reviewRequestId := reviewRequestId; dcs_decisionArtifactRef := decisionArtifactRef;
        dcs_decisionDigest := decisionDigest; dcs_verdict := verdict |}.
Definition validateReviewDecisionRefV1 (value : jsval) : res ReviewDecisionRefV1 :=
  rethrow JI (validateDecisionRef value).

Definition validateItemAttempt (value : jsval) : res ReviewPlanItemAttemptV1 :=
  o ← recordOf JI value ["itemAttemptId"; "attemptNumber"; "state"]%string ["evidenceRefs"]%string;
  itemAttemptId ← idField T (o .: "itemAttemptId");
  attemptNumber ← positiveOf T (o .: "attemptNumber");
  state ← stateOf T ReviewItemAttemptStateV1 (o .: "state");
  evidenceRefs ← opt_res (stringTexts MAX_DURABLE_ATTEMPT_EVIDENCE_REFS) (o .: "evidenceRefs");
  Ok {| iat_itemAttemptId := itemAttemptId; iat_attemptNumber := attemptNumber; iat_state := state;
        iat_evidenceRefs := evidenceRefs |}.

Section Instants.
Context `{JsEngine}.

Definition validateBlock (value : jsval) : res ReviewPlanBlockV1 :=
  o ← recordOf JI value ["blockId"; "code"; "allowedResolver"; "detailDigest"; "createdAt"]%string
        ["effectRefs"]%string;
  fail_if (negb (is_string (o .: "blockId")) || negb (tagged_id "rpb_" (js_str (o .: "blockId")))) JI;;
  code ← idField T (o .: "code");
  allowedResolver ← stateOf T ReviewResolverV1 (o .: "allowedResolver");
  detailDigest ← hashField T (o .: "detailDigest");
  fail_if (negb (timestamp (o .: "createdAt"))) T;;
  effectRefs ← opt_res (boundedArray JI 1 64) (o .: "effectRefs");
  mapM validateEffectRef (default [] effectRefs);;
  Ok {| blk_blockId := js_str (o .: "blockId"); blk_code := code; blk_allowedResolver := allowedResolver;
        blk_detailDigest := detailDigest; blk_createdAt := js_str (o .: "createdAt");
        blk_effectRefs := effectRefs |}.
Definition validateReviewPlanBlockV1 (value : jsval) : res ReviewPlanBlockV1 := rethrow JI (validateBlock value).

Definition validateItemProjection (value : jsval) : res ReviewPlanItemProjectionV1 :=
  o ← recordOf JI value ["id"; "title"; "order"; "criterionIds"; "state"; "reviewCheckpoint"; "attemptCount";
        "taskRefs"; "evidenceRefs"]%string
        ["currentAttempt"; "block"; "preparedReview"; "acceptedEvidenceRefs"; "acceptedAttemptId";
         "acceptedInputDigest"; "lastReview"]%string;
  id ← idField T (o .: "id");
  title ← limitedText T MAX_DESCRIPTION_BYTES (o .: "title");
  order ← countOf T (o .: "order");
  ids ← criterionIds (o .: "criterionIds");
  state ← stateOf T ReviewPlanItemStateV1 (o .: "state");
  reviewCheckpoint ← flagField T (o .: "reviewCheckpoint");
  attemptCount ← countOf T (o .: "attemptCount");
  currentAttempt ← opt_res validateItemAttempt (o .: "currentAttempt");
  block ← opt_res validateBlock (o .: "block");
  preparedReview ← opt_res validatePreparedReview (o .: "preparedReview");
  taskRefs ← stringTexts 256 (o .: "taskRefs");
  evidenceRefs ← stringTexts MAX_DURABLE_ATTEMPT_EVIDENCE_REFS (o .: "evidenceRefs");
  acceptedEvidenceRefs ← opt_res (stringTexts MAX_REVIEW_EVIDENCE_ITEMS_V1) (o .: "acceptedEvidenceRefs");
  acceptedAttemptId ← opt_res (idField T) (o .: "acceptedAttemptId");
  fail_if (negb (Bool.eqb (is_none acceptedEvidenceRefs) (is_none acceptedAttemptId))
           || (bool_decide (state = RI_accepted) && is_none acceptedEvidenceRefs)) JI;;
  acceptedInputDigest ← opt_res (hashField T) (o .: "acceptedInputDigest");
  lastReview ← opt_res validateDecisionRef (o .: "lastReview");
  Ok {| itm_id := id; itm_title := title; itm_order := order; itm_criterionIds := ids; itm_state := state;
        itm_reviewCheckpoint := reviewCheckpoint; itm_attemptCount := attemptCount;
        itm_currentAttempt := currentAttempt; itm_block := block; itm_preparedReview := preparedReview;
        itm_taskRefs := taskRefs; itm_evidenceRefs := evidenceRefs;
        itm_acceptedEvidenceRefs := acceptedEvidenceRefs; itm_acceptedAttemptId := acceptedAttemptId;
        itm_acceptedInputDigest := acceptedInputDigest; itm_lastReview := lastReview |}.
End Instants.

(** ** Objects

    The object of a record, as the code hands it to the validators and digests. *)

Definition Criterion_js (c : ReviewCriterionV1) : jsobj :=
  [("id", JStr (cri_id c)); ("description", JStr (cri_description c));
   ("kind", JStr (if is_none (cri_check c) then "semantic" else "mechanical"));
   ("required", JBool (cri_required c))]%string
  ++ opt_prop "reviewRequired" JBool (cri_reviewRequired c) ++ opt_prop "check" id (cri_check c).
Definition Policy_js (p : ReviewPolicyV1) : jsval := JObj
  [("semantic", JStr (enum_name (pol_semantic p)));
   ("maxRepairAttemptsPerItem", JInt (pol_maxRepairAttemptsPerItem p));
   ("maxReplans", JInt (pol_maxReplans p)); ("maxReviewAttempts", JInt (pol_maxReviewAttempts p));
   ("maxNoProgressAttempts", JInt (pol_maxNoProgressAttempts p))]%string.
Definition ItemDefinition_js (d : ReviewPlanItemDefinitionV1) : jsval := JObj
  [("id", JStr (idf_id d)); ("title", JStr (idf_title d)); ("criterionIds", JStrs (idf_criterionIds d));
   ("reviewCheckpoint", JBool (idf_reviewCheckpoint d))]%string.
Definition Attempt_js (a : ReviewPlanItemAttemptV1) : jsval := JObj
  ([("itemAttemptId", JStr (iat_itemAttemptId a)); ("attemptNumber", JInt (iat_attemptNumber a));
    ("state", JStr (enum_name (iat_state a)))]%string ++ opt_prop "evidenceRefs" JStrs (iat_evidenceRefs a)).
Definition TaskContract_js (t : ReviewPlanTaskContractV1) : jsval := JObj
  [("runId", JStr (tct_runId t)); ("messageId", JStr (tct_messageId t)); ("text", JStr (tct_text t));
   ("digest", JStr (tct_digest t))]%string.
Definition Scope_js (scope : ReviewScopeV1) : jsval := JObj
  match scope with
  | scope_item itemId => [("kind", JStr "item"); ("itemId", JStr itemId)]
  | scope_final => [("kind", JStr "final")]
  end%string.
Definition Prepared_js (p : PreparedReviewRefV1) : jsval := JObj
  ([("preparedReviewId", JStr (prp_preparedReviewId p)); ("scope", Scope_js (prp_scope p));
    ("planRevision", JInt (prp_planRevision p)); ("criterionIds", JStrs (prp_criterionIds p));
    ("evidenceRefs", JStrs (prp_evidenceRefs p)); ("reviewInputDigest", JStr (prp_reviewInputDigest p));
    ("resultSummaryArtifactRef", JStr (prp_resultSummaryArtifactRef p));
    ("resultSummaryDigest", JStr (prp_resultSummaryDigest p));
    ("resultSummaryBytes", JInt (prp_resultSummaryBytes p));
    ("preparedFileInputs", JArr (prp_preparedFileInputs p));
    ("triggerReasons", JStrs (prp_triggerReasons p))]%string
   ++ opt_prop "itemAttemptId" JStr (prp_itemAttemptId p)
   ++ opt_prop "changedFilesArtifactRef" JStr (prp_changedFilesArtifactRef p)
   ++ opt_prop "changedFilesDigest" JStr (prp_changedFilesDigest p)).
Definition Block_js (b : ReviewPlanBlockV1) : jsval := JObj
  ([("blockId", JStr (blk_blockId b)); ("code", JStr (blk_code b));
    ("allowedResolver", JStr (enum_name (blk_allowedResolver b))); ("detailDigest", JStr (blk_detailDigest b));
    ("createdAt", JStr (blk_createdAt b))]%string ++ opt_prop "effectRefs" JArr (blk_effectRefs b)).
Definition Decision_js (d : ReviewDecisionRefV1) : jsval := JObj
  [("reviewRequestId", JStr (dcs_reviewRequestId d)); ("decisionArtifactRef", JStr (dcs_decisionArtifactRef d));
   ("decisionDigest", JStr (dcs_decisionDigest d)); ("verdict", JStr (enum_name (dcs_verdict d)))]%string.
Definition CriterionProjection_js (c : ReviewCriterionProjectionV1) : jsval := JObj
  (Criterion_js (crp_criterion c)
   ++ [("definitionDigest", JStr (crp_definitionDigest c)); ("status", JStr (enum_name (crp_status c)))]%string
   ++ opt_prop "definitionArtifactRef" JStr (crp_definitionArtifactRef c)
   ++ opt_prop "supersedesCriterionId" JStr (crp_supersedesCriterionId c)).
Definition Item_js (i : ReviewPlanItemProjectionV1) : jsval := JObj
  ([("id", JStr (itm_id i)); ("title", JStr (itm_title i)); ("order", JInt (itm_order i));
    ("criterionIds", JStrs (itm_criterionIds i)); ("state", JStr (enum_name (itm_state i)));
    ("reviewCheckpoint", JBool (itm_reviewCheckpoint i)); ("attemptCount", JInt (itm_attemptCount i));
    ("taskRefs", JStrs (itm_taskRefs i)); ("evidenceRefs", JStrs (itm_evidenceRefs i))]%string
   ++ opt_prop "currentAttempt" Attempt_js (itm_currentAttempt i) ++ opt_prop "block" Block_js (itm_block i)
   ++ opt_prop "preparedReview" Prepared_js (itm_preparedReview i)
   ++ opt_prop "acceptedEvidenceRefs" JStrs (itm_acceptedEvidenceRefs i)
   ++ opt_prop "acceptedAttemptId" JStr (itm_acceptedAttemptId i)
   ++ opt_prop "acceptedInputDigest" JStr (itm_acceptedInputDigest i)
   ++ opt_prop "lastReview" Decision_js (itm_lastReview i)).
Definition Projection_js (p : ReviewPlanProjectionV1) : jsval := JObj
  ([("schemaVersion", JInt 1); ("planId", JStr (rpl_planId p)); ("revision", JInt (rpl_revision p));
    ("objective", JStr (rpl_objective p)); ("objectiveDigest", JStr (rpl_objectiveDigest p));
    ("state", JStr (enum_name (rpl_state p))); ("policy", Policy_js (rpl_policy p));
    ("criteria", JArr (CriterionProjection_js <$> rpl_criteria p)); ("items", JArr (Item_js <$> rpl_items p));
    ("attemptCount", JInt (rpl_attemptCount p)); ("replanCount", JInt (rpl_replanCount p));
    ("noProgressCount", JInt (rpl_noProgressCount p))]%string
   ++ opt_prop "taskContract" TaskContract_js (rpl_taskContract p)
   ++ opt_prop "focusedRootAttemptId" JStr (rpl_focusedRootAttemptId p)
   ++ opt_prop "block" Block_js (rpl_block p)
   ++ opt_prop "finalPreparedReview" Prepared_js (rpl_finalPreparedReview p)
   ++ opt_prop "lastReview" Decision_js (rpl_lastReview p)).

(** ** Projections *)

(** The object that [validateCriterionProjection] picks the criterion from. *)
Definition picked_criterion (o : jsobj) : jsval := JObj
  ([("id", o .: "id"); ("description", o .: "description"); ("kind", o .: "kind"); ("required", o .: "required")]%string
   ++ (if is_undef (o .: "reviewRequired") then [] else [("reviewRequired", o .: "reviewRequired")])%string
   ++ (if is_str (o .: "kind") "mechanical" then [("check", o .: "check")] else [])%string).

Definition validateCriterionProjection (value : jsval) : res ReviewCriterionProjectionV1 :=
  o ← match value with JObj o => Ok o | _ => Err JI end;
  criterion ← validateReviewCriterionV1 (picked_criterion o);
  definitionDigest ← hashField T (o .: "definitionDigest");
  definitionArtifactRef ← opt_res (limitedText T 512) (o .: "definitionArtifactRef");
  status ← stateOf T ReviewCriterionStatusV1 (o .: "status");
  supersedesCriterionId ← opt_res (idField T) (o .: "supersedesCriterionId");
  fail_if (existsb (λ key, negb (memb key ["id"; "description"; "kind"; "required"; "reviewRequired"; "check";
    "definitionDigest"; "definitionArtifactRef"; "status"; "supersedesCriterionId"]%string)) (keys o)) JI;;
  Ok {| crp_criterion := criterion; crp_definitionDigest := definitionDigest;
        crp_definitionArtifactRef := definitionArtifactRef; crp_status := status;
        crp_supersedesCriterionId := supersedesCriterionId |}.

Section Projections.
Context `{JsEngine} `{JsCrypto}.

(** Also [validateTaskContractData] of review-plan-events.ts, with its code. *)
Definition validateTaskContract (code : string) (value : jsval) : res ReviewPlanTaskContractV1 :=
  o ← recordOf code value ["runId"; "messageId"; "text"; "digest"]%string [];
  runId ← idField code (o .: "runId");
  messageId ← idField code (o .: "messageId");
  text ← limitedText code (64 * 1024) (o .: "text");
  digest ← hashField code (o .: "digest");
  expected ← canonicalDigestV1 (o .: "text");
  fail_if (negb (String.eqb digest expected)) code;;
  Ok {| tct_runId := runId; tct_messageId := messageId; tct_text := text; tct_digest := digest |}.

Definition validateReviewPlanProjectionV1 (value : jsval) : res ReviewPlanProjectionV1 :=
  rethrow JI (
    o ← recordOf JI value ["schemaVersion"; "planId"; "revision"; "objective"; "objectiveDigest"; "state";
          "policy"; "criteria"; "items"; "attemptCount"; "replanCount"; "noProgressCount"]%string
          ["taskContract"; "focusedRootAttemptId"; "block"; "finalPreparedReview"; "lastReview"]%string;
    fail_if (negb (is_int (o .: "schemaVersion") REVIEW_PLAN_SCHEMA_VERSION_V1)) JI;;
    planId ← idField T (o .: "planId");
    revision ← positiveOf T (o .: "revision");
    objective ← limitedText T MAX_OBJECTIVE_BYTES (o .: "objective");
    objectiveDigest ← hashField T (o .: "objectiveDigest");
    taskContract ← opt_res (validateTaskContract JI) (o .: "taskContract");
    state ← stateOf T ReviewPlanStateV1 (o .: "state");
    policy ← validateReviewPolicyV1 (o .: "policy");
    criteria ← boundedArray JI 1 MAX_REVIEW_CRITERIA (o .: "criteria");
    criteria ← mapM validateCriterionProjection criteria;
    let criterion_ids := (λ c, cri_id (crp_criterion c)) <$> criteria in
    unique_ids criterion_ids;;
    items ← boundedArray JI 1 MAX_ITEMS (o .: "items");
    items ← mapM validateItemProjection items;
    unique_ids (itm_id <$> items);;
    fail_if (existsb (λ item, existsb (λ id, negb (memb id criterion_ids)) (itm_criterionIds item)) items) JI;;
    attemptCount ← countOf T (o .: "attemptCount");
    replanCount ← countOf T (o .: "replanCount");
    noProgressCount ← countOf T (o .: "noProgressCount");
    focusedRootAttemptId ← opt_res (idField T) (o .: "focusedRootAttemptId");
    block ← opt_res validateBlock (o .: "block");
    finalPreparedReview ← opt_res validatePreparedReview (o .: "finalPreparedReview");
    lastReview ← opt_res validateDecisionRef (o .: "lastReview");
    Ok {| rpl_planId := planId; rpl_revision := revision; rpl_objective := objective;
          rpl_objectiveDigest := objectiveDigest; rpl_taskContract := taskContract; rpl_state := state;
          rpl_policy := policy; rpl_criteria := criteria; rpl_items := items; rpl_attemptCount := attemptCount;
          rpl_replanCount := replanCount; rpl_noProgressCount := noProgressCount;
          rpl_focusedRootAttemptId := focusedRootAttemptId; rpl_block := block;
          rpl_finalPreparedReview := finalPreparedReview; rpl_lastReview := lastReview |}).

(** ** Digests *)

Definition reviewCriterionDigestV1 (criterion : ReviewCriterionV1) : res string :=
  criterion ← validateReviewCriterionV1 (JObj (Criterion_js criterion));
  canonicalDigestV1 (JObj (Criterion_js criterion)).

(** The fields of [ReviewPlanCanonicalInputV1] as an object. *)
Definition canonical_input (objective : string) (acceptanceCriteria : list ReviewCriterionV1)
    (items : list ReviewPlanItemDefinitionV1) (policy : ReviewPolicyV1) : jsval := JObj
  [("objective", JStr objective); ("acceptanceCriteria", JArr (JObj ∘ Criterion_js <$> acceptanceCriteria));
   ("items", JArr (ItemDefinition_js <$> items)); ("reviewPolicy", Policy_js policy)]%string.
Definition reviewPlanHashV1 (objective : string) (acceptanceCriteria : list ReviewCriterionV1)
    (items : list ReviewPlanItemDefinitionV1) (policy : ReviewPolicyV1) : res string :=
  normalized ← validatePlanCreateInputV1 (canonical_input objective acceptanceCriteria items policy);
  canonicalDigestV1 (canonical_input (pci_objective normalized) (pci_acceptanceCriteria normalized)
    (pci_items normalized) (default DEFAULT_REVIEW_POLICY_V1 (pci_reviewPolicy normalized))).
End Projections.

(** ** Transitions *)

Definition REVIEW_PLAN_TRANSITIONS (from : ReviewPlanStateV1) : list ReviewPlanStateV1 :=
  match from with
  | RP_active => [RP_reviewing; RP_blocked; RP_abandoned; RP_cancelled]
  | RP_reviewing => [RP_active; RP_blocked; RP_completed; RP_cancelled]
  | RP_blocked => [RP_active; RP_abandoned; RP_cancelled]
  | RP_completed | RP_abandoned | RP_cancelled => []
  end.
Definition REVIEW_ITEM_TRANSITIONS (from : ReviewPlanItemStateV1) : list ReviewPlanItemStateV1 :=
  match from with
  | RI_pending => [RI_running; RI_skipped; RI_blocked]
  | RI_running => [RI_review_requested; RI_needs_fix; RI_accepted; RI_blocked]
  | RI_review_requested => [RI_accepted; RI_needs_fix; RI_blocked]
  | RI_accepted => []
  | RI_needs_fix => [RI_running; RI_blocked; RI_skipped]
  | RI_blocked => [RI_pending; RI_running; RI_skipped]
  | RI_skipped => []
  end.

Definition assertReviewPlanTransitionV1 (from to : ReviewPlanStateV1) : res unit :=
  fail_if (negb (bool_decide (to ∈ REVIEW_PLAN_TRANSITIONS from))) "REVIEW_PLAN_TRANSITION_INVALID".
Definition assertReviewPlanItemTransitionV1 (from to : ReviewPlanItemStateV1) : res unit :=
  fail_if (negb (bool_decide (to ∈ REVIEW_ITEM_TRANSITIONS from))) "REVIEW_PLAN_TRANSITION_INVALID".
