(* ===== verification/ReviewPlanEvents.v ===== *)
(** * The events of a review plan: packages/core-sdk/src/review-plan-events.ts

    The journal events of a review plan, their validator, and the reducer that
    folds them into the projection.  What the reducer validates again (the
    definition of a plan, blocks, prepared reviews and decisions) is kept as the
    value of the event. *)

From S2P Require Import Prelude Js CanonicalJson ReviewPlan.
Local Open Scope Z_scope.

(** ** Events *)

Definition REVIEW_PLAN_EVENT_TYPES_V1 : list string :=
  ["review_plan.created"; "review_plan.revised"; "review_plan.item_state_changed";
   "review_plan.item_attempt_started"; "review_plan.item_attempt_focused";
   "review_plan.item_attempt_carried_forward"; "review_plan.item_attempt_closed";
   "review_plan.execution_requested"; "review_plan.execution_bound"; "review_plan.root_tool_requested";
   "review_plan.root_tool_recorded"; "review_plan.review_prepared"; "review_plan.review_requested";
   "review_plan.review_recorded"; "review_plan.no_progress_recorded"; "review_plan.block_resolved";
   "review_plan.state_changed"]%string.
Definition isReviewPlanEventTypeV1 (value : string) : bool := memb value REVIEW_PLAN_EVENT_TYPES_V1.

Record ReviewPlanJournalEventV1 := {
  rpe_type : string;
  rpe_sequence : Z;
  rpe_revision : Z;
  rpe_runId : option string;
  rpe_correlation : option jsval;
  rpe_data : jsval;
}.

Inductive ReviewPlanMutationOriginV1 :=
| by_tool (invocationId payloadDigest : string)
| by_runtime (requestId inputDigest : string)
| by_host (controlEventId : string) (resolutionRequestId : option string) (inputDigest : string).

(** [Common]. *)
Record ReviewPlanCommon := {
  co_origin : ReviewPlanMutationOriginV1;
  co_mutationDigest : string;
  co_planId : string;
  co_planRevision : Z;
}.

(** The data of each event type, without the common part. *)
Inductive ReviewPlanEventDataV1 :=
| review_created (input : jsval) (planHash : string) (taskContract : option ReviewPlanTaskContractV1)
| review_revised (fromPlanRevision : Z) (input : jsval) (planHash : string)
| item_state_changed (itemId : string) (state : ReviewPlanItemStateV1) (block : option jsval)
| item_attempt_started (itemId itemAttemptId : string) (attemptNumber : Z)
| item_attempt_focused (itemId itemAttemptId : string)
| item_attempt_carried_forward (itemId itemAttemptId : string) (fromPlanRevision : Z)
| item_attempt_closed (itemId itemAttemptId : string) (attemptState : ReviewItemAttemptStateV1)
| execution_requested (itemId itemAttemptId : string)
| execution_bound (itemId itemAttemptId taskRef : string)
| root_tool_requested (itemId itemAttemptId : string)
| root_tool_recorded (itemId itemAttemptId : string) (resultRef effectReceiptRef : option string)
| review_prepared (preparedReview : jsval)
| plan_review_requested (preparedReviewId : string)
| review_recorded (preparedReviewId reviewRequestId : string) (decision : jsval)
| no_progress_recorded (noProgressCount : Z)
| block_resolved (blockId : string)
| review_state_changed (state : ReviewPlanStateV1) (block : option jsval).

Local Abbreviation EI := "REVIEW_PLAN_EVENT_INVALID"%string.

(** [/^pti_[A-Za-z0-9._:+-]{1,124}$/u]. *)
Definition INVOCATION_ID (s : string) : bool := tagged_id "pti_" s.

Definition validateReviewPlanMutationOriginV1 (value : jsval) : res ReviewPlanMutationOriginV1 :=
  let kind := match value with JObj o => o .: "kind" | _ => JUndef end in
  if is_str kind "tool" then
    o ← recordOf EI value ["kind"; "invocationId"; "payloadDigest"]%string [];
    fail_if (negb (is_string (o .: "invocationId")) || negb (INVOCATION_ID (js_str (o .: "invocationId")))) EI;;
    payloadDigest ← hashField EI (o .: "payloadDigest");
    Ok (by_tool (js_str (o .: "invocationId")) payloadDigest)
  else if is_str kind "runtime" then
    o ← recordOf EI value ["kind"; "requestId"; "inputDigest"]%string [];
    requestId ← idField EI (o .: "requestId");
    inputDigest ← hashField EI (o .: "inputDigest");
    Ok (by_runtime requestId inputDigest)
  else if is_str kind "host" then
    o ← recordOf EI value ["kind"; "controlEventId"; "inputDigest"]%string ["resolutionRequestId"]%string;
    controlEventId ← idField EI (o .: "controlEventId");
    inputDigest ← hashField EI (o .: "inputDigest");
    resolutionRequestId ← opt_res (idField EI) (o .: "resolutionRequestId");
    Ok (by_host controlEventId resolutionRequestId inputDigest)
  else Err EI.

Definition REVIEW_CORRELATION_KEYS : list string :=
  ["planId"; "itemId"; "itemAttemptId"; "executionRequestId"; "reviewRequestId"; "invocationId";
   "runtimeRequestId"; "controlEventId"; "resolutionRequestId"]%string.
Definition validateCorrelation (value : jsval) : res unit :=
  match value with
  | JObj o =>
      fail_if (Nat.eqb (length o) 0 || negb (forallb (λ '(_, v), is_undef v || safeId v) o)
               || negb (forallb (λ k, memb k REVIEW_CORRELATION_KEYS) (keys o))) EI
  | _ => Err EI
  end.

Definition validateCommon (data : jsobj) : res ReviewPlanCommon :=
  origin ← validateReviewPlanMutationOriginV1 (data .: "origin");
  mutationDigest ← hashField EI (data .: "mutationDigest");
  planId ← idField EI (data .: "planId");
  planRevision ← positiveOf EI (data .: "planRevision");
  Ok {| co_origin := origin; co_mutationDigest := mutationDigest; co_planId := planId;
        co_planRevision := planRevision |}.

(** [exact(data, [...common, ...required], optional)]. *)
Definition exact_event (data : jsobj) (required optional : list string) : res unit :=
  fail_if (negb (exactKeys data (["origin"; "mutationDigest"; "planId"; "planRevision"]%string ++ required)
                   optional)) EI.
(** [item(data.itemId, data.itemAttemptId)] where both are present. *)
Definition item_ids (data : jsobj) : res (string * string) :=
  itemId ← idField EI (data .: "itemId"); attemptId ← idField EI (data .: "itemAttemptId"); Ok (itemId, attemptId).
Definition bounded (value : jsval) : res string := limitedText EI 2048 value.

Section Events.
Context `{JsEngine} `{JsCrypto}.

(** [if (data.block !== undefined) validateReviewPlanBlockV1(data.block)]. *)
Definition block_value (value : jsval) : res (option jsval) :=
  opt_res (λ v, validateReviewPlanBlockV1 v;; Ok v) value.

(** The [switch] of [validateEventData], by event type. *)
Definition event_cases : list (string * (jsobj → res ReviewPlanEventDataV1)) :=
  [("review_plan.created", λ data,
      exact_event data ["input"; "planHash"] ["taskContract"];;
      validatePlanCreateInputV1 (data .: "input");;
      planHash ← hashField EI (data .: "planHash");
      taskContract ← opt_res (validateTaskContract EI) (data .: "taskContract");
      Ok (review_created (data .: "input") planHash taskContract));
   ("review_plan.revised", λ data,
      exact_event data ["fromPlanRevision"; "input"; "planHash"] [];;
      fromPlanRevision ← positiveOf EI (data .: "fromPlanRevision");
      validatePlanCreateInputV1 (data .: "input");;
      planHash ← hashField EI (data .: "planHash");
      Ok (review_revised fromPlanRevision (data .: "input") planHash));
   ("review_plan.item_state_changed", λ data,
      exact_event data ["itemId"; "state"] ["block"];;
      itemId ← idField EI (data .: "itemId");
      state ← stateOf EI ReviewPlanItemStateV1 (data .: "state");
      block ← block_value (data .: "block");
      Ok (item_state_changed itemId state block));
   ("review_plan.item_attempt_started", λ data,
      exact_event data ["itemId"; "itemAttemptId"; "attemptNumber"] [];;
      ids ← item_ids data;
      attemptNumber ← positiveOf EI (data .: "attemptNumber");
      Ok (item_attempt_started ids.1 ids.2 attemptNumber));
   ("review_plan.item_attempt_focused", λ data,
      exact_event data ["itemId"; "itemAttemptId"] [];;
      ids ← item_ids data; Ok (item_attempt_focused ids.1 ids.2));
   ("review_plan.item_attempt_carried_forward", λ data,
      exact_event data ["itemId"; "itemAttemptId"; "fromPlanRevision"; "executionInputDigest"] [];;
      ids ← item_ids data;
      fromPlanRevision ← positiveOf EI (data .: "fromPlanRevision");
      hashField EI (data .: "executionInputDigest");;
      Ok (item_attempt_carried_forward ids.1 ids.2 fromPlanRevision));
   ("review_plan.item_attempt_closed", λ data,
      exact_event data ["itemId"; "itemAttemptId"; "attemptState"] [];;
      ids ← item_ids data;
      attemptState ← stateOf EI ReviewItemAttemptStateV1 (data .: "attemptState");
      fail_if (negb (bool_decide (attemptState ∈ [RA_accepted; RA_needs_fix; RA_blocked; RA_cancelled]))) EI;;
      Ok (item_attempt_closed ids.1 ids.2 attemptState));
   ("review_plan.execution_requested", λ data,
      exact_event data ["itemId"; "itemAttemptId"; "executionRequestId"; "executionInputDigest"] [];;
      ids ← item_ids data;
      idField EI (data .: "executionRequestId");; hashField EI (data .: "executionInputDigest");;
      Ok (execution_requested ids.1 ids.2));
   ("review_plan.execution_bound", λ data,
      exact_event data ["itemId"; "itemAttemptId"; "executionRequestId"; "taskRef"] [];;
      ids ← item_ids data;
      idField EI (data .: "executionRequestId");;
      taskRef ← bounded (data .: "taskRef");
      Ok (execution_bound ids.1 ids.2 taskRef));
   ("review_plan.root_tool_requested", λ data,
      exact_event data ["itemId"; "itemAttemptId"; "requestId"; "invocationId"; "toolName"; "inputDigest"] [];;
      ids ← item_ids data;
      mapM (λ key, idField EI (get data key)) ["requestId"; "invocationId"; "toolName"];;
      hashField EI (data .: "inputDigest");;
      Ok (root_tool_requested ids.1 ids.2));
   ("review_plan.root_tool_recorded", λ data,
      exact_event data ["itemId"; "itemAttemptId"; "requestId"]
        ["resultRef"; "effectReceiptRef"; "changedFilesDigest"];;
      ids ← item_ids data;
      idField EI (data .: "requestId");;
      fail_if (is_undef (data .: "resultRef") && is_undef (data .: "effectReceiptRef")) EI;;
      resultRef ← opt_res bounded (data .: "resultRef");
      effectReceiptRef ← opt_res bounded (data .: "effectReceiptRef");
      opt_res (hashField EI) (data .: "changedFilesDigest");;
      Ok (root_tool_recorded ids.1 ids.2 resultRef effectReceiptRef));
   ("review_plan.review_prepared", λ data,
      exact_event data ["preparedReview"] [];;
      validatePreparedReviewRefV1 (data .: "preparedReview");;
      Ok (review_prepared (data .: "preparedReview")));
   ("review_plan.review_requested", λ data,
      exact_event data ["preparedReviewId"; "reviewRequestId"; "deterministicDigest";
        "deterministicAttemptCount"; "providerAttemptCount"] [];;
      preparedReviewId ← idField EI (data .: "preparedReviewId");
      idField EI (data .: "reviewRequestId");; hashField EI (data .: "deterministicDigest");;
      positiveOf EI (data .: "deterministicAttemptCount");; countOf EI (data .: "providerAttemptCount");;
      Ok (plan_review_requested preparedReviewId));
   ("review_plan.review_recorded", λ data,
      exact_event data ["preparedReviewId"; "reviewRequestId"; "decision"] [];;
      preparedReviewId ← idField EI (data .: "preparedReviewId");
      reviewRequestId ← idField EI (data .: "reviewRequestId");
      validateReviewDecisionRefV1 (data .: "decision");;
      Ok (review_recorded preparedReviewId reviewRequestId (data .: "decision")));
   ("review_plan.no_progress_recorded", λ data,
      exact_event data ["noProgressCount"] [];;
      noProgressCount ← positiveOf EI (data .: "noProgressCount");
      Ok (no_progress_recorded noProgressCount));
   ("review_plan.block_resolved", λ data,
      exact_event data ["blockId"] [];;
      fail_if (negb (is_string (data .: "blockId")) || negb (String.prefix "rpb_" (js_str (data .: "blockId")))) EI;;
      Ok (block_resolved (js_str (data .: "blockId"))));
   ("review_plan.state_changed", λ data,
      exact_event data ["state"] ["block"];;
      state ← stateOf EI ReviewPlanStateV1 (data .: "state");
      block ← block_value (data .: "block");
      fail_if (negb (Bool.eqb (bool_decide (state = RP_blocked)) (negb (is_none block)))) EI;;
      Ok (review_state_changed state block))]%string.

Definition validateEventData (type : string) (data : jsobj) : res (ReviewPlanCommon * ReviewPlanEventDataV1) :=
  common ← validateCommon data;
  match mget type event_cases with
  | Some check => event ← check data; Ok (common, event)
  | None => Err EI
  end.

(** The event is an object of its own keys; [rpe_data] may be any value. *)
Definition validateReviewPlanEventV1 (input : ReviewPlanJournalEventV1) :
    res (ReviewPlanCommon * ReviewPlanEventDataV1) :=
  rethrow EI (
    fail_if (negb (isReviewPlanEventTypeV1 (rpe_type input)) || negb (positiveInteger (JInt (rpe_sequence input)))
             || negb (positiveInteger (JInt (rpe_revision input)))) EI;;
    data ← match rpe_data input with JObj o => Ok o | _ => Err EI end;
    match rpe_runId input with Some runId => idField EI (JStr runId);; Ok tt | None => Ok tt end;;
    match rpe_correlation input with Some correlation => validateCorrelation correlation | None => Ok tt end;;
    validateEventData (rpe_type input) data).
End Events.

(** ** Changing a projection

    One property of a [MutableItem] or of the [MutableReviewPlan] is assigned or
    deleted. *)

Definition item_with_state (i : ReviewPlanItemProjectionV1) (state : ReviewPlanItemStateV1) : ReviewPlanItemProjectionV1 :=
  {| itm_id := itm_id i; itm_title := itm_title i; itm_order := itm_order i; itm_criterionIds :=
     itm_criterionIds i; itm_state := state; itm_reviewCheckpoint := itm_reviewCheckpoint i;
     itm_attemptCount := itm_attemptCount i; itm_currentAttempt := itm_currentAttempt i; itm_block :=
     itm_block i; itm_preparedReview := itm_preparedReview i; itm_taskRefs := itm_taskRefs i;
     itm_evidenceRefs := itm_evidenceRefs i; itm_acceptedEvidenceRefs := itm_acceptedEvidenceRefs i;
     itm_acceptedAttemptId := itm_acceptedAttemptId i; itm_acceptedInputDigest := itm_acceptedInputDigest i;
     itm_lastReview := itm_lastReview i |}.

Definition item_with_block (i : ReviewPlanItemProjectionV1) (block : option ReviewPlanBlockV1) : ReviewPlanItemProjectionV1 :=
  {| itm_id := itm_id i; itm_title := itm_title i; itm_order := itm_order i; itm_criterionIds :=
     itm_criterionIds i; itm_state := itm_state i; itm_reviewCheckpoint := itm_reviewCheckpoint i;
     itm_attemptCount := itm_attemptCount i; itm_currentAttempt := itm_currentAttempt i; itm_block := block;
     itm_preparedReview := itm_preparedReview i; itm_taskRefs := itm_taskRefs i; itm_evidenceRefs :=
     itm_evidenceRefs i; itm_acceptedEvidenceRefs := itm_acceptedEvidenceRefs i; itm_acceptedAttemptId :=
     itm_acceptedAttemptId i; itm_acceptedInputDigest := itm_acceptedInputDigest i; itm_lastReview :=
     itm_lastReview i |}.

Definition item_with_order (i : ReviewPlanItemProjectionV1) (order : Z) : ReviewPlanItemProjectionV1 :=
  {| itm_id := itm_id i; itm_title := itm_title i; itm_order := order; itm_criterionIds := itm_criterionIds
     i; itm_state := itm_state i; itm_reviewCheckpoint := itm_reviewCheckpoint i; itm_attemptCount :=
     itm_attemptCount i; itm_currentAttempt := itm_currentAttempt i; itm_block := itm_block i;
     itm_preparedReview := itm_preparedReview i; itm_taskRefs := itm_taskRefs i; itm_evidenceRefs :=
     itm_evidenceRefs i; itm_acceptedEvidenceRefs := itm_acceptedEvidenceRefs i; itm_acceptedAttemptId :=
     itm_acceptedAttemptId i; itm_acceptedInputDigest := itm_acceptedInputDigest i; itm_lastReview :=
     itm_lastReview i |}.

Definition item_with_attempt (i : ReviewPlanItemProjectionV1) (attempt : option ReviewPlanItemAttemptV1) : ReviewPlanItemProjectionV1 :=
  {| itm_id := itm_id i; itm_title := itm_title i; itm_order := itm_order i; itm_criterionIds :=
     itm_criterionIds i; itm_state := itm_state i; itm_reviewCheckpoint := itm_reviewCheckpoint i;
     itm_attemptCount := itm_attemptCount i; itm_currentAttempt := attempt; itm_block := itm_block i;
     itm_preparedReview := itm_preparedReview i; itm_taskRefs := itm_taskRefs i; itm_evidenceRefs :=
     itm_evidenceRefs i; itm_acceptedEvidenceRefs := itm_acceptedEvidenceRefs i; itm_acceptedAttemptId :=
     itm_acceptedAttemptId i; itm_acceptedInputDigest := itm_acceptedInputDigest i; itm_lastReview :=
     itm_lastReview i |}.

Definition item_with_attemptCount (i : ReviewPlanItemProjectionV1) (count : Z) : ReviewPlanItemProjectionV1 :=
  {| itm_id := itm_id i; itm_title := itm_title i; itm_order := itm_order i; itm_criterionIds :=
     itm_criterionIds i; itm_state := itm_state i; itm_reviewCheckpoint := itm_reviewCheckpoint i;
     itm_attemptCount := count; itm_currentAttempt := itm_currentAttempt i; itm_block := itm_block i;
     itm_preparedReview := itm_preparedReview i; itm_taskRefs := itm_taskRefs i; itm_evidenceRefs :=
     itm_evidenceRefs i; itm_acceptedEvidenceRefs := itm_acceptedEvidenceRefs i; itm_acceptedAttemptId :=
     itm_acceptedAttemptId i; itm_acceptedInputDigest := itm_acceptedInputDigest i; itm_lastReview :=
     itm_lastReview i |}.

Definition item_with_prepared (i : ReviewPlanItemProjectionV1) (prepared : option PreparedReviewRefV1) : ReviewPlanItemProjectionV1 :=
  {| itm_id := itm_id i; itm_title := itm_title i; itm_order := itm_order i; itm_criterionIds :=
     itm_criterionIds i; itm_state := itm_state i; itm_reviewCheckpoint := itm_reviewCheckpoint i;
     itm_attemptCount := itm_attemptCount i; itm_currentAttempt := itm_currentAttempt i; itm_block :=
     itm_block i; itm_preparedReview := prepared; itm_taskRefs := itm_taskRefs i; itm_evidenceRefs :=
     itm_evidenceRefs i; itm_acceptedEvidenceRefs := itm_acceptedEvidenceRefs i; itm_acceptedAttemptId :=
     itm_acceptedAttemptId i; itm_acceptedInputDigest := itm_acceptedInputDigest i; itm_lastReview :=
     itm_lastReview i |}.

Definition item_with_taskRefs (i : ReviewPlanItemProjectionV1) (refs : list string) : ReviewPlanItemProjectionV1 :=
  {| itm_id := itm_id i; itm_title := itm_title i; itm_order := itm_order i; itm_criterionIds :=
     itm_criterionIds i; itm_state := itm_state i; itm_reviewCheckpoint := itm_reviewCheckpoint i;
     itm_attemptCount := itm_attemptCount i; itm_currentAttempt := itm_currentAttempt i; itm_block :=
     itm_block i; itm_preparedReview := itm_preparedReview i; itm_taskRefs := refs; itm_evidenceRefs :=
     itm_evidenceRefs i; itm_acceptedEvidenceRefs := itm_acceptedEvidenceRefs i; itm_acceptedAttemptId :=
     itm_acceptedAttemptId i; itm_acceptedInputDigest := itm_acceptedInputDigest i; itm_lastReview :=
     itm_lastReview i |}.

Definition item_with_evidenceRefs (i : ReviewPlanItemProjectionV1) (refs : list string) : ReviewPlanItemProjectionV1 :=
  {| itm_id := itm_id i; itm_title := itm_title i; itm_order := itm_order i; itm_criterionIds :=
     itm_criterionIds i; itm_state := itm_state i; itm_reviewCheckpoint := itm_reviewCheckpoint i;
     itm_attemptCount := itm_attemptCount i; itm_currentAttempt := itm_currentAttempt i; itm_block :=
     itm_block i; itm_preparedReview := itm_preparedReview i; itm_taskRefs := itm_taskRefs i;
     itm_evidenceRefs := refs; itm_acceptedEvidenceRefs := itm_acceptedEvidenceRefs i; itm_acceptedAttemptId
     := itm_acceptedAttemptId i; itm_acceptedInputDigest := itm_acceptedInputDigest i; itm_lastReview :=
     itm_lastReview i |}.

Definition item_with_accepted (i : ReviewPlanItemProjectionV1) (refs : option (list string)) (attemptId : option string) (inputDigest : option string) : ReviewPlanItemProjectionV1 :=
  {| itm_id := itm_id i; itm_title := itm_title i; itm_order := itm_order i; itm_criterionIds :=
     itm_criterionIds i; itm_state := itm_state i; itm_reviewCheckpoint := itm_reviewCheckpoint i;
     itm_attemptCount := itm_attemptCount i; itm_currentAttempt := itm_currentAttempt i; itm_block :=
     itm_block i; itm_preparedReview := itm_preparedReview i; itm_taskRefs := itm_taskRefs i;
     itm_evidenceRefs := itm_evidenceRefs i; itm_acceptedEvidenceRefs := refs; itm_acceptedAttemptId :=
     attemptId; itm_acceptedInputDigest := inputDigest; itm_lastReview := itm_lastReview i |}.

Definition item_with_lastReview (i : ReviewPlanItemProjectionV1) (decision : option ReviewDecisionRefV1) : ReviewPlanItemProjectionV1 :=
  {| itm_id := itm_id i; itm_title := itm_title i; itm_order := itm_order i; itm_criterionIds :=
     itm_criterionIds i; itm_state := itm_state i; itm_reviewCheckpoint := itm_reviewCheckpoint i;
     itm_attemptCount := itm_attemptCount i; itm_currentAttempt := itm_currentAttempt i; itm_block :=
     itm_block i; itm_preparedReview := itm_preparedReview i; itm_taskRefs := itm_taskRefs i;
     itm_evidenceRefs := itm_evidenceRefs i; itm_acceptedEvidenceRefs := itm_acceptedEvidenceRefs i;
     itm_acceptedAttemptId := itm_acceptedAttemptId i; itm_acceptedInputDigest := itm_acceptedInputDigest i;
     itm_lastReview := decision |}.

Definition plan_with_items (p : ReviewPlanProjectionV1) (items : list ReviewPlanItemProjectionV1) : ReviewPlanProjectionV1 :=
  {| rpl_planId := rpl_planId p; rpl_revision := rpl_revision p; rpl_objective := rpl_objective p;
     rpl_objectiveDigest := rpl_objectiveDigest p; rpl_taskContract := rpl_taskContract p; rpl_state :=
     rpl_state p; rpl_policy := rpl_policy p; rpl_criteria := rpl_criteria p; rpl_items := items;
     rpl_attemptCount := rpl_attemptCount p; rpl_replanCount := rpl_replanCount p; rpl_noProgressCount :=
     rpl_noProgressCount p; rpl_focusedRootAttemptId := rpl_focusedRootAttemptId p; rpl_block := rpl_block
     p; rpl_finalPreparedReview := rpl_finalPreparedReview p; rpl_lastReview := rpl_lastReview p |}.

Definition plan_with_state (p : ReviewPlanProjectionV1) (state : ReviewPlanStateV1) : ReviewPlanProjectionV1 :=
  {| rpl_planId := rpl_planId p; rpl_revision := rpl_revision p; rpl_objective := rpl_objective p;
     rpl_objectiveDigest := rpl_objectiveDigest p; rpl_taskContract := rpl_taskContract p; rpl_state :=
     state; rpl_policy := rpl_policy p; rpl_criteria := rpl_criteria p; rpl_items := rpl_items p;
     rpl_attemptCount := rpl_attemptCount p; rpl_replanCount := rpl_replanCount p; rpl_noProgressCount :=
     rpl_noProgressCount p; rpl_focusedRootAttemptId := rpl_focusedRootAttemptId p; rpl_block := rpl_block
     p; rpl_finalPreparedReview := rpl_finalPreparedReview p; rpl_lastReview := rpl_lastReview p |}.

Definition plan_with_block (p : ReviewPlanProjectionV1) (block : option ReviewPlanBlockV1) : ReviewPlanProjectionV1 :=
  {| rpl_planId := rpl_planId p; rpl_revision := rpl_revision p; rpl_objective := rpl_objective p;
     rpl_objectiveDigest := rpl_objectiveDigest p; rpl_taskContract := rpl_taskContract p; rpl_state :=
     rpl_state p; rpl_policy := rpl_policy p; rpl_criteria := rpl_criteria p; rpl_items := rpl_items p;
     rpl_attemptCount := rpl_attemptCount p; rpl_replanCount := rpl_replanCount p; rpl_noProgressCount :=
     rpl_noProgressCount p; rpl_focusedRootAttemptId := rpl_focusedRootAttemptId p; rpl_block := block;
     rpl_finalPreparedReview := rpl_finalPreparedReview p; rpl_lastReview := rpl_lastReview p |}.

Definition plan_with_focus (p : ReviewPlanProjectionV1) (attemptId : option string) : ReviewPlanProjectionV1 :=
  {| rpl_planId := rpl_planId p; rpl_revision := rpl_revision p; rpl_objective := rpl_objective p;
     rpl_objectiveDigest := rpl_objectiveDigest p; rpl_taskContract := rpl_taskContract p; rpl_state :=
     rpl_state p; rpl_policy := rpl_policy p; rpl_criteria := rpl_criteria p; rpl_items := rpl_items p;
     rpl_attemptCount := rpl_attemptCount p; rpl_replanCount := rpl_replanCount p; rpl_noProgressCount :=
     rpl_noProgressCount p; rpl_focusedRootAttemptId := attemptId; rpl_block := rpl_block p;
     rpl_finalPreparedReview := rpl_finalPreparedReview p; rpl_lastReview := rpl_lastReview p |}.

Definition plan_with_final (p : ReviewPlanProjectionV1) (prepared : option PreparedReviewRefV1) : ReviewPlanProjectionV1 :=
  {| rpl_planId := rpl_planId p; rpl_revision := rpl_revision p; rpl_objective := rpl_objective p;
     rpl_objectiveDigest := rpl_objectiveDigest p; rpl_taskContract := rpl_taskContract p; rpl_state :=
     rpl_state p; rpl_policy := rpl_policy p; rpl_criteria := rpl_criteria p; rpl_items := rpl_items p;
     rpl_attemptCount := rpl_attemptCount p; rpl_replanCount := rpl_replanCount p; rpl_noProgressCount :=
     rpl_noProgressCount p; rpl_focusedRootAttemptId := rpl_focusedRootAttemptId p; rpl_block := rpl_block
     p; rpl_finalPreparedReview := prepared; rpl_lastReview := rpl_lastReview p |}.

Definition plan_with_lastReview (p : ReviewPlanProjectionV1) (decision : option ReviewDecisionRefV1) : ReviewPlanProjectionV1 :=
  {| rpl_planId := rpl_planId p; rpl_revision := rpl_revision p; rpl_objective := rpl_objective p;
     rpl_objectiveDigest := rpl_objectiveDigest p; rpl_taskContract := rpl_taskContract p; rpl_state :=
     rpl_state p; rpl_policy := rpl_policy p; rpl_criteria := rpl_criteria p; rpl_items := rpl_items p;
     rpl_attemptCount := rpl_attemptCount p; rpl_replanCount := rpl_replanCount p; rpl_noProgressCount :=
     rpl_noProgressCount p; rpl_focusedRootAttemptId := rpl_focusedRootAttemptId p; rpl_block := rpl_block
     p; rpl_finalPreparedReview := rpl_finalPreparedReview p; rpl_lastReview := decision |}.

Definition plan_with_attemptCount (p : ReviewPlanProjectionV1) (count : Z) : ReviewPlanProjectionV1 :=
  {| rpl_planId := rpl_planId p; rpl_revision := rpl_revision p; rpl_objective := rpl_objective p;
     rpl_objectiveDigest := rpl_objectiveDigest p; rpl_taskContract := rpl_taskContract p; rpl_state :=
     rpl_state p; rpl_policy := rpl_policy p; rpl_criteria := rpl_criteria p; rpl_items := rpl_items p;
     rpl_attemptCount := count; rpl_replanCount := rpl_replanCount p; rpl_noProgressCount :=
     rpl_noProgressCount p; rpl_focusedRootAttemptId := rpl_focusedRootAttemptId p; rpl_block := rpl_block
     p; rpl_finalPreparedReview := rpl_finalPreparedReview p; rpl_lastReview := rpl_lastReview p |}.

Definition plan_with_noProgress (p : ReviewPlanProjectionV1) (count : Z) : ReviewPlanProjectionV1 :=
  {| rpl_planId := rpl_planId p; rpl_revision := rpl_revision p; rpl_objective := rpl_objective p;
     rpl_objectiveDigest := rpl_objectiveDigest p; rpl_taskContract := rpl_taskContract p; rpl_state :=
     rpl_state p; rpl_policy := rpl_policy p; rpl_criteria := rpl_criteria p; rpl_items := rpl_items p;
     rpl_attemptCount := rpl_attemptCount p; rpl_replanCount := rpl_replanCount p; rpl_noProgressCount :=
     count; rpl_focusedRootAttemptId := rpl_focusedRootAttemptId p; rpl_block := rpl_block p;
     rpl_finalPreparedReview := rpl_finalPreparedReview p; rpl_lastReview := rpl_lastReview p |}.

(** ** The reducer *)

Local Abbreviation TI := "REVIEW_PLAN_EVENT_TRANSITION_INVALID"%string.

Definition transition_if (cond : bool) : res unit := fail_if cond TI.

Definition requireCurrent (current : option ReviewPlanProjectionV1) (common : ReviewPlanCommon) (revised : bool) :
    res ReviewPlanProjectionV1 :=
  match current with
  | None => Err TI
  | Some plan =>
      transition_if (negb (String.eqb (rpl_planId plan) (co_planId common)));;
      transition_if (negb revised && negb (rpl_revision plan =? co_planRevision common));;
      Ok plan
  end.

Definition mutableItem (plan : ReviewPlanProjectionV1) (itemId : string) : res ReviewPlanItemProjectionV1 :=
  match findb (λ item, String.eqb (itm_id item) itemId) (rpl_items plan) with
  | Some item => Ok item
  | None => Err TI
  end.
(** The item that [mutableItem] found, after its mutation. *)
Fixpoint replace_item (item : ReviewPlanItemProjectionV1) (items : list ReviewPlanItemProjectionV1) :
    list ReviewPlanItemProjectionV1 :=
  match items with
  | [] => []
  | i :: items => if String.eqb (itm_id i) (itm_id item) then item :: items else i :: replace_item item items
  end.
Definition put_item (plan : ReviewPlanProjectionV1) (item : ReviewPlanItemProjectionV1) : ReviewPlanProjectionV1 :=
  plan_with_items plan (replace_item item (rpl_items plan)).

Definition requireAttempt (item : ReviewPlanItemProjectionV1) (attemptId : option string) :
    res ReviewPlanItemAttemptV1 :=
  match itm_currentAttempt item with
  | Some attempt => transition_if (bool_decide (Some (iat_itemAttemptId attempt) ≠ attemptId));; Ok attempt
  | None => Err TI
  end.

Definition is_prepared (preparedReviewId : string) (prepared : option PreparedReviewRefV1) : bool :=
  match prepared with Some p => String.eqb (prp_preparedReviewId p) preparedReviewId | None => false end.
Definition requirePrepared (plan : ReviewPlanProjectionV1) (preparedReviewId : string) : res PreparedReviewRefV1 :=
  let prepared := match rpl_finalPreparedReview plan with
                  | Some p => Some p
                  | None => item ← findb (λ item, is_prepared preparedReviewId (itm_preparedReview item)) (rpl_items plan);
                            itm_preparedReview item
                  end in
  match prepared with
  | Some p => transition_if (negb (String.eqb (prp_preparedReviewId p) preparedReviewId));; Ok p
  | None => Err TI
  end.

Definition itemStateForVerdict (verdict : ReviewVerdictV1) : ReviewPlanItemStateV1 :=
  match verdict with RV_accepted => RI_accepted | RV_blocked => RI_blocked | _ => RI_needs_fix end.
Definition planStateForVerdict (verdict : ReviewVerdictV1) : ReviewPlanStateV1 :=
  match verdict with RV_accepted => RP_completed | RV_blocked => RP_blocked | _ => RP_active end.

Definition appendUnique (values : list string) (value : string) : res (list string) :=
  transition_if (memb value values);; Ok (values ++ [value]).
Definition append_defined (values : list string) (value : option string) : res (list string) :=
  match value with Some v => appendUnique values v | None => Ok values end.

(** [if (next.focusedRootAttemptId === attemptId) delete next.focusedRootAttemptId]. *)
Definition unfocus (plan : ReviewPlanProjectionV1) (attemptId : string) : ReviewPlanProjectionV1 :=
  if bool_decide (rpl_focusedRootAttemptId plan = Some attemptId) then plan_with_focus plan None else plan.

Section Reducer.
Context `{JsEngine} `{JsCrypto}.

Definition project_criterion (criterion : ReviewCriterionV1) : res ReviewCriterionProjectionV1 :=
  definitionDigest ← reviewCriterionDigestV1 criterion;
  Ok {| crp_criterion := criterion; crp_definitionDigest := definitionDigest; crp_definitionArtifactRef := None;
        crp_status := criterion_active; crp_supersedesCriterionId := None |}.
(** A new item of the definition, at its place. *)
Definition new_item (order : nat) (d : ReviewPlanItemDefinitionV1) : ReviewPlanItemProjectionV1 :=
  {| itm_id := idf_id d; itm_title := idf_title d; itm_order := Z.of_nat order;
     itm_criterionIds := idf_criterionIds d; itm_state := RI_pending;
     itm_reviewCheckpoint := idf_reviewCheckpoint d; itm_attemptCount := 0; itm_currentAttempt := None;
     itm_block := None; itm_preparedReview := None; itm_taskRefs := []; itm_evidenceRefs := [];
     itm_acceptedEvidenceRefs := None; itm_acceptedAttemptId := None; itm_acceptedInputDigest := None;
     itm_lastReview := None |}.

Definition create_plan (common : ReviewPlanCommon) (input : jsval) (planHash : string)
    (taskContract : option ReviewPlanTaskContractV1) : res ReviewPlanProjectionV1 :=
  transition_if (negb (co_planRevision common =? 1));;
  definition ← validatePlanCreateInputV1 input;
  let policy := default DEFAULT_REVIEW_POLICY_V1 (pci_reviewPolicy definition) in
  expectedHash ← reviewPlanHashV1 (pci_objective definition) (pci_acceptanceCriteria definition)
                   (pci_items definition) policy;
  transition_if (negb (String.eqb planHash expectedHash));;
  objectiveDigest ← canonicalDigestV1 (JStr (pci_objective definition));
  criteria ← mapM project_criterion (pci_acceptanceCriteria definition);
  validateReviewPlanProjectionV1 (Projection_js
    {| rpl_planId := co_planId common; rpl_revision := 1; rpl_objective := pci_objective definition;
       rpl_objectiveDigest := objectiveDigest; rpl_taskContract := taskContract; rpl_state := RP_active;
       rpl_policy := policy; rpl_criteria := criteria; rpl_items := imap new_item (pci_items definition);
       rpl_attemptCount := 0; rpl_replanCount := 0; rpl_noProgressCount := 0; rpl_focusedRootAttemptId := None;
       rpl_block := None; rpl_finalPreparedReview := None; rpl_lastReview := None |}).

(** [sameDefinition && prior.state === 'accepted']. *)
Definition keeps_accepted (prior : ReviewPlanItemProjectionV1) (d : ReviewPlanItemDefinitionV1) : bool :=
  String.eqb (itm_title prior) (idf_title d) && Bool.eqb (itm_reviewCheckpoint prior) (idf_reviewCheckpoint d)
  && bool_decide (itm_criterionIds prior = idf_criterionIds d) && bool_decide (itm_state prior = RI_accepted).
Definition revised_item (items : list ReviewPlanItemProjectionV1) (order : nat) (d : ReviewPlanItemDefinitionV1) :
    ReviewPlanItemProjectionV1 :=
  match findb (λ item, String.eqb (itm_id item) (idf_id d)) items with
  | Some prior => if keeps_accepted prior d then item_with_order prior (Z.of_nat order) else new_item order d
  | None => new_item order d
  end.

Definition revise_plan (plan : ReviewPlanProjectionV1) (planRevision fromPlanRevision : Z) (input : jsval)
    (planHash : string) : res ReviewPlanProjectionV1 :=
  definition ← validatePlanCreateInputV1 input;
  transition_if (negb (fromPlanRevision =? rpl_revision plan) || negb (planRevision =? rpl_revision plan + 1));;
  let policy := default (rpl_policy plan) (pci_reviewPolicy definition) in
  expectedHash ← reviewPlanHashV1 (pci_objective definition) (pci_acceptanceCriteria definition)
                   (pci_items definition) policy;
  transition_if (negb (String.eqb planHash expectedHash) || negb (is_none (rpl_finalPreparedReview plan)));;
  objectiveDigest ← canonicalDigestV1 (JStr (pci_objective definition));
  criteria ← mapM project_criterion (pci_acceptanceCriteria definition);
  Ok {| rpl_planId := rpl_planId plan; rpl_revision := planRevision; rpl_objective := pci_objective definition;
        rpl_objectiveDigest := objectiveDigest; rpl_taskContract := rpl_taskContract plan; rpl_state := RP_active;
        rpl_policy := policy; rpl_criteria := criteria;
        rpl_items := imap (revised_item (rpl_items plan)) (pci_items definition);
        rpl_attemptCount := rpl_attemptCount plan; rpl_replanCount := rpl_replanCount plan + 1;
        rpl_noProgressCount := rpl_noProgressCount plan;
        rpl_focusedRootAttemptId := rpl_focusedRootAttemptId plan; rpl_block := None;
        rpl_finalPreparedReview := None; rpl_lastReview := rpl_lastReview plan |}.

Definition change_item_state (plan : ReviewPlanProjectionV1) (itemId : string) (state : ReviewPlanItemStateV1)
    (block : option jsval) : res ReviewPlanProjectionV1 :=
  item ← mutableItem plan itemId;
  assertReviewPlanItemTransitionV1 (itm_state item) state;;
  block ← match block with Some b => Some <$> validateReviewPlanBlockV1 b | None => Ok None end;
  Ok (put_item plan (item_with_block (item_with_state item state) block)).

Definition start_attempt (plan : ReviewPlanProjectionV1) (itemId attemptId : string) (attemptNumber : Z) :
    res ReviewPlanProjectionV1 :=
  item ← mutableItem plan itemId;
  transition_if (negb (is_none (itm_currentAttempt item))
                 || negb (bool_decide (itm_state item ∈ [RI_pending; RI_needs_fix; RI_blocked])));;
  transition_if (negb (attemptNumber =? itm_attemptCount item + 1));;
  let attempt := {| iat_itemAttemptId := attemptId; iat_attemptNumber := attemptNumber; iat_state := RA_open;
                    iat_evidenceRefs := Some [] |} in
  let item := item_with_attemptCount (item_with_attempt item (Some attempt)) attemptNumber in
  let plan := put_item plan (item_with_block (item_with_state item RI_running) None) in
  Ok (plan_with_focus (plan_with_attemptCount plan (rpl_attemptCount plan + 1)) (Some attemptId)).

(** The item and the attempt of an event about an open attempt. *)
Definition open_attempt (plan : ReviewPlanProjectionV1) (itemId attemptId : string) :
    res (ReviewPlanItemProjectionV1 * ReviewPlanItemAttemptV1) :=
  item ← mutableItem plan itemId; attempt ← requireAttempt item (Some attemptId); Ok (item, attempt).

Definition close_attempt (plan : ReviewPlanProjectionV1) (itemId attemptId : string) : res ReviewPlanProjectionV1 :=
  found ← open_attempt plan itemId attemptId;
  Ok (unfocus (put_item plan (item_with_attempt found.1 None)) attemptId).

Definition bind_execution (plan : ReviewPlanProjectionV1) (itemId attemptId taskRef : string) :
    res ReviewPlanProjectionV1 :=
  found ← open_attempt plan itemId attemptId;
  refs ← appendUnique (itm_taskRefs found.1) taskRef;
  Ok (put_item plan (item_with_taskRefs found.1 refs)).

Definition with_evidence (attempt : ReviewPlanItemAttemptV1) (refs : list string) : ReviewPlanItemAttemptV1 :=
  {| iat_itemAttemptId := iat_itemAttemptId attempt; iat_attemptNumber := iat_attemptNumber attempt;
     iat_state := iat_state attempt; iat_evidenceRefs := Some refs |}.
Definition with_attempt_review (attempt : ReviewPlanItemAttemptV1) : ReviewPlanItemAttemptV1 :=
  {| iat_itemAttemptId := iat_itemAttemptId attempt; iat_attemptNumber := iat_attemptNumber attempt;
     iat_state := RA_review_requested; iat_evidenceRefs := iat_evidenceRefs attempt |}.

(** Each reference is appended to the item, then to the attempt. *)
Definition record_tool (plan : ReviewPlanProjectionV1) (itemId attemptId : string)
    (resultRef effectReceiptRef : option string) : res ReviewPlanProjectionV1 :=
  found ← open_attempt plan itemId attemptId;
  let own := default [] (iat_evidenceRefs found.2) in
  refs ← append_defined (itm_evidenceRefs found.1) resultRef;
  own ← append_defined own resultRef;
  refs ← append_defined refs effectReceiptRef;
  own ← append_defined own effectReceiptRef;
  Ok (put_item plan (item_with_attempt (item_with_evidenceRefs found.1 refs) (Some (with_evidence found.2 own)))).

Definition prepare_review (plan : ReviewPlanProjectionV1) (value : jsval) : res ReviewPlanProjectionV1 :=
  prepared ← validatePreparedReviewRefV1 value;
  transition_if (negb (prp_planRevision prepared =? rpl_revision plan));;
  match prp_scope prepared with
  | scope_item itemId =>
      item ← mutableItem plan itemId;
      requireAttempt item (prp_itemAttemptId prepared);;
      transition_if (negb (is_none (itm_preparedReview item)));;
      Ok (put_item plan (item_with_prepared item (Some prepared)))
  | scope_final =>
      transition_if (negb (is_none (rpl_finalPreparedReview plan)));;
      Ok (plan_with_final plan (Some prepared))
  end.

Definition request_review (plan : ReviewPlanProjectionV1) (preparedReviewId : string) : res ReviewPlanProjectionV1 :=
  prepared ← requirePrepared plan preparedReviewId;
  match prp_scope prepared with
  | scope_item itemId =>
      item ← mutableItem plan itemId;
      attempt ← requireAttempt item (prp_itemAttemptId prepared);
      Ok (put_item plan (item_with_state (item_with_attempt item (Some (with_attempt_review attempt)))
                           RI_review_requested))
  | scope_final =>
      assertReviewPlanTransitionV1 (rpl_state plan) RP_reviewing;;
      Ok (plan_with_state plan RP_reviewing)
  end.

(** The item after the verdict on it. *)
Definition reviewed_item (item : ReviewPlanItemProjectionV1) (prepared : PreparedReviewRefV1)
    (attempt : ReviewPlanItemAttemptV1) (decision : ReviewDecisionRefV1) : ReviewPlanItemProjectionV1 :=
  let item := item_with_state (item_with_lastReview item (Some decision)) (itemStateForVerdict (dcs_verdict decision)) in
  let item := if bool_decide (dcs_verdict decision = RV_accepted)
              then item_with_accepted item (Some (prp_evidenceRefs prepared)) (Some (iat_itemAttemptId attempt))
                     (Some (prp_reviewInputDigest prepared))
              else item in
  item_with_attempt (item_with_prepared item None) None.

Definition record_review (plan : ReviewPlanProjectionV1) (preparedReviewId reviewRequestId : string) (value : jsval) :
    res ReviewPlanProjectionV1 :=
  prepared ← requirePrepared plan preparedReviewId;
  decision ← validateReviewDecisionRefV1 value;
  transition_if (negb (String.eqb (dcs_reviewRequestId decision) reviewRequestId));;
  match prp_scope prepared with
  | scope_item itemId =>
      item ← mutableItem plan itemId;
      attempt ← requireAttempt item (prp_itemAttemptId prepared);
      Ok (unfocus (put_item plan (reviewed_item item prepared attempt decision)) (iat_itemAttemptId attempt))
  | scope_final =>
      let target := planStateForVerdict (dcs_verdict decision) in
      (if bool_decide (rpl_state plan = target) then Ok tt else assertReviewPlanTransitionV1 (rpl_state plan) target);;
      Ok (plan_with_state (plan_with_final (plan_with_lastReview plan (Some decision)) None) target)
  end.

Definition has_block (blockId : string) (block : option ReviewPlanBlockV1) : bool :=
  match block with Some b => String.eqb (blk_blockId b) blockId | None => false end.
Definition resolve_review_block (plan : ReviewPlanProjectionV1) (blockId : string) : res ReviewPlanProjectionV1 :=
  if has_block blockId (rpl_block plan) then Ok (plan_with_state (plan_with_block plan None) RP_active)
  else match findb (λ item, has_block blockId (itm_block item)) (rpl_items plan) with
       | None => Err TI
       | Some item =>
           let state := if bool_decide (itm_state item = RI_blocked) then RI_pending else itm_state item in
           Ok (put_item plan (item_with_state (item_with_block item None) state))
       end.

Definition change_plan_state (plan : ReviewPlanProjectionV1) (state : ReviewPlanStateV1) (block : option jsval) :
    res ReviewPlanProjectionV1 :=
  assertReviewPlanTransitionV1 (rpl_state plan) state;;
  block ← match block with Some b => Some <$> validateReviewPlanBlockV1 b | None => Ok None end;
  let plan := plan_with_block (plan_with_state plan state) block in
  Ok (if bool_decide (state ∈ [RP_abandoned; RP_cancelled])
      then plan_with_items (plan_with_final plan None) ((λ item, item_with_prepared item None) <$> rpl_items plan)
      else plan).

(** The [switch] on the type of an event after the first. *)
Definition change_plan (plan : ReviewPlanProjectionV1) (common : ReviewPlanCommon) (event : ReviewPlanEventDataV1) :
    res ReviewPlanProjectionV1 :=
  match event with
  | review_created _ _ _ => Ok plan
  | review_revised from input planHash => revise_plan plan (co_planRevision common) from input planHash
  | item_state_changed itemId state block => change_item_state plan itemId state block
  | item_attempt_started itemId attemptId number => start_attempt plan itemId attemptId number
  | item_attempt_focused itemId attemptId =>
      open_attempt plan itemId attemptId;; Ok (plan_with_focus plan (Some attemptId))
  | item_attempt_carried_forward itemId attemptId from =>
      open_attempt plan itemId attemptId;;
      transition_if (negb (from =? rpl_revision plan - 1) || negb (co_planRevision common =? rpl_revision plan));;
      Ok plan
  | item_attempt_closed itemId attemptId _ => close_attempt plan itemId attemptId
  | execution_requested itemId attemptId | root_tool_requested itemId attemptId =>
      open_attempt plan itemId attemptId;; Ok plan
  | execution_bound itemId attemptId taskRef => bind_execution plan itemId attemptId taskRef
  | root_tool_recorded itemId attemptId resultRef effectReceiptRef =>
      record_tool plan itemId attemptId resultRef effectReceiptRef
  | review_prepared prepared => prepare_review plan prepared
  | plan_review_requested preparedReviewId => request_review plan preparedReviewId
  | review_recorded preparedReviewId reviewRequestId decision =>
      record_review plan preparedReviewId reviewRequestId decision
  | no_progress_recorded count =>
      transition_if (negb (count =? rpl_noProgressCount plan + 1));; Ok (plan_with_noProgress plan count)
  | block_resolved blockId => resolve_review_block plan blockId
  | review_state_changed state block => change_plan_state plan state block
  end.

Definition is_revised (event : ReviewPlanEventDataV1) : bool :=
  match event with review_revised _ _ _ => true | _ => false end.

Definition reduceReviewPlanEventV1 (current : option ReviewPlanProjectionV1) (rawEvent : ReviewPlanJournalEventV1) :
    res ReviewPlanProjectionV1 :=
  checked ← validateReviewPlanEventV1 rawEvent;
  let '(common, event) := (checked : ReviewPlanCommon * ReviewPlanEventDataV1) in
  match event with
  | review_created input planHash taskContract =>
      transition_if (negb (is_none current));; create_plan common input planHash taskContract
  | _ =>
      plan ← requireCurrent current common (is_revised event);
      next ← change_plan plan common event;
      validateReviewPlanProjectionV1 (Projection_js next)
  end.
End Reducer.
