(* ===== verification/ReviewSamples.v ===== *)
(** * A sample review plan

    One plan with one criterion and one item.  The item is attempted, reviewed and
    accepted; then the whole plan is reviewed. *)

From S2P Require Import Prelude Js CanonicalJson Samples ReviewPlan ReviewPlanEvents.
Local Open Scope Z_scope.

Definition sample_origin : jsval := JObj
  [("kind", JStr "runtime"); ("requestId", JStr "req-1"); ("inputDigest", JStr sample_digest)]%string.
Definition sample_common (revision : Z) : jsobj :=
  [("origin", sample_origin); ("mutationDigest", JStr sample_digest); ("planId", JStr "plan-1");
   ("planRevision", JInt revision)]%string.
Definition sample_review_event (sequence revision : Z) (type : string) (fields : jsobj) : ReviewPlanJournalEventV1 :=
  {| rpe_type := type; rpe_sequence := sequence; rpe_revision := sequence; rpe_runId := Some "r1"%string;
     rpe_correlation := Some (JObj [("planId", JStr "plan-1")])%string;
     rpe_data := JObj (sample_common revision ++ fields) |}.

Definition sample_review_input (title : string) : jsval := JObj [
  ("objective", JStr "Do it");
  ("acceptanceCriteria", JArr [JObj [("id", JStr "c1"); ("kind", JStr "semantic"); ("description", JStr "works");
     ("required", JBool true)]]);
  ("items", JArr [JObj [("id", JStr "i1"); ("title", JStr title); ("criterionIds", JStrs ["c1"]);
     ("reviewCheckpoint", JBool true)]])]%string.
Definition sample_prepared (id : string) (scope : ReviewScopeV1) (attempt : option string) : PreparedReviewRefV1 :=
  {| prp_preparedReviewId := id; prp_scope := scope; prp_planRevision := 1; prp_itemAttemptId := attempt;
     prp_criterionIds := ["c1"]; prp_evidenceRefs := ["evidence-1"]; prp_reviewInputDigest := sample_digest;
     prp_resultSummaryArtifactRef := "artifact-1"; prp_resultSummaryDigest := sample_digest;
     prp_resultSummaryBytes := 1; prp_preparedFileInputs := []; prp_changedFilesArtifactRef := None;
     prp_changedFilesDigest := None; prp_triggerReasons := [] |}%string.
Definition sample_decision (id : string) (verdict : ReviewVerdictV1) : ReviewDecisionRefV1 :=
  {| dcs_reviewRequestId := id; dcs_decisionArtifactRef := "artifact-2"; dcs_decisionDigest := sample_digest;
     dcs_verdict := verdict |}.
Definition sample_block : ReviewPlanBlockV1 :=
  {| blk_blockId := "rpb_1"; blk_code := "STUCK"; blk_allowedResolver := by_user_input;
     blk_detailDigest := sample_digest; blk_createdAt := instant; blk_effectRefs := None |}.

Definition attempt_fields (extra : jsobj) : jsobj :=
  [("itemId", JStr "i1"); ("itemAttemptId", JStr "at-1")]%string ++ extra.
Definition review_step : Type := string * jsobj.
Definition request_step (prepared request : string) : review_step :=
  ("review_plan.review_requested",
   [("preparedReviewId", JStr prepared); ("reviewRequestId", JStr request);
    ("deterministicDigest", JStr sample_digest); ("deterministicAttemptCount", JInt 1);
    ("providerAttemptCount", JInt 0)])%string.
Definition decide_step (prepared request : string) (verdict : ReviewVerdictV1) : review_step :=
  ("review_plan.review_recorded",
   [("preparedReviewId", JStr prepared); ("reviewRequestId", JStr request);
    ("decision", Decision_js (sample_decision request verdict))])%string.
Definition state_step_to (state : ReviewPlanStateV1) (block : option ReviewPlanBlockV1) : review_step :=
  ("review_plan.state_changed"%string,
   ("state"%string, JStr (enum_name state)) :: opt_prop "block" Block_js block).
Definition revise_step (from : Z) (title : string) : review_step :=
  ("review_plan.revised", [("fromPlanRevision", JInt from); ("input", sample_review_input title);
     ("planHash", JStr sample_digest)])%string.

Definition create_step : review_step :=
  ("review_plan.created", [("input", sample_review_input "An item"); ("planHash", JStr sample_digest)])%string.
(** The item up to its acceptance. *)
Definition item_steps : list review_step :=
  [("review_plan.item_attempt_started", attempt_fields [("attemptNumber", JInt 1)]);
   ("review_plan.execution_bound", attempt_fields [("executionRequestId", JStr "x-1"); ("taskRef", JStr "task-1")]);
   ("review_plan.review_prepared",
      [("preparedReview", Prepared_js (sample_prepared "prep-1" (scope_item "i1") (Some "at-1")))]);
   request_step "prep-1" "rq-1"; decide_step "prep-1" "rq-1" RV_accepted]%string.
(** The final review of the plan, with the verdict. *)
Definition final_steps (verdict : ReviewVerdictV1) : list review_step :=
  [("review_plan.review_prepared", [("preparedReview", Prepared_js (sample_prepared "prep-2" scope_final None))]);
   request_step "prep-2" "rq-2"; decide_step "prep-2" "rq-2" verdict]%string.

Definition at_revision (revision : Z) (steps : list review_step) : list (Z * review_step) := (λ s, (revision, s)) <$> steps.
Definition sample_review_events (steps : list (Z * review_step)) : list ReviewPlanJournalEventV1 :=
  imap (λ i '(revision, (type, fields)), sample_review_event (Z.of_nat i + 1) revision type fields) steps.
