(* ===== verification/ReviewPlanSpec.v ===== *)
(** * Well-formed review plans

    What the validators of ReviewPlan.v establish, and that they read the object
    of a record back as that record: what the reducer returns is the projection
    that its last event left, and it is well formed. *)

From S2P Require Import Prelude Js CanonicalJson JsOps ReviewPlan ReviewPlanEvents.
Local Open Scope Z_scope.

(** ** Field checks *)

Definition one_of_bounds (lo hi : Z) {A} (l : list A) : Prop := lo ≤ Z.of_nat (length l) ≤ hi.

Section FieldChecks.
Context (code : string).

Lemma recordOf_Ok v required optional o :
  recordOf code v required optional = Ok o ↔ v = JObj o ∧ exactKeys o required optional = true.
Proof.
  unfold recordOf. destruct v as [| | | | | |o'|]; try naive_solver. rewrite bind_Ok. split.
  - intros ([] & Hk%fail_if_Ok & [= <-]). by apply negb_false_iff in Hk.
  - intros [[= <-] Hk]. exists tt. split; [|done]. apply fail_if_Ok. by rewrite Hk.
Qed.
Lemma idField_Ok v s : idField code v = Ok s ↔ v = JStr s ∧ SAFE_ID s = true.
Proof.
  unfold idField. rewrite bind_Ok. split.
  - intros ([] & Hs%fail_if_Ok & [= <-]). apply negb_false_iff, safeId_inv in Hs as (t & -> & ?). done.
  - intros [-> Hs]. exists tt. split; [|done]. apply fail_if_Ok. cbn. by rewrite Hs.
Qed.
Lemma hashField_Ok v s : hashField code v = Ok s ↔ v = JStr s ∧ SHA256 s = true.
Proof.
  unfold hashField. rewrite bind_Ok. split.
  - intros ([] & Hs%fail_if_Ok & [= <-]). apply negb_false_iff, digest_inv in Hs as (t & -> & ?). done.
  - intros [-> Hs]. exists tt. split; [|done]. apply fail_if_Ok. cbn. by rewrite Hs.
Qed.
Lemma limitedText_Ok n v s : limitedText code n v = Ok s ↔ v = JStr s ∧ boundedText (JStr s) n = true.
Proof.
  unfold limitedText. rewrite bind_Ok. split.
  - intros ([] & Hs%fail_if_Ok & [= <-]). apply negb_false_iff, boundedText_inv in Hs as (t & -> & ?). done.
  - intros [-> Hs]. exists tt. split; [|done]. apply fail_if_Ok. by rewrite Hs.
Qed.
Lemma flagField_Ok v b : flagField code v = Ok b ↔ v = JBool b.
Proof. destruct v; naive_solver. Qed.
Lemma positiveOf_Ok v z : positiveOf code v = Ok z ↔ v = JInt z ∧ 0 < z ≤ MAX_SAFE_INTEGER.
Proof.
  unfold positiveOf. rewrite bind_Ok. split.
  - intros ([] & Hs%fail_if_Ok & [= <-]). apply negb_false_iff, positiveInteger_inv in Hs as (z' & -> & ?). done.
  - intros [-> Hs]. exists tt. split; [|done]. apply fail_if_Ok. by rewrite (proj2 (positiveInteger_int z)).
Qed.
Lemma countOf_Ok v z : countOf code v = Ok z ↔ v = JInt z ∧ 0 ≤ z ≤ MAX_SAFE_INTEGER.
Proof.
  unfold countOf. rewrite bind_Ok. split.
  - intros ([] & Hs%fail_if_Ok & [= <-]). apply negb_false_iff, nonNegativeInteger_inv in Hs as (z' & -> & ?). done.
  - intros [-> Hs]. exists tt. split; [|done]. apply fail_if_Ok. by rewrite (proj2 (nonNegativeInteger_int z)).
Qed.
Lemma stateOf_Ok A `{JsEnum A} v a : stateOf code A v = Ok a ↔ v = JStr (enum_name a).
Proof. unfold stateOf. rewrite <-enum_of_Some. destruct (enum_of v); naive_solver. Qed.
Lemma boundedArray_Ok lo hi v l :
  boundedArray code lo hi v = Ok l ↔ v = JArr l ∧ one_of_bounds lo hi l.
Proof.
  unfold boundedArray, one_of_bounds. destruct v as [| | | | |l'| |]; try naive_solver. rewrite bind_Ok. split.
  - intros ([] & Hk%fail_if_Ok & [= <-]). split; [done|]. lia.
  - intros [[= <-] Hk]. exists tt. split; [|done]. apply fail_if_Ok. lia.
Qed.
End FieldChecks.

Lemma unique_ids_Ok l u : unique_ids l = Ok u ↔ NoDup l.
Proof. unfold unique_ids. rewrite fail_if_Ok, negb_false_iff. apply nodupb_true. Qed.

Lemma mapM_strings (f : jsval → res string) l ss :
  (∀ v s, f v = Ok s → v = JStr s) → mapM f l = Ok ss → JArr l = JStrs ss.
Proof.
  intros Hf Hm%mapM_Ok. unfold JStrs. f_equal.
  induction Hm as [|v s l ss Hv _ IH]; [done|]. rewrite fmap_cons, <-IH. f_equal. by apply Hf.
Qed.
Lemma stringIds_Ok lo hi v ss : stringIds lo hi v = Ok ss → v = JStrs ss ∧ one_of_bounds lo hi ss.
Proof.
  unfold stringIds. intros (l & [-> Hl]%boundedArray_Ok & Hm)%bind_Ok. split.
  - eapply mapM_strings; [|exact Hm]. by intros w s [-> _]%idField_Ok.
  - apply mapM_Ok, Forall2_length in Hm. unfold one_of_bounds in *. by rewrite <-Hm.
Qed.
Lemma stringTexts_Ok hi v ss : stringTexts hi v = Ok ss → v = JStrs ss ∧ one_of_bounds 0 hi ss.
Proof.
  unfold stringTexts. intros (l & [-> Hl]%boundedArray_Ok & Hm)%bind_Ok. split.
  - eapply mapM_strings; [|exact Hm]. by intros w s [-> _]%limitedText_Ok.
  - apply mapM_Ok, Forall2_length in Hm. unfold one_of_bounds in *. by rewrite <-Hm.
Qed.
Lemma criterionIds_Ok v ss :
  criterionIds v = Ok ss → v = JStrs ss ∧ one_of_bounds 1 MAX_REVIEW_CRITERIA ss ∧ NoDup ss.
Proof.
  unfold criterionIds. intros (ids & [-> Hb]%stringIds_Ok & (u & Hu%unique_ids_Ok & [= ->])%bind_Ok)%bind_Ok. done.
Qed.
Lemma JStrs_inj a b : JStrs a = JStrs b → a = b.
Proof.
  unfold JStrs. intros [= Hab]. revert b Hab. induction a as [|x a IH]; intros [|y b]; cbn; try done.
  intros [= -> Hab]. f_equal. by apply IH.
Qed.

(** Every successful step of a check, turned into what it establishes. *)
Ltac check_inv :=
  match goal with
  | H : recordOf _ _ _ _ = Ok _ |- _ => apply recordOf_Ok in H as [? ?]
  | H : idField _ _ = Ok _ |- _ => apply idField_Ok in H as [? ?]
  | H : hashField _ _ = Ok _ |- _ => apply hashField_Ok in H as [? ?]
  | H : limitedText _ _ _ = Ok _ |- _ => apply limitedText_Ok in H as [? ?]
  | H : flagField _ _ = Ok _ |- _ => apply flagField_Ok in H
  | H : positiveOf _ _ = Ok _ |- _ => apply positiveOf_Ok in H as [? ?]
  | H : countOf _ _ = Ok _ |- _ => apply countOf_Ok in H as [? ?]
  | H : stateOf _ _ _ = Ok _ |- _ => apply stateOf_Ok in H
  | H : boundedArray _ _ _ _ = Ok _ |- _ => apply boundedArray_Ok in H as [? ?]
  | H : stringTexts _ _ = Ok _ |- _ => apply stringTexts_Ok in H as [? ?]
  | H : criterionIds _ = Ok _ |- _ => apply criterionIds_Ok in H as (? & ? & ?)
  | H : unique_ids _ = Ok _ |- _ => apply unique_ids_Ok in H
  | H : JObj _ = JObj _ |- _ => injection H as H
  end.
Ltac checks := repeat (inv_ok_step || check_inv); subst.

(** ** Reading an object back *)

(** [f] reads [g x] as [x], if it accepts it. *)
Definition reads {A} (f : jsval → res A) (g : A → jsval) : Prop := ∀ x y, f (g x) = Ok y → y = x.

Lemma opt_res_reads {A} (f : jsval → res A) g o o' :
  reads f g → (∀ x, g x ≠ JUndef) → opt_res f (undef_prop g o) = Ok o' → o' = o.
Proof.
  intros Hf Hg. destruct o as [x|]; cbn; [|congruence].
  destruct (g x) eqn:Hx; [by destruct (Hg x)|..]; cbn; rewrite <-Hx; intros (y & Hy & ->)%fmap_Ok; f_equal; by apply Hf.
Qed.
Lemma mapM_reads {A} (f : jsval → res A) g l l' : reads f g → mapM f (g <$> l) = Ok l' → l' = l.
Proof.
  intros Hf Hm%mapM_Ok. revert l' Hm. induction l as [|x l IH]; intros l' Hm; inversion Hm; subst; [done|].
  f_equal; [by apply Hf|by apply IH].
Qed.

Lemma get_opt_prop_ne_nil {A} k k' (g : A → jsval) o :
  String.eqb k k' = false → get (opt_prop k g o) k' = JUndef.
Proof. intros Hk. rewrite <-(app_nil_r (opt_prop _ _ _)). by rewrite get_opt_prop_ne. Qed.

(** Evaluate the reads of a literal with optional properties at its end. *)
Ltac read_tail :=
  repeat first
  [ rewrite get_opt_prop_ne by reflexivity
  | rewrite get_opt_prop_ne_nil by reflexivity
  | rewrite get_opt_prop_eq_nil ]; try reflexivity.
Ltac read_in H :=
  cbn [get String.eqb Ascii.eqb Bool.eqb app] in H;
  repeat (first
  [ rewrite get_opt_prop_ne in H by reflexivity
  | rewrite get_opt_prop_ne_nil in H by reflexivity
  | rewrite get_opt_prop_eq in H by (cbn [get String.eqb Ascii.eqb Bool.eqb app]; read_tail)
  | rewrite get_opt_prop_eq_nil in H ]; cbn [get String.eqb Ascii.eqb Bool.eqb app] in H).
Ltac read_all :=
  repeat match goal with H : context [get (_ :: _) _] |- _ => progress read_in H end;
  repeat match goal with
  | H : JStr _ = JStr _ |- _ => injection H as H
  | H : JBool _ = JBool _ |- _ => injection H as H
  | H : JInt _ = JInt _ |- _ => injection H as H
  | H : JArr _ = JArr _ |- _ => injection H as H
  | H : JStrs _ = JStrs _ |- _ => apply JStrs_inj in H
  | H : enum_name _ = enum_name _ |- _ => apply (inj enum_name) in H
  end; subst.

Lemma reads_id code : reads (idField code) JStr.
Proof. by intros x y [[= ->] _]%idField_Ok. Qed.
Lemma reads_hash code : reads (hashField code) JStr.
Proof. by intros x y [[= ->] _]%hashField_Ok. Qed.
Lemma reads_text code n : reads (limitedText code n) JStr.
Proof. by intros x y [[= ->] _]%limitedText_Ok. Qed.
Lemma reads_flag code : reads (flagField code) JBool.
Proof. by intros x y [= ->]%flagField_Ok. Qed.
Lemma reads_texts n : reads (stringTexts n) JStrs.
Proof. by intros x y [->%JStrs_inj _]%stringTexts_Ok. Qed.
Lemma reads_array code lo hi : reads (boundedArray code lo hi) JArr.
Proof. by intros x y [[= ->] _]%boundedArray_Ok. Qed.

Create HintDb reads discriminated.
#[export] Hint Resolve reads_id reads_hash reads_text reads_flag reads_texts reads_array : reads.
(** The optional and listed parts of an object. *)
Ltac parts :=
  repeat match goal with
  | H : opt_res _ (undef_prop _ _) = Ok _ |- _ => apply opt_res_reads in H; [|solve [eauto with reads]|done]
  | H : mapM _ (_ <$> _) = Ok _ |- _ => apply mapM_reads in H; [|solve [eauto with reads]]
  | H : ?f (?g ?x) = Ok _ |- _ =>
      let R := fresh in assert (reads f g) as R by solve [eauto with reads]; apply R in H; clear R
  end; subst.

Lemma reads_policy : reads validateReviewPolicyV1 Policy_js.
Proof. intros [] y. unfold validateReviewPolicyV1, Policy_js. intros Hy. checks. read_all. done. Qed.
Lemma reads_attempt : reads validateItemAttempt Attempt_js.
Proof. intros [] y. unfold validateItemAttempt, Attempt_js. intros Hy. checks. read_all. parts. done. Qed.
Lemma reads_decision : reads validateDecisionRef Decision_js.
Proof. intros [] y. unfold validateDecisionRef, Decision_js. intros Hy. checks. read_all. done. Qed.
Lemma reads_scope : reads validateScope Scope_js.
Proof.
  intros [itemId|] y; unfold validateScope, Scope_js; intros H.
  - change (is_str _ "item") with true in H. cbv iota beta zeta in H. checks. read_all. done.
  - change (is_str _ "item") with false in H. change (is_str _ "final") with true in H.
    cbv iota beta zeta in H. checks. done.
Qed.
#[export] Hint Resolve reads_policy reads_attempt reads_decision reads_scope : reads.

Lemma reads_prepared : reads validatePreparedReview Prepared_js.
Proof. intros [] y. unfold validatePreparedReview, Prepared_js. intros Hy. checks. read_all. parts. done. Qed.
#[export] Hint Resolve reads_prepared : reads.

Section Reads.
Context `{JsEngine} `{JsCrypto}.

Lemma reads_block : reads validateBlock Block_js.
Proof. intros [] y. unfold validateBlock, Block_js. intros Hy. checks. read_all. parts. done. Qed.
#[local] Hint Resolve reads_block : reads.

Lemma reads_task_contract code : reads (validateTaskContract code) TaskContract_js.
Proof. intros [] y. unfold validateTaskContract, TaskContract_js. intros Hy. checks. read_all. done. Qed.
#[local] Hint Resolve reads_task_contract : reads.

Lemma reads_item : reads validateItemProjection Item_js.
Proof. intros [] y. unfold validateItemProjection, Item_js. intros Hy. checks. read_all. parts. done. Qed.
#[local] Hint Resolve reads_item : reads.

Lemma validateMechanicalCheck_Ok v w : validateMechanicalCheck v = Ok w → w = v.
Proof. unfold validateMechanicalCheck. destruct v; try done. destruct (mget _ _); [|done]. intros Hy. checks. done. Qed.

Lemma reads_criterion : reads validateReviewCriterionV1 (JObj ∘ Criterion_js).
Proof.
  intros [id description required reviewRequired [check|]] y; unfold validateReviewCriterionV1, Criterion_js; cbn [compose
    cri_id cri_description cri_required cri_reviewRequired cri_check is_none]; intros Hy.
  - change (is_str _ "mechanical") with true in Hy. cbv iota beta zeta in Hy. checks. read_all. parts.
    match goal with Hc : validateMechanicalCheck _ = Ok _ |- _ => apply validateMechanicalCheck_Ok in Hc as -> end.
    by read_all.
  - change (is_str _ "mechanical") with false in Hy. change (is_str _ "semantic") with true in Hy.
    cbv iota beta zeta in Hy. checks. read_all. parts. done.
Qed.
#[local] Hint Resolve reads_criterion : reads.

Lemma picked_criterion_js c o1 o2 d s :
  picked_criterion (Criterion_js c ++ [("definitionDigest", JStr d); ("status", JStr s)]%string
    ++ opt_prop "definitionArtifactRef" JStr o1 ++ opt_prop "supersedesCriterionId" JStr o2) = JObj (Criterion_js c).
Proof.
  destruct c as [id description required [b|] [check|]]; unfold picked_criterion, Criterion_js;
    cbn [cri_id cri_description cri_required cri_reviewRequired cri_check is_none opt_prop app get String.eqb Ascii.eqb
      Bool.eqb is_undef]; read_tail.
Qed.

Lemma reads_criterion_projection : reads validateCriterionProjection CriterionProjection_js.
Proof.
  intros [c digest ref status by_id] y. unfold validateCriterionProjection, CriterionProjection_js.
  cbn [crp_criterion crp_definitionDigest crp_definitionArtifactRef crp_status crp_supersedesCriterionId].
  intros Hy. cbn [mbind res_bind] in Hy. rewrite picked_criterion_js in Hy. checks.
  match goal with Hc : validateReviewCriterionV1 _ = Ok _ |- _ => apply reads_criterion in Hc as -> end.
  destruct c as [id description required [b|] [check|]]; unfold Criterion_js in *;
    cbn [cri_id cri_description cri_required cri_reviewRequired cri_check is_none opt_prop app] in *;
    read_all; parts; done.
Qed.
#[local] Hint Resolve reads_criterion_projection : reads.

(** What the last step of the reducer returns is what it was given. *)
Lemma reads_projection : reads validateReviewPlanProjectionV1 Projection_js.
Proof.
  intros [] y. unfold validateReviewPlanProjectionV1, Projection_js. intros Hy. checks. read_all. parts. done.
Qed.
End Reads.

(** ** Well-formedness *)

Definition count_in_range (z : Z) : Prop := 0 ≤ z ≤ MAX_SAFE_INTEGER.

Record review_item_wf (known : list string) (i : ReviewPlanItemProjectionV1) : Prop := {
  iw_id : SAFE_ID (itm_id i) = true;
  iw_criteria : itm_criterionIds i ⊆ known ∧ NoDup (itm_criterionIds i) ∧
    one_of_bounds 1 MAX_REVIEW_CRITERIA (itm_criterionIds i);
  iw_counts : count_in_range (itm_order i) ∧ count_in_range (itm_attemptCount i);
  iw_refs : one_of_bounds 0 256 (itm_taskRefs i) ∧
    one_of_bounds 0 MAX_DURABLE_ATTEMPT_EVIDENCE_REFS (itm_evidenceRefs i);
  iw_accepted : is_Some (itm_acceptedEvidenceRefs i) ↔ is_Some (itm_acceptedAttemptId i);
  iw_state : itm_state i = RI_accepted → is_Some (itm_acceptedEvidenceRefs i);
}.
Definition plan_criterion_ids (p : ReviewPlanProjectionV1) : list string :=
  (λ c, cri_id (crp_criterion c)) <$> rpl_criteria p.
Record review_plan_wf `{JsEngine} `{JsCrypto} (p : ReviewPlanProjectionV1) : Prop := {
  pw_planId : SAFE_ID (rpl_planId p) = true;
  pw_revision : 0 < rpl_revision p ≤ MAX_SAFE_INTEGER;
  pw_contract : ∀ t, rpl_taskContract p = Some t → canonicalDigestV1 (JStr (tct_text t)) = Ok (tct_digest t);
  pw_policy : Forall (λ z, 1 ≤ z ≤ 32) [pol_maxRepairAttemptsPerItem (rpl_policy p); pol_maxReplans (rpl_policy p);
    pol_maxReviewAttempts (rpl_policy p); pol_maxNoProgressAttempts (rpl_policy p)];
  pw_criteria : NoDup (plan_criterion_ids p) ∧ one_of_bounds 1 MAX_REVIEW_CRITERIA (rpl_criteria p);
  pw_items : NoDup (itm_id <$> rpl_items p) ∧ one_of_bounds 1 MAX_ITEMS (rpl_items p);
  pw_item : ∀ i, i ∈ rpl_items p → review_item_wf (plan_criterion_ids p) i;
  pw_counts : count_in_range (rpl_attemptCount p) ∧ count_in_range (rpl_replanCount p) ∧
    count_in_range (rpl_noProgressCount p);
}.

Lemma is_none_Some {A} (o : option A) : is_none o = false ↔ is_Some o.
Proof. destruct o; naive_solver. Qed.
Lemma is_none_eqb {A B} (o : option A) (o' : option B) :
  Bool.eqb (is_none o) (is_none o') = true ↔ (is_Some o ↔ is_Some o').
Proof. rewrite Bool.eqb_true_iff. destruct o, o'; cbn; unfold is_Some; naive_solver. Qed.

Section Sound.
Context `{JsEngine} `{JsCrypto}.

Lemma validateItemProjection_wf known v i :
  validateItemProjection v = Ok i → itm_criterionIds i ⊆ known → review_item_wf known i.
Proof.
  unfold validateItemProjection. intros Hi Hk. checks. split_bool.
  split; cbn in *; try done.
  - by apply is_none_eqb.
  - intros ->. apply is_none_Some. by match goal with Hx : _ && _ = false |- _ => apply andb_false_iff in Hx as [Hx|Hx] end.
Qed.

Lemma validatePolicy_wf v p : validateReviewPolicyV1 v = Ok p →
  Forall (λ z, 1 ≤ z ≤ 32) [pol_maxRepairAttemptsPerItem p; pol_maxReplans p; pol_maxReviewAttempts p;
    pol_maxNoProgressAttempts p].
Proof.
  unfold validateReviewPolicyV1. intros Hp. checks. cbn.
  match goal with Hx : existsb _ _ = false |- _ => cbn in Hx end. split_bool.
  repeat constructor; lia.
Qed.

Lemma validateTaskContract_wf code v t :
  validateTaskContract code v = Ok t → canonicalDigestV1 (JStr (tct_text t)) = Ok (tct_digest t).
Proof.
  unfold validateTaskContract. intros Ht. checks. split_bool. cbn [tct_text tct_digest].
  match goal with Hx : get _ "text" = JStr _, Hy : canonicalDigestV1 _ = Ok _ |- _ => rewrite Hx in Hy; rewrite Hy end.
  f_equal. symmetry. by apply String.eqb_eq.
Qed.

Lemma validateReviewPlanProjectionV1_wf v p : validateReviewPlanProjectionV1 v = Ok p → review_plan_wf p.
Proof.
  unfold validateReviewPlanProjectionV1. intros Hp. checks. split; cbn; try done.
  - intros t ->. match goal with Hx : opt_res (validateTaskContract _) _ = Ok _ |- _ =>
      revert Hx; unfold opt_res; destruct (get _ "taskContract"); try done end;
      intros (? & Ht & [= <-])%fmap_Ok; by apply validateTaskContract_wf in Ht.
  - by eapply validatePolicy_wf.
  - match goal with Hx : mapM validateCriterionProjection _ = Ok _ |- _ => apply mapM_Ok, Forall2_length in Hx end.
    split; [done|]. unfold one_of_bounds in *. congruence.
  - match goal with Hx : mapM validateItemProjection _ = Ok _ |- _ => apply mapM_Ok, Forall2_length in Hx end.
    split; [done|]. unfold one_of_bounds in *. congruence.
  - intros i Hi. match goal with Hx : mapM validateItemProjection _ = Ok _ |- _ =>
      apply mapM_Ok in Hx; destruct (Forall2_r_elem _ _ _ _ Hx Hi) as (w & _ & Hw) end.
    eapply validateItemProjection_wf; [exact Hw|].
    match goal with Hx : existsb _ _ = false |- _ => apply existsb_false in Hx; rewrite Forall_forall in Hx;
      specialize (Hx i Hi) end.
    intros c Hc. match goal with Hx : existsb _ _ = false |- _ => apply existsb_false in Hx;
      rewrite Forall_forall in Hx; specialize (Hx c Hc); apply negb_false_iff, memb_true in Hx; exact Hx end.
Qed.

(** Both ways through the reducer end with the validator. *)
Lemma reduce_review_plan_Ok current event p :
  reduceReviewPlanEventV1 current event = Ok p →
  review_plan_wf p ∧ ∃ common data, validateReviewPlanEventV1 event = Ok (common, data) ∧
  match data with
  | review_created input planHash contract => current = None ∧ create_plan common input planHash contract = Ok p
  | _ => ∃ plan, current = Some plan ∧ requireCurrent current common (is_revised data) = Ok plan ∧
                 change_plan plan common data = Ok p
  end.
Proof.
  unfold reduceReviewPlanEventV1. intros ([common data] & Hv & Hp)%bind_Ok.
  assert (∀ plan, requireCurrent current common (is_revised data) = Ok plan → current = Some plan) as Hcur.
  { unfold requireCurrent. destruct current; [|done]. intros plan Hc. by inv_ok. }
  assert (∀ next, validateReviewPlanProjectionV1 (Projection_js next) = Ok p → review_plan_wf p ∧ next = p) as Hend.
  { intros next Hn. split; [by eapply validateReviewPlanProjectionV1_wf|]. symmetry. by apply reads_projection. }
  destruct data; cbv iota beta in Hp;
    try (inv_ok; match goal with Hn : validateReviewPlanProjectionV1 _ = Ok _ |- _ => apply Hend in Hn as [? <-] end;
         split; [done|]; do 2 eexists; split; [exact Hv|]; cbn; naive_solver).
  apply bind_Ok in Hp as ([] & Ht%fail_if_Ok%negb_false_iff & Hp).
  assert (current = None) as -> by (by destruct current).
  assert (review_plan_wf p) as Hwf by (revert Hp; unfold create_plan; intros Hp; inv_ok; by eapply validateReviewPlanProjectionV1_wf).
  split; [done|]. do 2 eexists. split; [exact Hv|]. done.
Qed.
End Sound.
