(* ===== verification/ReviewPlanInv.v ===== *)
(** * What the history of a review plan establishes

    An invariant of the items, kept by every event, and the steps that the state
    of the plan can take. *)

From S2P Require Import Prelude Js CanonicalJson ReviewPlan ReviewPlanEvents ReviewPlanSpec.
Local Open Scope Z_scope.

(** ** Histories *)

Section History.
Context `{JsEngine} `{JsCrypto}.

(** The projection of the events, from the one before them. *)
Fixpoint reduce_review_events (current : option ReviewPlanProjectionV1) (events : list ReviewPlanJournalEventV1) :
    res (option ReviewPlanProjectionV1) :=
  match events with
  | [] => Ok current
  | event :: events => p ← reduceReviewPlanEventV1 current event; reduce_review_events (Some p) events
  end.

(** The decision that an event records. *)
Definition data_decision (data : ReviewPlanEventDataV1) : option ReviewDecisionRefV1 :=
  match data with
  | review_recorded _ _ value => match validateReviewDecisionRefV1 value with Ok d => Some d | Err _ => None end
  | _ => None
  end.
Definition recorded_decision (event : ReviewPlanJournalEventV1) : option ReviewDecisionRefV1 :=
  match validateReviewPlanEventV1 event with Ok (_, data) => data_decision data | Err _ => None end.

Lemma reduce_review_events_app current a b :
  reduce_review_events current (a ++ b) = (c ← reduce_review_events current a; reduce_review_events c b).
Proof.
  revert current. induction a as [|event a IH]; intros current; cbn; [done|].
  destruct (reduceReviewPlanEventV1 current event); cbn; [apply IH|done].
Qed.

(** A property of the projection that every event keeps holds of every history. *)
Lemma reduce_review_events_ind (P : list ReviewPlanJournalEventV1 → ReviewPlanProjectionV1 → Prop) :
  (∀ past current event p,
    reduce_review_events None past = Ok current → reduceReviewPlanEventV1 current event = Ok p →
    (∀ q, current = Some q → P past q) → P (past ++ [event]) p) →
  ∀ events p, reduce_review_events None events = Ok (Some p) → P events p.
Proof.
  intros Hstep events. induction events as [|event events IH] using rev_ind; intros p; [done|].
  rewrite reduce_review_events_app. intros (current & Hc & Hp)%bind_Ok. cbn in Hp.
  apply bind_Ok in Hp as (p' & Hp & [= ->]). eapply Hstep; [exact Hc|exact Hp|].
  intros q ->. by apply IH.
Qed.
End History.

(** ** Items *)

Lemma mutableItem_Ok plan itemId item :
  mutableItem plan itemId = Ok item → item ∈ rpl_items plan ∧ itm_id item = itemId.
Proof.
  unfold mutableItem. destruct (findb _ _) as [i|] eqn:Hf; [|done]. intros [= ->].
  apply findb_Some in Hf as [? Hi%String.eqb_eq]. done.
Qed.
Lemma requireAttempt_Ok item attemptId a :
  requireAttempt item attemptId = Ok a → itm_currentAttempt item = Some a ∧ attemptId = Some (iat_itemAttemptId a).
Proof.
  unfold requireAttempt. destruct (itm_currentAttempt item) as [b|]; [|done]. intros (u & Ht%fail_if_Ok & [= ->])%bind_Ok.
  apply bool_decide_eq_false, dec_stable in Ht. by split.
Qed.
Lemma open_attempt_Ok plan itemId attemptId found :
  open_attempt plan itemId attemptId = Ok found →
  found.1 ∈ rpl_items plan ∧ itm_id found.1 = itemId ∧ itm_currentAttempt found.1 = Some found.2.
Proof.
  unfold open_attempt. intros (i & [? ?]%mutableItem_Ok & (a & [? _]%requireAttempt_Ok & [= <-])%bind_Ok)%bind_Ok. done.
Qed.

Lemma replace_item_elem item items i : i ∈ replace_item item items → i = item ∨ i ∈ items.
Proof.
  induction items as [|j items IH]; cbn; [by right|]. destruct (String.eqb _ _); rewrite !elem_of_cons; naive_solver.
Qed.
Lemma replace_item_in item old items :
  old ∈ items → itm_id old = itm_id item → item ∈ replace_item item items.
Proof.
  intros Hin Hid. induction Hin as [old items|old j items Hin IH]; cbn.
  - rewrite Hid, String.eqb_refl. by left.
  - destruct (String.eqb _ _); [by left|right; by apply IH].
Qed.
Lemma appendUnique_Ok values value l : appendUnique values value = Ok l → value ∉ values ∧ l = values ++ [value].
Proof. unfold appendUnique. intros (u & Hm%fail_if_Ok%memb_false & [= ->])%bind_Ok. done. Qed.
Lemma append_defined_NoDup values value l : append_defined values value = Ok l → NoDup values → NoDup l.
Proof.
  destruct value as [v|]; cbn; [|by intros [= ->]]. intros [Hv ->]%appendUnique_Ok Hd.
  apply NoDup_app. split; [done|]. split; [|apply NoDup_singleton].
  intros x Hx ->%list_elem_of_singleton. done.
Qed.

(** ** The invariant of an item

    An item is accepted exactly when it keeps the evidence of its acceptance, and
    then one of the decisions [ds] accepted it and no attempt of it is open. *)
Record item_ok (ds : list ReviewDecisionRefV1) (i : ReviewPlanItemProjectionV1) : Prop := {
  io_evidence : is_Some (itm_acceptedEvidenceRefs i) → itm_state i = RI_accepted;
  io_review : itm_state i = RI_accepted → itm_currentAttempt i = None ∧
    ∃ d, itm_lastReview i = Some d ∧ dcs_verdict d = RV_accepted ∧ d ∈ ds;
  io_refs : NoDup (itm_taskRefs i) ∧ NoDup (itm_evidenceRefs i);
  io_number : ∀ a, itm_currentAttempt i = Some a → iat_attemptNumber a = itm_attemptCount i;
}.

Lemma item_ok_mono ds ds' i : ds ⊆ ds' → item_ok ds i → item_ok ds' i.
Proof. intros Hsub [He Hr Hd Hn]. split; try done. intros Ha. destruct (Hr Ha) as (? & d & ? & ? & ?). naive_solver. Qed.

Lemma item_open ds i a : item_ok ds i → itm_currentAttempt i = Some a → itm_state i ≠ RI_accepted.
Proof. intros Hi Ha Hs. destruct (io_review _ _ Hi Hs) as [Hn _]. congruence. Qed.
Lemma item_no_evidence ds i : item_ok ds i → itm_state i ≠ RI_accepted → itm_acceptedEvidenceRefs i = None.
Proof. intros Hi Hs. apply eq_None_not_Some. by intros ?%(io_evidence _ _ Hi). Qed.

Lemma new_item_ok ds order d : item_ok ds (new_item order d).
Proof. split; cbn; try done. by split; constructor. Qed.


Section Steps.
Context `{JsEngine} `{JsCrypto}.
Implicit Types (plan p : ReviewPlanProjectionV1) (ds : list ReviewDecisionRefV1).

Definition items_ok ds p : Prop := ∀ i, i ∈ rpl_items p → item_ok ds i.

(** The items after one of them has been replaced. *)
Lemma put_item_ok ds plan item : items_ok ds plan → item_ok ds item → items_ok ds (put_item plan item).
Proof. intros Hall Hitem i [->|Hi]%replace_item_elem; auto. Qed.
Lemma unfocus_ok ds plan attemptId : items_ok ds plan → items_ok ds (unfocus plan attemptId).
Proof. unfold unfocus. by case_match. Qed.

Lemma revise_plan_ok ds plan rev from input planHash p :
  revise_plan plan rev from input planHash = Ok p → items_ok ds plan → items_ok ds p.
Proof.
  unfold revise_plan. intros Hp Hok. inv_ok. intros i Hi. cbn in Hi. apply elem_of_lookup_imap in Hi as (n & d & -> & _).
  unfold revised_item. destruct (findb _ _) as [prior|] eqn:Hf; [|apply new_item_ok].
  destruct (keeps_accepted _ _); [|apply new_item_ok]. apply findb_Some in Hf as [Hin _].
  destruct (Hok _ Hin) as [He Hr Hd Hn]. by split.
Qed.

(** The states that an item reaches without its review are not accepted. *)
Lemma change_item_state_ok ds plan itemId state block p :
  change_item_state plan itemId state block = Ok p → review_plan_wf p → items_ok ds plan → items_ok ds p.
Proof.
  unfold change_item_state. intros Hp Hwf Hok. inv_ok.
  match goal with Hm : mutableItem _ _ = Ok ?i |- _ => apply mutableItem_Ok in Hm as [Hin Hid]; rename i into old end.
  match goal with Ht : assertReviewPlanItemTransitionV1 _ _ = Ok _ |- _ =>
    apply fail_if_Ok, negb_false_iff, bool_decide_eq_true in Ht; rename Ht into Hstep end.
  assert (itm_state old ≠ RI_accepted) as Hold by (intros Ho; rewrite Ho in Hstep; by apply elem_of_nil in Hstep).
  pose proof (item_no_evidence _ _ (Hok _ Hin) Hold) as Hev.
  match goal with |- items_ok _ (put_item _ ?i) => set (new := i) in * end.
  assert (itm_state new ≠ RI_accepted) as Hnew.
  { intros Hs. destruct (iw_state _ _ (pw_item _ Hwf new (replace_item_in new old _ Hin eq_refl)) Hs) as [l Hl].
    cbn in Hl. congruence. }
  apply put_item_ok; [done|]. destruct (Hok _ Hin) as [He Hr Hd Hn].
  split; cbn; [intros []; congruence|by intros ?%Hnew|done|done].
Qed.

Lemma record_review_ok ds plan preparedReviewId reviewRequestId value d p :
  record_review plan preparedReviewId reviewRequestId value = Ok p → validateReviewDecisionRefV1 value = Ok d →
  items_ok ds plan → items_ok (ds ++ [d]) p.
Proof.
  intros Hp Hd Hok. assert (items_ok (ds ++ [d]) plan) as Hok'.
  { intros i Hi. eapply item_ok_mono; [|by apply Hok]. set_solver. }
  unfold record_review in Hp. rewrite Hd in Hp. inv_ok. destruct (prp_scope _) as [itemId|]; inv_ok; [|exact Hok'].
  match goal with Hm : mutableItem _ _ = Ok ?i |- _ => apply mutableItem_Ok in Hm as [Hin Hid]; rename i into old end.
  match goal with Hr : requireAttempt _ _ = Ok ?a |- _ => apply requireAttempt_Ok in Hr as [Hopen _]; rename a into attempt end.
  pose proof (item_open _ _ _ (Hok' _ Hin) Hopen) as Hold. pose proof (item_no_evidence _ _ (Hok' _ Hin) Hold) as Hev.
  destruct (Hok' _ Hin) as [He Hr Hrefs Hn].
  apply unfocus_ok, put_item_ok; [done|]. unfold reviewed_item. case_bool_decide as Hv; split; cbn; try done.
  - intros _. by rewrite Hv.
  - intros _. split; [done|]. eexists. split_and!; [done|done|set_solver].
  - rewrite Hev. by intros [].
  - by destruct (dcs_verdict _).
Qed.

(** What the other events do to an item keeps it well. *)
Lemma open_item_ok ds plan itemId attemptId found :
  open_attempt plan itemId attemptId = Ok found → items_ok ds plan →
  item_ok ds found.1 ∧ itm_state found.1 ≠ RI_accepted ∧ itm_acceptedEvidenceRefs found.1 = None ∧
  itm_currentAttempt found.1 = Some found.2.
Proof.
  intros (Hin & _ & Ha)%open_attempt_Ok Hok. pose proof (Hok _ Hin) as Hi. pose proof (item_open _ _ _ Hi Ha) as Hs.
  split_and!; [done|done|by eapply item_no_evidence|done].
Qed.

Lemma start_attempt_ok ds plan itemId attemptId n p :
  start_attempt plan itemId attemptId n = Ok p → items_ok ds plan → items_ok ds p.
Proof.
  unfold start_attempt. intros Hp Hok. inv_ok.
  match goal with Hm : mutableItem _ _ = Ok ?i |- _ => apply mutableItem_Ok in Hm as [Hin _]; rename i into old end.
  unfold transition_if in *. inv_ok. split_bool.
  assert (itm_state old ≠ RI_accepted) as Hold.
  { intros Ho. match goal with Hs : itm_state _ ∈ _ |- _ => rewrite Ho in Hs; set_solver end. }
  pose proof (item_no_evidence _ _ (Hok _ Hin) Hold) as Hev. destruct (Hok _ Hin) as [He Hr Hd Hn].
  apply (put_item_ok ds plan); [done|].
  split; cbn; [rewrite Hev; by intros []|done|done|by intros a [= <-]].
Qed.

Lemma close_attempt_ok ds plan itemId attemptId p :
  close_attempt plan itemId attemptId = Ok p → items_ok ds plan → items_ok ds p.
Proof.
  unfold close_attempt. intros (found & Hf & [= <-])%bind_Ok Hok.
  destruct (open_item_ok _ _ _ _ _ Hf Hok) as ([He Hr Hd Hn] & Hs & Hev & Ha).
  apply unfocus_ok, put_item_ok; [done|]. split; cbn; [rewrite Hev; by intros []|by intros ?%Hs|done|done].
Qed.

Lemma bind_execution_ok ds plan itemId attemptId taskRef p :
  bind_execution plan itemId attemptId taskRef = Ok p → items_ok ds plan → items_ok ds p.
Proof.
  unfold bind_execution. intros (found & Hf & (refs & Hrefs & [= <-])%bind_Ok)%bind_Ok Hok.
  destruct (open_item_ok _ _ _ _ _ Hf Hok) as ([He Hr [Hd1 Hd2] Hn] & Hs & Hev & Ha).
  apply put_item_ok; [done|]. split; cbn; [done|done| |done].
  split; [|done]. by eapply (append_defined_NoDup _ (Some taskRef)).
Qed.

Lemma record_tool_ok ds plan itemId attemptId resultRef effectReceiptRef p :
  record_tool plan itemId attemptId resultRef effectReceiptRef = Ok p → items_ok ds plan → items_ok ds p.
Proof.
  unfold record_tool. intros (found & Hf & Hp)%bind_Ok Hok. inv_ok.
  destruct (open_item_ok _ _ _ _ _ Hf Hok) as ([He Hr [Hd1 Hd2] Hn] & Hs & Hev & Ha).
  apply put_item_ok; [done|]. split; cbn; [done|by intros ?%Hs| |intros a [= <-]; cbn; by apply Hn].
  split; [done|]. do 2 (eapply append_defined_NoDup; [eassumption|]). done.
Qed.

Lemma prepare_review_ok ds plan value p :
  prepare_review plan value = Ok p → items_ok ds plan → items_ok ds p.
Proof.
  unfold prepare_review. intros Hp Hok. inv_ok. destruct (prp_scope _); inv_ok; [|done].
  match goal with Hm : mutableItem _ _ = Ok _ |- _ => apply mutableItem_Ok in Hm as [Hin _] end.
  apply put_item_ok; [done|]. destruct (Hok _ Hin). by split.
Qed.

Lemma request_review_ok ds plan preparedReviewId p :
  request_review plan preparedReviewId = Ok p → items_ok ds plan → items_ok ds p.
Proof.
  unfold request_review. intros Hp Hok. inv_ok. destruct (prp_scope _); inv_ok; [|done].
  match goal with Hm : mutableItem _ _ = Ok _ |- _ => apply mutableItem_Ok in Hm as [Hin _] end.
  match goal with Hr : requireAttempt _ _ = Ok _ |- _ => apply requireAttempt_Ok in Hr as [Hopen _] end.
  pose proof (item_open _ _ _ (Hok _ Hin) Hopen) as Hold. pose proof (item_no_evidence _ _ (Hok _ Hin) Hold) as Hev.
  destruct (Hok _ Hin) as [He Hr Hd Hn].
  apply put_item_ok; [done|]. split; cbn; [rewrite Hev; by intros []|done|done|intros a [= <-]; cbn; by apply Hn].
Qed.

Lemma resolve_review_block_ok ds plan blockId p :
  resolve_review_block plan blockId = Ok p → items_ok ds plan → items_ok ds p.
Proof.
  unfold resolve_review_block. destruct (has_block _ _); [by intros [= <-]|].
  destruct (findb _ _) as [item|] eqn:Hf; [|done]. intros [= <-] Hok. apply findb_Some in Hf as [Hin _].
  destruct (Hok _ Hin) as [He Hr Hd Hn]. apply put_item_ok; [done|].
  split; cbn; try done; case_bool_decide as Hb; try done. intros Hs%He. congruence.
Qed.

Lemma change_plan_state_ok ds plan state block p :
  change_plan_state plan state block = Ok p → items_ok ds plan → items_ok ds p.
Proof.
  unfold change_plan_state. intros Hp Hok. inv_ok. case_bool_decide; [|done].
  intros i Hi. cbn in Hi. apply list_elem_of_fmap in Hi as (j & -> & Hj).
  destruct (Hok _ Hj). by split.
Qed.

(** The decisions that the events have recorded. *)
Definition decisions (events : list ReviewPlanJournalEventV1) : list ReviewDecisionRefV1 :=
  omap recorded_decision events.

Lemma change_plan_ok ds plan common data p :
  change_plan plan common data = Ok p → review_plan_wf p → items_ok ds plan →
  items_ok (ds ++ option_list (data_decision data)) p.
Proof.
  intros Hp Hwf Hok.
  assert (items_ok ds p → items_ok (ds ++ option_list (data_decision data)) p) as Hmono.
  { intros Hi i Hin. eapply item_ok_mono; [|by apply Hi]. set_solver. }
  destruct data; cbn [change_plan] in Hp; try solve [apply Hmono; first
    [ by eauto using revise_plan_ok, change_item_state_ok, start_attempt_ok, close_attempt_ok, bind_execution_ok,
        record_tool_ok, prepare_review_ok, request_review_ok, resolve_review_block_ok, change_plan_state_ok
    | inv_ok; exact Hok ]].
  cbn [data_decision]. destruct (validateReviewDecisionRefV1 decision) as [d|] eqn:Hd.
  - by eapply record_review_ok.
  - unfold record_review in Hp. rewrite Hd in Hp. by inv_ok.
Qed.

Lemma reduce_items_ok ds current event p :
  reduceReviewPlanEventV1 current event = Ok p → (∀ q, current = Some q → items_ok ds q) →
  items_ok (ds ++ option_list (recorded_decision event)) p.
Proof.
  intros (Hwf & common & data & Hv & Hp)%reduce_review_plan_Ok Hok. unfold recorded_decision. rewrite Hv.
  destruct data; try (destruct Hp as (plan & -> & _ & Hp); eapply change_plan_ok; [exact Hp|exact Hwf|by apply Hok]).
  destruct Hp as [-> Hp]. unfold create_plan in Hp. inv_ok.
  match goal with Hn : validateReviewPlanProjectionV1 _ = Ok _ |- _ => apply reads_projection in Hn as -> end.
  intros i Hi. apply elem_of_lookup_imap in Hi as (n & d & -> & _). apply new_item_ok.
Qed.

Lemma history_items_ok events p :
  reduce_review_events None events = Ok (Some p) → items_ok (decisions events) p.
Proof.
  apply (reduce_review_events_ind (λ events p, items_ok (decisions events) p)).
  intros past current event q _ Hq IH. unfold decisions. rewrite omap_app.
  assert (omap recorded_decision [event] = option_list (recorded_decision event)) as ->
    by (cbn; by destruct (recorded_decision event)).
  by eapply reduce_items_ok.
Qed.

Lemma history_wf events p : reduce_review_events None events = Ok (Some p) → review_plan_wf p.
Proof.
  apply (reduce_review_events_ind (λ _ p, review_plan_wf p)).
  intros past current event q _ Hq _. by apply reduce_review_plan_Ok in Hq as [? _].
Qed.

(** C18 Nothing but a review accepts an item: whatever the history of events, an
    item that the projection shows as accepted has no open attempt, keeps the
    evidence and the attempt of its acceptance, and its last review is an accepting
    decision that some event of the history recorded. *)
Theorem accepted_items_reviewed events p i :
  reduce_review_events None events = Ok (Some p) → i ∈ rpl_items p → itm_state i = RI_accepted →
  itm_currentAttempt i = None ∧ is_Some (itm_acceptedEvidenceRefs i) ∧ is_Some (itm_acceptedAttemptId i) ∧
  ∃ event decision, event ∈ events ∧ recorded_decision event = Some decision ∧
    itm_lastReview i = Some decision ∧ dcs_verdict decision = RV_accepted.
Proof.
  intros Hp Hi Hs. destruct (io_review _ _ (history_items_ok _ _ Hp i Hi) Hs) as (Ha & d & Hl & Hv & Hd).
  pose proof (history_wf _ _ Hp) as Hwf.
  pose proof (iw_state _ _ (pw_item _ Hwf i Hi) Hs) as He.
  split_and!; [done|done|exact (proj1 (iw_accepted _ _ (pw_item _ Hwf i Hi)) He)|].
  apply list_elem_of_omap in Hd as (event & Hin & Hevent). by exists event, d.
Qed.
End Steps.
