(* ===== verification/ReviewPlanSteps.v ===== *)
(** * The steps of a review plan

    What one event can do to the state of a plan and to its items, at a sample
    history of a plan with one item that a review accepts. *)

From S2P Require Import Prelude Js CanonicalJson Samples ReviewPlan ReviewPlanEvents ReviewSamples ReviewPlanSpec ReviewPlanInv.
Local Open Scope Z_scope.

(** ** Steps of the items *)

(** [j] is the item [i] with the same acceptance. *)
Definition same_acceptance (i j : ReviewPlanItemProjectionV1) : Prop :=
  itm_id j = itm_id i ∧ itm_state j = itm_state i ∧ itm_acceptedEvidenceRefs j = itm_acceptedEvidenceRefs i ∧
  itm_acceptedAttemptId j = itm_acceptedAttemptId i ∧ itm_acceptedInputDigest j = itm_acceptedInputDigest i ∧
  itm_lastReview j = itm_lastReview i.

(** An event within a revision leaves the items alone, changes one of them, or
    drops the prepared reviews; it changes no accepted item. *)
Inductive items_step (items : list ReviewPlanItemProjectionV1) : list ReviewPlanItemProjectionV1 → Prop :=
| items_kept : items_step items items
| item_changed old new :
    old ∈ items → itm_id new = itm_id old → (itm_state old = RI_accepted → same_acceptance old new) →
    items_step items (replace_item new items)
| items_unprepared : items_step items ((λ item, item_with_prepared item None) <$> items).

Lemma replace_item_other item items i :
  i ∈ items → itm_id i ≠ itm_id item → i ∈ replace_item item items.
Proof.
  intros Hin Hid. induction Hin as [i items|i j items Hin IH]; cbn.
  - apply String.eqb_neq in Hid as ->. by left.
  - destruct (String.eqb _ _); right; auto.
Qed.
Lemma items_step_acceptance items items' i :
  items_step items items' → NoDup (itm_id <$> items) → i ∈ items → itm_state i = RI_accepted →
  ∃ j, j ∈ items' ∧ same_acceptance i j.
Proof.
  intros [|old new Hold Hid Hacc|] Hd Hi Hs.
  - by exists i.
  - destruct (decide (itm_id i = itm_id old)) as [Heq|Hne].
    + assert (i = old) as -> by (by eapply (NoDup_fmap_elem itm_id)).
      exists new. split; [by eapply replace_item_in|auto].
    + exists i. split; [apply replace_item_other; congruence|done].
  - exists (item_with_prepared i None). split; [|done]. apply list_elem_of_fmap. by exists i.
Qed.

Section Steps.
Context `{JsEngine} `{JsCrypto}.

Implicit Types (plan p : ReviewPlanProjectionV1) (ds : list ReviewDecisionRefV1).

Definition plan_items_step plan p : Prop := items_step (rpl_items plan) (rpl_items p).

Lemma unfocus_step plan p attemptId : plan_items_step plan p → plan_items_step plan (unfocus p attemptId).
Proof. unfold unfocus. by case_match. Qed.
Lemma put_step plan old new :
  old ∈ rpl_items plan → itm_id new = itm_id old → itm_state old ≠ RI_accepted → plan_items_step plan (put_item plan new).
Proof. intros Hin Hid Hs. by apply (item_changed _ old). Qed.
(** The item of an open attempt is not accepted. *)
Lemma put_open_step ds plan itemId attemptId old a new :
  items_ok ds plan → mutableItem plan itemId = Ok old → requireAttempt old attemptId = Ok a → itm_id new = itm_id old →
  plan_items_step plan (put_item plan new).
Proof.
  intros Hok [Hin _]%mutableItem_Ok [Ha _]%requireAttempt_Ok Hid. apply (put_step _ old); [done..|].
  by eapply item_open; [apply Hok|].
Qed.
Lemma open_attempt_inv plan itemId attemptId found :
  open_attempt plan itemId attemptId = Ok found →
  mutableItem plan itemId = Ok found.1 ∧ requireAttempt found.1 (Some attemptId) = Ok found.2.
Proof. unfold open_attempt. intros (i & Hi & (a & Ha & [= <-])%bind_Ok)%bind_Ok. done. Qed.

Lemma change_item_state_step plan itemId state block p :
  change_item_state plan itemId state block = Ok p → plan_items_step plan p.
Proof.
  unfold change_item_state. intros Hp. inv_ok.
  match goal with Hm : mutableItem _ _ = Ok ?i |- _ => apply mutableItem_Ok in Hm as [Hin _] end.
  apply (put_step _ _ _ Hin); [done|]. intros Hs.
  match goal with Ht : assertReviewPlanItemTransitionV1 _ _ = Ok _ |- _ =>
    rewrite Hs in Ht; apply fail_if_Ok, negb_false_iff, bool_decide_eq_true, elem_of_nil in Ht; exact Ht end.
Qed.
Lemma start_attempt_step plan itemId attemptId n p :
  start_attempt plan itemId attemptId n = Ok p → plan_items_step plan p.
Proof.
  unfold start_attempt, transition_if. intros Hp. inv_ok. split_bool.
  match goal with Hm : mutableItem _ _ = Ok ?i |- _ => apply mutableItem_Ok in Hm as [Hin _] end.
  apply (put_step plan _ _ Hin); [done|]. intros Hs.
  match goal with Hx : itm_state _ ∈ _ |- _ => rewrite Hs in Hx; set_solver end.
Qed.
Lemma close_attempt_step ds plan itemId attemptId p :
  items_ok ds plan → close_attempt plan itemId attemptId = Ok p → plan_items_step plan p.
Proof.
  unfold close_attempt. intros Hok (found & [Hm Ha]%open_attempt_inv & [= <-])%bind_Ok. by eapply unfocus_step, put_open_step.
Qed.
Lemma bind_execution_step ds plan itemId attemptId taskRef p :
  items_ok ds plan → bind_execution plan itemId attemptId taskRef = Ok p → plan_items_step plan p.
Proof.
  unfold bind_execution. intros Hok (found & [Hm Ha]%open_attempt_inv & Hp)%bind_Ok. inv_ok. by eapply put_open_step.
Qed.
Lemma record_tool_step ds plan itemId attemptId resultRef effectReceiptRef p :
  items_ok ds plan → record_tool plan itemId attemptId resultRef effectReceiptRef = Ok p → plan_items_step plan p.
Proof.
  unfold record_tool. intros Hok (found & [Hm Ha]%open_attempt_inv & Hp)%bind_Ok. inv_ok. by eapply put_open_step.
Qed.
Lemma prepare_review_step ds plan value p :
  items_ok ds plan → prepare_review plan value = Ok p → plan_items_step plan p.
Proof.
  unfold prepare_review. intros Hok Hp. inv_ok. destruct (prp_scope _); inv_ok; [by eapply put_open_step|apply items_kept].
Qed.
Lemma request_review_step ds plan preparedReviewId p :
  items_ok ds plan → request_review plan preparedReviewId = Ok p → plan_items_step plan p.
Proof.
  unfold request_review. intros Hok Hp. inv_ok. destruct (prp_scope _); inv_ok; [by eapply put_open_step|apply items_kept].
Qed.
Lemma record_review_step ds plan preparedReviewId reviewRequestId value p :
  items_ok ds plan → record_review plan preparedReviewId reviewRequestId value = Ok p → plan_items_step plan p.
Proof.
  unfold record_review. intros Hok Hp. inv_ok. destruct (prp_scope _); inv_ok; [|apply items_kept].
  eapply unfocus_step, put_open_step; [done..|]. unfold reviewed_item. by case_bool_decide.
Qed.
Lemma resolve_review_block_step plan blockId p :
  resolve_review_block plan blockId = Ok p → plan_items_step plan p.
Proof.
  unfold resolve_review_block. destruct (has_block _ _); [intros [= <-]; apply items_kept|].
  destruct (findb _ _) as [item|] eqn:Hf; [|done]. intros [= <-]. apply findb_Some in Hf as [Hin _].
  apply (item_changed _ item); [done..|]. intros Hs. unfold same_acceptance. cbn. by rewrite bool_decide_eq_false_2 by congruence.
Qed.
Lemma change_plan_state_step plan state block p :
  change_plan_state plan state block = Ok p → plan_items_step plan p.
Proof.
  unfold change_plan_state. intros Hp. inv_ok. case_bool_decide; [apply items_unprepared|apply items_kept].
Qed.

Lemma change_plan_items_step ds plan common data p :
  change_plan plan common data = Ok p → items_ok ds plan → is_revised data = false → plan_items_step plan p.
Proof.
  intros Hp Hok Hr. destruct data; cbn [change_plan] in Hp; try done; try (inv_ok; apply items_kept);
    eauto using change_item_state_step, start_attempt_step, close_attempt_step, bind_execution_step,
      record_tool_step, prepare_review_step, request_review_step, record_review_step, resolve_review_block_step,
      change_plan_state_step.
Qed.

(** A revision keeps the acceptance of an item whose definition it repeats, and
    makes every other item of the new definition pending. *)
Definition same_definition (i j : ReviewPlanItemProjectionV1) : bool :=
  String.eqb (itm_title i) (itm_title j) && Bool.eqb (itm_reviewCheckpoint i) (itm_reviewCheckpoint j)
  && bool_decide (itm_criterionIds i = itm_criterionIds j).
Lemma revised_item_step items order d i :
  NoDup (itm_id <$> items) → i ∈ items → itm_state i = RI_accepted → itm_id (revised_item items order d) = itm_id i →
  if same_definition i (revised_item items order d) then same_acceptance i (revised_item items order d)
  else itm_state (revised_item items order d) = RI_pending.
Proof.
  intros Hnd Hi Hs. unfold revised_item. destruct (findb _ _) as [prior|] eqn:Hf.
  - apply findb_Some in Hf as [Hin Hid%String.eqb_eq].
    assert (idf_id d = itm_id i → prior = i) as Hprior.
    { intros Heq. apply (NoDup_fmap_elem itm_id items); [done..|congruence]. }
    destruct (keeps_accepted _ _) eqn:Hk; cbn; intros Heq.
    + rewrite <-Hprior in * by congruence. unfold same_definition. cbn.
      by rewrite String.eqb_refl, Bool.eqb_reflx, bool_decide_eq_true_2 by done.
    + rewrite Hprior in * by done. unfold keeps_accepted in Hk. rewrite Hs, (bool_decide_eq_true_2 _ eq_refl), andb_true_r in Hk.
      unfold same_definition. cbn. by rewrite Hk.
  - intros Heq. apply findb_None in Hf. rewrite Forall_forall in Hf. specialize (Hf i Hi). cbn in Heq.
    by rewrite <-Heq, String.eqb_refl in Hf.
Qed.

(** ** Steps of the plan *)

(** The state of the plan after an event within a revision. *)
Definition state_step plan (data : ReviewPlanEventDataV1) p : Prop :=
  rpl_state p = rpl_state plan ∨ rpl_state p ∈ REVIEW_PLAN_TRANSITIONS (rpl_state plan) ∨
  ∃ blockId, data = block_resolved blockId ∧ has_block blockId (rpl_block plan) = true ∧
    rpl_state p = RP_active ∧ rpl_block p = None.

Lemma change_plan_frame plan common data p :
  change_plan plan common data = Ok p → is_revised data = false →
  rpl_planId p = rpl_planId plan ∧ rpl_revision p = rpl_revision plan ∧ rpl_objective p = rpl_objective plan ∧
  rpl_taskContract p = rpl_taskContract plan ∧ rpl_policy p = rpl_policy plan ∧ rpl_criteria p = rpl_criteria plan ∧
  rpl_replanCount p = rpl_replanCount plan.
Proof.
  intros Hp Hr. unfold change_plan, change_item_state, start_attempt, close_attempt, bind_execution, record_tool,
    prepare_review, request_review, record_review, resolve_review_block, change_plan_state, unfocus in Hp.
  destruct data; try done; inv_ok; repeat case_match; inv_ok; simplify_eq;
    try case_bool_decide; done.
Qed.

Lemma plan_transition_Ok from to u :
  assertReviewPlanTransitionV1 from to = Ok u → to ∈ REVIEW_PLAN_TRANSITIONS from.
Proof. by intros Ht%fail_if_Ok%negb_false_iff%bool_decide_eq_true. Qed.

Lemma change_plan_state_moves plan common data p :
  change_plan plan common data = Ok p → is_revised data = false → state_step plan data p.
Proof.
  intros Hp Hr. unfold state_step, change_plan, change_item_state, start_attempt, close_attempt, bind_execution, record_tool,
    prepare_review, request_review, record_review, resolve_review_block, change_plan_state, unfocus in *.
  destruct data; try done; inv_ok; repeat case_match; inv_ok; simplify_eq; try case_bool_decide; try (by left); cbn.
  all: try (right; left; by eapply plan_transition_Ok).
  right; right. by exists blockId.
Qed.


(** An acceptance is final within a revision.  After any history, an event
    keeps every accepted item, with the evidence, the attempt, the input and the
    decision of its acceptance; a revision keeps it exactly when it repeats the
    title, the checkpoint and the criteria of the item, and otherwise the item is
    pending again or not part of the plan. *)
Theorem accepted_items_kept events plan event p i :
  reduce_review_events None events = Ok (Some plan) → reduceReviewPlanEventV1 (Some plan) event = Ok p →
  i ∈ rpl_items plan → itm_state i = RI_accepted →
  (rpl_revision p = rpl_revision plan ∧ ∃ j, j ∈ rpl_items p ∧ same_acceptance i j) ∨
  (rpl_revision p = rpl_revision plan + 1 ∧ ∀ j, j ∈ rpl_items p → itm_id j = itm_id i →
     if same_definition i j then same_acceptance i j else itm_state j = RI_pending).
Proof.
  intros Hplan (_ & common & data & _ & Hp)%reduce_review_plan_Ok Hi Hs.
  pose proof (history_items_ok _ _ Hplan) as Hok. pose proof (pw_items _ (history_wf _ _ Hplan)) as [Hnd _].
  destruct (is_revised data) eqn:Hr.
  - right. destruct data; try done. destruct Hp as (plan' & [= <-] & _ & Hp).
    cbn in Hp. unfold revise_plan, transition_if in Hp. inv_ok. split_bool. cbn.
    repeat match goal with Hx : (_ =? _) = true |- _ => apply Z.eqb_eq in Hx end.
    split; [done|]. intros j (n & d & -> & _)%elem_of_lookup_imap Hid. by apply revised_item_step.
  - left. assert (∃ plan', Some plan = Some plan' ∧ change_plan plan' common data = Ok p) as (plan' & [= <-] & Hp')
      by (destruct data; try (destruct Hp as (? & ? & ? & ?); eauto); by destruct Hp).
    split; [by apply (change_plan_frame _ _ _ _ Hp' Hr)|].
    eapply items_step_acceptance; [by eapply change_plan_items_step|done..].
Qed.
End Steps.

(** ** The sample plan *)

Definition item_history : list ReviewPlanJournalEventV1 := sample_review_events (at_revision 1 (create_step :: item_steps)).
Definition final_history (verdict : ReviewVerdictV1) : list ReviewPlanJournalEventV1 :=
  sample_review_events (at_revision 1 (create_step :: item_steps ++ final_steps verdict)).
(** What [f] reads of the projection of a history. *)
Definition read_review {A} (f : ReviewPlanProjectionV1 → A) (events : list ReviewPlanJournalEventV1) : option A :=
  match reduce_review_events None events with Ok current => f <$> current | Err _ => None end.

Example final_review_completes :
  read_review (λ p, (rpl_state p, itm_state <$> rpl_items p)) (final_history RV_accepted)
    = Some (RP_completed, [RI_accepted]).
Proof. vm_compute. reflexivity. Qed.

(** The reducer revises a completed plan, whose state has no successor. *)
Example completed_plan_revised :
  read_review rpl_state (final_history RV_accepted ++
    [sample_review_event 10 2 (revise_step 1 "Other").1 (revise_step 1 "Other").2]) = Some RP_active
  ∧ REVIEW_PLAN_TRANSITIONS RP_completed = [].
Proof. vm_compute. done. Qed.

(** A final review that blocks the plan leaves it blocked without a block, so no
    event resolves it. *)
Example final_review_blocks_without_block :
  read_review (λ p, (rpl_state p, rpl_block p)) (final_history RV_blocked) = Some (RP_blocked, None).
Proof. vm_compute. reflexivity. Qed.

(** A line break hides the parent directory of a path. *)
Example path_with_line_break_climbs :
  is_ok (workspacePath (JStr ("a" +:+ String (ascii_of_nat 10) "/../../b"))) = true
  ∧ is_ok (workspacePath (JStr "a/../../b")) = false.
Proof. vm_compute. done. Qed.

Lemma accepted_items_reviewed_witness :
  match reduce_review_events None item_history with
  | Ok (Some p) => ∃ i, i ∈ rpl_items p ∧ itm_state i = RI_accepted ∧
      ∃ event decision, event ∈ item_history ∧ recorded_decision event = Some decision ∧
        itm_lastReview i = Some decision ∧ dcs_verdict decision = RV_accepted
  | _ => False
  end.
Proof.
  assert (read_review (λ p, itm_state <$> rpl_items p) item_history = Some [RI_accepted]) as Hr by (vm_compute; reflexivity).
  unfold read_review in Hr. destruct (reduce_review_events None item_history) as [[p|]|] eqn:Hp; try discriminate Hr.
  cbn in Hr. injection Hr as Hr. destruct (rpl_items p) as [|i l] eqn:Hl; [discriminate Hr|].
  injection Hr as Hs _. assert (i ∈ rpl_items p) as Hi by (rewrite Hl; left).
  exists i. rewrite <-Hl. split; [exact Hi|]. split; [exact Hs|].
  exact (proj2 (proj2 (proj2 (accepted_items_reviewed item_history p i Hp Hi Hs)))).
Defined.

(** A revision of the sample plan that renames its item. *)
Definition sample_revision : ReviewPlanJournalEventV1 :=
  sample_review_event 7 2 (revise_step 1 "Other").1 (revise_step 1 "Other").2.
Definition before_and_after (events : list ReviewPlanJournalEventV1) (event : ReviewPlanJournalEventV1) :
    option (ReviewPlanProjectionV1 * ReviewPlanProjectionV1) :=
  match reduce_review_events None events with
  | Ok (Some plan) => match reduceReviewPlanEventV1 (Some plan) event with Ok p => Some (plan, p) | Err _ => None end
  | _ => None
  end.
Lemma before_and_after_Some events event plan p :
  before_and_after events event = Some (plan, p) →
  reduce_review_events None events = Ok (Some plan) ∧ reduceReviewPlanEventV1 (Some plan) event = Ok p.
Proof. unfold before_and_after. intros Hb. repeat case_match; by simplify_eq. Qed.


Lemma accepted_items_kept_witness :
  match before_and_after item_history sample_revision with
  | Some (plan, p) => ∃ i, i ∈ rpl_items plan ∧ itm_state i = RI_accepted ∧
      ((rpl_revision p = rpl_revision plan ∧ ∃ j, j ∈ rpl_items p ∧ same_acceptance i j) ∨
       (rpl_revision p = rpl_revision plan + 1 ∧ ∀ j, j ∈ rpl_items p → itm_id j = itm_id i →
          if same_definition i j then same_acceptance i j else itm_state j = RI_pending))
  | None => False
  end.
Proof.
  assert ((λ b, itm_state <$> rpl_items b.1) <$> before_and_after item_history sample_revision = Some [RI_accepted]) as Hb
    by (vm_compute; reflexivity).
  destruct (before_and_after item_history sample_revision) as [[plan p]|] eqn:Hp; [|discriminate Hb].
  apply before_and_after_Some in Hp as [Hplan Hp].
  cbn in Hb. injection Hb as Hb. destruct (rpl_items plan) as [|i l] eqn:Hl; [discriminate Hb|].
  injection Hb as Hs _. assert (i ∈ rpl_items plan) as Hi by (rewrite Hl; left).
  exists i. rewrite <-Hl. split; [exact Hi|]. split; [exact Hs|].
  exact (accepted_items_kept item_history plan sample_revision p i Hplan Hp Hi Hs).
Defined.
