(* ===== verification/Session.v ===== *)
(** * The Session journal: entries and state (packages/core-sdk/src/session-journal.ts)

    The entries of the append-only journal, typed as [validateSessionEntryV3]
    returns them, and the state of the reducer.  The reducer only copies the
    provider messages, skill invocations, compaction provenance and the fork
    payloads, so they stay [jsval], and so do the events of the review plan, which
    the journal hands to [ReviewPlanContract]. *)

From S2P Require Import Prelude Js JsOps CanonicalJson Plan Subagent WorkingPlan ReviewPlan ReviewPlanEvents.
Local Open Scope Z_scope.

Definition MAX_ENTRIES : Z := 100000.

(** What the journal asks of the review plan: the check of one event, and the
    reducer of its projection.  The theorems on the journal hold for every such
    contract; the one of review-plan-events.ts is the instance. *)
Class ReviewPlanContract := {
  check_review_plan_event : ReviewPlanJournalEventV1 → res unit;
  reduce_review_plan_event : option ReviewPlanProjectionV1 → ReviewPlanJournalEventV1 → res ReviewPlanProjectionV1;
}.
#[export] Instance review_plan `{JsEngine} `{JsCrypto} : ReviewPlanContract :=
  {| check_review_plan_event event := validateReviewPlanEventV1 event;; Ok tt;
     reduce_review_plan_event := reduceReviewPlanEventV1 |}.

(** ** Enumerations *)

Inductive SessionLifecycleStateV3 := L_open | L_closed | L_deleted.
Inductive SessionPlannerModeV3 := M_auto | M_solo | M_workflow | M_direct | M_supervisor.
Inductive SessionRetrySafetyV3 := read_only_idempotent | non_idempotent | unknown.
Inductive SessionCompactionReasonV3 := C_manual | C_threshold | C_overflow.
Inductive SessionPlanPolicyV3 := optional | required.
Inductive SessionRunStateV3 := R_running | R_completed | R_failed | R_aborted | R_interrupted.
Inductive RunTerminalStatus := T_completed | T_failed | T_aborted | T_interrupted.
Inductive SubagentStatus := E_succeeded | E_failed | E_cancelled.
Inductive Verifier := mechanical | rule | model.
Inductive VerificationStatus := V_passed | V_failed | V_blocked.
Inductive StepChangeReason :=
| retry_approved | recovery_retry_approved | external_condition_changed.
Inductive PlannerDecisionActionV3 := D_retry | D_continue | D_fresh_worker | D_replan | D_ask_user.
Inductive ControlAction := abandon | scope_change | resolve_block | cancel | session_close.
Inductive ControlDisposition :=
| X_unused | X_aborted | X_timeout | X_provider_error | X_run_terminated.
Inductive ControlState := Q_authorized | Q_turn_bound | Q_consumed | Q_discarded.
Inductive ReviewBudgetDisposition := B_actual | B_released_before_provider | B_remote_outcome_unknown.
Inductive ReviewBudgetState := B_reserved | B_settled.

#[export] Instance SessionLifecycleStateV3_dec : EqDecision SessionLifecycleStateV3.
Proof. solve_decision. Defined.
#[export] Instance SessionRunStateV3_dec : EqDecision SessionRunStateV3.
Proof. solve_decision. Defined.
#[export] Instance SubagentStatus_dec : EqDecision SubagentStatus.
Proof. solve_decision. Defined.
#[export] Instance VerificationStatus_dec : EqDecision VerificationStatus.
Proof. solve_decision. Defined.
#[export] Instance StepChangeReason_dec : EqDecision StepChangeReason.
Proof. solve_decision. Defined.
#[export] Instance ControlAction_dec : EqDecision ControlAction.
Proof. solve_decision. Defined.
#[export] Instance ControlState_dec : EqDecision ControlState.
Proof. solve_decision. Defined.
#[export] Instance ReviewBudgetState_dec : EqDecision ReviewBudgetState.
Proof. solve_decision. Defined.

(** ** Usage *)

Record ProviderUsage := {
  pu_inputTokens : option Z;
  pu_outputTokens : option Z;
  pu_cacheReadTokens : option Z;
  pu_cacheWriteTokens : option Z;
  pu_costUsd : option jsnum;
}.

Record BudgetUsage := {
  bu_turns : Z;
  bu_toolCalls : Z;
  bu_subagents : Z;
  bu_provider : ProviderUsage;
}.

(** [Partial<BudgetUsage>]. *)
Record PartialUsage := {
  wu_turns : option Z;
  wu_toolCalls : option Z;
  wu_subagents : option Z;
  wu_provider : ProviderUsage;
}.

(** ** Entry payloads *)

Record SessionFork := { fk_parentSessionId : string; fk_sourceEntryId : string }.
Record SessionCreatedData := {
  cr_cwd : string;
  cr_provider : string;
  cr_model : string;
  cr_name : string;
  cr_labels : list string;
  cr_plannerMode : option SessionPlannerModeV3;
  cr_contextLimitTokens : option Z;
  cr_fork : option SessionFork;
}.
Record SessionMetadataUpdatedData := {
  mu_name : option string;
  mu_labels : option (list string);
  mu_provider : option string;
  mu_model : option string;
  mu_activeLeafId : option string;
  mu_plannerMode : option SessionPlannerModeV3;
  mu_contextLimitTokens : option Z;
}.
Record SessionForkedData := { fo_childSessionId : string; fo_sourceEntryId : string }.
Record RunTerminalData := {
  rt_status : RunTerminalStatus;
  rt_usage : ProviderUsage;
  rt_errorCode : option string;
}.
Record SessionCompactionSummaryV3 := {
  cs_objective : option string;
  cs_relevantRefs : option (list string);
  cs_decisions : list string;
  cs_constraints : list string;
  cs_readFiles : list string;
  cs_modifiedFiles : list string;
  cs_unresolved : list string;
  cs_activePlan : list string;
}.
Record CompactionCreatedData := {
  cc_checkpointId : string;
  cc_coveredStartSequence : Z;
  cc_coveredEndSequence : Z;
  cc_previousCheckpointId : option string;
  cc_retainedStartSequence : Z;
  cc_summary : SessionCompactionSummaryV3;
  cc_provenance : jsval;
  cc_summaryDigest : string;
  cc_summaryTokens : Z;
  cc_reason : SessionCompactionReasonV3;
  cc_checkpoint : option jsval;
}.
Record PlannerGenerationData := {
  gn_phase : string;
  gn_generatorId : string;
  gn_source : string;
  gn_status : string;
  gn_fallbackUsed : bool;
  gn_route : option string;
  gn_failureCode : option string;
  gn_fallbackFromCode : option string;
}.

Record PlanCreatedData := {
  pc_planId : string;
  pc_planRevision : Z;
  pc_objective : string;
  pc_state : PlanStateV1;
}.
Record PlanStateChangedData := {
  psc_planId : string;
  psc_planRevision : Z;
  psc_state : PlanStateV1;
}.
Record PlannerDecisionData := {
  pd_planId : string;
  pd_planRevision : Z;
  pd_action : PlannerDecisionActionV3;
  pd_outcome : string;
  pd_reasonCode : string;
  pd_stepId : option string;
  pd_attemptId : option string;
}.
Record ReuseProof := {
  rp_stepId : string;
  rp_previousInputDigest : string;
  rp_nextInputDigest : string;
}.
(** The payload's [state] is the literal [running]. *)
Record PlanRevisedData := {
  pr_planId : string;
  pr_fromRevision : Z;
  pr_toRevision : Z;
  pr_objective : string;
  pr_reuseProofs : list ReuseProof;
}.
Record StepCreatedData := {
  sd_planId : string;
  sd_planRevision : Z;
  sd_stepId : string;
  sd_title : string;
  sd_order : Z;
  sd_state : PlanStepStateV1;
  sd_dependencies : list string;
  sd_access : PlanStepAccessV1;
  sd_capabilities : list string;
  sd_conflictKeys : list string;
  sd_criteria : list PlanSuccessCriterionV1;
  sd_budget : ExecutionBudget;
  sd_maxAttempts : Z;
}.
Record StepStateChangedData := {
  ssc_planId : string;
  ssc_planRevision : Z;
  ssc_stepId : string;
  ssc_state : PlanStepStateV1;
  ssc_reason : option StepChangeReason;
  ssc_newAttemptId : option string;
  ssc_errorCode : option string;
}.
Record AttemptCreatedData := {
  ac_planId : string;
  ac_planRevision : Z;
  ac_stepId : string;
  ac_attemptId : string;
  ac_ordinal : Z;
  ac_state : PlanAttemptStateV1;
  ac_childRunId : option string;
}.
Record AttemptStateChangedData := {
  asc_planId : string;
  asc_planRevision : Z;
  asc_stepId : string;
  asc_attemptId : string;
  asc_state : PlanAttemptStateV1;
  asc_errorCode : option string;
}.
Record AttemptExecutionCompletedData := {
  aec_planId : string;
  aec_planRevision : Z;
  aec_stepId : string;
  aec_attemptId : string;
  aec_status : SubagentStatus;
}.
Record SubagentExecutionBoundData := {
  seb_planId : string;
  seb_planRevision : Z;
  seb_stepId : string;
  seb_attemptId : string;
  seb_childRunId : string;
  seb_request : jsval;
  seb_retrySafety : SessionRetrySafetyV3;
}.
Record SubagentResultRecordedData := {
  srr_planId : string;
  srr_planRevision : Z;
  srr_stepId : string;
  srr_attemptId : string;
  srr_childRunId : string;
  srr_resultRef : string;
  srr_resultDigest : string;
  srr_status : SubagentStatus;
}.
Record VerificationRecordedData := {
  vrd_planId : string;
  vrd_planRevision : Z;
  vrd_stepId : string;
  vrd_attemptId : string;
  vrd_verificationId : string;
  vrd_verifier : Verifier;
  vrd_status : VerificationStatus;
  vrd_evidenceRefs : list string;
  vrd_code : option string;
  vrd_retryable : option bool;
}.

Record ArtifactReference := {
  ar_artifactId : string;
  ar_digest : string;
  ar_mimeType : string;
  ar_bytes : Z;
}.
Record VerifiedPlanControlFactV1 := {
  vf_controlEventId : string;
  vf_actorId : string;
  vf_actorBindingDigest : string;
  vf_sessionId : string;
  vf_action : ControlAction;
  vf_reasonCode : string;
  vf_target : jsval;
  vf_targetDigest : string;
  vf_challengeId : string;
  vf_challengeDigest : string;
  vf_tokenDigest : string;
  vf_issuedAt : jsval;
  vf_expiresAt : jsval;
  vf_runId : option string;
  vf_providerTurnId : option string;
}.
Record ControlAuthorizedData := {
  ca_authorizationRequestId : string;
  ca_challengeEnvelopeDigest : string;
  ca_fact : VerifiedPlanControlFactV1;
}.
Record ReviewBudgetReservedData := {
  rr_reviewRequestId : string;
  rr_attemptNumber : Z;
  rr_reservation : ProviderUsage;
}.
Record ReviewBudgetSettledData := {
  rs_reviewRequestId : string;
  rs_attemptNumber : Z;
  rs_disposition : ReviewBudgetDisposition;
  rs_usage : ProviderUsage;
}.
(** ** Entries *)

Inductive SessionEntryData :=
| session_created (data : SessionCreatedData)
| session_metadata_updated (data : SessionMetadataUpdatedData)
| session_plan_updated (plan : jsval)
| session_closed (reason : option string)
| session_reopened (reason : option string)
| session_forked (data : SessionForkedData)
| session_deleted (data : jsval)
| message_committed (messageId : string) (message : jsval)
| run_started (clientRequestId : string) (planPolicy : option SessionPlanPolicyV3)
| run_terminal (data : RunTerminalData)
| command_invoked (commandId : string) (descriptor : jsval) (resultRef : option string)
| skill_invoked (invocationId : string) (invocation : jsval)
| permission_decided (requestId : string) (decision : jsval)
| usage_recorded (source : string) (usage : BudgetUsage)
| planner_generation_recorded (data : PlannerGenerationData)
| compaction_created (data : CompactionCreatedData)
| plan_created (data : PlanCreatedData)
| plan_state_changed (data : PlanStateChangedData)
| plan_decision_recorded (data : PlannerDecisionData)
| plan_revised (data : PlanRevisedData)
| step_created (data : StepCreatedData)
| step_state_changed (data : StepStateChangedData)
| attempt_created (data : AttemptCreatedData)
| attempt_state_changed (data : AttemptStateChangedData)
| attempt_execution_completed (data : AttemptExecutionCompletedData)
| subagent_execution_bound (data : SubagentExecutionBoundData)
| subagent_result_recorded (data : SubagentResultRecordedData)
| verification_recorded (data : VerificationRecordedData)
| artifact_referenced (owner : string) (artifact : ArtifactReference)
| control_authorized (data : ControlAuthorizedData)
| control_turn_bound (controlEventId runId providerTurnId : string)
| control_discarded (controlEventId : string) (disposition : ControlDisposition)
| control_consumed (controlEventId : string) (action : ControlAction) (targetDigest : string)
| review_budget_reserved (data : ReviewBudgetReservedData)
| review_budget_settled (data : ReviewBudgetSettledData)
| working_plan_saved (operationId : string) (inputDigest : jsval) (plan : WorkingPlanV1)
| working_plan_review_requested (review : WorkingReviewV1)
| working_plan_reviewed (review : WorkingReviewV1)
| review_plan_event (type : string) (data : jsval).

(** The correlation identifiers, by their names. *)
Abbreviation SessionEntryCorrelationV3 := (list (string * string)).

Record SessionEntryV3 := {
  en_entryId : string;
  en_sessionId : string;
  en_sequence : Z;
  en_revision : Z;
  en_timestamp : string;
  en_runId : option string;
  en_correlation : SessionEntryCorrelationV3;
  en_data : SessionEntryData;
}.

(** ** The state of the reducer *)

Record SessionRunProjectionV3 := {
  rn_runId : string;
  rn_clientRequestId : string;
  rn_state : SessionRunStateV3;
  rn_usage : PartialUsage;
  rn_errorCode : option string;
  rn_planPolicy : SessionPlanPolicyV3;
}.

Record SessionVerificationProjectionV3 := {
  ve_verificationId : string;
  ve_verifier : Verifier;
  ve_status : VerificationStatus;
  ve_evidenceRefs : list string;
  ve_code : option string;
  ve_retryable : option bool;
}.

Record AttemptExecution := {
  ex_request : SubagentExecutionRequestV1;
  ex_retrySafety : SessionRetrySafetyV3;
}.

Record MutableAttempt := {
  ma_attemptId : string;
  ma_ordinal : Z;
  ma_state : PlanAttemptStateV1;
  ma_childRunId : option string;
  ma_resultRef : option string;
  ma_resultDigest : option string;
  ma_resultStatus : option SubagentStatus;
  ma_verificationRef : option string;
  ma_errorCode : option string;
  ma_execution : option AttemptExecution;
  ma_verifications : list SessionVerificationProjectionV3;
}.

Record MutableStep := {
  ms_stepId : string;
  ms_title : string;
  ms_order : Z;
  ms_state : PlanStepStateV1;
  ms_errorCode : option string;
  ms_dependencies : list string;
  ms_access : PlanStepAccessV1;
  ms_capabilities : list string;
  ms_conflictKeys : list string;
  ms_criteria : list PlanSuccessCriterionV1;
  ms_budget : ExecutionBudget;
  ms_maxAttempts : Z;
  ms_attempts : list (string * MutableAttempt);
}.

Record MutablePlan := {
  mp_planId : string;
  mp_revision : Z;
  mp_objective : string;
  mp_state : PlanStateV1;
  mp_steps : list (string * MutableStep);
}.

Record SessionCompactionCheckpointProjectionV3 := {
  cp_checkpointId : string;
  cp_entryId : string;
  cp_createdAt : string;
  cp_startSequence : Z;
  cp_endSequence : Z;
  cp_previousCheckpointId : option string;
  cp_retainedStartSequence : Z;
  cp_summary : SessionCompactionSummaryV3;
  cp_provenance : jsval;
  cp_summaryDigest : string;
  cp_summaryTokens : Z;
  cp_reason : SessionCompactionReasonV3;
  cp_checkpoint : option jsval;
}.

Record SessionPlannerGenerationProjectionV3 := {
  gp_data : PlannerGenerationData;
  gp_runId : string;
  gp_recordedAt : string;
}.

Record SessionControlProjectionV3 := {
  ct_controlEventId : string;
  ct_authorizationRequestId : string;
  ct_challengeEnvelopeDigest : string;
  ct_fact : VerifiedPlanControlFactV1;
  ct_state : ControlState;
  ct_runId : option string;
  ct_providerTurnId : option string;
  ct_disposition : option ControlDisposition;
}.

Record SessionReviewBudgetProjectionV3 := {
  rb_reviewRequestId : string;
  rb_attemptNumber : Z;
  rb_reservation : ProviderUsage;
  rb_state : ReviewBudgetState;
  rb_disposition : option ReviewBudgetDisposition;
  rb_usage : option ProviderUsage;
}.

(** The local variables of [reduceSessionEntriesV3], grouped by what they hold. *)
Record SessionIds := {
  id_entryIds : list string;
  id_stableIds : list string;
  id_forkedSessionIds : list string;
}.
Record SessionMeta := {
  me_lifecycle : SessionLifecycleStateV3;
  me_provider : string;
  me_model : string;
  me_plannerMode : SessionPlannerModeV3;
  me_contextLimitTokens : option Z;
  me_name : string;
  me_labels : list string;
  me_activeLeafId : string;
}.
Record SessionRuns := {
  ru_runs : list (string * SessionRunProjectionV3);
  ru_activeRunId : option string;
  ru_usage : BudgetUsage;
  ru_plannerGeneration : option SessionPlannerGenerationProjectionV3;
}.
Record SessionLog := {
  lg_messages : list (string * jsval);
  lg_commandIds : list string;
  lg_skillInvocationIds : list string;
  lg_permissionRequestIds : list string;
  lg_artifacts : list (string * ArtifactReference);
  lg_resultRefs : list string;
}.
Record SessionReview := {
  rv_reviewPlan : option ReviewPlanProjectionV1;
  rv_workingPlan : option WorkingPlanV1;
  rv_workingReviews : list (string * WorkingReviewV1);
  rv_reviewControls : list (string * SessionControlProjectionV3);
  rv_reviewBudgets : list (string * SessionReviewBudgetProjectionV3);
}.
Record SessionState := {
  ss_ids : SessionIds;
  ss_meta : SessionMeta;
  ss_runs : SessionRuns;
  ss_log : SessionLog;
  ss_checkpoint : option SessionCompactionCheckpointProjectionV3;
  ss_plan : option MutablePlan;
  ss_review : SessionReview;
  ss_previous : SessionEntryV3;
}.

(** ** The projection *)

Record SessionAttemptProjectionV3 := {
  ap_attemptId : string;
  ap_ordinal : Z;
  ap_state : PlanAttemptStateV1;
  ap_childRunId : option string;
  ap_resultRef : option string;
  ap_resultDigest : option string;
  ap_verificationRef : option string;
  ap_errorCode : option string;
  ap_execution : option AttemptExecution;
  ap_verifications : list SessionVerificationProjectionV3;
}.

Record SessionStepProjectionV3 := {
  sp_stepId : string;
  sp_title : string;
  sp_order : Z;
  sp_state : PlanStepStateV1;
  sp_errorCode : option string;
  sp_dependencies : list string;
  sp_access : PlanStepAccessV1;
  sp_capabilities : list string;
  sp_conflictKeys : list string;
  sp_criteria : list PlanSuccessCriterionV1;
  sp_budget : ExecutionBudget;
  sp_maxAttempts : Z;
  sp_attemptIds : list string;
  sp_attempts : list SessionAttemptProjectionV3;
}.

Record SessionPlanGraphProjectionV3 := {
  gr_planId : string;
  gr_revision : Z;
  gr_objective : string;
  gr_state : PlanStateV1;
  gr_readyStepIds : list string;
  gr_steps : list SessionStepProjectionV3;
}.

Record SessionSnapshotV3 := {
  sn_sessionId : string;
  sn_sequence : Z;
  sn_revision : Z;
  sn_lifecycle : SessionLifecycleStateV3;
  sn_plannerMode : SessionPlannerModeV3;
  sn_createdAt : string;
  sn_updatedAt : string;
  sn_contextLimitTokens : option Z;
  sn_cwd : string;
  sn_provider : string;
  sn_model : string;
  sn_name : string;
  sn_labels : list string;
  sn_activeLeafId : string;
  sn_fork : option SessionFork;
  sn_messages : list (string * jsval);
  sn_runs : list SessionRunProjectionV3;
  sn_commandIds : list string;
  sn_skillInvocationIds : list string;
  sn_permissionRequestIds : list string;
  sn_usage : BudgetUsage;
  sn_checkpointId : option string;
  sn_artifactIds : list jsval;
}.

Record SessionContextViewProjectionV3 := {
  cv_sessionId : string;
  cv_revision : Z;
  cv_checkpointId : option string;
  cv_startSequence : Z;
  cv_endSequence : Z;
  cv_resultRefs : list string;
  cv_artifactIds : list jsval;
  cv_omittedEntries : Z;
}.

Record SessionCatalogProjectionV3 := {
  ca_sessionId : string;
  ca_name : string;
  ca_workspace : string;
  ca_provider : string;
  ca_model : string;
  ca_lifecycle : SessionLifecycleStateV3;
  ca_activeLeafId : string;
  ca_parentSessionId : option string;
  ca_messageCount : Z;
  ca_updatedAt : string;
  ca_revision : Z;
}.

Record SessionProjectionV3 := {
  pj_snapshot : SessionSnapshotV3;
  pj_catalog : SessionCatalogProjectionV3;
  pj_contextView : SessionContextViewProjectionV3;
  pj_checkpoint : option SessionCompactionCheckpointProjectionV3;
  pj_planGraph : option SessionPlanGraphProjectionV3;
  pj_plannerGeneration : option SessionPlannerGenerationProjectionV3;
  pj_reviewPlan : option ReviewPlanProjectionV1;
  pj_workingPlan : option WorkingPlanV1;
  pj_workingReviews : list WorkingReviewV1;
  pj_reviewControls : list SessionControlProjectionV3;
  pj_reviewBudgets : list SessionReviewBudgetProjectionV3;
}.

(** ** Equality of projections *)

#[export] Instance SessionPlannerModeV3_dec : EqDecision SessionPlannerModeV3.
Proof. solve_decision. Defined.
#[export] Instance SessionFork_dec : EqDecision SessionFork.
Proof. solve_decision. Defined.
#[export] Instance ProviderUsage_dec : EqDecision ProviderUsage.
Proof. solve_decision. Defined.
#[export] Instance PartialUsage_dec : EqDecision PartialUsage.
Proof. solve_decision. Defined.
#[export] Instance SessionPlanPolicyV3_dec : EqDecision SessionPlanPolicyV3.
Proof. solve_decision. Defined.
#[export] Instance SessionRunProjectionV3_dec : EqDecision SessionRunProjectionV3.
Proof. solve_decision. Defined.
#[export] Instance BudgetUsage_dec : EqDecision BudgetUsage.
Proof. solve_decision. Defined.
#[export] Instance SessionSnapshotV3_dec : EqDecision SessionSnapshotV3.
Proof. solve_decision. Defined.
#[export] Instance SessionCatalogProjectionV3_dec : EqDecision SessionCatalogProjectionV3.
Proof. solve_decision. Defined.
#[export] Instance SessionContextViewProjectionV3_dec : EqDecision SessionContextViewProjectionV3.
Proof. solve_decision. Defined.
#[export] Instance SessionCompactionSummaryV3_dec : EqDecision SessionCompactionSummaryV3.
Proof. solve_decision. Defined.
#[export] Instance SessionCompactionReasonV3_dec : EqDecision SessionCompactionReasonV3.
Proof. solve_decision. Defined.
#[export] Instance SessionCompactionCheckpointProjectionV3_dec : EqDecision SessionCompactionCheckpointProjectionV3.
Proof. solve_decision. Defined.
#[export] Instance PlanStepAccessV1_dec : EqDecision PlanStepAccessV1.
Proof. solve_decision. Defined.
#[export] Instance PlanSuccessCriterionV1_dec : EqDecision PlanSuccessCriterionV1.
Proof. solve_decision. Defined.
#[export] Instance ExecutionBudget_dec : EqDecision ExecutionBudget.
Proof. solve_decision. Defined.
#[export] Instance SubagentExecutionRequestV1_dec : EqDecision SubagentExecutionRequestV1.
Proof. solve_decision. Defined.
#[export] Instance SessionRetrySafetyV3_dec : EqDecision SessionRetrySafetyV3.
Proof. solve_decision. Defined.
#[export] Instance AttemptExecution_dec : EqDecision AttemptExecution.
Proof. solve_decision. Defined.
#[export] Instance Verifier_dec : EqDecision Verifier.
Proof. solve_decision. Defined.
#[export] Instance SessionVerificationProjectionV3_dec : EqDecision SessionVerificationProjectionV3.
Proof. solve_decision. Defined.
#[export] Instance SessionAttemptProjectionV3_dec : EqDecision SessionAttemptProjectionV3.
Proof. solve_decision. Defined.
#[export] Instance SessionStepProjectionV3_dec : EqDecision SessionStepProjectionV3.
Proof. solve_decision. Defined.
#[export] Instance SessionPlanGraphProjectionV3_dec : EqDecision SessionPlanGraphProjectionV3.
Proof. solve_decision. Defined.
#[export] Instance PlannerGenerationData_dec : EqDecision PlannerGenerationData.
Proof. solve_decision. Defined.
#[export] Instance SessionPlannerGenerationProjectionV3_dec : EqDecision SessionPlannerGenerationProjectionV3.
Proof. solve_decision. Defined.
#[export] Instance ReviewPlanTaskContractV1_dec : EqDecision ReviewPlanTaskContractV1.
Proof. solve_decision. Defined.
#[export] Instance ReviewSemanticV1_dec : EqDecision ReviewSemanticV1.
Proof. solve_decision. Defined.
#[export] Instance ReviewPolicyV1_dec : EqDecision ReviewPolicyV1.
Proof. solve_decision. Defined.
#[export] Instance ReviewCriterionV1_dec : EqDecision ReviewCriterionV1.
Proof. solve_decision. Defined.
#[export] Instance ReviewCriterionStatusV1_dec : EqDecision ReviewCriterionStatusV1.
Proof. solve_decision. Defined.
#[export] Instance ReviewCriterionProjectionV1_dec : EqDecision ReviewCriterionProjectionV1.
Proof. solve_decision. Defined.
#[export] Instance ReviewPlanItemAttemptV1_dec : EqDecision ReviewPlanItemAttemptV1.
Proof. solve_decision. Defined.
#[export] Instance ReviewResolverV1_dec : EqDecision ReviewResolverV1.
Proof. solve_decision. Defined.
#[export] Instance ReviewPlanBlockV1_dec : EqDecision ReviewPlanBlockV1.
Proof. solve_decision. Defined.
#[export] Instance ReviewScopeV1_dec : EqDecision ReviewScopeV1.
Proof. solve_decision. Defined.
#[export] Instance PreparedReviewRefV1_dec : EqDecision PreparedReviewRefV1.
Proof. solve_decision. Defined.
#[export] Instance ReviewDecisionRefV1_dec : EqDecision ReviewDecisionRefV1.
Proof. solve_decision. Defined.
#[export] Instance ReviewPlanItemProjectionV1_dec : EqDecision ReviewPlanItemProjectionV1.
Proof. solve_decision. Defined.
#[export] Instance ReviewPlanProjectionV1_dec : EqDecision ReviewPlanProjectionV1.
Proof. solve_decision. Defined.
#[export] Instance WorkingPlanV1_dec : EqDecision WorkingPlanV1.
Proof. solve_decision. Defined.
#[export] Instance WorkingReviewV1_dec : EqDecision WorkingReviewV1.
Proof. solve_decision. Defined.
#[export] Instance VerifiedPlanControlFactV1_dec : EqDecision VerifiedPlanControlFactV1.
Proof. solve_decision. Defined.
#[export] Instance ControlDisposition_dec : EqDecision ControlDisposition.
Proof. solve_decision. Defined.
#[export] Instance SessionControlProjectionV3_dec : EqDecision SessionControlProjectionV3.
Proof. solve_decision. Defined.
#[export] Instance ReviewBudgetDisposition_dec : EqDecision ReviewBudgetDisposition.
Proof. solve_decision. Defined.
#[export] Instance SessionReviewBudgetProjectionV3_dec : EqDecision SessionReviewBudgetProjectionV3.
Proof. solve_decision. Defined.
#[export] Instance SessionProjectionV3_dec : EqDecision SessionProjectionV3.
Proof. solve_decision. Defined.
