(* ===== verification/SessionReducer.v ===== *)
(** * The Session reducer: packages/core-sdk/src/session-journal.ts

    [reduceSessionEntriesV3]: one handler per entry type, the checks that every
    entry passes first, the projection of the plan and of the whole session. *)

From S2P Require Import Prelude Js JsOps CanonicalJson Graph Plan Subagent WorkingPlan ReviewPlan ReviewPlanEvents Session.
Local Open Scope Z_scope.

(** [if (cond) transitionInvalid()]. *)
Definition reject_if (cond : bool) : res unit :=
  fail_if cond "SESSION_REDUCER_TRANSITION_INVALID".
(** [x === undefined ? transitionInvalid() : x]. *)
Definition required_value {A} (x : option A) : res A :=
  match x with Some a => Ok a | None => Err "SESSION_REDUCER_TRANSITION_INVALID" end.

(** [values.includes(x)] on an enumeration. *)
Definition one_of {A} `{EqDecision A} (x : A) (l : list A) : bool := bool_decide (x ∈ l).

(** [[...new Set(values)]]. *)
Definition unique (values : list string) : list string :=
  foldl (λ acc x, if memb x acc then acc else acc ++ [x]) [] values.

Definition unique_values (values : list jsval) : list jsval :=
  foldl (λ acc x, if existsb (identical x) acc then acc else acc ++ [x]) [] values.

Definition useId (ids : list string) (id : string) : res (list string) :=
  fail_if (memb id ids) "SESSION_REDUCER_ID_REUSED";;
  Ok (id :: ids).

Definition stable_id (namespace id : string) : string := namespace +:+ ":" +:+ id.
Definition useStableId (ids : list string) (namespace id : string) : res (list string) :=
  useId ids (stable_id namespace id).

(** [assertReducerTransition(() => assertion)]. *)
Definition assertReducerTransition (assertion : res unit) : res unit :=
  rethrow "SESSION_REDUCER_TRANSITION_INVALID" assertion.

(** ** Usage *)

(** One key of the loop of [mergeUsage]. *)
Definition merge_key {A} (zero : A) (add : A → A → A) (left right : option A) : option A :=
  match left, right with
  | None, None => None
  | _, _ => Some (add (default zero left) (default zero right))
  end.

Definition merge_provider (current update : ProviderUsage) : ProviderUsage :=
  {| pu_inputTokens := merge_key 0 Z.add (pu_inputTokens current) (pu_inputTokens update);
     pu_outputTokens := merge_key 0 Z.add (pu_outputTokens current) (pu_outputTokens update);
     pu_cacheReadTokens := merge_key 0 Z.add (pu_cacheReadTokens current) (pu_cacheReadTokens update);
     pu_cacheWriteTokens := merge_key 0 Z.add (pu_cacheWriteTokens current) (pu_cacheWriteTokens update);
     pu_costUsd := merge_key (NInt 0) num_add (pu_costUsd current) (pu_costUsd update) |}.

Definition mergeUsage (current update : BudgetUsage) : BudgetUsage :=
  {| bu_turns := bu_turns current + bu_turns update;
     bu_toolCalls := bu_toolCalls current + bu_toolCalls update;
     bu_subagents := bu_subagents current + bu_subagents update;
     bu_provider := merge_provider (bu_provider current) (bu_provider update) |}.

Definition normalizeBudgetUsage (current : PartialUsage) : BudgetUsage :=
  {| bu_turns := default 0 (wu_turns current); bu_toolCalls := default 0 (wu_toolCalls current);
     bu_subagents := default 0 (wu_subagents current); bu_provider := wu_provider current |}.

Definition no_provider_usage : ProviderUsage :=
  {| pu_inputTokens := None; pu_outputTokens := None; pu_cacheReadTokens := None;
     pu_cacheWriteTokens := None; pu_costUsd := None |}.
Definition no_usage : PartialUsage :=
  {| wu_turns := None; wu_toolCalls := None; wu_subagents := None; wu_provider := no_provider_usage |}.
Definition whole_usage (u : BudgetUsage) : PartialUsage :=
  {| wu_turns := Some (bu_turns u); wu_toolCalls := Some (bu_toolCalls u);
     wu_subagents := Some (bu_subagents u); wu_provider := bu_provider u |}.
Definition provider_usage (u : ProviderUsage) : BudgetUsage :=
  {| bu_turns := 0; bu_toolCalls := 0; bu_subagents := 0; bu_provider := u |}.

(** ** The compaction digest *)

Section Digest.
Context `{JsEngine} `{JsCrypto}.

Definition sessionCompactionSummaryDigestV3 (summary : SessionCompactionSummaryV3) : string :=
  let canonical := JObj ([("schemaVersion", JInt 1); ("trust", JStr "low")]%string
    ++ opt_prop "objective" JStr (cs_objective summary)
    ++ opt_prop "relevantRefs" JStrs (cs_relevantRefs summary)
    ++ [("decisions", JStrs (cs_decisions summary)); ("constraints", JStrs (cs_constraints summary));
        ("readFiles", JStrs (cs_readFiles summary)); ("modifiedFiles", JStrs (cs_modifiedFiles summary));
        ("unresolved", JStrs (cs_unresolved summary)); ("activePlan", JStrs (cs_activePlan summary))]%string)
  in "sha256:" +:+ sha256_hex (default ""%string (JSON_stringify canonical)).
End Digest.

(** ** Access to the plan *)

Definition requirePlan (plan : option MutablePlan) (planId : string) : res MutablePlan :=
  current ← required_value plan;
  reject_if (bool_decide (mp_planId current ≠ planId));;
  Ok current.

Definition requirePlanRevision (plan : option MutablePlan) (planId : string) (planRevision : Z) :
    res MutablePlan :=
  current ← requirePlan plan planId;
  reject_if (negb (mp_revision current =? planRevision));;
  Ok current.

Definition requireStepRevision (plan : option MutablePlan) (planId : string) (planRevision : Z)
    (stepId : string) : res MutableStep :=
  current ← requirePlanRevision plan planId planRevision;
  required_value (mget stepId (mp_steps current)).

Definition requireAttemptRevision (plan : option MutablePlan) (planId : string) (planRevision : Z)
    (stepId attemptId : string) : res MutableAttempt :=
  step ← requireStepRevision plan planId planRevision stepId;
  required_value (mget attemptId (ms_attempts step)).

Definition latestStepAttempt (step : MutableStep) : option MutableAttempt :=
  head (js_sort (λ left right, ma_ordinal right <=? ma_ordinal left) (ms_attempts step).*2).

(** Mutation of the objects that the maps hold. *)
Definition with_steps (plan : MutablePlan) (steps : list (string * MutableStep)) : MutablePlan :=
  {| mp_planId := mp_planId plan; mp_revision := mp_revision plan; mp_objective := mp_objective plan;
     mp_state := mp_state plan; mp_steps := steps |}.
Definition with_plan_state (plan : MutablePlan) (state : PlanStateV1) : MutablePlan :=
  {| mp_planId := mp_planId plan; mp_revision := mp_revision plan; mp_objective := mp_objective plan;
     mp_state := state; mp_steps := mp_steps plan |}.
Definition with_step_state (step : MutableStep) (state : PlanStepStateV1) (errorCode : option string) :
    MutableStep :=
  {| ms_stepId := ms_stepId step; ms_title := ms_title step; ms_order := ms_order step;
     ms_state := state; ms_errorCode := errorCode; ms_dependencies := ms_dependencies step;
     ms_access := ms_access step; ms_capabilities := ms_capabilities step;
     ms_conflictKeys := ms_conflictKeys step; ms_criteria := ms_criteria step;
     ms_budget := ms_budget step; ms_maxAttempts := ms_maxAttempts step;
     ms_attempts := ms_attempts step |}.
Definition with_attempts (step : MutableStep) (attempts : list (string * MutableAttempt)) : MutableStep :=
  {| ms_stepId := ms_stepId step; ms_title := ms_title step; ms_order := ms_order step;
     ms_state := ms_state step; ms_errorCode := ms_errorCode step;
     ms_dependencies := ms_dependencies step;
     ms_access := ms_access step; ms_capabilities := ms_capabilities step;
     ms_conflictKeys := ms_conflictKeys step; ms_criteria := ms_criteria step;
     ms_budget := ms_budget step; ms_maxAttempts := ms_maxAttempts step;
     ms_attempts := attempts |}.

(** The object that a map holds under [k] changes in place. *)
Definition mupdate {V} (k : string) (f : V → V) (m : list (string * V)) : list (string * V) :=
  (λ kv, (kv.1, if decide (kv.1 = k) then f kv.2 else kv.2)) <$> m.
Definition mutate_step (plan : MutablePlan) (stepId : string) (f : MutableStep → MutableStep) :
    MutablePlan := with_steps plan (mupdate stepId f (mp_steps plan)).
Definition mutate_attempt (plan : MutablePlan) (stepId attemptId : string)
    (f : MutableAttempt → MutableAttempt) : MutablePlan :=
  mutate_step plan stepId (λ step, with_attempts step (mupdate attemptId f (ms_attempts step))).

(** ** Plan events

    Every handler reads and changes the plan; those that reserve identities
    also thread [stableIds]. *)

Definition plan_terminal (state : PlanStateV1) : bool :=
  one_of state [P_succeeded; P_failed; P_cancelled; P_interrupted].

Definition on_plan_created (ids : list string) (plan : option MutablePlan) (data : PlanCreatedData) :
    res (list string * MutablePlan) :=
  reject_if (match plan with Some p => negb (plan_terminal (mp_state p)) | None => false end);;
  ids ← useStableId ids "plan" (pc_planId data);
  Ok (ids, {| mp_planId := pc_planId data; mp_revision := pc_planRevision data;
              mp_objective := pc_objective data; mp_state := pc_state data; mp_steps := [] |}).

Definition on_plan_state_changed (plan : option MutablePlan) (data : PlanStateChangedData) :
    res MutablePlan :=
  current ← requirePlanRevision plan (psc_planId data) (psc_planRevision data);
  assertReducerTransition (assertPlanStateTransitionV1 (mp_state current) (psc_state data));;
  reject_if (bool_decide (psc_state data = P_succeeded)
             && existsb (λ kv, bool_decide (ms_state kv.2 ≠ S_succeeded)) (mp_steps current));;
  Ok (with_plan_state current (psc_state data)).

Definition on_plan_decision_recorded (plan : option MutablePlan) (data : PlannerDecisionData) :
    res MutablePlan :=
  current ← requirePlanRevision plan (pd_planId data) (pd_planRevision data);
  match pd_stepId data with
  | None => Ok current
  | Some stepId =>
      step ← required_value (mget stepId (mp_steps current));
      match pd_attemptId data with
      | None => Ok current
      | Some attemptId =>
          reject_if (is_none (mget attemptId (ms_attempts step)));;
          Ok current
      end
  end.

Definition active_attempt (attempt : MutableAttempt) : bool :=
  one_of (ma_state attempt) [A_reserved; A_running; A_execution_succeeded; A_verifying].
Definition active_step (step : MutableStep) : bool :=
  one_of (ms_state step) [S_running; S_verifying]
  || existsb (λ kv, active_attempt kv.2) (ms_attempts step).

(** One proof of the loop of [plan.revised]: the step that it lets stay. *)
Definition reuse_step (current : MutablePlan) (proofs : list ReuseProof) (proof : ReuseProof) :
    res MutableStep :=
  step ← required_value (mget (rp_stepId proof) (mp_steps current));
  attempt ← required_value (latestStepAttempt step);
  reject_if (bool_decide (ms_state step ≠ S_succeeded)
    || bool_decide (ma_state attempt ≠ A_verified)
    || bool_decide ((vr_digest ∘ sr_packetRef ∘ ex_request <$> ma_execution attempt)
                    ≠ Some (rp_previousInputDigest proof))
    || bool_decide (rp_previousInputDigest proof ≠ rp_nextInputDigest proof)
    || existsb (λ dependency,
         negb (existsb (λ candidate, bool_decide (rp_stepId candidate = dependency)) proofs))
         (ms_dependencies step));;
  Ok step.

Fixpoint reuse_steps (current : MutablePlan) (proofs todo : list ReuseProof)
    (reused : list (string * MutableStep)) : res (list (string * MutableStep)) :=
  match todo with
  | [] => Ok reused
  | proof :: todo =>
      step ← reuse_step current proofs proof;
      reuse_steps current proofs todo (mset (ms_stepId step) step reused)
  end.

Definition on_plan_revised (plan : option MutablePlan) (data : PlanRevisedData) : res MutablePlan :=
  current ← requirePlanRevision plan (pr_planId data) (pr_fromRevision data);
  reject_if (negb (one_of (mp_state current) [P_running; P_blocked; P_failed])
             || negb (pr_toRevision data =? mp_revision current + 1)
             || existsb (λ kv, active_step kv.2) (mp_steps current));;
  reused ← reuse_steps current (pr_reuseProofs data) (pr_reuseProofs data) [];
  Ok {| mp_planId := mp_planId current; mp_revision := pr_toRevision data;
        mp_objective := pr_objective data; mp_state := P_running; mp_steps := reused |}.

Definition new_step (data : StepCreatedData) : MutableStep :=
  {| ms_stepId := sd_stepId data; ms_title := sd_title data; ms_order := sd_order data;
     ms_state := sd_state data; ms_errorCode := None; ms_dependencies := sd_dependencies data;
     ms_access := sd_access data; ms_capabilities := sd_capabilities data;
     ms_conflictKeys := sd_conflictKeys data; ms_criteria := sd_criteria data;
     ms_budget := sd_budget data; ms_maxAttempts := sd_maxAttempts data; ms_attempts := [] |}.

Definition on_step_created (ids : list string) (plan : option MutablePlan) (data : StepCreatedData) :
    res (list string * MutablePlan) :=
  current ← requirePlanRevision plan (sd_planId data) (sd_planRevision data);
  ids ← useStableId ids "step" (sd_stepId data);
  reject_if (negb (is_none (mget (sd_stepId data) (mp_steps current))));;
  Ok (ids, with_steps current (mset (sd_stepId data) (new_step data) (mp_steps current))).

Definition step_options (step : MutableStep) (data : StepStateChangedData) : PlanStepTransitionOptions :=
  let newAttempt := newAttemptId ← ssc_newAttemptId data; mget newAttemptId (ms_attempts step) in
  {| retryApproved := bool_decide (ssc_reason data = Some retry_approved);
     recoveryRetryApproved := bool_decide (ssc_reason data = Some recovery_retry_approved);
     externalConditionChanged := bool_decide (ssc_reason data = Some external_condition_changed);
     createsNewAttempt := match newAttempt with
       | Some a => (ma_ordinal a =? Z.of_nat (length (ms_attempts step)))
                   && bool_decide (ma_state a = A_reserved)
       | None => false
       end |}.

(** The state that the latest attempt must have for the step to enter [state]. *)
Definition attempt_state_for (state : PlanStepStateV1) : option PlanAttemptStateV1 :=
  match state with
  | S_running => Some A_reserved | S_verifying => Some A_verifying | S_succeeded => Some A_verified
  | _ => None
  end.

Definition on_step_state_changed (plan : option MutablePlan) (data : StepStateChangedData) :
    res MutablePlan :=
  step ← requireStepRevision plan (ssc_planId data) (ssc_planRevision data) (ssc_stepId data);
  assertReducerTransition
    (assertPlanStepTransitionV1 (ms_state step) (ssc_state data) (step_options step data));;
  reject_if match attempt_state_for (ssc_state data) with
            | Some expected => bool_decide ((ma_state <$> latestStepAttempt step) ≠ Some expected)
            | None => false
            end;;
  current ← required_value plan;
  Ok (mutate_step current (ssc_stepId data)
        (λ step, with_step_state step (ssc_state data) (ssc_errorCode data))).

Definition new_attempt (data : AttemptCreatedData) : MutableAttempt :=
  {| ma_attemptId := ac_attemptId data; ma_ordinal := ac_ordinal data; ma_state := ac_state data;
     ma_childRunId := ac_childRunId data; ma_resultRef := None; ma_resultDigest := None;
     ma_resultStatus := None; ma_verificationRef := None; ma_errorCode := None; ma_execution := None;
     ma_verifications := [] |}.

Definition on_attempt_created (ids : list string) (plan : option MutablePlan)
    (data : AttemptCreatedData) : res (list string * MutablePlan) :=
  step ← requireStepRevision plan (ac_planId data) (ac_planRevision data) (ac_stepId data);
  reject_if (existsb (λ kv, ma_ordinal kv.2 =? ac_ordinal data) (ms_attempts step));;
  reject_if (negb (ac_ordinal data =? Z.of_nat (length (ms_attempts step)) + 1)
             || (ms_maxAttempts step <? ac_ordinal data));;
  ids ← useStableId ids "attempt" (ac_attemptId data);
  ids ← match ac_childRunId data with
        | Some childRunId => useStableId ids "child-run" childRunId
        | None => Ok ids
        end;
  current ← required_value plan;
  Ok (ids, mutate_step current (ac_stepId data)
             (λ step, with_attempts step (mset (ac_attemptId data) (new_attempt data) (ms_attempts step)))).

Definition with_attempt_state (attempt : MutableAttempt) (state : PlanAttemptStateV1)
    (errorCode : option string) : MutableAttempt :=
  {| ma_attemptId := ma_attemptId attempt; ma_ordinal := ma_ordinal attempt; ma_state := state;
     ma_childRunId := ma_childRunId attempt; ma_resultRef := ma_resultRef attempt;
     ma_resultDigest := ma_resultDigest attempt; ma_resultStatus := ma_resultStatus attempt;
     ma_verificationRef := ma_verificationRef attempt; ma_errorCode := errorCode;
     ma_execution := ma_execution attempt; ma_verifications := ma_verifications attempt |}.

Definition not_passed (v : SessionVerificationProjectionV3) : bool :=
  bool_decide (ve_status v ≠ V_passed).

Definition on_attempt_state_changed (plan : option MutablePlan) (data : AttemptStateChangedData) :
    res MutablePlan :=
  attempt ← requireAttemptRevision plan (asc_planId data) (asc_planRevision data) (asc_stepId data)
              (asc_attemptId data);
  assertReducerTransition (assertPlanAttemptTransitionV1 (ma_state attempt) (asc_state data));;
  reject_if (one_of (asc_state data) [A_execution_succeeded; A_execution_failed]);;
  reject_if ((bool_decide (asc_state data = A_verified)
              && (Nat.eqb (length (ma_verifications attempt)) 0
                  || existsb not_passed (ma_verifications attempt)))
             || (bool_decide (asc_state data = A_rejected)
                 && negb (existsb not_passed (ma_verifications attempt))));;
  current ← required_value plan;
  Ok (mutate_attempt current (asc_stepId data) (asc_attemptId data)
        (λ attempt, with_attempt_state attempt (asc_state data) (asc_errorCode data))).

Definition completed_state (status : SubagentStatus) : PlanAttemptStateV1 :=
  match status with
  | E_succeeded => A_execution_succeeded | E_failed => A_execution_failed | E_cancelled => A_cancelled
  end.

Definition on_attempt_execution_completed (plan : option MutablePlan)
    (data : AttemptExecutionCompletedData) : res MutablePlan :=
  attempt ← requireAttemptRevision plan (aec_planId data) (aec_planRevision data) (aec_stepId data)
              (aec_attemptId data);
  let nextState := completed_state (aec_status data) in
  assertReducerTransition (assertPlanAttemptTransitionV1 (ma_state attempt) nextState);;
  reject_if (is_none (ma_resultRef attempt)
             || bool_decide (ma_resultStatus attempt ≠ Some (aec_status data)));;
  current ← required_value plan;
  Ok (mutate_attempt current (aec_stepId data) (aec_attemptId data)
        (λ attempt, with_attempt_state attempt nextState (ma_errorCode attempt))).

Definition with_execution (attempt : MutableAttempt) (execution : AttemptExecution) : MutableAttempt :=
  {| ma_attemptId := ma_attemptId attempt; ma_ordinal := ma_ordinal attempt;
     ma_state := ma_state attempt; ma_childRunId := ma_childRunId attempt;
     ma_resultRef := ma_resultRef attempt; ma_resultDigest := ma_resultDigest attempt;
     ma_resultStatus := ma_resultStatus attempt; ma_verificationRef := ma_verificationRef attempt;
     ma_errorCode := ma_errorCode attempt; ma_execution := Some execution;
     ma_verifications := ma_verifications attempt |}.

Definition on_subagent_execution_bound (plan : option MutablePlan)
    (correlation : SessionEntryCorrelationV3) (data : SubagentExecutionBoundData) : res MutablePlan :=
  attempt ← requireAttemptRevision plan (seb_planId data) (seb_planRevision data) (seb_stepId data)
              (seb_attemptId data);
  request ← validateSubagentExecutionRequestV1 (seb_request data);
  reject_if (bool_decide (ma_state attempt ≠ A_running) || negb (is_none (ma_execution attempt))
             || bool_decide (ma_childRunId attempt ≠ Some (seb_childRunId data))
             || bool_decide (Some (sr_parentRunId request) ≠ mget "parentRunId" correlation)
             || bool_decide (sr_childRunId request ≠ seb_childRunId data));;
  current ← required_value plan;
  Ok (mutate_attempt current (seb_stepId data) (seb_attemptId data)
        (λ attempt, with_execution attempt
           {| ex_request := request; ex_retrySafety := seb_retrySafety data |})).

Definition with_result (attempt : MutableAttempt) (data : SubagentResultRecordedData) : MutableAttempt :=
  {| ma_attemptId := ma_attemptId attempt; ma_ordinal := ma_ordinal attempt;
     ma_state := ma_state attempt;
     ma_childRunId := match ma_childRunId attempt with
                      | None => Some (srr_childRunId data) | Some c => Some c end;
     ma_resultRef := Some (srr_resultRef data); ma_resultDigest := Some (srr_resultDigest data);
     ma_resultStatus := Some (srr_status data); ma_verificationRef := ma_verificationRef attempt;
     ma_errorCode := ma_errorCode attempt; ma_execution := ma_execution attempt;
     ma_verifications := ma_verifications attempt |}.

Definition on_subagent_result_recorded (ids : list string) (plan : option MutablePlan)
    (data : SubagentResultRecordedData) : res (list string * MutablePlan) :=
  attempt ← requireAttemptRevision plan (srr_planId data) (srr_planRevision data) (srr_stepId data)
              (srr_attemptId data);
  reject_if (bool_decide (ma_state attempt ≠ A_running) || negb (is_none (ma_resultRef attempt))
             || match ma_childRunId attempt with
                | Some c => bool_decide (c ≠ srr_childRunId data) | None => false end);;
  ids ← (if is_none (ma_childRunId attempt) then useStableId ids "child-run" (srr_childRunId data)
         else Ok ids);
  current ← required_value plan;
  Ok (ids, mutate_attempt current (srr_stepId data) (srr_attemptId data)
             (λ attempt, with_result attempt data)).

Definition with_verification (attempt : MutableAttempt) (data : VerificationRecordedData) :
    MutableAttempt :=
  {| ma_attemptId := ma_attemptId attempt; ma_ordinal := ma_ordinal attempt;
     ma_state := ma_state attempt; ma_childRunId := ma_childRunId attempt;
     ma_resultRef := ma_resultRef attempt; ma_resultDigest := ma_resultDigest attempt;
     ma_resultStatus := ma_resultStatus attempt;
     ma_verificationRef := Some ("journal://verification/" +:+ vrd_verificationId data);
     ma_errorCode := ma_errorCode attempt; ma_execution := ma_execution attempt;
     ma_verifications := ma_verifications attempt ++
       [{| ve_verificationId := vrd_verificationId data; ve_verifier := vrd_verifier data;
           ve_status := vrd_status data; ve_evidenceRefs := vrd_evidenceRefs data;
           ve_code := vrd_code data; ve_retryable := vrd_retryable data |}] |}.

Definition on_verification_recorded (ids : list string) (plan : option MutablePlan)
    (data : VerificationRecordedData) : res (list string * MutablePlan) :=
  ids ← useStableId ids "verification" (vrd_verificationId data);
  attempt ← requireAttemptRevision plan (vrd_planId data) (vrd_planRevision data) (vrd_stepId data)
              (vrd_attemptId data);
  step ← requireStepRevision plan (vrd_planId data) (vrd_planRevision data) (vrd_stepId data);
  reject_if (bool_decide (ma_state attempt ≠ A_verifying) || bool_decide (ms_state step ≠ S_verifying));;
  current ← required_value plan;
  Ok (ids, mutate_attempt current (vrd_stepId data) (vrd_attemptId data)
             (λ attempt, with_verification attempt data)).

(** ** Session, run and log events *)

Definition with_lifecycle (meta : SessionMeta) (lifecycle : SessionLifecycleStateV3) : SessionMeta :=
  {| me_lifecycle := lifecycle; me_provider := me_provider meta; me_model := me_model meta;
     me_plannerMode := me_plannerMode meta; me_contextLimitTokens := me_contextLimitTokens meta;
     me_name := me_name meta; me_labels := me_labels meta; me_activeLeafId := me_activeLeafId meta |}.
Definition with_leaf (meta : SessionMeta) (activeLeafId : string) : SessionMeta :=
  {| me_lifecycle := me_lifecycle meta; me_provider := me_provider meta; me_model := me_model meta;
     me_plannerMode := me_plannerMode meta; me_contextLimitTokens := me_contextLimitTokens meta;
     me_name := me_name meta; me_labels := me_labels meta; me_activeLeafId := activeLeafId |}.

Definition on_metadata_updated (meta : SessionMeta) (data : SessionMetadataUpdatedData) : SessionMeta :=
  {| me_lifecycle := me_lifecycle meta;
     me_provider := default (me_provider meta) (mu_provider data);
     me_model := default (me_model meta) (mu_model data);
     me_plannerMode := default (me_plannerMode meta) (mu_plannerMode data);
     me_contextLimitTokens := match mu_contextLimitTokens data with
       | Some n => Some n | None => me_contextLimitTokens meta end;
     me_name := default (me_name meta) (mu_name data);
     me_labels := default (me_labels meta) (mu_labels data);
     me_activeLeafId := default (me_activeLeafId meta) (mu_activeLeafId data) |}.

Definition on_session_closed (meta : SessionMeta) (runs : SessionRuns) : res SessionMeta :=
  reject_if (bool_decide (me_lifecycle meta ≠ L_open) || negb (is_none (ru_activeRunId runs)));;
  Ok (with_lifecycle meta L_closed).

Definition on_session_reopened (meta : SessionMeta) : res SessionMeta :=
  reject_if (bool_decide (me_lifecycle meta ≠ L_closed));;
  Ok (with_lifecycle meta L_open).

Definition on_session_deleted (meta : SessionMeta) (runs : SessionRuns) : res SessionMeta :=
  reject_if (negb (is_none (ru_activeRunId runs)));;
  Ok (with_lifecycle meta L_deleted).

(** [entryIds] already holds the entry itself. *)
Definition on_session_forked (sessionId entryId : string) (ids : SessionIds) (meta : SessionMeta)
    (data : SessionForkedData) : res (SessionIds * SessionMeta) :=
  reject_if (bool_decide (fo_childSessionId data = sessionId)
             || bool_decide (fo_sourceEntryId data = entryId)
             || negb (memb (fo_sourceEntryId data) (id_entryIds ids)));;
  forked ← useId (id_forkedSessionIds ids) (fo_childSessionId data);
  Ok ({| id_entryIds := id_entryIds ids; id_stableIds := id_stableIds ids;
         id_forkedSessionIds := forked |}, with_leaf meta (fo_childSessionId data)).

Definition new_run (runId clientRequestId : string) (planPolicy : option SessionPlanPolicyV3) :
    SessionRunProjectionV3 :=
  {| rn_runId := runId; rn_clientRequestId := clientRequestId; rn_state := R_running;
     rn_usage := no_usage; rn_errorCode := None; rn_planPolicy := default optional planPolicy |}.

Definition on_run_started (ids : list string) (meta : SessionMeta) (runs : SessionRuns)
    (runId : option string) (clientRequestId : string) (planPolicy : option SessionPlanPolicyV3) :
    res (list string * SessionRuns) :=
  reject_if (bool_decide (me_lifecycle meta ≠ L_open) || negb (is_none (ru_activeRunId runs)));;
  runId ← required_value runId;
  ids ← useStableId ids "run" runId;
  ids ← useStableId ids "client-request" clientRequestId;
  Ok (ids, {| ru_runs := mset runId (new_run runId clientRequestId planPolicy) (ru_runs runs);
              ru_activeRunId := Some runId; ru_usage := ru_usage runs;
              ru_plannerGeneration := ru_plannerGeneration runs |}).

(** The running run of the entry: [entry.runId] is the active run. *)
Definition requireRun (runs : SessionRuns) (runId : option string) :
    res (string * SessionRunProjectionV3) :=
  runId ← required_value runId;
  reject_if (bool_decide (ru_activeRunId runs ≠ Some runId));;
  run ← required_value (mget runId (ru_runs runs));
  reject_if (bool_decide (rn_state run ≠ R_running));;
  Ok (runId, run).

Definition terminal_state (status : RunTerminalStatus) : SessionRunStateV3 :=
  match status with
  | T_completed => R_completed | T_failed => R_failed | T_aborted => R_aborted
  | T_interrupted => R_interrupted
  end.

(** The terminal usage keeps the counters that the run has accumulated. *)
Definition finish_run (run : SessionRunProjectionV3) (data : RunTerminalData) : SessionRunProjectionV3 :=
  {| rn_runId := rn_runId run; rn_clientRequestId := rn_clientRequestId run;
     rn_state := terminal_state (rt_status data);
     rn_usage := {| wu_turns := wu_turns (rn_usage run); wu_toolCalls := wu_toolCalls (rn_usage run);
                    wu_subagents := wu_subagents (rn_usage run); wu_provider := rt_usage data |};
     rn_errorCode := match rt_errorCode data with Some c => Some c | None => rn_errorCode run end;
     rn_planPolicy := rn_planPolicy run |}.

Definition on_run_terminal (runs : SessionRuns) (runId : option string) (data : RunTerminalData) :
    res SessionRuns :=
  '(runId, run) ← requireRun runs runId;
  Ok {| ru_runs := mset runId (finish_run run data) (ru_runs runs); ru_activeRunId := None;
        ru_usage := ru_usage runs; ru_plannerGeneration := ru_plannerGeneration runs |}.

Definition with_run_usage (run : SessionRunProjectionV3) (usage : BudgetUsage) : SessionRunProjectionV3 :=
  {| rn_runId := rn_runId run; rn_clientRequestId := rn_clientRequestId run; rn_state := rn_state run;
     rn_usage := whole_usage (mergeUsage (normalizeBudgetUsage (rn_usage run)) usage);
     rn_errorCode := rn_errorCode run; rn_planPolicy := rn_planPolicy run |}.

Definition with_usage (runs : SessionRuns) (usage : BudgetUsage) : SessionRuns :=
  {| ru_runs := ru_runs runs; ru_activeRunId := ru_activeRunId runs;
     ru_usage := mergeUsage (ru_usage runs) usage;
     ru_plannerGeneration := ru_plannerGeneration runs |}.

Definition on_usage_recorded (runs : SessionRuns) (runId : option string) (usage : BudgetUsage) :
    res SessionRuns :=
  let runs := with_usage runs usage in
  match runId with
  | None => Ok runs
  | Some _ =>
      '(runId, run) ← requireRun runs runId;
      Ok {| ru_runs := mset runId (with_run_usage run usage) (ru_runs runs);
            ru_activeRunId := ru_activeRunId runs; ru_usage := ru_usage runs;
            ru_plannerGeneration := ru_plannerGeneration runs |}
  end.

Definition on_planner_generation (runs : SessionRuns) (runId : option string) (timestamp : string)
    (data : PlannerGenerationData) : res SessionRuns :=
  runId ← required_value runId;
  reject_if (bool_decide (ru_activeRunId runs ≠ Some runId));;
  Ok {| ru_runs := ru_runs runs; ru_activeRunId := ru_activeRunId runs; ru_usage := ru_usage runs;
        ru_plannerGeneration := Some {| gp_data := data; gp_runId := runId; gp_recordedAt := timestamp |} |}.

Definition log_message (log : SessionLog) (messageId : string) (message : jsval) : SessionLog :=
  {| lg_messages := lg_messages log ++ [(messageId, message)]; lg_commandIds := lg_commandIds log;
     lg_skillInvocationIds := lg_skillInvocationIds log;
     lg_permissionRequestIds := lg_permissionRequestIds log; lg_artifacts := lg_artifacts log;
     lg_resultRefs := lg_resultRefs log |}.
Definition log_command (log : SessionLog) (commandId : string) : SessionLog :=
  {| lg_messages := lg_messages log; lg_commandIds := lg_commandIds log ++ [commandId];
     lg_skillInvocationIds := lg_skillInvocationIds log;
     lg_permissionRequestIds := lg_permissionRequestIds log; lg_artifacts := lg_artifacts log;
     lg_resultRefs := lg_resultRefs log |}.
Definition log_skill (log : SessionLog) (invocationId : string) : SessionLog :=
  {| lg_messages := lg_messages log; lg_commandIds := lg_commandIds log;
     lg_skillInvocationIds := lg_skillInvocationIds log ++ [invocationId];
     lg_permissionRequestIds := lg_permissionRequestIds log; lg_artifacts := lg_artifacts log;
     lg_resultRefs := lg_resultRefs log |}.
Definition log_permission (log : SessionLog) (requestId : string) : SessionLog :=
  {| lg_messages := lg_messages log; lg_commandIds := lg_commandIds log;
     lg_skillInvocationIds := lg_skillInvocationIds log;
     lg_permissionRequestIds := lg_permissionRequestIds log ++ [requestId];
     lg_artifacts := lg_artifacts log; lg_resultRefs := lg_resultRefs log |}.
Definition log_artifact (log : SessionLog) (artifact : ArtifactReference) : SessionLog :=
  {| lg_messages := lg_messages log; lg_commandIds := lg_commandIds log;
     lg_skillInvocationIds := lg_skillInvocationIds log;
     lg_permissionRequestIds := lg_permissionRequestIds log;
     lg_artifacts := mset (ar_artifactId artifact) artifact (lg_artifacts log);
     lg_resultRefs := lg_resultRefs log |}.
Definition log_results (log : SessionLog) (refs : list string) : SessionLog :=
  {| lg_messages := lg_messages log; lg_commandIds := lg_commandIds log;
     lg_skillInvocationIds := lg_skillInvocationIds log;
     lg_permissionRequestIds := lg_permissionRequestIds log; lg_artifacts := lg_artifacts log;
     lg_resultRefs := lg_resultRefs log ++ refs |}.

(** ** Compaction *)

Section Compaction.
Context `{JsEngine} `{JsCrypto}.

Definition on_compaction_created (ids : list string)
    (checkpoint : option SessionCompactionCheckpointProjectionV3) (entry : SessionEntryV3)
    (data : CompactionCreatedData) :
    res (list string * SessionCompactionCheckpointProjectionV3) :=
  reject_if (en_sequence entry <=? cc_coveredEndSequence data);;
  reject_if (negb (cc_retainedStartSequence data =? cc_coveredEndSequence data + 1)
    || bool_decide (cc_summaryDigest data ≠ sessionCompactionSummaryDigestV3 (cc_summary data))
    || match checkpoint with
       | None => negb (is_none (cc_previousCheckpointId data))
                 || negb (cc_coveredStartSequence data =? 1)
       | Some checkpoint =>
           bool_decide (cc_previousCheckpointId data ≠ Some (cp_checkpointId checkpoint))
           || negb (cc_coveredStartSequence data =? cp_startSequence checkpoint)
           || (cc_coveredEndSequence data <=? cp_endSequence checkpoint)
       end);;
  ids ← useStableId ids "checkpoint" (cc_checkpointId data);
  Ok (ids, {| cp_checkpointId := cc_checkpointId data; cp_entryId := en_entryId entry;
              cp_createdAt := en_timestamp entry; cp_startSequence := cc_coveredStartSequence data;
              cp_endSequence := cc_coveredEndSequence data;
              cp_previousCheckpointId := cc_previousCheckpointId data;
              cp_retainedStartSequence := cc_retainedStartSequence data;
              cp_summary := cc_summary data; cp_provenance := cc_provenance data;
              cp_summaryDigest := cc_summaryDigest data; cp_summaryTokens := cc_summaryTokens data;
              cp_reason := cc_reason data; cp_checkpoint := cc_checkpoint data |}).
End Compaction.

(** ** Controls, review budgets and the working plan *)

Definition with_controls (review : SessionReview)
    (controls : list (string * SessionControlProjectionV3)) : SessionReview :=
  {| rv_reviewPlan := rv_reviewPlan review; rv_workingPlan := rv_workingPlan review;
     rv_workingReviews := rv_workingReviews review; rv_reviewControls := controls; rv_reviewBudgets := rv_reviewBudgets review |}.
Definition with_budgets (review : SessionReview)
    (budgets : list (string * SessionReviewBudgetProjectionV3)) : SessionReview :=
  {| rv_reviewPlan := rv_reviewPlan review; rv_workingPlan := rv_workingPlan review;
     rv_workingReviews := rv_workingReviews review; rv_reviewControls := rv_reviewControls review;
     rv_reviewBudgets := budgets |}.
Definition with_working_reviews (review : SessionReview)
    (reviews : list (string * WorkingReviewV1)) : SessionReview :=
  {| rv_reviewPlan := rv_reviewPlan review; rv_workingPlan := rv_workingPlan review;
     rv_workingReviews := reviews; rv_reviewControls := rv_reviewControls review; rv_reviewBudgets := rv_reviewBudgets review |}.

Definition on_control_authorized (ids : list string) (review : SessionReview)
    (data : ControlAuthorizedData) : res (list string * SessionReview) :=
  let controlEventId := vf_controlEventId (ca_fact data) in
  ids ← useStableId ids "control" controlEventId;
  reject_if (negb (is_none (mget controlEventId (rv_reviewControls review))));;
  Ok (ids, with_controls review (mset controlEventId
        {| ct_controlEventId := controlEventId;
           ct_authorizationRequestId := ca_authorizationRequestId data;
           ct_challengeEnvelopeDigest := ca_challengeEnvelopeDigest data; ct_fact := ca_fact data;
           ct_state := Q_authorized; ct_runId := None; ct_providerTurnId := None;
           ct_disposition := None |} (rv_reviewControls review))).

Definition control_to (control : SessionControlProjectionV3) (state : ControlState)
    (binding : option (string * string)) (disposition : option ControlDisposition) :
    SessionControlProjectionV3 :=
  {| ct_controlEventId := ct_controlEventId control;
     ct_authorizationRequestId := ct_authorizationRequestId control;
     ct_challengeEnvelopeDigest := ct_challengeEnvelopeDigest control; ct_fact := ct_fact control;
     ct_state := state;
     ct_runId := match binding with Some b => Some b.1 | None => ct_runId control end;
     ct_providerTurnId := match binding with Some b => Some b.2 | None => ct_providerTurnId control end;
     ct_disposition := match disposition with Some d => Some d | None => ct_disposition control end |}.

Definition differs (bound : option string) (value : string) : bool :=
  match bound with Some b => bool_decide (b ≠ value) | None => false end.

Definition on_control_turn_bound (review : SessionReview) (controlEventId runId providerTurnId : string) :
    res SessionReview :=
  control ← required_value (mget controlEventId (rv_reviewControls review));
  reject_if (bool_decide (ct_state control ≠ Q_authorized)
             || differs (vf_runId (ct_fact control)) runId
             || differs (vf_providerTurnId (ct_fact control)) providerTurnId);;
  Ok (with_controls review (mset (ct_controlEventId control)
        (control_to control Q_turn_bound (Some (runId, providerTurnId)) None)
        (rv_reviewControls review))).

Definition on_control_discarded (review : SessionReview) (controlEventId : string)
    (disposition : ControlDisposition) : res SessionReview :=
  control ← required_value (mget controlEventId (rv_reviewControls review));
  reject_if (bool_decide (ct_state control ≠ Q_turn_bound));;
  Ok (with_controls review (mset (ct_controlEventId control)
        (control_to control Q_discarded None (Some disposition)) (rv_reviewControls review))).

Definition on_control_consumed (review : SessionReview) (controlEventId : string)
    (action : ControlAction) (targetDigest : string) : res SessionReview :=
  control ← required_value (mget controlEventId (rv_reviewControls review));
  reject_if (negb (one_of (ct_state control) [Q_authorized; Q_turn_bound])
             || bool_decide (vf_action (ct_fact control) ≠ action)
             || bool_decide (vf_targetDigest (ct_fact control) ≠ targetDigest));;
  Ok (with_controls review (mset (ct_controlEventId control) (control_to control Q_consumed None None)
        (rv_reviewControls review))).

Section Keys.
Context `{JsEngine}.

(** The template `${reviewRequestId}:${attemptNumber}`. *)
Definition reviewBudgetKey (reviewRequestId : string) (attemptNumber : Z) : string :=
  reviewRequestId +:+ ":" +:+ js_String (JInt attemptNumber).

Definition on_review_budget_reserved (review : SessionReview) (data : ReviewBudgetReservedData) :
    res SessionReview :=
  let key := reviewBudgetKey (rr_reviewRequestId data) (rr_attemptNumber data) in
  reject_if (negb (is_none (mget key (rv_reviewBudgets review))));;
  Ok (with_budgets review (mset key
        {| rb_reviewRequestId := rr_reviewRequestId data; rb_attemptNumber := rr_attemptNumber data;
           rb_reservation := rr_reservation data; rb_state := B_reserved; rb_disposition := None;
           rb_usage := None |} (rv_reviewBudgets review))).

Definition on_review_budget_settled (review : SessionReview) (runs : SessionRuns)
    (data : ReviewBudgetSettledData) : res (SessionReview * SessionRuns) :=
  let key := reviewBudgetKey (rs_reviewRequestId data) (rs_attemptNumber data) in
  budget ← required_value (mget key (rv_reviewBudgets review));
  reject_if (bool_decide (rb_state budget ≠ B_reserved));;
  Ok (with_budgets review (mset key
        {| rb_reviewRequestId := rb_reviewRequestId budget; rb_attemptNumber := rb_attemptNumber budget;
           rb_reservation := rb_reservation budget; rb_state := B_settled;
           rb_disposition := Some (rs_disposition data); rb_usage := Some (rs_usage data) |}
        (rv_reviewBudgets review)),
      with_usage runs (provider_usage (rs_usage data))).
End Keys.

Definition on_working_plan_saved (review : SessionReview) (plan : WorkingPlanV1) : res SessionReview :=
  reject_if (negb (wp_revision plan =? default 0 (wp_revision <$> rv_workingPlan review) + 1));;
  Ok {| rv_reviewPlan := rv_reviewPlan review; rv_workingPlan := Some plan;
        rv_workingReviews := rv_workingReviews review; rv_reviewControls := rv_reviewControls review; rv_reviewBudgets := rv_reviewBudgets review |}.

Definition on_review_requested (review : SessionReview) (r : WorkingReviewV1) : res SessionReview :=
  reject_if (negb (is_none (mget (wr_reviewRequestId r) (rv_workingReviews review))));;
  Ok (with_working_reviews review (mset (wr_reviewRequestId r) r (rv_workingReviews review))).

(** The values of two entries are distinct objects where they are objects.
    [Object.entries(prior).some(([key, value]) => Reflect.get(r, key) !== value)];
    an absent optional property has no entry. *)
Definition review_changed (prior r : WorkingReviewV1) : bool :=
  bool_decide (wr_reviewRequestId r ≠ wr_reviewRequestId prior)
  || bool_decide (wr_operationId r ≠ wr_operationId prior)
  || negb (identical (wr_inputDigest r) (wr_inputDigest prior))
  || negb (identical (wr_inputRef r) (wr_inputRef prior))
  || negb (identical (wr_requestDigest r) (wr_requestDigest prior))
  || bool_decide (wr_planRevision r ≠ wr_planRevision prior)
  || negb (wr_snapshotSequence r =? wr_snapshotSequence prior)
  || negb (wr_evidenceSequence r =? wr_evidenceSequence prior)
  || match wr_reportRef prior with
     | Some p => negb (identical (undef_prop id (wr_reportRef r)) p) | None => false end
  || match wr_verdict prior with
     | Some p => negb (identical (undef_prop id (wr_verdict r)) p) | None => false end.

Definition on_reviewed (review : SessionReview) (r : WorkingReviewV1) : res SessionReview :=
  prior ← required_value (mget (wr_reviewRequestId r) (rv_workingReviews review));
  reject_if (negb (is_none (wr_reportRef prior)) || review_changed prior r);;
  Ok (with_working_reviews review (mset (wr_reviewRequestId r) r (rv_workingReviews review))).

(** The [default] branch. *)
Definition on_review_plan_event `{RP : ReviewPlanContract} (review : SessionReview) (entry : SessionEntryV3)
    (type : string) (data : jsval) : res SessionReview :=
  reject_if (negb (isReviewPlanEventTypeV1 type));;
  reviewPlan ← reduce_review_plan_event (rv_reviewPlan review)
    {| rpe_type := type; rpe_sequence := en_sequence entry; rpe_revision := en_revision entry;
       rpe_runId := en_runId entry; rpe_correlation := None; rpe_data := data |};
  Ok {| rv_reviewPlan := Some reviewPlan; rv_workingPlan := rv_workingPlan review;
        rv_workingReviews := rv_workingReviews review; rv_reviewControls := rv_reviewControls review;
        rv_reviewBudgets := rv_reviewBudgets review |}.

(** ** The loop over the entries *)

Definition with_stable (ids : SessionIds) (stable : list string) : SessionIds :=
  {| id_entryIds := id_entryIds ids; id_stableIds := stable;
     id_forkedSessionIds := id_forkedSessionIds ids |}.

(** Replacements of one part of the state. *)
Definition put_ids (st : SessionState) (ids : SessionIds) : SessionState :=
  {| ss_ids := ids; ss_meta := ss_meta st; ss_runs := ss_runs st; ss_log := ss_log st;
     ss_checkpoint := ss_checkpoint st; ss_plan := ss_plan st; ss_review := ss_review st;
     ss_previous := ss_previous st |}.
Definition put_stable (st : SessionState) (stable : list string) : SessionState :=
  put_ids st (with_stable (ss_ids st) stable).
Definition put_meta (st : SessionState) (meta : SessionMeta) : SessionState :=
  {| ss_ids := ss_ids st; ss_meta := meta; ss_runs := ss_runs st; ss_log := ss_log st;
     ss_checkpoint := ss_checkpoint st; ss_plan := ss_plan st; ss_review := ss_review st;
     ss_previous := ss_previous st |}.
Definition put_runs (st : SessionState) (runs : SessionRuns) : SessionState :=
  {| ss_ids := ss_ids st; ss_meta := ss_meta st; ss_runs := runs; ss_log := ss_log st;
     ss_checkpoint := ss_checkpoint st; ss_plan := ss_plan st; ss_review := ss_review st;
     ss_previous := ss_previous st |}.
Definition put_log (st : SessionState) (log : SessionLog) : SessionState :=
  {| ss_ids := ss_ids st; ss_meta := ss_meta st; ss_runs := ss_runs st; ss_log := log;
     ss_checkpoint := ss_checkpoint st; ss_plan := ss_plan st; ss_review := ss_review st;
     ss_previous := ss_previous st |}.
Definition put_checkpoint (st : SessionState) (cp : SessionCompactionCheckpointProjectionV3) :
    SessionState :=
  {| ss_ids := ss_ids st; ss_meta := ss_meta st; ss_runs := ss_runs st; ss_log := ss_log st;
     ss_checkpoint := Some cp; ss_plan := ss_plan st; ss_review := ss_review st;
     ss_previous := ss_previous st |}.
Definition put_plan (st : SessionState) (plan : MutablePlan) : SessionState :=
  {| ss_ids := ss_ids st; ss_meta := ss_meta st; ss_runs := ss_runs st; ss_log := ss_log st;
     ss_checkpoint := ss_checkpoint st; ss_plan := Some plan; ss_review := ss_review st;
     ss_previous := ss_previous st |}.
Definition put_review (st : SessionState) (review : SessionReview) : SessionState :=
  {| ss_ids := ss_ids st; ss_meta := ss_meta st; ss_runs := ss_runs st; ss_log := ss_log st;
     ss_checkpoint := ss_checkpoint st; ss_plan := ss_plan st; ss_review := review;
     ss_previous := ss_previous st |}.
Definition put_previous (st : SessionState) (entry : SessionEntryV3) : SessionState :=
  {| ss_ids := ss_ids st; ss_meta := ss_meta st; ss_runs := ss_runs st; ss_log := ss_log st;
     ss_checkpoint := ss_checkpoint st; ss_plan := ss_plan st; ss_review := ss_review st;
     ss_previous := entry |}.

(** The four types of entry that a closed session accepts. *)
Definition closed_accepts (data : SessionEntryData) : bool :=
  match data with
  | session_metadata_updated _ | session_reopened _ | session_forked _ | session_deleted _ => true
  | _ => false
  end.

(** The checks on every entry but the first. *)
Definition entry_guards (st : SessionState) (entry : SessionEntryV3) : res unit :=
  let previous := ss_previous st in
  fail_if (negb (en_sequence entry =? en_sequence previous + 1)) "SESSION_REDUCER_SEQUENCE_INVALID";;
  fail_if ((en_revision entry <? en_revision previous)
           || (en_revision previous + 1 <? en_revision entry)) "SESSION_REDUCER_REVISION_INVALID";;
  fail_if (string_ltb (en_timestamp entry) (en_timestamp previous)) "SESSION_REDUCER_TIMESTAMP_INVALID";;
  reject_if (bool_decide (me_lifecycle (ss_meta st) = L_deleted));;
  reject_if (bool_decide (me_lifecycle (ss_meta st) = L_closed)
             && negb (closed_accepts (en_data entry))).

Section Reducer.
Context `{JsEngine} `{JsCrypto} `{RP : ReviewPlanContract}.

(** The [switch] over the entry type.  [is_first] is [entry === first]. *)
Definition apply_entry (sessionId : string) (is_first : bool) (st : SessionState)
    (entry : SessionEntryV3) : res SessionState :=
  let stable := id_stableIds (ss_ids st) in
  let log := ss_log st in
  let plan_with_ids := λ r : list string * MutablePlan, put_plan (put_stable st r.1) r.2 in
  match en_data entry with
  | session_created _ =>
      fail_if (negb is_first) "SESSION_REDUCER_ID_REUSED";; Ok st
  | session_metadata_updated data => Ok (put_meta st (on_metadata_updated (ss_meta st) data))
  | session_plan_updated _ => Ok st
  | session_closed _ => put_meta st <$> on_session_closed (ss_meta st) (ss_runs st)
  | session_reopened _ => put_meta st <$> on_session_reopened (ss_meta st)
  | session_forked data =>
      r ← on_session_forked sessionId (en_entryId entry) (ss_ids st) (ss_meta st) data;
      Ok (put_meta (put_ids st r.1) r.2)
  | session_deleted _ => put_meta st <$> on_session_deleted (ss_meta st) (ss_runs st)
  | message_committed messageId message =>
      ids ← useStableId stable "message" messageId;
      Ok (put_log (put_stable st ids) (log_message log messageId message))
  | run_started clientRequestId planPolicy =>
      r ← on_run_started stable (ss_meta st) (ss_runs st) (en_runId entry) clientRequestId planPolicy;
      Ok (put_runs (put_stable st r.1) r.2)
  | run_terminal data => put_runs st <$> on_run_terminal (ss_runs st) (en_runId entry) data
  | command_invoked commandId _ resultRef =>
      ids ← useStableId stable "command" commandId;
      Ok (put_log (put_stable st ids)
            (match resultRef with
             | Some ref => log_results (log_command log commandId) [ref]
             | None => log_command log commandId
             end))
  | skill_invoked invocationId _ =>
      ids ← useStableId stable "skill-invocation" invocationId;
      Ok (put_log (put_stable st ids) (log_skill log invocationId))
  | permission_decided requestId _ =>
      ids ← useStableId stable "permission-request" requestId;
      Ok (put_log (put_stable st ids) (log_permission log requestId))
  | usage_recorded _ usage => put_runs st <$> on_usage_recorded (ss_runs st) (en_runId entry) usage
  | planner_generation_recorded data =>
      put_runs st <$> on_planner_generation (ss_runs st) (en_runId entry) (en_timestamp entry) data
  | compaction_created data =>
      r ← on_compaction_created stable (ss_checkpoint st) entry data;
      Ok (put_checkpoint (put_stable st r.1) r.2)
  | plan_created data => plan_with_ids <$> on_plan_created stable (ss_plan st) data
  | plan_state_changed data => put_plan st <$> on_plan_state_changed (ss_plan st) data
  | plan_decision_recorded data => put_plan st <$> on_plan_decision_recorded (ss_plan st) data
  | plan_revised data => put_plan st <$> on_plan_revised (ss_plan st) data
  | step_created data => plan_with_ids <$> on_step_created stable (ss_plan st) data
  | step_state_changed data => put_plan st <$> on_step_state_changed (ss_plan st) data
  | attempt_created data => plan_with_ids <$> on_attempt_created stable (ss_plan st) data
  | attempt_state_changed data => put_plan st <$> on_attempt_state_changed (ss_plan st) data
  | attempt_execution_completed data =>
      put_plan st <$> on_attempt_execution_completed (ss_plan st) data
  | subagent_execution_bound data =>
      put_plan st <$> on_subagent_execution_bound (ss_plan st) (en_correlation entry) data
  | subagent_result_recorded data =>
      r ← on_subagent_result_recorded stable (ss_plan st) data;
      Ok (put_log (plan_with_ids r) (log_results log [srr_resultRef data]))
  | verification_recorded data =>
      r ← on_verification_recorded stable (ss_plan st) data;
      Ok (put_log (plan_with_ids r) (log_results log (vrd_evidenceRefs data)))
  | artifact_referenced _ artifact =>
      ids ← useStableId stable "artifact" (ar_artifactId artifact);
      Ok (put_log (put_stable st ids) (log_artifact log artifact))
  | control_authorized data =>
      r ← on_control_authorized stable (ss_review st) data;
      Ok (put_review (put_stable st r.1) r.2)
  | control_turn_bound controlEventId runId providerTurnId =>
      put_review st <$> on_control_turn_bound (ss_review st) controlEventId runId providerTurnId
  | control_discarded controlEventId disposition =>
      put_review st <$> on_control_discarded (ss_review st) controlEventId disposition
  | control_consumed controlEventId action targetDigest =>
      put_review st <$> on_control_consumed (ss_review st) controlEventId action targetDigest
  | review_budget_reserved data => put_review st <$> on_review_budget_reserved (ss_review st) data
  | review_budget_settled data =>
      r ← on_review_budget_settled (ss_review st) (ss_runs st) data;
      Ok (put_runs (put_review st r.1) r.2)
  | working_plan_saved _ _ plan => put_review st <$> on_working_plan_saved (ss_review st) plan
  | working_plan_review_requested r => put_review st <$> on_review_requested (ss_review st) r
  | working_plan_reviewed r => put_review st <$> on_reviewed (ss_review st) r
  | review_plan_event type data => put_review st <$> on_review_plan_event (ss_review st) entry type data
  end.

Definition use_entry_id (st : SessionState) (entry : SessionEntryV3) : res SessionState :=
  entryIds ← useId (id_entryIds (ss_ids st)) (en_entryId entry);
  Ok (put_ids st {| id_entryIds := entryIds; id_stableIds := id_stableIds (ss_ids st);
                    id_forkedSessionIds := id_forkedSessionIds (ss_ids st) |}).

(** One iteration of the loop. *)
Definition reduce_entry (sessionId : string) (is_first : bool) (st : SessionState)
    (entry : SessionEntryV3) : res SessionState :=
  fail_if (bool_decide (en_sessionId entry ≠ sessionId)) "SESSION_REDUCER_SESSION_MISMATCH";;
  (if is_first then Ok tt else entry_guards st entry);;
  st ← use_entry_id st entry;
  st ← apply_entry sessionId is_first st entry;
  Ok (put_previous st entry).

Fixpoint reduce_entries (sessionId : string) (st : SessionState) (entries : list SessionEntryV3) :
    res SessionState :=
  match entries with
  | [] => Ok st
  | entry :: entries =>
      st ← reduce_entry sessionId false st entry;
      reduce_entries sessionId st entries
  end.

(** The initial values of the local variables. *)
Definition initial_state (first : SessionEntryV3) (data : SessionCreatedData) : SessionState :=
  {| ss_ids := {| id_entryIds := []; id_stableIds := []; id_forkedSessionIds := [] |};
     ss_meta := {| me_lifecycle := L_open; me_provider := cr_provider data; me_model := cr_model data;
                   me_plannerMode := default M_auto (cr_plannerMode data);
                   me_contextLimitTokens := cr_contextLimitTokens data; me_name := cr_name data;
                   me_labels := cr_labels data; me_activeLeafId := en_sessionId first |};
     ss_runs := {| ru_runs := []; ru_activeRunId := None; ru_usage := provider_usage no_provider_usage;
                   ru_plannerGeneration := None |};
     ss_log := {| lg_messages := []; lg_commandIds := []; lg_skillInvocationIds := [];
                  lg_permissionRequestIds := []; lg_artifacts := []; lg_resultRefs := [] |};
     ss_checkpoint := None; ss_plan := None;
     ss_review := {| rv_reviewPlan := None; rv_workingPlan := None; rv_workingReviews := []; rv_reviewControls := [];
                     rv_reviewBudgets := [] |};
     ss_previous := first |}.

(** The state after the loop. *)
Definition reduce_state (input : list SessionEntryV3) : res (SessionEntryV3 * SessionCreatedData * SessionState) :=
  fail_if (Z.of_nat (length input) >? MAX_ENTRIES) "SESSION_REDUCER_FIRST_ENTRY_INVALID";;
  match input with
  | [] => Err "SESSION_REDUCER_FIRST_ENTRY_INVALID"
  | first :: rest =>
      match en_data first with
      | session_created data =>
          fail_if (negb (en_sequence first =? 1) || negb (en_revision first =? 1))
            "SESSION_REDUCER_FIRST_ENTRY_INVALID";;
          st ← reduce_entry (en_sessionId first) true (initial_state first data) first;
          st ← reduce_entries (en_sessionId first) st rest;
          Ok (first, data, st)
      | _ => Err "SESSION_REDUCER_FIRST_ENTRY_INVALID"
      end
  end.

(** ** The projection of the plan *)

(** [left.order - right.order || left.stepId.localeCompare(right.stepId)] is at most 0. *)
Definition mutable_step_before (left right : MutableStep) : bool :=
  (ms_order left <? ms_order right)
  || (ms_order left =? ms_order right)
     && match localeCompare (ms_stepId left) (ms_stepId right) with Gt => false | _ => true end.

Definition by_ordinal (attempts : list MutableAttempt) : list MutableAttempt :=
  js_sort (λ left right, ma_ordinal left <=? ma_ordinal right) attempts.

Definition ordered_attempts (step : MutableStep) : list MutableAttempt :=
  by_ordinal (ms_attempts step).*2.

Definition attempt_consistent (attempt : MutableAttempt) : bool :=
  match ma_resultRef attempt with
  | None => true
  | Some _ =>
      match ma_resultStatus attempt with
      | Some E_succeeded =>
          one_of (ma_state attempt) [A_verifying; A_verified; A_rejected; A_cancelled; A_interrupted]
      | Some E_failed => one_of (ma_state attempt) [A_execution_failed; A_interrupted]
      | Some E_cancelled => one_of (ma_state attempt) [A_cancelled; A_interrupted]
      | None => false
      end
  end.

Definition assertAttemptResultConsistency (attempt : MutableAttempt) : res unit :=
  reject_if (negb (attempt_consistent attempt)).

(** The depth-first search over the steps; both failures have one code. *)
Definition assertPlanDependencies (steps : list MutableStep) : res unit :=
  let byId := mof ((λ step, (ms_stepId step, step)) <$> steps) in
  match visit_from (λ stepId, ms_dependencies <$> mget stepId byId)
          "SESSION_REDUCER_TRANSITION_INVALID" "SESSION_REDUCER_TRANSITION_INVALID"
          (S (length steps)) (ms_stepId <$> steps) with
  | Some (Ok _) => Ok tt
  | Some (Err code) => Err code
  | None => Err "OUT_OF_FUEL"
  end.

Definition graph_attempt (step : MutableStep) (attempt : MutableAttempt) : res PlanAttemptV1 :=
  assertAttemptResultConsistency attempt;;
  Ok {| at_attemptId := ma_attemptId attempt; at_stepId := ms_stepId step;
        at_ordinal := ma_ordinal attempt; at_state := ma_state attempt;
        at_childRunId := ma_childRunId attempt; at_resultRef := ma_resultRef attempt;
        at_resultDigest := ma_resultDigest attempt; at_verificationRef := ma_verificationRef attempt |}.

Definition graph_step (step : MutableStep) : PlanStepV1 :=
  {| st_stepId := ms_stepId step; st_title := ms_title step; st_order := ms_order step;
     st_state := ms_state step; st_dependencies := ms_dependencies step; st_access := ms_access step;
     st_capabilities := ms_capabilities step; st_conflictKeys := ms_conflictKeys step;
     st_criteria := ms_criteria step; st_budget := ms_budget step;
     st_maxAttempts := ms_maxAttempts step;
     st_attemptIds := ma_attemptId <$> ordered_attempts step |}.

Definition validateReducerPlanGraph (graph : PlanGraphV1) : res PlanGraphV1 :=
  rethrow "SESSION_REDUCER_TRANSITION_INVALID" (validatePlanGraphV1 (PlanGraph_js graph)).

Definition project_attempt (attempt : MutableAttempt) : SessionAttemptProjectionV3 :=
  {| ap_attemptId := ma_attemptId attempt; ap_ordinal := ma_ordinal attempt;
     ap_state := ma_state attempt; ap_childRunId := ma_childRunId attempt;
     ap_resultRef := ma_resultRef attempt; ap_resultDigest := ma_resultDigest attempt;
     ap_verificationRef := ma_verificationRef attempt; ap_errorCode := ma_errorCode attempt;
     ap_execution := ma_execution attempt; ap_verifications := ma_verifications attempt |}.

Definition project_step (step : MutableStep) : SessionStepProjectionV3 :=
  {| sp_stepId := ms_stepId step; sp_title := ms_title step; sp_order := ms_order step;
     sp_state := ms_state step; sp_errorCode := ms_errorCode step;
     sp_dependencies := ms_dependencies step; sp_access := ms_access step;
     sp_capabilities := ms_capabilities step; sp_conflictKeys := ms_conflictKeys step;
     sp_criteria := ms_criteria step; sp_budget := ms_budget step;
     sp_maxAttempts := ms_maxAttempts step;
     sp_attemptIds := ma_attemptId <$> ordered_attempts step;
     sp_attempts := project_attempt <$> ordered_attempts step |}.

Definition project_present (plan : MutablePlan) : res SessionPlanGraphProjectionV3 :=
  let orderedSteps := js_sort mutable_step_before (mp_steps plan).*2 in
  assertPlanDependencies orderedSteps;;
  attempts ← mapM (λ step, mapM (graph_attempt step) (ordered_attempts step)) orderedSteps;
  graph ← validateReducerPlanGraph
    {| pg_planId := mp_planId plan; pg_revision := mp_revision plan; pg_objective := mp_objective plan;
       pg_state := mp_state plan; pg_steps := graph_step <$> orderedSteps;
       pg_attempts := concat attempts |};
  readyStepIds ← readyPlanStepIdsV1 (PlanGraph_js graph);
  Ok {| gr_planId := pg_planId graph; gr_revision := pg_revision graph;
        gr_objective := pg_objective graph; gr_state := pg_state graph;
        gr_readyStepIds := readyStepIds; gr_steps := project_step <$> orderedSteps |}.

Definition projectPlan (plan : option MutablePlan) : res (option SessionPlanGraphProjectionV3) :=
  match plan with None => Ok None | Some plan => Some <$> project_present plan end.

(** ** The projection of the session *)

Definition review_artifacts (r : WorkingReviewV1) : list jsval :=
  match wr_reportRef r with None => [wr_inputRef r] | Some ref => [wr_inputRef r; ref] end.

Definition project_snapshot (first : SessionEntryV3) (data : SessionCreatedData) (st : SessionState) :
    SessionSnapshotV3 :=
  let meta := ss_meta st in
  let log := ss_log st in
  {| sn_sessionId := en_sessionId first; sn_sequence := en_sequence (ss_previous st);
     sn_revision := en_revision (ss_previous st); sn_lifecycle := me_lifecycle meta;
     sn_plannerMode := me_plannerMode meta; sn_createdAt := en_timestamp first;
     sn_updatedAt := en_timestamp (ss_previous st);
     sn_contextLimitTokens := me_contextLimitTokens meta; sn_cwd := cr_cwd data;
     sn_provider := me_provider meta; sn_model := me_model meta; sn_name := me_name meta;
     sn_labels := me_labels meta; sn_activeLeafId := me_activeLeafId meta; sn_fork := cr_fork data;
     sn_messages := lg_messages log; sn_runs := (ru_runs (ss_runs st)).*2;
     sn_commandIds := lg_commandIds log; sn_skillInvocationIds := lg_skillInvocationIds log;
     sn_permissionRequestIds := lg_permissionRequestIds log; sn_usage := ru_usage (ss_runs st);
     sn_checkpointId := cp_checkpointId <$> ss_checkpoint st;
     sn_artifactIds := unique_values ((JStr <$> (lg_artifacts log).*1)
       ++ ((rv_workingReviews (ss_review st)).*2 ≫= review_artifacts)) |}.

Definition project_session (first : SessionEntryV3) (data : SessionCreatedData) (st : SessionState) :
    res SessionProjectionV3 :=
  planGraph ← projectPlan (ss_plan st);
  let snapshot := project_snapshot first data st in
  Ok {| pj_snapshot := snapshot;
        pj_catalog :=
          {| ca_sessionId := sn_sessionId snapshot; ca_name := sn_name snapshot;
             ca_workspace := sn_cwd snapshot; ca_provider := sn_provider snapshot;
             ca_model := sn_model snapshot; ca_lifecycle := sn_lifecycle snapshot;
             ca_activeLeafId := sn_activeLeafId snapshot;
             ca_parentSessionId := fk_parentSessionId <$> sn_fork snapshot;
             ca_messageCount := Z.of_nat (length (sn_messages snapshot));
             ca_updatedAt := sn_updatedAt snapshot; ca_revision := sn_revision snapshot |};
        pj_contextView :=
          {| cv_sessionId := sn_sessionId snapshot; cv_revision := sn_revision snapshot;
             cv_checkpointId := cp_checkpointId <$> ss_checkpoint st;
             cv_startSequence := default 1 (cp_retainedStartSequence <$> ss_checkpoint st);
             cv_endSequence := sn_sequence snapshot;
             cv_resultRefs := unique (lg_resultRefs (ss_log st));
             cv_artifactIds := sn_artifactIds snapshot;
             cv_omittedEntries := default 0 (cp_endSequence <$> ss_checkpoint st) |};
        pj_checkpoint := ss_checkpoint st; pj_planGraph := planGraph;
        pj_plannerGeneration := ru_plannerGeneration (ss_runs st);
        pj_reviewPlan := rv_reviewPlan (ss_review st);
        pj_workingPlan := rv_workingPlan (ss_review st);
        pj_workingReviews := (rv_workingReviews (ss_review st)).*2;
        pj_reviewControls := (rv_reviewControls (ss_review st)).*2;
        pj_reviewBudgets := (rv_reviewBudgets (ss_review st)).*2 |}.

Definition reduceSessionEntriesV3 (input : list SessionEntryV3) : res SessionProjectionV3 :=
  '(first, data, st) ← reduce_state input;
  project_session first data st.
End Reducer.
