(* ===== verification/SessionSamples.v ===== *)
(** * A sample journal

    One session with one run that executes a plan of two steps, the second after
    the first; the first step is verified and succeeds. *)

From S2P Require Import Prelude Js CanonicalJson Samples Plan Subagent ReviewPlan ReviewPlanEvents Session SessionReducer.
Local Open Scope Z_scope.

Definition sample_entry_at (sequence : Z) (data : SessionEntryData) : SessionEntryV3 :=
  {| en_entryId := "entry-" +:+ js_String (JInt sequence); en_sessionId := "s1";
     en_sequence := sequence; en_revision := 1; en_timestamp := instant; en_runId := Some "r1"%string;
     en_correlation := [("parentRunId", "r1")]%string; en_data := data |}.

Definition sample_entries (data : list SessionEntryData) : list SessionEntryV3 :=
  imap (λ i d, sample_entry_at (Z.of_nat i + 1) d) data.

Definition sample_created : SessionEntryData := session_created
  {| cr_cwd := "/w"; cr_provider := "p"; cr_model := "m"; cr_name := "n"; cr_labels := [];
     cr_plannerMode := None; cr_contextLimitTokens := None; cr_fork := None |}.

Definition sample_budget : ExecutionBudget :=
  {| eb_maxTurns := 4; eb_maxToolCalls := 8; eb_maxTokens := None; eb_maxChildRuns := 0;
     eb_maxParallelChildren := 0; eb_maxDepth := 0; eb_deadlineAt := None |}.
Definition sample_criterion : PlanSuccessCriterionV1 :=
  {| sc_criterionId := "c1"; sc_kind := K_check; sc_description := "passes"; sc_ref := None;
     sc_expectedDigest := None |}.

Definition sample_step (id : string) (order : Z) (dependencies conflictKeys : list string) :
    SessionEntryData := step_created
  {| sd_planId := "p1"; sd_planRevision := 1; sd_stepId := id; sd_title := "A step"; sd_order := order;
     sd_state := S_pending; sd_dependencies := dependencies;
     sd_access := {| Plan.ac_mode := read_only; ac_paths := [] |}; sd_capabilities := [];
     sd_conflictKeys := conflictKeys; sd_criteria := [sample_criterion]; sd_budget := sample_budget;
     sd_maxAttempts := 2 |}.

Definition sample_plan_to (state : PlanStateV1) : SessionEntryData :=
  plan_state_changed {| psc_planId := "p1"; psc_planRevision := 1; psc_state := state |}.
Definition sample_step_to (step : string) (state : PlanStepStateV1) : SessionEntryData :=
  step_state_changed {| ssc_planId := "p1"; ssc_planRevision := 1; ssc_stepId := step;
    ssc_state := state; ssc_reason := None; ssc_newAttemptId := None; ssc_errorCode := None |}.
Definition sample_attempt_new (step attempt child : string) (ordinal : Z) : SessionEntryData :=
  attempt_created {| ac_planId := "p1"; ac_planRevision := 1; ac_stepId := step;
    ac_attemptId := attempt; ac_ordinal := ordinal; ac_state := A_reserved;
    ac_childRunId := Some child |}.
Definition sample_attempt_to (step attempt : string) (state : PlanAttemptStateV1) : SessionEntryData :=
  attempt_state_changed {| asc_planId := "p1"; asc_planRevision := 1; asc_stepId := step;
    asc_attemptId := attempt; asc_state := state; asc_errorCode := None |}.

Definition sample_request (child : string) : jsval :=
  let ref kind version := VersionedRef_js
    {| vr_kind := kind; vr_id := "ref"; vr_version := version; vr_digest := sample_digest |} in
  JObj [("schemaVersion", JInt 1); ("parentRunId", JStr "r1"); ("childRunId", JStr child);
        ("packetRef", ref "context_packet" 1); ("profileRef", ref "bootstrap_profile" 3);
        ("bundleRef", ref "capability_bundle" 1); ("budgetRef", ref "execution_budget" 1)]%string.

Definition sample_usage : BudgetUsage :=
  {| bu_turns := 1; bu_toolCalls := 2; bu_subagents := 0;
     bu_provider := {| pu_inputTokens := Some 5; pu_outputTokens := None; pu_cacheReadTokens := None;
                       pu_cacheWriteTokens := None; pu_costUsd := None |} |}.

(** The session, the run, the plan and its two steps. *)
Definition sample_opening : list SessionEntryData :=
  [sample_created; run_started "req-1" None;
   plan_created {| pc_planId := "p1"; pc_planRevision := 1; pc_objective := "Do it"; pc_state := P_draft |};
   sample_step "a" 0 [] ["src"]; sample_step "b" 1 ["a"] ["src"]; sample_plan_to P_running;
   usage_recorded "provider" sample_usage]%string.

(** The first attempt of the first step, up to its success. *)
Definition sample_execution : list SessionEntryData :=
  [sample_attempt_new "a" "a1" "child-1" 1; sample_step_to "a" S_running;
   sample_attempt_to "a" "a1" A_running;
   subagent_execution_bound {| seb_planId := "p1"; seb_planRevision := 1; seb_stepId := "a";
     seb_attemptId := "a1"; seb_childRunId := "child-1"; seb_request := sample_request "child-1";
     seb_retrySafety := read_only_idempotent |};
   subagent_result_recorded {| srr_planId := "p1"; srr_planRevision := 1; srr_stepId := "a";
     srr_attemptId := "a1"; srr_childRunId := "child-1"; srr_resultRef := "result-1";
     srr_resultDigest := sample_digest; srr_status := E_succeeded |};
   attempt_execution_completed {| aec_planId := "p1"; aec_planRevision := 1; aec_stepId := "a";
     aec_attemptId := "a1"; aec_status := E_succeeded |};
   sample_attempt_to "a" "a1" A_verifying; sample_step_to "a" S_verifying;
   verification_recorded {| vrd_planId := "p1"; vrd_planRevision := 1; vrd_stepId := "a";
     vrd_attemptId := "a1"; vrd_verificationId := "v1"; vrd_verifier := mechanical;
     vrd_status := V_passed; vrd_evidenceRefs := []; vrd_code := None; vrd_retryable := None |};
   sample_attempt_to "a" "a1" A_verified; sample_step_to "a" S_succeeded]%string.

Definition sample_journal : list SessionEntryV3 := sample_entries (sample_opening ++ sample_execution).

Example sample_opening_accepted :
  is_ok (reduceSessionEntriesV3 (sample_entries sample_opening)) = true.
Proof. vm_compute. reflexivity. Qed.
Example sample_journal_accepted : is_ok (reduceSessionEntriesV3 sample_journal) = true.
Proof. vm_compute. reflexivity. Qed.
Example sample_journal_ready :
  match reduceSessionEntriesV3 sample_journal with
  | Ok p => gr_readyStepIds <$> pj_planGraph p
  | Err _ => None
  end = Some ["b"%string].
Proof. vm_compute. reflexivity. Qed.
