(* ===== verification/SessionInv.v ===== *)
(** * Invariants of the Session reducer

    An induction principle over accepted journals and the invariants it gives:
    the order of the entries, the life of the runs, the shape of the plan and
    the evidence behind every success. *)

From S2P Require Import Prelude Js CanonicalJson Graph Samples Plan Subagent Session SessionReducer SessionSamples.
Local Open Scope Z_scope.

(** ** Updates of maps *)

Section MapLemmas.
Context {V : Type}.
Implicit Types (m : list (string * V)).

Lemma mupdate_keys k (f : V → V) m : (mupdate k f m).*1 = m.*1.
Proof. unfold mupdate. rewrite <-list_fmap_compose. by apply list_fmap_ext. Qed.

Lemma mupdate_length k (f : V → V) m : length (mupdate k f m) = length m.
Proof. apply length_fmap. Qed.

Lemma mupdate_elem k (f : V → V) m k' v' :
  (k', v') ∈ mupdate k f m ↔
  ∃ v, (k', v) ∈ m ∧ v' = if decide (k' = k) then f v else v.
Proof.
  unfold mupdate. rewrite list_elem_of_fmap. split.
  - intros ([k0 v] & [= -> ->] & Hin). by exists v.
  - intros (v & Hin & ->). by exists (k', v).
Qed.

Lemma mget_mupdate k (f : V → V) m k' :
  mget k' (mupdate k f m) = (if decide (k' = k) then f else id) <$> mget k' m.
Proof.
  induction m as [|[k0 v] m IH]; [done|].
  change (mupdate k f ((k0, v) :: m)) with ((k0, if decide (k0 = k) then f v else v) :: mupdate k f m).
  cbn [mget]. rewrite IH. repeat case_decide; subst; cbn; try congruence; try done.
Qed.

Lemma mset_elem k (v : V) m k' v' :
  (k', v') ∈ mset k v m → (k' = k ∧ v' = v) ∨ (k', v') ∈ m ∧ k' ≠ k ∨ (k', v') ∈ m ∧ (k ∈ m.*1).
Proof.
  induction m as [|[k0 v0] m IH]; cbn.
  - intros [[= -> ->]|H]%elem_of_cons; [by left|by apply elem_of_nil in H].
  - case_decide as Hk.
    + intros [[= -> ->]|H]%elem_of_cons; [by left|]. right. right. split; [by right|]. subst. left.
    + intros [[= -> ->]|H]%elem_of_cons.
      * right. left. split; [left|done].
      * destruct (IH H) as [?|[[? ?]|[? ?]]]; [by left|right; left|right; right]; (split; [by right|]); [done|].
        by right.
Qed.

Lemma mset_elem_weak k (v : V) m k' v' : (k', v') ∈ mset k v m → (k' = k ∧ v' = v) ∨ (k', v') ∈ m.
Proof. intros [?|[[? ?]|[? ?]]]%mset_elem; auto. Qed.

Lemma mset_NoDup k (v : V) m : NoDup (m.*1) → NoDup ((mset k v m).*1).
Proof.
  intros Hnd. rewrite mset_keys. case_decide; [done|]. apply NoDup_app. split_and!; [done| |].
  - intros x Hx Hx'. apply list_elem_of_singleton in Hx'. congruence.
  - apply NoDup_singleton.
Qed.

Lemma mset_elem_NoDup k (v : V) m k' v' :
  NoDup (m.*1) → (k', v') ∈ mset k v m → (k' = k ∧ v' = v) ∨ (k' ≠ k ∧ (k', v') ∈ m).
Proof.
  induction m as [|[k0 v0] m IH]; cbn.
  - intros _ [[= -> ->]|H]%elem_of_cons; [by left|by apply elem_of_nil in H].
  - intros [Hk0 Hnd]%NoDup_cons. case_decide as Hk.
    + intros [[= -> ->]|H]%elem_of_cons; [by left|]. right. split; [|by right].
      intros ->. subst. apply Hk0. by apply (list_elem_of_fmap_2 fst) in H.
    + intros [[= -> ->]|H]%elem_of_cons; [right; split; [done|left]|].
      destruct (IH Hnd H) as [?|[? ?]]; [by left|right; split; [done|by right]].
Qed.

Lemma mset_same_elem k (v : V) m : (k, v) ∈ mset k v m.
Proof. apply mget_elem_inv, mget_mset_eq. Qed.

Lemma mset_key k (v : V) m : k ∈ (mset k v m).*1.
Proof. apply (list_elem_of_fmap_2 fst _ (k, v)), mset_same_elem. Qed.

Lemma mset_other_elem k (v : V) m k' v' : k' ≠ k → (k', v') ∈ m → (k', v') ∈ mset k v m.
Proof.
  intros Hne. induction m as [|[k0 v0] m IH]; cbn; [by intros ?%elem_of_nil|].
  case_decide; intros [[= -> ->]|Hin]%elem_of_cons; [done|by right|by left|right; auto].
Qed.
End MapLemmas.

(** ** Outcomes *)

Lemma reject_if_Ok c u : reject_if c = Ok u ↔ c = false.
Proof. apply fail_if_Ok. Qed.
Lemma required_value_Ok {A} (x : option A) a : required_value x = Ok a ↔ x = Some a.
Proof. destruct x; naive_solver. Qed.
Lemma is_none_true {A} (x : option A) : is_none x = true ↔ x = None.
Proof. by destruct x. Qed.
Lemma one_of_true {A} `{EqDecision A} (x : A) l : one_of x l = true ↔ x ∈ l.
Proof. apply bool_decide_eq_true. Qed.

Lemma useId_Ok ids id ids' : useId ids id = Ok ids' ↔ id ∉ ids ∧ ids' = id :: ids.
Proof.
  unfold useId. rewrite bind_Ok. split.
  - intros ([] & Hf%fail_if_Ok & [= <-]). by apply memb_false in Hf.
  - intros [Hn ->]. exists tt. split; [|done]. by apply fail_if_Ok, memb_false.
Qed.

Lemma useId_fresh ids id : id ∉ ids → useId ids id = Ok (id :: ids).
Proof. intros Hid. by apply useId_Ok. Qed.

Lemma stable_id_inj ns x y : stable_id ns x = stable_id ns y → x = y.
Proof.
  unfold stable_id. intros Heq. assert (∀ a b c, a +:+ b = a +:+ c → b = c) as Hinj.
  { intros a. induction a as [|ch a IH]; intros b c; cbn; [done|]. intros [= Ha]. by apply IH. }
  by apply Hinj, Hinj in Heq.
Qed.

(** [inv_ok] with the checks of the reducer. *)
Ltac inv_step :=
  match goal with
  | H : reject_if _ = Ok _ |- _ => apply reject_if_Ok in H
  | H : required_value _ = Ok _ |- _ => apply required_value_Ok in H
  | H : useId _ _ = Ok _ |- _ => apply useId_Ok in H as [? ->]
  | H : useStableId _ _ _ = Ok _ |- _ => unfold useStableId in H
  | H : assertReducerTransition _ = Ok _ |- _ => unfold assertReducerTransition in H
  | H : requirePlanRevision _ _ _ = Ok _ |- _ => unfold requirePlanRevision in H
  | H : requirePlan _ _ = Ok _ |- _ => unfold requirePlan in H
  | H : requireStepRevision _ _ _ _ = Ok _ |- _ => unfold requireStepRevision in H
  | H : requireAttemptRevision _ _ _ _ _ = Ok _ |- _ => unfold requireAttemptRevision in H
  | H : is_none _ = true |- _ => apply is_none_true in H
  | _ => inv_ok_step
  end.
Ltac inv_reducer := repeat inv_step; simplify_eq.

(** ** Journals *)

Section Journal.
Context `{JsEngine} `{JsCrypto} `{RP : ReviewPlanContract}.

(** The state after the first entry. *)
Definition opened (first : SessionEntryV3) (data : SessionCreatedData) : SessionState :=
  put_previous (put_ids (initial_state first data)
    {| id_entryIds := [en_entryId first]; id_stableIds := []; id_forkedSessionIds := [] |}) first.

Lemma reduce_first first data :
  en_data first = session_created data →
  reduce_entry (en_sessionId first) true (initial_state first data) first = Ok (opened first data).
Proof.
  intros Hd. unfold reduce_entry, apply_entry. rewrite Hd, bool_decide_eq_false_2 by naive_solver.
  reflexivity.
Qed.

Lemma reduce_entries_app sid st es fs :
  reduce_entries sid st (es ++ fs) = (st' ← reduce_entries sid st es; reduce_entries sid st' fs).
Proof.
  revert st. induction es as [|e es IH]; intros st; cbn; [done|].
  destruct (reduce_entry _ _ _ _); cbn; auto.
Qed.

(** An accepted journal is its first entry and a run of the loop. *)
Lemma reduce_state_Ok es first data st :
  reduce_state es = Ok (first, data, st) ↔
  ∃ rest, es = first :: rest ∧ Z.of_nat (length es) ≤ MAX_ENTRIES ∧
    en_data first = session_created data ∧ en_sequence first = 1 ∧ en_revision first = 1 ∧
    reduce_entries (en_sessionId first) (opened first data) rest = Ok st.
Proof.
  unfold reduce_state. rewrite bind_Ok. split.
  - intros ([] & Hlen%fail_if_Ok & Hes). destruct es as [|f rest]; [done|].
    destruct (en_data f) as [d| | | | | | | | | | | | | | | | | | | | | | | | | | | | | | | | | | | | | |] eqn:Hd;
      try done. inv_ok. split_bool. rewrite reduce_first in * by done. inv_ok.
    exists rest. split_and!; [done|lia|done|lia|lia|done].
  - intros (rest & -> & Hlen & Hd & Hs & Hr & Hrest). exists tt. split; [apply fail_if_Ok; lia|].
    rewrite Hd, Hs, Hr. cbn. rewrite reduce_first by done. cbn. by rewrite Hrest.
Qed.

(** More entries after a reduced journal. *)
Lemma reduce_state_app es fs first data st :
  reduce_state es = Ok (first, data, st) → Z.of_nat (length (es ++ fs)) ≤ MAX_ENTRIES →
  reduce_state (es ++ fs) = (st' ← reduce_entries (en_sessionId first) st fs; Ok (first, data, st')).
Proof.
  unfold reduce_state. intros Hes Hlen. apply bind_Ok in Hes as ([] & _ & Hes). replace (_ >? _) with false by lia. cbn [fail_if mbind res_bind].
  destruct es as [|f rest]; [done|]. cbn [app]. destruct (en_data f); try discriminate Hes.
  apply bind_Ok in Hes as ([] & -> & Hes). apply bind_Ok in Hes as (st0 & -> & Hes). apply bind_Ok in Hes as (st1 & Hst & [= <- <- <-]).
  cbn [mbind res_bind]. by rewrite reduce_entries_app, Hst.
Qed.

(** Induction over the entries of an accepted journal. *)
Lemma session_ind (P : list SessionEntryV3 → SessionState → Prop) :
  (∀ first data, en_data first = session_created data → en_sequence first = 1 →
    P [first] (opened first data)) →
  (∀ es e st st' first data, reduce_state es = Ok (first, data, st) → P es st →
    reduce_entry (en_sessionId first) false st e = Ok st' → P (es ++ [e]) st') →
  ∀ es first data st, reduce_state es = Ok (first, data, st) → P es st.
Proof.
  intros Hinit Hstep es first data st Hst.
  pose proof Hst as (rest & -> & Hlen & Hd & Hs & Hr & Hrest)%reduce_state_Ok. clear Hst.
  revert st Hrest Hlen. induction rest as [|e rest IH] using rev_ind; intros st Hrest Hlen.
  - cbn in Hrest. injection Hrest as <-. by apply Hinit.
  - rewrite reduce_entries_app, bind_Ok in Hrest. destruct Hrest as (st1 & H1 & H2).
    cbn in H2. apply bind_Ok in H2 as (st2 & H2 & [= ->]).
    rewrite app_comm_cons. apply (Hstep _ e st1 _ first data); [|apply IH; [done|]|done].
    + apply reduce_state_Ok. exists rest. split_and!; try done.
      rewrite ?app_comm_cons, length_app in *. cbn in *. lia.
    + rewrite app_comm_cons, length_app in Hlen. cbn in *. lia.
Qed.

Lemma reduce_session_Ok es p :
  reduceSessionEntriesV3 es = Ok p ↔
  ∃ first data st, reduce_state es = Ok (first, data, st) ∧ project_session first data st = Ok p.
Proof.
  unfold reduceSessionEntriesV3. rewrite bind_Ok. split.
  - intros ([[first data] st] & ? & ?). by exists first, data, st.
  - intros (first & data & st & ? & ?). by exists (first, data, st).
Qed.

(** The parts of one iteration of the loop. *)
Lemma reduce_entry_Ok sid st e st' :
  reduce_entry sid false st e = Ok st' →
  en_sessionId e = sid ∧ entry_guards st e = Ok tt ∧
  en_entryId e ∉ id_entryIds (ss_ids st) ∧
  ∃ st1, apply_entry sid false (put_ids st
      {| id_entryIds := en_entryId e :: id_entryIds (ss_ids st);
         id_stableIds := id_stableIds (ss_ids st);
         id_forkedSessionIds := id_forkedSessionIds (ss_ids st) |}) e = Ok st1 ∧
    st' = put_previous st1 e.
Proof.
  unfold reduce_entry, use_entry_id. intros He. inv_reducer. split_bool. split_and!; [by apply dec_stable|done|done|].
  eexists. split; [done|]. done.
Qed.
End Journal.
