(* ===== verification/SessionLife.v ===== *)
(** * The life of a Session

    Runs, closing and reopening, usage and checkpoints, and the review plan that
    the Session reducer keeps by the reducer of the review plan events. *)

From S2P Require Import Prelude Js CanonicalJson Samples Plan Subagent ReviewPlan ReviewPlanEvents ReviewSamples ReviewPlanSpec ReviewPlanInv Session SessionReducer SessionSamples SessionInv.
Local Open Scope Z_scope.

(** Case analysis on the entry of an accepted iteration. *)
Ltac entry_cases H e :=
  unfold apply_entry in H;
  let Ed := fresh "Ed" in destruct (en_data e) eqn:Ed; try discriminate H; inv_reducer.

(** What the plan events leave alone. *)
Record same_rest (st st' : SessionState) : Prop := {
  sr_meta : ss_meta st' = ss_meta st;
  sr_runs : ss_runs st' = ss_runs st;
  sr_log : ss_log st' = ss_log st;
  sr_checkpoint : ss_checkpoint st' = ss_checkpoint st;
  sr_review : ss_review st' = ss_review st;
}.
#[export] Instance same_rest_preorder : PreOrder same_rest.
Proof. split; [by split|]. intros x y z [? ? ? ? ?] [? ? ? ? ?]. split; congruence. Qed.

Section Life.
Context `{JsEngine} `{JsCrypto} `{RP : ReviewPlanContract}.

(** ** Order *)

Lemma apply_entry_entryIds sid st e st' :
  apply_entry sid false st e = Ok st' → id_entryIds (ss_ids st') = id_entryIds (ss_ids st).
Proof.
  intros He. entry_cases He e; try done; cbn; try (repeat case_match; done).
  unfold on_session_forked in *. inv_reducer. done.
Qed.

Lemma entry_guards_Ok st e :
  entry_guards st e = Ok tt →
  en_sequence e = en_sequence (ss_previous st) + 1 ∧
  (en_revision (ss_previous st) ≤ en_revision e ≤ en_revision (ss_previous st) + 1) ∧
  string_ltb (en_timestamp e) (en_timestamp (ss_previous st)) = false ∧
  me_lifecycle (ss_meta st) ≠ L_deleted ∧
  (me_lifecycle (ss_meta st) = L_closed → closed_accepts (en_data e) = true).
Proof.
  unfold entry_guards. intros Hg. inv_reducer. split_bool. split_and!; [lia|lia|lia|done|done|].
  intros Hc. match goal with H : _ && _ = false |- _ => rewrite Hc in H; cbn in H end.
  by destruct (closed_accepts _).
Qed.

(** [b] may stand right after [a] in a journal. *)
Definition follows (a b : SessionEntryV3) : Prop :=
  en_sequence b = en_sequence a + 1 ∧
  (en_revision a ≤ en_revision b ≤ en_revision a + 1) ∧
  string_ltb (en_timestamp b) (en_timestamp a) = false.

(** The state in which the entry is handled. *)
Definition entered (st : SessionState) (e : SessionEntryV3) : SessionState :=
  put_ids st {| id_entryIds := en_entryId e :: id_entryIds (ss_ids st);
                id_stableIds := id_stableIds (ss_ids st);
                id_forkedSessionIds := id_forkedSessionIds (ss_ids st) |}.

(** An entry that follows the last one in an open session reaches its handler. *)
Lemma reduce_entry_reaches sid st e :
  en_sessionId e = sid → follows (ss_previous st) e → me_lifecycle (ss_meta st) = L_open →
  en_entryId e ∉ id_entryIds (ss_ids st) →
  reduce_entry sid false st e = (st1 ← apply_entry sid false (entered st e) e; Ok (put_previous st1 e)).
Proof.
  intros Hsid (Hseq & Hrev & Hts) Hopen Hid. unfold reduce_entry, entry_guards, use_entry_id.
  rewrite Hts, Hopen, !bool_decide_eq_false_2 by naive_solver.
  replace (_ =? _) with true by lia. replace (_ || _) with false by lia.
  cbn [negb fail_if mbind res_bind reject_if andb]. by rewrite useId_fresh by done.
Qed.
Lemma reduce_entry_intro sid st e st1 :
  en_sessionId e = sid → follows (ss_previous st) e → me_lifecycle (ss_meta st) = L_open →
  en_entryId e ∉ id_entryIds (ss_ids st) → apply_entry sid false (entered st e) e = Ok st1 →
  reduce_entry sid false st e = Ok (put_previous st1 e).
Proof. intros Hsid Hf Hopen Hid Ha. by rewrite reduce_entry_reaches, Ha. Qed.

Record ordered_journal (es : list SessionEntryV3) (st : SessionState) : Prop := {
  oj_last : last es = Some (ss_previous st);
  oj_sequence : ∀ i e, es !! i = Some e → en_sequence e = Z.of_nat i + 1;
  oj_follows : ∀ i a b, es !! i = Some a → es !! S i = Some b → follows a b;
  oj_session : ∃ sid, Forall (λ e, en_sessionId e = sid) es;
  oj_ids : id_entryIds (ss_ids st) = reverse (en_entryId <$> es) ∧ NoDup (en_entryId <$> es);
}.

Lemma reduce_ordered es first data st :
  reduce_state es = Ok (first, data, st) → ordered_journal es st.
Proof.
  apply (session_ind (λ es st, ordered_journal es st)); clear.
  - intros first data Hd Hs. split; cbn.
    + done.
    + intros [|i] e; [|done]. intros [= <-]. done.
    + intros [|i] a b; done.
    + exists (en_sessionId first). by constructor.
    + split; [done|apply NoDup_singleton].
  - intros es e st st' first data Hst Hoj He.
    destruct (reduce_entry_Ok _ _ _ _ He) as (Hsid & Hg & Hfresh & st1 & Ha & ->).
    destruct (entry_guards_Ok _ _ Hg) as (Hseq & Hrev & Hts & _).
    apply apply_entry_entryIds in Ha. cbn in Ha.
    pose proof (oj_last _ _ Hoj) as Hlast. rewrite last_lookup in Hlast.
    assert (0 < length es)%nat as Hlen by (apply lookup_lt_Some in Hlast; lia).
    split.
    + by rewrite last_snoc.
    + intros i x Hx. apply lookup_app_Some in Hx as [Hx|[Hi Hx]]; [by apply (oj_sequence _ _ Hoj)|].
      apply list_lookup_singleton_Some in Hx as [Hi' <-].
      rewrite Hseq, (oj_sequence _ _ Hoj _ _ Hlast). lia.
    + intros i a b Ha1 Hb. apply lookup_app_Some in Hb as [Hb|[Hi Hb]].
      * apply (oj_follows _ _ Hoj i); [|done]. apply lookup_app_Some in Ha1 as [?|[Hi _]]; [done|].
        apply lookup_lt_Some in Hb. lia.
      * apply list_lookup_singleton_Some in Hb as [Hi' <-].
        rewrite lookup_app_l in Ha1 by lia. replace i with (pred (length es)) in Ha1 by lia.
        rewrite Hlast in Ha1. injection Ha1 as <-. done.
    + apply reduce_state_Ok in Hst as (rest & -> & _). destruct (oj_session _ _ Hoj) as (sid & Hall).
      exists sid. apply Forall_app. split; [done|]. apply Forall_singleton.
      apply Forall_cons in Hall as [Hf _]. congruence.
    + cbn. destruct (oj_ids _ _ Hoj) as [Hids Hnd]. rewrite fmap_app. split.
      * rewrite Ha, Hids. by rewrite reverse_app.
      * apply NoDup_app. split_and!; [done| |apply NoDup_singleton].
        intros x Hx Hx'. apply list_elem_of_singleton in Hx' as ->.
        apply Hfresh. rewrite Hids. by apply elem_of_reverse.
Qed.

(** ** Runs and lifecycle *)

(** The active run is the one running run, and only an open session has one. *)
Record runs_wf (st : SessionState) : Prop := {
  rw_keys : NoDup ((ru_runs (ss_runs st)).*1);
  rw_ids : ∀ k r, (k, r) ∈ ru_runs (ss_runs st) → rn_runId r = k;
  rw_running : ∀ k r, (k, r) ∈ ru_runs (ss_runs st) →
    rn_state r = R_running ↔ ru_activeRunId (ss_runs st) = Some k;
  rw_active : ∀ k, ru_activeRunId (ss_runs st) = Some k → k ∈ (ru_runs (ss_runs st)).*1;
  rw_open : me_lifecycle (ss_meta st) ≠ L_open → ru_activeRunId (ss_runs st) = None;
}.

Lemma runs_wf_same st st' :
  ru_runs (ss_runs st') = ru_runs (ss_runs st) →
  ru_activeRunId (ss_runs st') = ru_activeRunId (ss_runs st) →
  (me_lifecycle (ss_meta st') ≠ L_open → ru_activeRunId (ss_runs st) = None) →
  runs_wf st → runs_wf st'.
Proof. intros Hr Ha Hl [? ? ? ? ?]. split; rewrite ?Hr, ?Ha; done. Qed.

Lemma requireRun_Ok runs runId k r :
  requireRun runs runId = Ok (k, r) →
  runId = Some k ∧ ru_activeRunId runs = Some k ∧ mget k (ru_runs runs) = Some r ∧ rn_state r = R_running.
Proof.
  unfold requireRun. intros Hr. inv_reducer. split_bool. split_and!; [done| |done|].
  - by apply dec_stable.
  - by apply dec_stable.
Qed.

(** Replacing the active run by one in the same or in a final state. *)
Lemma runs_wf_replace st runs' k r r' :
  runs_wf st → ru_activeRunId (ss_runs st) = Some k → rn_runId r' = k →
  ru_runs runs' = mset k r' (ru_runs (ss_runs st)) →
  (rn_state r' = R_running ↔ ru_activeRunId runs' = Some k) →
  (ru_activeRunId runs' = Some k ∨ ru_activeRunId runs' = None) →
  mget k (ru_runs (ss_runs st)) = Some r →
  runs_wf (put_runs st runs').
Proof.
  intros [Hk Hids Hrun Hact Hopen] Hactive Hid Hruns Hiff Hor Hget.
  assert (k ∈ (ru_runs (ss_runs st)).*1) as Hin by auto.
  split; cbn; rewrite ?Hruns.
  - by apply mset_NoDup.
  - intros k' r'' [[-> ->]|[_ ?]]%mset_elem_NoDup; auto.
  - intros k' r'' [[-> ->]|[Hne Hin']]%mset_elem_NoDup; [done| |done].
    rewrite (Hrun _ _ Hin'), Hactive. split; [intros [= ->]; done|]. destruct Hor as [-> | ->]; naive_solver.
  - intros k' Hk'. rewrite mset_keys, decide_True by done. destruct Hor as [Heq|Heq]; [congruence|congruence].
  - intros Hl. specialize (Hopen Hl). congruence.
Qed.

Lemma apply_entry_runs sid st e st' :
  runs_wf st → apply_entry sid false st e = Ok st' → runs_wf st'.
Proof.
  intros Hwf He. entry_cases He e; try exact Hwf; try (apply (runs_wf_same st); done);
    try (apply (runs_wf_same st); [done|done|apply (rw_open _ Hwf)|done]).
  - (* closed *) unfold on_session_closed in *. inv_reducer. split_bool. inv_reducer.
    by apply (runs_wf_same st).
  - (* reopened *) unfold on_session_reopened in *. inv_reducer.
    by apply (runs_wf_same st).
  - (* forked *) unfold on_session_forked in *. inv_reducer.
    apply (runs_wf_same st); [done..|apply (rw_open _ Hwf)|done].
  - (* deleted *) unfold on_session_deleted in *. inv_reducer. split_bool. inv_reducer.
    by apply (runs_wf_same st).
  - (* started *) unfold on_run_started in *. inv_reducer. split_bool. inv_reducer.
    destruct Hwf as [Hk Hids Hrun Hact Hopen]. split; cbn.
    + by apply mset_NoDup.
    + intros k r [[-> ->]|[_ ?]]%mset_elem_NoDup; auto.
    + intros k r [[-> ->]|[Hne Hin]]%mset_elem_NoDup; [done| |done].
      rewrite (Hrun _ _ Hin). naive_solver.
    + intros k [= <-]. apply mset_key.
    + intros Hl. by destruct Hl; apply dec_stable.
  - (* terminal *) unfold on_run_terminal in *. inv_reducer. match goal with p : string * SessionRunProjectionV3 |- _ => destruct p as [k r] end.
    match goal with H : requireRun _ _ = _ |- _ => apply requireRun_Ok in H as (_ & Ha & Hg & Hs) end.
    inv_reducer. eapply (runs_wf_replace st _ k r (finish_run r data)); try done.
    + cbn. apply (rw_ids _ Hwf), mget_elem_inv, Hg.
    + cbn. split; [by destruct (rt_status data)|done].
    + by right.
  - (* usage *) unfold on_usage_recorded in *. destruct (en_runId e); inv_reducer.
    + match goal with p : string * SessionRunProjectionV3 |- _ => destruct p as [k r] end.
      match goal with H : requireRun _ _ = _ |- _ => apply requireRun_Ok in H as (_ & Ha & Hg & Hs) end.
      inv_reducer. eapply (runs_wf_replace st _ k r (with_run_usage r usage)); try done.
      * cbn. apply (rw_ids _ Hwf), mget_elem_inv, Hg.
      * by left.
    + apply (runs_wf_same st); [done..|apply (rw_open _ Hwf)|done].
  - (* generation *) unfold on_planner_generation in *. inv_reducer.
    apply (runs_wf_same st); [done..|apply (rw_open _ Hwf)|done].
  - (* settled *) unfold on_review_budget_settled in *. inv_reducer.
    apply (runs_wf_same st); [done..|apply (rw_open _ Hwf)|done].
Qed.

Lemma reduce_runs_wf es first data st : reduce_state es = Ok (first, data, st) → runs_wf st.
Proof.
  apply (session_ind (λ _ st, runs_wf st)); clear.
  - intros first data _ _. split; cbn; try done; [constructor|by intros ? ? ?%elem_of_nil..].
  - intros es e st st' first data _ Hwf He.
    destruct (reduce_entry_Ok _ _ _ _ He) as (_ & _ & _ & st1 & Ha & ->).
    apply apply_entry_runs in Ha; [|by apply (runs_wf_same st); [..|apply (rw_open _ Hwf)|]].
    by apply (runs_wf_same st1); [..|apply (rw_open _ Ha)|].
Qed.

(** ** Stable identities *)

Lemma apply_entry_stable sid st e st' :
  apply_entry sid false st e = Ok st' → id_stableIds (ss_ids st) ⊆ id_stableIds (ss_ids st').
Proof.
  intros He. entry_cases He e; cbn; try done; try set_solver.
  - unfold on_session_forked in *. inv_reducer. done.
  - unfold on_run_started in *. inv_reducer. cbn. set_solver.
  - unfold on_compaction_created in *. inv_reducer. cbn. set_solver.
  - unfold on_plan_created in *. inv_reducer. cbn. set_solver.
  - unfold on_step_created in *. inv_reducer. cbn. set_solver.
  - unfold on_attempt_created in *. inv_reducer. destruct (ac_childRunId _); inv_reducer; cbn; set_solver.
  - unfold on_subagent_result_recorded in *. inv_reducer.
    destruct (is_none (ma_childRunId _)); inv_reducer; cbn; set_solver.
  - unfold on_verification_recorded in *. inv_reducer. cbn. set_solver.
  - unfold on_control_authorized in *. inv_reducer. cbn. set_solver.
Qed.

(** ** Usage *)

Definition zero_usage : BudgetUsage := provider_usage no_provider_usage.

(** What an entry adds to the usage of the session. *)
Definition entry_usage (e : SessionEntryV3) : option BudgetUsage :=
  match en_data e with
  | usage_recorded _ usage => Some usage
  | review_budget_settled data => Some (provider_usage (rs_usage data))
  | _ => None
  end.
(** What it adds to the usage of run [k]. *)
Definition run_entry_usage (k : string) (e : SessionEntryV3) : option BudgetUsage :=
  match en_data e with
  | usage_recorded _ usage => if decide (en_runId e = Some k) then Some usage else None
  | _ => None
  end.

Lemma apply_entry_usage sid st e st' :
  apply_entry sid false st e = Ok st' →
  ru_usage (ss_runs st') =
    match entry_usage e with Some u => mergeUsage (ru_usage (ss_runs st)) u | None => ru_usage (ss_runs st) end.
Proof.
  intros He. unfold entry_usage. entry_cases He e; try done.
  - unfold on_run_started in *. by inv_reducer.
  - unfold on_run_terminal in *. inv_reducer. by case_match; inv_reducer.
  - unfold on_usage_recorded in *. case_match; inv_reducer; [|done]. by case_match; inv_reducer.
  - unfold on_planner_generation in *. by inv_reducer.
  - unfold on_review_budget_settled in *. by inv_reducer.
Qed.

Lemma omap_snoc {A B} (f : A → option B) l x :
  omap f (l ++ [x]) = omap f l ++ match f x with Some y => [y] | None => [] end.
Proof. rewrite omap_app. cbn. by destruct (f x). Qed.

Lemma reduce_usage es first data st :
  reduce_state es = Ok (first, data, st) →
  ru_usage (ss_runs st) = foldl mergeUsage zero_usage (omap entry_usage es).
Proof.
  apply (session_ind (λ es st, ru_usage (ss_runs st) = foldl mergeUsage zero_usage (omap entry_usage es))); clear.
  - intros first data Hd _. cbn. unfold entry_usage. by rewrite Hd.
  - intros es e st st' first data _ IH He.
    destruct (reduce_entry_Ok _ _ _ _ He) as (_ & _ & _ & st1 & Ha & ->).
    apply apply_entry_usage in Ha. cbn in *. rewrite Ha, omap_snoc, foldl_app, IH.
    by destruct (entry_usage e).
Qed.

(** The usage of each run, from the entries that name it. *)
Record runs_accounted (es : list SessionEntryV3) (st : SessionState) : Prop := {
  ra_stable : ∀ k, k ∈ (ru_runs (ss_runs st)).*1 → stable_id "run" k ∈ id_stableIds (ss_ids st);
  ra_unknown : ∀ k, k ∉ (ru_runs (ss_runs st)).*1 → omap (run_entry_usage k) es = [];
  ra_turns : ∀ k r, (k, r) ∈ ru_runs (ss_runs st) →
    default 0 (wu_turns (rn_usage r)) = sumZ bu_turns (omap (run_entry_usage k) es) ∧
    default 0 (wu_toolCalls (rn_usage r)) = sumZ bu_toolCalls (omap (run_entry_usage k) es);
}.

Lemma runs_accounted_same es e st st' :
  ru_runs (ss_runs st') = ru_runs (ss_runs st) →
  id_stableIds (ss_ids st) ⊆ id_stableIds (ss_ids st') →
  (∀ k, run_entry_usage k e = None) → runs_accounted es st → runs_accounted (es ++ [e]) st'.
Proof.
  intros Hr Hs He [H1 H2 H3]. split; rewrite ?Hr.
  - intros k Hk. by apply Hs, H1.
  - intros k Hk. by rewrite omap_snoc, He, H2.
  - intros k r Hin. rewrite omap_snoc, He, app_nil_r. by apply H3.
Qed.

Lemma apply_entry_accounted sid es st e st' :
  runs_wf st → runs_accounted es st → apply_entry sid false st e = Ok st' → runs_accounted (es ++ [e]) st'.
Proof.
  intros Hwf Hra He. pose proof (apply_entry_stable _ _ _ _ He) as Hst.
  entry_cases He e;
    try (apply (runs_accounted_same es e _ _) with (4 := Hra); [done|exact Hst|];
         intros k; unfold run_entry_usage; by rewrite Ed).
  - unfold on_run_started in *. inv_reducer. cbn in *.
    match goal with Hf : stable_id "run" ?k ∉ _ |- _ => rename k into n; rename Hf into Hfresh end.
    assert (n ∉ (ru_runs (ss_runs st)).*1) as Hn by (intros Hin; by apply Hfresh, (ra_stable _ _ Hra)).
    assert (∀ k, run_entry_usage k e = None) as Hnone by (intros k; unfold run_entry_usage; by rewrite Ed).
    split; cbn.
    + intros k. rewrite mset_keys, decide_False by done. intros [Hk|Hk]%elem_of_app.
      * apply Hst, (ra_stable _ _ Hra), Hk.
      * apply list_elem_of_singleton in Hk as ->. set_solver.
    + intros k. rewrite mset_keys, decide_False by done. rewrite not_elem_of_app. intros [Hk _].
      by rewrite omap_snoc, Hnone, (ra_unknown _ _ Hra).
    + intros k r Hin. rewrite omap_snoc, Hnone, app_nil_r.
      apply mset_elem_NoDup in Hin as [[-> ->]|[_ Hin]]; [|by apply (ra_turns _ _ Hra)|apply (rw_keys _ Hwf)].
      by rewrite (ra_unknown _ _ Hra).
  - unfold on_run_terminal in *. inv_reducer.
    match goal with p : string * SessionRunProjectionV3 |- _ => destruct p as [n r] end.
    match goal with H : requireRun _ _ = _ |- _ => apply requireRun_Ok in H as (_ & Ha & Hg & Hs) end.
    inv_reducer. assert (∀ k, run_entry_usage k e = None) as Hnone by (intros k; unfold run_entry_usage; by rewrite Ed).
    assert (n ∈ (ru_runs (ss_runs st)).*1) as Hn by (apply (rw_active _ Hwf), Ha).
    split; cbn.
    + intros k. rewrite mset_keys, decide_True by done. apply (ra_stable _ _ Hra).
    + intros k. rewrite mset_keys, decide_True by done. intros Hk. by rewrite omap_snoc, Hnone, (ra_unknown _ _ Hra).
    + intros k r' Hin. rewrite omap_snoc, Hnone, app_nil_r.
      apply mset_elem_NoDup in Hin as [[-> ->]|[_ Hin]]; [|by apply (ra_turns _ _ Hra)|apply (rw_keys _ Hwf)].
      cbn. by apply (ra_turns _ _ Hra), mget_elem_inv.
  - unfold on_usage_recorded in *. destruct (en_runId e) as [n'|] eqn:Er; inv_reducer.
    + match goal with p : string * SessionRunProjectionV3 |- _ => destruct p as [n r] end.
      match goal with H : requireRun _ _ = _ |- _ => apply requireRun_Ok in H as ([= ->] & Ha & Hg & Hs) end.
      inv_reducer. cbn in *.
      assert (n ∈ (ru_runs (ss_runs st)).*1) as Hn by (apply (rw_active _ Hwf), Ha).
      assert (∀ k, run_entry_usage k e = if decide (n = k) then Some usage else None) as Hone.
      { intros k. unfold run_entry_usage. rewrite Ed, Er. repeat case_decide; congruence. }
      split; cbn.
      * intros k. rewrite mset_keys, decide_True by done. apply (ra_stable _ _ Hra).
      * intros k. rewrite mset_keys, decide_True by done. intros Hk.
        rewrite omap_snoc, Hone, decide_False, (ra_unknown _ _ Hra) by congruence. done.
      * intros k r' Hin. rewrite omap_snoc, Hone, !sumZ_app.
        apply mset_elem_NoDup in Hin as [[-> ->]|[Hne Hin]]; [| |apply (rw_keys _ Hwf)].
        -- rewrite decide_True by done. cbn.
           destruct (ra_turns _ _ Hra n r) as [-> ->]; [by apply mget_elem_inv|]. lia.
        -- rewrite decide_False by done. cbn. destruct (ra_turns _ _ Hra _ _ Hin) as [-> ->]. lia.
    + apply (runs_accounted_same es e st); [done..| |done].
      intros k; unfold run_entry_usage; rewrite Ed, Er. by rewrite decide_False.
  - unfold on_planner_generation in *. inv_reducer.
    apply (runs_accounted_same es e st); [done..|intros k; unfold run_entry_usage; by rewrite Ed|done].
  - unfold on_review_budget_settled in *. inv_reducer.
    apply (runs_accounted_same es e st); [done..|intros k; unfold run_entry_usage; by rewrite Ed|done].
Qed.

Lemma reduce_accounted es first data st :
  reduce_state es = Ok (first, data, st) → runs_accounted es st.
Proof.
  intros Hst. enough (runs_wf st ∧ runs_accounted es st) as [_ ?] by done. revert Hst.
  apply (session_ind (λ es st, runs_wf st ∧ runs_accounted es st)); clear.
  - intros first data Hd _. split.
    + split; cbn; try done; [constructor|by intros ? ? ?%elem_of_nil..].
    + split; cbn; [by intros ? ?%elem_of_nil| |by intros ? ? ?%elem_of_nil].
      intros k _. unfold run_entry_usage. by rewrite Hd.
  - intros es e st st' first data _ [Hwf Hra] He.
    destruct (reduce_entry_Ok _ _ _ _ He) as (_ & _ & _ & st1 & Ha & ->).
    match type of Ha with apply_entry _ _ ?s _ = _ =>
      assert (runs_wf s) as Hwf' by (by apply (runs_wf_same st); [..|apply (rw_open _ Hwf)|]);
      assert (runs_accounted es s) as Hra' by (destruct Hra; by split) end.
    pose proof (apply_entry_accounted _ _ _ _ _ Hwf' Hra' Ha) as [? ? ?].
    apply apply_entry_runs in Ha as Hwf1; [|done]. split; [|by split].
    by apply (runs_wf_same st1); [..|apply (rw_open _ Hwf1)|].
Qed.

(** ** Checkpoints *)

Lemma on_compaction_created_Ok ids cp e data r :
  on_compaction_created ids cp e data = Ok r →
  cc_coveredEndSequence data < en_sequence e ∧
  cc_retainedStartSequence data = cc_coveredEndSequence data + 1 ∧
  cc_summaryDigest data = sessionCompactionSummaryDigestV3 (cc_summary data) ∧
  cc_coveredStartSequence data = default 1 (cp_startSequence <$> cp) ∧
  cc_previousCheckpointId data = cp_checkpointId <$> cp ∧
  (∀ c, cp = Some c → cp_endSequence c < cc_coveredEndSequence data) ∧
  cp_startSequence r.2 = cc_coveredStartSequence data ∧ cp_endSequence r.2 = cc_coveredEndSequence data ∧
  cp_retainedStartSequence r.2 = cc_retainedStartSequence data ∧
  cp_summary r.2 = cc_summary data ∧ cp_summaryDigest r.2 = cc_summaryDigest data.
Proof.
  unfold on_compaction_created. intros Hr. inv_reducer. split_bool. cbn.
  split_and!; try lia; try done.
  - by apply dec_stable.
  - destruct cp; cbn in *; split_bool; cbn; lia.
  - destruct cp; cbn in *; split_bool; inv_reducer; cbn; [by apply dec_stable|done].
  - intros c ->. split_bool. lia.
Qed.

Record checkpoint_wf (es : list SessionEntryV3) (st : SessionState) : Prop := {
  kw_some : ∀ c, ss_checkpoint st = Some c →
    cp_startSequence c = 1 ∧ cp_retainedStartSequence c = cp_endSequence c + 1 ∧
    cp_endSequence c < Z.of_nat (length es) ∧
    cp_summaryDigest c = sessionCompactionSummaryDigestV3 (cp_summary c);
  kw_covers : ∀ e d, e ∈ es → en_data e = compaction_created d →
    ∃ c, ss_checkpoint st = Some c ∧ cc_coveredEndSequence d ≤ cp_endSequence c;
}.

Lemma apply_entry_checkpoint sid st e st' :
  apply_entry sid false st e = Ok st' →
  (∀ d, en_data e ≠ compaction_created d) → ss_checkpoint st' = ss_checkpoint st.
Proof.
  intros He Hne. entry_cases He e; try done. by destruct (Hne data).
Qed.

Lemma reduce_sequence_length es first data st :
  reduce_state es = Ok (first, data, st) → en_sequence (ss_previous st) = Z.of_nat (length es).
Proof.
  intros Ho%reduce_ordered. pose proof (oj_last _ _ Ho) as Hl. rewrite last_lookup in Hl.
  pose proof (lookup_lt_Some _ _ _ Hl). rewrite (oj_sequence _ _ Ho _ _ Hl). lia.
Qed.

Lemma reduce_checkpoint_wf es first data st :
  reduce_state es = Ok (first, data, st) → checkpoint_wf es st.
Proof.
  apply (session_ind (λ es st, checkpoint_wf es st)); clear.
  - intros first data Hd Hs. split; [done|]. intros e d Hin%list_elem_of_singleton Hd'. congruence.
  - intros es e st st' first data Hst [Hc Hcov] He.
    destruct (reduce_entry_Ok _ _ _ _ He) as (_ & Hg & _ & st1 & Ha & ->).
    apply entry_guards_Ok in Hg as (Hseq & _). rewrite (reduce_sequence_length _ _ _ _ Hst) in Hseq.
    destruct (en_data e) eqn:Ed; try (apply apply_entry_checkpoint in Ha; [|intros ?; by rewrite Ed];
      cbn in Ha; split; cbn; rewrite Ha;
      [intros c Hc'; destruct (Hc _ Hc') as (? & ? & ? & ?); rewrite length_app; cbn [length]; split_and!; try done; lia
      |intros e' d [Hin|Hin%list_elem_of_singleton]%elem_of_app Hd; [by eapply Hcov|congruence]]).
    unfold apply_entry in Ha. rewrite Ed in Ha. inv_reducer.
    match goal with H : on_compaction_created _ _ _ _ = _ |- _ =>
      apply on_compaction_created_Ok in H as (He1 & He2 & He3 & He4 & He5 & He6 & He7 & He8 & He9 & He10 & He11) end.
    cbn in *. split; cbn.
    + intros c [= <-]. rewrite He7, He8, He9, He10, He11, He4, length_app. cbn [length]. split_and!; try done; [|lia].
      destruct (ss_checkpoint st) as [c|] eqn:Ec; [|done]. by destruct (Hc c eq_refl).
    + intros e' d [Hin|Hin%list_elem_of_singleton]%elem_of_app Hd; eexists; (split; [done|]).
      * destruct (Hcov e' d Hin Hd) as (c & Hc' & Hle). specialize (He6 c Hc'). lia.
      * rewrite Hin, Ed in Hd. injection Hd as <-. lia.
Qed.

(** ** Properties *)

Lemma project_session_Ok first data st p :
  project_session first data st = Ok p → pj_snapshot p = project_snapshot first data st ∧
  pj_checkpoint p = ss_checkpoint st ∧
  cv_startSequence (pj_contextView p) = default 1 (cp_retainedStartSequence <$> ss_checkpoint st) ∧
  cv_endSequence (pj_contextView p) = en_sequence (ss_previous st) ∧
  cv_omittedEntries (pj_contextView p) = default 0 (cp_endSequence <$> ss_checkpoint st) ∧
  projectPlan (ss_plan st) = Ok (pj_planGraph p).
Proof. unfold project_session. intros Hp. by inv_ok. Qed.

Lemma reduced_order es p :
  reduceSessionEntriesV3 es = Ok p →
  (∀ i e, es !! i = Some e →
    en_sequence e = Z.of_nat i + 1 ∧ en_sessionId e = sn_sessionId (pj_snapshot p)) ∧
  sn_sequence (pj_snapshot p) = Z.of_nat (length es) ∧ es ≠ [].
Proof.
  intros (first & data & st & Hst & Hp)%reduce_session_Ok.
  apply project_session_Ok in Hp as (-> & _). cbn. pose proof (reduce_ordered _ _ _ _ Hst) as Ho.
  rewrite (reduce_sequence_length _ _ _ _ Hst).
  pose proof Hst as (rest & -> & _)%reduce_state_Ok. destruct (oj_session _ _ Ho) as (sid & Hall).
  split_and!; [|done|done]. intros i e He. split; [by apply (oj_sequence _ _ Ho)|].
  rewrite Forall_lookup in Hall. by rewrite (Hall i e He), (Hall 0%nat first eq_refl).
Qed.

(** The journal that the reducer accepts is numbered from 1 without a gap,
    belongs to one session, never goes back in time, raises its revision by at
    most one per entry and repeats no entry identity; the snapshot reports the
    number and the revision of its last entry. *)
Theorem journal_order es p :
  reduceSessionEntriesV3 es = Ok p →
  (∀ i e, es !! i = Some e →
    en_sequence e = Z.of_nat i + 1 ∧ en_sessionId e = sn_sessionId (pj_snapshot p)) ∧
  (∀ i a b, es !! i = Some a → es !! S i = Some b →
    (en_revision a ≤ en_revision b ≤ en_revision a + 1) ∧
    string_ltb (en_timestamp b) (en_timestamp a) = false) ∧
  NoDup (en_entryId <$> es) ∧
  sn_sequence (pj_snapshot p) = Z.of_nat (length es) ∧
  (∃ e, last es = Some e ∧ sn_revision (pj_snapshot p) = en_revision e).
Proof.
  intros Hes. destruct (reduced_order _ _ Hes) as (Hseq & Hlen & _).
  apply reduce_session_Ok in Hes as (first & data & st & Hst & Hp).
  pose proof (reduce_ordered _ _ _ _ Hst) as Ho. apply project_session_Ok in Hp as (Hsn & _).
  split_and!; [exact Hseq| |apply Ho|exact Hlen|exists (ss_previous st); split; [apply Ho|by rewrite Hsn]].
  intros i a b Ha Hb. by destruct (oj_follows _ _ Ho i a b Ha Hb) as (_ & ? & ?).
Qed.

Lemma runs_wf_ids st : runs_wf st → NoDup (rn_runId <$> (ru_runs (ss_runs st)).*2).
Proof.
  intros Hwf. replace (rn_runId <$> (ru_runs (ss_runs st)).*2) with ((ru_runs (ss_runs st)).*1); [apply Hwf|].
  rewrite <-list_fmap_compose. apply list_fmap_ext. intros i [k r] Hi. cbn.
  symmetry. by apply (rw_ids _ Hwf), list_elem_of_lookup_2 with i.
Qed.

(** C33 At most one run of a session is running at any time, only while the
    session is open, and no two runs share an identity. *)
Theorem session_runs_exclusive es p :
  reduceSessionEntriesV3 es = Ok p →
  NoDup (rn_runId <$> sn_runs (pj_snapshot p)) ∧
  (∀ r r', r ∈ sn_runs (pj_snapshot p) → r' ∈ sn_runs (pj_snapshot p) →
    rn_state r = R_running → rn_state r' = R_running → r = r') ∧
  (∀ r, r ∈ sn_runs (pj_snapshot p) → rn_state r = R_running → sn_lifecycle (pj_snapshot p) = L_open).
Proof.
  intros (first & data & st & Hst & Hp)%reduce_session_Ok.
  apply project_session_Ok in Hp as (-> & _). cbn. pose proof (reduce_runs_wf _ _ _ _ Hst) as Hwf.
  split_and!; [by apply runs_wf_ids|..].
  - intros r r' ([k ?] & -> & Hr)%list_elem_of_fmap ([k' ?] & -> & Hr')%list_elem_of_fmap.
    cbn. rewrite (rw_running _ Hwf _ _ Hr), (rw_running _ Hwf _ _ Hr'). intros -> [= ->].
    apply mget_elem in Hr, Hr'; [congruence|apply (rw_keys _ Hwf)..].
  - intros r ([k ?] & -> & Hr)%list_elem_of_fmap. cbn. rewrite (rw_running _ Hwf _ _ Hr). intros Ha.
    apply dec_stable. intros Hne. rewrite (rw_open _ Hwf Hne) in Ha. done.
Qed.

(** The usage of the snapshot is the sum, in order, of the usage entries and
    the settled review budgets; the turns and tool calls of each run are the sums
    over the usage entries that name the run, also after the run has ended. *)
Theorem session_usage_accounting es p :
  reduceSessionEntriesV3 es = Ok p →
  sn_usage (pj_snapshot p) = foldl mergeUsage zero_usage (omap entry_usage es) ∧
  ∀ r, r ∈ sn_runs (pj_snapshot p) →
    default 0 (wu_turns (rn_usage r)) = sumZ bu_turns (omap (run_entry_usage (rn_runId r)) es) ∧
    default 0 (wu_toolCalls (rn_usage r)) = sumZ bu_toolCalls (omap (run_entry_usage (rn_runId r)) es).
Proof.
  intros (first & data & st & Hst & Hp)%reduce_session_Ok.
  apply project_session_Ok in Hp as (-> & _). cbn. split; [by eapply reduce_usage|].
  intros r ([k ?] & -> & Hr)%list_elem_of_fmap. cbn.
  rewrite (rw_ids _ (reduce_runs_wf _ _ _ _ Hst) _ _ Hr).
  by apply (ra_turns _ _ (reduce_accounted _ _ _ _ Hst)).
Qed.

(** The context view splits the journal: the omitted entries are 1 to
    [omittedEntries], the recent range is the non-empty rest, every compaction of
    the journal is covered by the last checkpoint, and the digest of the
    checkpoint is that of its summary. *)
Theorem checkpoint_partition es p :
  reduceSessionEntriesV3 es = Ok p →
  cv_startSequence (pj_contextView p) = cv_omittedEntries (pj_contextView p) + 1 ∧
  cv_startSequence (pj_contextView p) ≤ cv_endSequence (pj_contextView p) ∧
  cv_endSequence (pj_contextView p) = Z.of_nat (length es) ∧
  (∀ e d, e ∈ es → en_data e = compaction_created d →
    cc_coveredEndSequence d ≤ cv_omittedEntries (pj_contextView p)) ∧
  (∀ c, pj_checkpoint p = Some c → cp_startSequence c = 1 ∧
    cp_summaryDigest c = sessionCompactionSummaryDigestV3 (cp_summary c)).
Proof.
  intros (first & data & st & Hst & Hp)%reduce_session_Ok.
  apply project_session_Ok in Hp as (_ & -> & -> & -> & -> & _).
  rewrite (reduce_sequence_length _ _ _ _ Hst).
  destruct (reduce_checkpoint_wf _ _ _ _ Hst) as [Hc Hcov].
  assert (1 ≤ Z.of_nat (length es)) as Hlen.
  { apply reduce_state_Ok in Hst as (rest & -> & _). rewrite length_cons. lia. }
  destruct (ss_checkpoint st) as [c|]; cbn.
  - destruct (Hc c eq_refl) as (? & ? & ? & ?). split_and!; [lia|lia|done| |].
    + intros e d He Hd. by destruct (Hcov e d He Hd) as (? & [= <-] & ?).
    + by intros ? [= <-].
  - split_and!; [lia|lia|done| |done]. intros e d He Hd. by destruct (Hcov e d He Hd) as (? & ? & _).
Qed.

(** A deleted session accepts no further entry and a closed one only changes
    of its metadata, its reopening, its forks and its deletion; a session with a
    running run can be neither closed nor deleted. *)
Theorem lifecycle_gate es p e p' :
  reduceSessionEntriesV3 es = Ok p → reduceSessionEntriesV3 (es ++ [e]) = Ok p' →
  sn_lifecycle (pj_snapshot p) ≠ L_deleted ∧
  (sn_lifecycle (pj_snapshot p) = L_closed → closed_accepts (en_data e) = true) ∧
  ((∃ r, r ∈ sn_runs (pj_snapshot p) ∧ rn_state r = R_running) →
    sn_lifecycle (pj_snapshot p') = L_open).
Proof.
  intros (first & data & st & Hst & Hp)%reduce_session_Ok (first' & data' & st' & Hst' & Hp')%reduce_session_Ok.
  apply project_session_Ok in Hp as (-> & _). apply project_session_Ok in Hp' as (-> & _). cbn.
  pose proof (reduce_runs_wf _ _ _ _ Hst) as Hwf. pose proof (reduce_runs_wf _ _ _ _ Hst') as Hwf'.
  apply reduce_state_Ok in Hst as (rest & -> & _ & Hd & _ & _ & Hrest).
  apply reduce_state_Ok in Hst' as (rest' & Heq & _ & Hd' & _ & _ & Hrest').
  injection Heq as <- <-. assert (data' = data) as -> by congruence.
  rewrite reduce_entries_app, Hrest in Hrest'. cbn in Hrest'.
  apply bind_Ok in Hrest' as (st1 & He & [= ->]).
  destruct (reduce_entry_Ok _ _ _ _ He) as (_ & Hg & _ & st2 & Ha & ->).
  apply entry_guards_Ok in Hg as (_ & _ & _ & Hdel & Hclosed). split_and!; [done|done|].
  intros (r & Hin & Hrun). apply list_elem_of_fmap in Hin as ([k ?] & -> & Hin). cbn in Hrun.
  rewrite (rw_running _ Hwf _ _ Hin) in Hrun.
  assert (me_lifecycle (ss_meta st) = L_open) as Hopen.
  { apply dec_stable. intros Hne. by rewrite (rw_open _ Hwf Hne) in Hrun. }
  cbn. entry_cases Ha e; try done;
    unfold on_session_forked, on_session_closed, on_session_reopened, on_session_deleted in *;
    inv_reducer; split_bool; inv_reducer; cbn in *; congruence.
Qed.
End Life.

(** ** Evaluation at the sample journal *)

Lemma sample_journal_projection : ∃ p, reduceSessionEntriesV3 sample_journal = Ok p.
Proof.
  pose proof sample_journal_accepted as Ha.
  destruct (reduceSessionEntriesV3 sample_journal) as [p|]; [exists p; reflexivity|discriminate Ha].
Qed.

Lemma journal_order_witness : ∃ p, reduceSessionEntriesV3 sample_journal = Ok p ∧
  sn_sequence (pj_snapshot p) = Z.of_nat (length sample_journal).
Proof.
  destruct sample_journal_projection as [p Hp]. exists p. split; [exact Hp|].
  exact (proj1 (proj2 (proj2 (proj2 (journal_order _ _ Hp))))).
Defined.

Lemma session_runs_exclusive_witness : ∃ p, reduceSessionEntriesV3 sample_journal = Ok p ∧
  NoDup (rn_runId <$> sn_runs (pj_snapshot p)).
Proof.
  destruct sample_journal_projection as [p Hp]. exists p. split; [exact Hp|].
  exact (proj1 (session_runs_exclusive _ _ Hp)).
Defined.

Lemma session_usage_accounting_witness : ∃ p, reduceSessionEntriesV3 sample_journal = Ok p ∧
  sn_usage (pj_snapshot p) = mergeUsage zero_usage sample_usage.
Proof.
  destruct sample_journal_projection as [p Hp]. exists p. split; [exact Hp|].
  exact (proj1 (session_usage_accounting _ _ Hp)).
Defined.

(** A journal with a compaction of its first entries. *)
Definition sample_summary : SessionCompactionSummaryV3 :=
  {| cs_objective := None; cs_relevantRefs := None; cs_decisions := []; cs_constraints := [];
     cs_readFiles := []; cs_modifiedFiles := []; cs_unresolved := []; cs_activePlan := [] |}.
Definition sample_compaction : CompactionCreatedData :=
  {| cc_checkpointId := "k1"; cc_coveredStartSequence := 1; cc_coveredEndSequence := 4;
     cc_previousCheckpointId := None; cc_retainedStartSequence := 5; cc_summary := sample_summary;
     cc_provenance := JNull; cc_summaryDigest := sessionCompactionSummaryDigestV3 sample_summary;
     cc_summaryTokens := 3; cc_reason := C_manual; cc_checkpoint := None |}.
Definition sample_compacted : list SessionEntryV3 := sample_entries (sample_opening ++ [compaction_created sample_compaction]).

Lemma checkpoint_partition_witness : ∃ p, reduceSessionEntriesV3 sample_compacted = Ok p ∧
  4 ≤ cv_omittedEntries (pj_contextView p).
Proof.
  assert (is_ok (reduceSessionEntriesV3 sample_compacted) = true) as Ha by (vm_compute; reflexivity).
  destruct (reduceSessionEntriesV3 sample_compacted) as [p|] eqn:Hp; [|discriminate Ha].
  exists p. split; [reflexivity|].
  refine (proj1 (proj2 (proj2 (proj2 (checkpoint_partition _ _ Hp)))) (sample_entry_at 8 (compaction_created sample_compaction)) sample_compaction _ _);
    [|reflexivity].
  apply list_elem_of_lookup. exists 7%nat. reflexivity.
Defined.

(** The same journal closed after its run has ended. *)
Definition sample_ending : list SessionEntryData :=
  [run_terminal {| rt_status := T_completed; rt_usage := no_provider_usage; rt_errorCode := None |};
   session_closed None].
Lemma lifecycle_gate_witness : ∃ p p',
  reduceSessionEntriesV3 (sample_entries (sample_opening ++ sample_ending)) = Ok p ∧
  reduceSessionEntriesV3 (sample_entries (sample_opening ++ sample_ending)
    ++ [sample_entry_at 10 (session_reopened None)]) = Ok p' ∧
  sn_lifecycle (pj_snapshot p) ≠ L_deleted.
Proof.
  set (es := sample_entries (sample_opening ++ sample_ending)).
  set (e := sample_entry_at 10 (session_reopened None)).
  assert (is_ok (reduceSessionEntriesV3 es) && is_ok (reduceSessionEntriesV3 (es ++ [e])) = true) as Ha
    by (vm_compute; reflexivity).
  destruct (reduceSessionEntriesV3 es) as [p|] eqn:Hp; [|discriminate Ha].
  destruct (reduceSessionEntriesV3 (es ++ [e])) as [p'|] eqn:Hp'; [|discriminate Ha].
  exists p, p'. split; [reflexivity|]. split; [reflexivity|].
  exact (proj1 (lifecycle_gate _ _ _ _ Hp Hp')).
Defined.

(** The event of the review plan that an entry carries, as the reducer builds it. *)
Definition review_event_of (entry : SessionEntryV3) : option ReviewPlanJournalEventV1 :=
  match en_data entry with
  | review_plan_event type data =>
      Some {| rpe_type := type; rpe_sequence := en_sequence entry; rpe_revision := en_revision entry;
              rpe_runId := en_runId entry; rpe_correlation := None; rpe_data := data |}
  | _ => None
  end.

Section Review.
Context `{JsEngine} `{JsCrypto}.

Definition shown_plan (st : SessionState) : option ReviewPlanProjectionV1 := rv_reviewPlan (ss_review st).

(** The handlers of the other review state leave the plan alone. *)
Ltac review_handlers := unfold on_control_authorized, on_control_turn_bound, on_control_discarded, on_control_consumed,
  on_review_budget_reserved, on_review_budget_settled, on_working_plan_saved, on_review_requested, on_reviewed,
  on_review_plan_event in *; inv_reducer.

Lemma apply_entry_review sid st e st' :
  apply_entry sid false st e = Ok st' →
  match review_event_of e with
  | Some event => ∃ p, reduceReviewPlanEventV1 (shown_plan st) event = Ok p ∧ shown_plan st' = Some p
  | None => shown_plan st' = shown_plan st
  end.
Proof.
  intros He. unfold review_event_of, shown_plan. entry_cases He e; try done; review_handlers; try done.
  eexists. split; [|done]. assumption.
Qed.

Definition review_history (es : list SessionEntryV3) : list ReviewPlanJournalEventV1 := omap review_event_of es.

Lemma session_review_history es first data st :
  reduce_state es = Ok (first, data, st) → reduce_review_events None (review_history es) = Ok (shown_plan st).
Proof.
  apply (session_ind (λ es st, reduce_review_events None (review_history es) = Ok (shown_plan st))); clear.
  - intros first data Hd _. unfold review_history. cbn. unfold review_event_of. by rewrite Hd.
  - intros es e st st' first data Hst IH He.
    destruct (reduce_entry_Ok _ _ _ _ He) as (_ & _ & _ & st1 & Ha & ->). apply apply_entry_review in Ha.
    unfold review_history in *. rewrite omap_app, reduce_review_events_app, IH. cbn.
    destruct (review_event_of e) as [event|]; cbn.
    + destruct Ha as (p & Hp & Hst1). unfold shown_plan in *. cbn in Hp |- *. rewrite Hp. cbn. by rewrite Hst1.
    + unfold shown_plan in *. cbn in Ha |- *. by rewrite Ha.
Qed.

(** C19 The review plan of a session is the fold of the review events of its
    journal by the reducer of review plans, so it is well formed and its accepted
    items are accepted by a decision that an entry of the journal records. *)
Theorem session_review_plan es pj :
  reduceSessionEntriesV3 es = Ok pj →
  reduce_review_events None (review_history es) = Ok (pj_reviewPlan pj) ∧
  ∀ plan, pj_reviewPlan pj = Some plan → review_plan_wf plan ∧
    ∀ i, i ∈ rpl_items plan → itm_state i = RI_accepted →
      ∃ entry event decision, entry ∈ es ∧ review_event_of entry = Some event ∧
        recorded_decision event = Some decision ∧ itm_lastReview i = Some decision ∧ dcs_verdict decision = RV_accepted.
Proof.
  intros (first & data & st & Hst & Hp)%reduce_session_Ok. apply session_review_history in Hst.
  assert (pj_reviewPlan pj = shown_plan st) as -> by (unfold project_session in Hp; by inv_ok).
  split; [done|]. intros plan Hplan. rewrite Hplan in Hst. split; [by eapply history_wf|].
  intros i Hi Hs. destruct (io_review _ _ (history_items_ok _ _ Hst i Hi) Hs) as (_ & d & Hl & Hv & Hd).
  apply list_elem_of_omap in Hd as (event & Hevent & Hrec).
  apply list_elem_of_omap in Hevent as (entry & Hentry & Hev). by exists entry, event, d.
Qed.
End Review.

(** ** The sample plan in a session *)

Definition sample_review_entries : list SessionEntryV3 :=
  sample_entries (sample_created :: ((λ '(type, fields), review_plan_event type (JObj (sample_common 1 ++ fields))) <$>
    (create_step :: item_steps ++ final_steps RV_accepted))).

Lemma session_review_plan_witness :
  match reduceSessionEntriesV3 sample_review_entries with
  | Ok pj => is_none (pj_reviewPlan pj) = false ∧
             reduce_review_events None (review_history sample_review_entries) = Ok (pj_reviewPlan pj)
  | Err _ => False
  end.
Proof.
  assert (match reduceSessionEntriesV3 sample_review_entries with Ok pj => is_none (pj_reviewPlan pj) | Err _ => true end = false)
    as Hr by (vm_compute; reflexivity).
  destruct (reduceSessionEntriesV3 sample_review_entries) as [pj|] eqn:Hp; [|discriminate Hr].
  split; [exact Hr|]. exact (proj1 (session_review_plan sample_review_entries pj Hp)).
Defined.
