(* ===== verification/SessionPlan.v ===== *)
(** * The plan of a session

    The shape of the journaled plan (identities and ordinals of its attempts)
    and the evidence behind its successes. *)

From S2P Require Import Prelude Js CanonicalJson Samples Plan PlanSpec Subagent Session SessionReducer SessionSamples SessionInv SessionLife.
Local Open Scope Z_scope.

(** ** Shape *)

(** The attempts of step [s]: their keys, and the ordinals 1, 2, ... in order. *)
Record step_shape (ids : list string) (k : string) (s : MutableStep) : Prop := {
  ssh_id : ms_stepId s = k;
  ssh_keys : NoDup ((ms_attempts s).*1);
  ssh_attempts : ∀ ka a, (ka, a) ∈ ms_attempts s →
    ma_attemptId a = ka ∧ stable_id "attempt" ka ∈ ids;
  ssh_ordinals : ma_ordinal <$> (ms_attempts s).*2 = seqZ 1 (Z.of_nat (length (ms_attempts s)));
  ssh_bound : (ms_attempts s = [] ∨ Z.of_nat (length (ms_attempts s)) ≤ ms_maxAttempts s);
}.

Record plan_shape (ids : list string) (p : MutablePlan) : Prop := {
  ps_plan : stable_id "plan" (mp_planId p) ∈ ids;
  ps_keys : NoDup ((mp_steps p).*1);
  ps_steps : ∀ k s, (k, s) ∈ mp_steps p → step_shape ids k s;
}.

Definition plan_opt (P : MutablePlan → Prop) (plan : option MutablePlan) : Prop :=
  match plan with Some p => P p | None => True end.

Lemma step_shape_mono ids ids' k s : ids ⊆ ids' → step_shape ids k s → step_shape ids' k s.
Proof. intros Hs [H1 H2 H3 H4 H5]. split; try done. intros ka a Ha. destruct (H3 ka a Ha); auto. Qed.

Lemma plan_shape_mono ids ids' p : ids ⊆ ids' → plan_shape ids p → plan_shape ids' p.
Proof. intros Hs [Hi Hk Hp]. split; [by apply Hs|done|]. intros. eapply step_shape_mono; eauto. Qed.

Lemma plan_shape_state ids p st : plan_shape ids p → plan_shape ids (with_plan_state p st).
Proof. intros [? ? ?]. by split. Qed.

Lemma mutate_step_shape ids p k f :
  plan_shape ids p → (∀ s, mget k (mp_steps p) = Some s → step_shape ids k s → step_shape ids k (f s)) →
  plan_shape ids (mutate_step p k f).
Proof.
  intros [Hi Hk Hp] Hf. split; cbn; [done|by rewrite mupdate_keys|].
  intros k' s' (s & Hin & ->)%mupdate_elem. case_decide; [|by apply Hp]. subst.
  apply Hf; [by apply mget_elem|by apply Hp].
Qed.

Lemma mutate_attempt_shape ids p k ka f :
  plan_shape ids p → (∀ a, ma_attemptId (f a) = ma_attemptId a ∧ ma_ordinal (f a) = ma_ordinal a) →
  plan_shape ids (mutate_attempt p k ka f).
Proof.
  intros Hp Hf. apply mutate_step_shape; [done|]. intros s _ [H1 H2 H3 H4 H5]. split; cbn.
  - done.
  - by rewrite mupdate_keys.
  - intros k' a' (a & Hin & ->)%mupdate_elem. case_decide; [|by apply H3].
    rewrite (proj1 (Hf a)). by apply H3.
  - rewrite mupdate_length, <-H4. unfold mupdate. rewrite <-!list_fmap_compose. apply list_fmap_ext.
    intros i [k' a'] _. cbn. case_decide; [|done]. apply Hf.
  - rewrite mupdate_length. destruct H5 as [->|?]; [by left|by right].
Qed.

(** The access functions find the named objects of the current plan. *)
Lemma requirePlanRevision_Ok plan planId rev p :
  requirePlanRevision plan planId rev = Ok p ↔ plan = Some p ∧ mp_planId p = planId ∧ mp_revision p = rev.
Proof.
  split.
  - intros Hp. inv_reducer. split_bool. split_and!; [done| |lia]. by apply dec_stable.
  - intros (-> & <- & <-). unfold requirePlanRevision, requirePlan. cbn.
    rewrite bool_decide_eq_false_2 by naive_solver. cbn. by rewrite Z.eqb_refl.
Qed.

Lemma requireStepRevision_Ok plan planId rev k s :
  requireStepRevision plan planId rev k = Ok s ↔
  ∃ p, plan = Some p ∧ mp_planId p = planId ∧ mp_revision p = rev ∧ mget k (mp_steps p) = Some s.
Proof.
  unfold requireStepRevision. rewrite bind_Ok. setoid_rewrite requirePlanRevision_Ok.
  setoid_rewrite required_value_Ok. naive_solver.
Qed.

Lemma requireAttemptRevision_Ok plan planId rev k ka a :
  requireAttemptRevision plan planId rev k ka = Ok a ↔
  ∃ p s, plan = Some p ∧ mp_planId p = planId ∧ mp_revision p = rev ∧
    mget k (mp_steps p) = Some s ∧ mget ka (ms_attempts s) = Some a.
Proof.
  unfold requireAttemptRevision. rewrite bind_Ok. setoid_rewrite requireStepRevision_Ok.
  setoid_rewrite required_value_Ok. naive_solver.
Qed.

(** [inv_ok] for the plan handlers. *)
Ltac inv_plan_step :=
  match goal with
  | H : requirePlanRevision _ _ _ = Ok _ |- _ => apply requirePlanRevision_Ok in H as (-> & ? & ?)
  | H : requireStepRevision _ _ _ _ = Ok _ |- _ =>
      apply requireStepRevision_Ok in H as (? & ? & ? & ? & ?)
  | H : requireAttemptRevision _ _ _ _ _ = Ok _ |- _ =>
      apply requireAttemptRevision_Ok in H as (? & ? & ? & ? & ? & ? & ?)
  | _ => inv_step
  end.
Ltac inv_plan := repeat inv_plan_step; simplify_eq.

Lemma reuse_steps_elem p proofs todo reused out :
  reuse_steps p proofs todo reused = Ok out →
  (∀ k s, (k, s) ∈ mp_steps p → ms_stepId s = k) → NoDup (reused.*1) →
  NoDup (out.*1) ∧ ∀ k s, (k, s) ∈ out →
    (k, s) ∈ reused ∨ ((k, s) ∈ mp_steps p ∧ ∃ proof, proof ∈ todo ∧ rp_stepId proof = k ∧
      reuse_step p proofs proof = Ok s).
Proof.
  intros Hr Hid. revert reused Hr. induction todo as [|proof todo IH]; intros reused Hr Hnd; cbn in Hr.
  { injection Hr as <-. split; [done|]. intros; by left. }
  apply bind_Ok in Hr as (s & Hs & Hr). destruct (IH _ Hr) as [Hnd' Hout]; [by apply mset_NoDup|].
  split; [done|]. intros k s' Hin. destruct (Hout k s' Hin) as [Hin'|(? & pr & ? & ? & ?)].
  - apply mset_elem_NoDup in Hin' as [[-> ->]|[_ ?]]; [|by left|done]. right.
    pose proof Hs as Hs'. unfold reuse_step in Hs'. inv_plan.
    match goal with H : mget _ _ = Some _ |- _ => apply mget_elem_inv in H; rename H into Hin1 end.
    rewrite (Hid _ _ Hin1). split; [done|]. exists proof. split_and!; [left|done|done].
  - right. split; [done|]. exists pr. split_and!; [by right|done|done].
Qed.

Lemma reuse_step_Ok p proofs proof s :
  reuse_step p proofs proof = Ok s →
  mget (rp_stepId proof) (mp_steps p) = Some s ∧ ms_state s = S_succeeded ∧
  (∃ a, latestStepAttempt s = Some a ∧ ma_state a = A_verified ∧
    vr_digest ∘ sr_packetRef ∘ ex_request <$> ma_execution a = Some (rp_previousInputDigest proof)) ∧
  rp_previousInputDigest proof = rp_nextInputDigest proof ∧
  ∀ d, d ∈ ms_dependencies s → d ∈ rp_stepId <$> proofs.
Proof.
  unfold reuse_step. intros Hs. inv_reducer. split_bool.
  repeat match goal with H : ¬ (_ ≠ _) |- _ => apply dec_stable in H end.
  split_and!; [done|done|by eexists|done|].
  intros d Hd. match goal with H : existsb _ _ = false |- _ => rename H into He end.
  rewrite existsb_false, Forall_forall in He. specialize (He d Hd). apply negb_false_iff, existsb_true in He.
  destruct He as (c & Hc & Heq). split_bool. subst. by apply list_elem_of_fmap_2.
Qed.

Lemma on_plan_decision_recorded_same plan data p : on_plan_decision_recorded plan data = Ok p → plan = Some p.
Proof.
  unfold on_plan_decision_recorded. intros Hp. inv_plan. destruct (pd_stepId data); inv_plan; [|done].
  destruct (pd_attemptId data); inv_plan; done.
Qed.

Section Handlers.
Context (ids : list string) (plan : option MutablePlan).
Hypothesis Hshape : plan_opt (plan_shape ids) plan.

Lemma on_plan_created_shape data r :
  on_plan_created ids plan data = Ok r → ids ⊆ r.1 ∧ plan_shape r.1 r.2.
Proof.
  unfold on_plan_created. intros Hr. inv_plan. cbn. split; [set_solver|].
  split; cbn; [left|constructor|]. by intros ? ? ?%elem_of_nil.
Qed.

Lemma on_plan_state_changed_shape data p : on_plan_state_changed plan data = Ok p → plan_shape ids p.
Proof. unfold on_plan_state_changed. intros Hp. inv_plan. by apply plan_shape_state. Qed.

Lemma on_plan_revised_shape data p : on_plan_revised plan data = Ok p → plan_shape ids p.
Proof.
  unfold on_plan_revised. intros Hp. inv_plan. cbn in Hshape.
  match goal with H : reuse_steps _ _ _ _ = Ok _ |- _ => apply reuse_steps_elem in H as [Hnd Hout] end;
    [|intros k s Hin; by apply (ssh_id ids), Hshape|constructor].
  split; cbn; [by apply Hshape|done|]. intros k s Hin. destruct (Hout k s Hin) as [Hin'|[Hin' _]].
  - by apply elem_of_nil in Hin'.
  - by apply (ps_steps _ _ Hshape).
Qed.

Lemma on_step_created_shape data r :
  on_step_created ids plan data = Ok r → ids ⊆ r.1 ∧ plan_shape r.1 r.2.
Proof.
  unfold on_step_created. intros Hr. inv_plan. cbn in *. split; [set_solver|].
  destruct (plan_shape_mono ids (stable_id "step" (sd_stepId data) :: ids) x ltac:(set_solver) Hshape)
    as [Hi Hk Hp].
  split; cbn; [done|by apply mset_NoDup|]. intros k s [[-> ->]|[_ Hin]]%mset_elem_NoDup; [|by apply Hp|done].
  split; cbn; [done|constructor|by intros ? ? ?%elem_of_nil|done|by left].
Qed.

Lemma on_step_state_changed_shape data p : on_step_state_changed plan data = Ok p → plan_shape ids p.
Proof.
  unfold on_step_state_changed. intros Hp. inv_plan. apply mutate_step_shape; [done|].
  intros s _ [? ? ? ? ?]. by split.
Qed.

Lemma on_attempt_created_shape data r :
  on_attempt_created ids plan data = Ok r → ids ⊆ r.1 ∧ plan_shape r.1 r.2.
Proof.
  unfold on_attempt_created. intros Hr. inv_plan. split_bool. cbn in *.
  match goal with Hf : stable_id "attempt" _ ∉ ids |- _ => rename Hf into Hfresh end.
  match goal with H : match ac_childRunId data with _ => _ end = Ok ?i |- _ =>
    rename i into ids'; rename H into Hids end.
  assert (stable_id "attempt" (ac_attemptId data) :: ids ⊆ ids') as Hsub.
  { destruct (ac_childRunId data); inv_plan; set_solver. }
  assert (ids ⊆ ids') as Hsub' by set_solver. split; [done|].
  apply mutate_step_shape; [by eapply plan_shape_mono|]. intros s Hs _.
  match goal with Hg : mget _ _ = Some ?s' |- _ => assert (s' = s) as -> by congruence; clear Hg end.
  destruct (ps_steps _ _ Hshape _ _ (mget_elem_inv _ _ _ Hs)) as [Hs1 Hs2 Hs3 Hs4 Hs5].
  assert (ac_attemptId data ∉ (ms_attempts s).*1) as Hn.
  { intros ([k' a] & Heq & Hin)%list_elem_of_fmap. cbn in Heq. apply Hfresh. rewrite Heq.
    by apply (Hs3 _ a). }
  split; cbn; rewrite ?(mset_fresh _ _ _ Hn).
  - done.
  - by rewrite <-(mset_fresh _ (new_attempt data) _ Hn); apply mset_NoDup.
  - intros ka a [Hin|[= -> ->]%list_elem_of_singleton]%elem_of_app.
    + destruct (Hs3 ka a Hin) as [? Hin']. split; [done|]. by apply Hsub'.
    + split; [done|]. set_solver.
  - rewrite length_app, !fmap_app, Hs4. cbn [length]. rewrite Nat2Z.inj_add, seqZ_app by lia.
    f_equal. change (Z.of_nat 1) with 1. rewrite (seqZ_cons _ 1) by lia. cbn. f_equal. lia.
  - right. rewrite length_app. cbn. lia.
Qed.

Ltac attempt_shape := match goal with H : plan_opt _ (Some _) |- _ => cbn in H end;
  apply mutate_attempt_shape; [done|]; intros a; by split.

Lemma on_attempt_state_changed_shape data p : on_attempt_state_changed plan data = Ok p → plan_shape ids p.
Proof. unfold on_attempt_state_changed. intros Hp. inv_plan. attempt_shape. Qed.

Lemma on_attempt_execution_completed_shape data p :
  on_attempt_execution_completed plan data = Ok p → plan_shape ids p.
Proof. unfold on_attempt_execution_completed. intros Hp. inv_plan. attempt_shape. Qed.

Lemma on_subagent_execution_bound_shape corr data p :
  on_subagent_execution_bound plan corr data = Ok p → plan_shape ids p.
Proof. unfold on_subagent_execution_bound. intros Hp. inv_plan. attempt_shape. Qed.

Lemma on_subagent_result_recorded_shape data r :
  on_subagent_result_recorded ids plan data = Ok r → ids ⊆ r.1 ∧ plan_shape r.1 r.2.
Proof.
  unfold on_subagent_result_recorded. intros Hr. inv_plan. cbn in Hshape.
  match goal with H : (if _ then _ else _) = Ok ?i |- _ =>
    assert (ids ⊆ i) as Hsub by (case_match; inv_plan; set_solver) end.
  cbn. split; [done|]. apply mutate_attempt_shape; [by eapply plan_shape_mono|]. intros a; by split.
Qed.

Lemma on_verification_recorded_shape data r :
  on_verification_recorded ids plan data = Ok r → ids ⊆ r.1 ∧ plan_shape r.1 r.2.
Proof.
  unfold on_verification_recorded. intros Hr. inv_plan. cbn in *. split; [set_solver|].
  apply mutate_attempt_shape; [eapply plan_shape_mono; [|done]; set_solver|]. intros a; by split.
Qed.
End Handlers.

(** ** Evidence *)

(** What stands behind the state of an attempt: a recorded result from
    [execution_succeeded] on, and passed verifications once it is verified. *)
Record attempt_ok (a : MutableAttempt) : Prop := {
  ao_result : ma_state a ∈ [A_execution_succeeded; A_verifying; A_verified] →
    ma_resultStatus a = Some E_succeeded ∧ is_Some (ma_resultRef a);
  ao_verified : ma_state a = A_verified →
    ma_verifications a ≠ [] ∧ Forall (λ v, ve_status v = V_passed) (ma_verifications a);
}.

Record step_ok (s : MutableStep) : Prop := {
  so_attempts : ∀ k a, (k, a) ∈ ms_attempts s → attempt_ok a;
  so_succeeded : ms_state s = S_succeeded → ∃ k a, (k, a) ∈ ms_attempts s ∧ ma_state a = A_verified;
}.

Definition plan_ok (p : MutablePlan) : Prop := ∀ k s, (k, s) ∈ mp_steps p → step_ok s.

(** Steps and attempts enter the journal in their initial states. *)
Definition created_fresh (e : SessionEntryV3) : Prop :=
  match en_data e with
  | step_created data => sd_state data = S_pending
  | attempt_created data => ac_state data = A_reserved
  | _ => True
  end.

Lemma mutate_attempt_ok p k ka f s a :
  plan_ok p → mget k (mp_steps p) = Some s → mget ka (ms_attempts s) = Some a →
  NoDup ((mp_steps p).*1) → NoDup ((ms_attempts s).*1) →
  attempt_ok (f a) → (ma_state a = A_verified → ma_state (f a) = A_verified) →
  plan_ok (mutate_attempt p k ka f).
Proof.
  intros Hp Hs Ha Hnp Hns Hok Hv k' s' (s0 & Hin & ->)%mupdate_elem. case_decide; [|by eapply Hp].
  subst. assert (s0 = s) as -> by (apply mget_elem in Hin; congruence).
  destruct (Hp _ _ Hin) as [Hall Hsucc].
  assert (∀ a0, (ka, a0) ∈ ms_attempts s → a0 = a) as Honly.
  { intros a0 Hin0. apply mget_elem in Hin0; congruence. }
  split; cbn.
  - intros k' a' (a0 & Hin0 & ->)%mupdate_elem. case_decide; [|by eapply Hall]. subst.
    by rewrite (Honly _ Hin0).
  - intros (kv & av & Hin0 & Hst)%Hsucc. exists kv. eexists. split; [by apply mupdate_elem; eexists|].
    case_decide; [|done]. subst. rewrite (Honly _ Hin0) in *. auto.
Qed.

Lemma latestStepAttempt_elem s a : latestStepAttempt s = Some a → ∃ k, (k, a) ∈ ms_attempts s.
Proof.
  unfold latestStepAttempt. intros Ha. apply head_Some_elem_of, js_sort_elem in Ha.
  apply list_elem_of_fmap in Ha as ([k a'] & -> & Hin). by exists k.
Qed.

Lemma attempt_transition_Ok from to u :
  assertPlanAttemptTransitionV1 from to = Ok u → to ∈ ATTEMPT_TRANSITIONS from.
Proof. unfold assertPlanAttemptTransitionV1. intros Hu. inv_ok. by split_bool. Qed.

Lemma plan_attempt ids p k ka s a :
  plan_shape ids p → plan_ok p → mget k (mp_steps p) = Some s → mget ka (ms_attempts s) = Some a →
  NoDup ((mp_steps p).*1) ∧ NoDup ((ms_attempts s).*1) ∧ attempt_ok a.
Proof.
  intros Hshape Hok Hs%mget_elem_inv Ha%mget_elem_inv. split_and!.
  - apply Hshape.
  - by eapply ssh_keys, Hshape.
  - eapply so_attempts; [by eapply Hok|done].
Qed.

Section Evidence.
Context (ids : list string) (plan : option MutablePlan).
Hypothesis Hshape : plan_opt (plan_shape ids) plan.
Hypothesis Hok : plan_opt plan_ok plan.

Lemma on_plan_revised_ok data p : on_plan_revised plan data = Ok p → plan_ok p.
Proof.
  unfold on_plan_revised. intros Hp. inv_plan. cbn in *.
  match goal with H : reuse_steps _ _ _ _ = Ok _ |- _ => apply reuse_steps_elem in H as [_ Hout] end;
    [|intros k s Hin; by apply (ssh_id ids), Hshape|constructor].
  intros k s Hin. destruct (Hout k s Hin) as [Hin'|[Hin' _]]; [by apply elem_of_nil in Hin'|by eapply Hok].
Qed.

Lemma on_step_created_ok data r :
  sd_state data = S_pending → on_step_created ids plan data = Ok r → plan_ok r.2.
Proof.
  unfold on_step_created. intros Hf Hr. inv_plan. cbn in *.
  intros k s [[-> ->]|Hin]%mset_elem_weak; [|by eapply Hok].
  split; cbn; [by intros ? ? ?%elem_of_nil|by rewrite Hf].
Qed.

Lemma on_step_state_changed_ok data p : on_step_state_changed plan data = Ok p → plan_ok p.
Proof.
  unfold on_step_state_changed. intros Hp. inv_plan. cbn in *.
  match goal with Hg : mget _ _ = Some ?s' |- _ => rename s' into s; rename Hg into Hs end.
  intros k s' (s0 & Hin & ->)%mupdate_elem. case_decide; [|by eapply Hok]. subst.
  assert (s0 = s) as -> by (apply mget_elem in Hin; [congruence|apply Hshape]).
  destruct (Hok _ _ Hin) as [Hall _]. split; cbn; [done|]. intros Hst.
  match goal with H : match attempt_state_for _ with _ => _ end = false |- _ => rewrite Hst in H; cbn in H end.
  split_bool. destruct (latestStepAttempt s) as [a|] eqn:Ha; cbn in *; [|naive_solver].
  apply latestStepAttempt_elem in Ha as [k Hk]. exists k, a. split; [done|].
  match goal with H : ¬ (Some _ ≠ _) |- _ => apply dec_stable in H; congruence end.
Qed.

Lemma on_attempt_created_ok data r :
  ac_state data = A_reserved → on_attempt_created ids plan data = Ok r → plan_ok r.2.
Proof.
  unfold on_attempt_created. intros Hf Hr. inv_plan. cbn in *.
  match goal with Hg : mget _ _ = Some ?s' |- _ => rename s' into s; rename Hg into Hs end.
  match goal with Hf : stable_id "attempt" _ ∉ ids |- _ => rename Hf into Hfresh end.
  intros k s' (s0 & Hin & ->)%mupdate_elem. case_decide; [|by eapply Hok]. subst.
  assert (s0 = s) as -> by (apply mget_elem in Hin; [congruence|apply Hshape]).
  destruct (Hok _ _ Hin) as [Hall Hsucc]. split; cbn.
  - intros ka a [[-> ->]|Hin']%mset_elem_weak; [|by eapply Hall]. split; cbn; rewrite Hf; [|done].
    intros Hbad. exfalso. set_solver.
  - intros (ka & a & Hin' & Hst)%Hsucc. exists ka, a. split; [|done]. apply mset_other_elem; [|done].
    intros ->. by apply Hfresh, (ssh_attempts _ _ _ (ps_steps _ _ Hshape _ _ Hin) _ _ Hin').
Qed.

Lemma on_attempt_state_changed_ok data p : on_attempt_state_changed plan data = Ok p → plan_ok p.
Proof.
  unfold on_attempt_state_changed. intros Hp. inv_plan. split_bool.
  match goal with Hs : mget _ _ = Some ?s, Ha : mget _ (ms_attempts ?s) = Some ?a |- _ =>
    destruct (plan_attempt _ _ _ _ _ _ Hshape Hok Hs Ha) as (Hn1 & Hn2 & [Hres Hver]);
    rename Hs into Hgs; rename Ha into Hga; rename a into a0 end.
  match goal with H : assertPlanAttemptTransitionV1 _ _ = _ |- _ =>
    apply attempt_transition_Ok in H; rename H into Ht end.
  match goal with H : one_of _ _ = false |- _ => rename H into Hone end.
  eapply mutate_attempt_ok; [done|exact Hgs|exact Hga|done|done| |].
  - split; cbn.
    + intros Hin. apply Hres. destruct (asc_state data), (ma_state a0); cbn in Ht; set_solver.
    + intros Hst. rewrite Hst in *.
      match goal with H : bool_decide (A_verified = A_verified) && _ = false |- _ =>
        rewrite bool_decide_eq_true_2 in H by done; cbn [andb] in H end. split_bool.
      match goal with H : Nat.eqb _ _ = false |- _ => apply Nat.eqb_neq in H end. cbn.
      split; [by intros Hnil; rewrite Hnil in *|].
      match goal with H : existsb not_passed _ = false |- _ =>
        rewrite existsb_false in H; eapply Forall_impl; [exact H|] end.
      unfold not_passed. intros v Hv. split_bool. by apply dec_stable.
  - intros Hst. rewrite Hst in Ht. cbn in Ht. by apply elem_of_nil in Ht.
Qed.

(** A change that keeps the state, the result and the verifications of an
    attempt in a state that is not verified keeps what is behind it. *)
Lemma on_attempt_execution_completed_ok data p :
  on_attempt_execution_completed plan data = Ok p → plan_ok p.
Proof.
  unfold on_attempt_execution_completed. intros Hp. inv_plan. split_bool.
  match goal with Hs : mget _ _ = Some ?s, Ha : mget _ (ms_attempts ?s) = Some ?a |- _ =>
    destruct (plan_attempt _ _ _ _ _ _ Hshape Hok Hs Ha) as (Hn1 & Hn2 & [Hres Hver]);
    rename Hs into Hgs; rename Ha into Hga; rename a into a0 end.
  match goal with H : assertPlanAttemptTransitionV1 _ _ = _ |- _ =>
    apply attempt_transition_Ok in H; rename H into Ht end.
  match goal with H : ¬ (ma_resultStatus _ ≠ _) |- _ => apply dec_stable in H; rename H into Hstat end.
  eapply mutate_attempt_ok; [done|exact Hgs|exact Hga|done|done| |].
  - split; cbn.
    + intros Hin. destruct (aec_status data); cbn in *; [|exfalso; set_solver..].
      split; [done|]. by destruct (ma_resultRef a0).
    + by destruct (aec_status data).
  - intros Hst. rewrite Hst in Ht. destruct (aec_status data); cbn in Ht; by apply elem_of_nil in Ht.
Qed.

Lemma on_subagent_execution_bound_ok corr data p :
  on_subagent_execution_bound plan corr data = Ok p → plan_ok p.
Proof.
  unfold on_subagent_execution_bound. intros Hp. inv_plan. split_bool.
  match goal with Hs : mget _ _ = Some ?s, Ha : mget _ (ms_attempts ?s) = Some ?a |- _ =>
    destruct (plan_attempt _ _ _ _ _ _ Hshape Hok Hs Ha) as (Hn1 & Hn2 & [Hres Hver]);
    eapply mutate_attempt_ok; [done|exact Hs|exact Ha|done|done|by split|done] end.
Qed.

Lemma on_subagent_result_recorded_ok data r :
  on_subagent_result_recorded ids plan data = Ok r → plan_ok r.2.
Proof.
  unfold on_subagent_result_recorded. intros Hp. inv_plan. split_bool.
  match goal with H : ¬ (ma_state _ ≠ _) |- _ => apply dec_stable in H; rename H into Hrun end.
  match goal with Hs : mget _ _ = Some ?s, Ha : mget _ (ms_attempts ?s) = Some ?a |- _ =>
    destruct (plan_attempt _ _ _ _ _ _ Hshape Hok Hs Ha) as (Hn1 & Hn2 & [Hres Hver]);
    eapply mutate_attempt_ok; [done|exact Hs|exact Ha|done|done| |done] end.
  split; cbn; rewrite Hrun; [|done]. intros Hbad. exfalso. set_solver.
Qed.

Lemma on_verification_recorded_ok data r :
  on_verification_recorded ids plan data = Ok r → plan_ok r.2.
Proof.
  unfold on_verification_recorded. intros Hp. inv_plan. split_bool.
  match goal with H : ¬ (ma_state _ ≠ _) |- _ => apply dec_stable in H; rename H into Hrun end.
  match goal with Hs : mget _ _ = Some ?s, Ha : mget _ (ms_attempts ?s) = Some ?a |- _ =>
    destruct (plan_attempt _ _ _ _ _ _ Hshape Hok Hs Ha) as (Hn1 & Hn2 & [Hres Hver]);
    eapply mutate_attempt_ok; [done|exact Hs|exact Ha|done|done| |done] end.
  split; cbn; rewrite Hrun; [|done]. intros _. apply Hres. rewrite Hrun. set_solver.
Qed.
End Evidence.

(** ** Reachable plans *)

Section Reachable.
Context `{JsEngine} `{JsCrypto} `{RP : ReviewPlanContract}.

(** How an entry changes the plan: every plan handler in one statement. *)
Lemma apply_entry_plan sid st e st' (P : list string → MutablePlan → Prop) :
  apply_entry sid false st e = Ok st' →
  (∀ ids ids' p, ids ⊆ ids' → P ids p → P ids' p) →
  plan_opt (P (id_stableIds (ss_ids st))) (ss_plan st) →
  (∀ r, match en_data e with
        | plan_created d => on_plan_created (id_stableIds (ss_ids st)) (ss_plan st) d = Ok r
        | step_created d => on_step_created (id_stableIds (ss_ids st)) (ss_plan st) d = Ok r
        | attempt_created d => on_attempt_created (id_stableIds (ss_ids st)) (ss_plan st) d = Ok r
        | subagent_result_recorded d =>
            on_subagent_result_recorded (id_stableIds (ss_ids st)) (ss_plan st) d = Ok r
        | verification_recorded d =>
            on_verification_recorded (id_stableIds (ss_ids st)) (ss_plan st) d = Ok r
        | _ => False
        end → P r.1 r.2) →
  (∀ p, match en_data e with
        | plan_state_changed d => on_plan_state_changed (ss_plan st) d = Ok p
        | plan_revised d => on_plan_revised (ss_plan st) d = Ok p
        | step_state_changed d => on_step_state_changed (ss_plan st) d = Ok p
        | attempt_state_changed d => on_attempt_state_changed (ss_plan st) d = Ok p
        | attempt_execution_completed d => on_attempt_execution_completed (ss_plan st) d = Ok p
        | subagent_execution_bound d =>
            on_subagent_execution_bound (ss_plan st) (en_correlation e) d = Ok p
        | _ => False
        end → P (id_stableIds (ss_ids st)) p) →
  plan_opt (P (id_stableIds (ss_ids st'))) (ss_plan st').
Proof.
  intros He Hmono HP Hids Hplain. pose proof (apply_entry_stable _ _ _ _ He) as Hst.
  assert (∀ ids', id_stableIds (ss_ids st) ⊆ ids' → plan_opt (P ids') (ss_plan st)) as Hsame.
  { intros ids' Hs. destruct (ss_plan st); [|done]. by eapply Hmono. }
  entry_cases He e; cbn in *; try (by apply Hsame); try (by apply Hids); try (by apply Hplain).
  match goal with Hd : on_plan_decision_recorded _ _ = Ok _ |- _ =>
    apply on_plan_decision_recorded_same in Hd; rewrite Hd in HP; exact HP end.
Qed.

Lemma apply_entry_shape sid st e st' :
  apply_entry sid false st e = Ok st' →
  plan_opt (plan_shape (id_stableIds (ss_ids st))) (ss_plan st) →
  plan_opt (plan_shape (id_stableIds (ss_ids st'))) (ss_plan st').
Proof.
  intros He Hs. eapply apply_entry_plan; [done|by intros; eapply plan_shape_mono|done| |].
  - intros r Hr. destruct (en_data e); try done;
      first [by eapply on_plan_created_shape|by eapply on_step_created_shape
            |by eapply on_attempt_created_shape|by eapply on_subagent_result_recorded_shape
            |by eapply on_verification_recorded_shape].
  - intros p Hp. destruct (en_data e); try done;
      first [by eapply on_plan_state_changed_shape|by eapply on_plan_revised_shape
            |by eapply on_step_state_changed_shape|by eapply on_attempt_state_changed_shape
            |by eapply on_attempt_execution_completed_shape|by eapply on_subagent_execution_bound_shape].
Qed.

Lemma apply_entry_ok sid st e st' :
  apply_entry sid false st e = Ok st' → created_fresh e →
  plan_opt (plan_shape (id_stableIds (ss_ids st))) (ss_plan st) →
  plan_opt plan_ok (ss_plan st) → plan_opt plan_ok (ss_plan st').
Proof.
  intros He Hf Hs Hok. apply (apply_entry_plan sid st e st' (λ _, plan_ok)) in He; try done.
  - intros r Hr. unfold created_fresh in Hf. destruct (en_data e); try done;
      first [by eapply on_step_created_ok|by eapply on_attempt_created_ok
            |by eapply on_subagent_result_recorded_ok|by eapply on_verification_recorded_ok|idtac].
    unfold on_plan_created in Hr. inv_plan. intros k s Hin. cbn in Hin. by apply elem_of_nil in Hin.
  - intros p Hp. destruct (en_data e); try done;
      first [by eapply on_plan_revised_ok
            |by eapply on_step_state_changed_ok|by eapply on_attempt_state_changed_ok
            |by eapply on_attempt_execution_completed_ok|by eapply on_subagent_execution_bound_ok|idtac].
    revert Hok Hp. generalize (ss_plan st) as plan. intros plan Hok Hp.
    unfold on_plan_state_changed in Hp. inv_plan. exact Hok.
Qed.

Lemma reduce_shape es first data st :
  reduce_state es = Ok (first, data, st) →
  plan_opt (plan_shape (id_stableIds (ss_ids st))) (ss_plan st).
Proof.
  apply (session_ind (λ _ st, plan_opt (plan_shape (id_stableIds (ss_ids st))) (ss_plan st))); clear; [done|].
  intros es e st st' first data _ IH He.
  destruct (reduce_entry_Ok _ _ _ _ He) as (_ & _ & _ & st1 & Ha & ->).
  by apply apply_entry_shape in Ha.
Qed.

Lemma reduce_plan_ok es first data st :
  reduce_state es = Ok (first, data, st) → Forall created_fresh es → plan_opt plan_ok (ss_plan st).
Proof.
  intros Hst. revert Hst.
  apply (session_ind (λ es st, Forall created_fresh es → plan_opt plan_ok (ss_plan st))); clear; [done|].
  intros es e st st' first data Hst IH He [Hf Hfe]%Forall_app.
  destruct (reduce_entry_Ok _ _ _ _ He) as (_ & _ & _ & st1 & Ha & ->).
  apply (apply_entry_ok _ _ _ _ Ha); [by inversion Hfe|exact (reduce_shape _ _ _ _ Hst)|by apply IH].
Qed.

(** ** The projection *)

Lemma js_sort_reverse {A} (le : A → A → bool) l :
  StronglySorted (λ x y, le x y = false) l → js_sort le l = reverse l.
Proof.
  induction 1 as [|x l _ IH Hx]; [done|]. rewrite reverse_cons. cbn.
  change (foldr _ _ l) with (js_sort le l). rewrite IH.
  assert (Forall (λ y, le x y = false) (reverse l)) as Hr by (by apply Forall_reverse).
  clear -Hr. induction Hr as [|y k Hy _ IH]; cbn; [done|]. by rewrite Hy, IH.
Qed.

Lemma seqZ_sorted {A} (f : A → Z) l : f <$> l = seqZ 1 (Z.of_nat (length l)) →
  StronglySorted (λ x y, f x < f y) l.
Proof.
  generalize 1 as n. induction l as [|x l IH]; intros n Hl; [constructor|].
  rewrite seqZ_cons in Hl by (cbn; lia). rewrite fmap_cons in Hl. injection Hl as Hx Hl.
  cbn [length] in Hl. rewrite Nat2Z.inj_succ, Z.pred_succ in Hl.
  constructor; [by apply (IH _ Hl)|]. apply Forall_forall. intros y Hy%(list_elem_of_fmap_2 f).
  rewrite Hl in Hy. apply elem_of_seqZ in Hy. lia.
Qed.

Lemma StronglySorted_impl {A} (R S : A → A → Prop) l :
  (∀ x y, R x y → S x y) → StronglySorted R l → StronglySorted S l.
Proof.
  intros Hi. induction 1 as [|x l _ IH Hx]; constructor; [done|]. eapply Forall_impl; [exact Hx|auto].
Qed.

Lemma ordered_attempts_id ids k s : step_shape ids k s → ordered_attempts s = (ms_attempts s).*2.
Proof.
  intros Hs. apply js_sort_id. eapply StronglySorted_impl; [|apply seqZ_sorted].
  - cbn. intros x y Hxy. apply Z.leb_le. apply Z.lt_le_incl, Hxy.
  - rewrite length_fmap. apply (ssh_ordinals _ _ _ Hs).
Qed.

Lemma latestStepAttempt_last ids k s : step_shape ids k s → latestStepAttempt s = last (ms_attempts s).*2.
Proof.
  intros Hs. unfold latestStepAttempt. rewrite js_sort_reverse; [by rewrite <-head_reverse|].
  eapply StronglySorted_impl; [|apply (seqZ_sorted ma_ordinal)].
  - cbn. intros x y Hxy. apply Z.leb_gt, Hxy.
  - rewrite length_fmap. apply (ssh_ordinals _ _ _ Hs).
Qed.

Lemma project_present_Ok p g :
  project_present p = Ok g →
  gr_steps g = project_step <$> js_sort mutable_step_before (mp_steps p).*2 ∧
  ∃ pg, validatePlanGraphV1 (PlanGraph_js pg) = Ok pg ∧
    readyPlanStepIdsV1 (PlanGraph_js pg) = Ok (gr_readyStepIds g) ∧
    pg_steps pg = graph_step <$> js_sort mutable_step_before (mp_steps p).*2 ∧
    pg_planId pg = mp_planId p ∧ pg_revision pg = mp_revision p ∧ pg_objective pg = mp_objective p ∧
    pg_state pg = mp_state p ∧
    gr_planId g = mp_planId p ∧ gr_revision g = mp_revision p ∧ gr_objective g = mp_objective p ∧
    gr_state g = mp_state p.
Proof.
  unfold project_present, validateReducerPlanGraph. intros Hg. inv_ok.
  match goal with H : validatePlanGraphV1 (PlanGraph_js ?x) = Ok ?y |- _ =>
    pose proof (validatePlanGraphV1_decode _ _ H); subst y; split; [done|];
    exists x; split_and!; done end.
Qed.

Lemma projected_step es p g s :
  reduceSessionEntriesV3 es = Ok p → pj_planGraph p = Some g → s ∈ gr_steps g →
  ∃ first data st plan k ms, reduce_state es = Ok (first, data, st) ∧ ss_plan st = Some plan ∧
    plan_shape (id_stableIds (ss_ids st)) plan ∧ (k, ms) ∈ mp_steps plan ∧
    step_shape (id_stableIds (ss_ids st)) k ms ∧ s = project_step ms.
Proof.
  intros (first & data & st & Hst & Hp)%reduce_session_Ok Hg Hs.
  apply project_session_Ok in Hp as (_ & _ & _ & _ & _ & Hplan). rewrite Hg in Hplan.
  pose proof (reduce_shape _ _ _ _ Hst) as Hshape.
  unfold projectPlan in Hplan. destruct (ss_plan st) as [plan|] eqn:Ep; [|done]. cbn in Hshape.
  apply fmap_Ok in Hplan as (g' & Hg' & [= <-]). apply project_present_Ok in Hg' as [Hsteps _].
  rewrite Hsteps in Hs. apply list_elem_of_fmap in Hs as (ms & -> & Hms%js_sort_elem).
  apply list_elem_of_fmap in Hms as ([k ms'] & -> & Hin).
  exists first, data, st, plan, k, ms'. split_and!; try done. by eapply ps_steps.
Qed.

(** In the projected plan the attempts of every step carry the ordinals 1, 2,
    ... in order, under distinct identities that the step lists in that order,
    and never exceed the step's maximum. *)
Theorem projected_attempts_ordered es p g s :
  reduceSessionEntriesV3 es = Ok p → pj_planGraph p = Some g → s ∈ gr_steps g →
  ap_ordinal <$> sp_attempts s = seqZ 1 (Z.of_nat (length (sp_attempts s))) ∧
  sp_attemptIds s = ap_attemptId <$> sp_attempts s ∧ NoDup (sp_attemptIds s) ∧
  (sp_attempts s = [] ∨ Z.of_nat (length (sp_attempts s)) ≤ sp_maxAttempts s).
Proof.
  intros Hp Hg Hs. destruct (projected_step _ _ _ _ Hp Hg Hs) as (f & d & st & plan & k & ms & _ & _ & _ & _ & Hsh & ->).
  cbn. rewrite (ordered_attempts_id _ _ _ Hsh), <-!list_fmap_compose, !length_fmap.
  destruct Hsh as [H1 H2 H3 H4 H5]. split_and!.
  - rewrite <-H4, <-list_fmap_compose. done.
  - done.
  - replace (ma_attemptId ∘ snd <$> ms_attempts ms) with ((ms_attempts ms).*1); [done|].
    apply list_fmap_ext. intros i [ka a] Hi. cbn. symmetry. by apply (H3 ka a), list_elem_of_lookup_2 with i.
  - destruct H5 as [->|?]; [by left|by right].
Qed.

(** C17 A step of the projected plan that has succeeded has a verified attempt with
    a recorded result and with verifications that all passed, in every journal
    whose steps and attempts were created in their initial states. *)
Theorem success_has_evidence es p g s :
  reduceSessionEntriesV3 es = Ok p → Forall created_fresh es →
  pj_planGraph p = Some g → s ∈ gr_steps g → sp_state s = S_succeeded →
  ∃ a, a ∈ sp_attempts s ∧ ap_state a = A_verified ∧ is_Some (ap_resultRef a) ∧
    ap_verifications a ≠ [] ∧ Forall (λ v, ve_status v = V_passed) (ap_verifications a).
Proof.
  intros Hp Hf Hg Hs Hst.
  destruct (projected_step _ _ _ _ Hp Hg Hs) as (f & d & st & plan & k & ms & Hr & Hplan & _ & Hin & Hsh & ->).
  pose proof (reduce_plan_ok _ _ _ _ Hr Hf) as Hok. rewrite Hplan in Hok. cbn in *.
  destruct (Hok _ _ Hin) as [Hall Hsucc]. destruct (Hsucc Hst) as (ka & a & Ha & Hv).
  exists (project_attempt a). rewrite (ordered_attempts_id _ _ _ Hsh). split.
  - apply list_elem_of_fmap_2. by apply (list_elem_of_fmap_2 snd) in Ha.
  - destruct (Hall _ _ Ha) as [Hres Hver]. cbn. split; [done|]. split; [|by apply Hver].
    apply Hres. rewrite Hv. set_solver.
Qed.
End Reachable.

(** ** Evaluation at the sample journal *)

(** Some step of the projected plan passes the check. *)
Definition projected_check (es : list SessionEntryV3) (check : SessionStepProjectionV3 → bool) : bool :=
  match reduceSessionEntriesV3 es with
  | Ok p => match pj_planGraph p with Some g => existsb check (gr_steps g) | None => false end
  | Err _ => false
  end.

Lemma projected_check_true es check :
  projected_check es check = true →
  ∃ p g s, reduceSessionEntriesV3 es = Ok p ∧ pj_planGraph p = Some g ∧ s ∈ gr_steps g ∧ check s = true.
Proof.
  unfold projected_check. destruct (reduceSessionEntriesV3 es) as [p|]; [|done].
  destruct (pj_planGraph p) as [g|] eqn:Hg; [|done]. intros (s & Hs & Hc)%existsb_true.
  by exists p, g, s.
Qed.

Lemma sample_journal_fresh : Forall created_fresh sample_journal.
Proof. vm_compute. repeat constructor. Qed.

Lemma sample_journal_succeeded :
  projected_check sample_journal (λ s, bool_decide (sp_state s = S_succeeded)) = true.
Proof. vm_compute. reflexivity. Qed.

Lemma projected_attempts_ordered_witness : ∃ p g s, reduceSessionEntriesV3 sample_journal = Ok p ∧
  pj_planGraph p = Some g ∧ s ∈ gr_steps g ∧ NoDup (sp_attemptIds s).
Proof.
  destruct (projected_check_true _ _ sample_journal_succeeded) as (p & g & s & Hp & Hg & Hs & _).
  exists p, g, s. split; [exact Hp|]. split; [exact Hg|]. split; [exact Hs|].
  exact (proj1 (proj2 (proj2 (projected_attempts_ordered _ _ _ _ Hp Hg Hs)))).
Defined.

Lemma success_has_evidence_witness : ∃ p g s a, reduceSessionEntriesV3 sample_journal = Ok p ∧
  pj_planGraph p = Some g ∧ s ∈ gr_steps g ∧ a ∈ sp_attempts s ∧ ap_state a = A_verified.
Proof.
  destruct (projected_check_true _ _ sample_journal_succeeded) as (p & g & s & Hp & Hg & Hs & Hc).
  apply bool_decide_eq_true in Hc.
  destruct (success_has_evidence _ _ _ _ Hp sample_journal_fresh Hg Hs Hc) as (a & Ha & Hv & _).
  exists p, g, s, a. split_and!; assumption.
Defined.
