(* ===== verification/SessionLegal.v ===== *)
(** * Legal changes of the journaled plan

    Every entry changes the plan along the transition tables, and a plan that
    succeeds has only succeeded steps. *)

From S2P Require Import Prelude Js CanonicalJson Samples Plan PlanSpec Subagent Session SessionReducer SessionSamples SessionInv SessionLife SessionPlan.
Local Open Scope Z_scope.

(** ** One change *)

Record attempt_legal (a a' : MutableAttempt) : Prop := {
  al_id : ma_attemptId a' = ma_attemptId a;
  al_ordinal : ma_ordinal a' = ma_ordinal a;
  al_state : ma_state a' = ma_state a ∨ ma_state a' ∈ ATTEMPT_TRANSITIONS (ma_state a);
}.

(** Besides the table, a failed, blocked or interrupted step returns to
    [pending] when a new attempt is reserved for it. *)
Definition step_state_legal (from to : PlanStepStateV1) : Prop :=
  to = from ∨ to ∈ STEP_TRANSITIONS from ∨
  (to = S_pending ∧ from ∈ [S_failed; S_blocked; S_interrupted]).

Record step_legal (s s' : MutableStep) : Prop := {
  sl_state : step_state_legal (ms_state s) (ms_state s');
  sl_attempts : ∀ ka a, (ka, a) ∈ ms_attempts s →
    ∃ a', (ka, a') ∈ ms_attempts s' ∧ attempt_legal a a';
}.

Record plan_legal (p p' : MutablePlan) : Prop := {
  pl_state : mp_state p' = mp_state p ∨ mp_state p' ∈ PLAN_TRANSITIONS (mp_state p);
  pl_steps : ∀ k s, (k, s) ∈ mp_steps p → ∃ s', (k, s') ∈ mp_steps p' ∧ step_legal s s';
  pl_succeeded : mp_state p' = P_succeeded → mp_state p ≠ P_succeeded →
    ∀ k s, (k, s) ∈ mp_steps p' → ms_state s = S_succeeded;
}.

#[local] Instance attempt_legal_refl : Reflexive attempt_legal.
Proof. intros a. split; [done|done|by left]. Qed.
#[local] Instance step_legal_refl : Reflexive step_legal.
Proof. intros s. split; [by left|]. intros ka a Ha. by exists a. Qed.
#[local] Instance plan_legal_refl : Reflexive plan_legal.
Proof. intros p. split; [by left| |done]. intros k s Hs. by exists s. Qed.

Lemma step_transition_Ok from to o u :
  assertPlanStepTransitionV1 from to o = Ok u → step_state_legal from to.
Proof.
  unfold assertPlanStepTransitionV1, step_state_legal. intros Hu.
  destruct from, to; inv_ok; split_bool; try (right; left; done);
    right; right; (split; [done|]); set_solver.
Qed.

Lemma mutate_step_legal p k f s :
  NoDup ((mp_steps p).*1) → mget k (mp_steps p) = Some s → step_legal s (f s) →
  plan_legal p (mutate_step p k f).
Proof.
  intros Hnd Hg Hl. split; [by left| |done]. intros k' s' Hin. cbn.
  eexists. split; [by apply mupdate_elem; eexists|]. case_decide; [|done]. subst.
  apply mget_elem in Hin; [|done]. congruence.
Qed.

Lemma mutate_attempt_legal p k ka f s a :
  NoDup ((mp_steps p).*1) → NoDup ((ms_attempts s).*1) →
  mget k (mp_steps p) = Some s → mget ka (ms_attempts s) = Some a → attempt_legal a (f a) →
  plan_legal p (mutate_attempt p k ka f).
Proof.
  intros Hnp Hns Hs Ha Hl. apply (mutate_step_legal _ _ _ s); [done|done|]. split; [by left|].
  intros ka' a' Hin. cbn. eexists. split; [by apply mupdate_elem; eexists|]. case_decide; [|done]. subst.
  apply mget_elem in Hin; [|done]. congruence.
Qed.

(** ** The handlers *)

Lemma attempt_keys ids p k s :
  plan_shape ids p → mget k (mp_steps p) = Some s → NoDup ((ms_attempts s).*1).
Proof. intros Hshape Hs%mget_elem_inv. by eapply ssh_keys, Hshape. Qed.

Section Legal.
Context (ids : list string) (p p' : MutablePlan).
Hypothesis Hshape : plan_shape ids p.

Lemma on_plan_state_changed_legal data :
  on_plan_state_changed (Some p) data = Ok p' → plan_legal p p'.
Proof.
  unfold on_plan_state_changed. intros Hp. inv_plan.
  match goal with H : assertPlanStateTransitionV1 _ _ = _ |- _ =>
    unfold assertPlanStateTransitionV1 in H; apply fail_if_Ok in H; split_bool end.
  split; cbn.
  - by right.
  - intros k s Hs. by exists s.
  - intros Hst _ k s Hs. match goal with H : _ && _ = false |- _ => rewrite Hst, bool_decide_eq_true_2 in H by done;
      cbn in H; rewrite existsb_false, Forall_forall in H; specialize (H _ Hs); cbn in H end.
    split_bool. by apply dec_stable.
Qed.

Lemma on_step_created_legal r data :
  on_step_created ids (Some p) data = Ok r → plan_legal p r.2.
Proof.
  unfold on_step_created. intros Hr. inv_plan. cbn. split; cbn; [by left| |done].
  intros k s Hin. exists s. split; [|done]. apply mset_other_elem; [|done]. intros ->.
  match goal with H : negb (is_none _) = false |- _ => apply negb_false_iff, is_none_true, mget_None in H; apply H end.
  by apply (list_elem_of_fmap_2 fst) in Hin.
Qed.

Lemma on_step_state_changed_legal data :
  on_step_state_changed (Some p) data = Ok p' → plan_legal p p'.
Proof.
  unfold on_step_state_changed. intros Hp. inv_plan.
  match goal with H : assertPlanStepTransitionV1 _ _ _ = _ |- _ => apply step_transition_Ok in H end.
  eapply mutate_step_legal; [apply Hshape|done|]. split; cbn; [done|]. intros ka a Ha. by exists a.
Qed.

Lemma on_attempt_created_legal r data :
  on_attempt_created ids (Some p) data = Ok r → plan_legal p r.2.
Proof.
  unfold on_attempt_created. intros Hr. inv_plan. cbn in *.
  match goal with Hf : stable_id "attempt" _ ∉ ids |- _ => rename Hf into Hfresh end.
  eapply mutate_step_legal; [apply Hshape|done|]. split; cbn; [by left|]. intros ka a Ha.
  exists a. split; [|done]. apply mset_other_elem; [|done]. intros ->. apply Hfresh.
  eapply ssh_attempts; [|exact Ha]. eapply ps_steps; [done|]. by apply mget_elem_inv.
Qed.

Ltac attempt_change := eapply mutate_attempt_legal;
  [apply Hshape|by eapply (attempt_keys ids)|done|done|split; cbn; [done|done|]].

Lemma on_attempt_state_changed_legal data :
  on_attempt_state_changed (Some p) data = Ok p' → plan_legal p p'.
Proof.
  unfold on_attempt_state_changed. intros Hp. inv_plan.
  match goal with H : assertPlanAttemptTransitionV1 _ _ = _ |- _ => apply attempt_transition_Ok in H end.
  attempt_change. by right.
Qed.

Lemma on_attempt_execution_completed_legal data :
  on_attempt_execution_completed (Some p) data = Ok p' → plan_legal p p'.
Proof.
  unfold on_attempt_execution_completed. intros Hp. inv_plan.
  match goal with H : assertPlanAttemptTransitionV1 _ _ = _ |- _ => apply attempt_transition_Ok in H end.
  attempt_change. by right.
Qed.

Lemma on_subagent_execution_bound_legal corr data :
  on_subagent_execution_bound (Some p) corr data = Ok p' → plan_legal p p'.
Proof. unfold on_subagent_execution_bound. intros Hp. inv_plan. attempt_change. by left. Qed.

Lemma on_subagent_result_recorded_legal r data :
  on_subagent_result_recorded ids (Some p) data = Ok r → plan_legal p r.2.
Proof. unfold on_subagent_result_recorded. intros Hr. inv_plan. attempt_change. by left. Qed.

Lemma on_verification_recorded_legal r data :
  on_verification_recorded ids (Some p) data = Ok r → plan_legal p r.2.
Proof. unfold on_verification_recorded. intros Hr. inv_plan. attempt_change. by left. Qed.
End Legal.

Section LegalEntries.
Context `{JsEngine} `{JsCrypto} `{RP : ReviewPlanContract}.

(** An entry either changes the current plan legally or starts another plan or
    another revision. *)
Lemma apply_entry_legal sid st e st' p p' :
  apply_entry sid false st e = Ok st' →
  plan_shape (id_stableIds (ss_ids st)) p → ss_plan st = Some p → ss_plan st' = Some p' →
  mp_planId p' = mp_planId p → mp_revision p' = mp_revision p → plan_legal p p'.
Proof.
  intros He Hs Hp Hp' Hid Hrev.
  entry_cases He e; cbn in *; rewrite ?Hp in *; simplify_eq; try reflexivity;
    try (first [by eapply on_plan_state_changed_legal|by eapply on_step_created_legal
         |by eapply on_step_state_changed_legal|by eapply on_attempt_created_legal
         |by eapply on_attempt_state_changed_legal|by eapply on_attempt_execution_completed_legal
         |by eapply on_subagent_execution_bound_legal|by eapply on_subagent_result_recorded_legal
         |by eapply on_verification_recorded_legal]).
  - unfold on_plan_created in *. inv_plan. cbn in *. exfalso.
    pose proof (ps_plan _ _ Hs). congruence.
  - match goal with Hd : on_plan_decision_recorded _ _ = Ok _ |- _ =>
      apply on_plan_decision_recorded_same in Hd; injection Hd as <- end. reflexivity.
  - unfold on_plan_revised in *. inv_plan. cbn in *. split_bool. lia.
Qed.

(** C29 Between two consecutive states of a journal, one revision of a plan changes
    only along the transition tables: the plan, every step and every attempt keep
    their state or make a step of their table (a failed, blocked or interrupted
    step may return to pending), nothing is lost, and a plan becomes succeeded
    only when all its steps have succeeded. *)
Theorem plan_transitions_legal es e f d st st' p p' :
  reduce_state es = Ok (f, d, st) → reduce_state (es ++ [e]) = Ok (f, d, st') →
  ss_plan st = Some p → ss_plan st' = Some p' →
  mp_planId p' = mp_planId p → mp_revision p' = mp_revision p → plan_legal p p'.
Proof.
  intros Hst Hst' Hp Hp' Hid Hrev. pose proof (reduce_shape _ _ _ _ Hst) as Hs. rewrite Hp in Hs.
  apply reduce_state_Ok in Hst as (rest & -> & _ & _ & _ & _ & Hrest).
  apply reduce_state_Ok in Hst' as (rest' & Heq & _ & _ & _ & _ & Hrest').
  injection Heq as <-. rewrite reduce_entries_app, Hrest in Hrest'. cbn in Hrest'.
  apply bind_Ok in Hrest' as (st1 & He & [= ->]).
  destruct (reduce_entry_Ok _ _ _ _ He) as (_ & _ & _ & st2 & Ha & ->).
  by eapply (apply_entry_legal _ _ _ _ p p' Ha).
Qed.
End LegalEntries.

(** ** Evaluation at the sample journal *)

(** The two states around the last entry, with the current plan in both. *)
Definition around_check (es : list SessionEntryV3) (e : SessionEntryV3) : bool :=
  match reduce_state es, reduce_state (es ++ [e]) with
  | Ok (_, _, st), Ok (_, _, st') =>
      match ss_plan st, ss_plan st' with
      | Some p, Some p' =>
          bool_decide (mp_planId p' = mp_planId p) && (mp_revision p' =? mp_revision p)
      | _, _ => false
      end
  | _, _ => false
  end.

Lemma around_check_true es e :
  around_check es e = true →
  ∃ f d st st' p p', reduce_state es = Ok (f, d, st) ∧ reduce_state (es ++ [e]) = Ok (f, d, st') ∧
    ss_plan st = Some p ∧ ss_plan st' = Some p' ∧ mp_planId p' = mp_planId p ∧
    mp_revision p' = mp_revision p.
Proof.
  unfold around_check. destruct (reduce_state es) as [[[f d] st]|] eqn:H1; [|done].
  destruct (reduce_state (es ++ [e])) as [[[f' d'] st']|] eqn:H2; [|done].
  destruct (ss_plan st) as [p|] eqn:Hp; [|done]. destruct (ss_plan st') as [p'|] eqn:Hp'; [|done].
  intros [Hid%bool_decide_eq_true Hrev%Z.eqb_eq]%andb_true_iff.
  pose proof H1 as (rest & -> & _ & Hd & _)%reduce_state_Ok.
  pose proof H2 as (rest' & Heq & _ & Hd' & _)%reduce_state_Ok. injection Heq as <- _.
  assert (d' = d) as -> by congruence. by exists f, d, st, st', p, p'.
Qed.

Lemma plan_transitions_legal_witness : ∃ p p', mp_planId p' = mp_planId p ∧ plan_legal p p'.
Proof.
  assert (around_check
    (sample_entries (sample_opening ++ [sample_attempt_new "a" "a1" "child-1" 1]))
    (sample_entry_at 9 (sample_step_to "a" S_running)) = true) as Hc by (vm_compute; reflexivity).
  apply around_check_true in Hc as (f & d & st & st' & p & p' & H1 & H2 & Hp & Hp' & Hid & Hrev).
  exists p, p'. split; [exact Hid|].
  exact (plan_transitions_legal _ _ _ _ _ _ _ _ H1 H2 Hp Hp' Hid Hrev).
Defined.
