(* ===== verification/SessionReady.v ===== *)
(** * The plan of a projection

    What [reduceSessionEntriesV3] guarantees about the plan it projects: the
    steps have distinct identities, their dependencies are steps and have no
    cycle, and the ready steps are those that may start. *)

From S2P Require Import Prelude Js CanonicalJson Graph Samples Plan PlanSpec Subagent Session SessionReducer SessionSamples SessionInv SessionLife SessionPlan.
Local Open Scope Z_scope.

(** Step [s] of a projection may start. *)
Definition step_startable (g : SessionPlanGraphProjectionV3) (s : SessionStepProjectionV3) : Prop :=
  gr_state g = P_running ∧ sp_state s = S_pending ∧
  Z.of_nat (length (sp_attempts s)) < sp_maxAttempts s ∧
  ∀ d, d ∈ sp_dependencies s → ∃ t, t ∈ gr_steps g ∧ sp_stepId t = d ∧ sp_state t = S_succeeded.

Definition projection_requires (g : SessionPlanGraphProjectionV3) : relation string :=
  λ a b, ∃ s, s ∈ gr_steps g ∧ sp_stepId s = b ∧ a ∈ sp_dependencies s.

Record projected_wf (g : SessionPlanGraphProjectionV3) : Prop := {
  pw_size : 1 ≤ Z.of_nat (length (gr_steps g)) ≤ MAX_STEPS;
  pw_ids : NoDup (sp_stepId <$> gr_steps g);
  pw_orders : NoDup (sp_order <$> gr_steps g);
  pw_budgets : ∀ s, s ∈ gr_steps g → 0 ≤ eb_maxTurns (sp_budget s) ∧ 0 ≤ eb_maxToolCalls (sp_budget s) ∧
    0 ≤ default 0 (eb_maxTokens (sp_budget s));
  pw_known : ∀ s d, s ∈ gr_steps g → d ∈ sp_dependencies s → d ∈ sp_stepId <$> gr_steps g;
  pw_acyclic : acyclic (projection_requires g);
  pw_ready : ∀ s, s ∈ gr_steps g → sp_stepId s ∈ gr_readyStepIds g ↔ step_startable g s;
}.

Section Projected.
Context `{JsEngine}.

Lemma validatePlanStepV1_tokens v s :
  validatePlanStepV1 v = Ok s → 0 ≤ default 0 (eb_maxTokens (st_budget s)).
Proof.
  unfold validatePlanStepV1. intros Hs. repeat open_plan_step. subst s. cbn [st_budget].
  match goal with H : validateBudget _ = Ok ?b |- _ => revert H; clear; generalize b end.
  intros b. unfold validateBudget. open_plan; cbn; lia.
Qed.

Lemma validatePlanGraphV1_tokens v g :
  validatePlanGraphV1 v = Ok g → Forall (λ s, 0 ≤ default 0 (eb_maxTokens (st_budget s))) (pg_steps g).
Proof.
  unfold validatePlanGraphV1. intros Hg. repeat open_plan_step. subst g. cbn [pg_steps].
  match goal with H : mapM validatePlanStepV1 _ = Ok _ |- _ => apply mapM_Ok in H; rename H into Hm end.
  apply Forall_forall. intros s Hs. destruct (Forall2_r_elem _ _ _ _ Hm Hs) as (v' & _ & Hv).
  by eapply validatePlanStepV1_tokens.
Qed.

(** The search for cycles sees every step. *)
Lemma assertPlanDependencies_Ok steps u :
  assertPlanDependencies steps = Ok u → NoDup (ms_stepId <$> steps) →
  (∀ s d, s ∈ steps → d ∈ ms_dependencies s → d ∈ ms_stepId <$> steps) ∧
  acyclic (λ a b, ∃ s, s ∈ steps ∧ ms_stepId s = b ∧ a ∈ ms_dependencies s).
Proof.
  unfold assertPlanDependencies. intros Ha Hnd.
  assert (((λ step, (ms_stepId step, step)) <$> steps).*1 = ms_stepId <$> steps) as Hk
    by by rewrite <-list_fmap_compose.
  assert (∀ s, s ∈ steps → mget (ms_stepId s) (mof ((λ step, (ms_stepId step, step)) <$> steps)) = Some s) as Hget.
  { intros s Hs. rewrite mof_NoDup by by rewrite Hk. apply mget_elem; [by rewrite Hk|].
    apply list_elem_of_fmap. by exists s. }
  assert (∀ k s, mget k (mof ((λ step, (ms_stepId step, step)) <$> steps)) = Some s →
    s ∈ steps ∧ ms_stepId s = k) as Hinv.
  { intros k s Hs. rewrite mof_NoDup in Hs by by rewrite Hk. apply mget_elem_inv in Hs.
    apply list_elem_of_fmap in Hs as (? & [= -> ->] & ?). done. }
  destruct (visit_from _ _ _ _ _) as [[vd|]|] eqn:Hv; [|done..]. apply visit_from_Ok in Hv.
  destruct Hv as [Htopo Hvd _ _ Hkeys Hdeps].
  assert (∀ s d, s ∈ steps → d ∈ ms_dependencies s →
    depends (λ stepId, ms_dependencies <$> mget stepId (mof ((λ step, (ms_stepId step, step)) <$> steps))) d (ms_stepId s)) as Hdep.
  { intros s d Hs Hd. exists (ms_dependencies s). by rewrite (Hget s Hs). }
  split.
  - intros s d Hs Hd. assert (d ∈ vd) as Hin.
    { eapply topo_closed; [exact Htopo|by apply Hdep|]. apply Hkeys. by apply list_elem_of_fmap_2. }
    apply Hdeps in Hin as [ds Hds]. destruct (mget d _) as [t|] eqn:Ht; [|done].
    apply Hinv in Ht as [Ht <-]. by apply list_elem_of_fmap_2.
  - apply (topo_acyclic _ vd); [|done|].
    + clear -Htopo Hdep. induction vd as [|b vd IH]; cbn in *; [done|]. destruct Htopo as [Hb Ht].
      split; [|by apply IH]. intros a (s & Hs & <- & Ha). by apply Hb, Hdep.
    + intros a b (s & Hs & <- & _). apply Hkeys. by apply list_elem_of_fmap_2.
Qed.

Lemma project_present_dependencies p g :
  project_present p = Ok g → assertPlanDependencies (js_sort mutable_step_before (mp_steps p).*2) = Ok tt.
Proof. unfold project_present. intros Hg. by apply bind_Ok in Hg as ([] & Hd & _). Qed.

Lemma graph_step_attempts ms : length (st_attemptIds (graph_step ms)) = length (sp_attempts (project_step ms)).
Proof. cbn. by rewrite !length_fmap. Qed.

Lemma project_present_wf p g : project_present p = Ok g → projected_wf g.
Proof.
  intros Hg. pose proof (project_present_dependencies _ _ Hg) as Hdeps.
  destruct (project_present_Ok _ _ Hg) as (Hsteps & pg & Hpg & Hready & Hpsteps & _ & _ & _ & Hst & _ & _ & _ & Hgst).
  set (ms := js_sort mutable_step_before (mp_steps p).*2) in *.
  pose proof (validatePlanGraphV1_wf _ _ Hpg) as Hwf.
  pose proof (validatePlanGraphV1_tokens _ _ Hpg) as Htok. rewrite Hpsteps, Forall_fmap in Htok.
  pose proof (gw_steps _ Hwf) as Hswf. rewrite Hpsteps, Forall_fmap, Forall_forall in Hswf.
  assert (sp_stepId <$> gr_steps g = st_stepId <$> pg_steps pg) as Hids.
  { by rewrite Hsteps, Hpsteps, <-!list_fmap_compose. }
  assert (sp_stepId <$> gr_steps g = ms_stepId <$> ms) as Hmids by by rewrite Hsteps, <-list_fmap_compose.
  assert (NoDup (sp_stepId <$> gr_steps g)) as Hnd by (rewrite Hids; apply Hwf).
  destruct (assertPlanDependencies_Ok _ _ Hdeps) as [Hknown Hac]; [by rewrite <-Hmids|].
  split.
  - rewrite Hsteps, length_fmap, <-(length_fmap graph_step), <-Hpsteps. apply Hwf.
  - done.
  - replace (sp_order <$> gr_steps g) with (st_order <$> pg_steps pg); [apply Hwf|].
    by rewrite Hsteps, Hpsteps, <-!list_fmap_compose.
  - rewrite Hsteps. intros s (m & -> & Hm)%list_elem_of_fmap. rewrite Forall_forall in Htok.
    destruct (Hswf m Hm) as [_ _ _ _ _ (_ & _ & _ & ? & ?)]. split_and!; [done|done|by apply Htok].
  - rewrite Hmids, Hsteps. intros s d (m & -> & Hm)%list_elem_of_fmap Hd. by eapply Hknown.
  - eapply acyclic_proper; [|exact Hac]. intros a b. unfold projection_requires. rewrite Hsteps.
    setoid_rewrite list_elem_of_fmap. split.
    + intros (s & (m & -> & Hm) & <- & Ha). by exists m.
    + intros (m & Hm & <- & Ha). exists (project_step m). split_and!; [by exists m|done|done].
  - intros s Hs. destruct (readyPlanStepIdsV1_ok _ _ _ Hpg Hready) as (ss & -> & Hin & _).
    rewrite Hsteps in Hs. apply list_elem_of_fmap in Hs as (m & -> & Hm). split.
    + intros (t & Ht & Htss)%list_elem_of_fmap. apply Hin in Htss as (Hrun & Hts & Hmay).
      assert (t = graph_step m) as ->.
      { eapply (NoDup_fmap_elem st_stepId); [apply Hwf|done| |by rewrite <-Ht].
        rewrite Hpsteps. by apply list_elem_of_fmap_2. }
      destruct Hmay as (Hp & Hlen & Hd). rewrite graph_step_attempts in Hlen.
      split_and!; [congruence|done|done|]. intros d Hdin. destruct (Hd d Hdin) as (t & Htin & <- & Htst).
      rewrite Hpsteps in Htin. apply list_elem_of_fmap in Htin as (mt & -> & Hmt).
      exists (project_step mt). split_and!; [|done|done]. rewrite Hsteps. by apply list_elem_of_fmap_2.
    + intros (Hrun & Hp & Hlen & Hd). change (sp_stepId (project_step m)) with (st_stepId (graph_step m)).
      apply list_elem_of_fmap_2, Hin. split_and!; [congruence|rewrite Hpsteps; by apply list_elem_of_fmap_2|].
      split_and!; [done|by rewrite graph_step_attempts|]. intros d Hdin.
      destruct (Hd d Hdin) as (t & Htin & <- & Htst). rewrite Hsteps in Htin.
      apply list_elem_of_fmap in Htin as (mt & -> & Hmt). exists (graph_step mt).
      split_and!; [|done|done]. rewrite Hpsteps. by apply list_elem_of_fmap_2.
Qed.
End Projected.

Section Reduced.
Context `{JsEngine} `{JsCrypto} `{RP : ReviewPlanContract}.

(** The projection of a journal and the state it comes from. *)
Lemma reduced_plan es p g :
  reduceSessionEntriesV3 es = Ok p → pj_planGraph p = Some g →
  ∃ first data st plan, reduce_state es = Ok (first, data, st) ∧ ss_plan st = Some plan ∧
    project_present plan = Ok g ∧ pj_snapshot p = project_snapshot first data st.
Proof.
  intros (first & data & st & Hst & Hp)%reduce_session_Ok Hg.
  apply project_session_Ok in Hp as (Hsn & _ & _ & _ & _ & Hplan). rewrite Hg in Hplan.
  unfold projectPlan in Hplan. destruct (ss_plan st) as [plan|] eqn:Ep; [|done].
  apply fmap_Ok in Hplan as (g' & Hg' & [= <-]). by exists first, data, st, plan.
Qed.

Lemma reduced_projected_wf es p g :
  reduceSessionEntriesV3 es = Ok p → pj_planGraph p = Some g → projected_wf g.
Proof.
  intros Hp Hg. destruct (reduced_plan _ _ _ Hp Hg) as (_ & _ & _ & plan & _ & _ & Hpl & _).
  by eapply project_present_wf.
Qed.

(** The runs of a projection have distinct identities. *)
Lemma reduced_run_ids es p :
  reduceSessionEntriesV3 es = Ok p → NoDup (rn_runId <$> sn_runs (pj_snapshot p)).
Proof.
  intros (first & data & st & Hst & Hp)%reduce_session_Ok.
  apply project_session_Ok in Hp as (-> & _). by apply runs_wf_ids, (reduce_runs_wf _ _ _ _ Hst).
Qed.

(** C32 The projected plan is well formed in every journal the reducer accepts:
    1 to 64 steps with distinct identities and orders, dependencies that are
    steps and have no cycle, and as ready steps exactly the pending ones with
    attempts left and all dependencies succeeded, while the plan runs. *)
Theorem projected_plan_wf es p g :
  reduceSessionEntriesV3 es = Ok p → pj_planGraph p = Some g → projected_wf g.
Proof. apply reduced_projected_wf. Qed.
End Reduced.

Lemma projected_plan_wf_witness : ∃ p g, reduceSessionEntriesV3 sample_journal = Ok p ∧
  pj_planGraph p = Some g ∧ projected_wf g.
Proof.
  destruct (projected_check_true _ _ sample_journal_succeeded) as (p & g & s & Hp & Hg & _).
  exists p, g. split; [exact Hp|]. split; [exact Hg|]. exact (projected_plan_wf _ _ _ Hp Hg).
Defined.
