(* ===== verification/PlanValidator.v ===== *)
(** * Admission of plan proposals: apps/runtime/src/planner/planValidator.ts

    The parser of the model-owned proposal surface, the admission of its
    authority against the runtime's grants, the assignment of durable identities
    and the initial journal payloads. *)

From S2P Require Import Prelude Js Graph Plan Session.
Local Open Scope Z_scope.

Definition MAX_PROPOSAL_BYTES : Z := 256 * 1024.

(** [SAFE_KEY = /^[A-Za-z0-9][A-Za-z0-9._:@+-]{0,127}$/]. *)
Definition SAFE_KEY : string → bool := ident "._:@+-".
Definition safeKey (v : jsval) : bool := match v with JStr s => SAFE_KEY s | _ => false end.

(** ** Data *)

(** The kind of a proposed criterion is compared as [String(kind)], so any value
    with that text passes. *)
Record PlanCriterionProposalV1 := {
  cp_kind : jsval;
  cp_description : string;
  cp_ref : option string;
  cp_expectedDigest : option string;
}.

Record PlanStepBudgetProposalV1 := {
  bp_maxTurns : option Z;
  bp_maxToolCalls : option Z;
  bp_maxTokens : option Z;
  bp_deadlineAt : option string;
}.
Definition no_budget : PlanStepBudgetProposalV1 :=
  {| bp_maxTurns := None; bp_maxToolCalls := None; bp_maxTokens := None; bp_deadlineAt := None |}.

Record ParsedStep := {
  ps_key : string;
  ps_title : string;
  ps_order : Z;
  ps_dependencies : list string;
  ps_access : PlanStepAccessV1;
  ps_capabilities : list string;
  ps_conflictKeys : list string;
  ps_criteria : list PlanCriterionProposalV1;
  ps_budget : PlanStepBudgetProposalV1;
  ps_maxAttempts : Z;
}.

Record ParsedProposal := {
  pp_execution : jsval;
  pp_objective : string;
  pp_steps : list ParsedStep;
}.

Inductive PlanRuntimeIdKindV1 := id_plan | id_step | id_criterion.

Record PlanValidatorOptions := {
  po_parentBudget : ExecutionBudget;
  po_defaultStepBudget : PlanStepBudgetProposalV1;
  po_accessGrant : PlanStepAccessV1;
  po_allowedCapabilities : list string;
  po_allowedCriterionKinds : list string;
}.

(** ** Portable paths *)

Definition INVALID_WIN32_CHARACTERS : list nat := [60; 62; 58; 34; 124; 63; 42]%nat.

(** The pieces between the occurrences of a character: [s.split(c)]. *)
Fixpoint split_on (c : ascii) (s : string) : list string :=
  match s with
  | EmptyString => [""%string]
  | String a s =>
      if decide (a = c) then ""%string :: split_on c s
      else match split_on c s with
           | part :: parts => String a part :: parts
           | [] => [String a EmptyString]
           end
  end.

Definition upper (a : ascii) : ascii :=
  if is_lower a then ascii_of_nat (nat_of_ascii a - 32) else a.
Fixpoint to_upper (s : string) : string :=
  match s with EmptyString => EmptyString | String a s => String (upper a) (to_upper s) end.

(** [RESERVED_WIN32_BASENAME], with the case-insensitive flag. *)
Definition RESERVED_WIN32_BASENAME (s : string) : bool :=
  let u := to_upper s in
  memb u ["CON"; "PRN"; "AUX"; "NUL"; "CLOCK$"; "CONIN$"; "CONOUT$"]%string
  || existsb (λ d, memb u [String.append "COM" d; String.append "LPT" d])
       ["1"; "2"; "3"; "4"; "5"; "6"; "7"; "8"; "9"]%string.

Definition last_char (s : string) : option ascii := last (String.list_ascii_of_string s).

(** The body of the [every] over path components. *)
Definition portable_component (component : string) : bool :=
  negb (bool_decide (component = ""%string) || bool_decide (component = "."%string)
        || bool_decide (component = ".."%string)
        || bool_decide (last_char component = Some "."%char)
        || bool_decide (last_char component = Some " "%char))
  && string_forallb (λ a, negb (Nat.leb (nat_of_ascii a) 31)
       && negb (bool_decide (nat_of_ascii a ∈ INVALID_WIN32_CHARACTERS))) component
  && negb (RESERVED_WIN32_BASENAME (default ""%string (head (split_on "." component)))).

Definition isPortablePlanPathV1 (path : string) : bool :=
  if bool_decide (path = "."%string) then true
  else if bool_decide (path = ""%string) || String.prefix "/" path
          || negb (string_forallb (λ a, negb (bool_decide (nat_of_ascii a = 92%nat))) path)
  then false
  else forallb portable_component (split_on "/" path).

Definition isPlanPathWithinGrantV1 (path grant : string) : bool :=
  bool_decide (grant = "."%string) || bool_decide (path = grant)
  || String.prefix (String.append grant "/") path.

(** ** Parsers *)

Definition exactRecord (v : jsval) (required optional : list string) : res jsobj :=
  exact_record "PLAN_PROPOSAL_INVALID" required optional v.

Definition unique (values : list string) (code : string) : res unit :=
  fail_if (negb (nodupb values)) code.

(** [v ?? d]. *)
Definition coalesce (v d : jsval) : jsval := match v with JUndef | JNull => d | _ => v end.

Definition keyList (input : jsval) (maximum : Z) : res (list string) :=
  fail_if (negb (is_arr input) || (maximum <? Z.of_nat (length (js_arr input)))
           || negb (forallb safeKey (js_arr input))) "PLAN_PROPOSAL_INVALID";;
  unique (js_str <$> js_arr input) "PLAN_PROPOSAL_INVALID";;
  Ok (js_str <$> js_arr input).

Definition stringList (input : jsval) (maximum : Z) (safeKeys : bool) : res (list string) :=
  fail_if (negb (is_arr input) || (maximum <? Z.of_nat (length (js_arr input)))
           || negb (forallb (λ value, if safeKeys then safeKey value
                                      else boundedText value MAX_REFERENCE_BYTES) (js_arr input)))
    "PLAN_PROPOSAL_INVALID";;
  unique (js_str <$> js_arr input) "PLAN_PROPOSAL_INVALID";;
  Ok (js_str <$> js_arr input).

Definition parsePath (path : jsval) : res string :=
  fail_if (negb (is_string path) || negb (isPortablePlanPathV1 (js_str path)))
    "PLAN_PROPOSAL_ACCESS_INVALID";;
  Ok (js_str path).

Definition parseAccess (input : jsval) : res PlanStepAccessV1 :=
  access ← exactRecord input ["mode"; "paths"]%string [];
  fail_if (negb (is_enum (A:=PlanAccessModeV1) (access .: "mode"))) "PLAN_PROPOSAL_ACCESS_INVALID";;
  fail_if (negb (is_arr (access .: "paths"))
           || (MAX_PATHS <? Z.of_nat (length (js_arr (access .: "paths")))))
    "PLAN_PROPOSAL_ACCESS_INVALID";;
  paths ← mapM parsePath (js_arr (access .: "paths"));
  unique paths "PLAN_PROPOSAL_ACCESS_INVALID";;
  Ok {| ac_mode := enum_cast read_only (access .: "mode"); ac_paths := paths |}.

Section Parse.
Context `{JsEngine}.

Definition parseStepBudget (input : jsval) : res PlanStepBudgetProposalV1 :=
  budget ← exactRecord input [] ["maxTurns"; "maxToolCalls"; "maxTokens"; "deadlineAt"]%string;
  fail_if (opt_rejected (budget .: "maxTurns") nonNegativeInteger
           || opt_rejected (budget .: "maxToolCalls") nonNegativeInteger) "PLAN_PROPOSAL_BUDGET_INVALID";;
  fail_if (opt_rejected (budget .: "maxTokens") positiveInteger) "PLAN_PROPOSAL_BUDGET_INVALID";;
  fail_if (opt_rejected (budget .: "deadlineAt") canonicalInstant) "PLAN_PROPOSAL_BUDGET_INVALID";;
  Ok {| bp_maxTurns := opt js_int (budget .: "maxTurns");
        bp_maxToolCalls := opt js_int (budget .: "maxToolCalls");
        bp_maxTokens := opt js_int (budget .: "maxTokens");
        bp_deadlineAt := opt js_str (budget .: "deadlineAt") |}.

Definition CRITERION_KIND_NAMES : list string :=
  ["schema"; "file"; "digest"; "command"; "check"; "rule"; "semantic"]%string.

Definition parseCriterion (input : jsval) : res PlanCriterionProposalV1 :=
  criterion ← exactRecord input ["kind"; "description"]%string ["ref"; "expectedDigest"]%string;
  fail_if (negb (memb (js_String (criterion .: "kind")) CRITERION_KIND_NAMES)
           || negb (boundedText (criterion .: "description") MAX_TEXT_BYTES)
           || opt_rejected (criterion .: "ref") (λ v, boundedText v MAX_REFERENCE_BYTES)
           || opt_rejected (criterion .: "expectedDigest") digest) "PLAN_PROPOSAL_INVALID";;
  Ok {| cp_kind := criterion .: "kind"; cp_description := js_str (criterion .: "description");
        cp_ref := opt js_str (criterion .: "ref");
        cp_expectedDigest := opt js_str (criterion .: "expectedDigest") |}.

Definition parseStep (input : jsval) (order : Z) : res ParsedStep :=
  step ← exactRecord input ["key"; "title"; "criteria"]%string
    ["dependencies"; "access"; "capabilities"; "conflictKeys"; "budget"; "maxAttempts"]%string;
  fail_if (negb (safeKey (step .: "key")) || negb (boundedText (step .: "title") MAX_TEXT_BYTES)
           || negb (is_arr (step .: "criteria"))
           || (Z.of_nat (length (js_arr (step .: "criteria"))) <? 1)
           || (MAX_CRITERIA <? Z.of_nat (length (js_arr (step .: "criteria"))))
           || opt_rejected (step .: "maxAttempts") (λ v, positiveInteger v && (js_int v <=? 16)))
    "PLAN_PROPOSAL_INVALID";;
  dependencies ← keyList (coalesce (step .: "dependencies") (JArr [])) MAX_DEPENDENCIES;
  access ← (if is_undef (step .: "access") then Ok {| ac_mode := read_only; ac_paths := [] |}
            else parseAccess (step .: "access"));
  capabilities ← stringList (coalesce (step .: "capabilities") (JArr [])) MAX_CAPABILITIES true;
  conflictKeys ← stringList (coalesce (step .: "conflictKeys") (JArr [])) MAX_CONFLICT_KEYS false;
  criteria ← mapM parseCriterion (js_arr (step .: "criteria"));
  budget ← (if is_undef (step .: "budget") then Ok no_budget else parseStepBudget (step .: "budget"));
  Ok {| ps_key := js_str (step .: "key"); ps_title := js_str (step .: "title"); ps_order := order;
        ps_dependencies := dependencies; ps_access := access; ps_capabilities := capabilities;
        ps_conflictKeys := conflictKeys; ps_criteria := criteria; ps_budget := budget;
        ps_maxAttempts := default 1 (opt js_int (step .: "maxAttempts")) |}.

(** [proposal.steps.map((candidate, index) => parseStep(candidate, index))]. *)
Fixpoint parseSteps (candidates : list jsval) (index : Z) : res (list ParsedStep) :=
  match candidates with
  | [] => Ok []
  | candidate :: candidates =>
      step ← parseStep candidate index;
      steps ← parseSteps candidates (index + 1);
      Ok (step :: steps)
  end.

(** The loop over the dependencies of all steps, in order. *)
Fixpoint check_dependencies (byKey : list string) (key : string) (dependencies : list string) : res unit :=
  match dependencies with
  | [] => Ok ()
  | dependency :: dependencies =>
      fail_if (bool_decide (dependency = key)) "PLAN_PROPOSAL_SELF_DEPENDENCY";;
      fail_if (negb (memb dependency byKey)) "PLAN_PROPOSAL_DEPENDENCY_MISSING";;
      check_dependencies byKey key dependencies
  end.

(** [dependencies.get(key) ?? []]. *)
Definition step_dependencies (steps : list ParsedStep) (key : string) : list string :=
  default [] (mget key (mof ((λ step, (ps_key step, ps_dependencies step)) <$> steps))).

(** The depth-first search from every step in turn. *)
Definition assertAcyclic (steps : list ParsedStep) : res unit :=
  match visit_from (λ key, Some (step_dependencies steps key)) "PLAN_PROPOSAL_CYCLE" ""
          (S (length steps)) (ps_key <$> steps) with
  | Some (Ok _) => Ok ()
  | Some (Err code) => Err code
  | None => Err "OUT_OF_FUEL"
  end.

Definition parseProposal (input : jsval) : res ParsedProposal :=
  fail_if (jsonBytes_over input MAX_PROPOSAL_BYTES) "PLAN_PROPOSAL_OVERSIZED";;
  proposal ← exactRecord input ["objective"; "steps"]%string ["execution"]%string;
  let execution := coalesce (proposal .: "execution") (JStr "dag") in
  let count := Z.of_nat (length (js_arr (proposal .: "steps"))) in
  fail_if (negb (memb (js_String execution) ["parent_only"; "dag"]%string)
           || negb (boundedText (proposal .: "objective") MAX_TEXT_BYTES)
           || negb (is_arr (proposal .: "steps"))
           || (is_str execution "dag" && (count <? 1))
           || (is_str execution "parent_only" && negb (count =? 0))
           || (MAX_STEPS <? count)) "PLAN_PROPOSAL_INVALID";;
  steps ← parseSteps (js_arr (proposal .: "steps")) 0;
  unique (ps_key <$> steps) "PLAN_PROPOSAL_DUPLICATE_KEY";;
  mapM (λ step, check_dependencies (ps_key <$> steps) (ps_key step) (ps_dependencies step)) steps;;
  assertAcyclic steps;;
  Ok {| pp_execution := execution; pp_objective := js_str (proposal .: "objective"); pp_steps := steps |}.
End Parse.

(** ** Bounds of a proposal's shape *)

Definition boundedPositiveInteger (value : jsval) (maximum : Z) : res Z :=
  if is_undef value then Ok maximum
  else
    fail_if (negb (positiveInteger value) || (maximum <? js_int value)) "PLAN_PROPOSAL_BOUNDS_INVALID";;
    Ok (js_int value).
Definition boundedNonNegativeInteger (value : jsval) (maximum : Z) : res Z :=
  if is_undef value then Ok maximum
  else
    fail_if (negb (nonNegativeInteger value) || (maximum <? js_int value))
      "PLAN_PROPOSAL_BOUNDS_INVALID";;
    Ok (js_int value).

(** The parsed proposal itself; the copy that the code returns leaves out [order]. *)
Definition validateFixedPlanProposalV1 `{JsEngine} (input maxSteps maxDependencies : jsval) :
    res ParsedProposal :=
  parsed ← parseProposal input;
  maxSteps ← boundedPositiveInteger maxSteps MAX_STEPS;
  maxDependencies ← boundedNonNegativeInteger maxDependencies MAX_DEPENDENCIES;
  fail_if ((maxSteps <? Z.of_nat (length (pp_steps parsed)))
           || (maxDependencies <? reduce_sum (λ step, Z.of_nat (length (ps_dependencies step)))
                 (pp_steps parsed))) "PLAN_PROPOSAL_INVALID";;
  Ok parsed.

(** ** Admission against the grants *)

Definition authority (mode : PlanAccessModeV1) : Z :=
  match mode with read_only => 0 | isolated_process => 1 | workspace_write => 2 end.

Definition admitAccess (requested grant : PlanStepAccessV1) : res PlanStepAccessV1 :=
  fail_if (authority (ac_mode grant) <? authority (ac_mode requested)) "PLAN_PROPOSAL_ACCESS_DENIED";;
  fail_if (existsb (λ path, negb (existsb (isPlanPathWithinGrantV1 path) (ac_paths grant)))
    (ac_paths requested)) "PLAN_PROPOSAL_ACCESS_DENIED";;
  Ok requested.

Definition admitCapabilities (requested allowed : list string) : res (list string) :=
  fail_if (existsb (λ capability, negb (memb capability allowed)) requested)
    "PLAN_PROPOSAL_CAPABILITY_DENIED";;
  Ok requested.

Definition admitCriteria (criteria : list PlanCriterionProposalV1) (allowed : list string) :
    res (list PlanCriterionProposalV1) :=
  fail_if (existsb (λ criterion, negb (existsb (is_str (cp_kind criterion)) allowed)) criteria)
    "PLAN_PROPOSAL_CRITERION_DENIED";;
  Ok criteria.

(** [a ?? b] on optional values. *)
Definition or_value {A} (a b : option A) : option A := match a with Some _ => a | None => b end.

Definition admitBudget (requested defaults : PlanStepBudgetProposalV1) (parent : ExecutionBudget) :
    res ExecutionBudget :=
  let maxTurns := default 0 (or_value (bp_maxTurns requested) (bp_maxTurns defaults)) in
  let maxToolCalls := default 0 (or_value (bp_maxToolCalls requested) (bp_maxToolCalls defaults)) in
  let maxTokens := or_value (bp_maxTokens requested) (bp_maxTokens defaults) in
  let deadlineAt := or_value (or_value (bp_deadlineAt requested) (bp_deadlineAt defaults))
                      (eb_deadlineAt parent) in
  fail_if ((eb_maxTurns parent <? maxTurns) || (eb_maxToolCalls parent <? maxToolCalls)
           || match maxTokens with
              | None => false
              | Some n => match eb_maxTokens parent with None => true | Some m => m <? n end
              end
           || match deadlineAt, eb_deadlineAt parent with
              | Some d, Some limit => string_ltb limit d
              | _, _ => false
              end) "PLAN_PROPOSAL_BUDGET_EXCEEDED";;
  Ok {| eb_maxTurns := maxTurns; eb_maxToolCalls := maxToolCalls; eb_maxTokens := maxTokens;
        eb_maxChildRuns := 0; eb_maxParallelChildren := 0; eb_maxDepth := 0;
        eb_deadlineAt := deadlineAt |}.

Section Admission.
Context `{JsEngine}.

Definition validateParentBudget (input : jsval) : res ExecutionBudget :=
  budget ← exactRecord input
    ["maxTurns"; "maxToolCalls"; "maxChildRuns"; "maxParallelChildren"; "maxDepth"]%string
    ["maxTokens"; "deadlineAt"]%string;
  fail_if (existsb (λ field, negb (nonNegativeInteger (get budget field)))
    ["maxTurns"; "maxToolCalls"; "maxChildRuns"; "maxParallelChildren"; "maxDepth"]%string)
    "PLAN_VALIDATOR_OPTIONS_INVALID";;
  fail_if (opt_rejected (budget .: "maxTokens") positiveInteger
           || opt_rejected (budget .: "deadlineAt") canonicalInstant) "PLAN_VALIDATOR_OPTIONS_INVALID";;
  Ok {| eb_maxTurns := js_int (budget .: "maxTurns"); eb_maxToolCalls := js_int (budget .: "maxToolCalls");
        eb_maxTokens := opt js_int (budget .: "maxTokens");
        eb_maxChildRuns := js_int (budget .: "maxChildRuns");
        eb_maxParallelChildren := js_int (budget .: "maxParallelChildren");
        eb_maxDepth := js_int (budget .: "maxDepth");
        eb_deadlineAt := opt js_str (budget .: "deadlineAt") |}.

Definition parseAllowedCriterionKinds (input : jsval) : res (list string) :=
  if is_undef input then Ok CRITERION_KIND_NAMES
  else
    let kinds := js_arr input in
    fail_if (negb (is_arr input) || (Z.of_nat (length kinds) <? 1)
             || (Z.of_nat (length CRITERION_KIND_NAMES) <? Z.of_nat (length kinds))
             || existsb (λ kind, negb (is_string kind) || negb (memb (js_str kind) CRITERION_KIND_NAMES))
                  kinds) "PLAN_VALIDATOR_OPTIONS_INVALID";;
    unique (js_str <$> kinds) "PLAN_VALIDATOR_OPTIONS_INVALID";;
    Ok (js_str <$> kinds).

Definition validateOptions (input : jsval) : res PlanValidatorOptions :=
  match input with
  | JObj _ =>
      value ← exactRecord input
        ["parentBudget"; "defaultStepBudget"; "accessGrant"; "allowedCapabilities"]%string
        ["allowedCriterionKinds"; "createId"]%string;
      fail_if (negb (is_undef (value .: "createId"))
               && match value .: "createId" with JFun => false | _ => true end)
        "PLAN_VALIDATOR_OPTIONS_INVALID";;
      parentBudget ← validateParentBudget (value .: "parentBudget");
      defaultStepBudget ← parseStepBudget (value .: "defaultStepBudget");
      accessGrant ← parseAccess (value .: "accessGrant");
      allowedCapabilities ← stringList (value .: "allowedCapabilities") MAX_CAPABILITIES true;
      allowedCriterionKinds ← parseAllowedCriterionKinds (value .: "allowedCriterionKinds");
      admitBudget defaultStepBudget no_budget parentBudget;;
      Ok {| po_parentBudget := parentBudget; po_defaultStepBudget := defaultStepBudget;
            po_accessGrant := accessGrant; po_allowedCapabilities := allowedCapabilities;
            po_allowedCriterionKinds := allowedCriterionKinds |}
  | _ => Err "PLAN_VALIDATOR_OPTIONS_INVALID"
  end.

(** ** The validator: options and the identity source are its fields *)

Section Validator.
Context (options : PlanValidatorOptions) (createId : PlanRuntimeIdKindV1 → string → string).

Definition admitCriterion (key : string) (index : nat) (criterion : PlanCriterionProposalV1) :
    PlanSuccessCriterionV1 :=
  {| sc_criterionId := createId id_criterion
       (String.append key (String.append ":" (js_String (JInt (Z.of_nat index + 1)))));
     sc_kind := enum_cast K_schema (cp_kind criterion);
     sc_description := cp_description criterion; sc_ref := cp_ref criterion;
     sc_expectedDigest := cp_expectedDigest criterion |}.

(** The step literal of the graph. *)
Definition admitStep (stepIds : list (string * string)) (step : ParsedStep) : res PlanStepV1 :=
  access ← admitAccess (ps_access step) (po_accessGrant options);
  capabilities ← admitCapabilities (ps_capabilities step) (po_allowedCapabilities options);
  criteria ← admitCriteria (ps_criteria step) (po_allowedCriterionKinds options);
  budget ← admitBudget (ps_budget step) (po_defaultStepBudget options) (po_parentBudget options);
  Ok {| st_stepId := default ""%string (mget (ps_key step) stepIds); st_title := ps_title step;
        st_order := ps_order step; st_state := S_pending;
        st_dependencies := (λ d, default ""%string (mget d stepIds)) <$> ps_dependencies step;
        st_access := access; st_capabilities := capabilities;
        st_conflictKeys := ps_conflictKeys step;
        st_criteria := imap (admitCriterion (ps_key step)) criteria;
        st_budget := budget; st_maxAttempts := ps_maxAttempts step; st_attemptIds := [] |}.

Definition validate (input : jsval) : res PlanGraphV1 :=
  proposal ← parseProposal input;
  let admittedAttempts := reduce_sum ps_maxAttempts (pp_steps proposal) in
  fail_if (eb_maxChildRuns (po_parentBudget options) <? admittedAttempts)
    "PLAN_PROPOSAL_CHILD_BUDGET_EXCEEDED";;
  let stepIds := mof ((λ step, (ps_key step, createId id_step (ps_key step))) <$> pp_steps proposal) in
  steps ← mapM (admitStep stepIds) (pp_steps proposal);
  validatePlanGraphV1 (PlanGraph_js
    {| pg_planId := createId id_plan "root"; pg_revision := 1; pg_objective := pp_objective proposal;
       pg_state := P_draft; pg_steps := steps; pg_attempts := [] |}).
End Validator.
End Admission.

(** ** The initial journal payloads *)

Inductive InitialPlanJournalPayloadV3 :=
| plan_created (data : PlanCreatedData)
| step_created (data : StepCreatedData).

Definition step_created_payload (graph : PlanGraphV1) (step : PlanStepV1) : StepCreatedData :=
  {| sd_planId := pg_planId graph; sd_planRevision := pg_revision graph; sd_stepId := st_stepId step;
     sd_title := st_title step; sd_order := st_order step; sd_state := st_state step;
     sd_dependencies := st_dependencies step; sd_access := st_access step;
     sd_capabilities := st_capabilities step; sd_conflictKeys := st_conflictKeys step;
     sd_criteria := st_criteria step; sd_budget := st_budget step;
     sd_maxAttempts := st_maxAttempts step |}.

Definition initialPlanJournalPayloadsV3 `{JsEngine} (input : jsval) :
    res (list InitialPlanJournalPayloadV3) :=
  graph ← validatePlanGraphV1 input;
  fail_if (negb (pg_revision graph =? 1) || bool_decide (pg_state graph ≠ P_draft)
           || negb (Nat.eqb (length (pg_attempts graph)) 0)
           || existsb (λ step, bool_decide (st_state step ≠ S_pending)
                || negb (Nat.eqb (length (st_attemptIds step)) 0)) (pg_steps graph))
    "PLAN_INITIAL_JOURNAL_STATE_INVALID";;
  Ok (plan_created {| pc_planId := pg_planId graph; pc_planRevision := pg_revision graph;
                      pc_objective := pg_objective graph; pc_state := pg_state graph |}
      :: ((λ step, step_created (step_created_payload graph step)) <$> pg_steps graph)).
