(* ===== verification/PlanAdmission.v ===== *)
(** * What admission of a plan proposal guarantees

    Properties of apps/runtime/src/planner/planValidator.ts: path containment,
    termination and correctness of the cycle check, the bounds that every
    admitted graph keeps to, and the initial journal. *)

From S2P Require Import Prelude Js JsOps Graph Samples Plan PlanSpec Session PlanValidator.
Local Open Scope Z_scope.

(** ** Paths *)

Lemma append_assoc (a b c : string) : (a +:+ b) +:+ c = a +:+ (b +:+ c).
Proof. induction a as [|x a IH]; [done|]. exact (f_equal (String x) IH). Qed.

Lemma append_cons a (s t : string) : String a s +:+ t = String a (s +:+ t).
Proof. done. Qed.
Lemma append_nil (t : string) : "" +:+ t = t.
Proof. done. Qed.

Lemma prefix_iff s t : String.prefix s t = true ↔ ∃ r, t = s +:+ r.
Proof.
  revert t. induction s as [|a s IH]; intros t; [split; [intros _; by exists t|by destruct t]|].
  destruct t as [|b t]; [split; [done|by intros [? ?]]|].
  assert (String.prefix (String a s) (String b t) = if ascii_dec a b then String.prefix s t else false)
    as -> by done.
  change (∃ r, String b t = String a s +:+ r) with (∃ r, String b t = String a (s +:+ r)).
  destruct (ascii_dec a b) as [->|Hne].
  - rewrite IH. split; intros [r Hr]; exists r; congruence.
  - split; [done|]. intros [r [= ? ?]]. congruence.
Qed.

Lemma split_on_not_nil c s : split_on c s ≠ [].
Proof. destruct s as [|a s]; cbn; [done|]. case_decide; [done|]. by destruct (split_on c s). Qed.

Lemma split_on_app c s t :
  split_on c (String.append s (String c t)) = split_on c s ++ split_on c t.
Proof.
  induction s as [|a s IH]; [rewrite append_nil; cbn; by rewrite decide_True|].
  rewrite append_cons. cbn. rewrite IH. case_decide; [done|].
  destruct (split_on c s) eqn:Hs; [by destruct (split_on_not_nil c s)|done].
Qed.

Definition slash : ascii := "/"%char.

Lemma split_on_join s : join "/" (split_on slash s) = s.
Proof.
  induction s as [|a s IH]; cbn; [done|]. case_decide as Ha.
  - subst a. destruct (split_on slash s) as [|x l] eqn:Hs; [by destruct (split_on_not_nil slash s)|].
    change (join "/" ("" :: x :: l)) with ("" +:+ "/" +:+ join "/" (x :: l)).
    by rewrite IH, append_nil.
  - destruct (split_on slash s) as [|x [|y l]] eqn:Hs; [by destruct (split_on_not_nil slash s)|..].
    + cbn in *. by subst.
    + change (join "/" (String a x :: y :: l)) with (String a x +:+ "/" +:+ join "/" (y :: l)).
      change (join "/" (x :: y :: l)) with (x +:+ "/" +:+ join "/" (y :: l)) in IH.
      rewrite append_cons. by rewrite IH.
Qed.

Lemma join_app l k :
  l ≠ [] → k ≠ [] → join "/" (l ++ k) = join "/" l +:+ "/" +:+ join "/" k.
Proof.
  intros Hl Hk. induction l as [|x l IH]; [done|]. destruct l as [|y l].
  - destruct k as [|z k]; [done|]. done.
  - change ((x :: y :: l) ++ k) with (x :: y :: (l ++ k)).
    change (join "/" (x :: y :: l ++ k)) with (x +:+ "/" +:+ join "/" ((y :: l) ++ k)).
    rewrite IH by done. change (join "/" (x :: y :: l)) with (x +:+ "/" +:+ join "/" (y :: l)).
    by rewrite !append_assoc.
Qed.

(** The components of a path. *)
Definition components (path : string) : list string := split_on slash path.

Lemma components_inj p q : components p = components q → p = q.
Proof. intros Heq. by rewrite <-(split_on_join p), <-(split_on_join q); unfold components in Heq; rewrite Heq. Qed.

Lemma within_grant_components path grant :
  path = grant ∨ String.prefix (grant +:+ "/") path = true ↔ components grant `prefix_of` components path.
Proof.
  split.
  - intros [->|[r ->]%prefix_iff]; [done|]. rewrite append_assoc. unfold components.
    change ("/" +:+ r) with (String slash r). rewrite split_on_app. by apply prefix_app_r.
  - intros [k Hk]. destruct k as [|x k]; [left; apply components_inj; by rewrite Hk, app_nil_r|].
    right. apply prefix_iff. exists (join "/" (x :: k)).
    rewrite <-(split_on_join path). fold (components path). rewrite Hk, join_app; [|apply split_on_not_nil|done].
    unfold components. by rewrite split_on_join, append_assoc.
Qed.

Lemma within_grant_iff path grant :
  isPlanPathWithinGrantV1 path grant = true ↔
  grant = "."%string ∨ components grant `prefix_of` components path.
Proof.
  unfold isPlanPathWithinGrantV1. rewrite !orb_true_iff, !bool_decide_eq_true, <-within_grant_components.
  tauto.
Qed.

(** A component that cannot name the current or a parent directory. *)
Definition plain_component (c : string) : Prop := c ≠ ""%string ∧ c ≠ "."%string ∧ c ≠ ".."%string.

Lemma portable_components path :
  isPortablePlanPathV1 path = true → path = "."%string ∨ Forall plain_component (components path).
Proof.
  unfold isPortablePlanPathV1. case_bool_decide as Hdot; [by left|].
  destruct (_ || _ || _); [done|]. intros Hall%forallb_true. right.
  eapply Forall_impl; [exact Hall|]. cbn. intros c Hc. unfold portable_component in Hc.
  split_bool. by split_and!.
Qed.

(** ** The cycle check *)

Definition requires (steps : list ParsedStep) : relation string :=
  λ a b, ∃ s, s ∈ steps ∧ ps_key s = b ∧ a ∈ ps_dependencies s.

Definition keys_known (steps : list ParsedStep) : Prop :=
  ∀ s d, s ∈ steps → d ∈ ps_dependencies s → d ∈ ps_key <$> steps.

Lemma step_dependencies_Some steps s :
  NoDup (ps_key <$> steps) → s ∈ steps → step_dependencies steps (ps_key s) = ps_dependencies s.
Proof.
  intros Hnd Hs. unfold step_dependencies.
  rewrite mof_NoDup by by rewrite <-list_fmap_compose.
  rewrite (mget_elem _ (ps_dependencies s)); [done|by rewrite <-list_fmap_compose|].
  apply list_elem_of_fmap. by exists s.
Qed.

Lemma step_dependencies_elem steps k d :
  NoDup (ps_key <$> steps) → d ∈ step_dependencies steps k ↔ requires steps d k.
Proof.
  intros Hnd. split.
  - unfold step_dependencies. intros Hd.
    rewrite mof_NoDup in Hd by by rewrite <-list_fmap_compose.
    destruct (mget k _) as [ds|] eqn:Hk; cbn in Hd; [|by apply elem_of_nil in Hd].
    apply mget_elem_inv, list_elem_of_fmap in Hk as (s & [= -> ->] & Hs). by exists s.
  - intros (s & Hs & <- & Hd). by rewrite step_dependencies_Some.
Qed.

Lemma assertAcyclic_plan_spec steps :
  NoDup (ps_key <$> steps) → keys_known steps →
  (acyclic (requires steps) → assertAcyclic steps = Ok ()) ∧
  (¬ acyclic (requires steps) → assertAcyclic steps = Err "PLAN_PROPOSAL_CYCLE").
Proof.
  intros Hnd Hk. set (deps key := Some (step_dependencies steps key)).
  assert (acyclic (depends deps) ↔ acyclic (requires steps)) as Hac.
  { apply acyclic_proper. intros a b. rewrite <-(step_dependencies_elem steps b a Hnd).
    unfold depends, deps. naive_solver. }
  destruct (visit_from_spec deps "PLAN_PROPOSAL_CYCLE" "" (ps_key <$> steps)) as [Hok Herr].
  - intros k _. by eexists.
  - intros k ds d [= <-] Hd. apply step_dependencies_elem in Hd as (s & Hs & <- & Hd); [|done].
    split; [by apply list_elem_of_fmap_2|by eapply Hk].
  - unfold assertAcyclic. rewrite length_fmap in *. rewrite Hac in *. split.
    + intros H. destruct (Hok H) as [vd Hvd]. unfold deps in Hvd. by rewrite Hvd.
    + intros H. specialize (Herr H). unfold deps in Herr. by rewrite Herr.
Qed.

(** ** Parsed proposals *)

Lemma check_dependencies_Ok byKey key ds u :
  check_dependencies byKey key ds = Ok u ↔ key ∉ ds ∧ ∀ d, d ∈ ds → d ∈ byKey.
Proof.
  destruct u. induction ds as [|d ds IH]; cbn.
  - split; [|done]. intros _. split; [apply not_elem_of_nil|]. by intros d ?%elem_of_nil.
  - split.
    + intros Hc. inv_ok. split_bool.
      match goal with H : check_dependencies _ _ _ = _ |- _ => apply IH in H as [H1 H2] end.
      rewrite memb_true in *.
      split; [set_solver|]. intros e [->|?]%elem_of_cons; auto.
    + intros [Hn Hall]. rewrite bool_decide_eq_false_2 by set_solver. cbn.
      rewrite (proj2 (memb_true d byKey)) by (apply Hall; left). cbn. apply IH.
      split; [set_solver|]. intros e He. apply Hall. by right.
Qed.

(** What parsing establishes about the steps of a proposal. *)
Record proposal_wf (p : ParsedProposal) : Prop := {
  pr_keys : NoDup (ps_key <$> pp_steps p);
  pr_known : keys_known (pp_steps p);
  pr_acyclic : acyclic (requires (pp_steps p));
  pr_attempts : Forall (λ s, 1 ≤ ps_maxAttempts s ≤ 16) (pp_steps p);
  pr_paths : Forall (λ s, Forall (λ q, isPortablePlanPathV1 q = true) (ac_paths (ps_access s))) (pp_steps p);
  pr_order : ∀ i s, pp_steps p !! i = Some s → ps_order s = Z.of_nat i;
}.

Lemma parseAccess_paths v a : parseAccess v = Ok a → Forall (λ q, isPortablePlanPathV1 q = true) (ac_paths a).
Proof.
  unfold parseAccess, exactRecord. intros Ha. inv_ok. cbn.
  match goal with H : mapM parsePath _ = Ok _ |- _ => apply mapM_Ok in H; rename H into Hp end.
  clear -Hp. revert Hp. generalize (js_arr (x .: "paths")) as vs. intros vs Hp.
  induction Hp as [|v1 y l k Hx _ IH]; constructor; [|done].
  unfold parsePath in Hx. inv_ok. by split_bool.
Qed.

Section Parsed.
Context `{JsEngine}.

Lemma parseStep_Ok v i s : parseStep v i = Ok s →
  (1 ≤ ps_maxAttempts s ≤ 16) ∧ ps_order s = i ∧
  Forall (λ q, isPortablePlanPathV1 q = true) (ac_paths (ps_access s)).
Proof.
  unfold parseStep, exactRecord. intros Hs. inv_ok. cbn. split; [|split].
  - split_bool. unfold opt_rejected in *.
    match goal with H : negb (is_undef (x .: "maxAttempts")) && _ = false |- _ => rename H into Hm end.
    destruct (x .: "maxAttempts") as [| | |n| | | |]; cbn -[positiveInteger] in *; try lia;
      try discriminate Hm. split_bool.
    match goal with H : positiveInteger _ = true |- _ => apply positiveInteger_inv in H as (z & [= ->] & ?) end.
    cbn in *. lia.
  - done.
  - destruct (is_undef (x .: "access")); inv_ok; cbn; [constructor|].
    repeat inv_ok_step. by eapply parseAccess_paths.
Qed.

Lemma parseSteps_Ok vs i steps : parseSteps vs i = Ok steps →
  length steps = length vs ∧
  ∀ j s, steps !! j = Some s → ∃ v, vs !! j = Some v ∧ parseStep v (i + Z.of_nat j) = Ok s.
Proof.
  revert i steps. induction vs as [|v vs IH]; intros i steps; cbn.
  - intros [= <-]. split; [done|]. intros j s. by rewrite lookup_nil.
  - intros Hs. inv_ok. match goal with H : parseSteps _ _ = Ok _ |- _ => destruct (IH _ _ H) as [Hl Hj] end.
    split; [cbn; by f_equal|]. intros [|j] s; cbn.
    + intros [= <-]. exists v. split; [done|]. by rewrite Z.add_0_r.
    + intros Hs. destruct (Hj j s Hs) as (w & ? & Hw). exists w. split; [done|].
      rewrite <-Hw. f_equal. lia.
Qed.

Lemma parseSteps_elem vs i steps s :
  parseSteps vs i = Ok steps → s ∈ steps → ∃ v j, parseStep v j = Ok s.
Proof.
  intros Hs [j Hj]%list_elem_of_lookup. apply parseSteps_Ok in Hs as [_ Hs].
  destruct (Hs j s Hj) as (v & _ & ?). by eexists _, _.
Qed.

Lemma parseProposal_wf v p : parseProposal v = Ok p → proposal_wf p.
Proof.
  unfold parseProposal, exactRecord. intros Hp. inv_ok. unfold unique in *. inv_ok. split_bool.
  match goal with H : parseSteps _ _ = Ok ?l |- _ => rename H into Hsteps; rename l into steps end.
  match goal with H : nodupb _ = true |- _ => apply nodupb_true in H as Hnd end.
  match goal with H : mapM _ steps = Ok _ |- _ => apply mapM_Ok in H as Hdeps end.
  assert (keys_known steps) as Hknown.
  { intros s d Hs Hd. apply (Forall2_l_elem _ _ _ _ Hdeps) in Hs as (u & _ & Hc).
    apply check_dependencies_Ok in Hc as [_ Hc]. by apply Hc. }
  destruct (assertAcyclic_plan_spec steps Hnd Hknown) as [_ Herr].
  split; cbn; try done.
  - intros k Hk. match goal with H : assertAcyclic steps = Ok _ |- _ => rename H into Hok end.
    rewrite Herr in Hok; [done|]. intros Hac. by apply (Hac k).
  - apply Forall_forall. intros s Hs. destruct (parseSteps_elem _ _ _ _ Hsteps Hs) as (w & j & Hw).
    by apply parseStep_Ok in Hw as (? & _).
  - apply Forall_forall. intros s Hs. destruct (parseSteps_elem _ _ _ _ Hsteps Hs) as (w & j & Hw).
    by apply parseStep_Ok in Hw as (_ & _ & ?).
  - intros i s Hs. apply parseSteps_Ok in Hsteps as [_ Hsteps].
    destruct (Hsteps i s Hs) as (w & _ & Hw). by apply parseStep_Ok in Hw as (_ & -> & _).
Qed.
End Parsed.

(** ** The grants *)

(** What a step may hold under the options. *)
Record step_within (o : PlanValidatorOptions) (s : PlanStepV1) : Prop := {
  wi_mode : authority (ac_mode (st_access s)) ≤ authority (ac_mode (po_accessGrant o));
  wi_paths : ∀ q, q ∈ ac_paths (st_access s) →
    ∃ grant, grant ∈ ac_paths (po_accessGrant o) ∧
      (grant = "."%string ∨ components grant `prefix_of` components q);
  wi_portable : ∀ q, q ∈ ac_paths (st_access s) → q = "."%string ∨ Forall plain_component (components q);
  wi_capabilities : ∀ c, c ∈ st_capabilities s → c ∈ po_allowedCapabilities o;
  wi_criteria : ∀ c, c ∈ st_criteria s → enum_name (sc_kind c) ∈ po_allowedCriterionKinds o;
  wi_turns : eb_maxTurns (st_budget s) ≤ eb_maxTurns (po_parentBudget o);
  wi_toolCalls : eb_maxToolCalls (st_budget s) ≤ eb_maxToolCalls (po_parentBudget o);
  wi_tokens : ∀ n, eb_maxTokens (st_budget s) = Some n →
    ∃ m, eb_maxTokens (po_parentBudget o) = Some m ∧ n ≤ m;
  wi_deadline : ∀ limit, eb_deadlineAt (po_parentBudget o) = Some limit →
    ∃ d, eb_deadlineAt (st_budget s) = Some d ∧ string_ltb limit d = false;
}.

Definition kinds_known (o : PlanValidatorOptions) : Prop :=
  ∀ k, k ∈ po_allowedCriterionKinds o → is_enum (A:=PlanCriterionKindV1) (JStr k) = true.

Lemma admitAccess_Ok r g a : admitAccess r g = Ok a → a = r ∧
  authority (ac_mode r) ≤ authority (ac_mode g) ∧
  ∀ q, q ∈ ac_paths r → ∃ grant, grant ∈ ac_paths g ∧ isPlanPathWithinGrantV1 q grant = true.
Proof.
  unfold admitAccess. intros Ha. inv_ok. split_and!; [done|lia|].
  intros q Hq. rewrite existsb_false, Forall_forall in H0. specialize (H0 q Hq).
  split_bool. by apply existsb_true in H0.
Qed.

Lemma admitBudget_Ok r d p b : admitBudget r d p = Ok b →
  eb_maxTurns b ≤ eb_maxTurns p ∧ eb_maxToolCalls b ≤ eb_maxToolCalls p ∧
  (∀ n, eb_maxTokens b = Some n → ∃ m, eb_maxTokens p = Some m ∧ n ≤ m) ∧
  (∀ limit, eb_deadlineAt p = Some limit → ∃ t, eb_deadlineAt b = Some t ∧ string_ltb limit t = false).
Proof.
  unfold admitBudget. intros Hb. inv_ok. split_bool. cbn. split_and!; [lia|lia|..].
  - intros n Hn. rewrite Hn in *. destruct (eb_maxTokens p) as [m|]; [|done]. exists m. split; [done|lia].
  - intros limit Hl. rewrite Hl in *. destruct (or_value _ (bp_deadlineAt d)) as [t|]; cbn in *.
    + by exists t.
    + exists limit. split; [done|]. done.
Qed.

Section Admits.
Context `{JsEngine} (options : PlanValidatorOptions).
Context (createId : PlanRuntimeIdKindV1 → string → string).

Lemma admitStep_within stepIds p s :
  kinds_known options → Forall (λ q, isPortablePlanPathV1 q = true) (ac_paths (ps_access p)) →
  admitStep options createId stepIds p = Ok s →
  step_within options s ∧ st_state s = S_pending ∧ st_attemptIds s = [] ∧
  st_maxAttempts s = ps_maxAttempts p ∧ st_order s = ps_order p ∧
  st_stepId s = default ""%string (mget (ps_key p) stepIds) ∧
  st_dependencies s = (λ d, default ""%string (mget d stepIds)) <$> ps_dependencies p.
Proof.
  intros Hkinds Hport. unfold admitStep, admitCapabilities, admitCriteria. intros Hs. inv_ok.
  match goal with H : admitAccess _ _ = _ |- _ => apply admitAccess_Ok in H as (-> & Hmode & Hpaths) end.
  match goal with H : admitBudget _ _ _ = _ |- _ => apply admitBudget_Ok in H as (Hb1 & Hb2 & Hb3 & Hb4) end.
  repeat match goal with H : existsb _ _ = false |- _ => rewrite existsb_false, Forall_forall in H end.
  split; [|done]. rewrite Forall_forall in Hport. split; cbn; try done.
  - intros q Hq. destruct (Hpaths q Hq) as (grant & Hg & Hin). exists grant. split; [done|].
    by apply within_grant_iff.
  - intros q Hq. by apply portable_components, Hport.
  - intros c Hc. match goal with H : ∀ x, x ∈ ps_capabilities p → _ |- _ => specialize (H c Hc) end.
    by split_bool; apply memb_true.
  - intros c Hc. apply list_elem_of_lookup in Hc as [i Hi].
    rewrite list_lookup_imap in Hi. apply fmap_Some in Hi as (pc & Hpc & ->). cbn.
    apply list_elem_of_lookup_2 in Hpc.
    match goal with H : ∀ x, x ∈ ps_criteria p → _ |- _ =>
      specialize (H pc Hpc); apply negb_false_iff, existsb_true in H as (k & Hk & Heq) end. apply is_str_inv in Heq.
    rewrite Heq. specialize (Hkinds k Hk). apply is_enum_inv in Hkinds as (kd & Hkd).
    rewrite Hkd, enum_cast_name. by injection Hkd as <-.
Qed.

Definition admitted_id (key : string) : string := createId id_step key.
Definition proposal_ids (p : ParsedProposal) : list (string * string) :=
  mof ((λ step, (ps_key step, admitted_id (ps_key step))) <$> pp_steps p).

Lemma proposal_ids_get p k :
  NoDup (ps_key <$> pp_steps p) → k ∈ ps_key <$> pp_steps p →
  mget k (proposal_ids p) = Some (admitted_id k).
Proof.
  intros Hnd Hk. unfold proposal_ids. rewrite mof_NoDup by by rewrite <-list_fmap_compose.
  apply mget_elem; [by rewrite <-list_fmap_compose|].
  apply list_elem_of_fmap in Hk as (s & -> & Hs). apply list_elem_of_fmap. by exists s.
Qed.

(** The admitted step [s] comes from the parsed step [q]. *)
Definition admits (q : ParsedStep) (s : PlanStepV1) : Prop :=
  step_within options s ∧ st_state s = S_pending ∧ st_attemptIds s = [] ∧
  st_maxAttempts s = ps_maxAttempts q ∧ st_order s = ps_order q ∧
  st_stepId s = admitted_id (ps_key q) ∧ st_dependencies s = admitted_id <$> ps_dependencies q.

Lemma validate_parts v g :
  kinds_known options → validate options createId v = Ok g →
  ∃ p, proposal_wf p ∧ sumZ ps_maxAttempts (pp_steps p) ≤ eb_maxChildRuns (po_parentBudget options) ∧
    Forall2 admits (pp_steps p) (pg_steps g) ∧ pg_revision g = 1 ∧ pg_state g = P_draft ∧
    pg_attempts g = [] ∧ validatePlanGraphV1 (PlanGraph_js g) = Ok g.
Proof.
  intros Hkinds. unfold validate. intros Hv. inv_ok.
  match goal with H : parseProposal v = Ok _ |- _ => apply parseProposal_wf in H; rename H into Hp end.
  match goal with H : validatePlanGraphV1 _ = Ok g |- _ => rename H into Hg end.
  match goal with H : mapM _ _ = Ok _ |- _ => apply mapM_Ok in H; rename H into Hsteps end.
  pose proof Hg as Hg'. apply validatePlanGraphV1_decode in Hg'. rewrite <-Hg' in Hg.
  exists x. rewrite reduce_sum_sumZ in *. split_and!; [done|lia| |by rewrite Hg'..|done].
  rewrite Hg'. cbn. destruct Hp as [Hnd Hknown _ _ Hpaths _]. rewrite Forall_forall in Hpaths.
  apply Forall2_same_length_lookup_2.
  { by apply Forall2_length in Hsteps. }
  intros i q s Hq Hs. assert (q ∈ pp_steps x) as Hin by by eapply list_elem_of_lookup_2.
  pose proof (Forall2_lookup_lr _ _ _ _ _ _ Hsteps Hq Hs) as Has. cbn in Has.
  apply admitStep_within in Has as (Hw & Hst & Hat & Hmax & Hord & Hid & Hdeps); [|done|by apply Hpaths].
  change (mof ((λ step, (ps_key step, createId id_step (ps_key step))) <$> pp_steps x))
    with (proposal_ids x) in Hid, Hdeps. unfold admits. split_and!; try done.
  - rewrite Hid. by rewrite proposal_ids_get by (done || by apply list_elem_of_fmap_2).
  - rewrite Hdeps. apply list_fmap_ext. intros j d Hd. apply list_elem_of_lookup_2 in Hd.
    rewrite proposal_ids_get; [done|done|by eapply Hknown].
Qed.

Lemma admits_ids p g : Forall2 admits (pp_steps p) (pg_steps g) →
  st_stepId <$> pg_steps g = admitted_id <$> (ps_key <$> pp_steps p).
Proof.
  induction 1 as [|q s l k (_ & _ & _ & _ & _ & Hid & _) _ IH]; cbn; [done|]. by rewrite Hid, IH.
Qed.

Lemma admits_attempts p g : Forall2 admits (pp_steps p) (pg_steps g) →
  sumZ ps_maxAttempts (pp_steps p) = sumZ st_maxAttempts (pg_steps g).
Proof.
  unfold sumZ. induction 1 as [|q s l k (_ & _ & _ & Hm & _) _ IH]; cbn; [done|]. by rewrite Hm, IH.
Qed.

(** The dependency relation of a graph. *)
Definition plan_requires (g : PlanGraphV1) : relation string :=
  λ a b, ∃ s, s ∈ pg_steps g ∧ st_stepId s = b ∧ a ∈ st_dependencies s.

Lemma admits_requires p g a b :
  Forall2 admits (pp_steps p) (pg_steps g) → keys_known (pp_steps p) → plan_requires g a b →
  ∃ d k, a = admitted_id d ∧ b = admitted_id k ∧ d ∈ ps_key <$> pp_steps p ∧
    k ∈ ps_key <$> pp_steps p ∧ requires (pp_steps p) d k.
Proof.
  intros Hf Hk (s & Hs & <- & Ha). destruct (Forall2_r_elem _ _ _ _ Hf Hs) as
    (q & Hq & (_ & _ & _ & _ & _ & Hid & Hdeps)).
  rewrite Hdeps in Ha. apply list_elem_of_fmap in Ha as (d & -> & Hd).
  exists d, (ps_key q). split_and!; [done|done|by eapply Hk|by apply list_elem_of_fmap_2|by exists q].
Qed.

Lemma admits_acyclic p g :
  proposal_wf p → Forall2 admits (pp_steps p) (pg_steps g) → NoDup (st_stepId <$> pg_steps g) →
  acyclic (plan_requires g).
Proof.
  intros Hp Hf Hnd. rewrite (admits_ids p g Hf) in Hnd.
  assert (∀ a b, tc (plan_requires g) a b → ∃ d k, a = admitted_id d ∧ b = admitted_id k ∧
    d ∈ ps_key <$> pp_steps p ∧ k ∈ ps_key <$> pp_steps p ∧ tc (requires (pp_steps p)) d k) as Htc.
  { induction 1 as [a b Hab|a b c Hab _ IH].
    - apply (admits_requires p g a b Hf (pr_known _ Hp)) in Hab as (d & k & ? & ? & ? & ? & ?).
      exists d, k. split_and!; try done. by apply tc_once.
    - apply (admits_requires p g a b Hf (pr_known _ Hp)) in Hab as (d & k & Ha & Hb & Hd & Hk & Hr).
      destruct IH as (d' & k' & Hb' & Hc & Hd' & Hk' & Hr'). exists d, k'. split_and!; try done.
      assert (k = d') as -> by (eapply (NoDup_fmap_elem admitted_id); [exact Hnd|done|done|congruence]).
      by eapply tc_l. }
  intros n Hn. destruct (Htc n n Hn) as (d & k & Hd & Hk & Hdin & Hkin & Hr).
  assert (d = k) as -> by (eapply (NoDup_fmap_elem admitted_id); [exact Hnd|done|done|congruence]).
  by eapply (pr_acyclic _ Hp).
Qed.

Lemma admits_known p g :
  proposal_wf p → Forall2 admits (pp_steps p) (pg_steps g) → dependencies_known g.
Proof.
  intros Hp Hf s d Hs Hd.
  destruct (admits_requires p g d (st_stepId s) Hf (pr_known _ Hp)) as (k & _ & -> & _ & Hk & _).
  { by exists s. }
  rewrite (admits_ids p g Hf). by apply list_elem_of_fmap_2.
Qed.
End Admits.

(** ** Options *)

Section Options.
Context `{JsEngine}.

Lemma parseAllowedCriterionKinds_known v l :
  parseAllowedCriterionKinds v = Ok l → ∀ k, k ∈ l → is_enum (A:=PlanCriterionKindV1) (JStr k) = true.
Proof.
  intros Hl. assert (∀ k, k ∈ l → k ∈ CRITERION_KIND_NAMES) as Hin.
  { unfold parseAllowedCriterionKinds in Hl. destruct (is_undef v); [by injection Hl as <-|].
    inv_ok. split_bool.
    repeat match goal with H : existsb _ _ = false |- _ => rewrite existsb_false, Forall_forall in H; rename H into Hk end.
    intros k (w & -> & Hw)%list_elem_of_fmap. specialize (Hk w Hw). split_bool. by apply memb_true. }
  intros k Hk. specialize (Hin k Hk).
  unfold CRITERION_KIND_NAMES in Hin.
  repeat (apply elem_of_cons in Hin as [->|Hin]; [vm_compute; reflexivity|]). by apply elem_of_nil in Hin.
Qed.

Lemma validateOptions_Ok v o : validateOptions v = Ok o →
  kinds_known o ∧ is_ok (admitBudget (po_defaultStepBudget o) no_budget (po_parentBudget o)) = true.
Proof.
  unfold validateOptions. destruct v; try done. intros Ho. inv_ok. split.
  - intros k. cbn. by eapply parseAllowedCriterionKinds_known.
  - cbn. match goal with H : admitBudget _ _ _ = Ok _ |- _ => by rewrite H end.
Qed.

Lemma or_value_None {A} (x : option A) : or_value x None = x.
Proof. by destruct x. Qed.

Lemma admitBudget_defaults d p : admitBudget no_budget d p = admitBudget d no_budget p.
Proof. unfold admitBudget. cbn. by rewrite !or_value_None. Qed.
End Options.

(** The graph that a sequence of initial payloads describes. *)
Definition step_of_payload (d : StepCreatedData) : PlanStepV1 :=
  {| st_stepId := sd_stepId d; st_title := sd_title d; st_order := sd_order d; st_state := sd_state d;
     st_dependencies := sd_dependencies d; st_access := sd_access d;
     st_capabilities := sd_capabilities d; st_conflictKeys := sd_conflictKeys d;
     st_criteria := sd_criteria d; st_budget := sd_budget d; st_maxAttempts := sd_maxAttempts d;
     st_attemptIds := [] |}.
Definition graph_of_payloads (payloads : list InitialPlanJournalPayloadV3) : option PlanGraphV1 :=
  match payloads with
  | plan_created d :: payloads =>
      steps ← mapM (λ p, match p with step_created s => Some (step_of_payload s) | _ => None end) payloads;
      Some {| pg_planId := pc_planId d; pg_revision := pc_planRevision d; pg_objective := pc_objective d;
              pg_state := pc_state d; pg_steps := steps; pg_attempts := [] |}
  | _ => None
  end.

Lemma steps_of_payloads g l : Forall (λ s, st_attemptIds s = []) l →
  mapM (λ p, match p with step_created s => Some (step_of_payload s) | _ => None end)
    ((λ s, step_created (step_created_payload g s)) <$> l) = Some l.
Proof.
  induction 1 as [|s l Hs _ IH]; [done|]. cbn. cbn in IH. rewrite IH. cbn.
  destruct s; cbn in *. by subst.
Qed.

Section Properties.
Context `{JsEngine} (createId : PlanRuntimeIdKindV1 → string → string).

(** What admission establishes about the graph it returns. *)
Lemma admitted_graph ov options v g :
  validateOptions ov = Ok options → validate options createId v = Ok g →
  validatePlanGraphV1 (PlanGraph_js g) = Ok g ∧ pg_revision g = 1 ∧ pg_state g = P_draft ∧ pg_attempts g = [] ∧
  Forall (λ s, st_attemptIds s = []) (pg_steps g) ∧
  (∀ i s, pg_steps g !! i = Some s → st_order s = Z.of_nat i) ∧
  dependencies_known g ∧ acyclic (plan_requires g).
Proof.
  intros [Hkinds _]%validateOptions_Ok (p & Hp & _ & Hf & Hrev & Hst & Hat & Hg)%validate_parts; [|done].
  split_and!; try done.
  - apply Forall_forall. intros s Hs. by destruct (Forall2_r_elem _ _ _ _ Hf Hs) as (q & _ & _ & _ & ? & _).
  - intros i s Hs. destruct (Forall2_lookup_r _ _ _ _ _ Hf Hs) as (q & Hq & _ & _ & _ & _ & -> & _).
    by apply (pr_order _ Hp).
  - by eapply admits_known.
  - eapply admits_acyclic; [done|done|]. by apply validatePlanGraphV1_wf in Hg as [].
Qed.

(** Path containment: a path lies within a grant exactly when the grant is
    the whole workspace or the grant's components are the first components of
    the path, and no component of a portable path is empty or names the current
    or the parent directory, so a granted path cannot leave its grant. *)
Theorem isPlanPathWithinGrantV1_spec path grant :
  isPortablePlanPathV1 path = true →
  (isPlanPathWithinGrantV1 path grant = true ↔
    grant = "."%string ∨ components grant `prefix_of` components path) ∧
  (path = "."%string ∨ Forall plain_component (components path)).
Proof. intros Hp. split; [apply within_grant_iff|by apply portable_components]. Qed.

(** The depth-first cycle check of a proposal always returns; it accepts
    exactly the acyclic dependency graphs and refuses the others with
    PLAN_PROPOSAL_CYCLE. *)
Theorem proposal_cycle_check steps :
  NoDup (ps_key <$> steps) → keys_known steps →
  (acyclic (requires steps) → assertAcyclic steps = Ok ()) ∧
  (¬ acyclic (requires steps) → assertAcyclic steps = Err "PLAN_PROPOSAL_CYCLE").
Proof. apply assertAcyclic_plan_spec. Qed.

(** C27 Admission never widens authority: under validated options every step of
    an admitted plan has an access mode no stronger than the grant, paths inside
    granted paths, allowed capabilities and criterion kinds, and a turn, tool
    call, token and deadline budget within the parent's; the plan is a draft
    without attempts, and all attempts its steps may make fit the parent's child
    runs. *)
Theorem validate_within ov options v g :
  validateOptions ov = Ok options → validate options createId v = Ok g →
  plan_wf g ∧ Forall (step_within options) (pg_steps g) ∧
  sumZ st_maxAttempts (pg_steps g) ≤ eb_maxChildRuns (po_parentBudget options) ∧
  pg_state g = P_draft ∧ pg_attempts g = [].
Proof.
  intros [Hkinds _]%validateOptions_Ok (p & Hp & Hsum & Hf & _ & Hst & Hat & Hg)%validate_parts; [|done].
  split_and!; [by eapply validatePlanGraphV1_wf| |by rewrite <-(admits_attempts _ _ _ _ Hf)|done|done].
  apply Forall_forall. intros s Hs. by destruct (Forall2_r_elem _ _ _ _ Hf Hs) as (q & _ & ? & _).
Qed.

(** The dependencies of an admitted plan are steps of the plan and have no
    cycle, whatever identities the runtime assigns. *)
Theorem validate_dependencies ov options v g :
  validateOptions ov = Ok options → validate options createId v = Ok g →
  dependencies_known g ∧ acyclic (plan_requires g).
Proof.
  intros [Hkinds _]%validateOptions_Ok (p & Hp & _ & Hf & _ & _ & _ & Hg)%validate_parts; [|done].
  split; [by eapply admits_known|]. eapply admits_acyclic; [done|done|].
  by apply validatePlanGraphV1_wf in Hg as [].
Qed.

(** Every admitted plan can be journalled, and the initial payloads hold all
    of it: the call succeeds on the admitted graph and the graph can be read
    back from one plan.created and one step.created payload per step. *)
Theorem validate_journal ov options v g :
  validateOptions ov = Ok options → validate options createId v = Ok g →
  ∃ payloads, initialPlanJournalPayloadsV3 (PlanGraph_js g) = Ok payloads ∧
    length payloads = S (length (pg_steps g)) ∧ graph_of_payloads payloads = Some g.
Proof.
  intros [Hkinds _]%validateOptions_Ok (p & Hp & _ & Hf & Hrev & Hst & Hat & Hg)%validate_parts; [|done].
  assert (Forall (λ s, st_state s = S_pending ∧ st_attemptIds s = []) (pg_steps g)) as Hall.
  { apply Forall_forall. intros s Hs.
    by destruct (Forall2_r_elem _ _ _ _ Hf Hs) as (q & _ & _ & ? & ? & _). }
  unfold initialPlanJournalPayloadsV3. rewrite Hg. cbn [mbind res_bind].
  rewrite Hrev, Hst, Hat, bool_decide_eq_false_2 by naive_solver.
  rewrite (proj2 (existsb_false _ _)).
  2: { eapply Forall_impl; [exact Hall|]. cbn. intros s [-> ->]. by rewrite bool_decide_eq_false_2 by naive_solver. }
  cbn. eexists. split_and!; [done|cbn; by rewrite length_map|]. cbn.
  pose proof (steps_of_payloads g (pg_steps g)) as Hs. cbn in Hs. rewrite Hs.
  - cbn. destruct g; cbn in *. congruence.
  - eapply Forall_impl; [exact Hall|]. by intros s [_ ?].
Qed.

(** The default step budget of validated options is always admissible: a step
    that asks for no budget of its own is never refused for its budget. *)
Theorem default_budget_admitted ov options :
  validateOptions ov = Ok options →
  ∃ b, admitBudget no_budget (po_defaultStepBudget options) (po_parentBudget options) = Ok b.
Proof.
  intros [_ Hd]%validateOptions_Ok. rewrite admitBudget_defaults.
  destruct (admitBudget _ _ _) as [b|]; [by exists b|done].
Qed.
End Properties.

(** ** Evaluation at a small proposal *)

Definition sample_createId (kind : PlanRuntimeIdKindV1) (key : string) : string :=
  match kind with id_plan => "plan-" | id_step => "step-" | id_criterion => "criterion-" end +:+ key.

Definition sample_options_js : jsval :=
  JObj [("parentBudget", JObj [("maxTurns", JInt 10); ("maxToolCalls", JInt 10); ("maxChildRuns", JInt 4);
      ("maxParallelChildren", JInt 2); ("maxDepth", JInt 1); ("deadlineAt", JStr instant)]);
    ("defaultStepBudget", JObj [("maxTurns", JInt 2)]);
    ("accessGrant", JObj [("mode", JStr "workspace_write"); ("paths", JStrs ["src"])]);
    ("allowedCapabilities", JStrs ["edit"]); ("allowedCriterionKinds", JStrs ["check"; "rule"])]%string.

Definition sample_proposal_js : jsval :=
  let criteria := JArr [JObj [("kind", JStr "check"); ("description", JStr "passes")]%string] in
  JObj [("objective", JStr "Do it"); ("steps", JArr [
    JObj [("key", JStr "b"); ("title", JStr "Second"); ("criteria", criteria); ("dependencies", JStrs ["a"]);
      ("capabilities", JStrs ["edit"]);
      ("access", JObj [("mode", JStr "workspace_write"); ("paths", JStrs ["src/app/x.ts"])])];
    JObj [("key", JStr "a"); ("title", JStr "First"); ("criteria", criteria); ("maxAttempts", JInt 3)]])]%string.

Lemma sample_admission : ∃ options g, validateOptions sample_options_js = Ok options ∧
  validate options sample_createId sample_proposal_js = Ok g.
Proof.
  assert (is_ok (o ← validateOptions sample_options_js; validate o sample_createId sample_proposal_js) = true)
    as Hok by (vm_compute; reflexivity).
  destruct (validateOptions sample_options_js) as [o|]; [|discriminate Hok]. cbn [mbind res_bind] in Hok.
  destruct (validate o sample_createId sample_proposal_js) as [g|] eqn:Hg; [|discriminate Hok].
  exists o, g. split; [reflexivity|exact Hg].
Qed.

Lemma isPlanPathWithinGrantV1_spec_witness :
  (isPlanPathWithinGrantV1 "src/app/x.ts" "src" = true ↔
    "src"%string = "."%string ∨ components "src" `prefix_of` components "src/app/x.ts").
Proof. apply (isPlanPathWithinGrantV1_spec "src/app/x.ts" "src"). vm_compute. reflexivity. Defined.

(** Two steps, the second after the first. *)
Definition sample_parsed : list ParsedStep :=
  match parseProposal sample_proposal_js with Ok p => pp_steps p | Err _ => [] end.

Lemma proposal_cycle_check_witness :
  sample_parsed ≠ [] ∧ (acyclic (requires sample_parsed) → assertAcyclic sample_parsed = Ok ()).
Proof.
  split; [discriminate|].
  assert (nodupb (ps_key <$> sample_parsed)
    && forallb (λ s, forallb (λ d, memb d (ps_key <$> sample_parsed)) (ps_dependencies s)) sample_parsed
    = true) as Hc by (vm_compute; reflexivity).
  apply andb_true_iff in Hc as [Hnd%nodupb_true Hk%forallb_true]. rewrite Forall_forall in Hk.
  apply (proposal_cycle_check sample_parsed Hnd).
  intros s d Hs Hd. specialize (Hk s Hs). rewrite forallb_true, Forall_forall in Hk.
  apply memb_true, Hk, Hd.
Defined.

Lemma validate_within_witness : ∃ options g,
  validate options sample_createId sample_proposal_js = Ok g ∧ Forall (step_within options) (pg_steps g).
Proof.
  destruct sample_admission as (o & g & Ho & Hg). exists o, g.
  split; [exact Hg|exact (proj1 (proj2 (validate_within sample_createId _ o _ g Ho Hg)))].
Defined.

Lemma validate_dependencies_witness : ∃ options g,
  validate options sample_createId sample_proposal_js = Ok g ∧ acyclic (plan_requires g).
Proof.
  destruct sample_admission as (o & g & Ho & Hg). exists o, g.
  split; [exact Hg|exact (proj2 (validate_dependencies sample_createId _ o _ g Ho Hg))].
Defined.

Lemma validate_journal_witness : ∃ options g payloads,
  validate options sample_createId sample_proposal_js = Ok g ∧
  initialPlanJournalPayloadsV3 (PlanGraph_js g) = Ok payloads ∧ graph_of_payloads payloads = Some g.
Proof.
  destruct sample_admission as (o & g & Ho & Hg).
  destruct (validate_journal sample_createId _ o _ g Ho Hg) as (payloads & Hp & _ & Hr).
  exists o, g, payloads. split_and!; assumption.
Defined.

Lemma default_budget_admitted_witness : ∃ options b,
  admitBudget no_budget (po_defaultStepBudget options) (po_parentBudget options) = Ok b.
Proof.
  destruct sample_admission as (o & g & Ho & _).
  destruct (default_budget_admitted _ o Ho) as [b Hb]. exists o, b. exact Hb.
Defined.
