(* ===== verification/PlanReplay.v ===== *)
(** * From admission to projection

    A plan that the validator admits, written to a journal with its initial
    payloads, comes back from the reducer as the same graph. *)

From S2P Require Import Prelude Js CanonicalJson Graph Samples Plan PlanSpec Subagent Session SessionReducer SessionSamples SessionInv SessionLife SessionPlan SessionReady PlanValidator PlanAdmission.
Local Open Scope Z_scope.

(** ** Continuing a journal *)

(** The entry data of an initial payload. *)
Definition payload_data (payload : InitialPlanJournalPayloadV3) : SessionEntryData :=
  match payload with
  | PlanValidator.plan_created d => Session.plan_created d
  | PlanValidator.step_created d => Session.step_created d
  end.

(** The entries [es] may stand after [previous] in the journal of session [sid]
    whose entry identities are [used]. *)
Fixpoint placed (sid : string) (previous : SessionEntryV3) (used : list string)
    (es : list SessionEntryV3) : Prop :=
  match es with
  | [] => True
  | e :: es => en_sessionId e = sid ∧ follows previous e ∧ en_entryId e ∉ used ∧
      placed sid e (en_entryId e :: used) es
  end.

(** The graph that a projected plan shows. *)
Definition step_of_projection (s : SessionStepProjectionV3) : PlanStepV1 :=
  {| st_stepId := sp_stepId s; st_title := sp_title s; st_order := sp_order s; st_state := sp_state s;
     st_dependencies := sp_dependencies s; st_access := sp_access s;
     st_capabilities := sp_capabilities s; st_conflictKeys := sp_conflictKeys s;
     st_criteria := sp_criteria s; st_budget := sp_budget s; st_maxAttempts := sp_maxAttempts s;
     st_attemptIds := sp_attemptIds s |}.
Definition attempts_of_projection (s : SessionStepProjectionV3) : list PlanAttemptV1 :=
  (λ a, {| at_attemptId := ap_attemptId a; at_stepId := sp_stepId s; at_ordinal := ap_ordinal a;
           at_state := ap_state a; at_childRunId := ap_childRunId a; at_resultRef := ap_resultRef a;
           at_resultDigest := ap_resultDigest a; at_verificationRef := ap_verificationRef a |})
  <$> sp_attempts s.
Definition graph_of_projection (g : SessionPlanGraphProjectionV3) : PlanGraphV1 :=
  {| pg_planId := gr_planId g; pg_revision := gr_revision g; pg_objective := gr_objective g;
     pg_state := gr_state g; pg_steps := step_of_projection <$> gr_steps g;
     pg_attempts := gr_steps g ≫= attempts_of_projection |}.

(** ** The entries of the steps *)

Section Replay.
Context `{JsEngine} `{JsCrypto} `{RP : ReviewPlanContract}.

(** The steps of [g] as the reducer keeps them. *)
Definition journaled_step (g : PlanGraphV1) (s : PlanStepV1) : string * MutableStep :=
  (st_stepId s, new_step (step_created_payload g s)).
Definition journaled_plan (g : PlanGraphV1) (steps : list PlanStepV1) : MutablePlan :=
  {| mp_planId := pg_planId g; mp_revision := pg_revision g; mp_objective := pg_objective g;
     mp_state := pg_state g; mp_steps := journaled_step g <$> steps |}.

Lemma journaled_keys g steps : (journaled_step g <$> steps).*1 = st_stepId <$> steps.
Proof. by rewrite <-list_fmap_compose. Qed.

Lemma on_step_created_journaled g ids done s :
  stable_id "step" (st_stepId s) ∉ ids → st_stepId s ∉ st_stepId <$> done →
  on_step_created ids (Some (journaled_plan g done)) (step_created_payload g s) =
    Ok (stable_id "step" (st_stepId s) :: ids, journaled_plan g (done ++ [s])).
Proof.
  intros Hid Hn. unfold on_step_created. rewrite (proj2 (requirePlanRevision_Ok _ _ _ (journaled_plan g done))) by done.
  cbn [mbind res_bind sd_stepId step_created_payload]. unfold useStableId. rewrite useId_fresh by done. cbn [mbind res_bind].
  rewrite (proj2 (mget_None (st_stepId s) (mp_steps (journaled_plan g done)))) by by (cbn; rewrite journaled_keys).
  cbn. rewrite mset_fresh by by rewrite journaled_keys. unfold with_steps, journaled_plan. cbn. by rewrite fmap_app.
Qed.

Lemma replay_steps g todo done st es :
  me_lifecycle (ss_meta st) = L_open → ss_plan st = Some (journaled_plan g done) →
  NoDup (st_stepId <$> (done ++ todo)) →
  Forall (λ s, stable_id "step" (st_stepId s) ∉ id_stableIds (ss_ids st)) todo →
  (∀ sid, placed sid (ss_previous st) (id_entryIds (ss_ids st)) es →
    en_data <$> es = (λ s, Session.step_created (step_created_payload g s)) <$> todo →
    ∃ st', reduce_entries sid st es = Ok st' ∧ ss_plan st' = Some (journaled_plan g (done ++ todo)) ∧
      same_rest st st').
Proof.
  revert done st es. induction todo as [|s todo IH]; intros done st es Hopen Hplan Hnd Hfresh sid Hpl Hdata.
  { apply fmap_nil_inv in Hdata as ->. exists st. rewrite app_nil_r. by split_and!. }
  apply Forall_cons in Hfresh as [Hs Hfresh].
  destruct es as [|e es]; [done|]. rewrite !fmap_cons in Hdata. injection Hdata as He Hdata.
  destruct Hpl as (Hsid & Hfol & Hid & Hpl).
  assert (st_stepId s ∉ st_stepId <$> done) as Hn.
  { rewrite fmap_app in Hnd. apply NoDup_app in Hnd as (_ & Hd & _). intros Hin. apply (Hd _ Hin). left. }
  pose proof (on_step_created_journaled g _ done s Hs Hn) as Hc.
  assert (apply_entry sid false (entered st e) e = Ok (put_plan (put_stable (entered st e)
    (stable_id "step" (st_stepId s) :: id_stableIds (ss_ids st))) (journaled_plan g (done ++ [s])))) as Ha.
  { unfold apply_entry. rewrite He. cbn [entered put_ids ss_ids id_stableIds ss_plan]. rewrite Hplan, Hc. done. }
  pose proof (reduce_entry_intro _ _ _ _ Hsid Hfol Hopen Hid Ha) as Hred.
  match type of Hred with _ = Ok ?x => set (st1 := x) in * end.
  destruct (IH (done ++ [s]) st1 es) with (sid := sid) as (st2 & Hr & Hp & Hrest); try done.
  - by rewrite <-app_assoc.
  - eapply Forall_impl; [apply Forall_and; split; [exact Hfresh|]|].
    + apply Forall_forall. intros t Ht. instantiate (1 := λ t, st_stepId t ≠ st_stepId s). cbn. intros Heq.
      rewrite fmap_app in Hnd. apply NoDup_app in Hnd as (_ & _ & [Hn' _]%NoDup_cons). apply Hn'.
      rewrite <-Heq. by apply list_elem_of_fmap_2.
    + cbn. intros t [Ht Hne]. apply not_elem_of_cons. split; [|done]. by intros ?%stable_id_inj.
  - exists st2. split_and!; [cbn [reduce_entries]; by rewrite Hred|by rewrite <-app_assoc in Hp|].
    by transitivity st1.
Qed.

(** ** The projection of the journaled plan *)

Lemma graph_step_journaled g s : st_attemptIds s = [] → graph_step (journaled_step g s).2 = s.
Proof. destruct s. cbn. by intros ->. Qed.

Lemma orders_sorted (g : PlanGraphV1) steps n :
  (∀ i s, steps !! i = Some s → st_order s = n + Z.of_nat i) →
  js_sort mutable_step_before (journaled_step g <$> steps).*2 = (journaled_step g <$> steps).*2.
Proof.
  intros Hord. apply js_sort_id. revert n Hord. induction steps as [|s steps IH]; intros n Hord; [constructor|].
  rewrite !fmap_cons. constructor.
  - apply (IH (n + 1)). intros i t Ht. rewrite (Hord (S i) t Ht). lia.
  - apply Forall_forall. intros m (kt & -> & (t & -> & [i Hi]%list_elem_of_lookup)%list_elem_of_fmap)%list_elem_of_fmap.
    unfold mutable_step_before. cbn. pose proof (Hord 0%nat s eq_refl). pose proof (Hord (S i) t Hi).
    apply orb_true_iff. left. lia.
Qed.

(** The search accepts dependencies that are steps and have no cycle. *)
Lemma assertPlanDependencies_journaled g :
  NoDup (st_stepId <$> pg_steps g) → dependencies_known g → acyclic (plan_requires g) →
  assertPlanDependencies (journaled_step g <$> pg_steps g).*2 = Ok tt.
Proof.
  intros Hnd Hk Hac. unfold assertPlanDependencies. set (steps := (journaled_step g <$> pg_steps g).*2).
  assert (ms_stepId <$> steps = st_stepId <$> pg_steps g) as Hids by (unfold steps; by rewrite <-!list_fmap_compose).
  assert ((λ step, (ms_stepId step, step)) <$> steps = journaled_step g <$> pg_steps g) as Hpairs.
  { unfold steps. by rewrite <-!list_fmap_compose. }
  rewrite Hpairs, mof_NoDup by by rewrite journaled_keys.
  set (deps := λ stepId, ms_dependencies <$> mget stepId (journaled_step g <$> pg_steps g)).
  assert (∀ k ds, deps k = Some ds ↔ ∃ s, s ∈ pg_steps g ∧ st_stepId s = k ∧ st_dependencies s = ds) as Hdeps.
  { intros k ds. unfold deps. split.
    - destruct (mget k _) as [m|] eqn:Hm; [|done]. intros [= <-]. apply mget_elem_inv in Hm.
      apply list_elem_of_fmap in Hm as (s & [= -> ->] & Hs). by exists s.
    - intros (s & Hs & <- & <-). rewrite (mget_elem (st_stepId s) (journaled_step g s).2); [done|by rewrite journaled_keys|].
      apply list_elem_of_fmap. by exists s. }
  destruct (visit_from_spec deps "SESSION_REDUCER_TRANSITION_INVALID" "SESSION_REDUCER_TRANSITION_INVALID"
    (ms_stepId <$> steps)) as [Hok _].
  - rewrite Hids. intros k (s & -> & Hs)%list_elem_of_fmap. exists (st_dependencies s). apply Hdeps. by exists s.
  - rewrite Hids. intros k ds d (s & Hs & <- & <-)%Hdeps Hd. split; [by apply list_elem_of_fmap_2|by eapply Hk].
  - destruct Hok as [vd Hvd].
    + eapply acyclic_proper; [|exact Hac]. intros a b. unfold depends, plan_requires. setoid_rewrite Hdeps. naive_solver.
    + rewrite length_fmap in Hvd. by rewrite Hvd.
Qed.

Lemma project_journaled g :
  validatePlanGraphV1 (PlanGraph_js g) = Ok g → pg_state g = P_draft → pg_attempts g = [] →
  Forall (λ s, st_attemptIds s = []) (pg_steps g) →
  (∀ i s, pg_steps g !! i = Some s → st_order s = Z.of_nat i) →
  dependencies_known g → acyclic (plan_requires g) →
  ∃ gr, project_present (journaled_plan g (pg_steps g)) = Ok gr ∧ graph_of_projection gr = g ∧ gr_readyStepIds gr = [].
Proof.
  intros Hg Hdraft Hatt Hids Hord Hk Hac.
  assert ((λ s, graph_step (journaled_step g s).2) <$> pg_steps g = pg_steps g) as Hsteps.
  { clear -Hids. induction Hids as [|s l Hs _ IH]; [done|]. rewrite fmap_cons, IH. f_equal. by apply graph_step_journaled. }
  unfold project_present. cbn [mp_steps journaled_plan mp_planId mp_revision mp_objective mp_state].
  rewrite (orders_sorted g _ 0) by (intros i s Hs; rewrite (Hord i s Hs); lia).
  rewrite assertPlanDependencies_journaled by (done || by apply validatePlanGraphV1_wf in Hg as []).
  cbn [mbind res_bind].
  assert (∀ l, mapM (λ step, mapM (graph_attempt step) (ordered_attempts step)) (journaled_step g <$> l).*2 =
    Ok ((λ _, []) <$> l)) as Hm.
  { induction l as [|s l IH]; [done|]. rewrite !fmap_cons. cbn [mapM]. rewrite IH. done. }
  rewrite Hm. cbn [mbind res_bind].
  assert (∀ l : list PlanStepV1, concat ((λ _, []) <$> l) = ([] : list PlanAttemptV1)) as Hc by (by induction l).
  rewrite Hc. rewrite <-!list_fmap_compose. unfold compose. rewrite Hsteps.
  assert ({| pg_planId := pg_planId g; pg_revision := pg_revision g; pg_objective := pg_objective g;
    pg_state := pg_state g; pg_steps := pg_steps g; pg_attempts := [] |} = g) as Heta by (destruct g; cbn in *; congruence).
  rewrite Heta. unfold validateReducerPlanGraph. rewrite Hg. cbn [rethrow mbind res_bind].
  unfold readyPlanStepIdsV1. rewrite Hg. cbn [mbind res_bind]. rewrite Hdraft. cbn [negb bool_decide decide_rel].
  rewrite bool_decide_eq_false_2 by done. cbn [negb mbind res_bind]. eexists. split; [done|]. split; [|done].
  unfold graph_of_projection. cbn. rewrite <-list_fmap_compose.
  transitivity {| pg_planId := pg_planId g; pg_revision := pg_revision g; pg_objective := pg_objective g;
    pg_state := pg_state g; pg_steps := pg_steps g; pg_attempts := [] |}; [|done]. rewrite Hdraft. f_equal.
  - rewrite <-Hsteps at 2. apply list_fmap_ext. done.
  - generalize (pg_steps g). intros l. induction l as [|s l IH]; [done|]. cbn. done.
Qed.

(** ** The round trip *)

(** What the journal must be for a new plan: open, without a live plan, and
    without the identities of the plan. *)
Record accepts_plan (st : SessionState) (g : PlanGraphV1) : Prop := {
  ap_open : me_lifecycle (ss_meta st) = L_open;
  ap_live : match ss_plan st with Some p => plan_terminal (mp_state p) = true | None => True end;
  ap_plan : stable_id "plan" (pg_planId g) ∉ id_stableIds (ss_ids st);
  ap_steps : Forall (λ s, stable_id "step" (st_stepId s) ∉ id_stableIds (ss_ids st)) (pg_steps g);
}.

(** C28 From admission to projection: the initial payloads of an admitted plan,
    appended as entries to an open journal without a live plan, are accepted,
    leave the rest of the session as it is, and project to the admitted graph
    itself, a draft in which no step is ready. *)
Theorem admitted_plan_replays createId ov options v g payloads es first data st es' :
  validateOptions ov = Ok options → validate options createId v = Ok g →
  initialPlanJournalPayloadsV3 (PlanGraph_js g) = Ok payloads →
  reduce_state es = Ok (first, data, st) → accepts_plan st g →
  en_data <$> es' = payload_data <$> payloads →
  placed (en_sessionId first) (ss_previous st) (id_entryIds (ss_ids st)) es' →
  Z.of_nat (length (es ++ es')) ≤ MAX_ENTRIES →
  ∃ st' pj gr, reduce_state (es ++ es') = Ok (first, data, st') ∧ same_rest st st' ∧
    reduceSessionEntriesV3 (es ++ es') = Ok pj ∧ pj_planGraph pj = Some gr ∧
    graph_of_projection gr = g ∧ gr_readyStepIds gr = [].
Proof.
  intros Hov Hv Hpay Hst [Hopen Hlive Hplan Hsteps] Hdata Hpl Hlen.
  destruct (admitted_graph _ _ _ _ _ Hov Hv) as (Hg & Hrev & Hdraft & Hatt & Hids & Hord & Hk & Hac).
  unfold initialPlanJournalPayloadsV3 in Hpay. rewrite Hg in Hpay. cbn [mbind res_bind] in Hpay.
  apply bind_Ok in Hpay as ([] & _ & [= <-]). cbn [fmap list_fmap payload_data] in Hdata.
  destruct es' as [|e es']; [done|]. rewrite fmap_cons in Hdata. injection Hdata as He Hdata.
  destruct Hpl as (Hsid & Hfol & Hid & Hpl).
  assert (apply_entry (en_sessionId first) false (entered st e) e = Ok (put_plan (put_stable (entered st e)
    (stable_id "plan" (pg_planId g) :: id_stableIds (ss_ids st))) (journaled_plan g []))) as Ha.
  { unfold apply_entry. rewrite He. unfold on_plan_created. cbn [entered put_ids ss_ids id_stableIds ss_plan pc_planId].
    assert (match ss_plan st with Some p => negb (plan_terminal (mp_state p)) | None => false end = false) as ->
      by (destruct (ss_plan st); [by rewrite Hlive|done]).
    unfold useStableId. cbn [reject_if fail_if mbind res_bind]. by rewrite useId_fresh. }
  pose proof (reduce_entry_intro _ _ _ _ Hsid Hfol Hopen Hid Ha) as Hred.
  match type of Hred with _ = Ok ?x => set (st1 := x) in * end.
  destruct (replay_steps g (pg_steps g) [] st1 es') with (sid := en_sessionId first) as (st2 & Hr & Hp & Hrest); try done.
  - by apply validatePlanGraphV1_wf in Hg as [].
  - eapply Forall_impl; [exact Hsteps|]. cbn. intros s Hs. apply not_elem_of_cons. by split.
  - rewrite Hdata, <-list_fmap_compose. done.
  - destruct (project_journaled g Hg Hdraft Hatt Hids Hord Hk Hac) as (gr & Hgr & Hback & Hready).
    assert (reduce_state (es ++ e :: es') = Ok (first, data, st2)) as Hfinal.
    { apply reduce_state_Ok in Hst as (rest & -> & _ & Hd & Hs1 & Hr1 & Hrest').
      apply reduce_state_Ok. exists (rest ++ e :: es'). split_and!; try done.
      rewrite reduce_entries_app, Hrest'. cbn [mbind res_bind reduce_entries]. by rewrite Hred. }
    assert (∃ pj, project_session first data st2 = Ok pj ∧ pj_planGraph pj = Some gr) as (pj & Hpj & Hpg).
    { unfold project_session, projectPlan. rewrite Hp. cbn [app]. rewrite Hgr. cbn. by eexists. }
    exists st2, pj, gr. split_and!; [done|by transitivity st1| |done..].
    apply reduce_session_Ok. by exists first, data, st2.
Qed.
End Replay.

(** ** Evaluation at the sample proposal *)

#[export] Instance follows_dec a b : Decision (follows a b).
Proof. unfold follows. apply _. Defined.
#[export] Instance placed_dec sid previous used es : Decision (placed sid previous used es).
Proof. revert previous used. induction es as [|e es IH]; intros previous used; cbn; apply _. Defined.

Definition sample_before : list SessionEntryV3 := sample_entries [sample_created; run_started "req-1" None].

(** The options, the graph and the payloads of the sample proposal. *)
Definition sample_plan_parts : res (PlanValidatorOptions * PlanGraphV1 * list InitialPlanJournalPayloadV3) :=
  o ← validateOptions sample_options_js;
  g ← validate o sample_createId sample_proposal_js;
  payloads ← initialPlanJournalPayloadsV3 (PlanGraph_js g);
  Ok (o, g, payloads).

Definition sample_after (payloads : list InitialPlanJournalPayloadV3) : list SessionEntryV3 :=
  imap (λ i d, sample_entry_at (Z.of_nat i + 3) d) (payload_data <$> payloads).

Definition replay_check : bool :=
  match sample_plan_parts, reduce_state sample_before with
  | Ok (_, g, payloads), Ok (first, _, st) =>
      bool_decide (me_lifecycle (ss_meta st) = L_open) && is_none (ss_plan st)
      && negb (memb (stable_id "plan" (pg_planId g)) (id_stableIds (ss_ids st)))
      && forallb (λ s, negb (memb (stable_id "step" (st_stepId s)) (id_stableIds (ss_ids st)))) (pg_steps g)
      && bool_decide (placed (en_sessionId first) (ss_previous st) (id_entryIds (ss_ids st)) (sample_after payloads))
      && (Z.of_nat (length (sample_before ++ sample_after payloads)) <=? MAX_ENTRIES)
  | _, _ => false
  end.

Lemma admitted_plan_replays_witness : ∃ g es' pj gr,
  reduceSessionEntriesV3 (sample_before ++ es') = Ok pj ∧ pj_planGraph pj = Some gr ∧
  graph_of_projection gr = g ∧ pg_state g = P_draft.
Proof.
  assert (replay_check = true) as Hc by (vm_compute; reflexivity).
  unfold replay_check, sample_plan_parts in Hc.
  destruct (validateOptions sample_options_js) as [o|] eqn:Ho; [|discriminate Hc]. cbn [mbind res_bind] in Hc.
  destruct (validate o sample_createId sample_proposal_js) as [g|] eqn:Hg; [|discriminate Hc]. cbn [mbind res_bind] in Hc.
  destruct (initialPlanJournalPayloadsV3 (PlanGraph_js g)) as [payloads|] eqn:Hp; [|discriminate Hc]. cbn [mbind res_bind] in Hc.
  destruct (reduce_state sample_before) as [[[first data] st]|] eqn:Hst; [|discriminate Hc].
  repeat match goal with H : _ && _ = true |- _ => apply andb_true_iff in H as [H ?] end.
  assert (accepts_plan st g) as Hacc.
  { split.
    - eapply bool_decide_eq_true_1; eassumption.
    - destruct (ss_plan st); [discriminate|exact I].
    - apply memb_false, negb_true_iff. assumption.
    - match goal with H : forallb _ _ = true |- _ => apply forallb_true in H;
        refine (Forall_impl _ _ _ H _) end.
      intros s Hs. apply memb_false, negb_true_iff, Hs. }
  destruct (admitted_plan_replays sample_createId sample_options_js o sample_proposal_js g payloads sample_before
    first data st (sample_after payloads) Ho Hg Hp Hst Hacc) as (st' & pj & gr & _ & _ & Hpj & Hgr & Hback & _).
  - unfold sample_after. rewrite fmap_imap. unfold compose. cbn [en_data sample_entry_at].
    change (imap (λ _ d, id d) (payload_data <$> payloads) = payload_data <$> payloads).
    by rewrite (imap_const id), list_fmap_id.
  - eapply bool_decide_eq_true_1; eassumption.
  - apply Z.leb_le. assumption.
  - exists g, (sample_after payloads), pj, gr. split; [exact Hpj|]. split; [exact Hgr|]. split; [exact Hback|].
    destruct (admitted_graph sample_createId _ _ _ _ Ho Hg) as (_ & _ & Hd & _). exact Hd.
Defined.
