(* ===== verification/SessionEntry.v ===== *)
(** * Session entries: [validateSessionEntryV3] of packages/core-sdk/src/session-journal.ts

    The validator of one entry of the journal: the limits of a JSON value, the
    envelope, and the payload of each entry type.  The source checks a value and
    then uses it under its declared type; here every check returns what it has
    established, so that the validator produces the typed entry.  Payload parts
    that the reducer only stores keep their value ([jsval]). *)

From S2P Require Import Prelude Js JsOps CanonicalJson Plan Subagent WorkingPlan ReviewPlan ReviewPlanEvents Session SessionReducer.
Local Open Scope Z_scope.

Definition MAX_CONTENT_BLOCK_TEXT_BYTES : Z := 768 * 1024.
Definition MAX_LIST_ITEMS : Z := 256.

Definition invalid {A} : res A := Err "SESSION_ENTRY_INVALID".
Definition invalid_if (cond : bool) : res unit := fail_if cond "SESSION_ENTRY_INVALID".

(** ** Literals *)

#[export] Instance PLANNER_MODES : JsEnum SessionPlannerModeV3.
Proof.
  refine {| enum_all := [M_auto; M_solo; M_workflow; M_direct; M_supervisor];
  enum_name m := match m with M_auto => "auto" | M_solo => "solo" | M_workflow => "workflow"
    | M_direct => "direct" | M_supervisor => "supervisor" end; |}; solve_enum.
Defined.
#[export] Instance PLAN_POLICIES : JsEnum SessionPlanPolicyV3.
Proof.
  refine {| enum_all := [optional; required];
  enum_name p := match p with optional => "optional" | required => "required" end; |}; solve_enum.
Defined.
#[export] Instance RUN_STATUSES : JsEnum RunTerminalStatus.
Proof.
  refine {| enum_all := [T_completed; T_failed; T_aborted; T_interrupted];
  enum_name s := match s with T_completed => "completed" | T_failed => "failed" | T_aborted => "aborted"
    | T_interrupted => "interrupted" end; |}; solve_enum.
Defined.
#[export] Instance COMPACTION_REASONS : JsEnum SessionCompactionReasonV3.
Proof.
  refine {| enum_all := [C_manual; C_threshold; C_overflow];
  enum_name r := match r with C_manual => "manual" | C_threshold => "threshold"
    | C_overflow => "overflow" end; |}; solve_enum.
Defined.
#[export] Instance DECISION_ACTIONS : JsEnum PlannerDecisionActionV3.
Proof.
  refine {| enum_all := [D_retry; D_continue; D_fresh_worker; D_replan; D_ask_user];
  enum_name a := match a with D_retry => "retry" | D_continue => "continue"
    | D_fresh_worker => "fresh_worker" | D_replan => "replan" | D_ask_user => "ask_user" end; |};
  solve_enum.
Defined.
#[export] Instance STEP_CHANGE_REASONS : JsEnum StepChangeReason.
Proof.
  refine {| enum_all := [retry_approved; recovery_retry_approved; external_condition_changed];
  enum_name r := match r with retry_approved => "retry_approved"
    | recovery_retry_approved => "recovery_retry_approved"
    | external_condition_changed => "external_condition_changed" end; |}; solve_enum.
Defined.
#[export] Instance SUBAGENT_STATUSES : JsEnum SubagentStatus.
Proof.
  refine {| enum_all := [E_succeeded; E_failed; E_cancelled];
  enum_name s := match s with E_succeeded => "succeeded" | E_failed => "failed"
    | E_cancelled => "cancelled" end; |}; solve_enum.
Defined.
#[export] Instance RETRY_SAFETIES : JsEnum SessionRetrySafetyV3.
Proof.
  refine {| enum_all := [read_only_idempotent; non_idempotent; unknown];
  enum_name s := match s with read_only_idempotent => "read_only_idempotent"
    | non_idempotent => "non_idempotent" | unknown => "unknown" end; |}; solve_enum.
Defined.
#[export] Instance VERIFIERS : JsEnum Verifier.
Proof.
  refine {| enum_all := [mechanical; rule; model];
  enum_name v := match v with mechanical => "mechanical" | rule => "rule" | model => "model" end; |};
  solve_enum.
Defined.
#[export] Instance VERIFICATION_STATUSES : JsEnum VerificationStatus.
Proof.
  refine {| enum_all := [V_passed; V_failed; V_blocked];
  enum_name s := match s with V_passed => "passed" | V_failed => "failed" | V_blocked => "blocked" end; |};
  solve_enum.
Defined.
#[export] Instance CONTROL_ACTIONS : JsEnum ControlAction.
Proof.
  refine {| enum_all := [abandon; scope_change; resolve_block; cancel; session_close];
  enum_name a := match a with abandon => "abandon" | scope_change => "scope_change"
    | resolve_block => "resolve_block" | cancel => "cancel" | session_close => "session_close" end; |};
  solve_enum.
Defined.
#[export] Instance CONTROL_DISPOSITIONS : JsEnum ControlDisposition.
Proof.
  refine {| enum_all := [X_unused; X_aborted; X_timeout; X_provider_error; X_run_terminated];
  enum_name d := match d with X_unused => "unused" | X_aborted => "aborted" | X_timeout => "timeout"
    | X_provider_error => "provider_error" | X_run_terminated => "run_terminated" end; |}; solve_enum.
Defined.
#[export] Instance BUDGET_DISPOSITIONS : JsEnum ReviewBudgetDisposition.
Proof.
  refine {| enum_all := [B_actual; B_released_before_provider; B_remote_outcome_unknown];
  enum_name d := match d with B_actual => "actual" | B_released_before_provider => "released_before_provider"
    | B_remote_outcome_unknown => "remote_outcome_unknown" end; |}; solve_enum.
Defined.

(** ** Field checks *)

Definition safe (value : jsval) : res string :=
  match value with JStr s => invalid_if (negb (SAFE_ID s));; Ok s | _ => invalid end.
Definition optionalSafe (value : jsval) : res (option string) := opt_res safe value.

(** [boundedText]: at most [MAX_TEXT_BYTES] bytes, the empty text included. *)
Definition textField (value : jsval) : res string :=
  match value with JStr s => invalid_if (MAX_TEXT_BYTES <? byteLength s);; Ok s | _ => invalid end.
Definition optionalBounded (value : jsval) : res (option string) := opt_res textField value.
Definition boundedContentText (value : jsval) : res unit :=
  match value with
  | JStr s => invalid_if (MAX_CONTENT_BLOCK_TEXT_BYTES <? byteLength s)
  | _ => invalid
  end.
Definition digestField (value : jsval) : res string :=
  match value with JStr s => invalid_if (negb (SHA256 s));; Ok s | _ => invalid end.
Definition positiveField (value : jsval) : res Z :=
  invalid_if (negb (positiveInteger value));; Ok (js_int value).
Definition nonNegative (value : jsval) : res Z :=
  invalid_if (negb (nonNegativeInteger value));; Ok (js_int value).
Definition booleanField (value : jsval) : res bool :=
  match value with JBool b => Ok b | _ => invalid end.
Definition requireRunId (value : jsval) : res string := safe value.

(** [enumValue] on the literals of a type, and on a list of literals. *)
Definition enumValue (A : Type) `{JsEnum A} (value : jsval) : res A :=
  match enum_of value with Some a => Ok a | None => invalid end.
Definition literal (values : list string) (value : jsval) : res string :=
  match value with JStr s => invalid_if (negb (memb s values));; Ok s | _ => invalid end.

Definition recordField (value : jsval) : res jsobj := match value with JObj o => Ok o | _ => invalid end.
Definition listField (value : jsval) (maximum : Z) : res (list jsval) :=
  match value with
  | JArr l => invalid_if (maximum <? Z.of_nat (length l));; Ok l
  | _ => invalid
  end.
Definition textListField (value : jsval) : res (list string) :=
  l ← listField value MAX_LIST_ITEMS; mapM textField l.

Definition onlyKeys (value : jsobj) (allowed : list string) : bool :=
  forallb (λ key, memb key allowed) (keys value).
Definition exactData (value : jsobj) (required optional : list string) : res unit :=
  invalid_if (negb (forallb (hasOwn value) required) || negb (onlyKeys value (required ++ optional))).
(** [exactRecord]: as many keys as listed, and every listed one. *)
Definition exactFields (value : jsval) (expected : list string) : res jsobj :=
  o ← recordField value;
  invalid_if (negb (Nat.eqb (length (keys o)) (length expected)) || negb (forallb (hasOwn o) expected));;
  Ok o.

(** [for (const x of list) check(x)]. *)
Fixpoint each (check : jsval → res unit) (l : list jsval) : res unit :=
  match l with [] => Ok tt | x :: rest => check x;; each check rest end.
(** [if (value !== undefined) check(value)]. *)
Definition when_defined {A} (check : jsval → res A) (value : jsval) : res unit :=
  match value with JUndef => Ok tt | v => check v;; Ok tt end.

(** ** JSON values *)

Fixpoint assertJsonValue (value : jsval) (depth : Z) : bool :=
  (depth <=? 64) &&
  match value with
  | JNull | JStr _ | JBool _ => true
  | JNum n => is_finite n
  | JArr l => forallb (λ nested, assertJsonValue nested (depth + 1)) l
  | JObj o => forallb (λ '(_, nested), assertJsonValue nested (depth + 1)) o
  | JUndef | JFun => false
  end.
Definition validateJsonValue (value : jsval) : res unit := invalid_if (negb (assertJsonValue value 0)).

(** ** Provider-native contexts: [isProviderNativeContext] of packages/core-sdk/src/llm.ts *)

Definition safeNativeContextId (value : jsval) : bool :=
  match value with
  | JStr (String a rest) =>
      is_alnum a && string_forallb (λ c, is_alnum c || char_in "._:/@+-" c) rest
      && Nat.leb (String.length rest) 255
  | _ => false
  end.

Definition is_record (value : jsval) : bool := match value with JObj _ => true | _ => false end.

Section Validators.
Context `{JsEngine} `{JsCrypto}.

Definition isProviderNativeContext (value : jsval) : bool :=
  match value with
  | JObj state =>
      onlyKeys state ["schemaVersion"; "provider"; "model"; "format"; "items"; "messageStart"; "messageEnd";
        "sourceDigest"; "instructionsDigest"; "estimatedTokens"; "createdAt"]%string
      && is_int (state .: "schemaVersion") 1 && safeNativeContextId (state .: "provider")
      && safeNativeContextId (state .: "model") && safeNativeContextId (state .: "format")
      && is_arr (state .: "items") && negb (Nat.eqb (length (js_arr (state .: "items"))) 0)
      && (Z.of_nat (length (js_arr (state .: "items"))) <=? 2048)
      && forallb is_record (js_arr (state .: "items"))
      && isSafeInteger (state .: "messageStart") && (0 <=? js_int (state .: "messageStart"))
      && isSafeInteger (state .: "messageEnd")
      && (js_int (state .: "messageStart") <=? js_int (state .: "messageEnd"))
      && digest (state .: "sourceDigest") && digest (state .: "instructionsDigest")
      && isSafeInteger (state .: "estimatedTokens") && (0 <=? js_int (state .: "estimatedTokens"))
      && timestamp (state .: "createdAt")
  | _ => false
  end.

(** ** Usage *)

Definition validateUsageCounts (value : jsobj) : res unit :=
  invalid_if (existsb (λ '(key, count),
    if String.eqb key "costUsd" then
      match count with JNum n => negb (is_finite n) || num_neg n | _ => true end
    else negb (nonNegativeInteger count)) value).

Definition cost_of (value : jsval) : option jsnum := match value with JNum n => Some n | _ => None end.
Definition usage_of (value : jsobj) : ProviderUsage :=
  {| pu_inputTokens := opt js_int (value .: "inputTokens");
     pu_outputTokens := opt js_int (value .: "outputTokens");
     pu_cacheReadTokens := opt js_int (value .: "cacheReadTokens");
     pu_cacheWriteTokens := opt js_int (value .: "cacheWriteTokens");
     pu_costUsd := cost_of (value .: "costUsd") |}.

Definition providerUsageValue (value : jsval) : res ProviderUsage :=
  o ← recordField value;
  invalid_if (negb (onlyKeys o ["inputTokens"; "outputTokens"; "cacheReadTokens"; "cacheWriteTokens";
                                "costUsd"]%string));;
  validateUsageCounts o;;
  Ok (usage_of o).

Definition budgetUsageValue (value : jsval) : res BudgetUsage :=
  o ← recordField value;
  invalid_if (negb (onlyKeys o ["turns"; "toolCalls"; "inputTokens"; "outputTokens"; "cacheReadTokens";
                                "cacheWriteTokens"; "costUsd"; "subagents"]%string)
              || negb (forallb (hasOwn o) ["turns"; "toolCalls"; "subagents"]%string));;
  validateUsageCounts o;;
  Ok {| bu_turns := js_int (o .: "turns"); bu_toolCalls := js_int (o .: "toolCalls");
        bu_subagents := js_int (o .: "subagents"); bu_provider := usage_of o |}.

(** ** Messages *)

Definition skillInvocation (value : jsval) : res unit :=
  o ← recordField value;
  invalid_if (negb (onlyKeys o ["type"; "version"; "capabilityId"; "origin"; "digest"; "arguments";
                                "content"]%string)
              || negb (is_str (o .: "type") "skill_invocation") || negb (is_int (o .: "version") 1)
              || negb (safeId (o .: "capabilityId")) || negb (is_string (o .: "origin")));;
  s ← to_text (o .: "digest");
  invalid_if (negb (SHA256 s) || negb (is_string (o .: "arguments"))
              || negb (is_string (o .: "content")));;
  textField (o .: "origin");;
  textField (o .: "arguments");;
  textField (o .: "content");;
  Ok tt.

Definition providerContentBlock (value : jsval) : res unit :=
  o ← recordField value;
  let type := o .: "type" in
  if is_str type "text" || is_str type "reasoning" then
    exactData o ["type"; "text"]%string [];;
    boundedContentText (o .: "text")
  else if is_str type "image_ref" then
    exactData o ["type"; "artifactId"]%string ["mimeType"; "alt"]%string;;
    safe (o .: "artifactId");; optionalBounded (o .: "mimeType");; optionalBounded (o .: "alt");; Ok tt
  else if is_str type "audio_ref" then
    exactData o ["type"; "artifactId"]%string ["mimeType"; "transcript"]%string;;
    safe (o .: "artifactId");; optionalBounded (o .: "mimeType");; optionalBounded (o .: "transcript");;
    Ok tt
  else if is_str type "citation" then
    exactData o ["type"]%string ["title"; "url"; "artifactId"; "startIndex"; "endIndex"]%string;;
    invalid_if (is_undef (o .: "title") && is_undef (o .: "url") && is_undef (o .: "artifactId"));;
    optionalBounded (o .: "title");;
    optionalBounded (o .: "url");;
    optionalSafe (o .: "artifactId");;
    when_defined nonNegative (o .: "startIndex");;
    when_defined nonNegative (o .: "endIndex");;
    invalid_if (negb (is_undef (o .: "startIndex")) && negb (is_undef (o .: "endIndex"))
                && (js_int (o .: "endIndex") <? js_int (o .: "startIndex")))
  else if is_str type "tool_call" then
    exactData o ["type"; "id"; "name"; "input"]%string [];;
    safe (o .: "id");; safe (o .: "name");; Ok tt
  else invalid.

Definition providerContent (value : jsval) : res unit :=
  match value with
  | JStr _ => Ok tt
  | v => l ← listField v MAX_LIST_ITEMS; each providerContentBlock l
  end.

Definition providerToolCalls (value : jsval) : res unit :=
  l ← listField value MAX_LIST_ITEMS;
  each (λ v, call ← recordField v;
             exactData call ["id"; "name"; "input"]%string [];;
             safe (call .: "id");; safe (call .: "name");; Ok tt) l.

Definition providerMessage (value : jsval) : res unit :=
  o ← recordField value;
  if is_str (o .: "role") "user" then
    exactData o ["role"; "content"]%string ["intent"; "trust"; "skillInvocation"]%string;;
    providerContent (o .: "content");;
    when_defined (literal ["prompt"; "follow_up"; "steer"; "context"]%string) (o .: "intent");;
    when_defined (literal ["user"; "low"]%string) (o .: "trust");;
    when_defined skillInvocation (o .: "skillInvocation")
  else if is_str (o .: "role") "assistant" then
    exactData o ["role"; "content"]%string ["toolCalls"]%string;;
    providerContent (o .: "content");;
    when_defined providerToolCalls (o .: "toolCalls")
  else if is_str (o .: "role") "tool" then
    exactData o ["role"; "toolCallId"; "name"; "content"]%string ["skillInvocation"]%string;;
    safe (o .: "toolCallId");; safe (o .: "name");;
    providerContent (o .: "content");;
    when_defined skillInvocation (o .: "skillInvocation")
  else invalid.

(** ** Compaction *)

Definition compactionSummary (value : jsval) : res SessionCompactionSummaryV3 :=
  o ← recordField value;
  exactData o ["schemaVersion"; "trust"; "decisions"; "constraints"; "readFiles"; "modifiedFiles";
               "unresolved"; "activePlan"]%string ["objective"; "relevantRefs"]%string;;
  invalid_if (negb (is_int (o .: "schemaVersion") 1));;
  invalid_if (negb (is_str (o .: "trust") "low"));;
  objective ← optionalBounded (o .: "objective");
  relevantRefs ← opt_res textListField (o .: "relevantRefs");
  decisions ← textListField (o .: "decisions");
  constraints ← textListField (o .: "constraints");
  readFiles ← textListField (o .: "readFiles");
  modifiedFiles ← textListField (o .: "modifiedFiles");
  unresolved ← textListField (o .: "unresolved");
  activePlan ← textListField (o .: "activePlan");
  Ok {| cs_objective := objective; cs_relevantRefs := relevantRefs; cs_decisions := decisions;
        cs_constraints := constraints; cs_readFiles := readFiles; cs_modifiedFiles := modifiedFiles;
        cs_unresolved := unresolved; cs_activePlan := activePlan |}.

Definition compactionGeneratorIdentity (value : jsval) : res unit :=
  o ← recordField value;
  if is_str (o .: "kind") "deterministic" then
    exactData o ["kind"; "id"]%string [];; safe (o .: "id");; Ok tt
  else if is_str (o .: "kind") "model" then
    exactData o ["kind"; "id"; "provider"; "model"]%string [];;
    safe (o .: "id");; safe (o .: "provider");; safe (o .: "model");; Ok tt
  else invalid.

Definition compactionProvenance (value : jsval) : res unit :=
  o ← recordField value;
  exactData o ["schemaVersion"; "generator"]%string
    ["fallbackFrom"; "failureCode"; "failedGeneratorDurationMs"]%string;;
  invalid_if (negb (is_int (o .: "schemaVersion") 1));;
  compactionGeneratorIdentity (o .: "generator");;
  when_defined compactionGeneratorIdentity (o .: "fallbackFrom");;
  when_defined safe (o .: "failureCode");;
  invalid_if (negb (is_undef (o .: "failedGeneratorDurationMs"))
              && negb (nonNegativeInteger (o .: "failedGeneratorDurationMs")));;
  invalid_if ((negb (is_undef (o .: "failureCode")) || negb (is_undef (o .: "failedGeneratorDurationMs")))
              && is_undef (o .: "fallbackFrom")).

Definition compactPlanValue (value : jsval) : res unit :=
  o ← recordField value;
  exactData o ["objective"; "steps"; "revision"; "updatedAt"]%string [];;
  textField (o .: "objective");;
  nonNegative (o .: "revision");;
  invalid_if (negb (canonicalInstant (o .: "updatedAt")));;
  steps ← listField (o .: "steps") MAX_LIST_ITEMS;
  each (λ v, step ← recordField v;
             exactData step ["id"; "title"; "state"]%string [];;
             safe (step .: "id");; textField (step .: "title");;
             literal ["pending"; "in_progress"; "completed"; "blocked"]%string (step .: "state");; Ok tt) steps.

Definition checkpointScope (value : jsval) : res unit :=
  o ← recordField value;
  exactData o ["kind"; "sessionId"]%string [];;
  literal ["parent"; "child"]%string (o .: "kind");;
  safe (o .: "sessionId");; Ok tt.

Definition checkpointValue (value : jsval) : res unit :=
  o ← recordField value;
  exactData o ["messageStart"; "messageEnd"; "content"; "digest"]%string
    ["estimatedGainTokens"; "scope"; "skillInvocations"; "nativeContext"]%string;;
  messageStart ← nonNegative (o .: "messageStart");
  messageEnd ← nonNegative (o .: "messageEnd");
  invalid_if (messageEnd <? messageStart);;
  textField (o .: "content");;
  digestField (o .: "digest");;
  when_defined nonNegative (o .: "estimatedGainTokens");;
  when_defined checkpointScope (o .: "scope");;
  when_defined (λ v, l ← listField v MAX_LIST_ITEMS; each skillInvocation l) (o .: "skillInvocations");;
  invalid_if (negb (is_undef (o .: "nativeContext")) && negb (isProviderNativeContext (o .: "nativeContext"))).

(** ** Controls *)

Definition controlReasonMatches (action : ControlAction) (reason : string) : bool :=
  memb reason match action with
  | abandon => ["user_requested_abandon"]
  | scope_change => ["user_changed_scope"; "host_policy_override"]
  | resolve_block => ["user_resolved_block"; "host_policy_override"]
  | cancel => ["user_cancelled"; "host_policy_override"]
  | session_close => ["user_closed_session"]
  end%string.

Definition planControlBinding (value : jsval) : res unit :=
  match value with
  | JNull => Ok tt
  | v =>
      o ← recordField v;
      exactData o ["planId"; "planRevision"; "stateDigest"]%string [];;
      safe (o .: "planId");; positiveField (o .: "planRevision");; digestField (o .: "stateDigest");; Ok tt
  end.

Definition planControlTarget (value : jsval) : res unit :=
  o ← recordField value;
  if is_str (o .: "kind") "plan" then
    exactData o ["kind"; "planId"; "expectedPlanRevision"; "planStateDigest"]%string [];;
    safe (o .: "planId");; positiveField (o .: "expectedPlanRevision");;
    digestField (o .: "planStateDigest");; Ok tt
  else if is_str (o .: "kind") "run" then
    exactData o ["kind"; "runId"; "runStateDigest"; "planBinding"]%string [];;
    safe (o .: "runId");; digestField (o .: "runStateDigest");; planControlBinding (o .: "planBinding")
  else if is_str (o .: "kind") "session" then
    exactData o ["kind"; "sessionStateDigest"; "planBinding"]%string [];;
    digestField (o .: "sessionStateDigest");; planControlBinding (o .: "planBinding")
  else invalid.

(** The results of [instant(value.issuedAt)] and [instant(value.expiresAt)] are
    not used by the source: any values that [<=] orders are accepted. *)
Definition verifiedPlanControlFact (value : jsval) : res VerifiedPlanControlFactV1 :=
  o ← recordField value;
  exactData o ["controlEventId"; "actorId"; "actorBindingDigest"; "sessionId"; "action"; "reasonCode";
    "target"; "targetDigest"; "challengeId"; "challengeDigest"; "tokenDigest"; "issuedAt";
    "expiresAt"]%string ["runId"; "providerTurnId"]%string;;
  controlEventId ← safe (o .: "controlEventId");
  actorId ← safe (o .: "actorId");
  sessionId ← safe (o .: "sessionId");
  actorBindingDigest ← digestField (o .: "actorBindingDigest");
  targetDigest ← digestField (o .: "targetDigest");
  challengeDigest ← digestField (o .: "challengeDigest");
  tokenDigest ← digestField (o .: "tokenDigest");
  invalid_if (negb (is_string (o .: "challengeId"))
              || negb (String.prefix "pcc_" (js_str (o .: "challengeId"))));;
  action ← enumValue ControlAction (o .: "action");
  reasonCode ← literal ["user_requested_abandon"; "user_changed_scope"; "user_resolved_block";
                        "user_cancelled"; "user_closed_session"; "host_policy_override"]%string
                 (o .: "reasonCode");
  invalid_if (negb (controlReasonMatches action reasonCode));;
  ended ← js_le (o .: "expiresAt") (o .: "issuedAt");
  invalid_if ended;;
  runId ← optionalSafe (o .: "runId");
  providerTurnId ← optionalSafe (o .: "providerTurnId");
  planControlTarget (o .: "target");;
  Ok {| vf_controlEventId := controlEventId; vf_actorId := actorId;
        vf_actorBindingDigest := actorBindingDigest; vf_sessionId := sessionId; vf_action := action;
        vf_reasonCode := reasonCode; vf_target := o .: "target"; vf_targetDigest := targetDigest;
        vf_challengeId := js_str (o .: "challengeId"); vf_challengeDigest := challengeDigest;
        vf_tokenDigest := tokenDigest; vf_issuedAt := o .: "issuedAt"; vf_expiresAt := o .: "expiresAt";
        vf_runId := runId; vf_providerTurnId := providerTurnId |}.
End Validators.

(** ** Payloads, one per entry type *)

Section Payloads.
Context `{JsEngine} `{JsCrypto}.
Implicit Types data : jsobj.

Definition fork_of (value : jsval) : res SessionFork :=
  fork ← exactFields value ["parentSessionId"; "sourceEntryId"]%string;
  parentSessionId ← safe (fork .: "parentSessionId");
  sourceEntryId ← safe (fork .: "sourceEntryId");
  Ok {| fk_parentSessionId := parentSessionId; fk_sourceEntryId := sourceEntryId |}.

Definition session_created_payload data : res SessionEntryData :=
  exactData data ["cwd"; "provider"; "model"; "name"; "labels"]%string
    ["fork"; "plannerMode"; "contextLimitTokens"]%string;;
  cwd ← textField (data .: "cwd");
  provider ← safe (data .: "provider");
  model ← safe (data .: "model");
  name ← textField (data .: "name");
  labels ← textListField (data .: "labels");
  plannerMode ← opt_res (enumValue SessionPlannerModeV3) (data .: "plannerMode");
  contextLimitTokens ← opt_res positiveField (data .: "contextLimitTokens");
  fork ← opt_res fork_of (data .: "fork");
  Ok (session_created {| cr_cwd := cwd; cr_provider := provider; cr_model := model; cr_name := name;
    cr_labels := labels; cr_plannerMode := plannerMode; cr_contextLimitTokens := contextLimitTokens;
    cr_fork := fork |}).

Definition session_metadata_updated_payload data : res SessionEntryData :=
  exactData data [] ["name"; "labels"; "provider"; "model"; "activeLeafId"; "plannerMode";
                     "contextLimitTokens"]%string;;
  invalid_if (Nat.eqb (length (keys data)) 0);;
  name ← optionalBounded (data .: "name");
  labels ← opt_res textListField (data .: "labels");
  provider ← optionalSafe (data .: "provider");
  model ← optionalSafe (data .: "model");
  activeLeafId ← optionalSafe (data .: "activeLeafId");
  plannerMode ← opt_res (enumValue SessionPlannerModeV3) (data .: "plannerMode");
  contextLimitTokens ← opt_res positiveField (data .: "contextLimitTokens");
  Ok (session_metadata_updated {| mu_name := name; mu_labels := labels; mu_provider := provider;
    mu_model := model; mu_activeLeafId := activeLeafId; mu_plannerMode := plannerMode;
    mu_contextLimitTokens := contextLimitTokens |}).

Definition session_plan_updated_payload data : res SessionEntryData :=
  exactData data ["plan"]%string [];;
  match data .: "plan" with JNull => Ok tt | plan => compactPlanValue plan end;;
  Ok (session_plan_updated (data .: "plan")).

Definition lifecycle_payload (entry : option string → SessionEntryData) data : res SessionEntryData :=
  exactData data [] ["reason"]%string;;
  reason ← optionalBounded (data .: "reason");
  Ok (entry reason).

Definition session_forked_payload data : res SessionEntryData :=
  exactData data ["childSessionId"; "sourceEntryId"]%string [];;
  childSessionId ← safe (data .: "childSessionId");
  sourceEntryId ← safe (data .: "sourceEntryId");
  Ok (session_forked {| fo_childSessionId := childSessionId; fo_sourceEntryId := sourceEntryId |}).

Definition session_deleted_payload data : res SessionEntryData :=
  (if is_str (data .: "mode") "tombstone" then
    exactData data ["mode"]%string ["reason"]%string;;
    optionalBounded (data .: "reason");; Ok tt
  else if is_str (data .: "mode") "purge_receipt" then
    exactData data ["mode"; "receiptRef"; "receiptDigest"]%string [];;
    textField (data .: "receiptRef");;
    digestField (data .: "receiptDigest");; Ok tt
  else invalid);;
  Ok (session_deleted (JObj data)).

Definition message_committed_payload data : res SessionEntryData :=
  exactData data ["messageId"; "message"]%string [];;
  messageId ← safe (data .: "messageId");
  providerMessage (data .: "message");;
  Ok (message_committed messageId (data .: "message")).

Definition run_started_payload data (runId : jsval) : res SessionEntryData :=
  requireRunId runId;;
  exactData data ["clientRequestId"]%string ["planPolicy"]%string;;
  clientRequestId ← safe (data .: "clientRequestId");
  planPolicy ← opt_res (enumValue SessionPlanPolicyV3) (data .: "planPolicy");
  Ok (run_started clientRequestId planPolicy).

Definition run_terminal_payload data (runId : jsval) : res SessionEntryData :=
  requireRunId runId;;
  exactData data ["status"; "usage"]%string ["errorCode"]%string;;
  status ← enumValue RunTerminalStatus (data .: "status");
  usage ← providerUsageValue (data .: "usage");
  errorCode ← optionalSafe (data .: "errorCode");
  Ok (run_terminal {| rt_status := status; rt_usage := usage; rt_errorCode := errorCode |}).

Definition command_invoked_payload data : res SessionEntryData :=
  exactData data ["commandId"; "descriptorId"; "descriptorDigest"; "persistence"]%string
    ["argumentDigest"; "resultRef"]%string;;
  commandId ← safe (data .: "commandId");
  safe (data .: "descriptorId");;
  digestField (data .: "descriptorDigest");;
  literal ["plaintext"; "redacted"; "digest"; "none"]%string (data .: "persistence");;
  when_defined digestField (data .: "argumentDigest");;
  resultRef ← optionalBounded (data .: "resultRef");
  Ok (command_invoked commandId (JObj data) resultRef).

Definition skill_invoked_payload data : res SessionEntryData :=
  exactData data ["invocationId"; "invocation"]%string [];;
  invocationId ← safe (data .: "invocationId");
  skillInvocation (data .: "invocation");;
  Ok (skill_invoked invocationId (data .: "invocation")).

Definition permission_decided_payload data : res SessionEntryData :=
  exactData data ["requestId"; "toolCallId"; "tool"; "decision"; "ruleDigest"]%string [];;
  requestId ← safe (data .: "requestId");
  safe (data .: "toolCallId");;
  safe (data .: "tool");;
  literal ["allow_once"; "allow_always"; "deny"]%string (data .: "decision");;
  digestField (data .: "ruleDigest");;
  Ok (permission_decided requestId (JObj data)).

Definition usage_recorded_payload data : res SessionEntryData :=
  exactData data ["source"; "usage"]%string [];;
  source ← literal ["provider"; "tool"; "subagent"]%string (data .: "source");
  usage ← budgetUsageValue (data .: "usage");
  Ok (usage_recorded source usage).

Definition planner_generation_recorded_payload data (runId : jsval) : res SessionEntryData :=
  exactData data ["phase"; "generatorId"; "source"; "status"; "fallbackUsed"]%string
    ["failureCode"; "fallbackFromCode"; "route"]%string;;
  phase ← literal ["initial"; "replan"]%string (data .: "phase");
  generatorId ← safe (data .: "generatorId");
  source ← literal ["model"; "fallback"]%string (data .: "source");
  status ← literal ["succeeded"; "failed"]%string (data .: "status");
  fallbackUsed ← booleanField (data .: "fallbackUsed");
  route ← opt_res (literal ["parent_only"; "dag"]%string) (data .: "route");
  failureCode ← optionalSafe (data .: "failureCode");
  fallbackFromCode ← optionalSafe (data .: "fallbackFromCode");
  invalid_if (negb (Bool.eqb (is_str (data .: "source") "fallback") fallbackUsed)
              || negb (Bool.eqb (is_str (data .: "status") "failed") (negb (is_undef (data .: "failureCode"))))
              || negb (Bool.eqb fallbackUsed (negb (is_undef (data .: "fallbackFromCode")))));;
  invalid_if (is_undef runId);;
  Ok (planner_generation_recorded {| gn_phase := phase; gn_generatorId := generatorId;
    gn_source := source; gn_status := status; gn_fallbackUsed := fallbackUsed; gn_route := route;
    gn_failureCode := failureCode; gn_fallbackFromCode := fallbackFromCode |}).

Definition compaction_created_payload data : res SessionEntryData :=
  exactData data ["checkpointId"; "coveredStartSequence"; "coveredEndSequence"; "retainedStartSequence";
    "summary"; "provenance"; "summaryDigest"; "summaryTokens"; "reason"]%string
    ["previousCheckpointId"; "checkpoint"]%string;;
  checkpointId ← safe (data .: "checkpointId");
  startSequence ← positiveField (data .: "coveredStartSequence");
  endSequence ← positiveField (data .: "coveredEndSequence");
  invalid_if (endSequence <? startSequence);;
  previousCheckpointId ← optionalSafe (data .: "previousCheckpointId");
  retained ← positiveField (data .: "retainedStartSequence");
  summary ← compactionSummary (data .: "summary");
  compactionProvenance (data .: "provenance");;
  summaryDigest ← digestField (data .: "summaryDigest");
  invalid_if (bool_decide (summaryDigest ≠ sessionCompactionSummaryDigestV3 summary));;
  summaryTokens ← nonNegative (data .: "summaryTokens");
  reason ← enumValue SessionCompactionReasonV3 (data .: "reason");
  when_defined checkpointValue (data .: "checkpoint");;
  Ok (compaction_created {| cc_checkpointId := checkpointId; cc_coveredStartSequence := startSequence;
    cc_coveredEndSequence := endSequence; cc_previousCheckpointId := previousCheckpointId;
    cc_retainedStartSequence := retained; cc_summary := summary; cc_provenance := data .: "provenance";
    cc_summaryDigest := summaryDigest; cc_summaryTokens := summaryTokens; cc_reason := reason;
    cc_checkpoint := opt id (data .: "checkpoint") |}).

Definition plan_created_payload data : res SessionEntryData :=
  exactData data ["planId"; "planRevision"; "objective"; "state"]%string [];;
  planId ← safe (data .: "planId");
  planRevision ← positiveField (data .: "planRevision");
  objective ← textField (data .: "objective");
  state ← enumValue PlanStateV1 (data .: "state");
  Ok (plan_created {| pc_planId := planId; pc_planRevision := planRevision; pc_objective := objective;
    pc_state := state |}).

Definition plan_state_changed_payload data : res SessionEntryData :=
  exactData data ["planId"; "planRevision"; "state"]%string [];;
  planId ← safe (data .: "planId");
  planRevision ← positiveField (data .: "planRevision");
  state ← enumValue PlanStateV1 (data .: "state");
  Ok (plan_state_changed {| psc_planId := planId; psc_planRevision := planRevision; psc_state := state |}).

(** [replan] is applied or makes no progress and names no step; every other
    action is selected, for a step unless the user is asked. *)
Definition decision_rejected (action : PlannerDecisionActionV3) (outcome : string) (stepId : jsval) : bool :=
  match action with
  | D_replan => negb (memb outcome ["applied"; "no_progress"]%string) || negb (is_undef stepId)
  | D_ask_user => negb (String.eqb outcome "selected") || negb (is_undef stepId)
  | D_retry | D_continue | D_fresh_worker => negb (String.eqb outcome "selected") || is_undef stepId
  end.

Definition plan_decision_recorded_payload data : res SessionEntryData :=
  exactData data ["planId"; "planRevision"; "action"; "outcome"; "reasonCode"]%string
    ["stepId"; "attemptId"]%string;;
  planId ← safe (data .: "planId");
  planRevision ← positiveField (data .: "planRevision");
  action ← enumValue PlannerDecisionActionV3 (data .: "action");
  outcome ← literal ["selected"; "applied"; "no_progress"]%string (data .: "outcome");
  reasonCode ← safe (data .: "reasonCode");
  stepId ← optionalSafe (data .: "stepId");
  attemptId ← optionalSafe (data .: "attemptId");
  invalid_if (negb (Bool.eqb (is_undef (data .: "attemptId")) (is_undef (data .: "stepId"))));;
  invalid_if (decision_rejected action outcome (data .: "stepId"));;
  Ok (plan_decision_recorded {| pd_planId := planId; pd_planRevision := planRevision;
    pd_action := action; pd_outcome := outcome; pd_reasonCode := reasonCode; pd_stepId := stepId;
    pd_attemptId := attemptId |}).

(** The loop of [replanReuseProofs], with the steps seen so far. *)
Fixpoint reuse_proofs (seen : list string) (l : list jsval) : res (list ReuseProof) :=
  match l with
  | [] => Ok []
  | value :: rest =>
      proof ← recordField value;
      exactData proof ["stepId"; "previousInputDigest"; "nextInputDigest"]%string [];;
      stepId ← safe (proof .: "stepId");
      previousInputDigest ← digestField (proof .: "previousInputDigest");
      nextInputDigest ← digestField (proof .: "nextInputDigest");
      invalid_if (memb stepId seen);;
      proofs ← reuse_proofs (stepId :: seen) rest;
      Ok ({| rp_stepId := stepId; rp_previousInputDigest := previousInputDigest;
             rp_nextInputDigest := nextInputDigest |} :: proofs)
  end.
Definition replanReuseProofs (value : jsval) : res (list ReuseProof) :=
  l ← listField value 64; reuse_proofs [] l.

Definition plan_revised_payload data : res SessionEntryData :=
  exactData data ["planId"; "fromRevision"; "toRevision"; "objective"; "state"; "reuseProofs"]%string [];;
  planId ← safe (data .: "planId");
  fromRevision ← positiveField (data .: "fromRevision");
  toRevision ← positiveField (data .: "toRevision");
  objective ← textField (data .: "objective");
  invalid_if (negb (is_str (data .: "state") "running"));;
  reuseProofs ← replanReuseProofs (data .: "reuseProofs");
  Ok (plan_revised {| pr_planId := planId; pr_fromRevision := fromRevision; pr_toRevision := toRevision;
    pr_objective := objective; pr_reuseProofs := reuseProofs |}).

(** The step of the payload, with no attempts: [validatePlanStepV1] on its fields. *)
Definition validatePlanStepPayload data : res PlanStepV1 :=
  rethrow "SESSION_ENTRY_INVALID" (validatePlanStepV1 (JObj [
    ("stepId", data .: "stepId"); ("title", data .: "title"); ("order", data .: "order");
    ("state", data .: "state"); ("dependencies", data .: "dependencies"); ("access", data .: "access");
    ("capabilities", data .: "capabilities"); ("conflictKeys", data .: "conflictKeys");
    ("criteria", data .: "criteria"); ("budget", data .: "budget"); ("maxAttempts", data .: "maxAttempts");
    ("attemptIds", JArr [])]%string)).

Definition step_created_payload data : res SessionEntryData :=
  exactData data ["planId"; "planRevision"; "stepId"; "title"; "order"; "state"; "dependencies"; "access";
    "capabilities"; "conflictKeys"; "criteria"; "budget"; "maxAttempts"]%string [];;
  planId ← safe (data .: "planId");
  planRevision ← positiveField (data .: "planRevision");
  stepId ← safe (data .: "stepId");
  title ← textField (data .: "title");
  order ← nonNegative (data .: "order");
  state ← enumValue PlanStepStateV1 (data .: "state");
  step ← validatePlanStepPayload data;
  Ok (step_created {| sd_planId := planId; sd_planRevision := planRevision; sd_stepId := stepId;
    sd_title := title; sd_order := order; sd_state := state; sd_dependencies := st_dependencies step;
    sd_access := st_access step; sd_capabilities := st_capabilities step;
    sd_conflictKeys := st_conflictKeys step; sd_criteria := st_criteria step;
    sd_budget := st_budget step; sd_maxAttempts := st_maxAttempts step |}).

Definition step_state_changed_payload data : res SessionEntryData :=
  exactData data ["planId"; "planRevision"; "stepId"; "state"]%string
    ["reason"; "newAttemptId"; "errorCode"]%string;;
  planId ← safe (data .: "planId");
  planRevision ← positiveField (data .: "planRevision");
  stepId ← safe (data .: "stepId");
  state ← enumValue PlanStepStateV1 (data .: "state");
  invalid_if (negb (Bool.eqb (is_undef (data .: "reason")) (is_undef (data .: "newAttemptId"))));;
  reason ← opt_res (enumValue StepChangeReason) (data .: "reason");
  newAttemptId ← optionalSafe (data .: "newAttemptId");
  errorCode ← optionalSafe (data .: "errorCode");
  invalid_if (negb (is_undef (data .: "errorCode"))
              && negb (bool_decide (state ∈ [S_failed; S_blocked; S_cancelled; S_interrupted])));;
  Ok (step_state_changed {| ssc_planId := planId; ssc_planRevision := planRevision;
    ssc_stepId := stepId; ssc_state := state; ssc_reason := reason; ssc_newAttemptId := newAttemptId;
    ssc_errorCode := errorCode |}).

Definition attempt_created_payload data : res SessionEntryData :=
  exactData data ["planId"; "planRevision"; "stepId"; "attemptId"; "ordinal"; "state"]%string
    ["childRunId"]%string;;
  planId ← safe (data .: "planId");
  planRevision ← positiveField (data .: "planRevision");
  stepId ← safe (data .: "stepId");
  attemptId ← safe (data .: "attemptId");
  ordinal ← positiveField (data .: "ordinal");
  state ← enumValue PlanAttemptStateV1 (data .: "state");
  childRunId ← optionalSafe (data .: "childRunId");
  Ok (attempt_created {| ac_planId := planId; ac_planRevision := planRevision; ac_stepId := stepId;
    ac_attemptId := attemptId; ac_ordinal := ordinal; ac_state := state; ac_childRunId := childRunId |}).

Definition attempt_state_changed_payload data : res SessionEntryData :=
  exactData data ["planId"; "planRevision"; "stepId"; "attemptId"; "state"]%string ["errorCode"]%string;;
  planId ← safe (data .: "planId");
  planRevision ← positiveField (data .: "planRevision");
  stepId ← safe (data .: "stepId");
  attemptId ← safe (data .: "attemptId");
  state ← enumValue PlanAttemptStateV1 (data .: "state");
  errorCode ← optionalSafe (data .: "errorCode");
  invalid_if (negb (is_undef (data .: "errorCode"))
              && negb (bool_decide (state ∈ [A_execution_failed; A_rejected; A_cancelled; A_interrupted])));;
  Ok (attempt_state_changed {| asc_planId := planId; asc_planRevision := planRevision;
    asc_stepId := stepId; asc_attemptId := attemptId; asc_state := state; asc_errorCode := errorCode |}).

Definition attempt_execution_completed_payload data : res SessionEntryData :=
  exactData data ["planId"; "planRevision"; "stepId"; "attemptId"; "status"]%string [];;
  planId ← safe (data .: "planId");
  planRevision ← positiveField (data .: "planRevision");
  stepId ← safe (data .: "stepId");
  attemptId ← safe (data .: "attemptId");
  status ← enumValue SubagentStatus (data .: "status");
  Ok (attempt_execution_completed {| aec_planId := planId; aec_planRevision := planRevision;
    aec_stepId := stepId; aec_attemptId := attemptId; aec_status := status |}).

Definition subagent_execution_bound_payload data : res SessionEntryData :=
  exactData data ["planId"; "planRevision"; "stepId"; "attemptId"; "childRunId"; "request";
    "retrySafety"]%string [];;
  planId ← safe (data .: "planId");
  stepId ← safe (data .: "stepId");
  attemptId ← safe (data .: "attemptId");
  childRunId ← safe (data .: "childRunId");
  planRevision ← positiveField (data .: "planRevision");
  retrySafety ← enumValue SessionRetrySafetyV3 (data .: "retrySafety");
  request ← rethrow "SESSION_ENTRY_INVALID" (validateSubagentExecutionRequestV1 (data .: "request"));
  invalid_if (bool_decide (sr_childRunId request ≠ childRunId));;
  Ok (subagent_execution_bound {| seb_planId := planId; seb_planRevision := planRevision;
    seb_stepId := stepId; seb_attemptId := attemptId; seb_childRunId := childRunId;
    seb_request := data .: "request"; seb_retrySafety := retrySafety |}).

Definition subagent_result_recorded_payload data : res SessionEntryData :=
  exactData data ["planId"; "planRevision"; "stepId"; "attemptId"; "childRunId"; "resultRef";
    "resultDigest"; "status"]%string [];;
  planId ← safe (data .: "planId");
  stepId ← safe (data .: "stepId");
  attemptId ← safe (data .: "attemptId");
  childRunId ← safe (data .: "childRunId");
  planRevision ← positiveField (data .: "planRevision");
  resultRef ← textField (data .: "resultRef");
  resultDigest ← digestField (data .: "resultDigest");
  status ← enumValue SubagentStatus (data .: "status");
  Ok (subagent_result_recorded {| srr_planId := planId; srr_planRevision := planRevision;
    srr_stepId := stepId; srr_attemptId := attemptId; srr_childRunId := childRunId;
    srr_resultRef := resultRef; srr_resultDigest := resultDigest; srr_status := status |}).

Definition verification_recorded_payload data : res SessionEntryData :=
  exactData data ["planId"; "planRevision"; "stepId"; "attemptId"; "verificationId"; "verifier"; "status";
    "evidenceRefs"]%string ["code"; "retryable"]%string;;
  planId ← safe (data .: "planId");
  stepId ← safe (data .: "stepId");
  attemptId ← safe (data .: "attemptId");
  verificationId ← safe (data .: "verificationId");
  planRevision ← positiveField (data .: "planRevision");
  verifier ← enumValue Verifier (data .: "verifier");
  status ← enumValue VerificationStatus (data .: "status");
  evidenceRefs ← textListField (data .: "evidenceRefs");
  code ← optionalSafe (data .: "code");
  retryable ← opt_res booleanField (data .: "retryable");
  Ok (verification_recorded {| vrd_planId := planId; vrd_planRevision := planRevision;
    vrd_stepId := stepId; vrd_attemptId := attemptId; vrd_verificationId := verificationId;
    vrd_verifier := verifier; vrd_status := status; vrd_evidenceRefs := evidenceRefs; vrd_code := code;
    vrd_retryable := retryable |}).

Definition artifact_of (value : jsval) : res ArtifactReference :=
  o ← recordField value;
  exactData o ["artifactId"; "digest"; "mimeType"; "bytes"]%string [];;
  artifactId ← safe (o .: "artifactId");
  artifactDigest ← digestField (o .: "digest");
  mimeType ← textField (o .: "mimeType");
  bytes ← nonNegative (o .: "bytes");
  Ok {| ar_artifactId := artifactId; ar_digest := artifactDigest; ar_mimeType := mimeType; ar_bytes := bytes |}.

Definition artifact_referenced_payload data : res SessionEntryData :=
  exactData data ["owner"; "artifact"]%string [];;
  owner ← literal ["message"; "run"; "command"; "compaction"; "subagent"; "verification";
    "review_plan_definition"; "review_evidence"; "review_decision"; "workflow_effect_request"]%string
    (data .: "owner");
  artifact ← artifact_of (data .: "artifact");
  Ok (artifact_referenced owner artifact).

Definition control_authorized_payload data : res SessionEntryData :=
  exactData data ["authorizationRequestId"; "challengeEnvelopeDigest"; "fact"]%string [];;
  authorizationRequestId ← safe (data .: "authorizationRequestId");
  challengeEnvelopeDigest ← digestField (data .: "challengeEnvelopeDigest");
  fact ← verifiedPlanControlFact (data .: "fact");
  Ok (control_authorized {| ca_authorizationRequestId := authorizationRequestId;
    ca_challengeEnvelopeDigest := challengeEnvelopeDigest; ca_fact := fact |}).

Definition control_turn_bound_payload data : res SessionEntryData :=
  exactData data ["controlEventId"; "runId"; "providerTurnId"]%string [];;
  controlEventId ← safe (data .: "controlEventId");
  runId ← safe (data .: "runId");
  providerTurnId ← safe (data .: "providerTurnId");
  Ok (control_turn_bound controlEventId runId providerTurnId).

Definition control_discarded_payload data : res SessionEntryData :=
  exactData data ["controlEventId"; "disposition"]%string [];;
  controlEventId ← safe (data .: "controlEventId");
  disposition ← enumValue ControlDisposition (data .: "disposition");
  Ok (control_discarded controlEventId disposition).

Definition control_consumed_payload data : res SessionEntryData :=
  exactData data ["controlEventId"; "action"; "targetDigest"]%string [];;
  controlEventId ← safe (data .: "controlEventId");
  action ← enumValue ControlAction (data .: "action");
  targetDigest ← digestField (data .: "targetDigest");
  Ok (control_consumed controlEventId action targetDigest).

Definition review_budget_reserved_payload data : res SessionEntryData :=
  exactData data ["reviewRequestId"; "attemptNumber"; "reservation"]%string [];;
  reviewRequestId ← safe (data .: "reviewRequestId");
  attemptNumber ← positiveField (data .: "attemptNumber");
  reservation ← providerUsageValue (data .: "reservation");
  invalid_if match data .: "reservation" with JObj o => Nat.eqb (length (keys o)) 0 | _ => false end;;
  Ok (review_budget_reserved {| rr_reviewRequestId := reviewRequestId; rr_attemptNumber := attemptNumber;
    rr_reservation := reservation |}).

Definition review_budget_settled_payload data : res SessionEntryData :=
  exactData data ["reviewRequestId"; "attemptNumber"; "disposition"; "usage"]%string [];;
  reviewRequestId ← safe (data .: "reviewRequestId");
  attemptNumber ← positiveField (data .: "attemptNumber");
  disposition ← enumValue ReviewBudgetDisposition (data .: "disposition");
  usage ← providerUsageValue (data .: "usage");
  Ok (review_budget_settled {| rs_reviewRequestId := reviewRequestId; rs_attemptNumber := attemptNumber;
    rs_disposition := disposition; rs_usage := usage |}).

Definition working_plan_payload (type : string) data : res SessionEntryData :=
  event ← validateWorkingPlanEventV1 type data;
  Ok match event with
     | plan_saved operationId inputDigest plan => working_plan_saved operationId inputDigest plan
     | review_event review =>
         if String.eqb type "working_plan.reviewed" then working_plan_reviewed review
         else working_plan_review_requested review
     end.
End Payloads.

(** ** The entry *)

Section Entry.
Context `{JsEngine} `{JsCrypto} `{RP : ReviewPlanContract}.

(** The [switch] of [validatePayload]. *)
Definition payload_cases : list (string * (jsobj → jsval → res SessionEntryData)) :=
  [("session.created", λ data _, session_created_payload data);
   ("session.metadata_updated", λ data _, session_metadata_updated_payload data);
   ("session.plan_updated", λ data _, session_plan_updated_payload data);
   ("session.closed", λ data _, lifecycle_payload session_closed data);
   ("session.reopened", λ data _, lifecycle_payload session_reopened data);
   ("session.forked", λ data _, session_forked_payload data);
   ("session.deleted", λ data _, session_deleted_payload data);
   ("message.committed", λ data _, message_committed_payload data);
   ("run.started", run_started_payload);
   ("run.terminal", run_terminal_payload);
   ("command.invoked", λ data _, command_invoked_payload data);
   ("skill.invoked", λ data _, skill_invoked_payload data);
   ("permission.decided", λ data _, permission_decided_payload data);
   ("usage.recorded", λ data _, usage_recorded_payload data);
   ("planner.generation_recorded", planner_generation_recorded_payload);
   ("compaction.created", λ data _, compaction_created_payload data);
   ("plan.created", λ data _, plan_created_payload data);
   ("plan.state_changed", λ data _, plan_state_changed_payload data);
   ("plan.decision_recorded", λ data _, plan_decision_recorded_payload data);
   ("plan.revised", λ data _, plan_revised_payload data);
   ("step.created", λ data _, step_created_payload data);
   ("step.state_changed", λ data _, step_state_changed_payload data);
   ("attempt.created", λ data _, attempt_created_payload data);
   ("attempt.state_changed", λ data _, attempt_state_changed_payload data);
   ("attempt.execution_completed", λ data _, attempt_execution_completed_payload data);
   ("subagent.execution_bound", λ data _, subagent_execution_bound_payload data);
   ("subagent.result_recorded", λ data _, subagent_result_recorded_payload data);
   ("verification.recorded", λ data _, verification_recorded_payload data);
   ("artifact.referenced", λ data _, artifact_referenced_payload data);
   ("control.authorized", λ data _, control_authorized_payload data);
   ("control.turn_bound", λ data _, control_turn_bound_payload data);
   ("control.discarded", λ data _, control_discarded_payload data);
   ("control.consumed", λ data _, control_consumed_payload data);
   ("review_budget.reserved", λ data _, review_budget_reserved_payload data);
   ("review_budget.settled", λ data _, review_budget_settled_payload data)]%string.

Definition WORKING_PLAN_TYPES : list string :=
  ["working_plan.saved"; "working_plan.review_requested"; "working_plan.reviewed"]%string.

Definition validatePayload (type : string) (data : jsobj) (runId : jsval) : res SessionEntryData :=
  if memb type WORKING_PLAN_TYPES then working_plan_payload type data
  else if isReviewPlanEventTypeV1 type then
    check_review_plan_event {| rpe_type := type; rpe_sequence := 1; rpe_revision := 1;
      rpe_runId := match runId with JStr s => Some s | _ => None end; rpe_correlation := None;
      rpe_data := JObj data |};;
    Ok (review_plan_event type (JObj data))
  else match mget type payload_cases with
       | Some check => check data runId
       | None => invalid
       end.

Definition CORRELATION_KEYS : list string :=
  ["traceId"; "parentRunId"; "childRunId"; "planId"; "stepId"; "attemptId"; "toolCallId"; "commandId";
   "itemId"; "itemAttemptId"; "executionRequestId"; "reviewRequestId"; "invocationId";
   "runtimeRequestId"; "controlEventId"; "resolutionRequestId"]%string.

Definition validCorrelation (value : jsval) : bool :=
  match value with
  | JObj o => negb (Nat.eqb (length (keys o)) 0) && onlyKeys o CORRELATION_KEYS && forallb safeId o.*2
  | _ => false
  end.
Definition correlation_of (value : jsval) : SessionEntryCorrelationV3 :=
  match value with JObj o => prod_map id js_str <$> o | _ => [] end.

(** The envelope guards of [validateSessionEntryV3]. *)
Definition envelope_rejected (input : jsobj) : bool :=
  negb (onlyKeys input ["schemaVersion"; "entryId"; "sessionId"; "sequence"; "revision"; "timestamp"; "type";
                        "runId"; "correlation"; "data"]%string)
  || negb (safeId (input .: "entryId")) || negb (safeId (input .: "sessionId"))
  || negb (positiveInteger (input .: "sequence")) || negb (positiveInteger (input .: "revision"))
  || negb (canonicalInstant (input .: "timestamp")) || negb (is_string (input .: "type"))
  || (negb (is_undef (input .: "runId")) && negb (safeId (input .: "runId")))
  || (negb (is_undef (input .: "correlation")) && negb (validCorrelation (input .: "correlation")))
  || negb (is_record (input .: "data")).

Definition fields_of (value : jsval) : jsobj := match value with JObj o => o | _ => [] end.

Definition validateSessionEntryV3 (value : jsval) : res SessionEntryV3 :=
  input ← recordField value;
  fail_if (negb (is_int (input .: "schemaVersion") 3)) "SESSION_ENTRY_VERSION_UNSUPPORTED";;
  validateJsonValue value;;
  invalid_if (envelope_rejected input);;
  data ← validatePayload (js_str (input .: "type")) (fields_of (input .: "data")) (input .: "runId");
  Ok {| en_entryId := js_str (input .: "entryId"); en_sessionId := js_str (input .: "sessionId");
        en_sequence := js_int (input .: "sequence"); en_revision := js_int (input .: "revision");
        en_timestamp := js_str (input .: "timestamp"); en_runId := opt js_str (input .: "runId");
        en_correlation := correlation_of (input .: "correlation"); en_data := data |}.

(** [reduceSessionEntriesV3] on the values of the journal. *)
Definition reduceSessionJournalV3 (input : list jsval) : res SessionProjectionV3 :=
  fail_if (Nat.eqb (length input) 0 || (MAX_ENTRIES <? Z.of_nat (length input)))
    "SESSION_REDUCER_FIRST_ENTRY_INVALID";;
  entries ← mapM validateSessionEntryV3 input;
  reduceSessionEntriesV3 entries.
End Entry.
