(* ===== verification/SessionEntrySpec.v ===== *)
(** * What a valid Session entry is

    Inversion of the field checks of SessionEntry.v, the well-formedness of typed
    entries, and the proof that [validateSessionEntryV3] establishes it. *)

From S2P Require Import Prelude Js JsOps CanonicalJson Plan PlanSpec Subagent WorkingPlan ReviewPlan ReviewPlanEvents ReviewPlanSpec Session SessionReducer SessionEntry.
Local Open Scope Z_scope.

(** ** Fields *)

Definition text_ok (s : string) : Prop := byteLength s ≤ MAX_TEXT_BYTES.
Definition texts_ok (l : list string) : Prop := Z.of_nat (length l) ≤ MAX_LIST_ITEMS ∧ Forall text_ok l.
Definition positive_ok (z : Z) : Prop := 0 < z ≤ MAX_SAFE_INTEGER.
Definition count_ok (z : Z) : Prop := 0 ≤ z ≤ MAX_SAFE_INTEGER.
Definition when {A} (P : A → Prop) (o : option A) : Prop := from_option P True o.

Lemma invalid_if_Ok cond u : invalid_if cond = Ok u ↔ cond = false.
Proof. apply fail_if_Ok. Qed.

Lemma safe_Ok v s : safe v = Ok s ↔ v = JStr s ∧ SAFE_ID s = true.
Proof.
  destruct v as [| | | |t| | |]; cbn [safe]; try naive_solver. rewrite bind_Ok. split.
  - intros ([] & Hs%invalid_if_Ok & [= ->]). by apply negb_false_iff in Hs.
  - intros [[= ->] Hs]. exists tt. split; [|done]. apply invalid_if_Ok. by rewrite Hs.
Qed.
Lemma digestField_Ok v s : digestField v = Ok s ↔ v = JStr s ∧ SHA256 s = true.
Proof.
  destruct v as [| | | |t| | |]; cbn [digestField]; try naive_solver. rewrite bind_Ok. split.
  - intros ([] & Hs%invalid_if_Ok & [= ->]). by apply negb_false_iff in Hs.
  - intros [[= ->] Hs]. exists tt. split; [|done]. apply invalid_if_Ok. by rewrite Hs.
Qed.
Lemma textField_Ok v s : textField v = Ok s ↔ v = JStr s ∧ text_ok s.
Proof.
  unfold text_ok. destruct v as [| | | |t| | |]; cbn [textField]; try naive_solver. rewrite bind_Ok. split.
  - intros ([] & Hb%invalid_if_Ok & [= ->]). split; [done|]. lia.
  - intros [[= ->] Hb]. exists tt. split; [|done]. apply invalid_if_Ok. lia.
Qed.
Lemma positiveField_Ok v z : positiveField v = Ok z ↔ v = JInt z ∧ positive_ok z.
Proof.
  unfold positiveField, positive_ok. rewrite bind_Ok. split.
  - intros ([] & Hp%invalid_if_Ok & [= <-]). apply negb_false_iff, positiveInteger_inv in Hp as (z & -> & ?). done.
  - intros [-> Hz]. exists tt. split; [|done]. apply invalid_if_Ok, negb_false_iff. by apply positiveInteger_int.
Qed.
Lemma nonNegative_Ok v z : nonNegative v = Ok z ↔ v = JInt z ∧ count_ok z.
Proof.
  unfold nonNegative, count_ok. rewrite bind_Ok. split.
  - intros ([] & Hp%invalid_if_Ok & [= <-]). apply negb_false_iff, nonNegativeInteger_inv in Hp as (z & -> & ?). done.
  - intros [-> Hz]. exists tt. split; [|done]. apply invalid_if_Ok, negb_false_iff. by apply nonNegativeInteger_int.
Qed.
Lemma booleanField_Ok v b : booleanField v = Ok b ↔ v = JBool b.
Proof. destruct v; naive_solver. Qed.
Lemma enumValue_Ok A `{JsEnum A} v a : enumValue A v = Ok a ↔ v = JStr (enum_name a).
Proof. unfold enumValue. rewrite <-enum_of_Some. destruct (enum_of v); naive_solver. Qed.
Lemma literal_Ok names v s : literal names v = Ok s ↔ v = JStr s ∧ s ∈ names.
Proof.
  destruct v as [| | | |t| | |]; cbn; try naive_solver. rewrite bind_Ok. split.
  - intros ([] & Hm%invalid_if_Ok & [= ->]). apply negb_false_iff, memb_true in Hm. done.
  - intros [[= ->] Hm]. exists tt. split; [|done]. by apply invalid_if_Ok, negb_false_iff, memb_true.
Qed.
Lemma opt_res_Ok {A} (f : jsval → res A) v o :
  opt_res f v = Ok o ↔ (v = JUndef ∧ o = None) ∨ (v ≠ JUndef ∧ ∃ a, f v = Ok a ∧ o = Some a).
Proof. unfold opt_res. destruct v; rewrite ?fmap_Ok; naive_solver. Qed.

Lemma recordField_Ok v o : recordField v = Ok o ↔ v = JObj o.
Proof. destruct v; naive_solver. Qed.
Lemma listField_Ok v n l : listField v n = Ok l ↔ v = JArr l ∧ Z.of_nat (length l) ≤ n.
Proof.
  destruct v as [| | | | |k| |]; cbn [listField]; try naive_solver. rewrite bind_Ok. split.
  - intros ([] & Hl%invalid_if_Ok & [= ->]). split; [done|]. lia.
  - intros [[= ->] Hl]. exists tt. split; [|done]. apply invalid_if_Ok. lia.
Qed.
Lemma textListField_Ok v l : textListField v = Ok l ↔ v = JStrs l ∧ texts_ok l.
Proof.
  unfold textListField, texts_ok, JStrs. rewrite bind_Ok. split.
  - intros (k & [-> Hk]%listField_Ok & Hl%mapM_Ok). rewrite <-(Forall2_length _ _ _ Hl). split; [|split; [done|]].
    + f_equal. clear Hk. induction Hl as [|x s k l [-> _]%textField_Ok _ IH]; [done|]. rewrite fmap_cons. by f_equal.
    + clear Hk. induction Hl as [|x s k l [_ ?]%textField_Ok _ IH]; by constructor.
  - intros [-> [Hl Ht]]. exists (JStr <$> l). split; [by apply listField_Ok; rewrite length_fmap|].
    apply mapM_Ok. induction Ht as [|s l Hs _ IH]; [constructor|]. rewrite fmap_cons.
    constructor; [by apply textField_Ok|]. apply IH. cbn in Hl. lia.
Qed.

(** An optional field is absent or has what its check establishes. *)
Lemma opt_res_when {A} (f : jsval → res A) (P : A → Prop) v o :
  (∀ a, f v = Ok a → P a) → opt_res f v = Ok o → when P o.
Proof. intros HP [[_ ->]|(_ & a & Ha & ->)]%opt_res_Ok; [done|]. by apply HP. Qed.
Lemma optionalSafe_Ok v o : optionalSafe v = Ok o → when (λ s, SAFE_ID s = true) o ∧ (o = None ↔ v = JUndef).
Proof.
  intros Ho. split.
  - revert Ho. apply opt_res_when. by intros s [_ ?]%safe_Ok.
  - apply opt_res_Ok in Ho as [[-> ->]|(Hv & a & _ & ->)]; naive_solver.
Qed.
Lemma optionalBounded_Ok v o : optionalBounded v = Ok o → when text_ok o.
Proof. apply opt_res_when. by intros s [_ ?]%textField_Ok. Qed.

(** Every successful step of a check, turned into what it establishes. *)
Ltac field_inv :=
  match goal with
  | H : invalid_if _ = Ok _ |- _ => apply invalid_if_Ok in H
  | H : safe _ = Ok _ |- _ => apply safe_Ok in H as [? ?]
  | H : requireRunId _ = Ok _ |- _ => apply safe_Ok in H as [? ?]
  | H : digestField _ = Ok _ |- _ => apply digestField_Ok in H as [? ?]
  | H : textField _ = Ok _ |- _ => apply textField_Ok in H as [? ?]
  | H : positiveField _ = Ok _ |- _ => apply positiveField_Ok in H as [? ?]
  | H : nonNegative _ = Ok _ |- _ => apply nonNegative_Ok in H as [? ?]
  | H : booleanField _ = Ok _ |- _ => apply booleanField_Ok in H
  | H : enumValue _ _ = Ok _ |- _ => apply enumValue_Ok in H
  | H : literal _ _ = Ok _ |- _ => apply literal_Ok in H as [? ?]
  | H : textListField _ = Ok _ |- _ => apply textListField_Ok in H as [? ?]
  | H : optionalSafe _ = Ok _ |- _ => apply optionalSafe_Ok in H as [? ?]
  | H : optionalBounded _ = Ok _ |- _ => apply optionalBounded_Ok in H
  | H : recordField _ = Ok _ |- _ => apply recordField_Ok in H
  | H : listField _ _ = Ok _ |- _ => apply listField_Ok in H as [? ?]
  end.
Ltac fields := repeat inv_ok_step; subst; repeat field_inv; split_bool.

(** ** Usage *)

Definition cost_ok (n : jsnum) : Prop := is_finite n = true ∧ num_neg n = false.
Record usage_wf (u : ProviderUsage) : Prop := {
  uw_input : when count_ok (pu_inputTokens u);
  uw_output : when count_ok (pu_outputTokens u);
  uw_cacheRead : when count_ok (pu_cacheReadTokens u);
  uw_cacheWrite : when count_ok (pu_cacheWriteTokens u);
  uw_cost : when cost_ok (pu_costUsd u);
}.

Lemma get_elem (o : jsobj) k : get o k = JUndef ∨ (k, get o k) ∈ o.
Proof.
  induction o as [|[k' v] o IH]; cbn; [by left|]. destruct (String.eqb_spec k' k) as [->|_].
  - right. left.
  - destruct IH as [?|?]; [by left|right; by right].
Qed.

Lemma hasOwn_elem (o : jsobj) k : hasOwn o k = true → (k, get o k) ∈ o.
Proof.
  unfold hasOwn, keys. rewrite memb_true. induction o as [|[k' v] o IH]; [by intros ?%elem_of_nil|].
  rewrite fmap_cons. cbn. intros [->|Hin]%elem_of_cons.
  - rewrite String.eqb_refl. left.
  - destruct (String.eqb_spec k' k) as [->|_]; [left|right; auto].
Qed.

Lemma usage_counts (o : jsobj) :
  validateUsageCounts o = Ok tt → ∀ k v, (k, v) ∈ o →
  if String.eqb k "costUsd" then ∃ n, v = JNum n ∧ cost_ok n else ∃ z, v = JInt z ∧ count_ok z.
Proof.
  unfold validateUsageCounts. rewrite invalid_if_Ok, existsb_false, Forall_forall.
  intros Ho k v Hin. specialize (Ho _ Hin). cbn in Ho. destruct (String.eqb k "costUsd").
  - destruct v; try discriminate. split_bool. by eexists.
  - apply negb_false_iff, nonNegativeInteger_inv in Ho as (z & -> & ?). by exists z.
Qed.

Lemma usage_count_of (o : jsobj) k :
  validateUsageCounts o = Ok tt → String.eqb k "costUsd" = false → when count_ok (opt js_int (get o k)).
Proof.
  intros Ho Hk. destruct (get_elem o k) as [->|Hin]; [done|].
  apply (usage_counts _ Ho) in Hin. rewrite Hk in Hin. destruct Hin as (z & -> & ?). done.
Qed.

Lemma usage_of_wf (o : jsobj) : validateUsageCounts o = Ok tt → usage_wf (usage_of o).
Proof.
  intros Ho. split; [by apply usage_count_of..|]. cbn.
  destruct (get_elem o "costUsd") as [->|Hin]; [done|].
  apply (usage_counts _ Ho) in Hin. cbn in Hin. destruct Hin as (n & -> & ?). done.
Qed.

Lemma providerUsageValue_wf v u : providerUsageValue v = Ok u → usage_wf u.
Proof. unfold providerUsageValue. intros Hu. inv_ok. by apply usage_of_wf. Qed.

Definition budget_usage_wf (u : BudgetUsage) : Prop :=
  count_ok (bu_turns u) ∧ count_ok (bu_toolCalls u) ∧ count_ok (bu_subagents u) ∧ usage_wf (bu_provider u).

Lemma budgetUsageValue_wf v u : budgetUsageValue v = Ok u → budget_usage_wf u.
Proof.
  unfold budgetUsageValue. intros Hu. inv_ok. rewrite invalid_if_Ok in *. split_bool.
  assert (∀ k, k ∈ ["turns"; "toolCalls"; "subagents"]%string → hasOwn x k = true) as Hown
    by (by apply Forall_forall, forallb_true).
  unfold budget_usage_wf. split_and!; cbn [bu_turns bu_toolCalls bu_subagents bu_provider]; [..|by apply usage_of_wf].
  all: match goal with |- count_ok (js_int (get ?o ?k)) =>
    pose proof (usage_counts o ltac:(done) k _ (hasOwn_elem o k (Hown k ltac:(set_solver)))) as (z & -> & ?) end; done.
Qed.

(** ** Values

    The parts of a payload that the reducer only stores are kept as values; what the
    checks establish of them is said of the value itself. *)

Definition text_value (v : jsval) : Prop := ∃ s, v = JStr s ∧ text_ok s.
Definition safe_value (v : jsval) : Prop := ∃ s, v = JStr s ∧ SAFE_ID s = true.
Definition digest_value (v : jsval) : Prop := ∃ s, v = JStr s ∧ SHA256 s = true.
Definition literal_value (names : list string) (v : jsval) : Prop := ∃ s, v = JStr s ∧ s ∈ names.
Definition positive_value (v : jsval) : Prop := ∃ z, v = JInt z ∧ positive_ok z.
Definition count_value (v : jsval) : Prop := ∃ z, v = JInt z ∧ count_ok z.
Definition list_value (maximum : Z) (P : jsval → Prop) (v : jsval) : Prop :=
  ∃ l, v = JArr l ∧ Z.of_nat (length l) ≤ maximum ∧ Forall P l.
(** An optional member, and a member whose text ([String(v)]) is checked. *)
Definition maybe (P : jsval → Prop) (v : jsval) : Prop := v ≠ JUndef → P v.
Definition has_keys (required optional : list string) (o : jsobj) : Prop :=
  (∀ k, k ∈ required → hasOwn o k = true) ∧ (∀ k, k ∈ keys o → k ∈ required ++ optional).

Lemma safe_value_of v s : safe v = Ok s → safe_value v.
Proof. intros [-> ?]%safe_Ok. by exists s. Qed.
Lemma text_value_of v s : textField v = Ok s → text_value v.
Proof. intros [-> ?]%textField_Ok. by exists s. Qed.
Lemma digest_value_of v s : digestField v = Ok s → digest_value v.
Proof. intros [-> ?]%digestField_Ok. by exists s. Qed.
Lemma literal_value_of names v s : literal names v = Ok s → literal_value names v.
Proof. intros [-> ?]%literal_Ok. by exists s. Qed.
Lemma positive_value_of v z : positiveField v = Ok z → positive_value v.
Proof. intros [-> ?]%positiveField_Ok. by exists z. Qed.
Lemma count_value_of v z : nonNegative v = Ok z → count_value v.
Proof. intros [-> ?]%nonNegative_Ok. by exists z. Qed.
Lemma safeId_value v : safeId v = true → safe_value v.
Proof. intros (s & -> & ?)%safeId_inv. by exists s. Qed.
Lemma nonNegative_value v : nonNegativeInteger v = true → count_value v.
Proof. intros (z & -> & ?)%nonNegativeInteger_inv. by exists z. Qed.
Lemma maybe_of {A} (f : jsval → res A) (P : jsval → Prop) v o : (∀ a, f v = Ok a → P v) → opt_res f v = Ok o → maybe P v.
Proof. intros HP [[-> _]|(_ & a & Ha & _)]%opt_res_Ok Hv; [done|by eapply HP]. Qed.
Lemma maybe_when {A} (f : jsval → res A) (P : jsval → Prop) v u : (∀ a, f v = Ok a → P v) → when_defined f v = Ok u → maybe P v.
Proof. intros HP Hw Hv. destruct v; try done; cbn [when_defined] in Hw; apply bind_Ok in Hw as (a & Ha & _); by eapply HP. Qed.
Lemma exactData_Ok o required optional u : exactData o required optional = Ok u → has_keys required optional o.
Proof.
  unfold exactData. intros [Hr Hk]%invalid_if_Ok%orb_false_iff. apply negb_false_iff, forallb_true in Hr, Hk. rewrite Forall_forall in Hr, Hk.
  split; [done|]. intros k Hin. by apply memb_true, Hk.
Qed.
Lemma each_Ok check l u : each check l = Ok u → Forall (λ v, check v = Ok tt) l.
Proof.
  revert u. induction l as [|v l IH]; intros u; [constructor|]. cbn [each]. intros ([] & Hv & Hl)%bind_Ok. constructor; [done|by eapply IH].
Qed.
Lemma is_str_Ok v s : is_str v s = true → v = JStr s.
Proof. unfold is_str. destruct v; try done. by intros ->%bool_decide_eq_true. Qed.

(** A list whose elements pass a check. *)
Lemma list_value_of (check : jsval → res unit) (P : jsval → Prop) n v u :
  (∀ x, check x = Ok tt → P x) → (l ← listField v n; each check l) = Ok u → list_value n P v.
Proof.
  intros HP (l & [-> Hl]%listField_Ok & Hall%each_Ok)%bind_Ok. exists l. split_and!; [done|done|].
  eapply Forall_impl; [exact Hall|exact HP].
Qed.

(** Every successful step of a check of a value. *)
Ltac value_inv :=
  match goal with
  | H : invalid_if _ = Ok _ |- _ => apply invalid_if_Ok in H
  | H : safe _ = Ok _ |- _ => apply safe_value_of in H
  | H : digestField _ = Ok _ |- _ => apply digest_value_of in H
  | H : textField _ = Ok _ |- _ => apply text_value_of in H
  | H : positiveField _ = Ok _ |- _ => apply positive_value_of in H
  | H : nonNegative _ = Ok _ |- _ => apply count_value_of in H
  | H : literal _ _ = Ok _ |- _ => apply literal_value_of in H
  | H : recordField _ = Ok _ |- _ => apply recordField_Ok in H
  | H : exactData _ _ _ = Ok _ |- _ => apply exactData_Ok in H
  | H : is_str _ _ = true |- _ => apply is_str_Ok in H
  | H : safeId _ = true |- _ => apply safeId_value in H
  | H : optionalSafe _ = Ok _ |- _ => apply (maybe_of safe safe_value _ _ (safe_value_of _)) in H
  | H : optionalBounded _ = Ok _ |- _ => apply (maybe_of textField text_value _ _ (text_value_of _)) in H
  | H : when_defined safe _ = Ok _ |- _ => apply (maybe_when safe safe_value _ _ (safe_value_of _)) in H
  | H : when_defined nonNegative _ = Ok _ |- _ => apply (maybe_when nonNegative count_value _ _ (count_value_of _)) in H
  | H : when_defined digestField _ = Ok _ |- _ => apply (maybe_when digestField digest_value _ _ (digest_value_of _)) in H
  | H : when_defined (literal ?names) _ = Ok _ |- _ =>
      apply (maybe_when (literal names) (literal_value names) _ _ (literal_value_of names _)) in H
  end.
Ltac values := repeat inv_ok_step; subst; repeat value_inv; split_bool; repeat value_inv; subst.

(** *** Messages *)

Section Messages.
Context `{JsEngine}.

Definition skill_wf (v : jsval) : Prop := ∃ o, v = JObj o ∧
  (∀ k, k ∈ keys o → k ∈ ["type"; "version"; "capabilityId"; "origin"; "digest"; "arguments"; "content"]%string) ∧
  o .: "type" = JStr "skill_invocation" ∧ is_int (o .: "version") 1 = true ∧ safe_value (o .: "capabilityId") ∧
  text_value (o .: "origin") ∧ (∃ s, to_text (o .: "digest") = Ok s ∧ SHA256 s = true) ∧
  text_value (o .: "arguments") ∧ text_value (o .: "content").

Lemma skillInvocation_wf v u : skillInvocation v = Ok u → skill_wf v.
Proof.
  unfold skillInvocation. intros Hs. values. eexists. split; [done|]. split_and!; try done; [|by eexists].
  match goal with Hk : onlyKeys _ _ = true |- _ => apply forallb_true in Hk; rewrite Forall_forall in Hk; intros k Hin; by apply memb_true, Hk end.
Qed.

Inductive content_block (o : jsobj) : Prop :=
| block_text s : o .: "type" = JStr "text" ∨ o .: "type" = JStr "reasoning" → has_keys ["type"; "text"]%string [] o →
    o .: "text" = JStr s → byteLength s ≤ MAX_CONTENT_BLOCK_TEXT_BYTES → content_block o
| block_image : o .: "type" = JStr "image_ref" → has_keys ["type"; "artifactId"]%string ["mimeType"; "alt"]%string o →
    safe_value (o .: "artifactId") → maybe text_value (o .: "mimeType") → maybe text_value (o .: "alt") → content_block o
| block_audio : o .: "type" = JStr "audio_ref" → has_keys ["type"; "artifactId"]%string ["mimeType"; "transcript"]%string o →
    safe_value (o .: "artifactId") → maybe text_value (o .: "mimeType") → maybe text_value (o .: "transcript") → content_block o
| block_citation : o .: "type" = JStr "citation" →
    has_keys ["type"]%string ["title"; "url"; "artifactId"; "startIndex"; "endIndex"]%string o →
    o .: "title" ≠ JUndef ∨ o .: "url" ≠ JUndef ∨ o .: "artifactId" ≠ JUndef →
    maybe text_value (o .: "title") → maybe text_value (o .: "url") → maybe safe_value (o .: "artifactId") →
    maybe count_value (o .: "startIndex") → maybe count_value (o .: "endIndex") →
    (o .: "startIndex" ≠ JUndef → o .: "endIndex" ≠ JUndef → js_int (o .: "startIndex") ≤ js_int (o .: "endIndex")) → content_block o
| block_tool_call : o .: "type" = JStr "tool_call" → has_keys ["type"; "id"; "name"; "input"]%string [] o →
    safe_value (o .: "id") → safe_value (o .: "name") → content_block o.

Lemma is_undef_ne v : is_undef v = false → v ≠ JUndef.
Proof. by intros Hv ->. Qed.
Lemma undef_ne v : v ≠ JUndef → is_undef v = false.
Proof. by destruct v. Qed.

Lemma providerContentBlock_wf v u : providerContentBlock v = Ok u → ∃ o, v = JObj o ∧ content_block o.
Proof.
  unfold providerContentBlock. intros (o & ->%recordField_Ok & Hb)%bind_Ok. exists o. split; [done|]. cbv zeta in Hb.
  destruct (is_str (o .: "type") "text" || is_str (o .: "type") "reasoning") eqn:Ht.
  { apply orb_true_iff in Ht. values. unfold boundedContentText in *. destruct (o .: "text") as [| | | |s| | |] eqn:Htext; try done. values.
    eapply block_text; [|done|done|lia]. destruct Ht as [?%is_str_Ok|?%is_str_Ok]; auto. }
  clear Ht. destruct (is_str _ "image_ref") eqn:Ht; [values; by apply block_image|].
  clear Ht. destruct (is_str _ "audio_ref") eqn:Ht; [values; by apply block_audio|].
  clear Ht. destruct (is_str _ "citation") eqn:Ht.
  { values. apply block_citation; try done.
    - match goal with Hx : is_undef _ && is_undef _ && is_undef _ = false |- _ =>
        apply andb_false_iff in Hx as [[Hx|Hx]%andb_false_iff|Hx]; apply is_undef_ne in Hx; auto end.
    - intros Hs%undef_ne He%undef_ne. match goal with Hx : _ && (_ <? _) = false |- _ => rewrite Hs, He in Hx; cbn [negb andb] in Hx; lia end. }
  clear Ht. destruct (is_str _ "tool_call") eqn:Ht; [values; by apply block_tool_call|done].
Qed.

(** The content is one text, of any length, or a list of blocks. *)
Definition content_wf (v : jsval) : Prop :=
  (∃ s, v = JStr s) ∨ list_value MAX_LIST_ITEMS (λ x, ∃ o, x = JObj o ∧ content_block o) v.
Definition tool_call_wf (v : jsval) : Prop := ∃ o, v = JObj o ∧ has_keys ["id"; "name"; "input"]%string [] o ∧
  safe_value (o .: "id") ∧ safe_value (o .: "name").

Inductive message_wf (o : jsobj) : Prop :=
| message_user : o .: "role" = JStr "user" → has_keys ["role"; "content"]%string ["intent"; "trust"; "skillInvocation"]%string o →
    content_wf (o .: "content") → maybe (literal_value ["prompt"; "follow_up"; "steer"; "context"]%string) (o .: "intent") →
    maybe (literal_value ["user"; "low"]%string) (o .: "trust") → maybe skill_wf (o .: "skillInvocation") → message_wf o
| message_assistant : o .: "role" = JStr "assistant" → has_keys ["role"; "content"]%string ["toolCalls"]%string o →
    content_wf (o .: "content") → maybe (list_value MAX_LIST_ITEMS tool_call_wf) (o .: "toolCalls") → message_wf o
| message_tool : o .: "role" = JStr "tool" → has_keys ["role"; "toolCallId"; "name"; "content"]%string ["skillInvocation"]%string o →
    safe_value (o .: "toolCallId") → safe_value (o .: "name") → content_wf (o .: "content") →
    maybe skill_wf (o .: "skillInvocation") → message_wf o.

Lemma providerContent_wf v u : providerContent v = Ok u → content_wf v.
Proof.
  unfold providerContent, content_wf. intros Hc. destruct (is_string v) eqn:Hv; [left; destruct v; try done; by eexists|right].
  assert ((l ← listField v MAX_LIST_ITEMS; each providerContentBlock l) = Ok u) as Hl by by destruct v. revert Hl. apply list_value_of.
  intros x Hx. exact (providerContentBlock_wf x tt Hx).
Qed.
Lemma providerToolCalls_wf v u : providerToolCalls v = Ok u → list_value MAX_LIST_ITEMS tool_call_wf v.
Proof. apply list_value_of. intros x Hx. values. eexists. by split_and!. Qed.
Lemma providerMessage_wf v u : providerMessage v = Ok u → ∃ o, v = JObj o ∧ message_wf o.
Proof.
  unfold providerMessage. intros (o & ->%recordField_Ok & Hm)%bind_Ok. exists o. split; [done|].
  destruct (is_str _ "user") eqn:Hr; [|clear Hr; destruct (is_str _ "assistant") eqn:Hr; [|clear Hr; destruct (is_str _ "tool") eqn:Hr; [|done]]];
    values; repeat match goal with
    | Hx : providerContent _ = Ok _ |- _ => apply providerContent_wf in Hx
    | Hx : when_defined skillInvocation _ = Ok _ |- _ => apply (maybe_when _ skill_wf _ _ (skillInvocation_wf _)) in Hx
    | Hx : when_defined providerToolCalls _ = Ok _ |- _ =>
        apply (maybe_when _ (list_value MAX_LIST_ITEMS tool_call_wf) _ _ (providerToolCalls_wf _)) in Hx
    end.
  - by apply message_user.
  - by apply message_assistant.
  - by apply message_tool.
Qed.
End Messages.

(** *** Records of one entry type *)

Definition compact_step_wf (v : jsval) : Prop := ∃ o, v = JObj o ∧ has_keys ["id"; "title"; "state"]%string [] o ∧
  safe_value (o .: "id") ∧ text_value (o .: "title") ∧
  literal_value ["pending"; "in_progress"; "completed"; "blocked"]%string (o .: "state").
Definition compact_plan_wf `{JsEngine} (v : jsval) : Prop := ∃ o, v = JObj o ∧ has_keys ["objective"; "steps"; "revision"; "updatedAt"]%string [] o ∧
  text_value (o .: "objective") ∧ count_value (o .: "revision") ∧ canonicalInstant (o .: "updatedAt") = true ∧
  list_value MAX_LIST_ITEMS compact_step_wf (o .: "steps").
Inductive deleted_wf (o : jsobj) : Prop :=
| deleted_tombstone : o .: "mode" = JStr "tombstone" → has_keys ["mode"]%string ["reason"]%string o →
    maybe text_value (o .: "reason") → deleted_wf o
| deleted_purge : o .: "mode" = JStr "purge_receipt" → has_keys ["mode"; "receiptRef"; "receiptDigest"]%string [] o →
    text_value (o .: "receiptRef") → digest_value (o .: "receiptDigest") → deleted_wf o.
Record command_wf (o : jsobj) : Prop := {
  cw_keys : has_keys ["commandId"; "descriptorId"; "descriptorDigest"; "persistence"]%string ["argumentDigest"; "resultRef"]%string o;
  cw_command : safe_value (o .: "commandId");
  cw_descriptor : safe_value (o .: "descriptorId");
  cw_digest : digest_value (o .: "descriptorDigest");
  cw_persistence : literal_value ["plaintext"; "redacted"; "digest"; "none"]%string (o .: "persistence");
  cw_argument : maybe digest_value (o .: "argumentDigest");
  cw_result : maybe text_value (o .: "resultRef");
}.
Record permission_wf (o : jsobj) : Prop := {
  pmw_keys : has_keys ["requestId"; "toolCallId"; "tool"; "decision"; "ruleDigest"]%string [] o;
  pmw_request : safe_value (o .: "requestId");
  pmw_call : safe_value (o .: "toolCallId");
  pmw_tool : safe_value (o .: "tool");
  pmw_decision : literal_value ["allow_once"; "allow_always"; "deny"]%string (o .: "decision");
  pmw_rule : digest_value (o .: "ruleDigest");
}.

Inductive generator_wf (v : jsval) : Prop :=
| generator_deterministic o : v = JObj o → o .: "kind" = JStr "deterministic" → has_keys ["kind"; "id"]%string [] o →
    safe_value (o .: "id") → generator_wf v
| generator_model o : v = JObj o → o .: "kind" = JStr "model" → has_keys ["kind"; "id"; "provider"; "model"]%string [] o →
    safe_value (o .: "id") → safe_value (o .: "provider") → safe_value (o .: "model") → generator_wf v.
Definition provenance_wf (v : jsval) : Prop := ∃ o, v = JObj o ∧
  has_keys ["schemaVersion"; "generator"]%string ["fallbackFrom"; "failureCode"; "failedGeneratorDurationMs"]%string o ∧
  is_int (o .: "schemaVersion") 1 = true ∧ generator_wf (o .: "generator") ∧ maybe generator_wf (o .: "fallbackFrom") ∧
  maybe safe_value (o .: "failureCode") ∧ maybe count_value (o .: "failedGeneratorDurationMs") ∧
  (o .: "failureCode" ≠ JUndef ∨ o .: "failedGeneratorDurationMs" ≠ JUndef → o .: "fallbackFrom" ≠ JUndef).

Definition scope_wf (v : jsval) : Prop := ∃ o, v = JObj o ∧ has_keys ["kind"; "sessionId"]%string [] o ∧
  literal_value ["parent"; "child"]%string (o .: "kind") ∧ safe_value (o .: "sessionId").
Definition checkpoint_wf `{JsEngine} (v : jsval) : Prop := ∃ o, v = JObj o ∧
  has_keys ["messageStart"; "messageEnd"; "content"; "digest"]%string
    ["estimatedGainTokens"; "scope"; "skillInvocations"; "nativeContext"]%string o ∧
  count_value (o .: "messageStart") ∧ count_value (o .: "messageEnd") ∧ js_int (o .: "messageStart") ≤ js_int (o .: "messageEnd") ∧
  text_value (o .: "content") ∧ digest_value (o .: "digest") ∧ maybe count_value (o .: "estimatedGainTokens") ∧
  maybe scope_wf (o .: "scope") ∧ maybe (list_value MAX_LIST_ITEMS skill_wf) (o .: "skillInvocations") ∧
  maybe (λ v, isProviderNativeContext v = true) (o .: "nativeContext").

Definition binding_wf (v : jsval) : Prop := v = JNull ∨ ∃ o, v = JObj o ∧ has_keys ["planId"; "planRevision"; "stateDigest"]%string [] o ∧
  safe_value (o .: "planId") ∧ positive_value (o .: "planRevision") ∧ digest_value (o .: "stateDigest").
Inductive target_wf (v : jsval) : Prop :=
| target_plan o : v = JObj o → o .: "kind" = JStr "plan" →
    has_keys ["kind"; "planId"; "expectedPlanRevision"; "planStateDigest"]%string [] o → safe_value (o .: "planId") →
    positive_value (o .: "expectedPlanRevision") → digest_value (o .: "planStateDigest") → target_wf v
| target_run o : v = JObj o → o .: "kind" = JStr "run" → has_keys ["kind"; "runId"; "runStateDigest"; "planBinding"]%string [] o →
    safe_value (o .: "runId") → digest_value (o .: "runStateDigest") → binding_wf (o .: "planBinding") → target_wf v
| target_session o : v = JObj o → o .: "kind" = JStr "session" → has_keys ["kind"; "sessionStateDigest"; "planBinding"]%string [] o →
    digest_value (o .: "sessionStateDigest") → binding_wf (o .: "planBinding") → target_wf v.

Section Records.
Context `{JsEngine}.

Lemma compactPlanValue_wf v u : compactPlanValue v = Ok u → compact_plan_wf v.
Proof.
  unfold compactPlanValue. intros Hp. repeat inv_ok_step. repeat value_inv. subst.
  match goal with Hl : listField _ _ = Ok ?l, He : each ?f ?l = Ok ?u |- _ =>
    assert ((l ← listField (x .: "steps") MAX_LIST_ITEMS; each f l) = Ok u) as Hsteps by (rewrite Hl; exact He); clear Hl He end.
  apply (list_value_of _ compact_step_wf) in Hsteps; [|intros y Hy; values; eexists; by split_and!].
  split_bool. eexists. by split_and!.
Qed.
Lemma session_deleted_wf data d : session_deleted_payload data = Ok d → d = session_deleted (JObj data) ∧ deleted_wf data.
Proof.
  unfold session_deleted_payload. intros ([] & Hm & [= <-])%bind_Ok. split; [done|].
  destruct (is_str _ "tombstone") eqn:Hk; [values; by apply deleted_tombstone|]. clear Hk.
  destruct (is_str _ "purge_receipt") eqn:Hk; [values; by apply deleted_purge|done].
Qed.
Lemma command_payload_wf data d : command_invoked_payload data = Ok d →
  ∃ commandId resultRef, d = command_invoked commandId (JObj data) resultRef ∧ data .: "commandId" = JStr commandId ∧
    when text_ok resultRef ∧ command_wf data.
Proof.
  unfold command_invoked_payload. intros Hd. repeat inv_ok_step. do 2 eexists. split; [done|].
  match goal with Hs : safe _ = Ok ?s, Hr : optionalBounded _ = Ok ?r |- _ =>
    pose proof (proj1 (safe_Ok _ _) Hs) as [-> _]; pose proof (optionalBounded_Ok _ _ Hr) end.
  values. by split_and!.
Qed.
Lemma permission_payload_wf data d : permission_decided_payload data = Ok d →
  ∃ requestId, d = permission_decided requestId (JObj data) ∧ data .: "requestId" = JStr requestId ∧ permission_wf data.
Proof.
  unfold permission_decided_payload. intros Hd. repeat inv_ok_step. eexists. split; [done|].
  match goal with Hs : safe (data .: "requestId") = Ok ?s |- _ => pose proof (proj1 (safe_Ok _ _) Hs) as [-> _] end.
  values. by split_and!.
Qed.

Lemma generatorIdentity_wf v u : compactionGeneratorIdentity v = Ok u → generator_wf v.
Proof.
  unfold compactionGeneratorIdentity. intros (o & ->%recordField_Ok & Hg)%bind_Ok.
  destruct (is_str _ "deterministic") eqn:Hk; [values; by eapply generator_deterministic|]. clear Hk.
  destruct (is_str _ "model") eqn:Hk; [values; by eapply generator_model|done].
Qed.
Lemma compactionProvenance_wf v u : compactionProvenance v = Ok u → provenance_wf v.
Proof.
  unfold compactionProvenance. intros Hp. values. eexists. split; [done|].
  repeat match goal with
  | Hx : compactionGeneratorIdentity _ = Ok _ |- _ => apply generatorIdentity_wf in Hx
  | Hx : when_defined compactionGeneratorIdentity _ = Ok _ |- _ => apply (maybe_when _ generator_wf _ _ (generatorIdentity_wf _)) in Hx
  end.
  split_and!; try done.
  - intros Hd%undef_ne. match goal with Hx : _ && negb (nonNegativeInteger _) = false |- _ => rewrite Hd in Hx; cbn [negb andb] in Hx end.
    split_bool. by apply nonNegative_value.
  - intros Hf. match goal with Hx : _ && is_undef _ = false |- _ => apply andb_false_iff in Hx as [Hx|Hx]; [|by apply is_undef_ne] end.
    split_bool. by destruct Hf as [Hf%undef_ne|Hf%undef_ne]; congruence.
Qed.
Lemma checkpointScope_wf v u : checkpointScope v = Ok u → scope_wf v.
Proof. unfold checkpointScope. intros Hc. values. eexists. by split_and!. Qed.
Lemma checkpointValue_wf v u : checkpointValue v = Ok u → checkpoint_wf v.
Proof.
  unfold checkpointValue. intros Hc. repeat inv_ok_step.
  match goal with Ha : nonNegative _ = Ok ?a, Hb : nonNegative _ = Ok ?b, Hl : invalid_if (?b <? ?a) = Ok _ |- _ =>
    pose proof (proj1 (nonNegative_Ok _ _) Ha) as [Hia _]; pose proof (proj1 (nonNegative_Ok _ _) Hb) as [Hib _] end.
  values. eexists. split; [done|].
  repeat match goal with
  | Hx : when_defined checkpointScope _ = Ok _ |- _ => apply (maybe_when _ scope_wf _ _ (checkpointScope_wf _)) in Hx
  | Hx : when_defined _ (_ .: "skillInvocations") = Ok _ |- _ =>
      apply (maybe_when _ (list_value MAX_LIST_ITEMS skill_wf)) in Hx;
      [|intros a; apply list_value_of; intros y Hy; exact (skillInvocation_wf y tt Hy)]
  end.
  split_and!; try done.
  - rewrite Hia, Hib. cbn. lia.
  - intros Hd%undef_ne. match goal with Hx : _ && negb (isProviderNativeContext _) = false |- _ => rewrite Hd in Hx; cbn [negb andb] in Hx end. by split_bool.
Qed.

Lemma planControlBinding_wf v u : planControlBinding v = Ok u → binding_wf v.
Proof.
  intros Hb. destruct (decide (v = JNull)) as [->|Hne]; [by left|right]. destruct v as [| | | | | |o|]; try done.
  unfold planControlBinding in Hb. values. eexists. by split_and!.
Qed.
Lemma planControlTarget_wf v u : planControlTarget v = Ok u → target_wf v.
Proof.
  unfold planControlTarget. intros (o & ->%recordField_Ok & Ht)%bind_Ok.
  destruct (is_str _ "plan") eqn:Hk; [values; by eapply target_plan|]. clear Hk.
  destruct (is_str _ "run") eqn:Hk; [values; eapply target_run; by eauto using planControlBinding_wf|]. clear Hk.
  destruct (is_str _ "session") eqn:Hk; [values; eapply target_session; by eauto using planControlBinding_wf|done].
Qed.
End Records.

(** *** Working plans

    Their validators test [String(v)] of a member, so a member is described by its
    text; the objective and the titles are not blank, and of any length. *)

Section Working.
Context `{JsEngine}.

Definition printed (P : string → Prop) (v : jsval) : Prop := ∃ s, to_text v = Ok s ∧ P s.
Definition work_item_wf (v : jsval) (itemId : string) : Prop := ∃ o, v = JObj o ∧
  (∀ k, k ∈ ["id"; "title"; "status"]%string ↔ k ∈ keys o) ∧ o .: "id" = JStr itemId ∧ SAFE_ID itemId = true ∧
  (∃ s, o .: "title" = JStr s ∧ blank s = false) ∧
  printed (λ s, s ∈ ["pending"; "in_progress"; "done"; "blocked"; "skipped"]%string) (o .: "status").
Record working_plan_wf (p : WorkingPlanV1) : Prop := {
  wpw_id : SAFE_ID (wp_planId p) = true;
  wpw_revision : positive_ok (wp_revision p);
  wpw_objective : blank (wp_objective p) = false;
  wpw_state : printed (λ s, s ∈ ["active"; "done"; "abandoned"]%string) (wp_state p);
  wpw_items : ∃ l ids, wp_items p = JArr l ∧ Forall2 work_item_wf l ids ∧ NoDup ids;
}.
Record working_review_wf (r : WorkingReviewV1) : Prop := {
  wrw_request : SAFE_ID (wr_reviewRequestId r) = true;
  wrw_operation : SAFE_ID (wr_operationId r) = true;
  wrw_inputDigest : printed (λ s, SHA256 s = true) (wr_inputDigest r);
  wrw_requestDigest : printed (λ s, SHA256 s = true) (wr_requestDigest r);
  wrw_inputRef : maybe (printed (λ s, ARTIFACT_REF s = true)) (wr_inputRef r);
  wrw_reportRef : when (printed (λ s, ARTIFACT_REF s = true)) (wr_reportRef r);
  wrw_planRevision : when positive_ok (wr_planRevision r);
  wrw_sequences : 0 ≤ wr_evidenceSequence r ≤ wr_snapshotSequence r ∧ wr_snapshotSequence r ≤ MAX_SAFE_INTEGER;
  wrw_verdict : when (printed (λ s, s ∈ ["accepted"; "needs_fix"; "replan"; "blocked"; "unavailable"]%string)) (wr_verdict r);
  wrw_both : wr_verdict r = None ↔ wr_reportRef r = None;
}.

Lemma wp_if_Ok cond u : wp_reject_if cond = Ok u → cond = false.
Proof. apply fail_if_Ok. Qed.
Lemma wp_id_Ok v s : wp_id v = Ok s → v = JStr s ∧ SAFE_ID s = true.
Proof. unfold wp_id, wp_invalid. destruct v; try done. intros ([] & Hs%wp_if_Ok & [= <-])%bind_Ok. split; [done|by apply negb_false_iff]. Qed.
Lemma wp_text_Ok v s : wp_text v = Ok s → v = JStr s ∧ blank s = false.
Proof. unfold wp_text, wp_invalid. destruct v; try done. by intros ([] & Hs%wp_if_Ok & [= <-])%bind_Ok. Qed.
Lemma wp_object_Ok v o : wp_object v = Ok o → v = JObj o.
Proof. destruct v; try done. by intros [= <-]. Qed.
Lemma digest_text_Ok v w : digest_text v = Ok w → w = v ∧ printed (λ s, SHA256 s = true) v.
Proof.
  unfold digest_text. intros (s & Hs & ([] & Hd%wp_if_Ok & [= <-])%bind_Ok)%bind_Ok. split; [done|]. exists s. split; [done|by apply negb_false_iff].
Qed.
Lemma literal_text_Ok names v w : literal_text names v = Ok w → w = v ∧ printed (λ s, s ∈ names) v.
Proof.
  unfold literal_text. intros (s & Hs & ([] & Hd%wp_if_Ok & [= <-])%bind_Ok)%bind_Ok. split; [done|]. exists s. split; [done|].
  by apply memb_true, negb_false_iff.
Qed.
Lemma artifact_text_Ok v w : artifact_text v = Ok w → w = v ∧ maybe (printed (λ s, ARTIFACT_REF s = true)) v.
Proof.
  unfold artifact_text. destruct (is_undef v) eqn:Hu; [apply is_undef_inv in Hu as ->; intros [= <-]; split; [done|by intros []]|].
  intros Ha. assert ((s ← to_text v; wp_reject_if (negb (ARTIFACT_REF s));; Ok v) = Ok w) as Hv by by destruct v.
  apply bind_Ok in Hv as (s & Hs & ([] & Hd%wp_if_Ok & [= <-])%bind_Ok). split; [done|]. intros _. exists s. split; [done|by apply negb_false_iff].
Qed.
Lemma wp_exact_Ok o required u : wp_exact o required [] = Ok u → ∀ k, k ∈ required ↔ k ∈ keys o.
Proof.
  unfold wp_exact. intros [Hr Hk]%wp_if_Ok%orb_false_iff. apply existsb_false in Hr, Hk. rewrite Forall_forall in Hr, Hk. intros k. split.
  - intros Hin. specialize (Hr k Hin). apply negb_false_iff in Hr. by apply memb_true.
  - intros Hin. specialize (Hk k Hin). apply andb_false_iff in Hk as [Hk|Hk]; apply negb_false_iff, memb_true in Hk; [done|by apply not_elem_of_nil in Hk].
Qed.

Lemma check_items_wf seen l u : check_items seen l = Ok u → ∃ ids, Forall2 work_item_wf l ids ∧ NoDup ids ∧ Forall (λ k, k ∉ seen) ids.
Proof.
  revert seen u. induction l as [|v l IH]; intros seen u; [intros _; exists []; by repeat constructor|]. cbn [check_items].
  intros (o & ->%wp_object_Ok & ([] & Hk & (itemId & [Hid Hsafe]%wp_id_Ok & (title & Ht%wp_text_Ok & ([] & Hseen%wp_if_Ok &
    (st & [_ Hst]%literal_text_Ok & Hl)%bind_Ok)%bind_Ok)%bind_Ok)%bind_Ok)%bind_Ok)%bind_Ok.
  apply memb_false in Hseen. destruct (IH _ _ Hl) as (ids & Hall & Hnd & Hnew). rewrite Forall_forall in Hnew. exists (itemId :: ids). split_and!.
  - constructor; [|done]. exists o. split_and!; [done|exact (wp_exact_Ok _ _ _ Hk)|done|done|by exists title|done].
  - constructor; [|done]. intros Hin. apply (Hnew _ Hin). left.
  - constructor; [done|]. apply Forall_forall. intros k Hin Hs. apply (Hnew _ Hin). by right.
Qed.

Lemma validateWorkingPlanV1_wf v plan : validateWorkingPlanV1 v = Ok plan → working_plan_wf plan.
Proof.
  unfold validateWorkingPlanV1. intros Hp. repeat inv_ok_step. subst plan.
  repeat match goal with
  | Hx : wp_reject_if _ = Ok _ |- _ => apply wp_if_Ok in Hx
  | Hx : wp_id _ = Ok _ |- _ => apply wp_id_Ok in Hx as [_ ?]
  | Hx : wp_text _ = Ok _ |- _ => apply wp_text_Ok in Hx as [_ ?]
  | Hx : literal_text _ _ = Ok _ |- _ => apply literal_text_Ok in Hx as [-> ?]
  | Hx : check_items _ _ = Ok _ |- _ => apply check_items_wf in Hx as (ids & ? & ? & _)
  end.
  split_bool. match goal with Hx : positiveInteger _ = true |- _ => apply positiveInteger_inv in Hx as (z & Hz & ?) end.
  split; cbn [wp_planId wp_revision wp_objective wp_state wp_items]; try done; [by rewrite Hz|].
  match goal with Hx : is_arr ?w = true |- _ => destruct w as [| | | | |l| |]; try discriminate Hx end. by exists l, ids.
Qed.

Lemma planRevision_wf v o : planRevision_of v = Ok o → when positive_ok o.
Proof.
  unfold planRevision_of. destruct (decide (v = JNull)) as [->|Hn]; [by intros [= <-]|]. intros Hv.
  assert ((wp_reject_if (negb (positiveInteger v));; Ok (Some (js_int v))) = Ok o) as Hp by by destruct v.
  apply bind_Ok in Hp as ([] & Hp%wp_if_Ok & [= <-]). apply negb_false_iff, positiveInteger_inv in Hp as (z & -> & ?). done.
Qed.
Lemma opt_text_wf (f : jsval → res jsval) (P : jsval → Prop) v o :
  (∀ w, f v = Ok w → w = v ∧ P v) → opt_res f v = Ok o → when (λ w, w ≠ JUndef ∧ P w) o ∧ (o = None ↔ v = JUndef).
Proof. intros HP [[-> ->]|(Hv & w & Hw & ->)]%opt_res_Ok; [done|]. destruct (HP w Hw) as [-> ?]. by repeat split. Qed.
Lemma when_impl {A} (P Q : A → Prop) o : (∀ a, P a → Q a) → when P o → when Q o.
Proof. intros HPQ. destruct o as [a|]; [exact (HPQ a)|done]. Qed.

Lemma count_int v : nonNegativeInteger v = true → 0 ≤ js_int v ≤ MAX_SAFE_INTEGER.
Proof. by intros (z & -> & ?)%nonNegativeInteger_inv. Qed.

Lemma validateWorkingReviewV1_wf v r : validateWorkingReviewV1 v = Ok r → working_review_wf r.
Proof.
  unfold validateWorkingReviewV1. intros Hr. repeat inv_ok_step. subst r.
  repeat match goal with
  | Hx : wp_reject_if _ = Ok _ |- _ => apply wp_if_Ok in Hx
  | Hx : wp_id _ = Ok _ |- _ => apply wp_id_Ok in Hx as [_ ?]
  | Hx : digest_text _ = Ok _ |- _ => apply digest_text_Ok in Hx as [-> ?]
  | Hx : artifact_text _ = Ok _ |- _ => apply artifact_text_Ok in Hx as [-> ?]
  | Hx : planRevision_of _ = Ok _ |- _ => apply planRevision_wf in Hx
  | Hx : opt_res (literal_text ?names) _ = Ok _ |- _ => apply (opt_text_wf _ _ _ _ (literal_text_Ok names _)) in Hx as [Hverdict Hnv]
  | Hx : opt_res artifact_text _ = Ok _ |- _ => apply (opt_text_wf _ _ _ _ (artifact_text_Ok _)) in Hx as [Hreport Hnr]
  end.
  split_bool.
  repeat match goal with Hx : nonNegativeInteger _ = true |- _ => apply count_int in Hx end.
  match goal with Hx : Bool.eqb _ _ = true |- _ => apply eqb_prop in Hx; rename Hx into Hboth end.
  split; cbn [wr_reviewRequestId wr_operationId wr_inputDigest wr_inputRef wr_requestDigest wr_planRevision wr_snapshotSequence
    wr_evidenceSequence wr_reportRef wr_verdict]; try done.
  - eapply when_impl; [|exact Hreport]. intros w [Hw Hm]. by apply Hm.
  - lia.
  - eapply when_impl; [|exact Hverdict]. by intros w [_ ?].
  - rewrite Hnv, Hnr. split; intros Hu; rewrite Hu in Hboth; cbn in Hboth; by apply is_undef_inv.
Qed.
End Working.

(** *** Events of a review plan *)

Section ReviewEvents.
Context `{JsEngine} `{JsCrypto}.

Definition limited_value (maximum : Z) (v : jsval) : Prop := boundedText v maximum = true.
(** What is left to the validator of a part. *)
Definition accepted {A} (check : jsval → res A) (v : jsval) : Prop := ∃ a, check v = Ok a.
Definition state_value (A : Type) `{JsEnum A} (v : jsval) : Prop := ∃ a : A, v = JStr (enum_name a).

Inductive origin_wf (v : jsval) : Prop :=
| origin_tool o : v = JObj o → o .: "kind" = JStr "tool" → has_keys ["kind"; "invocationId"; "payloadDigest"]%string [] o →
    (∃ s, o .: "invocationId" = JStr s ∧ INVOCATION_ID s = true) → digest_value (o .: "payloadDigest") → origin_wf v
| origin_runtime o : v = JObj o → o .: "kind" = JStr "runtime" → has_keys ["kind"; "requestId"; "inputDigest"]%string [] o →
    safe_value (o .: "requestId") → digest_value (o .: "inputDigest") → origin_wf v
| origin_host o : v = JObj o → o .: "kind" = JStr "host" →
    has_keys ["kind"; "controlEventId"; "inputDigest"]%string ["resolutionRequestId"]%string o →
    safe_value (o .: "controlEventId") → digest_value (o .: "inputDigest") → maybe safe_value (o .: "resolutionRequestId") → origin_wf v.

Definition event_keys (required optional : list string) : jsobj → Prop :=
  has_keys (["origin"; "mutationDigest"; "planId"; "planRevision"]%string ++ required) optional.
Definition item_attempt (o : jsobj) : Prop := safe_value (o .: "itemId") ∧ safe_value (o .: "itemAttemptId").

(** The data of each type of event, beside the common members. *)
Definition review_cases : list (string * (jsobj → Prop)) :=
  [("review_plan.created", λ o, event_keys ["input"; "planHash"] ["taskContract"] o ∧ accepted validatePlanCreateInputV1 (o .: "input") ∧
      digest_value (o .: "planHash") ∧ maybe (accepted (validateTaskContract "REVIEW_PLAN_EVENT_INVALID")) (o .: "taskContract"));
   ("review_plan.revised", λ o, event_keys ["fromPlanRevision"; "input"; "planHash"] [] o ∧ positive_value (o .: "fromPlanRevision") ∧
      accepted validatePlanCreateInputV1 (o .: "input") ∧ digest_value (o .: "planHash"));
   ("review_plan.item_state_changed", λ o, event_keys ["itemId"; "state"] ["block"] o ∧ safe_value (o .: "itemId") ∧
      state_value ReviewPlanItemStateV1 (o .: "state") ∧ maybe (accepted validateReviewPlanBlockV1) (o .: "block"));
   ("review_plan.item_attempt_started", λ o, event_keys ["itemId"; "itemAttemptId"; "attemptNumber"] [] o ∧ item_attempt o ∧
      positive_value (o .: "attemptNumber"));
   ("review_plan.item_attempt_focused", λ o, event_keys ["itemId"; "itemAttemptId"] [] o ∧ item_attempt o);
   ("review_plan.item_attempt_carried_forward", λ o, event_keys ["itemId"; "itemAttemptId"; "fromPlanRevision"; "executionInputDigest"] [] o ∧
      item_attempt o ∧ positive_value (o .: "fromPlanRevision") ∧ digest_value (o .: "executionInputDigest"));
   ("review_plan.item_attempt_closed", λ o, event_keys ["itemId"; "itemAttemptId"; "attemptState"] [] o ∧ item_attempt o ∧
      ∃ st, o .: "attemptState" = JStr (enum_name st) ∧ st ∈ [RA_accepted; RA_needs_fix; RA_blocked; RA_cancelled]);
   ("review_plan.execution_requested", λ o, event_keys ["itemId"; "itemAttemptId"; "executionRequestId"; "executionInputDigest"] [] o ∧
      item_attempt o ∧ safe_value (o .: "executionRequestId") ∧ digest_value (o .: "executionInputDigest"));
   ("review_plan.execution_bound", λ o, event_keys ["itemId"; "itemAttemptId"; "executionRequestId"; "taskRef"] [] o ∧ item_attempt o ∧
      safe_value (o .: "executionRequestId") ∧ limited_value 2048 (o .: "taskRef"));
   ("review_plan.root_tool_requested", λ o,
      event_keys ["itemId"; "itemAttemptId"; "requestId"; "invocationId"; "toolName"; "inputDigest"] [] o ∧ item_attempt o ∧
      safe_value (o .: "requestId") ∧ safe_value (o .: "invocationId") ∧ safe_value (o .: "toolName") ∧ digest_value (o .: "inputDigest"));
   ("review_plan.root_tool_recorded", λ o,
      event_keys ["itemId"; "itemAttemptId"; "requestId"] ["resultRef"; "effectReceiptRef"; "changedFilesDigest"] o ∧ item_attempt o ∧
      safe_value (o .: "requestId") ∧ (o .: "resultRef" ≠ JUndef ∨ o .: "effectReceiptRef" ≠ JUndef) ∧
      maybe (limited_value 2048) (o .: "resultRef") ∧ maybe (limited_value 2048) (o .: "effectReceiptRef") ∧
      maybe digest_value (o .: "changedFilesDigest"));
   ("review_plan.review_prepared", λ o, event_keys ["preparedReview"] [] o ∧ accepted validatePreparedReviewRefV1 (o .: "preparedReview"));
   ("review_plan.review_requested", λ o, event_keys ["preparedReviewId"; "reviewRequestId"; "deterministicDigest";
        "deterministicAttemptCount"; "providerAttemptCount"] [] o ∧ safe_value (o .: "preparedReviewId") ∧
      safe_value (o .: "reviewRequestId") ∧ digest_value (o .: "deterministicDigest") ∧
      positive_value (o .: "deterministicAttemptCount") ∧ count_value (o .: "providerAttemptCount"));
   ("review_plan.review_recorded", λ o, event_keys ["preparedReviewId"; "reviewRequestId"; "decision"] [] o ∧
      safe_value (o .: "preparedReviewId") ∧ safe_value (o .: "reviewRequestId") ∧ accepted validateReviewDecisionRefV1 (o .: "decision"));
   ("review_plan.no_progress_recorded", λ o, event_keys ["noProgressCount"] [] o ∧ positive_value (o .: "noProgressCount"));
   ("review_plan.block_resolved", λ o, event_keys ["blockId"] [] o ∧ ∃ s, o .: "blockId" = JStr s ∧ String.prefix "rpb_" s = true);
   ("review_plan.state_changed", λ o, event_keys ["state"] ["block"] o ∧ maybe (accepted validateReviewPlanBlockV1) (o .: "block") ∧
      ∃ st : ReviewPlanStateV1, o .: "state" = JStr (enum_name st) ∧ (st = RP_blocked ↔ o .: "block" ≠ JUndef))]%string.
Definition review_event_wf (type : string) (v : jsval) : Prop := ∃ o wf, v = JObj o ∧ origin_wf (o .: "origin") ∧
  digest_value (o .: "mutationDigest") ∧ safe_value (o .: "planId") ∧ positive_value (o .: "planRevision") ∧
  mget type review_cases = Some wf ∧ wf o.

Lemma safe_field code v s : idField code v = Ok s → safe_value v.
Proof. intros [-> ?]%idField_Ok. by exists s. Qed.
Lemma digest_field code v s : hashField code v = Ok s → digest_value v.
Proof. intros [-> ?]%hashField_Ok. by exists s. Qed.
Lemma positive_field code v z : positiveOf code v = Ok z → positive_value v.
Proof. intros [-> ?]%positiveOf_Ok. by exists z. Qed.
Lemma count_field code v z : countOf code v = Ok z → count_value v.
Proof. intros [-> ?]%countOf_Ok. by exists z. Qed.
Lemma limited_field v s : bounded v = Ok s → limited_value 2048 v.
Proof. intros [-> ?]%limitedText_Ok. done. Qed.
Lemma exactKeys_Ok o required optional : exactKeys o required optional = true → has_keys required optional o.
Proof.
  unfold exactKeys. intros [Hr Hk]%andb_true_iff. apply forallb_true in Hr, Hk. rewrite Forall_forall in Hr, Hk. split; [done|].
  intros k Hin. apply elem_of_app. specialize (Hk k Hin). apply orb_true_iff in Hk as [Hk|Hk]; apply memb_true in Hk; auto.
Qed.
Lemma event_keys_Ok o required optional u : exact_event o required optional = Ok u → event_keys required optional o.
Proof. intros Hk%fail_if_Ok%negb_false_iff. by apply exactKeys_Ok. Qed.
Lemma item_ids_Ok o ids : item_ids o = Ok ids → item_attempt o.
Proof. unfold item_ids. intros (i & Hi%safe_field & (a & Ha%safe_field & _)%bind_Ok)%bind_Ok. by split. Qed.
Lemma record_keys code v required optional o : recordOf code v required optional = Ok o → v = JObj o ∧ has_keys required optional o.
Proof. intros [-> Hk]%recordOf_Ok. split; [done|by apply exactKeys_Ok]. Qed.

Ltac event_inv :=
  match goal with
  | Hx : idField _ _ = Ok _ |- _ => apply safe_field in Hx
  | Hx : hashField _ _ = Ok _ |- _ => apply digest_field in Hx
  | Hx : positiveOf _ _ = Ok _ |- _ => apply positive_field in Hx
  | Hx : countOf _ _ = Ok _ |- _ => apply count_field in Hx
  | Hx : bounded _ = Ok _ |- _ => apply limited_field in Hx
  | Hx : exact_event _ _ _ = Ok _ |- _ => apply event_keys_Ok in Hx
  | Hx : item_ids _ = Ok _ |- _ => apply item_ids_Ok in Hx
  | Hx : stateOf _ _ _ = Ok _ |- _ => apply stateOf_Ok in Hx
  | Hx : recordOf _ _ _ _ = Ok _ |- _ => apply record_keys in Hx as [? ?]
  | Hx : opt_res (idField ?code) _ = Ok _ |- _ => apply (maybe_of _ safe_value _ _ (safe_field code _)) in Hx
  | Hx : opt_res (hashField ?code) _ = Ok _ |- _ => apply (maybe_of _ digest_value _ _ (digest_field code _)) in Hx
  | Hx : opt_res bounded _ = Ok _ |- _ => apply (maybe_of _ (limited_value 2048) _ _ (limited_field _)) in Hx
  end.

Lemma origin_Ok v origin : validateReviewPlanMutationOriginV1 v = Ok origin → origin_wf v.
Proof.
  unfold validateReviewPlanMutationOriginV1. cbv zeta. destruct v as [| | | | | |o|]; try done.
  destruct (is_str _ "tool") eqn:Hk; [|clear Hk; destruct (is_str _ "runtime") eqn:Hk; [|clear Hk; destruct (is_str _ "host") eqn:Hk; [|done]]];
    apply is_str_Ok in Hk; intros Ho; repeat inv_ok_step; repeat event_inv; simplify_eq.
  - split_bool. eapply origin_tool; try done.
    match goal with Hx : is_string ?w = true |- _ => destruct w as [| | | |s| | |]; try discriminate Hx end. by exists s.
  - by eapply origin_runtime.
  - by eapply origin_host.
Qed.
Lemma block_value_Ok v o : block_value v = Ok o → maybe (accepted validateReviewPlanBlockV1) v ∧ (o = None ↔ v = JUndef).
Proof.
  unfold block_value. intros [[-> ->]|(Hv & b & Hb & ->)]%opt_res_Ok; [by split; [intros []|]|].
  apply bind_Ok in Hb as (blk & Hb & _). split; [intros _; by exists blk|done].
Qed.

Lemma event_cases_wf type check data event :
  (type, check) ∈ event_cases → check data = Ok event → ∃ wf, mget type review_cases = Some wf ∧ wf data.
Proof.
  unfold event_cases. intros Hin Hd.
  repeat (apply elem_of_cons in Hin as [[= -> ->]|Hin]); [..|by apply elem_of_nil in Hin].
  all: cbv beta in Hd; eexists; split; [reflexivity|]; cbv beta; repeat inv_ok_step; repeat event_inv.
  all: repeat match goal with Hx : block_value _ = Ok _ |- _ => apply block_value_Ok in Hx as [? Hblock] end.
  all: try (split_and!; first [done | by eexists]).
  - split_and!; try done; [by eexists|]. eapply maybe_of; [|eassumption]. intros a Ha. by exists a.
  - split_bool. split_and!; try done. by eexists.
  - split_and!; try done. match goal with Hx : is_undef _ && is_undef _ = false |- _ => apply andb_false_iff in Hx as [Hx|Hx]; apply is_undef_ne in Hx; auto end.
  - split_bool. split; [done|]. match goal with Hx : is_string ?w = true |- _ => destruct w as [| | | |s| | |]; try discriminate Hx end. by exists s.
  - split_bool. split_and!; try done. eexists. split; [eassumption|].
    match goal with Hx : Bool.eqb _ _ = true |- _ => apply eqb_prop in Hx; rename Hx into Hboth end. rewrite <-Hblock.
    split; [intros ->; rewrite bool_decide_eq_true_2 in Hboth by done|intros Hne; apply (bool_decide_eq_true_1 _); rewrite Hboth];
      match goal with o : option jsval |- _ => by destruct o end.
Qed.
Lemma validateReviewPlanEventV1_wf event r :
  validateReviewPlanEventV1 event = Ok r → review_event_wf (rpe_type event) (rpe_data event).
Proof.
  unfold validateReviewPlanEventV1, validateEventData, validateCommon. intros Hr. repeat inv_ok_step. repeat event_inv.
  destruct (rpe_data event) as [| | | | | |o|]; try done.
  match goal with Hx : Ok _ = Ok _ |- _ => injection Hx as -> | _ => idtac end. simplify_eq.
  match goal with Hx : validateReviewPlanMutationOriginV1 _ = Ok _ |- _ => apply origin_Ok in Hx end.
  match goal with Hx : match mget ?type event_cases with _ => _ end = Ok _ |- _ => destruct (mget type event_cases) as [check|] eqn:Hc; [|done] end.
  inv_ok. apply mget_elem_inv in Hc. match goal with Hx : check _ = Ok _ |- _ => destruct (event_cases_wf _ _ _ _ Hc Hx) as (wf & ? & ?) end.
  eexists _, wf. by split_and!.
Qed.
End ReviewEvents.

(** ** Payloads *)

Abbreviation safe_ok := (λ s, SAFE_ID s = true).
Abbreviation digest_ok := (λ s, SHA256 s = true).

(** The fields that name a step, and an attempt, of a plan revision. *)
Definition plan_at (planId : string) (revision : Z) : Prop := SAFE_ID planId = true ∧ positive_ok revision.
Definition step_at (planId : string) (revision : Z) (stepId : string) : Prop :=
  plan_at planId revision ∧ SAFE_ID stepId = true.
Definition attempt_at (planId : string) (revision : Z) (stepId attemptId : string) : Prop :=
  step_at planId revision stepId ∧ SAFE_ID attemptId = true.

(** The step that a [step.created] payload describes. *)
Definition created_step (d : StepCreatedData) : PlanStepV1 :=
  {| st_stepId := sd_stepId d; st_title := sd_title d; st_order := sd_order d; st_state := sd_state d;
     st_dependencies := sd_dependencies d; st_access := sd_access d; st_capabilities := sd_capabilities d;
     st_conflictKeys := sd_conflictKeys d; st_criteria := sd_criteria d; st_budget := sd_budget d;
     st_maxAttempts := sd_maxAttempts d; st_attemptIds := [] |}.

Definition limited (maximum : Z) (s : string) : Prop := boundedText (JStr s) maximum = true.
Record criterion_wf (c : PlanSuccessCriterionV1) : Prop := {
  crw_id : SAFE_ID (sc_criterionId c) = true;
  crw_description : limited MAX_TEXT_BYTES (sc_description c);
  crw_ref : when (limited MAX_REFERENCE_BYTES) (sc_ref c);
  crw_digest : when digest_ok (sc_expectedDigest c);
}.
(** The members of a step, beside what [step_wf] says of the step as a whole. *)
Record step_parts_wf `{JsEngine} (s : PlanStepV1) : Prop := {
  spw_title : limited MAX_TEXT_BYTES (st_title s);
  spw_order : count_ok (st_order s);
  spw_dependencies : Forall safe_ok (st_dependencies s);
  spw_capabilities : Forall safe_ok (st_capabilities s) ∧ Z.of_nat (length (st_capabilities s)) ≤ MAX_CAPABILITIES;
  spw_conflictKeys : Forall (limited MAX_REFERENCE_BYTES) (st_conflictKeys s) ∧ Z.of_nat (length (st_conflictKeys s)) ≤ MAX_CONFLICT_KEYS;
  spw_paths : Forall (limited MAX_REFERENCE_BYTES) (Plan.ac_paths (st_access s)) ∧ Z.of_nat (length (Plan.ac_paths (st_access s))) ≤ MAX_PATHS;
  spw_criteria : Forall criterion_wf (st_criteria s);
  spw_attempts : positive_ok (st_maxAttempts s);
  spw_budget : count_ok (eb_maxTurns (st_budget s)) ∧ count_ok (eb_maxToolCalls (st_budget s)) ∧
    when positive_ok (eb_maxTokens (st_budget s)) ∧ when (λ t, canonicalInstant (JStr t) = true) (eb_deadlineAt (st_budget s));
}.

Definition decision_wf (d : PlannerDecisionData) : Prop :=
  SAFE_ID (pd_reasonCode d) = true ∧ when safe_ok (pd_stepId d) ∧ when safe_ok (pd_attemptId d) ∧
  (pd_stepId d = None ↔ pd_attemptId d = None) ∧
  match pd_action d with
  | D_replan => pd_outcome d ∈ ["applied"; "no_progress"]%string ∧ pd_stepId d = None
  | D_ask_user => pd_outcome d = "selected"%string ∧ pd_stepId d = None
  | D_retry | D_continue | D_fresh_worker => pd_outcome d = "selected"%string ∧ pd_stepId d ≠ None
  end.

Definition generation_wf (d : PlannerGenerationData) : Prop :=
  gn_phase d ∈ ["initial"; "replan"]%string ∧ SAFE_ID (gn_generatorId d) = true ∧
  when (λ r, r ∈ ["parent_only"; "dag"]%string) (gn_route d) ∧ when safe_ok (gn_failureCode d) ∧ when safe_ok (gn_fallbackFromCode d) ∧
  gn_source d ∈ ["model"; "fallback"]%string ∧ gn_status d ∈ ["succeeded"; "failed"]%string ∧
  (gn_fallbackUsed d = true ↔ gn_source d = "fallback"%string) ∧
  (gn_status d = "failed"%string ↔ gn_failureCode d ≠ None) ∧
  (gn_fallbackUsed d = true ↔ gn_fallbackFromCode d ≠ None).

Section Payload.
Context `{JsEngine} `{JsCrypto}.

Record summary_wf (s : SessionCompactionSummaryV3) : Prop := {
  suw_objective : when text_ok (cs_objective s);
  suw_refs : when texts_ok (cs_relevantRefs s);
  suw_lists : Forall texts_ok [cs_decisions s; cs_constraints s; cs_readFiles s; cs_modifiedFiles s; cs_unresolved s; cs_activePlan s];
}.
Record compaction_wf (d : CompactionCreatedData) : Prop := {
  cpw_id : SAFE_ID (cc_checkpointId d) = true;
  cpw_previous : when safe_ok (cc_previousCheckpointId d);
  cpw_covered : positive_ok (cc_coveredStartSequence d) ∧ cc_coveredStartSequence d ≤ cc_coveredEndSequence d ∧
    positive_ok (cc_coveredEndSequence d);
  cpw_retained : positive_ok (cc_retainedStartSequence d);
  cpw_summary : summary_wf (cc_summary d);
  cpw_provenance : provenance_wf (cc_provenance d);
  cpw_digest : SHA256 (cc_summaryDigest d) = true ∧ cc_summaryDigest d = sessionCompactionSummaryDigestV3 (cc_summary d);
  cpw_tokens : count_ok (cc_summaryTokens d);
  cpw_checkpoint : when checkpoint_wf (cc_checkpoint d);
}.
Record fact_wf (f : VerifiedPlanControlFactV1) : Prop := {
  fcw_ids : Forall safe_ok [vf_controlEventId f; vf_actorId f; vf_sessionId f];
  fcw_digests : Forall digest_ok [vf_actorBindingDigest f; vf_targetDigest f; vf_challengeDigest f; vf_tokenDigest f];
  fcw_challenge : String.prefix "pcc_" (vf_challengeId f) = true;
  fcw_reason : controlReasonMatches (vf_action f) (vf_reasonCode f) = true;
  fcw_run : when safe_ok (vf_runId f) ∧ when safe_ok (vf_providerTurnId f);
  fcw_target : target_wf (vf_target f);
  fcw_instants : js_le (vf_expiresAt f) (vf_issuedAt f) = Ok false;
}.
Definition proof_wf (p : ReuseProof) : Prop :=
  SAFE_ID (rp_stepId p) = true ∧ SHA256 (rp_previousInputDigest p) = true ∧ SHA256 (rp_nextInputDigest p) = true.
Definition ARTIFACT_OWNERS : list string :=
  ["message"; "run"; "command"; "compaction"; "subagent"; "verification"; "review_plan_definition"; "review_evidence";
   "review_decision"; "workflow_effect_request"]%string.

Definition payload_wf (runId : option string) (data : SessionEntryData) : Prop :=
  match data with
  | session_created d => text_ok (cr_cwd d) ∧ SAFE_ID (cr_provider d) = true ∧ SAFE_ID (cr_model d) = true ∧
      text_ok (cr_name d) ∧ texts_ok (cr_labels d) ∧ when positive_ok (cr_contextLimitTokens d) ∧
      when (λ f, SAFE_ID (fk_parentSessionId f) = true ∧ SAFE_ID (fk_sourceEntryId f) = true) (cr_fork d)
  | session_metadata_updated d => when text_ok (mu_name d) ∧ when texts_ok (mu_labels d) ∧
      when safe_ok (mu_provider d) ∧ when safe_ok (mu_model d) ∧ when safe_ok (mu_activeLeafId d) ∧
      when positive_ok (mu_contextLimitTokens d)
  | session_plan_updated plan => plan = JNull ∨ compact_plan_wf plan
  | session_closed reason | session_reopened reason => when text_ok reason
  | session_forked d => SAFE_ID (fo_childSessionId d) = true ∧ SAFE_ID (fo_sourceEntryId d) = true
  | session_deleted v => ∃ o, v = JObj o ∧ deleted_wf o
  | message_committed messageId message => SAFE_ID messageId = true ∧ ∃ o, message = JObj o ∧ message_wf o
  | run_started clientRequestId _ => is_Some runId ∧ SAFE_ID clientRequestId = true
  | run_terminal d => is_Some runId ∧ usage_wf (rt_usage d) ∧ when safe_ok (rt_errorCode d)
  | command_invoked commandId v resultRef => when text_ok resultRef ∧
      ∃ o, v = JObj o ∧ o .: "commandId" = JStr commandId ∧ command_wf o
  | skill_invoked invocationId invocation => SAFE_ID invocationId = true ∧ skill_wf invocation
  | permission_decided requestId v => ∃ o, v = JObj o ∧ o .: "requestId" = JStr requestId ∧ permission_wf o
  | usage_recorded source usage => source ∈ ["provider"; "tool"; "subagent"]%string ∧ budget_usage_wf usage
  | planner_generation_recorded d => is_Some runId ∧ generation_wf d
  | compaction_created d => compaction_wf d
  | plan_created d => plan_at (pc_planId d) (pc_planRevision d) ∧ text_ok (pc_objective d)
  | plan_state_changed d => plan_at (psc_planId d) (psc_planRevision d)
  | plan_decision_recorded d => plan_at (pd_planId d) (pd_planRevision d) ∧ decision_wf d
  | plan_revised d => plan_at (pr_planId d) (pr_fromRevision d) ∧ positive_ok (pr_toRevision d) ∧ text_ok (pr_objective d) ∧
      Forall proof_wf (pr_reuseProofs d) ∧ NoDup (rp_stepId <$> pr_reuseProofs d) ∧ Z.of_nat (length (pr_reuseProofs d)) ≤ 64
  | step_created d => step_at (sd_planId d) (sd_planRevision d) (sd_stepId d) ∧ step_wf (created_step d) ∧ step_parts_wf (created_step d)
  | step_state_changed d => step_at (ssc_planId d) (ssc_planRevision d) (ssc_stepId d) ∧
      (ssc_reason d = None ↔ ssc_newAttemptId d = None) ∧ when safe_ok (ssc_newAttemptId d) ∧ when safe_ok (ssc_errorCode d) ∧
      (ssc_errorCode d ≠ None → ssc_state d ∈ [S_failed; S_blocked; S_cancelled; S_interrupted])
  | attempt_created d => attempt_at (ac_planId d) (ac_planRevision d) (ac_stepId d) (ac_attemptId d) ∧
      positive_ok (ac_ordinal d) ∧ when safe_ok (ac_childRunId d)
  | attempt_state_changed d =>
      attempt_at (asc_planId d) (asc_planRevision d) (asc_stepId d) (asc_attemptId d) ∧ when safe_ok (asc_errorCode d) ∧
      (asc_errorCode d ≠ None → asc_state d ∈ [A_execution_failed; A_rejected; A_cancelled; A_interrupted])
  | attempt_execution_completed d =>
      attempt_at (aec_planId d) (aec_planRevision d) (aec_stepId d) (aec_attemptId d)
  | subagent_execution_bound d =>
      attempt_at (seb_planId d) (seb_planRevision d) (seb_stepId d) (seb_attemptId d) ∧ SAFE_ID (seb_childRunId d) = true ∧
      ∃ request, validateSubagentExecutionRequestV1 (seb_request d) = Ok request ∧
        sr_childRunId request = seb_childRunId d
  | subagent_result_recorded d =>
      attempt_at (srr_planId d) (srr_planRevision d) (srr_stepId d) (srr_attemptId d) ∧
      SAFE_ID (srr_childRunId d) = true ∧ text_ok (srr_resultRef d) ∧ SHA256 (srr_resultDigest d) = true
  | verification_recorded d =>
      attempt_at (vrd_planId d) (vrd_planRevision d) (vrd_stepId d) (vrd_attemptId d) ∧
      SAFE_ID (vrd_verificationId d) = true ∧ texts_ok (vrd_evidenceRefs d) ∧ when safe_ok (vrd_code d)
  | artifact_referenced owner a => owner ∈ ARTIFACT_OWNERS ∧ SAFE_ID (ar_artifactId a) = true ∧ SHA256 (ar_digest a) = true ∧
      text_ok (ar_mimeType a) ∧ count_ok (ar_bytes a)
  | control_authorized d => SAFE_ID (ca_authorizationRequestId d) = true ∧
      SHA256 (ca_challengeEnvelopeDigest d) = true ∧ fact_wf (ca_fact d)
  | control_turn_bound c r t => SAFE_ID c = true ∧ SAFE_ID r = true ∧ SAFE_ID t = true
  | control_discarded c _ => SAFE_ID c = true
  | control_consumed c _ target => SAFE_ID c = true ∧ SHA256 target = true
  | review_budget_reserved d => SAFE_ID (rr_reviewRequestId d) = true ∧ positive_ok (rr_attemptNumber d) ∧
      usage_wf (rr_reservation d)
  | review_budget_settled d => SAFE_ID (rs_reviewRequestId d) = true ∧ positive_ok (rs_attemptNumber d) ∧
      usage_wf (rs_usage d)
  | working_plan_saved operationId inputDigest plan => SAFE_ID operationId = true ∧
      printed (λ s, SHA256 s = true) inputDigest ∧ working_plan_wf plan
  | working_plan_review_requested r => wr_reportRef r = None ∧ working_review_wf r
  | working_plan_reviewed r => wr_reportRef r ≠ None ∧ working_review_wf r
  | review_plan_event type v => review_event_wf type v
  end.

(** ** The validator establishes them *)

Lemma fork_of_wf v f : fork_of v = Ok f → SAFE_ID (fk_parentSessionId f) = true ∧ SAFE_ID (fk_sourceEntryId f) = true.
Proof. unfold fork_of, exactFields. intros Hf. fields. done. Qed.

Lemma decision_rejected_wf d v :
  SAFE_ID (pd_reasonCode d) = true → when safe_ok (pd_stepId d) → when safe_ok (pd_attemptId d) →
  (pd_attemptId d = None ↔ pd_stepId d = None) → (pd_stepId d = None ↔ v = JUndef) →
  decision_rejected (pd_action d) (pd_outcome d) v = false → decision_wf d.
Proof.
  intros Hreason Hstep Hattempt Hpair Hv Hd. do 3 (split; [done|]). split; [by symmetry|].
  assert (is_undef v = bool_decide (pd_stepId d = None)) as Hu.
  { destruct (is_undef v) eqn:E; symmetry.
    - apply bool_decide_eq_true_2, Hv. by apply is_undef_inv.
    - apply bool_decide_eq_false_2. intros ->%Hv. done. }
  unfold decision_rejected in Hd. rewrite Hu in Hd.
  destruct (pd_action d); split_bool;
    repeat match goal with
    | H : String.eqb _ _ = true |- _ => apply String.eqb_eq in H
    | H : memb _ _ = true |- _ => apply memb_true in H
    end; done.
Qed.

Lemma reuse_proofs_NoDup seen l ps :
  reuse_proofs seen l = Ok ps →
  NoDup (rp_stepId <$> ps) ∧ Forall (λ k, k ∉ seen) (rp_stepId <$> ps) ∧ length ps = length l ∧ Forall proof_wf ps.
Proof.
  revert seen ps. induction l as [|v l IH]; intros seen ps; cbn [reuse_proofs].
  - intros [= <-]. split_and!; [constructor|constructor|done|constructor].
  - intros Hp. repeat inv_ok_step. subst.
    match goal with H : reuse_proofs _ _ = Ok _ |- _ => apply IH in H as (Hnd & Hseen & Hlen & Hproofs) end.
    match goal with H : invalid_if (memb _ _) = Ok _ |- _ => apply invalid_if_Ok, memb_false in H end.
    rewrite fmap_cons. cbn [rp_stepId length]. rewrite Forall_forall in Hseen. split_and!.
    + constructor; [|done]. intros Hin. apply (Hseen _ Hin). left.
    + constructor; [done|]. apply Forall_forall. intros k Hk Hin. apply (Hseen _ Hk). by right.
    + by rewrite Hlen.
    + constructor; [|done]. by repeat field_inv.
Qed.

(** *** The members of a step *)

Lemma strs_checked (check : jsval → bool) (P : string → Prop) l :
  (∀ v, check v = true → ∃ s, v = JStr s ∧ P s) → forallb check l = true → Forall P (js_str <$> l).
Proof.
  intros HP Hl%forallb_true. apply Forall_fmap. eapply Forall_impl; [exact Hl|]. by intros v (s & -> & ?)%HP.
Qed.
Lemma boundedText_str v maximum : boundedText v maximum = true → ∃ s, v = JStr s ∧ limited maximum s.
Proof. intros Hv. destruct v as [| | | |s| | |]; try done. by exists s. Qed.
Lemma idList_ids v n l : idList v n = Ok l → Forall safe_ok l ∧ Z.of_nat (length l) ≤ n.
Proof.
  intros Hl. split; [|by apply idList_Ok in Hl as [_ ?]]. unfold idList in Hl. inv_ok. split_bool.
  by apply (strs_checked safeId _ _ safeId_value).
Qed.
Lemma textList_texts v n m l : textList v n m = Ok l → Forall (limited m) l ∧ Z.of_nat (length l) ≤ n.
Proof.
  unfold textList. intros Hl. inv_ok. split_bool. split; [|rewrite length_fmap; lia].
  by eapply (strs_checked (λ v, boundedText v m)); [intros w; apply boundedText_str|].
Qed.
(** An optional member that was not rejected. *)
Lemma opt_accepted {A} (check : jsval → bool) (f : jsval → A) (P : A → Prop) v :
  (check v = true → P (f v)) → opt_rejected v check = false → when P (opt f v).
Proof.
  unfold opt_rejected. intros HP Hv. destruct v; [done|..]; cbn [is_undef negb andb] in Hv; apply negb_false_iff in Hv; by apply HP.
Qed.

Lemma validateCriterion_wf v c : validateCriterion v = Ok c → criterion_wf c.
Proof.
  unfold validateCriterion. intros Hc. repeat open_plan_step. subst. split_bool. split; cbn.
  - match goal with Hs : safeId _ = true |- _ => by apply safeId_value in Hs as (s & -> & ?) end.
  - match goal with Hs : boundedText _ _ = true |- _ => by apply boundedText_str in Hs as (s & -> & ?) end.
  - eapply opt_accepted; [|eassumption]. by intros (s & -> & ?)%boundedText_str.
  - eapply opt_accepted; [|eassumption]. match goal with |- digest ?w = true → _ => by destruct w end.
Qed.
Lemma validateBudget_parts v b : validateBudget v = Ok b →
  count_ok (eb_maxTurns b) ∧ count_ok (eb_maxToolCalls b) ∧ when positive_ok (eb_maxTokens b) ∧
  when (λ t, canonicalInstant (JStr t) = true) (eb_deadlineAt b).
Proof.
  unfold validateBudget. intros Hb. repeat open_plan_step. subst. split_bool. cbn. split_and!.
  - by apply count_int.
  - by apply count_int.
  - eapply opt_accepted; [|eassumption]. by intros (z & -> & ?)%positiveInteger_inv.
  - eapply opt_accepted; [|eassumption]. match goal with |- canonicalInstant ?w = true → _ => by destruct w end.
Qed.
Lemma validatePlanStepV1_parts v s : validatePlanStepV1 v = Ok s → step_parts_wf s.
Proof.
  unfold validatePlanStepV1, validateAccess. intros Hs. repeat open_plan_step. subst. split_bool.
  repeat match goal with
  | Hx : idList _ _ = Ok _ |- _ => apply idList_ids in Hx as [? ?]
  | Hx : textList _ _ _ = Ok _ |- _ => apply textList_texts in Hx as [? ?]
  | Hx : validateBudget _ = Ok _ |- _ => apply validateBudget_parts in Hx
  | Hx : mapM validateCriterion _ = Ok _ |- _ => apply mapM_Ok in Hx
  end.
  split; cbn; try done.
  - match goal with Hx : boundedText _ _ = true |- _ => by apply boundedText_str in Hx as (t & -> & ?) end.
  - by apply count_int.
  - eapply Forall2_Forall_r; [eassumption|]. apply Forall_forall. intros w _ c. apply validateCriterion_wf.
  - match goal with Hx : positiveInteger _ = true |- _ => by apply positiveInteger_inv in Hx as (z & -> & ?) end.
Qed.

Lemma step_payload_wf data st stepId order title :
  validatePlanStepPayload data = Ok st → data .: "stepId" = JStr stepId → data .: "order" = JInt order → data .: "title" = JStr title →
  st_stepId st = stepId ∧ st_order st = order ∧ st_title st = title ∧ st_attemptIds st = [] ∧ step_wf st ∧ step_parts_wf st.
Proof.
  unfold validatePlanStepPayload. intros Hs%rethrow_Ok Hid Hord Htitle.
  pose proof (validatePlanStepV1_wf _ _ Hs) as Hwf. pose proof (validatePlanStepV1_parts _ _ Hs) as Hparts.
  revert Hs. unfold validatePlanStepV1, exactRecord. rewrite exact_record_lit by (vm_compute; reflexivity).
  cbn [mbind res_bind get String.eqb Ascii.eqb Bool.eqb]. rewrite Hid, Hord, Htitle. intros Hs.
  repeat inv_ok_step. subst st. cbn. split_and!; [done|done|done| |done|done].
  match goal with H : idList (JArr []) _ = Ok _ |- _ => unfold idList in H; by inv_ok end.
Qed.

(** A checked field of a well-formed payload. *)
Ltac wf_fields := fields; repeat match goal with
  | H : opt_res positiveField _ = Ok _ |- _ =>
      apply (opt_res_when _ positive_ok) in H; [|by intros ? [_ ?]%positiveField_Ok]
  | H : opt_res textListField _ = Ok _ |- _ =>
      apply (opt_res_when _ texts_ok) in H; [|by intros ? [_ ?]%textListField_Ok]
  | H : opt_res (literal ?names) _ = Ok _ |- _ =>
      apply (opt_res_when _ (λ s, s ∈ names)) in H; [|by intros ? [_ ?]%literal_Ok]
  | H : skillInvocation _ = Ok _ |- _ => apply skillInvocation_wf in H
  | H : providerMessage _ = Ok _ |- _ => apply providerMessage_wf in H
  | H : opt_res fork_of _ = Ok _ |- _ => apply (opt_res_when _ _ _ _ (fork_of_wf _)) in H
  | H : providerUsageValue _ = Ok _ |- _ => apply providerUsageValue_wf in H
  | H : budgetUsageValue _ = Ok _ |- _ => apply budgetUsageValue_wf in H
  end.

Lemma present_iff {A} (o : option A) v : (o = None ↔ v = JUndef) → negb (is_undef v) = true ↔ o ≠ None.
Proof.
  intros Ho. rewrite Ho, negb_true_iff. split.
  - intros Hv ->. done.
  - intros Hv. destruct (is_undef v) eqn:E; [|done]. by apply is_undef_inv in E.
Qed.

Lemma opt_res_None {A} (f : jsval → res A) v o : opt_res f v = Ok o → o = None ↔ v = JUndef.
Proof. intros [[-> ->]|(Hv & a & _ & ->)]%opt_res_Ok; naive_solver. Qed.

(** [(left === undefined) === (right === undefined)]. *)
Lemma both_present {A B} (a : option A) (b : option B) v w :
  (a = None ↔ v = JUndef) → (b = None ↔ w = JUndef) → Bool.eqb (is_undef v) (is_undef w) = true →
  a = None ↔ b = None.
Proof. intros -> -> He%eqb_prop. destruct v, w; done. Qed.

(** [value !== undefined && !allowed] did not hold. *)
Lemma present_allowed {A} (o : option A) v b :
  (o = None ↔ v = JUndef) → negb (is_undef v) && negb b = false → o ≠ None → b = true.
Proof. intros Ho%present_iff Hb Hn%Ho. rewrite Hn in Hb. by apply negb_false_iff. Qed.

Lemma generation_payload_wf data runId d :
  planner_generation_recorded_payload data runId = Ok d → payload_wf (opt js_str runId) d.
Proof.
  unfold planner_generation_recorded_payload. intros Hd. wf_fields. cbn [payload_wf].
  split; [by destruct runId|]. unfold generation_wf.
  cbn [gn_phase gn_generatorId gn_route gn_source gn_status gn_fallbackUsed gn_failureCode gn_fallbackFromCode].
  do 7 (split; [done|]).
  repeat match goal with
  | H : Bool.eqb _ _ = true |- _ => apply eqb_prop in H
  | H : data .: ?k = JStr _ |- _ => rewrite H in *
  | H : _ = None ↔ _ |- _ => apply present_iff in H
  end.
  cbn [is_str] in *.
  repeat match goal with H : bool_decide (?x = ?y) = ?b |- _ =>
    assert (x = y ↔ b = true) by (rewrite <-H; symmetry; apply bool_decide_eq_true); clear H end.
  subst. naive_solver.
Qed.

Lemma compactionSummary_wf v s : compactionSummary v = Ok s → summary_wf s.
Proof. unfold compactionSummary. intros Hs. wf_fields. split; cbn; [done|done|]. repeat (constructor; [done|]). constructor. Qed.

Lemma compaction_payload_wf data d runId : compaction_created_payload data = Ok d → payload_wf runId d.
Proof.
  unfold compaction_created_payload. intros Hd. wf_fields. cbn [payload_wf].
  repeat match goal with
  | Hx : compactionSummary _ = Ok _ |- _ => apply compactionSummary_wf in Hx
  | Hx : compactionProvenance _ = Ok _ |- _ => apply compactionProvenance_wf in Hx
  | Hx : when_defined checkpointValue _ = Ok _ |- _ => apply (maybe_when _ checkpoint_wf _ _ (checkpointValue_wf _)) in Hx
  end.
  split; cbn; try done.
  - split_and!; [done|lia|done].
  - split; [done|by apply dec_stable].
  - destruct (data .: "checkpoint"); [done|..]; match goal with Hx : maybe checkpoint_wf _ |- _ => by apply Hx end.
Qed.

Lemma decision_payload_wf data d runId : plan_decision_recorded_payload data = Ok d → payload_wf runId d.
Proof.
  unfold plan_decision_recorded_payload. intros Hd. wf_fields. cbn [payload_wf]. split; [done|].
  eapply decision_rejected_wf; cbn; [done|done|done| |eassumption..].
  by eapply both_present.
Qed.

Lemma revised_payload_wf data d runId : plan_revised_payload data = Ok d → payload_wf runId d.
Proof.
  unfold plan_revised_payload, replanReuseProofs. intros Hd. wf_fields. cbn.
  match goal with H : reuse_proofs _ _ = Ok _ |- _ => apply reuse_proofs_NoDup in H as (? & _ & Hlen & ?) end.
  rewrite Hlen. done.
Qed.

Lemma step_created_payload_wf data d runId : step_created_payload data = Ok d → payload_wf runId d.
Proof.
  unfold step_created_payload. intros Hd. wf_fields. cbn [payload_wf]. split; [done|].
  match goal with Hs : validatePlanStepPayload _ = Ok _, Hi : get data "stepId" = _, Ho : get data "order" = _, Ht : get data "title" = _ |- _ =>
    destruct (step_payload_wf _ _ _ _ _ Hs Hi Ho Ht) as (E1 & E2 & E3 & E4 & [] & []) end.
  rewrite <-E1, <-E2, <-E3. rewrite E4 in *. by split.
Qed.

Lemma bound_payload_wf data d runId : subagent_execution_bound_payload data = Ok d → payload_wf runId d.
Proof.
  unfold subagent_execution_bound_payload. intros Hd. wf_fields. cbn. do 2 (split; [done|]).
  eexists. split; [eassumption|]. by apply dec_stable.
Qed.

Lemma control_authorized_payload_wf data d runId : control_authorized_payload data = Ok d → payload_wf runId d.
Proof.
  unfold control_authorized_payload, verifiedPlanControlFact. intros Hd. wf_fields. cbn.
  subst. split_and!; [done|done|]. split; cbn; try done; [by repeat constructor|by repeat constructor|by eapply planControlTarget_wf].
Qed.

Lemma step_changed_payload_wf data d runId : step_state_changed_payload data = Ok d → payload_wf runId d.
Proof.
  unfold step_state_changed_payload. intros Hd. wf_fields. cbn. split_and!; try done.
  - eapply both_present; [|eassumption..]. by eapply opt_res_None.
  - intros Hn. eapply bool_decide_eq_true_1, present_allowed; eassumption.
Qed.

Lemma attempt_changed_payload_wf data d runId : attempt_state_changed_payload data = Ok d → payload_wf runId d.
Proof.
  unfold attempt_state_changed_payload. intros Hd. wf_fields. cbn. split_and!; try done.
  intros Hn. eapply bool_decide_eq_true_1, present_allowed; eassumption.
Qed.

Lemma working_plan_payload_wf type data d runId : working_plan_payload type data = Ok d → payload_wf runId d.
Proof.
  unfold working_plan_payload, validateWorkingPlanEventV1, wp_reject_if. intros Hd. repeat inv_ok_step. subst.
  destruct (String.eqb type "working_plan.saved"); repeat inv_ok_step; subst.
  - match goal with Hi : wp_id _ = Ok _, Hd : digest_text _ = Ok _, Hp : validateWorkingPlanV1 _ = Ok _ |- _ =>
      apply wp_id_Ok in Hi as [_ ?]; apply digest_text_Ok in Hd as [-> ?]; by apply validateWorkingPlanV1_wf in Hp end.
  - match goal with H : validateWorkingReviewV1 _ = Ok _ |- _ => apply validateWorkingReviewV1_wf in H end.
    split_bool. match goal with H : Bool.eqb _ _ = true |- _ => apply eqb_prop in H as -> end.
    destruct (wr_reportRef _) eqn:Hr; cbn; by rewrite Hr.
Qed.

Lemma artifact_payload_wf data d runId : artifact_referenced_payload data = Ok d → payload_wf runId d.
Proof. unfold artifact_referenced_payload, artifact_of. intros Hd. by wf_fields. Qed.

Lemma plan_updated_payload_wf data d runId : session_plan_updated_payload data = Ok d → payload_wf runId d.
Proof.
  unfold session_plan_updated_payload. intros (_ & _ & ([] & Hp & [= <-])%bind_Ok)%bind_Ok. cbn [payload_wf].
  destruct (data .: "plan"); [|by left|..]; right; exact (compactPlanValue_wf _ _ Hp).
Qed.
Lemma deleted_payload_wf data d runId : session_deleted_payload data = Ok d → payload_wf runId d.
Proof. intros [-> ?]%session_deleted_wf. by eexists. Qed.
Lemma invoked_payload_wf data d runId : command_invoked_payload data = Ok d → payload_wf runId d.
Proof. intros (commandId & resultRef & -> & ? & ? & ?)%command_payload_wf. split; [done|]. by eexists. Qed.
Lemma decided_payload_wf data d runId : permission_decided_payload data = Ok d → payload_wf runId d.
Proof. intros (requestId & -> & ? & ?)%permission_payload_wf. by eexists. Qed.

Lemma present_run (runId : jsval) r : runId = JStr r → is_Some (opt js_str runId).
Proof. by intros ->. Qed.

(** The [switch] of [validatePayload]. *)
Lemma payload_cases_wf type check data runId d :
  (type, check) ∈ payload_cases → check data runId = Ok d → payload_wf (opt js_str runId) d.
Proof.
  unfold payload_cases. intros Hin Hd. revert Hd.
  repeat (apply elem_of_cons in Hin as [[= -> ->]|Hin]); [..|by apply elem_of_nil in Hin].
  all: first [apply generation_payload_wf | apply compaction_payload_wf | apply decision_payload_wf
    | apply revised_payload_wf | apply step_created_payload_wf | apply bound_payload_wf
    | apply control_authorized_payload_wf | apply step_changed_payload_wf | apply attempt_changed_payload_wf
    | apply artifact_payload_wf | apply plan_updated_payload_wf | apply deleted_payload_wf
    | apply invoked_payload_wf | apply decided_payload_wf | idtac].
  all: intros Hd; lazymatch type of Hd with
    | ?f _ _ = _ => unfold f in Hd
    | ?f _ = _ => unfold f in Hd
    end; wf_fields; cbn; repeat match goal with |- _ ∧ _ => split end.
  all: first [done | by eapply present_run].
Qed.
End Payload.

(** ** Entries *)

Record envelope_wf `{JsEngine} (e : SessionEntryV3) : Prop := {
  ew_entryId : SAFE_ID (en_entryId e) = true;
  ew_sessionId : SAFE_ID (en_sessionId e) = true;
  ew_sequence : positive_ok (en_sequence e);
  ew_revision : positive_ok (en_revision e);
  ew_timestamp : canonicalInstant (JStr (en_timestamp e)) = true;
  ew_runId : when safe_ok (en_runId e);
  ew_correlation : Forall (λ kv, kv.1 ∈ CORRELATION_KEYS ∧ SAFE_ID kv.2 = true) (en_correlation e);
}.

Lemma validCorrelation_wf v :
  validCorrelation v = true → Forall (λ kv, kv.1 ∈ CORRELATION_KEYS ∧ SAFE_ID kv.2 = true) (correlation_of v).
Proof.
  unfold validCorrelation. destruct v as [| | | | | |o|]; try done. intros Hv. split_bool.
  apply Forall_fmap, Forall_forall. intros [k x] Hin. cbn. split.
  - match goal with Hk : onlyKeys _ _ = true |- _ => apply forallb_true in Hk; rewrite Forall_forall in Hk end.
    apply memb_true. match goal with Hk : ∀ x, _ |- _ => apply Hk end. unfold keys. by apply (list_elem_of_fmap_2 fst) in Hin.
  - match goal with Hs : forallb safeId _ = true |- _ => apply forallb_true in Hs; rewrite Forall_forall in Hs end.
    apply (list_elem_of_fmap_2 snd) in Hin. cbn in Hin. match goal with Hs : ∀ x, _ |- _ => apply Hs in Hin end.
    by apply safeId_inv in Hin as (s & -> & ?).
Qed.

(** The envelope, whatever checks the events of a review plan. *)
Lemma validateSessionEntryV3_envelope `{JsEngine} `{JsCrypto} `{RP : ReviewPlanContract} v e :
  validateSessionEntryV3 v = Ok e →
  envelope_wf e ∧ ∃ type data runId, en_runId e = opt js_str runId ∧ validatePayload type data runId = Ok (en_data e).
Proof.
  unfold validateSessionEntryV3, envelope_rejected. intros He. fields.
  split; [|by do 3 eexists].
  canon; (split; cbn [en_entryId en_sessionId en_sequence en_revision en_timestamp en_runId en_correlation en_data]; try done).
  all: by apply validCorrelation_wf.
Qed.

Section Entry.
Context `{JsEngine} `{JsCrypto}.

Definition entry_wf (e : SessionEntryV3) : Prop := envelope_wf e ∧ payload_wf (en_runId e) (en_data e).

Lemma validatePayload_wf type data runId d :
  validatePayload type data runId = Ok d → payload_wf (opt js_str runId) d.
Proof.
  unfold validatePayload. destruct (memb type WORKING_PLAN_TYPES); [apply working_plan_payload_wf|].
  destruct (isReviewPlanEventTypeV1 type).
  - cbn [check_review_plan_event review_plan]. intros Hd. inv_ok.
    match goal with Hr : validateReviewPlanEventV1 _ = Ok _ |- _ => exact (validateReviewPlanEventV1_wf _ _ Hr) end.
  - destruct (mget type payload_cases) as [check|] eqn:Hc; [|done].
    apply mget_elem_inv in Hc. by apply payload_cases_wf with type.
Qed.

(** C37 The declared type of an entry is what validation establishes. Of the envelope:
    identifiers match their pattern, the sequence and the revision are positive safe
    integers, the instant is canonical, and correlations use the known keys with
    identifiers as values. Of the payload of every entry type: each identifier,
    digest, literal and number is in its range, each list is within its limit, and the
    fields that belong together fit (ranges and digest of a compaction, the step of a
    decision, the failure of a generation, the error of a state, the child of a
    request, the reason of a control, the block of a blocked review plan).
    Texts are within their byte limits, except where the code sets none: a message
    content given as one string, the input of a tool call (any JSON value), and the
    objective and the titles of a working plan, which only may not be blank; nor does
    it limit the number of items of a working plan, whose identifiers are distinct. The challenge of a
    control has its prefix and its instants are ordered. The digests and the states of
    a working plan, and the digest of a skill, are those of the text they print.
    The request of an execution, the native context of a checkpoint, and the plan
    input, task contract, block, prepared review and decision of a review-plan event
    are described as what their own validators accept. *)
Theorem validateSessionEntryV3_sound v e : validateSessionEntryV3 v = Ok e → entry_wf e.
Proof.
  intros (Henv & type & data & runId & Hrun & Hd)%validateSessionEntryV3_envelope.
  split; [done|]. rewrite Hrun. by apply validatePayload_wf in Hd.
Qed.

(** The canonical text exists for every value that [assertJsonValue] accepts. *)
Lemma serialize_json v depth : assertJsonValue v depth = true → ∃ s, serialize v = Ok s.
Proof.
  revert depth. induction v as [| |b|n|s|l IH|o IH|] using jsval_nested_ind; intros depth; cbn [assertJsonValue];
    rewrite andb_true_iff; intros [_ Hv]; try done; try (by eexists).
  - exists (num_string n). cbn. by rewrite Hv.
  - enough (∃ texts, mapM serialize l = Ok texts) as [texts Ht] by (cbn; rewrite Ht; by eexists).
    apply forallb_true in Hv. induction IH as [|x l Hx _ IHl]; [by eexists|].
    apply Forall_cons in Hv as [Hjx Hv]. destruct (Hx _ Hjx) as [s Hs], (IHl Hv) as [k Hk].
    exists (s :: k). cbn. rewrite Hs. cbn. by rewrite Hk.
  - cbn [serialize]. match goal with |- context [mapM ?f o] => set (member := f) end.
    enough (∃ texts, mapM member o = Ok texts) as [texts Ht] by (rewrite Ht; by eexists).
    apply forallb_true in Hv. induction IH as [|[k x] o Hx _ IHo]; [by eexists|].
    apply Forall_cons in Hv as [Hjx Hv]. destruct (Hx _ Hjx) as [s Hs], (IHo Hv) as [m Hm]. cbn in Hs.
    eexists. cbn. rewrite Hs. cbn. by rewrite Hm.
Qed.
End Entry.
