(* ===== verification/SessionEntryErrors.v ===== *)
(** * How the validation of an entry fails

    The codes with which each check of SessionEntry.v can end, collected by a
    small calculus of failures, and the codes of [validateSessionEntryV3]. *)

From S2P Require Import Prelude Js JsOps CanonicalJson Samples Plan PlanSpec Subagent WorkingPlan ReviewPlan ReviewPlanEvents Session SessionReducer SessionSamples SessionEntry SessionEntrySpec.
Local Open Scope Z_scope.

(** ** A calculus of failures *)

(** [r] ends well or with one of the codes. *)
Definition fails_in {A} (codes : list string) (r : res A) : Prop :=
  match r with Ok _ => True | Err code => code ∈ codes end.

Lemma fails_bind {A B} codes (m : res A) (f : A → res B) :
  fails_in codes m → (∀ a, m = Ok a → fails_in codes (f a)) → fails_in codes (m ≫= f).
Proof. destruct m; cbn; [|done]. intros _ Hf. by apply Hf. Qed.
Lemma fails_fmap {A B} codes (m : res A) (f : A → B) : fails_in codes m → fails_in codes (f <$> m).
Proof. by destruct m. Qed.
Lemma fails_opt {A} codes (f : jsval → res A) v : fails_in codes (f v) → fails_in codes (opt_res f v).
Proof. destruct v; cbn; try done; apply fails_fmap. Qed.
Lemma fails_when {A} codes (f : jsval → res A) v : fails_in codes (f v) → fails_in codes (when_defined f v).
Proof. destruct v; cbn -[mbind]; try done; intros Hf; (apply fails_bind; [done|by intros]). Qed.
Lemma fails_mapM {A B} codes (f : A → res B) l : (∀ x, fails_in codes (f x)) → fails_in codes (mapM f l).
Proof.
  intros Hf. destruct (mapM f l) as [|code] eqn:Hm; [done|]. apply mapM_Err in Hm as (x & _ & Hx).
  specialize (Hf x). by rewrite Hx in Hf.
Qed.
Lemma fails_each codes check l : (∀ x, fails_in codes (check x)) → fails_in codes (each check l).
Proof. intros Hc. induction l as [|x l IH]; cbn [each]; [done|]. by apply fails_bind. Qed.
Lemma fails_rethrow {A} codes code (r : res A) : code ∈ codes → fails_in codes (rethrow code r).
Proof. by destruct r. Qed.
Lemma fails_if codes cond code : code ∈ codes → fails_in codes (fail_if cond code).
Proof. by destruct cond. Qed.

Lemma fails_Err {A} codes (r : res A) code : fails_in codes r → r = Err code → code ∈ codes.
Proof. by intros Hr ->. Qed.

Create HintDb fails.

(** One step through a check. *)
Ltac fails_step :=
  match goal with
  | |- fails_in _ (Ok _) => exact I
  | |- fails_in _ (Err _) => unfold fails_in
  | |- fails_in _ (_ ≫= _) => apply fails_bind; [|intros ? _]
  | |- fails_in _ (_ <$> _) => apply fails_fmap
  | |- fails_in _ (opt_res _ _) => apply fails_opt
  | |- fails_in _ (when_defined _ _) => apply fails_when; cbv beta
  | |- fails_in _ (mapM _ _) => apply fails_mapM; intros ?
  | |- fails_in _ (each _ _) => apply fails_each; intros ?
  | |- fails_in _ (rethrow _ _) => apply fails_rethrow
  | |- fails_in _ (fail_if _ _) => apply fails_if
  | |- fails_in _ (if ?b then _ else _) => destruct b
  | |- fails_in _ (match ?x with _ => _ end) => destruct x
  | |- ?c ∈ _ => first [left; fail | apply list_elem_of_here | apply list_elem_of_further]
  | |- _ => solve [auto with fails nocore]
  end.
Ltac fails := repeat fails_step.

(** ** Session entries *)

Definition ENTRY_CODES : list string := ["SESSION_ENTRY_INVALID"; "TypeError"]%string.

(** The checks that convert no text fail with the journal's code alone, among
    whatever codes the caller allows. *)
Section Fields.
Context {codes : list string} (Hcodes : "SESSION_ENTRY_INVALID"%string ∈ codes).
Abbreviation entry_fails := (fails_in codes).
#[local] Hint Resolve Hcodes : fails.

Lemma fails_invalid {A} : entry_fails (@invalid A).
Proof. exact Hcodes. Qed.
Lemma fails_invalid_if cond : entry_fails (invalid_if cond).
Proof. by apply fails_if. Qed.
#[local] Hint Resolve fails_invalid fails_invalid_if : fails.

Lemma fails_safe v : entry_fails (safe v).
Proof. unfold safe. fails. Qed.
Lemma fails_textField v : entry_fails (textField v).
Proof. unfold textField. fails. Qed.
Lemma fails_digestField v : entry_fails (digestField v).
Proof. unfold digestField. fails. Qed.
Lemma fails_positiveField v : entry_fails (positiveField v).
Proof. unfold positiveField. fails. Qed.
Lemma fails_nonNegative v : entry_fails (nonNegative v).
Proof. unfold nonNegative. fails. Qed.
Lemma fails_booleanField v : entry_fails (booleanField v).
Proof. unfold booleanField. fails. Qed.
Lemma fails_enumValue A `{JsEnum A} v : entry_fails (enumValue A v).
Proof. unfold enumValue. fails. Qed.
Lemma fails_literal names v : entry_fails (literal names v).
Proof. unfold literal. fails. Qed.
Lemma fails_recordField v : entry_fails (recordField v).
Proof. unfold recordField. fails. Qed.
Lemma fails_listField v n : entry_fails (listField v n).
Proof. unfold listField. fails. Qed.
Lemma fails_boundedContentText v : entry_fails (boundedContentText v).
Proof. unfold boundedContentText. fails. Qed.
Lemma fails_exactData o req opts : entry_fails (exactData o req opts).
Proof. apply fails_invalid_if. Qed.
#[local] Hint Resolve fails_safe fails_textField fails_digestField fails_positiveField fails_nonNegative
  fails_booleanField fails_enumValue fails_literal fails_recordField fails_listField
  fails_boundedContentText fails_exactData : fails.
Lemma fails_textListField v : entry_fails (textListField v).
Proof. unfold textListField. fails. Qed.
Lemma fails_optionalSafe v : entry_fails (optionalSafe v).
Proof. unfold optionalSafe. fails. Qed.
Lemma fails_optionalBounded v : entry_fails (optionalBounded v).
Proof. unfold optionalBounded. fails. Qed.
Lemma fails_requireRunId v : entry_fails (requireRunId v).
Proof. by apply fails_safe. Qed.
#[local] Hint Resolve fails_textListField fails_optionalSafe fails_optionalBounded fails_requireRunId : fails.
End Fields.
#[export] Hint Resolve fails_invalid fails_invalid_if fails_safe fails_textField fails_digestField
  fails_positiveField fails_nonNegative fails_booleanField fails_enumValue fails_literal fails_recordField
  fails_listField fails_boundedContentText fails_exactData fails_textListField fails_optionalSafe
  fails_optionalBounded fails_requireRunId : fails.
Lemma entry_code : "SESSION_ENTRY_INVALID"%string ∈ ENTRY_CODES.
Proof. apply list_elem_of_here. Qed.
Lemma entry_code_only : "SESSION_ENTRY_INVALID"%string ∈ ["SESSION_ENTRY_INVALID"%string].
Proof. apply list_elem_of_here. Qed.
#[export] Hint Resolve entry_code entry_code_only : fails.
Abbreviation entry_fails := (fails_in ENTRY_CODES).

Section Payloads.
Context `{JsEngine} `{JsCrypto}.

Lemma fails_to_text v : entry_fails (to_text v).
Proof. unfold to_text. fails. Qed.
Lemma fails_js_le a b : entry_fails (js_le a b).
Proof. unfold js_le. fails. Qed.
Lemma fails_usageCounts o : entry_fails (validateUsageCounts o).
Proof. apply fails_invalid_if. auto with fails. Qed.
End Payloads.
#[export] Hint Resolve fails_to_text fails_js_le fails_usageCounts : fails.

Section Parts.
Context `{JsEngine} `{JsCrypto}.

Lemma fails_providerUsage v : entry_fails (providerUsageValue v).
Proof. unfold providerUsageValue. fails. Qed.
Lemma fails_budgetUsage v : entry_fails (budgetUsageValue v).
Proof. unfold budgetUsageValue. fails. Qed.
Lemma fails_skillInvocation v : entry_fails (skillInvocation v).
Proof. unfold skillInvocation. fails. Qed.
End Parts.
#[export] Hint Resolve fails_providerUsage fails_budgetUsage fails_skillInvocation : fails.

Section Cases.
Context `{JsEngine} `{JsCrypto}.

Lemma fails_contentBlock v : entry_fails (providerContentBlock v).
Proof. unfold providerContentBlock. fails. Qed.
Lemma fails_content v : entry_fails (providerContent v).
Proof. unfold providerContent. destruct v; fails; apply fails_contentBlock. Qed.
Lemma fails_toolCalls v : entry_fails (providerToolCalls v).
Proof. unfold providerToolCalls. fails. Qed.
Lemma fails_message v : entry_fails (providerMessage v).
Proof. unfold providerMessage. fails; first [apply fails_content|apply fails_toolCalls]. Qed.
Lemma fails_summary v : entry_fails (compactionSummary v).
Proof. unfold compactionSummary. fails. Qed.
Lemma fails_generator v : entry_fails (compactionGeneratorIdentity v).
Proof. unfold compactionGeneratorIdentity. fails. Qed.
Lemma fails_provenance v : entry_fails (compactionProvenance v).
Proof. unfold compactionProvenance. fails; apply fails_generator. Qed.
Lemma fails_compactPlan v : entry_fails (compactPlanValue v).
Proof. unfold compactPlanValue. fails. Qed.
Lemma fails_checkpoint v : entry_fails (checkpointValue v).
Proof. unfold checkpointValue, checkpointScope. fails. Qed.
Lemma fails_binding v : entry_fails (planControlBinding v).
Proof. unfold planControlBinding. destruct v; fails. Qed.
Lemma fails_target v : entry_fails (planControlTarget v).
Proof. unfold planControlTarget. fails; apply fails_binding. Qed.
Lemma fails_fact v : entry_fails (verifiedPlanControlFact v).
Proof. unfold verifiedPlanControlFact. fails; apply fails_target. Qed.
Lemma fails_reuse seen l : entry_fails (reuse_proofs seen l).
Proof. revert seen. induction l as [|v l IH]; intros seen; cbn [reuse_proofs]; fails; apply IH. Qed.
Lemma fails_fork v : entry_fails (fork_of v).
Proof. unfold fork_of, exactFields. fails. Qed.
Lemma fails_artifact v : entry_fails (artifact_of v).
Proof. unfold artifact_of. fails. Qed.

Lemma fails_cases type check data runId :
  (type, check) ∈ payload_cases → entry_fails (check data runId).
Proof.
  unfold payload_cases. intros Hin.
  repeat (apply elem_of_cons in Hin as [[= -> ->]|Hin]); [..|by apply elem_of_nil in Hin].
  all: lazymatch goal with
    | |- fails_in _ (?f _ _ _ _) => unfold f
    | |- fails_in _ (?f _ _ _) => unfold f
    | |- fails_in _ (?f _ _) => unfold f
    | |- fails_in _ (?f _) => unfold f
    end.
  all: try unfold replanReuseProofs, validatePlanStepPayload; fails.
  all: first [apply fails_message|apply fails_summary|apply fails_provenance|apply fails_compactPlan
    |apply fails_checkpoint|apply fails_fact|apply fails_reuse|apply fails_fork|apply fails_artifact].
Qed.

Definition PLAN_CODES : list string := ["WORKING_PLAN_INVALID"; "TypeError"]%string.

Lemma fails_digest_text v : fails_in PLAN_CODES (digest_text v).
Proof. unfold digest_text, to_text, wp_reject_if. fails. Qed.
Lemma fails_artifact_text v : fails_in PLAN_CODES (artifact_text v).
Proof. unfold artifact_text, to_text, wp_reject_if. destruct v; fails. Qed.
Lemma fails_literal_text names v : fails_in PLAN_CODES (literal_text names v).
Proof. unfold literal_text, to_text, wp_reject_if. fails. Qed.
Lemma fails_wp_id v : fails_in PLAN_CODES (wp_id v).
Proof. unfold wp_id, wp_reject_if, wp_invalid. destruct v; fails. Qed.
Lemma fails_wp_text v : fails_in PLAN_CODES (wp_text v).
Proof. unfold wp_text, wp_reject_if, wp_invalid. destruct v; fails. Qed.
Lemma fails_wp_object v : fails_in PLAN_CODES (wp_object v).
Proof. unfold wp_object, wp_invalid. destruct v; fails. Qed.
Lemma fails_wp_exact o req opts : fails_in PLAN_CODES (wp_exact o req opts).
Proof. unfold wp_exact, wp_reject_if. fails. Qed.
Hint Resolve fails_digest_text fails_artifact_text fails_literal_text fails_wp_id fails_wp_text
  fails_wp_object fails_wp_exact : fails.

Lemma fails_items seen l : fails_in PLAN_CODES (check_items seen l).
Proof.
  revert seen. induction l as [|v l IH]; intros seen; cbn [check_items]; unfold wp_reject_if; fails; apply IH.
Qed.
Lemma fails_plan v : fails_in PLAN_CODES (validateWorkingPlanV1 v).
Proof. unfold validateWorkingPlanV1, wp_reject_if. fails; apply fails_items. Qed.
Lemma fails_planRevision v : fails_in PLAN_CODES (planRevision_of v).
Proof. unfold planRevision_of, wp_reject_if. destruct v; fails. Qed.
Lemma fails_review v : fails_in PLAN_CODES (validateWorkingReviewV1 v).
Proof. unfold validateWorkingReviewV1, wp_reject_if. fails; apply fails_planRevision. Qed.
Lemma fails_working type data :
  (∃ s, canonicalJsonV1 (JObj data) = Ok s) → fails_in PLAN_CODES (working_plan_payload type data).
Proof.
  intros [s Hs]. unfold working_plan_payload, validateWorkingPlanEventV1, wp_reject_if. rewrite Hs.
  fails; first [apply fails_plan|apply fails_review].
Qed.
End Cases.

(** ** The validator *)

Section Entry.
Context `{JsEngine} `{JsCrypto} `{RP : ReviewPlanContract}.

(** The payload of a JSON value is a JSON value. *)
Lemma json_field o k x depth : assertJsonValue (JObj o) depth = true → get o k = JObj x →
  ∃ depth', assertJsonValue (JObj x) depth' = true.
Proof.
  cbn [assertJsonValue]. rewrite andb_true_iff, forallb_true, Forall_forall. intros [_ Ho] Hk.
  destruct (get_elem o k) as [Hu|Hin]; [congruence|]. rewrite Hk in Hin. exists (depth + 1). exact (Ho _ Hin).
Qed.

(** A value that is no valid entry is refused with one of the codes of the
    journal: a record of another schema version as unsupported, everything else
    as invalid, save for the working plan's own code on its three types, whatever
    the review plan says of its own events, and the [TypeError] of a text
    conversion that the validator does not guard. *)
Theorem validateSessionEntryV3_error v code :
  validateSessionEntryV3 v = Err code →
  (code = "SESSION_ENTRY_VERSION_UNSUPPORTED"%string ∧ ∃ o, v = JObj o ∧ o .: "schemaVersion" ≠ JInt 3) ∨
  code ∈ ENTRY_CODES ∨
  ∃ o type, v = JObj o ∧ o .: "schemaVersion" = JInt 3 ∧ o .: "type" = JStr type ∧
    ((type ∈ WORKING_PLAN_TYPES ∧ code = "WORKING_PLAN_INVALID"%string) ∨
     (isReviewPlanEventTypeV1 type = true ∧ ∃ event, rpe_type event = type ∧
        check_review_plan_event event = Err code)).
Proof.
  unfold validateSessionEntryV3. destruct v as [| | | | | |o|];
    try (intros [= <-]; right; left; apply list_elem_of_here).
  cbn [recordField mbind res_bind]. destruct (is_int (o .: "schemaVersion") 3) eqn:Hver; cbn [negb fail_if].
  2:{ intros [= <-]. left. split; [done|]. exists o. split; [done|]. intros Hv. by rewrite Hv in Hver. }
  apply is_int_inv in Hver. cbn [mbind res_bind].
  intros [He|([] & Hj & He)]%bind_Err; [right; left; pose proof (fails_invalid_if entry_code (negb (assertJsonValue (JObj o) 0))) as Hf; unfold validateJsonValue in He; by rewrite He in Hf|].
  apply invalid_if_Ok, negb_false_iff in Hj.
  apply bind_Err in He as [He|([] & Hg & He)]; [right; left; pose proof (fails_invalid_if entry_code (envelope_rejected o)) as Hf; by rewrite He in Hf|].
  apply invalid_if_Ok in Hg. unfold envelope_rejected in Hg. split_bool.
  match goal with H : is_string _ = true |- _ => apply is_string_inv in H as [type Ht] end.
  match goal with H : is_record _ = true |- _ => rename H into Hr end.
  destruct (o .: "data") as [| | | | | |data|] eqn:Hd; try discriminate Hr. rewrite Ht in He.
  apply bind_Err in He as [He|(d & _ & [=])]. cbn [js_str fields_of] in He. unfold validatePayload in He.
  destruct (memb type WORKING_PLAN_TYPES) eqn:Hwork.
  - destruct (json_field _ _ _ _ Hj Hd) as [depth Hjd]. apply serialize_json in Hjd.
    apply (fails_Err _ _ _ (fails_working type data Hjd)) in He.
    apply elem_of_cons in He as [->|He]; right.
    + right. exists o, type. apply memb_true in Hwork. split_and!; try done. by left.
    + left. by apply list_elem_of_further.
  - destruct (isReviewPlanEventTypeV1 type) eqn:Hrev.
    + apply bind_Err in He as [He|(? & _ & [=])]. right; right. exists o, type. split_and!; try done.
      right. split; [done|]. eexists. by split; [|exact He].
    + right; left. destruct (mget type payload_cases) as [check|] eqn:Hc; [|injection He as <-; left].
      apply mget_elem_inv in Hc. exact (fails_Err _ _ _ (fails_cases type check data (o .: "runId") Hc) He).
Qed.
End Entry.

(** ** Concrete values *)

Definition sample_entry_value (type : string) (data : jsobj) : jsval := JObj
  [("schemaVersion", JInt 3); ("entryId", JStr "e1"); ("sessionId", JStr "s1"); ("sequence", JInt 1);
   ("revision", JInt 1); ("timestamp", JStr instant); ("type", JStr type); ("data", JObj data)]%string.

Definition sample_skill (digest : jsval) : jsval := JObj
  [("type", JStr "skill_invocation"); ("version", JInt 1); ("capabilityId", JStr "c1");
   ("origin", JStr "o"); ("digest", digest); ("arguments", JStr ""); ("content", JStr "")]%string.
Definition sample_skill_entry (digest : jsval) : jsval :=
  sample_entry_value "skill.invoked" [("invocationId", JStr "i1"); ("invocation", sample_skill digest)]%string.

(** [String(value.digest)] throws where the digest is an object whose own
    [toString] is not callable: the validator ends with a [TypeError]. *)
Example skill_digest_type_error :
  validateSessionEntryV3 (sample_skill_entry (JObj [("toString"%string, JNull)])) = Err "TypeError".
Proof. vm_compute. reflexivity. Qed.

(** [String] also makes a one-element array pass for a digest. *)
Example skill_digest_array :
  is_ok (validateSessionEntryV3 (sample_skill_entry (JArr [JStr sample_digest]))) = true.
Proof. vm_compute. reflexivity. Qed.

Definition sample_fact (issuedAt expiresAt : jsval) : jsval := JObj
  [("controlEventId", JStr "c1"); ("actorId", JStr "a1"); ("actorBindingDigest", JStr sample_digest);
   ("sessionId", JStr "s1"); ("action", JStr "abandon"); ("reasonCode", JStr "user_requested_abandon");
   ("target", JObj [("kind", JStr "plan"); ("planId", JStr "p1"); ("expectedPlanRevision", JInt 1);
      ("planStateDigest", JStr sample_digest)]);
   ("targetDigest", JStr sample_digest); ("challengeId", JStr "pcc_1"); ("challengeDigest", JStr sample_digest);
   ("tokenDigest", JStr sample_digest); ("issuedAt", issuedAt); ("expiresAt", expiresAt)]%string.

(** The instants of a control fact are not required to be instants: the results
    of [instant(...)] are dropped, and [false] comes before [true]. *)
Example control_fact_without_instants :
  is_ok (validateSessionEntryV3 (sample_entry_value "control.authorized"
    [("authorizationRequestId", JStr "r1"); ("challengeEnvelopeDigest", JStr sample_digest);
     ("fact", sample_fact (JBool false) (JBool true))]%string)) = true.
Proof. vm_compute. reflexivity. Qed.

Lemma validateSessionEntryV3_error_witness :
  validateSessionEntryV3 (JObj [("schemaVersion", JInt 2)]%string) = Err "SESSION_ENTRY_VERSION_UNSUPPORTED" ∧
  ∃ o, JObj [("schemaVersion", JInt 2)]%string = JObj o ∧ o .: "schemaVersion" ≠ JInt 3.
Proof.
  set (v := JObj [("schemaVersion", JInt 2)]%string).
  assert (validateSessionEntryV3 v = Err "SESSION_ENTRY_VERSION_UNSUPPORTED") as Hv by (vm_compute; reflexivity).
  split; [exact Hv|]. destruct (validateSessionEntryV3_error _ _ Hv) as [[_ Ho]|[Hin|(o & type & Ho & Hs & _)]].
  - exact Ho.
  - apply elem_of_cons in Hin as [[=]|[[=]|Hin%elem_of_nil]%elem_of_cons]. destruct Hin.
  - injection Ho as <-. vm_compute in Hs. discriminate Hs.
Defined.

Lemma validateSessionEntryV3_sound_witness :
  ∃ e, validateSessionEntryV3 (sample_skill_entry (JStr sample_digest)) = Ok e ∧ SAFE_ID (en_entryId e) = true.
Proof.
  assert (is_ok (validateSessionEntryV3 (sample_skill_entry (JStr sample_digest))) = true) as Hv by (vm_compute; reflexivity).
  destruct (validateSessionEntryV3 (sample_skill_entry (JStr sample_digest))) as [e|] eqn:He; [|discriminate Hv].
  exists e. split; [reflexivity|]. exact (ew_entryId _ (proj1 (validateSessionEntryV3_sound _ _ He))).
Defined.
