(* ===== verification/SessionCommit.v ===== *)
(** * Session commits: packages/core-sdk/src/session-journal-port.ts

    The commit that a writer hands to the journal: its construction with a
    checksum over its canonical text, the checks of its shape and of its place
    after the head of the journal, and the receipt of the store. *)

From S2P Require Import Prelude Js JsOps CanonicalJson Plan Session SessionReducer SessionEntry.
Local Open Scope Z_scope.

Definition MAX_COMMIT_ENTRIES : Z := 1024.

(** [sc_values] are the entries as values, [sc_entries] what they decode to. *)
Record SessionCommitV3 := {
  sc_sessionId : string;
  sc_commitId : string;
  sc_expectedRevision : Z;
  sc_idempotencyKey : string;
  sc_values : list jsval;
  sc_entries : list SessionEntryV3;
  sc_checksum : string;
}.

Record CreateSessionCommitInputV3 := {
  ci_sessionId : string;
  ci_commitId : string;
  ci_expectedRevision : Z;
  ci_idempotencyKey : string;
  ci_entries : list jsval;
}.

Record SessionJournalHeadV3 := { hd_revision : Z; hd_sequence : Z }.

Record SessionCommitReceiptV3 := {
  rc_sessionId : string;
  rc_commitId : string;
  rc_idempotencyKey : string;
  rc_revision : Z;
  rc_firstSequence : Z;
  rc_lastSequence : Z;
  rc_entryIds : list string;
  rc_checksum : string;
  rc_duplicate : bool;
}.

(** [entry.sequence !== entries[index - 1].sequence + 1] for some index above 0. *)
Fixpoint sequence_gap (entries : list SessionEntryV3) : bool :=
  match entries with
  | a :: (b :: _) as rest => negb (en_sequence b =? en_sequence a + 1) || sequence_gap rest
  | _ => false
  end.

Definition is_created (entry : SessionEntryV3) : bool :=
  match en_data entry with session_created _ => true | _ => false end.

Section Commit.
Context `{JsEngine} `{JsCrypto} `{RP : ReviewPlanContract}.

(** The text of the checksum: sorted keys, as in canonical-json.ts. *)
Definition canonicalJson (value : jsval) : res string :=
  rethrow "SESSION_COMMIT_INVALID" (serialize value).
Definition checksum (value : jsval) : res string :=
  text ← canonicalJson value; Ok ("sha256:" +:+ sha256_hex text).

(** The commit without its checksum. *)
Definition commit_fields (sessionId commitId : jsval) (expectedRevision : jsval) (idempotencyKey : jsval)
    (entries : list jsval) : jsobj :=
  [("schemaVersion", JInt 3); ("sessionId", sessionId); ("commitId", commitId);
   ("expectedRevision", expectedRevision); ("idempotencyKey", idempotencyKey);
   ("entries", JArr entries)]%string.

Definition commit_rejected (input : jsobj) : bool :=
  negb (onlyKeys input ["schemaVersion"; "sessionId"; "commitId"; "expectedRevision"; "idempotencyKey";
                        "entries"; "checksum"]%string)
  || negb (is_int (input .: "schemaVersion") 3) || negb (safeId (input .: "sessionId"))
  || negb (safeId (input .: "commitId")) || negb (nonNegativeInteger (input .: "expectedRevision"))
  || negb (safeId (input .: "idempotencyKey")) || negb (is_arr (input .: "entries"))
  || Nat.eqb (length (js_arr (input .: "entries"))) 0
  || (MAX_COMMIT_ENTRIES <? Z.of_nat (length (js_arr (input .: "entries"))))
  || negb (digest (input .: "checksum")).

Definition validateSessionCommitV3 (value : jsval) : res SessionCommitV3 :=
  input ← match value with JObj o => Ok o | _ => Err "SESSION_COMMIT_INVALID" end;
  fail_if (commit_rejected input) "SESSION_COMMIT_INVALID";;
  let values := js_arr (input .: "entries") in
  let expectedRevision := js_int (input .: "expectedRevision") in
  entries ← mapM validateSessionEntryV3 values;
  fail_if (existsb (λ entry, bool_decide (en_sessionId entry ≠ js_str (input .: "sessionId"))
             || negb (en_revision entry =? expectedRevision + 1)) entries
           || sequence_gap entries) "SESSION_COMMIT_INVALID";;
  fail_if (((expectedRevision =? 0)
            && match head entries with
               | Some e => negb (en_sequence e =? 1) || negb (is_created e)
               | None => false
               end)
           || ((0 <? expectedRevision) && existsb is_created entries)) "SESSION_COMMIT_INVALID";;
  sum ← checksum (JObj (commit_fields (input .: "sessionId") (input .: "commitId")
                          (input .: "expectedRevision") (input .: "idempotencyKey") values));
  fail_if (bool_decide (sum ≠ js_str (input .: "checksum"))) "SESSION_COMMIT_CHECKSUM_INVALID";;
  Ok {| sc_sessionId := js_str (input .: "sessionId"); sc_commitId := js_str (input .: "commitId");
        sc_expectedRevision := expectedRevision;
        sc_idempotencyKey := js_str (input .: "idempotencyKey"); sc_values := values;
        sc_entries := entries; sc_checksum := js_str (input .: "checksum") |}.

Definition createSessionCommitV3 (input : CreateSessionCommitInputV3) : res SessionCommitV3 :=
  let candidate := commit_fields (JStr (ci_sessionId input)) (JStr (ci_commitId input))
    (JInt (ci_expectedRevision input)) (JStr (ci_idempotencyKey input)) (ci_entries input) in
  sum ← checksum (JObj candidate);
  validateSessionCommitV3 (JObj (candidate ++ [("checksum", JStr sum)]%string)).

Definition assertSessionCommitAgainstHeadV3 (commit : SessionCommitV3)
    (headV3 : option SessionJournalHeadV3) : res unit :=
  fail_if (negb (sc_expectedRevision commit =? default 0 (hd_revision <$> headV3)))
    "SESSION_COMMIT_REVISION_CONFLICT";;
  fail_if match head (sc_entries commit) with
          | Some e => negb (en_sequence e =? default 0 (hd_sequence <$> headV3) + 1)
          | None => true
          end "SESSION_COMMIT_SEQUENCE_CONFLICT".

(** [commit.entries[0]!.sequence] and [commit.entries.at(-1)!.sequence]. *)
Definition first_sequence (commit : SessionCommitV3) : Z :=
  default 0 (en_sequence <$> head (sc_entries commit)).
Definition last_sequence (commit : SessionCommitV3) : Z :=
  default 0 (en_sequence <$> last (sc_entries commit)).

Definition sessionCommitReceiptV3 (commit : SessionCommitV3) (duplicate : bool) : SessionCommitReceiptV3 :=
  {| rc_sessionId := sc_sessionId commit; rc_commitId := sc_commitId commit;
     rc_idempotencyKey := sc_idempotencyKey commit; rc_revision := sc_expectedRevision commit + 1;
     rc_firstSequence := first_sequence commit; rc_lastSequence := last_sequence commit;
     rc_entryIds := en_entryId <$> sc_entries commit; rc_checksum := sc_checksum commit;
     rc_duplicate := duplicate |}.
End Commit.
