(* ===== verification/JournalDrafts.v ===== *)
(** * Drafts of journal entries

    The planner services write the journal alike: drafts of a type, a correlation
    and data become consecutive entries of one revision, which
    [validateSessionEntryV3] types before the commit.  Here is what the drafts
    decode to, and how their validation fails. *)

From S2P Require Import Prelude Js CanonicalJson Plan Session SessionReducer SessionEntry SessionEntrySpec SessionEntryErrors SessionCommit.
Local Open Scope Z_scope.

Record JournalEventDraft := {
  dr_type : string;
  dr_correlation : jsval;
  dr_data : jsval;
}.

Definition maxInstant (left right : string) : string := if string_ltb left right then right else left.

Section Drafts.
Context `{JsEngine} `{JsCrypto} `{RP : ReviewPlanContract}.
Context (createId : nat → string → string) (sessionId runId timestamp : string).

(** The value of the entry that the draft number [index] becomes after [sequence]
    entries, after [calls] calls of [createId]. *)
Definition entry_value (sequence revision : Z) (calls index : nat) (draft : JournalEventDraft) : jsval :=
  JObj [("schemaVersion", JInt 3); ("entryId", JStr (createId (calls + index) "entry"));
        ("sessionId", JStr sessionId); ("sequence", JInt (sequence + Z.of_nat index + 1)%Z);
        ("revision", JInt revision); ("timestamp", JStr timestamp);
        ("type", JStr (dr_type draft)); ("runId", JStr runId);
        ("correlation", dr_correlation draft); ("data", dr_data draft)]%string.
(** After the head of the projection. *)
Definition draft_value (projection : SessionProjectionV3) : nat → nat → JournalEventDraft → jsval :=
  entry_value (sn_sequence (pj_snapshot projection)) (sn_revision (pj_snapshot projection) + 1).

(** A draft with its correlation and its typed data. *)
Definition typed_draft : Type := SessionEntryCorrelationV3 * SessionEntryData.
Definition typed_entry (sequence revision : Z) (calls index : nat) (draft : typed_draft) : SessionEntryV3 :=
  {| en_entryId := createId (calls + index) "entry"; en_sessionId := sessionId;
     en_sequence := sequence + Z.of_nat index + 1; en_revision := revision; en_timestamp := timestamp;
     en_runId := Some runId; en_correlation := draft.1; en_data := draft.2 |}.
Definition draft_entry (projection : SessionProjectionV3) : nat → nat → typed_draft → SessionEntryV3 :=
  typed_entry (sn_sequence (pj_snapshot projection)) (sn_revision (pj_snapshot projection) + 1).

(** What a draft can decode to. *)
Definition decodes_to (draft : JournalEventDraft) (typed : typed_draft) : Prop :=
  correlation_of (dr_correlation draft) = typed.1 ∧
  ∀ runId data, validatePayload (dr_type draft) (fields_of (dr_data draft)) runId = Ok data → data = typed.2.

Lemma entry_value_decodes seq rev calls i draft typed e :
  decodes_to draft typed → validateSessionEntryV3 (entry_value seq rev calls i draft) = Ok e →
  e = typed_entry seq rev calls i typed.
Proof.
  intros [Hcorr Hdata] He. unfold validateSessionEntryV3, entry_value in He. inv_ok.
  match goal with Hx : recordField _ = Ok _ |- _ => injection Hx as <- end.
  match goal with Hp : validatePayload _ _ _ = Ok _ |- _ => apply Hdata in Hp as -> end.
  unfold typed_entry. by rewrite <-Hcorr.
Qed.

Lemma entry_values_decode seq rev calls drafts typed es :
  Forall2 decodes_to drafts typed → mapM validateSessionEntryV3 (imap (entry_value seq rev calls) drafts) = Ok es →
  es = imap (typed_entry seq rev calls) typed.
Proof.
  intros Hd Hes%mapM_Ok. apply list_eq. intros i.
  assert (length es = length typed) as Hlen.
  { by rewrite <-(Forall2_length _ _ _ Hes), length_imap, (Forall2_length _ _ _ Hd). }
  destruct (es !! i) as [e|] eqn:He; destruct (imap (typed_entry seq rev calls) typed !! i) as [e'|] eqn:He'; [| | |done].
  - rewrite list_lookup_imap in He'. apply fmap_Some in He' as (t & Ht & ->).
    destruct (Forall2_lookup_r _ _ _ _ _ Hes He) as (v & Hv & Hok). rewrite list_lookup_imap in Hv.
    apply fmap_Some in Hv as (draft & Hdraft & ->). f_equal. eapply entry_value_decodes; [|exact Hok].
    exact (Forall2_lookup_lr _ _ _ _ _ _ Hd Hdraft Ht).
  - apply lookup_lt_Some in He. apply lookup_ge_None in He'. rewrite length_imap in He'. lia.
  - apply lookup_lt_Some in He'. apply lookup_ge_None in He. rewrite length_imap in He'. lia.
Qed.

Lemma entry_value_fails seq rev calls i draft :
  (∀ runId data, fails_in ["SESSION_ENTRY_INVALID"%string] (validatePayload (dr_type draft) data runId)) →
  fails_in ["SESSION_ENTRY_INVALID"%string] (validateSessionEntryV3 (entry_value seq rev calls i draft)).
Proof.
  intros Hdata. unfold validateSessionEntryV3, entry_value. cbn [recordField mbind res_bind].
  cbn [get String.eqb Ascii.eqb Bool.eqb is_int JInt Z.eqb Pos.eqb negb fail_if mbind res_bind].
  unfold validateJsonValue. fails.
Qed.
End Drafts.

(** A created commit has the values and the place it was created with. *)
Section Created.
Context `{JsEngine} `{JsCrypto} `{RP : ReviewPlanContract}.

Lemma createSessionCommitV3_Ok ci c :
  createSessionCommitV3 ci = Ok c →
  sc_sessionId c = ci_sessionId ci ∧ sc_expectedRevision c = ci_expectedRevision ci ∧
  sc_values c = ci_entries ci ∧ mapM validateSessionEntryV3 (ci_entries ci) = Ok (sc_entries c).
Proof.
  unfold createSessionCommitV3, validateSessionCommitV3. intros Hc. inv_ok. done.
Qed.

(** The entries are valid already, and the checksum is that of the same text. *)
Lemma createSessionCommitV3_fails ci es :
  mapM validateSessionEntryV3 (ci_entries ci) = Ok es →
  fails_in ["SESSION_COMMIT_INVALID"%string] (createSessionCommitV3 ci).
Proof.
  intros Hes. unfold createSessionCommitV3. cbv zeta.
  apply fails_bind; [unfold checksum, canonicalJson; fails|]. intros sum Hsum.
  unfold validateSessionCommitV3, commit_fields in *.
  cbn [app mbind res_bind get String.eqb Ascii.eqb Bool.eqb js_str js_arr]. rewrite Hes, Hsum.
  cbn [mbind res_bind]. rewrite (bool_decide_eq_false_2 (sum ≠ sum)) by naive_solver.
  change (fail_if false "SESSION_COMMIT_CHECKSUM_INVALID") with (Ok tt). fails.
Qed.
End Created.

(** ** The payloads of the plan events *)

Section Payloads.
Context `{JsEngine} `{JsCrypto} `{RP : ReviewPlanContract}.

Lemma attempt_created_decode data runId d :
  validatePayload "attempt.created" data runId = Ok d → attempt_created_payload data = Ok d.
Proof. done. Qed.
Lemma step_changed_decode data runId d :
  validatePayload "step.state_changed" data runId = Ok d → step_state_changed_payload data = Ok d.
Proof. done. Qed.
Lemma attempt_changed_decode data runId d :
  validatePayload "attempt.state_changed" data runId = Ok d → attempt_state_changed_payload data = Ok d.
Proof. done. Qed.
Lemma execution_bound_decode data runId d :
  validatePayload "subagent.execution_bound" data runId = Ok d → subagent_execution_bound_payload data = Ok d.
Proof. done. Qed.
Lemma usage_recorded_decode data runId d :
  validatePayload "usage.recorded" data runId = Ok d → usage_recorded_payload data = Ok d.
Proof. done. Qed.

(** They fail with the one code. *)
Lemma attempt_created_fails data runId :
  fails_in ["SESSION_ENTRY_INVALID"%string] (validatePayload "attempt.created" data runId).
Proof. change (fails_in ["SESSION_ENTRY_INVALID"%string] (attempt_created_payload data)). unfold attempt_created_payload. fails. Qed.
Lemma step_changed_fails data runId :
  fails_in ["SESSION_ENTRY_INVALID"%string] (validatePayload "step.state_changed" data runId).
Proof. change (fails_in ["SESSION_ENTRY_INVALID"%string] (step_state_changed_payload data)). unfold step_state_changed_payload. fails. Qed.
Lemma attempt_changed_fails data runId :
  fails_in ["SESSION_ENTRY_INVALID"%string] (validatePayload "attempt.state_changed" data runId).
Proof. change (fails_in ["SESSION_ENTRY_INVALID"%string] (attempt_state_changed_payload data)). unfold attempt_state_changed_payload. fails. Qed.
End Payloads.

(** Read the fields of a literal payload. *)
Ltac read_payload :=
  repeat match goal with H : enumValue _ _ = Ok _ |- _ => vm_compute in H; injection H as <- end;
  repeat match goal with
  | H : optionalSafe _ = Ok _ |- _ => cbn [get app String.eqb Ascii.eqb Bool.eqb] in H; unfold optionalSafe in H; cbn [opt_res] in H
  | H : opt_res _ (get _ _) = Ok _ |- _ => cbn [get app String.eqb Ascii.eqb Bool.eqb opt_res] in H
  end;
  fields; cbn [get app String.eqb Ascii.eqb Bool.eqb] in *; simplify_eq.
