(* ===== verification/SessionPort.v ===== *)
(** * The journal port: packages/core-sdk/src/session-journal-port.ts

    [ReducingSessionJournalV3], the layer between the planner and a store: it
    validates what goes into the store and everything that comes out of it,
    reads a journal page by page, projects it and answers queries.  The store is
    the interface [SessionJournalCommitStoreV3]: its answer to the read number
    [k] is any value, so the journal may change between two reads. *)

From S2P Require Import Prelude Js JsOps CanonicalJson Plan ReviewPlan ReviewPlanEvents Session SessionReducer SessionEntry SessionCommit.
Local Open Scope Z_scope.

Definition MAX_PAGE_ENTRIES : Z := 512.

Record ReadSessionEntriesInputV3 := {
  ri_sessionId : string;
  ri_afterSequence : option Z;
  ri_limit : option Z;
  ri_throughSequence : option Z;
}.

Record SessionEntryPageV3 := {
  pa_sessionId : string;
  pa_entries : list SessionEntryV3;
  pa_nextAfterSequence : Z;
  pa_hasMore : bool;
  pa_head : SessionJournalHeadV3;
}.

Record SessionCommitAcceptedEventV3 := {
  ev_receipt : SessionCommitReceiptV3;
  ev_entries : list SessionEntryV3;
}.

(** The adapter: the answer to a read and to an append, by the number of the
    call, and the materialized projection that a durable store may keep. *)
Class SessionJournalCommitStoreV3 := {
  store_readEntries : nat → ReadSessionEntriesInputV3 → res jsval;
  store_appendCommit : SessionCommitV3 → res jsval;
  store_cachedProjection : option (string → res SessionProjectionV3);
}.

(** ** Reads *)

Definition validateReadInput (input : ReadSessionEntriesInputV3) : res unit :=
  fail_if (negb (SAFE_ID (ri_sessionId input))
           || match ri_afterSequence input with Some n => negb (nonNegativeInteger (JInt n)) | None => false end
           || match ri_limit input with
              | Some n => negb (isSafeInteger (JInt n)) || (n <? 1) || (MAX_PAGE_ENTRIES <? n)
              | None => false
              end
           || match ri_throughSequence input with Some n => negb (nonNegativeInteger (JInt n)) | None => false end)
    "SESSION_READ_INVALID".

Section Page.
Context `{JsEngine} `{JsCrypto} `{RP : ReviewPlanContract}.

Definition head_rejected (value : jsval) : bool :=
  match value with
  | JObj o => negb (onlyKeys o ["revision"; "sequence"]%string)
              || negb (nonNegativeInteger (o .: "revision")) || negb (nonNegativeInteger (o .: "sequence"))
  | _ => true
  end.
Definition head_of (value : jsval) : SessionJournalHeadV3 :=
  {| hd_revision := js_int ((fields_of value) .: "revision");
     hd_sequence := js_int ((fields_of value) .: "sequence") |}.

(** The first guard of [validatePage]: the shape of the page. *)
Definition page_rejected (input : jsobj) (request : ReadSessionEntriesInputV3) : bool :=
  negb (onlyKeys input ["sessionId"; "entries"; "nextAfterSequence"; "hasMore"; "head"]%string)
  || negb (is_str (input .: "sessionId") (ri_sessionId request)) || negb (is_arr (input .: "entries"))
  || negb (is_bool (input .: "hasMore")) || negb (nonNegativeInteger (input .: "nextAfterSequence"))
  || head_rejected (input .: "head").

(** The second guard: the entries are those that were asked for. *)
Definition page_misplaced (page : SessionEntryPageV3) (request : ReadSessionEntriesInputV3) : bool :=
  let after := default 0 (ri_afterSequence request) in
  let through := default (hd_sequence (pa_head page)) (ri_throughSequence request) in
  (hd_sequence (pa_head page) <? through)
  || (default MAX_PAGE_ENTRIES (ri_limit request) <? Z.of_nat (length (pa_entries page)))
  || existsb (λ entry, bool_decide (en_sessionId entry ≠ ri_sessionId request)
                || (en_sequence entry <=? after) || (through <? en_sequence entry)) (pa_entries page)
  || sequence_gap (pa_entries page)
  || negb (pa_nextAfterSequence page =? default after (en_sequence <$> last (pa_entries page)))
  || negb (Bool.eqb (pa_hasMore page) (pa_nextAfterSequence page <? through)).

Definition validatePage (value : jsval) (request : ReadSessionEntriesInputV3) : res SessionEntryPageV3 :=
  input ← match value with JObj o => Ok o | _ => Err "SESSION_BACKEND_CONTRACT_INVALID" end;
  fail_if (page_rejected input request) "SESSION_BACKEND_CONTRACT_INVALID";;
  entries ← mapM validateSessionEntryV3 (js_arr (input .: "entries"));
  let page := {| pa_sessionId := js_str (input .: "sessionId"); pa_entries := entries;
    pa_nextAfterSequence := js_int (input .: "nextAfterSequence");
    pa_hasMore := js_bool (input .: "hasMore"); pa_head := head_of (input .: "head") |} in
  fail_if (page_misplaced page request) "SESSION_BACKEND_CONTRACT_INVALID";;
  Ok page.

(** ** Receipts *)

Definition validateReceipt (value : jsval) (commit : SessionCommitV3) : res SessionCommitReceiptV3 :=
  input ← match value with JObj o => Ok o | _ => Err "SESSION_BACKEND_CONTRACT_INVALID" end;
  fail_if (negb (onlyKeys input ["sessionId"; "commitId"; "idempotencyKey"; "revision"; "firstSequence";
                                 "lastSequence"; "entryIds"; "checksum"; "duplicate"]%string)
           || negb (is_str (input .: "sessionId") (sc_sessionId commit))
           || negb (is_str (input .: "commitId") (sc_commitId commit))
           || negb (is_str (input .: "idempotencyKey") (sc_idempotencyKey commit))
           || negb (is_int (input .: "revision") (sc_expectedRevision commit + 1))
           || negb (is_int (input .: "firstSequence") (first_sequence commit))
           || negb (is_int (input .: "lastSequence") (last_sequence commit))
           || negb (is_arr (input .: "entryIds"))
           || negb (Nat.eqb (length (js_arr (input .: "entryIds"))) (length (sc_entries commit)))
           || existsb (λ '(id, entry), negb (is_str id (en_entryId entry)))
                (zip (js_arr (input .: "entryIds")) (sc_entries commit))
           || negb (is_str (input .: "checksum") (sc_checksum commit))
           || negb (is_bool (input .: "duplicate"))) "SESSION_BACKEND_CONTRACT_INVALID";;
  Ok {| rc_sessionId := js_str (input .: "sessionId"); rc_commitId := js_str (input .: "commitId");
        rc_idempotencyKey := js_str (input .: "idempotencyKey"); rc_revision := js_int (input .: "revision");
        rc_firstSequence := js_int (input .: "firstSequence");
        rc_lastSequence := js_int (input .: "lastSequence");
        rc_entryIds := js_str <$> js_arr (input .: "entryIds"); rc_checksum := js_str (input .: "checksum");
        rc_duplicate := js_bool (input .: "duplicate") |}.
End Page.

(** ** The journal *)

Section Journal.
Context `{JsEngine} `{JsCrypto} `{RP : ReviewPlanContract} `{Store : SessionJournalCommitStoreV3}.

(** The receipt and the event that the listeners are given; what a listener
    throws is dropped. *)
Definition appendCommit (input : jsval) : res (SessionCommitReceiptV3 * option SessionCommitAcceptedEventV3) :=
  commit ← validateSessionCommitV3 input;
  answer ← store_appendCommit commit;
  receipt ← validateReceipt answer commit;
  Ok (receipt, if rc_duplicate receipt then None
               else Some {| ev_receipt := receipt; ev_entries := sc_entries commit |}).

Definition readEntries (call : nat) (input : ReadSessionEntriesInputV3) : res SessionEntryPageV3 :=
  validateReadInput input;;
  answer ← store_readEntries call input;
  validatePage answer input.

Definition page_request (sessionId : string) (after : Z) (through : option Z) : ReadSessionEntriesInputV3 :=
  {| ri_sessionId := sessionId; ri_afterSequence := Some after; ri_limit := Some MAX_PAGE_ENTRIES;
     ri_throughSequence := through |}.

(** The loop of [#readAllEntries]; [None] when the fuel is used up. *)
Fixpoint read_pages (fuel call : nat) (sessionId : string) (entries : list SessionEntryV3) (after : Z)
    (through : option Z) : option (res (list SessionEntryV3)) :=
  match fuel with
  | O => None
  | S fuel =>
      match readEntries call (page_request sessionId after through) with
      | Err code => Some (Err code)
      | Ok page =>
          let entries := entries ++ pa_entries page in
          if pa_hasMore page
          then read_pages fuel (S call) sessionId entries (pa_nextAfterSequence page)
                 (Some (default (hd_sequence (pa_head page)) through))
          else Some (Ok entries)
      end
  end.

Definition readAllEntries (fuel : nat) (sessionId : string) : option (res (list SessionEntryV3)) :=
  match read_pages fuel 0 sessionId [] 0 None with
  | Some (Ok []) => Some (Err "SESSION_NOT_FOUND")
  | r => r
  end.

Definition loadProjection (fuel : nat) (sessionId : string) : option (res SessionProjectionV3) :=
  if negb (SAFE_ID sessionId) then Some (Err "SESSION_ID_INVALID")
  else match store_cachedProjection with
       | Some cached => Some (cached sessionId)
       | None => (λ r, entries ← r; reduceSessionEntriesV3 entries) <$> readAllEntries fuel sessionId
       end.

Definition loadSnapshot (fuel : nat) (sessionId : string) : option (res SessionSnapshotV3) :=
  (λ r, projection ← r; Ok (pj_snapshot projection)) <$> loadProjection fuel sessionId.
End Journal.

(** ** Queries *)

Inductive MutationOriginQuery :=
| origin_tool (invocationId : string)
| origin_runtime (requestId : string)
| origin_host (controlEventId : string) (resolutionRequestId : option string).

Inductive SessionQueryInputV3 :=
| query_run (sessionId runId : string)
| query_plan (sessionId planId : string)
| query_step (sessionId planId stepId : string)
| query_attempt (sessionId planId stepId attemptId : string)
| query_review_plan (sessionId planId : string)
| query_mutation (sessionId : string) (origin : MutationOriginQuery).

Inductive SessionQueryResultV3 :=
| result_run (value : SessionRunProjectionV3)
| result_plan (value : SessionPlanGraphProjectionV3)
| result_step (value : SessionStepProjectionV3)
| result_attempt (value : SessionAttemptProjectionV3)
| result_review_plan (value : ReviewPlanProjectionV1)
| result_mutation (origin mutationDigest : jsval) (throughSequence : Z) (events : list SessionEntryV3)
    (projection : ReviewPlanProjectionV1).

Definition query_origin (value : jsval) : option MutationOriginQuery :=
  match value with
  | JObj o =>
      if is_str (o .: "kind") "tool" then
        if onlyKeys o ["kind"; "invocationId"]%string && is_string (o .: "invocationId")
           && INVOCATION_ID (js_str (o .: "invocationId"))
        then Some (origin_tool (js_str (o .: "invocationId"))) else None
      else if is_str (o .: "kind") "runtime" then
        if onlyKeys o ["kind"; "requestId"]%string && safeId (o .: "requestId")
        then Some (origin_runtime (js_str (o .: "requestId"))) else None
      else if is_str (o .: "kind") "host" then
        if onlyKeys o ["kind"; "controlEventId"; "resolutionRequestId"]%string
           && safeId (o .: "controlEventId")
           && (is_undef (o .: "resolutionRequestId") || safeId (o .: "resolutionRequestId"))
        then Some (origin_host (js_str (o .: "controlEventId")) (opt js_str (o .: "resolutionRequestId")))
        else None
      else None
  | _ => None
  end.

(** [validateQuery], with the query that the value is. *)
Definition validateQuery (value : jsval) : res SessionQueryInputV3 :=
  input ← match value with JObj o => Ok o | _ => Err "SESSION_QUERY_INVALID" end;
  fail_if (negb (safeId (input .: "sessionId"))) "SESSION_QUERY_INVALID";;
  let has names :=
    onlyKeys input (["sessionId"; "kind"]%string ++ names) && forallb (λ k, safeId (get input k)) names in
  let s := js_str (input .: "sessionId") in
  let field k := js_str (get input k) in
  let kind := input .: "kind" in
  if is_str kind "run" then
    fail_if (negb (has ["runId"]%string)) "SESSION_QUERY_INVALID";; Ok (query_run s (field "runId"))
  else if is_str kind "plan" then
    fail_if (negb (has ["planId"]%string)) "SESSION_QUERY_INVALID";; Ok (query_plan s (field "planId"))
  else if is_str kind "step" then
    fail_if (negb (has ["planId"; "stepId"]%string)) "SESSION_QUERY_INVALID";;
    Ok (query_step s (field "planId") (field "stepId"))
  else if is_str kind "attempt" then
    fail_if (negb (has ["planId"; "stepId"; "attemptId"]%string)) "SESSION_QUERY_INVALID";;
    Ok (query_attempt s (field "planId") (field "stepId") (field "attemptId"))
  else if is_str kind "review_plan" then
    fail_if (negb (has ["planId"]%string)) "SESSION_QUERY_INVALID";; Ok (query_review_plan s (field "planId"))
  else if is_str kind "review_plan_mutation" then
    fail_if (negb (onlyKeys input ["sessionId"; "kind"; "origin"]%string)) "SESSION_QUERY_INVALID";;
    match query_origin (input .: "origin") with
    | Some origin => Ok (query_mutation s origin)
    | None => Err "SESSION_QUERY_INVALID"
    end
  else Err "SESSION_QUERY_INVALID".

Definition originMatches (value : jsval) (query : MutationOriginQuery) : bool :=
  match value with
  | JObj o =>
      match query with
      | origin_tool invocationId => is_str (o .: "kind") "tool" && is_str (o .: "invocationId") invocationId
      | origin_runtime requestId => is_str (o .: "kind") "runtime" && is_str (o .: "requestId") requestId
      | origin_host controlEventId resolutionRequestId =>
          is_str (o .: "kind") "host" && is_str (o .: "controlEventId") controlEventId
          && identical (o .: "resolutionRequestId") (undef_prop JStr resolutionRequestId)
      end
  | _ => false
  end.

Definition sameOrigin (left right : jsval) : bool :=
  match left, right with
  | JObj l, JObj r =>
      identical (l .: "kind") (r .: "kind")
      && (if is_str (r .: "kind") "tool" then
            identical (l .: "invocationId") (r .: "invocationId")
            && identical (l .: "payloadDigest") (r .: "payloadDigest")
          else if is_str (r .: "kind") "runtime" then
            identical (l .: "requestId") (r .: "requestId")
            && identical (l .: "inputDigest") (r .: "inputDigest")
          else
            identical (l .: "controlEventId") (r .: "controlEventId")
            && identical (l .: "resolutionRequestId") (r .: "resolutionRequestId")
            && identical (l .: "inputDigest") (r .: "inputDigest"))
  | _, _ => false
  end.

(** The data of an entry of the review plan. *)
Definition review_data (entry : SessionEntryV3) : option jsobj :=
  match en_data entry with review_plan_event _ data => Some (fields_of data) | _ => None end.
Definition mutation_matches (origin : MutationOriginQuery) (entry : SessionEntryV3) : bool :=
  match review_data entry with Some data => originMatches (data .: "origin") origin | None => false end.
(** An event of another revision, digest or origin than the first match. *)
Definition mutation_conflict (revision : Z) (mutationDigest origin : jsval) (entry : SessionEntryV3) : bool :=
  match review_data entry with
  | Some data => negb (en_revision entry =? revision)
                 || negb (identical (data .: "mutationDigest") mutationDigest)
                 || negb (sameOrigin (data .: "origin") origin)
  | None => false
  end.

Definition queryNotFound {A} : res A := Err "SESSION_QUERY_NOT_FOUND".
Definition found {A B} (make : A → B) (o : option A) : res B :=
  match o with Some a => Ok (make a) | None => queryNotFound end.

Section Query.
Context `{JsEngine} `{JsCrypto} `{RP : ReviewPlanContract} `{Store : SessionJournalCommitStoreV3}.

(** [#queryReviewPlanMutation] from the entries of the journal on. *)
Definition query_review_plan_mutation (entries : list SessionEntryV3) (origin : MutationOriginQuery) :
    res SessionQueryResultV3 :=
  let matches := List.filter (mutation_matches origin) entries in
  match matches, last matches with
  | first :: _, Some final =>
      let data := default [] (review_data first) in
      fail_if (existsb (mutation_conflict (en_revision first) (data .: "mutationDigest") (data .: "origin")) matches)
        "SESSION_QUERY_CONFLICT";;
      projection ← reduceSessionEntriesV3
                     (List.filter (λ entry, en_sequence entry <=? en_sequence final) entries);
      match pj_reviewPlan projection with
      | None => queryNotFound
      | Some reviewPlan =>
          Ok (result_mutation (data .: "origin") (data .: "mutationDigest") (en_sequence final) matches reviewPlan)
      end
  | _, _ => queryNotFound
  end.

Definition find_plan (projection : SessionProjectionV3) (planId : string) : option SessionPlanGraphProjectionV3 :=
  match pj_planGraph projection with
  | Some plan => if String.eqb (gr_planId plan) planId then Some plan else None
  | None => None
  end.
Definition find_step (plan : SessionPlanGraphProjectionV3) (stepId : string) : option SessionStepProjectionV3 :=
  findb (λ step, String.eqb (sp_stepId step) stepId) (gr_steps plan).

(** The [switch] of [querySession] on a projection. *)
Definition query_projection (projection : SessionProjectionV3) (query : SessionQueryInputV3) :
    res SessionQueryResultV3 :=
  match query with
  | query_run _ runId =>
      found result_run (findb (λ run, String.eqb (rn_runId run) runId) (sn_runs (pj_snapshot projection)))
  | query_plan _ planId => found result_plan (find_plan projection planId)
  | query_step _ planId stepId =>
      found result_step (plan ← find_plan projection planId; find_step plan stepId)
  | query_attempt _ planId stepId attemptId =>
      found result_attempt (plan ← find_plan projection planId; step ← find_step plan stepId;
                            findb (λ attempt, String.eqb (ap_attemptId attempt) attemptId) (sp_attempts step))
  | query_review_plan _ planId =>
      found result_review_plan
        (reviewPlan ← pj_reviewPlan projection;
         if String.eqb (rpl_planId reviewPlan) planId then Some reviewPlan else None)
  | query_mutation _ _ => queryNotFound
  end.

Definition query_sessionId (query : SessionQueryInputV3) : string :=
  match query with
  | query_run s _ | query_plan s _ | query_step s _ _ | query_attempt s _ _ _ | query_review_plan s _
  | query_mutation s _ => s
  end.

Definition querySession (fuel : nat) (input : jsval) : option (res SessionQueryResultV3) :=
  match validateQuery input with
  | Err code => Some (Err code)
  | Ok (query_mutation sessionId origin) =>
      (λ r, entries ← r; query_review_plan_mutation entries origin) <$> readAllEntries fuel sessionId
  | Ok query =>
      (λ r, projection ← r; query_projection projection query) <$> loadProjection fuel (query_sessionId query)
  end.
End Query.
