(* ===== verification/SessionPortSpec.v ===== *)
(** * What the journal port guarantees

    Whatever the store answers: a receipt is that of the commit, and a projection
    is that of the whole journal up to the head of the first page.  And a store
    that answers with the pages of its journal is read to the end, as it stood at
    the first page, while it grows. *)

From S2P Require Import Prelude Js JsOps CanonicalJson Samples Plan Subagent Session SessionReducer SessionSamples SessionInv SessionLife SessionEntry SessionEntryErrors SessionCommit SessionPort.
Local Open Scope Z_scope.

(** ** Receipts *)

Section Receipt.
Context `{JsEngine} `{JsCrypto} `{RP : ReviewPlanContract}.

Lemma receipt_ids l (es : list SessionEntryV3) :
  length l = length es → existsb (λ '(id, entry), negb (is_str id (en_entryId entry))) (zip l es) = false →
  js_str <$> l = en_entryId <$> es.
Proof.
  revert es. induction l as [|v l IH]; intros [|e es]; cbn; try done. intros [= Hlen]. rewrite orb_false_iff.
  intros [Hv Hl]. apply negb_false_iff, is_str_inv in Hv as ->. cbn. f_equal. by apply IH.
Qed.

Lemma validateReceipt_Ok v c r : validateReceipt v c = Ok r → r = sessionCommitReceiptV3 c (rc_duplicate r).
Proof.
  unfold validateReceipt. intros Hr. inv_ok. split_bool.
  repeat match goal with
  | H : is_str _ _ = true |- _ => apply is_str_inv in H
  | H : is_int _ _ = true |- _ => apply is_int_inv in H
  | H : Nat.eqb _ _ = true |- _ => apply Nat.eqb_eq in H
  end.
  unfold sessionCommitReceiptV3. cbn [rc_duplicate]. f_equal;
    first [by match goal with H : get _ _ = _ |- _ => rewrite H end | by apply receipt_ids].
Qed.
End Receipt.

Section Append.
Context `{JsEngine} `{JsCrypto} `{RP : ReviewPlanContract} `{Store : SessionJournalCommitStoreV3}.

(** An append reports the commit that it was given: the receipt is the one of
    that commit, with only [duplicate] left to the store, and the listeners are
    given the receipt and the entries of the commit exactly when it is new. *)
Theorem appendCommit_receipt input receipt event :
  appendCommit input = Ok (receipt, event) →
  ∃ commit, validateSessionCommitV3 input = Ok commit ∧
    receipt = sessionCommitReceiptV3 commit (rc_duplicate receipt) ∧
    event = if rc_duplicate receipt then None
            else Some {| ev_receipt := receipt; ev_entries := sc_entries commit |}.
Proof.
  unfold appendCommit. intros Ha. inv_ok. eexists. split; [eassumption|]. split; [|done].
  by eapply validateReceipt_Ok.
Qed.
End Append.

(** ** Reading from any store *)

Definition last_seq (es : list SessionEntryV3) : Z := default 0 (en_sequence <$> last es).

(** What [validatePage] leaves of a page. *)
Record page_ok (page : SessionEntryPageV3) (sessionId : string) (after through : Z) : Prop := {
  po_head : through ≤ hd_sequence (pa_head page);
  po_entries : Forall (λ e, en_sessionId e = sessionId ∧ after < en_sequence e ≤ through) (pa_entries page);
  po_next : pa_nextAfterSequence page = default after (en_sequence <$> last (pa_entries page));
  po_more : pa_hasMore page = (pa_nextAfterSequence page <? through);
}.

Section Read.
Context `{JsEngine} `{JsCrypto} `{RP : ReviewPlanContract} `{Store : SessionJournalCommitStoreV3}.

Lemma readEntries_ok call sessionId after through page :
  readEntries call (page_request sessionId after through) = Ok page →
  page_ok page sessionId after (default (hd_sequence (pa_head page)) through).
Proof.
  unfold readEntries, validatePage. intros Hp. inv_ok. unfold page_misplaced in *. cbn in *. split_bool. split; cbn.
  - lia.
  - match goal with Hx : existsb _ _ = false |- _ => apply existsb_false in Hx; eapply Forall_impl; [exact Hx|] end.
    cbn. intros e He. split_bool. split; [by apply dec_stable|lia].
  - lia.
  - match goal with Hx : Bool.eqb _ _ = true |- _ => by apply eqb_prop in Hx end.
Qed.

(** The entries read so far, all at or before [through], end at [after]. *)
Lemma read_pages_end fuel call sessionId acc after through es :
  read_pages fuel call sessionId acc after (Some through) = Some (Ok es) →
  after = last_seq acc → Forall (λ e, en_sessionId e = sessionId ∧ en_sequence e ≤ through) acc →
  Forall (λ e, en_sessionId e = sessionId ∧ en_sequence e ≤ through) es ∧ through ≤ last_seq es.
Proof.
  revert call acc after. induction fuel as [|fuel IH]; intros call acc after; cbn [read_pages]; [done|].
  destruct (readEntries _ _) as [page|] eqn:Hp; [|done]. apply readEntries_ok in Hp as [_ Hentries Hnext Hmore]. cbn in *.
  intros Hr Hafter Hacc.
  assert (pa_nextAfterSequence page = last_seq (acc ++ pa_entries page)) as Hend.
  { rewrite Hnext. unfold last_seq. rewrite last_app. destruct (last (pa_entries page)) as [e|]; [done|exact Hafter]. }
  assert (Forall (λ e, en_sessionId e = sessionId ∧ en_sequence e ≤ through) (acc ++ pa_entries page)) as Hall.
  { apply Forall_app. split; [done|]. eapply Forall_impl; [exact Hentries|]. cbn. intros e [? ?]. split; [done|lia]. }
  rewrite Hmore in Hr. destruct (_ <? through) eqn:Hm.
  - by eapply IH.
  - injection Hr as <-. split; [done|]. lia.
Qed.

Lemma readAllEntries_end fuel sessionId es :
  readAllEntries fuel sessionId = Some (Ok es) →
  ∃ page, readEntries 0 (page_request sessionId 0 None) = Ok page ∧ es ≠ [] ∧
    Forall (λ e, en_sessionId e = sessionId ∧ en_sequence e ≤ hd_sequence (pa_head page)) es ∧
    hd_sequence (pa_head page) ≤ last_seq es.
Proof.
  unfold readAllEntries. destruct (read_pages fuel 0 sessionId [] 0 None) as [[[|e k]|]|] eqn:Hr; try done.
  intros [= <-]. destruct fuel as [|fuel]; [done|]. cbn [read_pages] in Hr.
  destruct (readEntries 0 _) as [page|] eqn:Hp; [|done]. exists page. split; [done|]. split; [done|].
  apply readEntries_ok in Hp as [_ Hentries Hnext Hmore]. cbn in *.
  assert (Forall (λ e, en_sessionId e = sessionId ∧ en_sequence e ≤ hd_sequence (pa_head page)) (pa_entries page)) as Hall.
  { eapply Forall_impl; [exact Hentries|]. cbn. intros e' [? ?]. split; [done|lia]. }
  rewrite Hmore in Hr. destruct (_ <? _) eqn:Hm.
  - by eapply read_pages_end in Hr.
  - injection Hr as Hr. rewrite <-Hr. split; [done|]. unfold last_seq. rewrite <-Hnext. lia.
Qed.

(** C38 Whatever the store answers to the single reads, a projection that the port
    computes is that of a whole journal: the entries number 1 to the head that
    the first page announced, all of the session that was asked for, none left
    out, repeated or added by a later page. *)
Theorem loadProjection_complete fuel sessionId pj :
  store_cachedProjection = None → loadProjection fuel sessionId = Some (Ok pj) →
  ∃ page es, readEntries 0 (page_request sessionId 0 None) = Ok page ∧
    reduceSessionEntriesV3 es = Ok pj ∧ sn_sessionId (pj_snapshot pj) = sessionId ∧
    sn_sequence (pj_snapshot pj) = hd_sequence (pa_head page) ∧
    en_sequence <$> es = seqZ 1 (hd_sequence (pa_head page)).
Proof.
  unfold loadProjection. intros ->. destruct (negb _); [done|].
  destruct (readAllEntries fuel sessionId) as [[es|]|] eqn:Hr; try done. intros [= Hes]. cbn in Hes.
  apply readAllEntries_end in Hr as (page & Hp & Hne & Hall & Hlast). exists page, es.
  destruct (reduced_order _ _ Hes) as (Hseq & Hlen & _).
  destruct es as [|e0 es'] eqn:Ees; [done|]. rewrite <-Ees in *.
  destruct (last es) as [e|] eqn:He; [|by rewrite last_None in He; subst].
  assert (en_sequence e = Z.of_nat (length es)) as Hel.
  { rewrite last_lookup in He. apply Hseq in He as [-> _]. rewrite Ees. cbn. lia. }
  assert (hd_sequence (pa_head page) = Z.of_nat (length es)) as Hhead.
  { unfold last_seq in Hlast. rewrite He in Hlast. cbn in Hlast.
    rewrite Forall_forall in Hall. destruct (Hall e) as [_ Hle]; [|lia].
    rewrite last_lookup in He. by apply list_elem_of_lookup_2 in He. }
  split_and!; [done|done| |lia|].
  - destruct (Hseq 0%nat e0) as [_ Hsid]; [by rewrite Ees|]. rewrite <-Hsid.
    rewrite Ees in Hall. by apply Forall_cons in Hall as [[? _] _].
  - rewrite Hhead. apply list_eq. intros i. rewrite list_lookup_fmap.
    destruct (es !! i) as [x|] eqn:Hx.
    + destruct (Hseq i x Hx) as [Hx1 _]. cbn. rewrite Hx1. symmetry. apply lookup_seqZ. apply lookup_lt_Some in Hx. lia.
    + symmetry. apply lookup_seqZ_ge. apply lookup_ge_None in Hx. lia.
Qed.
End Read.

(** ** Reading from a store that keeps a journal *)

(** The page of the journal [log] for a request. *)
Definition page_of (log : list jsval) (revision : Z) (request : ReadSessionEntriesInputV3) : jsval :=
  let after := default 0 (ri_afterSequence request) in
  let through := default (Z.of_nat (length log)) (ri_throughSequence request) in
  let entries := take (Z.to_nat (default MAX_PAGE_ENTRIES (ri_limit request)))
                   (drop (Z.to_nat after) (take (Z.to_nat through) log)) in
  let next := after + Z.of_nat (length entries) in
  JObj [("sessionId", JStr (ri_sessionId request)); ("entries", JArr entries);
        ("nextAfterSequence", JInt next); ("hasMore", JBool (next <? through)%Z);
        ("head", JObj [("revision", JInt revision); ("sequence", JInt (Z.of_nat (length log)))])]%string.

(** The entries [es] are numbered from [from + 1] on. *)
Definition numbered (sessionId : string) (from : nat) (es : list SessionEntryV3) : Prop :=
  ∀ i e, es !! i = Some e → en_sequence e = Z.of_nat (from + i) + 1 ∧ en_sessionId e = sessionId.

Lemma numbered_drop sessionId es a n :
  numbered sessionId 0 es → numbered sessionId a (take n (drop a es)).
Proof.
  intros Hes i e He. rewrite lookup_take in He. case_decide; [|done].
  rewrite lookup_drop in He. by apply Hes in He.
Qed.

Lemma numbered_gap sessionId from es : numbered sessionId from es → sequence_gap es = false.
Proof.
  revert from. induction es as [|a [|b es] IH]; intros from Hes; [done..|].
  change (sequence_gap (a :: b :: es)) with (negb (en_sequence b =? en_sequence a + 1) || sequence_gap (b :: es)).
  destruct (Hes 0%nat a eq_refl) as [Ha _]. destruct (Hes 1%nat b eq_refl) as [Hb _].
  rewrite Ha, Hb, (proj2 (Z.eqb_eq _ _)) by lia. cbn [negb orb]. apply (IH (S from)).
  intros i e He. destruct (Hes (S i) e He) as [Hi ?]. split; [|done]. rewrite Hi. lia.
Qed.

Lemma numbered_last sessionId from es :
  numbered sessionId from es → default (Z.of_nat from) (en_sequence <$> last es) = Z.of_nat from + Z.of_nat (length es).
Proof.
  intros Hes. destruct (last es) as [e|] eqn:He.
  - rewrite last_lookup in He. pose proof (lookup_lt_Some _ _ _ He). destruct (Hes _ _ He) as [Hs _].
    cbn. rewrite Hs. lia.
  - apply last_None in He as ->. cbn. lia.
Qed.

Lemma page_request_valid sessionId after through :
  SAFE_ID sessionId = true → 0 ≤ after ≤ MAX_SAFE_INTEGER →
  (∀ t, through = Some t → 0 ≤ t ≤ MAX_SAFE_INTEGER) →
  validateReadInput (page_request sessionId after through) = Ok tt.
Proof.
  intros Hsafe Hafter Hthrough. unfold validateReadInput.
  cbn [page_request ri_sessionId ri_afterSequence ri_limit ri_throughSequence].
  rewrite Hsafe, (proj2 (nonNegativeInteger_int after)) by done.
  destruct through as [t|]; [rewrite (proj2 (nonNegativeInteger_int t)) by by apply Hthrough|]; done.
Qed.

Lemma page_shape request values next more rev seq :
  0 ≤ next ≤ MAX_SAFE_INTEGER → 0 ≤ rev ≤ MAX_SAFE_INTEGER → 0 ≤ seq ≤ MAX_SAFE_INTEGER →
  page_rejected [("sessionId", JStr (ri_sessionId request)); ("entries", JArr values);
    ("nextAfterSequence", JInt next); ("hasMore", JBool more);
    ("head", JObj [("revision", JInt rev); ("sequence", JInt seq)])]%string request = false.
Proof.
  intros Hn Hr Hs. unfold page_rejected, head_rejected. cbn [get String.eqb Ascii.eqb Bool.eqb is_str is_arr is_bool].
  rewrite !(proj2 (nonNegativeInteger_int _)) by done. by rewrite bool_decide_eq_true_2.
Qed.

Section Kept.
Context `{JsEngine} `{JsCrypto} `{RP : ReviewPlanContract} `{Store : SessionJournalCommitStoreV3}.
Context (log : nat → list jsval) (revision : nat → Z) (sessionId : string) (es : list SessionEntryV3).
Hypothesis Hstore : ∀ k request, validateReadInput request = Ok tt → ri_sessionId request = sessionId →
  default (Z.of_nat (length (log k))) (ri_throughSequence request) ≤ Z.of_nat (length (log k)) →
  store_readEntries k request = Ok (page_of (log k) (revision k) request).
Hypothesis Hgrow : ∀ k, log 0%nat `prefix_of` log k.
Hypothesis Hbound : ∀ k, Z.of_nat (length (log k)) ≤ MAX_SAFE_INTEGER ∧ 0 ≤ revision k ≤ MAX_SAFE_INTEGER.
Hypothesis Hvalid : mapM validateSessionEntryV3 (log 0%nat) = Ok es.
Hypothesis Hnumbered : numbered sessionId 0 es.
Hypothesis Hsafe : SAFE_ID sessionId = true.

Lemma log_length : length (log 0%nat) = length es.
Proof. apply mapM_Ok in Hvalid. by apply Forall2_length in Hvalid. Qed.

Lemma page_values k (a : nat) :
  take 512 (drop a (take (Z.to_nat (Z.of_nat (length (log 0%nat)))) (log k))) = take 512 (drop a (log 0%nat)).
Proof. rewrite Nat2Z.id. destruct (Hgrow k) as [more ->]. by rewrite take_app_length. Qed.

Lemma page_valid (a : nat) :
  mapM validateSessionEntryV3 (take 512 (drop a (log 0%nat))) = Ok (take 512 (drop a es)).
Proof. apply mapM_Ok. apply Forall2_take, Forall2_drop. by apply mapM_Ok. Qed.

Lemma page_placed slice (a : nat) k through more :
  let page := {| pa_sessionId := sessionId; pa_entries := slice;
    pa_nextAfterSequence := Z.of_nat a + Z.of_nat (length slice); pa_hasMore := more;
    pa_head := {| hd_revision := revision k; hd_sequence := Z.of_nat (length (log k)) |} |} in
  numbered sessionId a slice → (length slice ≤ 512)%nat → (a + length slice ≤ length es)%nat →
  default (Z.of_nat (length (log k))) through = Z.of_nat (length es) →
  more = (Z.of_nat a + Z.of_nat (length slice) <? Z.of_nat (length es)) →
  page_misplaced page (page_request sessionId (Z.of_nat a) through) = false.
Proof.
  intros page Hnum Hlen Hend Hthrough ->. pose proof log_length as Hlog. destruct (Hgrow k) as [more' Hk].
  assert (length es ≤ length (log k))%nat as Hle by (rewrite Hk, length_app; lia).
  unfold page_misplaced. cbn [page_request ri_sessionId ri_afterSequence ri_limit ri_throughSequence page
    pa_head hd_sequence pa_entries pa_nextAfterSequence pa_hasMore default from_option id].
  rewrite Hthrough, (numbered_gap _ _ _ Hnum), (numbered_last _ _ _ Hnum), Z.eqb_refl, eqb_reflx.
  replace (_ <? Z.of_nat (length es)) with false by lia.
  replace (MAX_PAGE_ENTRIES <? _) with false by (unfold MAX_PAGE_ENTRIES; lia).
  replace (existsb _ _) with false; [done|]. symmetry. apply existsb_false, Forall_forall. intros e He.
  apply list_elem_of_lookup in He as [i Hi]. pose proof (lookup_lt_Some _ _ _ Hi). destruct (Hnum _ _ Hi) as [Hs ->].
  rewrite bool_decide_eq_false_2 by naive_solver. cbn [orb]. lia.
Qed.

Lemma readEntries_kept k (a : nat) through :
  (a ≤ length es)%nat → default (Z.of_nat (length (log k))) through = Z.of_nat (length es) →
  readEntries k (page_request sessionId (Z.of_nat a) through) =
    let slice := take 512 (drop a es) in
    let next := Z.of_nat a + Z.of_nat (length slice) in
    Ok {| pa_sessionId := sessionId; pa_entries := slice; pa_nextAfterSequence := next;
          pa_hasMore := next <? Z.of_nat (length es);
          pa_head := {| hd_revision := revision k; hd_sequence := Z.of_nat (length (log k)) |} |}.
Proof.
  intros Ha Hthrough. pose proof log_length as Hlen.
  assert (Z.of_nat (length es) ≤ MAX_SAFE_INTEGER) as Hmax by (rewrite <-Hlen; apply Hbound).
  assert (validateReadInput (page_request sessionId (Z.of_nat a) through) = Ok tt) as Hinput.
  { apply page_request_valid; [done|lia|]. intros t ->. cbn in Hthrough. lia. }
  assert (length es ≤ length (log k))%nat as Hlong by (destruct (Hgrow k) as [? ->]; rewrite length_app, Hlen; lia).
  unfold readEntries. rewrite Hinput, Hstore by first [done | cbn [page_request ri_throughSequence]; rewrite Hthrough; lia].
  cbn [mbind res_bind]. unfold validatePage, page_of.
  cbn [page_request ri_sessionId ri_afterSequence ri_limit ri_throughSequence default from_option id].
  rewrite Hthrough, Nat2Z.id, <-Hlen, page_values. change (Z.to_nat MAX_PAGE_ENTRIES) with 512%nat.
  rewrite Hlen. set (slice := take 512 (drop a es)).
  assert (length (take 512 (drop a (log 0%nat))) = length slice) as ->.
  { unfold slice. by rewrite !length_take, !length_drop, Hlen. }
  assert (length slice ≤ 512 ∧ a + length slice ≤ length es)%nat as [Hs Hend].
  { unfold slice. rewrite length_take, length_drop. lia. }
  destruct (Hbound k) as [Hb1 Hb2]. cbn [mbind res_bind].
  pose proof (λ next more, page_shape (page_request sessionId (Z.of_nat a) through)
    (take 512 (drop a (log 0%nat))) next more (revision k) (Z.of_nat (length (log k)))) as Hshape.
  cbn [page_request ri_sessionId] in Hshape. rewrite Hshape by lia.
  cbn [fail_if mbind res_bind get String.eqb Ascii.eqb Bool.eqb js_arr js_str js_bool].
  rewrite page_valid. fold slice. cbn [mbind res_bind].
  change (head_of _) with {| hd_revision := revision k; hd_sequence := Z.of_nat (length (log k)) |}.
  change (js_int (JInt ?z)) with z. rewrite page_placed; try done. by apply numbered_drop.
Qed.

Lemma read_kept fuel k (a : nat) through :
  (a ≤ length es)%nat → default (Z.of_nat (length (log k))) through = Z.of_nat (length es) →
  (1 ≤ fuel)%nat → (length es ≤ a + 512 * fuel)%nat →
  read_pages fuel k sessionId (take a es) (Z.of_nat a) through = Some (Ok es).
Proof.
  revert k a through. induction fuel as [|fuel IH]; intros k a through Ha Hthrough Hfuel Hlen; [lia|].
  cbn [read_pages]. rewrite (readEntries_kept k a through) by done. cbn zeta.
  cbn [pa_entries pa_hasMore pa_nextAfterSequence pa_head hd_sequence]. rewrite Hthrough, take_take_drop.
  destruct (_ <? _) eqn:Hmore.
  - apply Z.ltb_lt in Hmore. rewrite length_take, length_drop in *.
    replace (Z.of_nat a + Z.of_nat (512 `min` (length es - a)))%Z with (Z.of_nat (a + 512)) by lia.
    apply IH; [lia|done|lia|lia].
  - apply Z.ltb_ge in Hmore. rewrite length_take, length_drop in Hmore. by rewrite take_ge by lia.
Qed.

Lemma readAllEntries_kept fuel :
  es ≠ [] → (length es ≤ 512 * fuel)%nat → readAllEntries fuel sessionId = Some (Ok es).
Proof.
  intros Hne Hfuel. unfold readAllEntries.
  assert (1 ≤ fuel)%nat by (destruct es; [done|cbn in Hfuel; lia]).
  change (read_pages fuel 0 sessionId [] 0 None) with (read_pages fuel 0 sessionId (take 0 es) (Z.of_nat 0) None).
  rewrite read_kept; [by destruct es|lia|cbn; by rewrite log_length|done|lia].
Qed.

(** C39 A store that answers every read with the pages of its journal, however
    much the journal grows between the reads, is read to the end: with a read
    for each 512 entries, the projection is the reduction of exactly the journal
    as it stood at the first read. *)
Theorem loadProjection_kept fuel :
  es ≠ [] → (length es ≤ 512 * fuel)%nat → store_cachedProjection = None →
  loadProjection fuel sessionId = Some (reduceSessionEntriesV3 es).
Proof.
  intros Hne Hfuel Hcache. unfold loadProjection. rewrite Hsafe, Hcache. cbn [negb].
  by rewrite readAllEntries_kept.
Qed.
End Kept.

(** ** A store that makes no progress *)

Section Stalled.
Context `{JsEngine} `{JsCrypto} `{RP : ReviewPlanContract} `{Store : SessionJournalCommitStoreV3}.

(** An empty page that promises more. *)
Definition stalled_page (sessionId : string) (sequence : Z) : jsval := JObj
  [("sessionId", JStr sessionId); ("entries", JArr []); ("nextAfterSequence", JInt 0); ("hasMore", JBool true);
   ("head", JObj [("revision", JInt sequence); ("sequence", JInt sequence)])]%string.

(** The page passes every guard of the port. *)
Lemma stalled_read k sessionId sequence through :
  store_readEntries k (page_request sessionId 0 through) = Ok (stalled_page sessionId sequence) →
  SAFE_ID sessionId = true → 0 < sequence ≤ MAX_SAFE_INTEGER → default sequence through = sequence →
  readEntries k (page_request sessionId 0 through) =
    Ok {| pa_sessionId := sessionId; pa_entries := []; pa_nextAfterSequence := 0; pa_hasMore := true;
          pa_head := {| hd_revision := sequence; hd_sequence := sequence |} |}.
Proof.
  intros Hstore Hsafe Hseq Hthrough. unfold readEntries.
  rewrite page_request_valid, Hstore by first [done | intros t ->; cbn in Hthrough; lia]. cbn [mbind res_bind].
  unfold validatePage, stalled_page. cbn [mbind res_bind].
  pose proof (page_shape (page_request sessionId 0 through) [] 0 true sequence sequence) as Hshape.
  cbn [page_request ri_sessionId] in Hshape. rewrite Hshape by lia.
  cbn [fail_if mbind res_bind get String.eqb Ascii.eqb Bool.eqb js_arr js_str js_bool].
  change (mapM validateSessionEntryV3 []) with (Ok [] : res (list SessionEntryV3)). cbn [mbind res_bind].
  change (head_of _) with {| hd_revision := sequence; hd_sequence := sequence |}. change (js_int (JInt ?z)) with z.
  unfold page_misplaced. cbn [page_request ri_sessionId ri_afterSequence ri_limit ri_throughSequence
    pa_head hd_sequence pa_entries pa_nextAfterSequence pa_hasMore default from_option id length existsb last fmap option_fmap option_map].
  rewrite Hthrough, Z.ltb_irrefl, (proj2 (Z.ltb_lt 0 _)) by lia. done.
Qed.

(** The port accepts an empty page that promises more, so that a store that
    keeps answering it is read for ever: no number of reads ends the loop. *)
Lemma readAllEntries_stalls sessionId sequence fuel :
  SAFE_ID sessionId = true → 0 < sequence ≤ MAX_SAFE_INTEGER →
  (∀ k request, store_readEntries k request = Ok (stalled_page sessionId sequence)) →
  readAllEntries fuel sessionId = None.
Proof.
  intros Hsafe Hseq Hstore.
  assert (∀ n k through, default sequence through = sequence → read_pages n k sessionId [] 0 through = None) as Hread.
  { induction n as [|n IH]; intros k through Hthrough; cbn [read_pages]; [done|].
    rewrite (stalled_read k sessionId sequence) by done.
    cbn [pa_hasMore pa_entries pa_nextAfterSequence pa_head hd_sequence app]. by apply IH. }
  unfold readAllEntries. by rewrite Hread.
Qed.
End Stalled.

(** ** A concrete journal *)

(** Entry [i + 1] of a journal: the session, then new names for it. *)
Definition sample_value (i : nat) : jsval := JObj
  [("schemaVersion", JInt 3); ("entryId", JStr ("e" +:+ pretty i)); ("sessionId", JStr "s1");
   ("sequence", JInt (Z.of_nat i + 1)); ("revision", JInt (Z.of_nat i + 1)); ("timestamp", JStr instant);
   ("type", JStr (if Nat.eqb i 0 then "session.created" else "session.metadata_updated"));
   ("data", JObj (if Nat.eqb i 0
      then [("cwd", JStr "/w"); ("provider", JStr "p"); ("model", JStr "m"); ("name", JStr "n"); ("labels", JArr [])]
      else [("name", JStr ("n" +:+ pretty i))]))]%string.

(** A store of 600 entries at the first read, 601 at the second and so on up to
    603, that takes every commit as a new one. *)
Definition sample_log (k : nat) : list jsval := sample_value <$> seq 0 (600 + Nat.min k 3).
Definition sample_revision (k : nat) : Z := 600 + Z.of_nat (Nat.min k 3).
Definition receipt_value (commit : SessionCommitV3) : jsval :=
  let receipt := sessionCommitReceiptV3 commit false in JObj
  [("sessionId", JStr (rc_sessionId receipt)); ("commitId", JStr (rc_commitId receipt));
   ("idempotencyKey", JStr (rc_idempotencyKey receipt)); ("revision", JInt (rc_revision receipt));
   ("firstSequence", JInt (rc_firstSequence receipt)); ("lastSequence", JInt (rc_lastSequence receipt));
   ("entryIds", JArr (JStr <$> rc_entryIds receipt)); ("checksum", JStr (rc_checksum receipt));
   ("duplicate", JBool false)]%string.
#[export] Instance sample_store : SessionJournalCommitStoreV3 := {
  store_readEntries k request := Ok (page_of (sample_log k) (sample_revision k) request);
  store_appendCommit commit := Ok (receipt_value commit);
  store_cachedProjection := None;
}.

Definition sample_commit : jsval := JObj
  (commit_fields (JStr "s1") (JStr "c1") (JInt 0) (JStr "k1") [sample_value 0] ++
   [("checksum"%string, JStr sample_digest)]).

Lemma appendCommit_receipt_witness :
  ∃ receipt event, appendCommit sample_commit = Ok (receipt, Some event) ∧ rc_revision receipt = 1.
Proof.
  assert (is_ok (appendCommit sample_commit) = true) as Hv by (vm_compute; reflexivity).
  destruct (appendCommit sample_commit) as [[receipt event]|] eqn:Ha; [|discriminate Hv].
  destruct (appendCommit_receipt _ _ _ Ha) as (commit & Hc & Hr & He).
  assert (is_ok (validateSessionCommitV3 sample_commit) = true) as Hv' by (vm_compute; reflexivity).
  vm_compute in Ha. injection Ha as <- <-. do 2 eexists. split; [reflexivity|].
  vm_compute in Hc. injection Hc as <-. rewrite Hr. reflexivity.
Defined.

Lemma loadProjection_complete_witness :
  ∃ pj, loadProjection 2 "s1" = Some (Ok pj) ∧ sn_sequence (pj_snapshot pj) = 600.
Proof.
  assert (match loadProjection 2 "s1" with Some (Ok _) => true | _ => false end = true) as Hv by (vm_compute; reflexivity).
  destruct (loadProjection 2 "s1") as [[pj|]|] eqn:Hl; try discriminate Hv. exists pj. split; [reflexivity|].
  destruct (loadProjection_complete (Store := sample_store) 2 "s1" pj eq_refl Hl) as (page & es & Hp & _ & _ & Hs & _). rewrite Hs.
  assert ((λ p, hd_sequence (pa_head p)) <$> readEntries 0 (page_request "s1" 0 None) = Ok 600) as Hh
    by (vm_compute; reflexivity).
  rewrite Hp in Hh. injection Hh as Hh. exact Hh.
Defined.

Lemma loadProjection_kept_witness :
  ∃ es pj, mapM validateSessionEntryV3 (sample_log 0) = Ok es ∧ reduceSessionEntriesV3 es = Ok pj ∧
    loadProjection 2 "s1" = Some (Ok pj).
Proof.
  assert (match mapM validateSessionEntryV3 (sample_log 0) with
          | Ok es => Nat.eqb (length es) 600 && forallb (λ e, String.eqb (en_sessionId e) "s1") es
                     && is_ok (reduceSessionEntriesV3 es)
          | Err _ => false end = true) as Hv by (vm_compute; reflexivity).
  destruct (mapM validateSessionEntryV3 (sample_log 0)) as [es|] eqn:Hes; [|discriminate Hv].
  apply andb_true_iff in Hv as [[Hlen Hs]%andb_true_iff Hr]. apply Nat.eqb_eq in Hlen.
  destruct (reduceSessionEntriesV3 es) as [pj|] eqn:Hpj; [|discriminate Hr].
  exists es, pj. split_and!; [reflexivity|exact Hpj|]. rewrite <-Hpj.
  apply (loadProjection_kept (Store := sample_store) sample_log sample_revision "s1" es).
  - reflexivity.
  - intros k. unfold sample_log. rewrite !seq_app, !fmap_app. eexists. reflexivity.
  - intros k. unfold sample_log, sample_revision, MAX_SAFE_INTEGER. rewrite length_fmap, length_seq. lia.
  - exact Hes.
  - intros i e He. destruct (reduced_order es pj Hpj) as (Hseq & _). destruct (Hseq i e He) as [Hs1 _].
    split; [exact Hs1|]. rewrite forallb_forall in Hs. apply String.eqb_eq, Hs.
    apply list_elem_of_In. exact (list_elem_of_lookup_2 _ _ _ He).
  - reflexivity.
  - intros ->. discriminate Hlen.
  - rewrite Hlen. cbn. lia.
  - reflexivity.
Defined.
