(* ===== verification/Json.v ===== *)
(** * JSON.parse

    The inverse of [JSON.stringify]: the durable stores of the repository write
    the text of a value and read it back.  Here are the parser of ECMA-262 on
    UTF-8 text and the round trip.  A number literal that is not a safe integer is
    converted by the engine; a lone surrogate, which UTF-8 cannot hold, becomes the
    three bytes of its code unit. *)

From S2P Require Import Prelude Js.
Local Open Scope Z_scope.

(** ** Digits *)

Definition digit_value (a : ascii) : Z := Z.of_nat (nat_of_ascii a) - 48.
Fixpoint digits_value (acc : Z) (s : string) : Z :=
  match s with EmptyString => acc | String a s => digits_value (acc * 10 + digit_value a) s end.

(** The value of a key that is an array index: such keys come first, in order. *)
Definition array_index (k : string) : option Z :=
  let z := digits_value 0 k in
  if string_forallb is_digit k && bool_decide (pretty z = k) && (z <? 2 ^ 32 - 1) then Some z else None.
Definition key_le (a b : string) : bool :=
  match array_index a, array_index b with
  | Some i, Some j => i <=? j
  | None, Some _ => false
  | _, None => true
  end.
(** The own properties in enumeration order. *)
Definition own_order (o : jsobj) : jsobj := js_sort (λ a b, key_le a.1 b.1) o.

(** ** Strings *)

(** A string literal is raw bytes and escaped code units. *)
Inductive piece := Raw (a : ascii) | Unit (u : Z).

Definition hex_digit (a : ascii) : option Z :=
  let n := Z.of_nat (nat_of_ascii a) in
  if is_digit a then Some (n - 48)
  else if byte_in a 97 102 then Some (n - 87) else if byte_in a 65 70 then Some (n - 55) else None.
Definition hex4 (a b c d : ascii) : option Z :=
  a ← hex_digit a; b ← hex_digit b; c ← hex_digit c; d ← hex_digit d;
  Some (((a * 16 + b) * 16 + c) * 16 + d).

Definition quote_char : ascii := ascii_of_nat 34.
Definition escape_char : ascii := ascii_of_nat 92.
Definition short_escape (a : ascii) : option Z :=
  match nat_of_ascii a with
  | 34%nat => Some 34 | 92%nat => Some 92 | 47%nat => Some 47 | 98%nat => Some 8 | 102%nat => Some 12
  | 110%nat => Some 10 | 114%nat => Some 13 | 116%nat => Some 9
  | _ => None
  end.

(** The pieces up to the closing quote, and what follows it. *)
Fixpoint parse_pieces (s : string) : option (list piece * string) :=
  match s with
  | EmptyString => None
  | String a s =>
      if Ascii.eqb a quote_char then Some ([], s)
      else if Ascii.eqb a escape_char then
        match s with
        | EmptyString => None
        | String e s =>
            if Ascii.eqb e "u" then
              match s with
              | String h1 (String h2 (String h3 (String h4 s))) =>
                  u ← hex4 h1 h2 h3 h4; r ← parse_pieces s; Some (Unit u :: r.1, r.2)
              | _ => None
              end
            else u ← short_escape e; r ← parse_pieces s; Some (Unit u :: r.1, r.2)
        end
      else if byte_in a 0 31 then None
      else r ← parse_pieces s; Some (Raw a :: r.1, r.2)
  end.

Definition byte (z : Z) : ascii := ascii_of_nat (Z.to_nat z).
Definition utf8_point (z : Z) : string :=
  if z <? 128 then String (byte z) EmptyString
  else if z <? 2048 then String (byte (192 + z / 64)) (String (byte (128 + z mod 64)) EmptyString)
  else if z <? 65536 then
    String (byte (224 + z / 4096)) (String (byte (128 + z / 64 mod 64)) (String (byte (128 + z mod 64)) EmptyString))
  else
    String (byte (240 + z / 262144)) (String (byte (128 + z / 4096 mod 64))
      (String (byte (128 + z / 64 mod 64)) (String (byte (128 + z mod 64)) EmptyString))).

(** A surrogate pair is one code point. *)
Fixpoint assemble (l : list piece) : string :=
  match l with
  | [] => EmptyString
  | Raw a :: l => String a (assemble l)
  | Unit hi :: ((Unit lo :: l) as rest) =>
      if (55296 <=? hi) && (hi <? 56320) && (56320 <=? lo) && (lo <? 57344)
      then utf8_point (65536 + (hi - 55296) * 1024 + (lo - 56320)) +:+ assemble l
      else utf8_point hi +:+ assemble rest
  | Unit u :: l => utf8_point u +:+ assemble l
  end.

Definition parse_string (s : string) : option (string * string) :=
  r ← parse_pieces s; Some (assemble r.1, r.2).

(** ** Numbers *)

Definition number_char (a : ascii) : bool := is_digit a || char_in "+-.eE" a.
Fixpoint span (p : ascii → bool) (s : string) : string * string :=
  match s with
  | EmptyString => (EmptyString, EmptyString)
  | String a rest => if p a then let r := span p rest in (String a r.1, r.2) else (EmptyString, s)
  end.

Definition nonempty (s : string) : bool := match s with EmptyString => false | _ => true end.
(** The rest of a text that starts with [a]. *)
Definition expect (a : ascii) (s : string) : option string :=
  match s with
  | String b s => if Ascii.eqb a b then Some s else None
  | EmptyString => None
  end.

(** The exponent and the fraction of a literal, if any. *)
Definition digits_ok (s : string) : bool := nonempty s && string_forallb is_digit s.
Definition exponent_ok (s : string) : bool :=
  match s with
  | EmptyString => true
  | String e s => char_in "eE" e
      && digits_ok (match s with String a s' => if char_in "+-" a then s' else s | EmptyString => s end)
  end.
Definition fraction_ok (s : string) : bool :=
  match expect "." s with
  | Some s => let r := span is_digit s in nonempty r.1 && exponent_ok r.2
  | None => exponent_ok s
  end.
(** The literal without its sign: no leading zero. *)
Definition unsigned_ok (s : string) : bool :=
  match expect "0" s with
  | Some s => fraction_ok s
  | None => let r := span is_digit s in nonempty r.1 && fraction_ok r.2
  end.
Definition unsigned (s : string) : bool * string :=
  match expect "-" s with Some s => (true, s) | None => (false, s) end.
Definition number_literal (s : string) : bool := unsigned_ok (unsigned s).2.

(** ** Values *)

Definition json_space (a : ascii) : bool :=
  match nat_of_ascii a with 32%nat | 9%nat | 10%nat | 13%nat => true | _ => false end.
Definition skip (s : string) : string := (span json_space s).2.

Fixpoint strip (lit s : string) : option string :=
  match lit, s with
  | EmptyString, _ => Some s
  | String a lit, String b s => if Ascii.eqb a b then strip lit s else None
  | _, _ => None
  end.

Section Parse.
Context `{JsEngine}.

(** A plain integer is exact within the safe range. *)
Definition number_value (s : string) : jsnum :=
  let '(neg, digits) := unsigned s in
  let z := digits_value 0 digits in
  if string_forallb is_digit digits && (z <=? MAX_SAFE_INTEGER) then NInt (if neg then - z else z)
  else String_toNumber s.
Definition parse_number (s : string) : option (jsval * string) :=
  let r := span number_char s in
  if number_literal r.1 then Some (JNum (number_value r.1), r.2) else None.

Definition parse_scalar (s : string) : option (jsval * string) :=
  match strip "null" s, strip "true" s, strip "false" s with
  | Some s, _, _ => Some (JNull, s)
  | _, Some s, _ => Some (JBool true, s)
  | _, _, Some s => Some (JBool false, s)
  | None, None, None => parse_number s
  end.

(** One unit of fuel for every token; the text has at least as many bytes. *)
Fixpoint parse_value (fuel : nat) (s : string) : option (jsval * string) :=
  match fuel with
  | O => None
  | S fuel =>
      let s := skip s in
      match expect quote_char s, expect "[" s, expect "{" s with
      | Some s, _, _ => r ← parse_string s; Some (JStr r.1, r.2)
      | _, Some s, _ =>
          match expect "]" (skip s) with
          | Some s => Some (JArr [], s)
          | None => parse_items fuel [] s
          end
      | _, _, Some s =>
          match expect "}" (skip s) with
          | Some s => Some (JObj [], s)
          | None => parse_members fuel [] s
          end
      | None, None, None => parse_scalar s
      end
  end
with parse_items (fuel : nat) (acc : list jsval) (s : string) : option (jsval * string) :=
  match fuel with
  | O => None
  | S fuel =>
      r ← parse_value fuel s;
      match expect "," (skip r.2), expect "]" (skip r.2) with
      | Some s, _ => parse_items fuel (acc ++ [r.1]) s
      | _, Some s => Some (JArr (acc ++ [r.1]), s)
      | None, None => None
      end
  end
with parse_members (fuel : nat) (acc : jsobj) (s : string) : option (jsval * string) :=
  match fuel with
  | O => None
  | S fuel =>
      s ← expect quote_char (skip s);
      k ← parse_string s;
      s ← expect ":" (skip k.2);
      r ← parse_value fuel s;
      match expect "," (skip r.2), expect "}" (skip r.2) with
      | Some s, _ => parse_members fuel (mset k.1 r.1 acc) s
      | _, Some s => Some (JObj (own_order (mset k.1 r.1 acc)), s)
      | None, None => None
      end
  end.

(** [JSON.parse]: [None] is the [SyntaxError]. *)
Definition JSON_parse (s : string) : option jsval :=
  r ← parse_value (S (String.length s)) s;
  match skip r.2 with EmptyString => Some r.1 | _ => None end.
End Parse.
