(* ===== verification/JsonSpec.v ===== *)
(** * JSON.parse reads what JSON.stringify wrote

    For every value that a JSON text can hold, whatever follows the text. *)

From S2P Require Import Prelude Js Json.
Local Open Scope Z_scope.

(** ** Digits *)

Lemma digit_value_char n : (n < 10)%N → digit_value (pretty_N_char n) = Z.of_N n.
Proof.
  intros Hn. assert (n = 0 ∨ n = 1 ∨ n = 2 ∨ n = 3 ∨ n = 4 ∨ n = 5 ∨ n = 6 ∨ n = 7 ∨ n = 8 ∨ n = 9)%N as Hc by lia.
  by repeat destruct Hc as [->|Hc]; try subst n.
Qed.

Lemma digits_value_go n s : digits_value 0 (pretty_N_go n s) = digits_value (Z.of_N n) s.
Proof.
  revert s. induction (N.lt_wf_0 n) as [n _ IH]. intros s. destruct (decide (0 < n)%N) as [Hn|Hn].
  - rewrite pretty_N_go_step by done. rewrite IH by (apply N.div_lt; lia). cbn [digits_value].
    rewrite digit_value_char by (apply N.mod_lt; lia). f_equal.
    rewrite (N.div_mod n 10) at 3 by lia. lia.
  - replace n with 0%N by lia. by rewrite pretty_N_go_0.
Qed.

Lemma digits_value_pretty (n : N) : digits_value 0 (pretty n) = Z.of_N n.
Proof.
  unfold pretty, pretty_N. case_decide; [by subst|]. by rewrite digits_value_go.
Qed.

Lemma string_forallb_go (p : ascii → bool) n s :
  (∀ d, (d < 10)%N → p (pretty_N_char d) = true) → string_forallb p s = true → string_forallb p (pretty_N_go n s) = true.
Proof.
  intros Hp. revert s. induction (N.lt_wf_0 n) as [n _ IH]. intros s Hs. destruct (decide (0 < n)%N) as [Hn|Hn].
  - rewrite pretty_N_go_step by done. apply IH; [apply N.div_lt; lia|]. cbn. rewrite Hp by (apply N.mod_lt; lia). done.
  - replace n with 0%N by lia. by rewrite pretty_N_go_0.
Qed.
Lemma pretty_digit d : (d < 10)%N → is_digit (pretty_N_char d) = true.
Proof.
  intros Hn. assert (d = 0 ∨ d = 1 ∨ d = 2 ∨ d = 3 ∨ d = 4 ∨ d = 5 ∨ d = 6 ∨ d = 7 ∨ d = 8 ∨ d = 9)%N as Hc by lia.
  by repeat destruct Hc as [->|Hc]; try subst d.
Qed.
Lemma pretty_digits (n : N) : string_forallb is_digit (pretty n) = true.
Proof.
  unfold pretty, pretty_N. case_decide; [done|]. apply string_forallb_go; [apply pretty_digit|done].
Qed.

(** A positive number has no leading zero. *)
Lemma pretty_go_head n s : (0 < n)%N → ∃ a t, pretty_N_go n s = String a t ∧ a ≠ "0"%char.
Proof.
  revert s. induction (N.lt_wf_0 n) as [n _ IH]. intros s Hn. rewrite pretty_N_go_step by done.
  destruct (decide (0 < n `div` 10)%N) as [Hd|Hd].
  - apply IH; [apply N.div_lt; lia|done].
  - assert (n `div` 10 = 0)%N as E by (apply N.le_0_r, N.nlt_ge, Hd). rewrite E, pretty_N_go_0. eexists _, _. split; [done|].
    assert (n < 10)%N as Hlt by (apply N.div_small_iff in E; [done|lia]). rewrite N.mod_small by done.
    change "0"%char with (pretty_N_char 0). intros Heq%pretty_N_char_inj; lia.
Qed.

Lemma span_all p s : string_forallb p s = true → span p s = (s, ""%string).
Proof.
  induction s as [|a s IH]; cbn; [done|]. intros [Ha Hs]%andb_true_iff. rewrite Ha, (IH Hs). done.
Qed.

Lemma unsigned_pretty (n : N) : unsigned_ok (pretty n) = true.
Proof.
  unfold pretty, pretty_N. case_decide as Hn; [done|].
  destruct (pretty_go_head n "" ltac:(lia)) as (a & t & Heq & Ha).
  assert (string_forallb is_digit (pretty_N_go n "") = true) as Hd by (apply string_forallb_go; [apply pretty_digit|done]).
  unfold unsigned_ok. rewrite Heq in *. cbn [expect]. rewrite (proj2 (Ascii.eqb_neq _ _)) by auto.
  rewrite (span_all _ _ Hd). done.
Qed.

Section Numbers.
Context `{JsEngine}.

(** The text of a number is a literal that is read back. *)
Definition number_ok (n : jsnum) : bool :=
  let t := num_string n in
  string_forallb number_char t && number_literal t && bool_decide (number_value t = n).

Lemma pretty_chars (n : N) : string_forallb number_char (pretty n) = true.
Proof.
  eapply string_forallb_impl; [|apply pretty_digits]. intros a Ha. unfold number_char. by rewrite Ha.
Qed.

Lemma unsigned_digits (n : N) : unsigned (pretty n) = (false, pretty n).
Proof.
  unfold unsigned. destruct (expect "-" (pretty n)) eqn:He; [|done]. exfalso. revert He. pose proof (pretty_digits n) as Hd.
  destruct (pretty n) as [|a t]; [done|]. cbn [expect string_forallb] in Hd |- *. apply andb_true_iff in Hd as [Ha _].
  destruct (Ascii.eqb_spec "-" a) as [<-|]; [discriminate Ha|done].
Qed.

Lemma safe_number_ok z : Z.abs z ≤ MAX_SAFE_INTEGER → number_ok (NInt z) = true.
Proof.
  intros Hz. unfold number_ok, num_string. replace (Z.abs z <? 10 ^ 21) with true by (unfold MAX_SAFE_INTEGER in Hz; lia).
  assert (∀ n : N, Z.of_N n ≤ MAX_SAFE_INTEGER → number_value (pretty n) = NInt (Z.of_N n) ∧
    number_value ("-" +:+ pretty n) = NInt (- Z.of_N n)) as Hv.
  { intros n Hn. unfold number_value. rewrite unsigned_digits. change (unsigned ("-" +:+ pretty n)) with (true, pretty n).
    cbn [fst snd]. rewrite pretty_digits, digits_value_pretty, (proj2 (Z.leb_le _ _)) by done. done. }
  destruct z as [|p|p]; [done| |].
  - change (pretty (Z.pos p)) with (pretty (N.pos p)). destruct (Hv (N.pos p)) as [-> _]; [cbn in *; lia|].
    rewrite pretty_chars. unfold number_literal. rewrite unsigned_digits. cbn [snd]. rewrite unsigned_pretty. apply bool_decide_eq_true. done.
  - change (pretty (Z.neg p)) with ("-" +:+ pretty (N.pos p)). destruct (Hv (N.pos p)) as [_ ->]; [cbn in *; lia|].
    change (string_forallb number_char ("-" +:+ pretty (N.pos p))) with (string_forallb number_char (pretty (N.pos p))).
    change (number_literal ("-" +:+ pretty (N.pos p))) with (unsigned_ok (pretty (N.pos p))).
    rewrite pretty_chars, unsigned_pretty. apply bool_decide_eq_true. done.
Qed.
End Numbers.

(** ** Strings *)

Definition piece_of (a : ascii) : piece :=
  if byte_in a 0 31 || Ascii.eqb a quote_char || Ascii.eqb a escape_char then Unit (Z.of_nat (nat_of_ascii a)) else Raw a.

Lemma parse_json_char a s :
  parse_pieces (json_char a +:+ s) = r ← parse_pieces s; Some (piece_of a :: r.1, r.2).
Proof. destruct a as [[] [] [] [] [] [] [] []]; reflexivity. Qed.

Lemma parse_json_chars s rest : parse_pieces (json_chars s +:+ dquote +:+ rest) = Some (piece_of <$> String.list_ascii_of_string s, rest).
Proof.
  induction s as [|a s IH]; [done|]. cbn [json_chars String.list_ascii_of_string]. rewrite string_app_assoc, parse_json_char, IH. done.
Qed.

(** No piece of a string is a surrogate. *)
Lemma assemble_cons a l : assemble (piece_of a :: l) = String a (assemble l).
Proof.
  unfold piece_of. destruct (_ || _ || _) eqn:Hc; [|done].
  assert (Z.of_nat (nat_of_ascii a) < 128 ∧ utf8_point (Z.of_nat (nat_of_ascii a)) = String a "") as [Hlt Hp].
  { destruct a as [[] [] [] [] [] [] [] []]; try discriminate Hc; done. }
  cbn [assemble]. destruct l as [|[b|lo] l]; rewrite ?Hp; try done.
  replace (55296 <=? Z.of_nat (nat_of_ascii a)) with false by lia. done.
Qed.

Lemma parse_json_string s rest :
  ∃ t, json_string s +:+ rest = String quote_char t ∧ parse_string t = Some (s, rest).
Proof.
  exists (json_chars s +:+ dquote +:+ rest). unfold json_string. rewrite !string_app_assoc. split; [done|].
  unfold parse_string. rewrite parse_json_chars. cbn [mbind option_bind fst snd]. do 2 f_equal.
  induction s as [|a s IH]; [done|]. cbn [String.list_ascii_of_string]. rewrite fmap_cons, assemble_cons. by rewrite IH.
Qed.

(** ** Values *)

(** What a JSON text can hold: no [undefined], finite numbers, and the distinct
    keys of an object in their enumeration order. *)
Fixpoint keys_ordered (l : list string) : bool :=
  match l with [] => true | k :: l => forallb (key_le k) l && keys_ordered l end.

Section Values.
Context `{JsEngine}.

Fixpoint json_ok (v : jsval) : bool :=
  match v with
  | JNull | JBool _ | JStr _ => true
  | JNum n => match n with NInt _ | NFrac _ _ => number_ok n | _ => false end
  | JArr l => forallb json_ok l
  | JObj o => nodupb (keys o) && keys_ordered (keys o) && forallb (λ kv, json_ok kv.2) o
  | JUndef | JFun => false
  end.

Lemma own_order_id o : keys_ordered (keys o) = true → own_order o = o.
Proof.
  intros Ho. apply js_sort_id. induction o as [|[k v] o IH]; [constructor|]. cbn in Ho.
  apply andb_true_iff in Ho as [Hk Ho]. constructor; [by apply IH|]. apply Forall_forall. intros [k' v'] Hin. cbn.
  rewrite forallb_true, Forall_forall in Hk. apply Hk. by apply (list_elem_of_fmap_2 fst) in Hin.
Qed.

(** The text of a value, and the texts of the members of an object. *)
Definition text_of (v : jsval) : string := default "null" (JSON_stringify v).
Definition member_text (kv : string * jsval) : string := json_string kv.1 +:+ ":" +:+ text_of kv.2.

Lemma json_ok_text v : json_ok v = true → JSON_stringify v = Some (text_of v).
Proof. unfold text_of. destruct v as [| |b|[]|s|l|o|]; done. Qed.
Lemma text_arr l : text_of (JArr l) = "[" +:+ join "," (text_of <$> l) +:+ "]".
Proof. done. Qed.
Lemma text_obj o : forallb (λ kv, json_ok kv.2) o = true → text_of (JObj o) = "{" +:+ join "," (member_text <$> o) +:+ "}".
Proof.
  intros Ho. change (text_of (JObj o)) with ("{" +:+ join "," (flat_map (λ '(k, x),
        match JSON_stringify x with None => [] | Some s => [json_string k +:+ ":" +:+ s] end) o) +:+ "}").
  do 3 f_equal. induction o as [|[k v] o IH]; [done|]. cbn [forallb snd] in Ho. apply andb_true_iff in Ho as [Hv Ho].
  cbn [flat_map]. rewrite (json_ok_text v Hv), (IH Ho). done.
Qed.

(** What follows a value: no byte that could extend a number. *)
Definition ends (rest : string) : Prop := match rest with EmptyString => True | String a _ => number_char a = false end.
(** How the text of a value starts. *)
Definition starts (a : ascii) : bool := negb (json_space a) && negb (Ascii.eqb "]" a).

Lemma skip_other a s : json_space a = false → skip (String a s) = String a s.
Proof. unfold skip. cbn [span]. by intros ->. Qed.
Lemma skip_starts a s : starts a = true → skip (String a s) = String a s.
Proof. unfold starts. intros [Ha _]%andb_true_iff. apply skip_other. by apply negb_true_iff in Ha. Qed.
Lemma expect_refl a s : expect a (String a s) = Some s.
Proof. cbn. by rewrite Ascii.eqb_refl. Qed.
Lemma expect_other a b s : a ≠ b → expect a (String b s) = None.
Proof. intros Hab. cbn. by rewrite (proj2 (Ascii.eqb_neq _ _) Hab). Qed.

Lemma span_ends p s rest :
  string_forallb p s = true → match rest with EmptyString => True | String a _ => p a = false end →
  span p (s +:+ rest) = (s, rest).
Proof.
  intros Hs Hr. induction s as [|a s IH].
  - change ("" +:+ rest) with rest. destruct rest as [|a rest]; [done|]. cbn [span]. by rewrite Hr.
  - cbn [string_forallb] in Hs. apply andb_true_iff in Hs as [Ha Hs]. change (String a s +:+ rest) with (String a (s +:+ rest)).
    cbn [span]. by rewrite Ha, (IH Hs).
Qed.

(** ** The round trip *)

(** The parser reads the text of [v] back, with a unit of fuel for every byte. *)
Definition reads_back (v : jsval) : Prop :=
  (∃ a t, text_of v = String a t ∧ starts a = true) ∧
  ∀ n rest, (String.length (text_of v) ≤ n)%nat → ends rest → parse_value n (text_of v +:+ rest) = Some (v, rest).

Lemma parse_value_scalar n a t :
  starts a = true → a ≠ quote_char → a ≠ "["%char → a ≠ "{"%char →
  parse_value (S n) (String a t) = parse_scalar (String a t).
Proof.
  intros Hs Hq Hb Hc. cbn [parse_value]. rewrite (skip_starts _ _ Hs). cbv zeta.
  by rewrite !expect_other by auto.
Qed.

Lemma number_start n :
  number_ok n = true → ∃ a t, num_string n = String a t ∧ number_char a = true.
Proof.
  unfold number_ok. rewrite !andb_true_iff. intros [[Hc Hl] _]. destruct (num_string n) as [|a t]; [done|].
  exists a, t. split; [done|]. by apply andb_true_iff in Hc as [? _].
Qed.
Lemma number_char_start a : number_char a = true →
  starts a = true ∧ a ≠ quote_char ∧ a ≠ "["%char ∧ a ≠ "{"%char ∧ a ≠ "n"%char ∧ a ≠ "t"%char ∧ a ≠ "f"%char.
Proof. destruct a as [[] [] [] [] [] [] [] []]; intros Ha; try discriminate Ha; done. Qed.

Lemma number_reads_back n : json_ok (JNum n) = true → reads_back (JNum n).
Proof.
  intros Hok. assert (number_ok n = true ∧ text_of (JNum n) = num_string n) as [Hn Ht] by (by destruct n).
  destruct (number_start n Hn) as (a & t & Heq & Ha). destruct (number_char_start a Ha) as (Hs & Hq & Hb & Hc & H1 & H2 & H3).
  split; [exists a, t; by rewrite Ht|]. intros fuel rest Hf Hr. rewrite Ht in *.
  unfold number_ok in Hn. rewrite !andb_true_iff, bool_decide_eq_true in Hn. destruct Hn as [[Hchars Hlit] Hval].
  destruct fuel as [|fuel]; [rewrite Heq in Hf; cbn in Hf; lia|].
  assert (parse_scalar (num_string n +:+ rest) = parse_number (num_string n +:+ rest)) as Hps.
  { rewrite Heq. change (String a t +:+ rest) with (String a (t +:+ rest)). unfold parse_scalar. cbn [strip].
    by rewrite !(proj2 (Ascii.eqb_neq _ _)) by auto. }
  transitivity (parse_scalar (num_string n +:+ rest)).
  { rewrite Heq. change (String a t +:+ rest) with (String a (t +:+ rest)). by apply parse_value_scalar. }
  rewrite Hps. unfold parse_number. rewrite (span_ends _ _ rest Hchars) by exact Hr. cbn [fst snd]. by rewrite Hlit, Hval.
Qed.

Lemma string_reads_back s : reads_back (JStr s).
Proof.
  split; [by eexists _, _|]. intros n rest Hn _. destruct n as [|n]; [by apply Nat.nle_succ_0 in Hn|].
  change (text_of (JStr s)) with (json_string s). destruct (parse_json_string s rest) as (t & -> & Hp).
  cbn [parse_value]. rewrite (skip_starts quote_char) by done. cbv zeta. rewrite expect_refl, Hp. done.
Qed.

(** The items of an array, after those in [acc]. *)
Lemma items_read_back l acc n rest :
  Forall reads_back l → l ≠ [] → (String.length (join "," (text_of <$> l) +:+ "]") ≤ n)%nat →
  parse_items n acc (join "," (text_of <$> l) +:+ "]" +:+ rest) = Some (JArr (acc ++ l), rest).
Proof.
  intros Hl. revert acc n. induction Hl as [|v l [(a & t & Heq & Ha) Hv] Hl IH]; intros acc n Hne Hn; [done|].
  destruct n as [|n]; [rewrite string_app_length in Hn; cbn in Hn; lia|]. cbn [parse_items].
  destruct l as [|w l].
  - cbn [fmap list_fmap join] in *. rewrite string_app_length in Hn. cbn [String.length] in Hn.
    rewrite (Hv n ("]" +:+ rest)) by (done || lia). cbn [mbind option_bind fst snd].
    change ("]" +:+ rest) with (String "]" rest). rewrite skip_other by done. by rewrite expect_other, expect_refl by done.
  - change (join "," (text_of <$> v :: w :: l)) with (text_of v +:+ "," +:+ join "," (text_of <$> w :: l)) in *.
    rewrite !string_app_assoc in *. rewrite !string_app_length in Hn. cbn [String.length] in Hn.
    rewrite (Hv n) by (done || (rewrite ?string_app_length; lia)). cbn [mbind option_bind fst snd].
    change ("," +:+ ?x) with (String "," x). rewrite skip_other by done. rewrite expect_refl.
    rewrite IH; [by rewrite <-app_assoc|done|]. rewrite string_app_length. cbn [String.length]. lia.
Qed.

(** The members of an object, after those in [acc]. *)
Lemma member_reads_back k v n rest :
  reads_back v → (String.length (member_text (k, v)) ≤ S n)%nat → ends rest →
  ∃ t s1 s2, member_text (k, v) +:+ rest = String quote_char t ∧ parse_string t = Some (k, s1) ∧
    expect ":" (skip s1) = Some s2 ∧ parse_value n s2 = Some (v, rest).
Proof.
  intros [_ Hv] Hn Hr. unfold member_text in *. cbn [fst snd] in *.
  destruct (parse_json_string k (":" +:+ text_of v +:+ rest)) as (t & Ht & Hp).
  exists t, (":" +:+ text_of v +:+ rest), (text_of v +:+ rest). rewrite !string_app_assoc, Ht. split_and!; [done|done|done|].
  apply Hv; [|done]. unfold json_string in Hn. rewrite !string_app_length in Hn. cbn [String.length dquote] in Hn. lia.
Qed.

Lemma members_read_back o acc n rest :
  Forall (λ kv, reads_back kv.2) o → o ≠ [] → NoDup (keys (acc ++ o)) → keys_ordered (keys (acc ++ o)) = true →
  (String.length (join "," (member_text <$> o) +:+ "}") ≤ n)%nat →
  parse_members n acc (join "," (member_text <$> o) +:+ "}" +:+ rest) = Some (JObj (acc ++ o), rest).
Proof.
  intros Ho. revert acc n. induction Ho as [|[k v] o Hv Ho IH]; intros acc n Hne Hnd Hord Hn; [done|]. cbn [snd] in Hv.
  assert (k ∉ acc.*1) as Hk.
  { unfold keys in Hnd. rewrite fmap_app, fmap_cons in Hnd. apply NoDup_app in Hnd as (_ & Hd & _). intros Hin. by apply (Hd k Hin); left. }
  destruct n as [|n]; [rewrite string_app_length in Hn; cbn in Hn; lia|]. cbn [parse_members].
  destruct o as [|w o].
  - change (join "," (member_text <$> [(k, v)])) with (member_text (k, v)) in *. rewrite string_app_length in Hn. cbn [String.length] in Hn.
    destruct (member_reads_back k v n ("}" +:+ rest) Hv) as (t & s1 & s2 & Ht & E1 & E2 & E3); [lia|done|].
    rewrite Ht, skip_other, expect_refl by done. cbn [mbind option_bind]. rewrite E1. cbn [mbind option_bind fst snd].
    rewrite E2. cbn [mbind option_bind fst snd]. rewrite E3. cbn [mbind option_bind fst snd].
    change ("}" +:+ rest) with (String "}" rest). rewrite skip_other by done. rewrite expect_other, expect_refl by done.
    rewrite (mset_fresh _ _ _ Hk), own_order_id by done. done.
  - change (join "," (member_text <$> (k, v) :: w :: o)) with (member_text (k, v) +:+ "," +:+ join "," (member_text <$> w :: o)) in *.
    rewrite !string_app_assoc in *. rewrite !string_app_length in Hn. cbn [String.length] in Hn.
    destruct (member_reads_back k v n ("," +:+ join "," (member_text <$> w :: o) +:+ "}" +:+ rest) Hv) as (t & s1 & s2 & Ht & E1 & E2 & E3); [lia|done|].
    rewrite Ht, skip_other, expect_refl by done. cbn [mbind option_bind]. rewrite E1. cbn [mbind option_bind fst snd].
    rewrite E2. cbn [mbind option_bind fst snd]. rewrite E3. cbn [mbind option_bind fst snd].
    change ("," +:+ ?x) with (String "," x). rewrite skip_other by done. rewrite expect_refl, (mset_fresh _ _ _ Hk).
    rewrite (cons_middle (k, v) acc (w :: o)), app_assoc in Hnd, Hord. rewrite (cons_middle (k, v) acc (w :: o)), app_assoc.
    apply IH; [done|exact Hnd|exact Hord|]. rewrite string_app_length. cbn [String.length]. lia.
Qed.

Lemma all_read_back v : json_ok v = true → reads_back v.
Proof.
  induction v as [| |b|n|s|l IH|o IH|] using jsval_nested_ind; intros Hok; try discriminate Hok.
  - split; [by eexists _, _|]. intros [|n] rest Hn _; [by apply Nat.nle_succ_0 in Hn|]. done.
  - split; [destruct b; by eexists _, _|]. intros [|n] rest Hn _; [destruct b; by apply Nat.nle_succ_0 in Hn|]. by destruct b.
  - by apply number_reads_back.
  - apply string_reads_back.
  - cbn [json_ok] in Hok. rewrite forallb_true, Forall_forall in Hok.
    assert (Forall reads_back l) as Hl.
    { rewrite Forall_forall in IH |- *. auto. }
    split; [by eexists _, _|]. intros [|n] rest Hn _; [by apply Nat.nle_succ_0 in Hn|].
    rewrite text_arr in *. change ("[" +:+ ?x) with (String "[" x) in *. cbn [String.length] in Hn.
    change (String "[" ?x +:+ rest) with (String "[" (x +:+ rest)). rewrite string_app_assoc.
    cbn [parse_value]. rewrite (skip_other "[") by done. cbv zeta. rewrite expect_other, expect_refl by done.
    destruct l as [|w l]; [done|]. apply Forall_cons in Hl as Hl'. destruct Hl' as [((a & t & Heq & Ha) & _) _].
    rewrite items_read_back; [|done|done|lia].
    assert (∃ u, join "," (text_of <$> w :: l) +:+ "]" +:+ rest = String a u) as [u ->].
    { destruct l; cbn [fmap list_fmap join]; rewrite Heq; by eexists. }
    rewrite skip_starts by done. rewrite expect_other; [done|].
    unfold starts in Ha. apply andb_true_iff in Ha as [_ Ha]. by apply negb_true_iff, Ascii.eqb_neq in Ha.
  - cbn [json_ok] in Hok. apply andb_true_iff in Hok as [[Hnd Hord]%andb_true_iff Hvals]. apply nodupb_true in Hnd.
    assert (Forall (λ kv, reads_back kv.2) o) as Ho.
    { rewrite forallb_true, Forall_forall in Hvals. rewrite Forall_forall in IH |- *. auto. }
    split; [rewrite text_obj by done; by eexists _, _|]. intros [|n] rest Hn _; [by apply Nat.nle_succ_0 in Hn|].
    rewrite text_obj in * by done. change ("{" +:+ ?x) with (String "{" x) in *. cbn [String.length] in Hn.
    change (String "{" ?x +:+ rest) with (String "{" (x +:+ rest)). rewrite string_app_assoc.
    cbn [parse_value]. rewrite (skip_other "{") by done. cbv zeta. rewrite !expect_other, expect_refl by done.
    destruct o as [|w o]; [done|].
    rewrite (members_read_back (w :: o) []); [|done|done|done|done|lia].
    assert (∃ u, join "," (member_text <$> w :: o) +:+ "}" +:+ rest = String quote_char u) as [u ->].
    { destruct o; cbn [fmap list_fmap join]; by eexists. }
    by rewrite skip_other, expect_other by done.
Qed.

Lemma string_length_le (a b : string) : (String.length a ≤ String.length (a +:+ b))%nat.
Proof. rewrite string_app_length. lia. Qed.

(** [JSON.parse] is the inverse of [JSON.stringify]: a value that JSON can
    hold (no [undefined], finite numbers that the engine reads back, distinct keys
    in enumeration order) has a text, and the text is read as the value. *)
Theorem JSON_roundtrip v :
  json_ok v = true → ∃ t, JSON_stringify v = Some t ∧ JSON_parse t = Some v.
Proof.
  intros Hok. exists (text_of v). split; [by apply json_ok_text|]. unfold JSON_parse.
  pose proof (proj2 (all_read_back v Hok) (S (String.length (text_of v))) "" ltac:(lia) I) as Hp.
  rewrite string_app_nil_r in Hp. by rewrite Hp.
Qed.
End Values.
