(* ===== verification/Jsonl.v ===== *)
(** * The JSONL store: apps/runtime/src/session-db/jsonlSessionJournalV3.ts

    The durable implementation of the commit store: one file of commit records for
    every session, a projection beside it, a catalog with a log of deltas, and a
    marker for a session whose projection may be stale.

    A file is its bytes.  A file that is only ever replaced as a whole ([atomicWrite]
    renames a synced temporary file) is the JSON value of its text, and a projection
    file the projection itself.  An operation is the list of its durable writes in
    their order and an outcome, so that a crash is a prefix of the writes, in which
    the last append may be torn.  The locks make the operations on one session and
    those on the catalog exclusive; they are not modelled. *)

From S2P Require Import Prelude Js Json CanonicalJson Plan Session SessionReducer SessionEntry SessionCommit SessionPort.
Local Open Scope Z_scope.

(** ** UTF-8

    [buffer.toString('utf8')]: the maximal ill-formed parts become U+FFFD. *)

Definition replacement : string := String (byte 239) (String (byte 191) (String (byte 189) EmptyString)).
Definition continues (a : ascii) : bool := byte_in a 128 191.
(** The range of the second byte after the lead byte of three or four. *)
Definition second_ok (lead second : ascii) : bool :=
  let n := nat_of_ascii lead in
  if Nat.eqb n 224 then byte_in second 160 191
  else if Nat.eqb n 237 then byte_in second 128 159
  else if Nat.eqb n 240 then byte_in second 144 191
  else if Nat.eqb n 244 then byte_in second 128 143
  else continues second.
Fixpoint utf8_decode (s : string) : string :=
  match s with
  | EmptyString => EmptyString
  | String a s1 =>
      if byte_in a 0 127 then String a (utf8_decode s1)
      else if byte_in a 194 223 then
        match s1 with
        | String b s2 => if continues b then String a (String b (utf8_decode s2)) else replacement +:+ utf8_decode s1
        | EmptyString => replacement
        end
      else if byte_in a 224 239 then
        match s1 with
        | String b s2 =>
            if second_ok a b then
              match s2 with
              | String c s3 =>
                  if continues c then String a (String b (String c (utf8_decode s3))) else replacement +:+ utf8_decode s2
              | EmptyString => replacement
              end
            else replacement +:+ utf8_decode s1
        | EmptyString => replacement
        end
      else if byte_in a 240 244 then
        match s1 with
        | String b s2 =>
            if second_ok a b then
              match s2 with
              | String c s3 =>
                  if continues c then
                    match s3 with
                    | String d s4 =>
                        if continues d then String a (String b (String c (String d (utf8_decode s4))))
                        else replacement +:+ utf8_decode s3
                    | EmptyString => replacement
                    end
                  else replacement +:+ utf8_decode s2
              | EmptyString => replacement
              end
            else replacement +:+ utf8_decode s1
        | EmptyString => replacement
        end
      else replacement +:+ utf8_decode s1
  end.

(** ** Lines

    The complete lines of a source, and what follows the last line feed. *)

Definition line_feed : ascii := ascii_of_nat 10.
Definition carriage_return : ascii := ascii_of_nat 13.
Fixpoint split_lines (source : string) : list string * string :=
  match source with
  | EmptyString => ([], EmptyString)
  | String a s =>
      let '(lines, tail) := split_lines s in
      if Ascii.eqb a line_feed then (EmptyString :: lines, tail)
      else match lines with
           | [] => ([], String a tail)
           | line :: lines => (String a line :: lines, tail)
           end
  end.
(** A carriage return before the line feed is dropped. *)
Fixpoint strip_return (line : string) : string :=
  match line with
  | EmptyString => EmptyString
  | String a EmptyString => if Ascii.eqb a carriage_return then EmptyString else line
  | String a s => String a (strip_return s)
  end.

(** What Node provides: the URL form of base64, and the order of a directory. *)
Class NodeHost := {
  base64url : string → string;
  base64url_decode : string → string;
  readdir_order : list string → list string;
}.

Definition FORMAT_VERSION : Z := 3.
Definition MAX_READ_PAGE : Z := 512.

Record JsonlCommitRecordV3 := { rec_commit : SessionCommitV3; rec_checksum : string }.
Record ParsedJournal := {
  prs_records : list JsonlCommitRecordV3;
  prs_validBytes : nat;
  prs_physicalBytes : nat;
}.
Record ProjectionCacheV3 := { pc_lastCommitId : string; pc_projection : SessionProjectionV3 }.
Record CatalogDeltaRecordV3 := { cdr_catalog : SessionCatalogProjectionV3; cdr_recoverable : bool }.
Record CatalogCacheV3 := {
  cc_sessions : list SessionCatalogProjectionV3;
  cc_recoverableSessionIds : list string;
}.

Definition is_nil {A} (l : list A) : bool := match l with [] => true | _ => false end.

(** The class of the error that is not a [RuntimeError]. *)
Definition SyntaxError : string := "SyntaxError".

Section Records.
Context `{JsEngine} `{JsCrypto} `{RP : ReviewPlanContract}.

(** [digest(value)] of an object literal. *)
Definition json_digest (value : jsval) : string := "sha256:" +:+ sha256_hex (default "" (JSON_stringify value)).

Definition SessionCommit_js (commit : SessionCommitV3) : jsval := JObj
  (commit_fields (JStr (sc_sessionId commit)) (JStr (sc_commitId commit)) (JInt (sc_expectedRevision commit))
     (JStr (sc_idempotencyKey commit)) (sc_values commit) ++ [("checksum", JStr (sc_checksum commit))]%string).

Definition record_payload (commit : SessionCommitV3) : jsobj :=
  [("formatVersion", JInt FORMAT_VERSION); ("commit", SessionCommit_js commit)]%string.
Definition createRecord (commit : SessionCommitV3) : JsonlCommitRecordV3 :=
  {| rec_commit := commit; rec_checksum := json_digest (JObj (record_payload commit)) |}.
Definition JsonlCommitRecord_js (record : JsonlCommitRecordV3) : jsval := JObj
  (record_payload (rec_commit record) ++ [("recordChecksum", JStr (rec_checksum record))]%string).

Definition validateRecord (value : jsval) (sessionId : string) : res JsonlCommitRecordV3 :=
  input ← match value with JObj o => Ok o | _ => Err SyntaxError end;
  fail_if (negb (onlyKeys input ["formatVersion"; "commit"; "recordChecksum"]%string)
           || negb (is_int (input .: "formatVersion") FORMAT_VERSION) || negb (is_string (input .: "recordChecksum"))) SyntaxError;;
  commit ← rethrow SyntaxError (validateSessionCommitV3 (input .: "commit"));
  fail_if (bool_decide (sc_sessionId commit ≠ sessionId)) SyntaxError;;
  fail_if (negb (is_str (input .: "recordChecksum") (json_digest (JObj (record_payload commit))))) SyntaxError;;
  Ok {| rec_commit := commit; rec_checksum := js_str (input .: "recordChecksum") |}.

Definition flattenEntries (records : list JsonlCommitRecordV3) : list SessionEntryV3 :=
  records ≫= λ record, sc_entries (rec_commit record).
Definition journal_head (entries : list SessionEntryV3) : option SessionJournalHeadV3 :=
  (λ entry, {| hd_revision := en_revision entry; hd_sequence := en_sequence entry |}) <$> last entries.

(** The loop over the lines of the source. *)
Fixpoint parse_lines (sessionId : string) (lines : list string) (records : list JsonlCommitRecordV3) :
    res (list JsonlCommitRecordV3) :=
  match lines with
  | [] => Ok records
  | line :: lines =>
      let line := utf8_decode (strip_return line) in
      if bool_decide (line = EmptyString) then parse_lines sessionId lines records
      else
        value ← match JSON_parse line with Some value => Ok value | None => Err SyntaxError end;
        parsed ← validateRecord value sessionId;
        (if is_nil records then Ok tt
         else rethrow SyntaxError (assertSessionCommitAgainstHeadV3 (rec_commit parsed) (journal_head (flattenEntries records))));;
        parse_lines sessionId lines (records ++ [parsed])
  end.

Definition parseJournal (source sessionId : string) : res ParsedJournal :=
  let '(lines, tail) := split_lines source in
  records ← parse_lines sessionId lines [];
  (if is_nil records then Ok tt
   else rethrow SyntaxError (_ ← reduceSessionEntriesV3 (flattenEntries records); Ok tt));;
  Ok {| prs_records := records; prs_validBytes := String.length source - String.length tail;
        prs_physicalBytes := String.length source |}.

(** The commit that the candidate repeats. *)
Fixpoint findDuplicate (records : list JsonlCommitRecordV3) (candidate : SessionCommitV3) : res (option SessionCommitV3) :=
  match records with
  | [] => Ok None
  | record :: records =>
      let existing := rec_commit record in
      if bool_decide (sc_commitId existing ≠ sc_commitId candidate)
         && bool_decide (sc_idempotencyKey existing ≠ sc_idempotencyKey candidate)
      then findDuplicate records candidate
      else if bool_decide (sc_commitId existing ≠ sc_commitId candidate)
              || bool_decide (sc_idempotencyKey existing ≠ sc_idempotencyKey candidate)
              || bool_decide (sc_checksum existing ≠ sc_checksum candidate)
      then Err "SESSION_COMMIT_IDEMPOTENCY_CONFLICT"
      else Ok (Some existing)
  end.
End Records.

(** ** Catalog records *)

#[export] Instance SESSION_LIFECYCLES : JsEnum SessionLifecycleStateV3.
Proof.
  refine {|
  enum_all := [L_open; L_closed; L_deleted];
  enum_name s := match s with L_open => "open" | L_closed => "closed" | L_deleted => "deleted" end;
|}; solve_enum.
Defined.

Section Catalog.
Context `{JsEngine} `{JsCrypto}.

Definition SessionCatalog_js (c : SessionCatalogProjectionV3) : jsval := JObj
  ([("sessionId", JStr (ca_sessionId c)); ("name", JStr (ca_name c)); ("workspace", JStr (ca_workspace c));
    ("provider", JStr (ca_provider c)); ("model", JStr (ca_model c)); ("lifecycle", JStr (enum_name (ca_lifecycle c)));
    ("activeLeafId", JStr (ca_activeLeafId c))]%string
   ++ opt_prop "parentSessionId" JStr (ca_parentSessionId c)
   ++ [("messageCount", JInt (ca_messageCount c)); ("updatedAt", JStr (ca_updatedAt c)); ("revision", JInt (ca_revision c))]%string).

(** [isCatalogProjection], with the record that the value is. *)
Definition isCatalogProjection (value : jsval) : option SessionCatalogProjectionV3 :=
  match value with
  | JObj o =>
      if onlyKeys o ["sessionId"; "name"; "workspace"; "provider"; "model"; "lifecycle"; "activeLeafId";
                     "parentSessionId"; "messageCount"; "updatedAt"; "revision"]%string
         && safeId (o .: "sessionId") && is_string (o .: "name") && is_string (o .: "workspace")
         && is_string (o .: "provider") && is_string (o .: "model")
         && safeId (o .: "activeLeafId") && (is_undef (o .: "parentSessionId") || safeId (o .: "parentSessionId"))
         && nonNegativeInteger (o .: "messageCount") && canonicalInstant (o .: "updatedAt")
         && nonNegativeInteger (o .: "revision") && (1 <=? js_int (o .: "revision"))
      then
        (λ lifecycle,
          {| ca_sessionId := js_str (o .: "sessionId"); ca_name := js_str (o .: "name");
             ca_workspace := js_str (o .: "workspace"); ca_provider := js_str (o .: "provider");
             ca_model := js_str (o .: "model"); ca_lifecycle := lifecycle;
             ca_activeLeafId := js_str (o .: "activeLeafId"); ca_parentSessionId := opt js_str (o .: "parentSessionId");
             ca_messageCount := js_int (o .: "messageCount"); ca_updatedAt := js_str (o .: "updatedAt");
             ca_revision := js_int (o .: "revision") |})
        <$> enum_of (JStr (js_String (o .: "lifecycle")))
      else None
  | _ => None
  end.

Definition projectionHasRecoverableRun (projection : SessionProjectionV3) : bool :=
  bool_decide (sn_lifecycle (pj_snapshot projection) = L_open)
  && existsb (λ run, bool_decide (rn_state run = R_running)) (sn_runs (pj_snapshot projection)).

Definition delta_payload (record : CatalogDeltaRecordV3) : jsobj :=
  [("formatVersion", JInt FORMAT_VERSION); ("catalog", SessionCatalog_js (cdr_catalog record));
   ("recoverable", JBool (cdr_recoverable record))]%string.
Definition catalogDeltaRecord (projection : SessionProjectionV3) : CatalogDeltaRecordV3 :=
  {| cdr_catalog := pj_catalog projection; cdr_recoverable := projectionHasRecoverableRun projection |}.
Definition CatalogDeltaRecord_js (record : CatalogDeltaRecordV3) : jsval := JObj
  (delta_payload record ++ [("recordChecksum", JStr (json_digest (JObj (delta_payload record))))]%string).

(** The digest is taken over the catalog as it was read. *)
Definition validateCatalogDeltaRecord (value : jsval) : res CatalogDeltaRecordV3 :=
  input ← match value with JObj o => Ok o | _ => Err SyntaxError end;
  fail_if (negb (onlyKeys input ["formatVersion"; "catalog"; "recoverable"; "recordChecksum"]%string)
           || negb (is_int (input .: "formatVersion") FORMAT_VERSION)) SyntaxError;;
  catalog ← match isCatalogProjection (input .: "catalog") with Some c => Ok c | None => Err SyntaxError end;
  fail_if (negb (is_bool (input .: "recoverable")) || negb (is_string (input .: "recordChecksum"))) SyntaxError;;
  fail_if (negb (is_str (input .: "recordChecksum") (json_digest (JObj
      [("formatVersion", JInt FORMAT_VERSION); ("catalog", input .: "catalog"); ("recoverable", input .: "recoverable")]%string))))
    SyntaxError;;
  Ok {| cdr_catalog := catalog; cdr_recoverable := js_bool (input .: "recoverable") |}.

(** [right.updatedAt.localeCompare(left.updatedAt) || left.sessionId.localeCompare(right.sessionId)] is at most 0. *)
Definition catalog_before (left right : SessionCatalogProjectionV3) : bool :=
  match localeCompare (ca_updatedAt right) (ca_updatedAt left) with
  | Lt => true
  | Gt => false
  | Eq => match localeCompare (ca_sessionId left) (ca_sessionId right) with Gt => false | _ => true end
  end.
Definition sortCatalog (sessions : list SessionCatalogProjectionV3) : list SessionCatalogProjectionV3 :=
  js_sort catalog_before sessions.

Definition sort_texts (l : list string) : list string := js_sort (λ a b, negb (JsOps.text_ltb b a)) l.
Definition catalogCache (sessions : list SessionCatalogProjectionV3) (recoverable : list string) : CatalogCacheV3 :=
  {| cc_sessions := sortCatalog sessions; cc_recoverableSessionIds := sort_texts (remove_dups recoverable) |}.
Definition catalog_payload (cache : CatalogCacheV3) : jsobj :=
  [("formatVersion", JInt FORMAT_VERSION); ("sessions", JArr (SessionCatalog_js <$> cc_sessions cache));
   ("recoverableSessionIds", JStrs (cc_recoverableSessionIds cache))]%string.
Definition catalog_checksum (cache : CatalogCacheV3) : string := json_digest (JObj (catalog_payload cache)).
Definition CatalogCache_js (cache : CatalogCacheV3) : jsval := JObj
  (catalog_payload cache ++ [("checksum", JStr (catalog_checksum cache))]%string).

Definition catalogs_of (values : list jsval) : res (list SessionCatalogProjectionV3) :=
  mapM (λ v, match isCatalogProjection v with Some c => Ok c | None => Err SyntaxError end) values.
(** The cache and its checksum. *)
Definition validateCatalogCache (value : jsval) : res (CatalogCacheV3 * string) :=
  input ← match value with JObj o => Ok o | _ => Err SyntaxError end;
  fail_if (negb (onlyKeys input ["formatVersion"; "sessions"; "recoverableSessionIds"; "checksum"]%string)
           || negb (is_int (input .: "formatVersion") FORMAT_VERSION) || negb (is_arr (input .: "sessions"))) SyntaxError;;
  sessions ← catalogs_of (js_arr (input .: "sessions"));
  fail_if (negb (is_arr (input .: "recoverableSessionIds"))
           || negb (forallb safeId (js_arr (input .: "recoverableSessionIds")))
           || negb (is_string (input .: "checksum"))) SyntaxError;;
  fail_if (negb (is_str (input .: "checksum") (json_digest (JObj
      [("formatVersion", JInt FORMAT_VERSION); ("sessions", input .: "sessions");
       ("recoverableSessionIds", input .: "recoverableSessionIds")]%string)))) SyntaxError;;
  Ok ({| cc_sessions := sessions; cc_recoverableSessionIds := js_str <$> js_arr (input .: "recoverableSessionIds") |},
      js_str (input .: "checksum")).

(** The small marker files: a payload with its digest. *)
Definition with_checksum (payload : jsobj) : jsval := JObj (payload ++ [("checksum", JStr (json_digest (JObj payload)))]%string).
Definition state_payload (baseCatalogChecksum : string) : jsobj :=
  [("formatVersion", JInt FORMAT_VERSION); ("strategy", JStr "incremental-v1"); ("baseCatalogChecksum", JStr baseCatalogChecksum)]%string.
Definition catalogState (baseCatalogChecksum : string) : jsval := with_checksum (state_payload baseCatalogChecksum).
Definition validateCatalogState (value : jsval) (baseCatalogChecksum : string) : res unit :=
  input ← match value with JObj o => Ok o | _ => Err SyntaxError end;
  fail_if (negb (onlyKeys input ["formatVersion"; "strategy"; "baseCatalogChecksum"; "checksum"]%string)
           || negb (is_int (input .: "formatVersion") FORMAT_VERSION) || negb (is_str (input .: "strategy") "incremental-v1")
           || negb (is_str (input .: "baseCatalogChecksum") baseCatalogChecksum)
           || negb (is_str (input .: "checksum") (json_digest (JObj (state_payload baseCatalogChecksum))))) SyntaxError.

Definition pending_payload (sessionId : string) : jsobj :=
  [("formatVersion", JInt FORMAT_VERSION); ("sessionId", JStr sessionId)]%string.
Definition pendingProjection (sessionId : string) : jsval := with_checksum (pending_payload sessionId).
Definition validatePendingProjection (value : jsval) : res string :=
  input ← match value with JObj o => Ok o | _ => Err SyntaxError end;
  fail_if (negb (onlyKeys input ["formatVersion"; "sessionId"; "checksum"]%string)
           || negb (is_int (input .: "formatVersion") FORMAT_VERSION) || negb (safeId (input .: "sessionId"))
           || negb (is_str (input .: "checksum") (json_digest (JObj (pending_payload (js_str (input .: "sessionId"))))))) SyntaxError;;
  Ok (js_str (input .: "sessionId")).

Definition authority_payload : jsobj := [("formatVersion", JInt FORMAT_VERSION); ("backend", JStr "jsonl")]%string.
Definition authorityRecord : jsval := with_checksum authority_payload.
Definition validateAuthority (value : jsval) : res unit :=
  input ← match value with JObj o => Ok o | _ => Err SyntaxError end;
  fail_if (negb (onlyKeys input ["formatVersion"; "backend"; "checksum"]%string)
           || negb (is_int (input .: "formatVersion") FORMAT_VERSION) || negb (is_str (input .: "backend") "jsonl")
           || negb (is_str (input .: "checksum") (json_digest (JObj authority_payload)))) SyntaxError.
End Catalog.
