(* ===== verification/JsonlStore.v ===== *)
(** * The operations of the JSONL store

    The disk, the durable writes, and every operation of
    [JsonlSessionJournalV3] as a computation that reads the disk and emits writes.
    The migration of version 2 data is not modelled. *)

From S2P Require Import Prelude Js Json CanonicalJson Plan Session SessionReducer SessionEntry SessionCommit SessionPort Jsonl.
Local Open Scope Z_scope.

(** ** The disk *)

(** The directories [commits], [projections] and [pending] by file name, and the
    files of the catalog and the authority. *)
Record Disk := {
  dk_commits : gmap string string;
  dk_projections : gmap string ProjectionCacheV3;
  dk_pending : gmap string jsval;
  dk_catalog : option jsval;
  dk_delta : option string;
  dk_state : option jsval;
  dk_authority : option jsval;
}.
Definition empty_disk : Disk :=
  {| dk_commits := ∅; dk_projections := ∅; dk_pending := ∅; dk_catalog := None; dk_delta := None;
     dk_state := None; dk_authority := None |}.

(** The durable writes, each of them synced before the next one starts. *)
Inductive write :=
| append_commits (name bytes : string)
| truncate_commits (name : string) (size : nat)
| write_projection (name : string) (cache : ProjectionCacheV3)
| write_pending (name : string) (marker : jsval)
| unlink_pending (name : string)
| write_catalog (value : jsval)
| append_delta (bytes : string)
| truncate_delta (size : nat)
| write_delta (bytes : string)
| write_state (value : jsval)
| write_authority (value : jsval).

Definition with_commits (d : Disk) (commits : gmap string string) : Disk :=
  {| dk_commits := commits; dk_projections := dk_projections d; dk_pending := dk_pending d; dk_catalog := dk_catalog d;
     dk_delta := dk_delta d; dk_state := dk_state d; dk_authority := dk_authority d |}.
Definition with_projections (d : Disk) (projections : gmap string ProjectionCacheV3) : Disk :=
  {| dk_commits := dk_commits d; dk_projections := projections; dk_pending := dk_pending d; dk_catalog := dk_catalog d;
     dk_delta := dk_delta d; dk_state := dk_state d; dk_authority := dk_authority d |}.
Definition with_pending (d : Disk) (pending : gmap string jsval) : Disk :=
  {| dk_commits := dk_commits d; dk_projections := dk_projections d; dk_pending := pending; dk_catalog := dk_catalog d;
     dk_delta := dk_delta d; dk_state := dk_state d; dk_authority := dk_authority d |}.
Definition with_catalog (d : Disk) (catalog : option jsval) (delta : option string) (state authority : option jsval) : Disk :=
  {| dk_commits := dk_commits d; dk_projections := dk_projections d; dk_pending := dk_pending d; dk_catalog := catalog;
     dk_delta := delta; dk_state := state; dk_authority := authority |}.

(** An append creates the file. *)
Definition apply_write (d : Disk) (w : write) : Disk :=
  match w with
  | append_commits name bytes => with_commits d (<[name := default "" (dk_commits d !! name) +:+ bytes]> (dk_commits d))
  | truncate_commits name size => with_commits d (alter (String.substring 0 size) name (dk_commits d))
  | write_projection name cache => with_projections d (<[name := cache]> (dk_projections d))
  | write_pending name marker => with_pending d (<[name := marker]> (dk_pending d))
  | unlink_pending name => with_pending d (delete name (dk_pending d))
  | write_catalog value => with_catalog d (Some value) (dk_delta d) (dk_state d) (dk_authority d)
  | append_delta bytes => with_catalog d (dk_catalog d) (Some (default "" (dk_delta d) +:+ bytes)) (dk_state d) (dk_authority d)
  | truncate_delta size => with_catalog d (dk_catalog d) (String.substring 0 size <$> dk_delta d) (dk_state d) (dk_authority d)
  | write_delta bytes => with_catalog d (dk_catalog d) (Some bytes) (dk_state d) (dk_authority d)
  | write_state value => with_catalog d (dk_catalog d) (dk_delta d) (Some value) (dk_authority d)
  | write_authority value => with_catalog d (dk_catalog d) (dk_delta d) (dk_state d) (Some value)
  end.
Definition apply_writes : Disk → list write → Disk := foldl apply_write.

(** ** Operations *)

(** The writes that an operation made before its outcome. *)
Definition Fs (A : Type) : Type := Disk → list write * res A.
#[export] Instance fs_ret : MRet Fs := λ A a d, ([], Ok a).
#[export] Instance fs_bind : MBind Fs := λ A B f m d,
  match m d with
  | (ws, Err code) => (ws, Err code)
  | (ws, Ok a) => let '(ws', r) := f a (apply_writes d ws) in (ws ++ ws', r)
  end.
Definition lift {A} (r : res A) : Fs A := λ d, ([], r).
Definition gets {A} (f : Disk → A) : Fs A := λ d, ([], Ok (f d)).
Definition emit (w : write) : Fs unit := λ d, ([w], Ok tt).

Definition ENOENT : string := "ENOENT".
Definition is_runtime_error (code : string) : bool :=
  negb (bool_decide (code = SyntaxError)) && negb (bool_decide (code = ENOENT)).
(** [run]: an error that is not a [RuntimeError] is wrapped. *)
Definition run_error (code : string) : string :=
  if is_runtime_error code then code
  else if bool_decide (code = SyntaxError) then "PERSISTENCE_INVALID_DATA" else "PERSISTENCE_IO_ERROR".
Definition run {A} (m : Fs A) : Fs A := λ d,
  match m d with
  | (ws, Err code) => (ws, Err (run_error code))
  | r => r
  end.

Inductive JsonlSessionJournalFaultPointV3 := before_append | after_append_fsync | before_projection_write | before_catalog_write.

Definition endsWith (suffix s : string) : bool :=
  bool_decide (String.substring (String.length s - String.length suffix) (String.length suffix) s = suffix).

Section Store.
Context `{JsEngine} `{JsCrypto} `{RP : ReviewPlanContract} `{NodeHost}.
(** [requireInitialized], and the fault injector of the tests. *)
Context (initialized : bool) (inject : JsonlSessionJournalFaultPointV3 → res unit).

Definition requireInitialized : res unit := fail_if (negb initialized) "SESSION_JOURNAL_NOT_INITIALIZED".

Definition encodeSessionFile (value : string) : res string :=
  fail_if (negb (SAFE_ID value)) "SESSION_ID_INVALID";; Ok (base64url value).
Definition decodeSessionFile (value : string) : res string :=
  let decoded := base64url_decode value in
  encoded ← encodeSessionFile decoded;
  fail_if (bool_decide (encoded ≠ value)) SyntaxError;; Ok decoded.
Definition commitPath (sessionId : string) : res string := name ← encodeSessionFile sessionId; Ok (name +:+ ".jsonl").
Definition projectionPath (sessionId : string) : res string := name ← encodeSessionFile sessionId; Ok (name +:+ ".json").
Definition pendingPath (sessionId : string) : res string := name ← encodeSessionFile sessionId; Ok (name +:+ ".json").

Definition readJournal (sessionId : string) : Fs ParsedJournal :=
  name ← lift (commitPath sessionId);
  source ← gets (λ d, dk_commits d !! name);
  match source with
  | Some source => lift (parseJournal source sessionId)
  | None => mret {| prs_records := []; prs_validBytes := 0; prs_physicalBytes := 0 |}
  end.

Definition appendRecord (sessionId : string) (record : JsonlCommitRecordV3) : Fs unit :=
  name ← lift (commitPath sessionId);
  emit (append_commits name (default "" (JSON_stringify (JsonlCommitRecord_js record)) +:+ String line_feed EmptyString)).

Definition repairTail (sessionId : string) (parsed : ParsedJournal) : Fs unit :=
  if Nat.leb (prs_physicalBytes parsed) (prs_validBytes parsed) then mret tt
  else name ← lift (commitPath sessionId); emit (truncate_commits name (prs_validBytes parsed)).

Definition markPending (sessionId : string) : Fs unit :=
  name ← lift (pendingPath sessionId); emit (write_pending name (pendingProjection sessionId)).
Definition clearPending (sessionId : string) : Fs unit :=
  name ← lift (pendingPath sessionId); emit (unlink_pending name).

Definition appendCatalogDeltaUnlocked (projection : SessionProjectionV3) : Fs unit :=
  emit (append_delta (default "" (JSON_stringify (CatalogDeltaRecord_js (catalogDeltaRecord projection)))
                      +:+ String line_feed EmptyString)).

(** [records.at(-1)!.commit.commitId]; the caller has a record. *)
Definition last_commitId (records : list JsonlCommitRecordV3) : string := default "" (sc_commitId ∘ rec_commit <$> last records).
Definition projection_cache (records : list JsonlCommitRecordV3) (projection : SessionProjectionV3) : ProjectionCacheV3 :=
  {| pc_lastCommitId := last_commitId records; pc_projection := projection |}.

Definition refreshProjection (sessionId : string) (records : list JsonlCommitRecordV3) : Fs unit :=
  projection ← lift (reduceSessionEntriesV3 (flattenEntries records));
  lift (inject before_projection_write);;
  name ← lift (projectionPath sessionId);
  emit (write_projection name (projection_cache records projection));;
  lift (inject before_catalog_write);;
  appendCatalogDeltaUnlocked projection.

(** ** The commit store *)

Definition appendCommit (input : jsval) : Fs SessionCommitReceiptV3 :=
  lift requireInitialized;;
  commit ← lift (validateSessionCommitV3 input);
  run (
    parsed ← readJournal (sc_sessionId commit);
    repairTail (sc_sessionId commit) parsed;;
    duplicate ← lift (findDuplicate (prs_records parsed) commit);
    match duplicate with
    | Some duplicate =>
        refreshProjection (sc_sessionId commit) (prs_records parsed);;
        mret (sessionCommitReceiptV3 duplicate true)
    | None =>
        let priorEntries := flattenEntries (prs_records parsed) in
        lift (assertSessionCommitAgainstHeadV3 commit (journal_head priorEntries));;
        lift (reduceSessionEntriesV3 (priorEntries ++ sc_entries commit));;
        markPending (sc_sessionId commit);;
        lift (inject before_append);;
        appendRecord (sc_sessionId commit) (createRecord commit);;
        lift (inject after_append_fsync);;
        refreshProjection (sc_sessionId commit) (prs_records parsed ++ [createRecord commit]);;
        clearPending (sc_sessionId commit);;
        mret (sessionCommitReceiptV3 commit false)
    end).

Definition validateReadInput (input : ReadSessionEntriesInputV3) : res unit :=
  fail_if (negb (SAFE_ID (ri_sessionId input))
           || match ri_afterSequence input with Some n => negb (nonNegativeInteger (JInt n)) | None => false end
           || match ri_limit input with
              | Some n => negb (isSafeInteger (JInt n)) || (n <? 1) || (MAX_READ_PAGE <? n)
              | None => false
              end
           || match ri_throughSequence input with Some n => negb (nonNegativeInteger (JInt n)) | None => false end)
    "SESSION_READ_INVALID".

(** The entries with their values. *)
Definition flatten_values (records : list JsonlCommitRecordV3) : list (SessionEntryV3 * jsval) :=
  records ≫= λ record, zip (sc_entries (rec_commit record)) (sc_values (rec_commit record)).

Definition readEntries (input : ReadSessionEntriesInputV3) : Fs jsval :=
  lift requireInitialized;;
  run (
    lift (validateReadInput input);;
    parsed ← readJournal (ri_sessionId input);
    lift (fail_if (is_nil (prs_records parsed)) "SESSION_NOT_FOUND");;
    let entries := flatten_values (prs_records parsed) in
    let currentHead := default {| hd_revision := 0; hd_sequence := 0 |} (journal_head entries.*1) in
    let through := default (hd_sequence currentHead) (ri_throughSequence input) in
    lift (fail_if (hd_sequence currentHead <? through) "SESSION_READ_INVALID");;
    let after := default 0 (ri_afterSequence input) in
    let limit := default MAX_READ_PAGE (ri_limit input) in
    let selected := take (Z.to_nat limit)
      (List.filter (λ entry, (after <? en_sequence entry.1) && (en_sequence entry.1 <=? through)) entries) in
    let nextAfterSequence := default after (en_sequence ∘ fst <$> last selected) in
    mret (JObj [("sessionId", JStr (ri_sessionId input)); ("entries", JArr selected.*2);
                ("nextAfterSequence", JInt nextAfterSequence); ("hasMore", JBool (nextAfterSequence <? through)%Z);
                ("head", JObj [("revision", JInt (hd_revision currentHead)); ("sequence", JInt (hd_sequence currentHead))])]%string)).

Definition readCommits (sessionId : string) : Fs (list SessionCommitV3) :=
  lift requireInitialized;;
  run (
    parsed ← readJournal sessionId;
    lift (fail_if (is_nil (prs_records parsed)) "SESSION_NOT_FOUND");;
    lift (mapM (λ record, validateSessionCommitV3 (SessionCommit_js (rec_commit record))) (prs_records parsed))).

Definition validateProjectionCache (cache : ProjectionCacheV3) (sessionId : string) : res ProjectionCacheV3 :=
  fail_if (bool_decide (sn_sessionId (pj_snapshot (pc_projection cache)) ≠ sessionId)
           || bool_decide (ca_sessionId (pj_catalog (pc_projection cache)) ≠ sessionId)) SyntaxError;;
  Ok cache.
Definition loadCachedProjection (sessionId : string) : Fs SessionProjectionV3 :=
  lift requireInitialized;;
  run (
    name ← lift (projectionPath sessionId);
    file ← gets (λ d, dk_projections d !! name);
    match file with
    | Some file => cache ← lift (validateProjectionCache file sessionId); mret (pc_projection cache)
    | None => lift (Err "SESSION_NOT_FOUND")
    end).

(** ** The catalog *)

(** [sessions.set(id, catalog)] of a Map, and [add] and [delete] of a Set. *)
Definition set_catalog (sessions : list (string * SessionCatalogProjectionV3)) (c : SessionCatalogProjectionV3) :
    list (string * SessionCatalogProjectionV3) := mset (ca_sessionId c) c sessions.
Definition set_add (x : string) (l : list string) : list string := if memb x l then l else l ++ [x].
Definition set_delete (x : string) (l : list string) : list string := List.filter (λ y, negb (String.eqb x y)) l.

Fixpoint parse_deltas (lines : list string) : res (list CatalogDeltaRecordV3) :=
  match lines with
  | [] => Ok []
  | line :: lines =>
      let line := utf8_decode (strip_return line) in
      if bool_decide (line = EmptyString) then parse_deltas lines
      else
        value ← match JSON_parse line with Some value => Ok value | None => Err SyntaxError end;
        record ← validateCatalogDeltaRecord value;
        records ← parse_deltas lines;
        Ok (record :: records)
  end.

(** The records, the valid and the physical bytes. *)
Definition readCatalogDeltaUnlocked : Fs (list CatalogDeltaRecordV3 * nat * nat) :=
  file ← gets dk_delta;
  source ← lift (match file with Some source => Ok source | None => Err ENOENT end);
  let '(lines, tail) := split_lines source in
  records ← lift (parse_deltas lines);
  mret (records, String.length source - String.length tail, String.length source)%nat.

Definition read_value (file : Disk → option jsval) : Fs jsval :=
  value ← gets file; lift (match value with Some value => Ok value | None => Err ENOENT end).

(** The sessions by identity, and the recoverable ones. *)
Definition merge_delta (acc : list (string * SessionCatalogProjectionV3) * list string) (record : CatalogDeltaRecordV3) :
    list (string * SessionCatalogProjectionV3) * list string :=
  let id := ca_sessionId (cdr_catalog record) in
  (set_catalog acc.1 (cdr_catalog record), if cdr_recoverable record then set_add id acc.2 else set_delete id acc.2).
Definition merged (base : CatalogCacheV3) (records : list CatalogDeltaRecordV3) :
    list (string * SessionCatalogProjectionV3) * list string :=
  foldl merge_delta (mof ((λ c, (ca_sessionId c, c)) <$> cc_sessions base), remove_dups (cc_recoverableSessionIds base)) records.
Definition merge_deltas (base : CatalogCacheV3) (records : list CatalogDeltaRecordV3) : CatalogCacheV3 :=
  catalogCache (merged base records).1.*2 (merged base records).2.

Definition readCatalogUnlocked : Fs CatalogCacheV3 :=
  base ← read_value dk_catalog;
  base ← lift (validateCatalogCache base);
  state ← read_value dk_state;
  lift (validateCatalogState state base.2);;
  parsed ← readCatalogDeltaUnlocked;
  (if Nat.ltb parsed.1.2 parsed.2 then emit (truncate_delta parsed.1.2) else mret tt);;
  mret (merge_deltas base.1 parsed.1.1).

Definition listCatalog : Fs (list SessionCatalogProjectionV3) :=
  lift requireInitialized;; run (cache ← readCatalogUnlocked; mret (sortCatalog (cc_sessions cache))).
Definition listSessionIds : Fs (list string) :=
  lift requireInitialized;; run (sessions ← listCatalog; mret (sort_texts (ca_sessionId <$> sessions))).
Definition listRecoverableSessionIds : Fs (list string) :=
  lift requireInitialized;; run (cache ← readCatalogUnlocked; mret (sort_texts (cc_recoverableSessionIds cache))).

(** ** Recovery *)

Definition names_of {A} (files : gmap string A) : list string := readdir_order (map_to_list files).*1.
(** The names of a directory with the extension. *)
Definition list_files {A} (files : Disk → gmap string A) (extension : string) : Fs (list string) :=
  names ← gets (λ d, names_of (files d)); mret (List.filter (endsWith extension) names).

Definition recover_pending (name : string) : Fs unit :=
  file ← read_value (λ d, dk_pending d !! name);
  sessionId ← lift (validatePendingProjection file);
  encoded ← lift (encodeSessionFile sessionId);
  lift (fail_if (bool_decide (encoded +:+ ".json" ≠ name)) SyntaxError);;
  parsed ← readJournal sessionId;
  repairTail sessionId parsed;;
  (if is_nil (prs_records parsed) then mret tt
   else
     projection ← lift (reduceSessionEntriesV3 (flattenEntries (prs_records parsed)));
     path ← lift (projectionPath sessionId);
     emit (write_projection path (projection_cache (prs_records parsed) projection));;
     appendCatalogDeltaUnlocked projection);;
  emit (unlink_pending name).

Fixpoint for_each {A} (f : A → Fs unit) (l : list A) : Fs unit :=
  match l with [] => mret tt | x :: l => f x;; for_each f l end.

Definition recoverPendingUnlocked : Fs unit :=
  names ← list_files dk_pending ".json"; for_each recover_pending names.

Definition clearAllPendingUnlocked : Fs unit :=
  names ← list_files dk_pending ".json"; for_each (λ name, emit (unlink_pending name)) names.
Definition pendingCount : Fs Z := names ← list_files dk_pending ".json"; mret (Z.of_nat (length names)).

Definition discoverSessionIds : Fs (list string) :=
  names ← list_files dk_commits ".jsonl";
  ids ← lift (mapM (λ name, decodeSessionFile (String.substring 0 (String.length name - 6) name)) names);
  mret (sort_texts ids).

(** [scanProjections(true)]. *)
Fixpoint scan_projections (sessionIds : list string) : Fs (list (string * SessionProjectionV3)) :=
  match sessionIds with
  | [] => mret []
  | sessionId :: sessionIds =>
      parsed ← readJournal sessionId;
      if is_nil (prs_records parsed) then scan_projections sessionIds
      else
        projection ← lift (reduceSessionEntriesV3 (flattenEntries (prs_records parsed)));
        path ← lift (projectionPath sessionId);
        emit (write_projection path (projection_cache (prs_records parsed) projection));;
        rest ← scan_projections sessionIds;
        mret ((sessionId, projection) :: rest)
  end.

Definition recoverableSessionIds (projections : list SessionProjectionV3) : list string :=
  sort_texts ((λ p, sn_sessionId (pj_snapshot p)) <$> List.filter projectionHasRecoverableRun projections).

Definition rebuildCatalogUnlocked : Fs (list SessionCatalogProjectionV3) :=
  sessionIds ← discoverSessionIds;
  projections ← scan_projections sessionIds;
  let projections := (mof projections).*2 in
  let sessions := pj_catalog <$> projections in
  let cache := catalogCache sessions (recoverableSessionIds projections) in
  emit (write_catalog (CatalogCache_js cache));;
  emit (write_delta "");;
  emit (write_state (catalogState (catalog_checksum cache)));;
  clearAllPendingUnlocked;;
  mret (sortCatalog sessions).

(** [initialize] of a root without version 2 data. *)
Definition initialize (deepScrubOnInitialize : bool) : Fs unit := run (
  authority ← gets dk_authority;
  match authority with
  | None => emit (write_authority authorityRecord)
  | Some value => lift (validateAuthority value)
  end;;
  state ← gets dk_state;
  if deepScrubOnInitialize || is_none state then rebuildCatalogUnlocked;; mret tt
  else readCatalogUnlocked;; recoverPendingUnlocked).

(** The number of sessions and of repaired markers. *)
Definition deepScrub : Fs (Z * Z) :=
  lift requireInitialized;;
  run (repairedPending ← pendingCount;
       sessions ← rebuildCatalogUnlocked;
       mret (Z.of_nat (length sessions), repairedPending)).
End Store.
