(* ===== verification/JsonlLines.v ===== *)
(** * The bytes of a journal file

    The text of a JSON value is one line of valid UTF-8, so a line that was written
    is read back, and a torn line is never taken for a record. *)

From S2P Require Import Prelude Js Json JsonSpec CanonicalJson Plan Session SessionReducer SessionEntry SessionCommit Jsonl.
Local Open Scope Z_scope.

(** ** Valid UTF-8 *)

(** The bytes of one code point. *)
Inductive utf8_char : string → Prop :=
| utf8_one a : byte_in a 0 127 = true → utf8_char (String a EmptyString)
| utf8_two a b : byte_in a 194 223 = true → continues b = true → utf8_char (String a (String b EmptyString))
| utf8_three a b c : byte_in a 224 239 = true → second_ok a b = true → continues c = true →
    utf8_char (String a (String b (String c EmptyString)))
| utf8_four a b c d : byte_in a 240 244 = true → second_ok a b = true → continues c = true → continues d = true →
    utf8_char (String a (String b (String c (String d EmptyString)))).
Inductive utf8_valid : string → Prop :=
| utf8_nil : utf8_valid EmptyString
| utf8_cons c s : utf8_char c → utf8_valid s → utf8_valid (c +:+ s).

Lemma byte_in_spec a lo hi : byte_in a lo hi = true ↔ (lo ≤ nat_of_ascii a ≤ hi)%nat.
Proof. unfold byte_in. rewrite andb_true_iff, !Nat.leb_le. lia. Qed.
Lemma byte_in_false a lo hi : byte_in a lo hi = false ↔ ¬ (lo ≤ nat_of_ascii a ≤ hi)%nat.
Proof. rewrite <-byte_in_spec. by destruct (byte_in a lo hi). Qed.
Ltac bytes :=
  repeat match goal with
  | H : byte_in _ _ _ = true |- _ => apply byte_in_spec in H
  | H : continues _ = true |- _ => apply byte_in_spec in H
  | |- byte_in _ _ _ = false => apply byte_in_false
  | |- byte_in _ _ _ = true => apply byte_in_spec
  end; lia.

Lemma utf8_decode_char c s : utf8_char c → utf8_decode (c +:+ s) = c +:+ utf8_decode s.
Proof.
  destruct 1 as [a Ha|a b Ha Hb|a b c Ha Hb Hc|a b c d Ha Hb Hc Hd];
    repeat change (String ?x ?y +:+ ?z) with (String x (y +:+ z)); change ("" +:+ ?x) with x; cbn [utf8_decode].
  - by rewrite Ha.
  - replace (byte_in a 0 127) with false by (symmetry; bytes). by rewrite Ha, Hb.
  - replace (byte_in a 0 127) with false by (symmetry; bytes). replace (byte_in a 194 223) with false by (symmetry; bytes).
    by rewrite Ha, Hb, Hc.
  - replace (byte_in a 0 127) with false by (symmetry; bytes). replace (byte_in a 194 223) with false by (symmetry; bytes).
    replace (byte_in a 224 239) with false by (symmetry; bytes). by rewrite Ha, Hb, Hc, Hd.
Qed.
Lemma utf8_decode_valid s : utf8_valid s → utf8_decode s = s.
Proof. induction 1 as [|c s Hc _ IH]; [done|]. by rewrite utf8_decode_char, IH. Qed.
Lemma utf8_valid_app a b : utf8_valid a → utf8_valid b → utf8_valid (a +:+ b).
Proof. induction 1 as [|c s Hc _ IH]; intros Hb; [done|]. rewrite string_app_assoc. constructor; [done|by apply IH]. Qed.
Lemma utf8_valid_ascii s : string_forallb (λ a, byte_in a 0 127) s = true → utf8_valid s.
Proof.
  induction s as [|a s IH]; [constructor|]. cbn [string_forallb]. intros [Ha Hs]%andb_true_iff.
  apply (utf8_cons (String a EmptyString) s); [by constructor|by apply IH].
Qed.

(** The check of validity. *)
Fixpoint utf8_check (s : string) : bool :=
  match s with
  | EmptyString => true
  | String a s1 =>
      if byte_in a 0 127 then utf8_check s1
      else match s1 with
           | EmptyString => false
           | String b s2 =>
               if byte_in a 194 223 && continues b then utf8_check s2
               else match s2 with
                    | EmptyString => false
                    | String c s3 =>
                        if byte_in a 224 239 && second_ok a b && continues c then utf8_check s3
                        else match s3 with
                             | EmptyString => false
                             | String d s4 => byte_in a 240 244 && second_ok a b && continues c && continues d && utf8_check s4
                             end
                    end
           end
  end.

Lemma utf8_check_below n s : (String.length s ≤ n)%nat → utf8_check s = true → utf8_valid s.
Proof.
  revert s. induction n as [|n IH]; intros s Hn Hc; [destruct s; [constructor|cbn in Hn; lia]|].
  destruct s as [|a s]; [constructor|]. cbn [String.length utf8_check] in *.
  destruct (byte_in a 0 127) eqn:Ha; [apply (utf8_cons (String a EmptyString)); [by constructor|apply IH; [lia|done]]|].
  destruct s as [|b s]; [done|]. cbn [String.length] in *.
  destruct (byte_in a 194 223 && continues b) eqn:Hb.
  { apply andb_true_iff in Hb as [? ?]. apply (utf8_cons (String a (String b EmptyString))); [by constructor|apply IH; [lia|done]]. }
  destruct s as [|c s]; [done|]. cbn [String.length] in *.
  destruct (byte_in a 224 239 && second_ok a b && continues c) eqn:Hd.
  { rewrite !andb_true_iff in Hd. destruct Hd as [[? ?] ?].
    apply (utf8_cons (String a (String b (String c EmptyString)))); [by constructor|apply IH; [lia|done]]. }
  destruct s as [|d s]; [done|]. cbn [String.length] in *. rewrite !andb_true_iff in Hc. destruct Hc as [[[[? ?] ?] ?] ?].
  apply (utf8_cons (String a (String b (String c (String d EmptyString))))); [by constructor|apply IH; [lia|done]].
Qed.
Lemma utf8_check_valid s : utf8_check s = true → utf8_valid s.
Proof. by apply (utf8_check_below (String.length s)). Qed.

(** ** The text of a value is one line *)

Definition printable (a : ascii) : bool := negb (byte_in a 0 31).

Lemma string_forallb_app p a b : string_forallb p (a +:+ b) = string_forallb p a && string_forallb p b.
Proof. induction a as [|x a IH]; [done|]. change (String x a +:+ b) with (String x (a +:+ b)). cbn [string_forallb]. rewrite IH. by rewrite andb_assoc. Qed.

Lemma json_char_printable a : string_forallb printable (json_char a) = true.
Proof. by destruct a as [[] [] [] [] [] [] [] []]. Qed.
Lemma json_string_printable s : string_forallb printable (json_string s) = true.
Proof.
  unfold json_string. rewrite !string_forallb_app. cbn [string_forallb dquote]. rewrite andb_true_r. cbn [andb].
  change (printable (ascii_of_nat 34)) with true. cbn [andb]. rewrite andb_true_r.
  induction s as [|a s IH]; [done|]. cbn [json_chars]. by rewrite string_forallb_app, json_char_printable.
Qed.

(** The escapes of the bytes of a code point are valid. *)
Lemma json_char_ascii a : byte_in a 0 127 = true → utf8_valid (json_char a).
Proof. intros Ha. apply utf8_valid_ascii. destruct a as [[] [] [] [] [] [] [] []]; try discriminate Ha; done. Qed.
Lemma json_char_other a : (128 ≤ nat_of_ascii a)%nat → json_char a = String a EmptyString.
Proof. intros Ha%Nat.leb_le. revert Ha. destruct a as [[] [] [] [] [] [] [] []]; intros Ha; try discriminate Ha; reflexivity. Qed.
Lemma json_chars_app a b : json_chars (a +:+ b) = json_chars a +:+ json_chars b.
Proof. induction a as [|x a IH]; [done|]. change (String x a +:+ b) with (String x (a +:+ b)). cbn [json_chars]. by rewrite IH, string_app_assoc. Qed.
Lemma second_ok_high a b : second_ok a b = true → (128 ≤ nat_of_ascii b)%nat.
Proof. unfold second_ok. intros Hb. repeat case_match; bytes. Qed.
Lemma json_chars_char c : utf8_char c → utf8_valid (json_chars c).
Proof.
  destruct 1 as [a Ha|a b Ha Hb|a b c Ha Hb Hc|a b c d Ha Hb Hc Hd]; cbn [json_chars]; rewrite ?string_app_nil_r.
  - by apply json_char_ascii.
  - rewrite !json_char_other by bytes. rewrite <-(string_app_nil_r (_ +:+ _)). constructor; [by constructor|constructor].
  - pose proof (second_ok_high a b Hb). rewrite !json_char_other by (done || bytes).
    rewrite <-(string_app_nil_r (_ +:+ _)). constructor; [by constructor|constructor].
  - pose proof (second_ok_high a b Hb). rewrite !json_char_other by (done || bytes).
    rewrite <-(string_app_nil_r (_ +:+ _)). constructor; [by constructor|constructor].
Qed.
Lemma json_string_utf8 s : utf8_valid s → utf8_valid (json_string s).
Proof.
  intros Hs. unfold json_string. apply utf8_valid_app; [by apply utf8_valid_ascii|].
  apply utf8_valid_app; [|by apply utf8_valid_ascii]. induction Hs as [|c s Hc _ IH]; [constructor|].
  rewrite json_chars_app. apply utf8_valid_app; [by apply json_chars_char|done].
Qed.

Section Texts.
Context `{JsEngine}.

(** The strings of a value are valid UTF-8. *)
Fixpoint utf8_ok (v : jsval) : bool :=
  match v with
  | JStr s => utf8_check s
  | JArr l => forallb utf8_ok l
  | JObj o => forallb (λ kv, utf8_check kv.1 && utf8_ok kv.2) o
  | _ => true
  end.
(** A value that a file can hold. *)
Definition storable (v : jsval) : bool := json_ok v && utf8_ok v.

Definition line_text (s : string) : Prop := string_forallb printable s = true ∧ utf8_valid s.
Lemma line_text_app a b : line_text a → line_text b → line_text (a +:+ b).
Proof. intros [H1 H2] [H3 H4]. split; [by rewrite string_forallb_app, H1|by apply utf8_valid_app]. Qed.
Lemma line_text_ascii s : string_forallb (λ a, byte_in a 32 127) s = true → line_text s.
Proof.
  intros Hs. split.
  - eapply string_forallb_impl; [|exact Hs]. intros a Ha. unfold printable. apply negb_true_iff. cbn beta in Ha. bytes.
  - apply utf8_valid_ascii. eapply string_forallb_impl; [|exact Hs]. intros a Ha. cbn beta in *. bytes.
Qed.
Lemma line_text_join l : Forall line_text l → line_text (join "," l).
Proof.
  induction 1 as [|x l Hx Hl IH]; [by apply line_text_ascii|]. cbn [join]. destruct l; [done|].
  apply line_text_app; [done|]. apply line_text_app; [by apply line_text_ascii|done].
Qed.
Lemma json_string_line s : utf8_check s = true → line_text (json_string s).
Proof. intros Hs. split; [apply json_string_printable|]. by apply json_string_utf8, utf8_check_valid. Qed.
Lemma number_line n : number_ok n = true → line_text (num_string n).
Proof.
  unfold number_ok. intros [[Hc _]%andb_true_iff _]%andb_true_iff. apply line_text_ascii.
  eapply string_forallb_impl; [|exact Hc]. intros a. destruct a as [[] [] [] [] [] [] [] []]; intros Ha; try discriminate Ha; reflexivity.
Qed.

Lemma storable_line v : storable v = true → line_text (text_of v).
Proof.
  unfold storable. induction v as [| |b|n|s|l IH|o IH|] using jsval_nested_ind; intros [Hj Hu]%andb_true_iff; try discriminate Hj.
  - by apply line_text_ascii.
  - destruct b; by apply line_text_ascii.
  - assert (text_of (JNum n) = num_string n) as -> by (by destruct n). apply number_line. by destruct n.
  - by apply json_string_line.
  - rewrite text_arr. cbn [json_ok utf8_ok] in *. rewrite forallb_true, Forall_forall in Hj, Hu.
    apply line_text_app; [by apply line_text_ascii|]. apply line_text_app; [|by apply line_text_ascii].
    apply line_text_join, Forall_fmap, Forall_forall. intros x Hx. rewrite Forall_forall in IH. apply IH; [done|].
    by rewrite (Hj x Hx), (Hu x Hx).
  - cbn [json_ok utf8_ok] in *. apply andb_true_iff in Hj as [_ Hj]. rewrite text_obj by done.
    rewrite forallb_true, Forall_forall in Hj, Hu.
    apply line_text_app; [by apply line_text_ascii|]. apply line_text_app; [|by apply line_text_ascii].
    apply line_text_join, Forall_fmap, Forall_forall. intros [k x] Hx. rewrite Forall_forall in IH.
    specialize (IH _ Hx). specialize (Hj _ Hx). specialize (Hu _ Hx). cbn [fst snd] in *. apply andb_true_iff in Hu as [Hk Hv].
    unfold member_text. cbn [fst snd]. apply line_text_app; [by apply json_string_line|].
    apply line_text_app; [by apply line_text_ascii|]. apply IH. by rewrite Hj, Hv.
Qed.
End Texts.

(** ** Lines *)

Definition one_line (s : string) : Prop := string_forallb (λ a, negb (Ascii.eqb a line_feed)) s = true.
Definition terminated (line : string) : string := line +:+ String line_feed EmptyString.

Lemma line_text_one_line s : line_text s → one_line s.
Proof. intros [Hp _]. eapply string_forallb_impl; [|exact Hp]. by intros [[] [] [] [] [] [] [] []]. Qed.
Lemma line_text_strip s : line_text s → strip_return s = s.
Proof.
  intros [Hp _]. induction s as [|a s IH]; [done|]. cbn [string_forallb] in Hp. apply andb_true_iff in Hp as [Ha Hs].
  cbn [strip_return]. destruct s as [|b s].
  - destruct (Ascii.eqb_spec a carriage_return) as [->|]; [discriminate Ha|done].
  - by rewrite IH.
Qed.

Lemma split_one_line s : one_line s → split_lines s = ([], s).
Proof.
  unfold one_line. induction s as [|a s IH]; [done|]. cbn [string_forallb split_lines]. intros [Ha Hs]%andb_true_iff.
  rewrite (IH Hs). apply negb_true_iff in Ha. by rewrite Ha.
Qed.
Lemma split_terminated line rest : one_line line →
  split_lines (terminated line +:+ rest) = (line :: (split_lines rest).1, (split_lines rest).2).
Proof.
  unfold terminated, one_line. rewrite string_app_assoc. induction line as [|a s IH].
  - intros _. change ("" +:+ String line_feed "" +:+ rest) with (String line_feed rest). cbn [split_lines]. by destruct (split_lines rest).
  - cbn [string_forallb]. intros [Ha Hs]%andb_true_iff. change (String a s +:+ ?x) with (String a (s +:+ x)). cbn [split_lines].
    rewrite (IH Hs). apply negb_true_iff in Ha. by rewrite Ha.
Qed.

(** The bytes of terminated lines. *)
Definition lines_bytes (lines : list string) : string := foldr (λ line rest, terminated line +:+ rest) EmptyString lines.
Lemma lines_bytes_app a b : lines_bytes (a ++ b) = lines_bytes a +:+ lines_bytes b.
Proof. induction a as [|x a IH]; [done|]. cbn [lines_bytes foldr app]. fold (lines_bytes (a ++ b)) (lines_bytes a). by rewrite IH, string_app_assoc. Qed.
Lemma split_lines_bytes lines tail :
  Forall one_line lines → one_line tail → split_lines (lines_bytes lines +:+ tail) = (lines, tail).
Proof.
  intros Hl Ht. induction Hl as [|line lines Hline _ IH]; [by apply split_one_line|].
  cbn [lines_bytes foldr]. fold (lines_bytes lines). rewrite string_app_assoc, split_terminated, IH by done. done.
Qed.

Lemma substring_all s : String.substring 0 (String.length s) s = s.
Proof. induction s as [|a s IH]; [done|]. cbn. by rewrite IH. Qed.
Lemma substring_prefix a b : String.substring 0 (String.length a) (a +:+ b) = a.
Proof.
  induction a as [|x a IH]; [by destruct b|]. change (String x a +:+ b) with (String x (a +:+ b)). cbn. by rewrite IH.
Qed.

(** A part of a line that is being appended. *)
Lemma torn_terminated line bytes :
  one_line line → (∃ rest, terminated line = bytes +:+ rest) → bytes = terminated line ∨ one_line bytes.
Proof.
  intros Hone [rest Heq]. revert Heq Hone. revert bytes. induction line as [|a line IH]; intros bytes Heq Hone.
  - change (terminated "") with (String line_feed "") in *. destruct bytes as [|b bytes]; [by right|].
    injection Heq as <- Heq. left. f_equal. by destruct bytes.
  - change (terminated (String a line)) with (String a (terminated line)) in *. destruct bytes as [|b bytes]; [by right|].
    injection Heq as <- Heq. unfold one_line in *. cbn [string_forallb] in *. apply andb_true_iff in Hone as [Ha Hone].
    destruct (IH bytes Heq Hone) as [->|Hb]; [by left|right]. by rewrite Ha.
Qed.
