(* ===== verification/JsonlJournal.v ===== *)
(** * The journal file

    A file of commit records is read back as the commits that were written, with
    or without a torn line at its end. *)

From S2P Require Import Prelude Js JsOps Json JsonSpec CanonicalJson Plan Session SessionReducer SessionEntry SessionCommit SessionPort Jsonl JsonlLines.
Local Open Scope Z_scope.

Section Journal.
Context `{JsEngine} `{JsCrypto} `{RP : ReviewPlanContract}.

Definition record_line (c : SessionCommitV3) : string := text_of (JsonlCommitRecord_js (createRecord c)).
Definition journal_bytes (cs : list SessionCommitV3) : string := lines_bytes (record_line <$> cs).
Definition commit_entries (cs : list SessionCommitV3) : list SessionEntryV3 := flattenEntries (createRecord <$> cs).

(** A commit of the session that a record can hold. *)
Record commit_ok (sid : string) (c : SessionCommitV3) : Prop := {
  jc_valid : validateSessionCommitV3 (SessionCommit_js c) = Ok c;
  jc_session : sc_sessionId c = sid;
  jc_storable : storable (JsonlCommitRecord_js (createRecord c)) = true;
}.
(** Every commit but the first extends the one before. *)
Fixpoint chained (prior cs : list SessionCommitV3) : Prop :=
  match cs with
  | [] => True
  | c :: cs =>
      (prior = [] ∨ assertSessionCommitAgainstHeadV3 c (journal_head (commit_entries prior)) = Ok tt) ∧ chained (prior ++ [c]) cs
  end.
Record journal_ok (sid : string) (cs : list SessionCommitV3) : Prop := {
  jo_commits : Forall (commit_ok sid) cs;
  jo_chained : chained [] cs;
  jo_reduced : cs ≠ [] → is_ok (reduceSessionEntriesV3 (commit_entries cs)) = true;
}.

Lemma commit_entries_app a b : commit_entries (a ++ b) = commit_entries a ++ commit_entries b.
Proof. unfold commit_entries, flattenEntries. by rewrite fmap_app, bind_app. Qed.
Lemma commit_entries_one c : commit_entries [c] = sc_entries c.
Proof. unfold commit_entries, flattenEntries. cbn. by rewrite app_nil_r. Qed.
Lemma chained_app prior cs c :
  chained prior (cs ++ [c]) ↔ chained prior cs ∧
    (prior ++ cs = [] ∨ assertSessionCommitAgainstHeadV3 c (journal_head (commit_entries (prior ++ cs))) = Ok tt).
Proof.
  revert prior. induction cs as [|x cs IH]; intros prior; cbn [app chained].
  - rewrite app_nil_r. tauto.
  - rewrite IH, <-app_assoc. cbn [app]. tauto.
Qed.

(** A validated commit is valid as a value. *)
Lemma validateSessionCommitV3_reparse v c :
  validateSessionCommitV3 v = Ok c → validateSessionCommitV3 (SessionCommit_js c) = Ok c.
Proof.
  unfold validateSessionCommitV3. intros Hc. apply bind_Ok in Hc as (o & Ho & Hc). destruct v as [| | | | | |o'|]; try discriminate Ho.
  injection Ho as ->. apply bind_Ok in Hc as ([] & Hrej & Hc). apply fail_if_Ok in Hrej.
  apply bind_Ok in Hc as (entries & Hentries & Hc). apply bind_Ok in Hc as ([] & Hg1 & Hc). apply bind_Ok in Hc as ([] & Hg2 & Hc).
  apply bind_Ok in Hc as (sum & Hsum & Hc). apply bind_Ok in Hc as ([] & Hck & Hc). injection Hc as <-.
  unfold commit_rejected in Hrej. rewrite !orb_false_iff, !negb_false_iff in Hrej. destruct Hrej as [[[[[[[[[Hk Hv] H1] H2] H3] H4] Ha] Hl] Hm] Hd].
  destruct (o .: "sessionId") as [| | | |s| | |] eqn:E1; try discriminate H1.
  destruct (o .: "commitId") as [| | | |k| | |] eqn:E2; try discriminate H2.
  destruct (o .: "idempotencyKey") as [| | | |i| | |] eqn:E4; try discriminate H4.
  destruct (o .: "checksum") as [| | | |ck| | |] eqn:E5; try discriminate Hd.
  destruct (o .: "expectedRevision") as [| | |[z| | |]| | | |] eqn:E3; try discriminate H3.
  unfold SessionCommit_js, commit_fields. cbn [sc_sessionId sc_commitId sc_expectedRevision sc_idempotencyKey sc_values sc_checksum js_str js_int app].
  cbn [mbind res_bind]. unfold commit_rejected at 1.
  cbn [get String.eqb Ascii.eqb Bool.eqb is_int js_str js_int js_arr is_arr safeId JInt] in *.
  change (JNum (NInt z)) with (JInt z) in *. rewrite H1, H2, H3, H4, Hl, Hm, Hd. cbn [negb orb].
  change (onlyKeys _ _) with true. cbn [negb orb fail_if mbind res_bind].
  rewrite Hentries. cbn [mbind res_bind]. rewrite Hg1. cbn [mbind res_bind]. rewrite Hg2. cbn [mbind res_bind].
  unfold commit_fields in Hsum. rewrite Hsum. cbn [mbind res_bind]. rewrite Hck. done.
Qed.

Lemma validateRecord_create sid c :
  validateSessionCommitV3 (SessionCommit_js c) = Ok c → sc_sessionId c = sid →
  validateRecord (JsonlCommitRecord_js (createRecord c)) sid = Ok (createRecord c).
Proof.
  intros Hc Hs. unfold validateRecord, JsonlCommitRecord_js, record_payload. cbn [rec_commit createRecord rec_checksum app mbind res_bind].
  cbn [get String.eqb Ascii.eqb Bool.eqb]. change (onlyKeys _ _) with true.
  change (is_int (JInt FORMAT_VERSION) FORMAT_VERSION) with true. cbn [negb orb is_string fail_if mbind res_bind].
  rewrite Hc. cbn [rethrow mbind res_bind]. rewrite bool_decide_eq_false_2 by auto. cbn [fail_if mbind res_bind is_str js_str].
  unfold record_payload. rewrite bool_decide_eq_true_2 by done. done.
Qed.

Lemma record_line_text sid c : commit_ok sid c → line_text (record_line c).
Proof. intros [_ _ Hs]. by apply storable_line. Qed.
Lemma record_line_nonempty c : record_line c ≠ EmptyString.
Proof. done. Qed.

Lemma stored_value v : storable v = true → JSON_parse (utf8_decode (strip_return (text_of v))) = Some v.
Proof.
  intros Hs. pose proof (storable_line v Hs) as Hl. rewrite (line_text_strip _ Hl), (utf8_decode_valid _ (proj2 Hl)).
  unfold storable in Hs. apply andb_true_iff in Hs as [Hs _]. destruct (JSON_roundtrip v Hs) as (t & Ht & Hp).
  rewrite (json_ok_text v Hs) in Ht. by injection Ht as ->.
Qed.

Lemma parse_record_line sid c lines records :
  commit_ok sid c →
  (records = [] ∨ assertSessionCommitAgainstHeadV3 c (journal_head (flattenEntries records)) = Ok tt) →
  parse_lines sid (record_line c :: lines) records = parse_lines sid lines (records ++ [createRecord c]).
Proof.
  intros Hok Hhead. pose proof Hok as [Hv Hs Hst]. cbn [parse_lines].
  pose proof (stored_value _ Hst) as Hp. fold (record_line c) in Hp.
  rewrite bool_decide_eq_false_2.
  2:{ rewrite (line_text_strip _ (record_line_text _ _ Hok)), (utf8_decode_valid _ (proj2 (record_line_text _ _ Hok))). apply record_line_nonempty. }
  rewrite Hp. cbn [mbind res_bind]. rewrite (validateRecord_create sid c) by done. cbn [mbind res_bind rec_commit createRecord].
  destruct Hhead as [->|Hhead]; [done|]. rewrite Hhead. by destruct records.
Qed.

Lemma parse_record_lines sid cs prior :
  Forall (commit_ok sid) cs → chained prior cs →
  parse_lines sid (record_line <$> cs) (createRecord <$> prior) = Ok (createRecord <$> (prior ++ cs)).
Proof.
  intros Hall. revert prior. induction Hall as [|c cs Hc _ IH]; intros prior Hch; [by rewrite app_nil_r|].
  destruct Hch as [Hhead Hch]. rewrite fmap_cons, (parse_record_line sid c) by (destruct Hhead as [->|]; auto).
  change [createRecord c] with (createRecord <$> [c]). rewrite <-fmap_app, IH by done. by rewrite <-app_assoc.
Qed.

Lemma record_lines sid cs : Forall (commit_ok sid) cs → Forall one_line (record_line <$> cs).
Proof.
  intros Hall. apply Forall_fmap. eapply Forall_impl; [exact Hall|]. intros c Hc.
  eapply line_text_one_line, record_line_text, Hc.
Qed.

(** The journal file is read back: a source of commit records, followed by any
    bytes without a line feed (a torn record), is parsed to exactly the commits
    that were written, and the valid bytes end with the last of them. *)
Lemma parseJournal_written sid cs tail :
  journal_ok sid cs → one_line tail →
  parseJournal (journal_bytes cs +:+ tail) sid = Ok
    {| prs_records := createRecord <$> cs; prs_validBytes := String.length (journal_bytes cs);
       prs_physicalBytes := (String.length (journal_bytes cs) + String.length tail)%nat |}.
Proof.
  intros [Hall Hch Hred] Ht. unfold parseJournal. unfold journal_bytes at 1.
  rewrite (split_lines_bytes _ _ (record_lines _ _ Hall) Ht).
  change (@nil JsonlCommitRecordV3) with (createRecord <$> []). rewrite parse_record_lines by done. cbn [mbind res_bind app].
  rewrite string_app_length, Nat.add_sub. destruct cs as [|c cs]; [done|].
  cbn [is_nil fmap list_fmap]. change (createRecord c :: (createRecord <$> cs)) with (createRecord <$> c :: cs).
  fold (commit_entries (c :: cs)). specialize (Hred ltac:(done)).
  destruct (reduceSessionEntriesV3 (commit_entries (c :: cs))) as [pj|]; [|done]. done.
Qed.

(** ** Torn appends *)

Lemma torn_line sid c bytes :
  commit_ok sid c → (∃ rest, terminated (record_line c) = bytes +:+ rest) → bytes = terminated (record_line c) ∨ one_line bytes.
Proof. intros Hc. apply torn_terminated, line_text_one_line, (record_line_text _ _ Hc). Qed.

Lemma journal_bytes_snoc cs c : journal_bytes (cs ++ [c]) = journal_bytes cs +:+ terminated (record_line c).
Proof.
  unfold journal_bytes. rewrite fmap_app, lines_bytes_app. f_equal.
  change (lines_bytes (record_line <$> [c])) with (terminated (record_line c) +:+ ""). apply string_app_nil_r.
Qed.

Lemma journal_bytes_empty cs tail : EmptyString = journal_bytes cs +:+ tail → cs = [] ∧ tail = EmptyString.
Proof.
  destruct cs as [|c cs]; [by intros Ht; change (EmptyString = tail) in Ht|]. intros Heq%(f_equal String.length). exfalso.
  unfold journal_bytes in Heq. cbn [fmap list_fmap lines_bytes foldr] in Heq. unfold terminated in Heq.
  rewrite !string_app_length in Heq. cbn [String.length] in Heq. lia.
Qed.

(** A commit that is appended after the head. *)
Record extends (sid : string) (cs : list SessionCommitV3) (c : SessionCommitV3) : Prop := {
  ex_commit : commit_ok sid c;
  ex_head : assertSessionCommitAgainstHeadV3 c (journal_head (commit_entries cs)) = Ok tt;
  ex_reduced : is_ok (reduceSessionEntriesV3 (commit_entries cs ++ sc_entries c)) = true;
}.
Lemma journal_ok_snoc sid cs c : journal_ok sid cs → extends sid cs c → journal_ok sid (cs ++ [c]).
Proof.
  intros [Hall Hch _] [Hc Hh Hr]. split.
  - apply Forall_app. by rewrite Forall_singleton.
  - apply chained_app. split; [done|]. by right.
  - intros _. by rewrite commit_entries_app, commit_entries_one.
Qed.
End Journal.
