(* ===== verification/JsonlCrash.v ===== *)
(** * Crashes of the JSONL store

    What an operation may leave on the disk: a crash keeps a prefix of its writes,
    the last of which may be a torn append.  A weakest precondition with a crash
    condition, and the journal of a session under [appendCommit]. *)

From S2P Require Import Prelude Js JsOps Json JsonSpec CanonicalJson Plan Session SessionReducer SessionEntry SessionCommit SessionPort Jsonl JsonlStore JsonlLines JsonlJournal.
Local Open Scope Z_scope.

(** ** Crashes *)

(** A part of an append. *)
Inductive torn_write : write → write → Prop :=
| torn_commits name part rest : torn_write (append_commits name part) (append_commits name (part +:+ rest))
| torn_delta part rest : torn_write (append_delta part) (append_delta (part +:+ rest)).

(** The writes that a crash leaves of the writes of an operation. *)
Inductive crash_of : list write → list write → Prop :=
| crash_here ws : crash_of ws []
| crash_torn part w ws : torn_write part w → crash_of (w :: ws) [part]
| crash_later w ws ws' : crash_of ws ws' → crash_of (w :: ws) (w :: ws').

Lemma crash_of_all ws : crash_of ws ws.
Proof. induction ws; by constructor. Qed.
Lemma crash_of_app a b ws :
  crash_of (a ++ b) ws → crash_of a ws ∨ ∃ ws', ws = a ++ ws' ∧ crash_of b ws'.
Proof.
  revert ws. induction a as [|w a IH]; intros ws Hc; [right; by exists ws|].
  cbn [app] in Hc. inversion Hc as [|part w' k Ht|w' k ws' Hk]; subst; [left; constructor|left; by constructor|].
  destruct (IH _ Hk) as [?|(ws'' & -> & ?)]; [left; by constructor|right; by exists ws''].
Qed.
Lemma crash_of_nil ws : crash_of [] ws → ws = [].
Proof. by inversion 1. Qed.

(** The crash after [n] writes, in the next of which [k] bytes are stored. *)
Definition torn_part (k : nat) (w : write) : list write :=
  match w with
  | append_commits name bytes => [append_commits name (String.substring 0 k bytes)]
  | append_delta bytes => [append_delta (String.substring 0 k bytes)]
  | _ => []
  end.
Fixpoint torn_prefix (n k : nat) (ws : list write) : list write :=
  match ws, n with
  | [], _ => []
  | w :: _, O => torn_part k w
  | w :: ws, S n => w :: torn_prefix n k ws
  end.
Lemma substring_part k s : ∃ rest, s = String.substring 0 k s +:+ rest.
Proof.
  revert s. induction k as [|k IH]; intros [|a s]; [by exists EmptyString|by exists (String a s)|by exists EmptyString|].
  destruct (IH s) as [rest Hs]. exists rest. cbn [String.substring]. change (String a ?x +:+ ?y) with (String a (x +:+ y)). by rewrite <-Hs.
Qed.
Lemma torn_prefix_crash n k ws : crash_of ws (torn_prefix n k ws).
Proof.
  revert n. induction ws as [|w ws IH]; intros [|n]; try constructor; [|done]. cbn [torn_prefix].
  destruct w as [name bytes| | | | | |bytes| | | |]; try constructor; destruct (substring_part k bytes) as [rest Hb]; rewrite Hb at 2; constructor.
Qed.

Lemma apply_writes_app d a b : apply_writes d (a ++ b) = apply_writes (apply_writes d a) b.
Proof. unfold apply_writes. by rewrite foldl_app. Qed.

(** ** Weakest preconditions

    From [d], the operation ends with [Φ] of its outcome and of the disk, and every
    crash on the way leaves a disk with [C]. *)
Definition wp {A} (C : Disk → Prop) (m : Fs A) (Φ : res A → Disk → Prop) (d : Disk) : Prop :=
  (∀ ws, crash_of (m d).1 ws → C (apply_writes d ws)) ∧ Φ (m d).2 (apply_writes d (m d).1).

Section Rules.
Context {A B : Type} (C : Disk → Prop).

Lemma wp_pure (m : Fs A) r Φ d : m d = ([], r) → C d → Φ r d → wp C m Φ d.
Proof. intros Hm HC HΦ. unfold wp. rewrite Hm. split; [|done]. by intros ws ->%crash_of_nil. Qed.
Lemma wp_ret (a : A) Φ d : C d → Φ (Ok a) d → wp C (mret a) Φ d.
Proof. by apply wp_pure. Qed.
Lemma wp_lift (r : res A) Φ d : C d → Φ r d → wp C (lift r) Φ d.
Proof. by apply wp_pure. Qed.
Lemma wp_gets (f : Disk → A) Φ d : C d → Φ (Ok (f d)) d → wp C (gets f) Φ d.
Proof. by apply wp_pure. Qed.
Lemma wp_emit w Φ d :
  C d → (∀ part, torn_write part w → C (apply_write d part)) → C (apply_write d w) → Φ (Ok tt) (apply_write d w) →
  wp C (emit w) Φ d.
Proof.
  intros Hd Ht Hw HΦ. split; [|done]. cbn [emit fst]. intros ws Hc.
  inversion Hc as [|part w' k Hp|w' k ws' Hk]; subst; [done|by apply Ht|]. by apply crash_of_nil in Hk as ->.
Qed.
Lemma wp_bind (m : Fs A) (f : A → Fs B) Φ d :
  wp C m (λ r d', match r with Ok a => wp C (f a) Φ d' | Err e => Φ (Err e) d' end) d → wp C (m ≫= f) Φ d.
Proof.
  unfold wp, mbind, fs_bind. destruct (m d) as [ws [a|e]]; [|done]. cbn [fst snd].
  destruct (f a (apply_writes d ws)) as [ws' r] eqn:Hf. cbn [fst snd]. rewrite apply_writes_app.
  intros [H1 [H2 H3]]. split; [|done]. intros k [Hk|(k' & -> & Hk)]%crash_of_app; [by apply H1|]. rewrite apply_writes_app. by apply H2.
Qed.
Lemma wp_run (m : Fs A) Φ d :
  wp C m (λ r d', match r with Ok a => Φ (Ok a) d' | Err e => Φ (Err (run_error e)) d' end) d → wp C (run m) Φ d.
Proof. unfold wp, run. destruct (m d) as [ws [a|e]]; cbn [fst snd]; intros [H1 H2]; by split. Qed.
Lemma wp_mono (m : Fs A) Φ Ψ d : wp C m Φ d → (∀ r d', Φ r d' → Ψ r d') → wp C m Ψ d.
Proof. intros [H1 H2] Hi. split; [done|by apply Hi]. Qed.
Lemma wp_post (m : Fs A) Φ d ws r : wp C m Φ d → m d = (ws, r) → Φ r (apply_writes d ws).
Proof. intros [_ Hr] Hm. by rewrite Hm in Hr. Qed.

(** A step that writes nothing. *)
Lemma bind_pure (m : Fs A) (f : A → Fs B) a d : m d = ([], Ok a) → (m ≫= f) d = f a d.
Proof. unfold mbind, fs_bind. intros ->. cbn [apply_writes foldl app]. by destruct (f a d). Qed.
Lemma bind_err (m : Fs A) (f : A → Fs B) code d : m d = ([], Err code) → (m ≫= f) d = ([], Err code).
Proof. unfold mbind, fs_bind. by intros ->. Qed.
Lemma bind_writes (m : Fs A) (f : A → Fs B) ws ws' a r d :
  m d = (ws, Ok a) → f a (apply_writes d ws) = (ws', r) → (m ≫= f) d = (ws ++ ws', r).
Proof. unfold mbind, fs_bind. intros -> ->. done. Qed.
Lemma wp_step (m : Fs A) (f : A → Fs B) a Φ d : m d = ([], Ok a) → wp C (f a) Φ d → wp C (m ≫= f) Φ d.
Proof. intros Hm. unfold wp. by rewrite (bind_pure m f a d Hm). Qed.
Lemma wp_fail (m : Fs A) (f : A → Fs B) code Φ d : m d = ([], Err code) → C d → Φ (Err code) d → wp C (m ≫= f) Φ d.
Proof. intros Hm HC HΦ. unfold wp. rewrite (bind_err m f code d Hm). split; [|done]. by intros ws ->%crash_of_nil. Qed.
End Rules.

(** The steps of a write that is not an append. *)
Lemma wp_replace C w Φ d :
  match w with append_commits _ _ | append_delta _ => False | _ => True end →
  C d → C (apply_write d w) → Φ (Ok tt) (apply_write d w) → wp C (emit w) Φ d.
Proof. intros Hw Hd Hd' HΦ. apply wp_emit; try done. intros part Ht. by destruct Ht. Qed.
