(* ===== verification/JsonlAppend.v ===== *)
(** * Appending to the JSONL store

    [appendCommit] keeps the journal of every session through crashes and faults,
    and takes a commit exactly once. *)

From S2P Require Import Prelude Js JsOps Json JsonSpec CanonicalJson Plan Session SessionReducer SessionEntry SessionCommit SessionPort Jsonl JsonlStore JsonlLines JsonlJournal JsonlCrash.
Local Open Scope Z_scope.

Section Append.
Context `{JsEngine} `{JsCrypto} `{RP : ReviewPlanContract} `{NodeHost}.

Definition commit_file (sid : string) : string := base64url sid +:+ ".jsonl".
Definition marker_file (sid : string) : string := base64url sid +:+ ".json".

(** The disk keeps the commits [cs] of the session, with a torn line or not. *)
Definition journal (d : Disk) (sid : string) (cs : list SessionCommitV3) : Prop :=
  journal_ok sid cs ∧
  ∃ tail, one_line tail ∧ default "" (dk_commits d !! commit_file sid) = journal_bytes cs +:+ tail.
(** The projection file is that of the journal. *)
Definition projected (d : Disk) (sid : string) (cs : list SessionCommitV3) : Prop :=
  cs ≠ [] → ∃ projection, reduceSessionEntriesV3 (commit_entries cs) = Ok projection ∧
    dk_projections d !! marker_file sid = Some (projection_cache (createRecord <$> cs) projection).
Definition marked (d : Disk) (sid : string) : Prop := dk_pending d !! marker_file sid = Some (pendingProjection sid).
(** A projection that is not that of the journal is marked. *)
Definition consistent (d : Disk) (sid : string) (cs : list SessionCommitV3) : Prop :=
  journal d sid cs ∧ (marked d sid ∨ projected d sid cs).

(** The files of the other sessions are as they were. *)
Definition others (d d' : Disk) (sid : string) : Prop :=
  (∀ name, name ≠ commit_file sid → dk_commits d' !! name = dk_commits d !! name) ∧
  (∀ name, name ≠ marker_file sid → dk_projections d' !! name = dk_projections d !! name) ∧
  (∀ name, name ≠ marker_file sid → dk_pending d' !! name = dk_pending d !! name).

(** ** Duplicates *)

Definition unrelated (c x : SessionCommitV3) : Prop :=
  sc_commitId x ≠ sc_commitId c ∧ sc_idempotencyKey x ≠ sc_idempotencyKey c.
Definition repeats (c x : SessionCommitV3) : Prop :=
  sc_commitId x = sc_commitId c ∧ sc_idempotencyKey x = sc_idempotencyKey c ∧ sc_checksum x = sc_checksum c.

Lemma findDuplicate_spec cs c :
  match findDuplicate (createRecord <$> cs) c with
  | Ok None => Forall (unrelated c) cs
  | Ok (Some x) => ∃ before after, cs = before ++ x :: after ∧ Forall (unrelated c) before ∧ repeats c x
  | Err code => code = "SESSION_COMMIT_IDEMPOTENCY_CONFLICT"%string ∧
      ∃ before x after, cs = before ++ x :: after ∧ Forall (unrelated c) before ∧ ¬ unrelated c x ∧ ¬ repeats c x
  end.
Proof.
  induction cs as [|x cs IH]; [constructor|]. cbn [findDuplicate fmap list_fmap rec_commit createRecord]. unfold unrelated, repeats in *.
  destruct (bool_decide (sc_commitId x ≠ sc_commitId c)) eqn:E1, (bool_decide (sc_idempotencyKey x ≠ sc_idempotencyKey c)) eqn:E2;
    cbn [andb orb]; rewrite ?bool_decide_eq_true, ?bool_decide_eq_false in *.
  - destruct (findDuplicate _ c) as [[y|]|code].
    + destruct IH as (before & after & -> & Hb & ?). exists (x :: before), after. auto.
    + by constructor.
    + destruct IH as (-> & before & y & after & -> & Hb & ?). split; [done|]. exists (x :: before), y, after. auto.
  - split; [done|]. exists [], x, cs. split_and!; [done|constructor|tauto|tauto].
  - split; [done|]. exists [], x, cs. split_and!; [done|constructor|tauto|tauto].
  - apply dec_stable in E1, E2. destruct (bool_decide _) eqn:E3; rewrite ?bool_decide_eq_true, ?bool_decide_eq_false in *.
    + split; [done|]. exists [], x, cs. split_and!; [done|constructor|tauto|tauto].
    + apply dec_stable in E3. exists [], cs. auto.
Qed.

Lemma findDuplicate_fresh cs c : Forall (unrelated c) cs → findDuplicate (createRecord <$> cs) c = Ok None.
Proof.
  induction 1 as [|x cs [Hid Hkey] _ IH]; [done|]. cbn [findDuplicate fmap list_fmap rec_commit createRecord].
  by rewrite !bool_decide_eq_true_2 by done.
Qed.
Lemma findDuplicate_again cs c more :
  Forall (unrelated c) cs → findDuplicate (createRecord <$> cs ++ c :: more) c = Ok (Some c).
Proof.
  induction 1 as [|x cs [Hid Hkey] _ IH]; cbn [findDuplicate fmap list_fmap rec_commit createRecord app].
  - by rewrite !bool_decide_eq_false_2 by tauto.
  - by rewrite !bool_decide_eq_true_2 by done.
Qed.
Lemma findDuplicate_clash before x after c :
  Forall (unrelated c) before → ¬ unrelated c x → ¬ repeats c x →
  findDuplicate (createRecord <$> before ++ x :: after) c = Err "SESSION_COMMIT_IDEMPOTENCY_CONFLICT".
Proof.
  intros Hbefore Hx Hnot. induction Hbefore as [|y before [Hid Hkey] _ IH];
    cbn [findDuplicate fmap list_fmap rec_commit createRecord app]; [|by rewrite !bool_decide_eq_true_2 by done].
  unfold unrelated, repeats in *. repeat case_bool_decide; cbn [andb orb]; tauto.
Qed.

(** ** The steps *)

Context (inject : JsonlSessionJournalFaultPointV3 → res unit) (sid : string).
Hypothesis Hsafe : SAFE_ID sid = true.

Lemma encode_safe : encodeSessionFile sid = Ok (base64url sid).
Proof. unfold encodeSessionFile. by rewrite Hsafe. Qed.
Lemma commitPath_safe : commitPath sid = Ok (commit_file sid).
Proof. unfold commitPath. by rewrite encode_safe. Qed.
Lemma projectionPath_safe : projectionPath sid = Ok (marker_file sid).
Proof. unfold projectionPath. by rewrite encode_safe. Qed.
Lemma pendingPath_safe : pendingPath sid = Ok (marker_file sid).
Proof. unfold pendingPath. by rewrite encode_safe. Qed.

(** What [parseJournal] reads of a journal. *)
Definition parsed_of (cs : list SessionCommitV3) (tail : string) : ParsedJournal :=
  {| prs_records := createRecord <$> cs; prs_validBytes := String.length (journal_bytes cs);
     prs_physicalBytes := (String.length (journal_bytes cs) + String.length tail)%nat |}.
Lemma readJournal_kept d cs tail :
  journal_ok sid cs → one_line tail → default "" (dk_commits d !! commit_file sid) = journal_bytes cs +:+ tail →
  readJournal sid d = ([], Ok (parsed_of cs tail)).
Proof.
  intros Hok Ht Hf. unfold readJournal. rewrite commitPath_safe.
  rewrite (bind_pure _ _ (commit_file sid) d eq_refl), (bind_pure _ _ (dk_commits d !! commit_file sid) d eq_refl).
  destruct (dk_commits d !! commit_file sid) as [source|]; cbn [default from_option id] in Hf.
  - subst source. unfold lift. by rewrite (parseJournal_written sid).
  - by apply journal_bytes_empty in Hf as [-> ->].
Qed.

(** ** The disk after a write *)

Definition touches (w : write) : Prop :=
  match w with
  | append_commits name _ | truncate_commits name _ => name = commit_file sid
  | write_projection name _ | write_pending name _ | unlink_pending name => name = marker_file sid
  | _ => True
  end.
Lemma others_refl d : others d d sid.
Proof. done. Qed.
Lemma others_write d0 d w : others d0 d sid → touches w → others d0 (apply_write d w) sid.
Proof.
  intros (Hc & Hp & Hm) Ht. destruct w; cbn [touches apply_write] in *; subst;
    (split_and!; intros other Hne; cbn [dk_commits dk_projections dk_pending with_commits with_projections with_pending with_catalog];
     rewrite ?lookup_insert_ne, ?lookup_delete_ne, ?lookup_alter_ne by done; auto).
Qed.

Lemma journal_same d d' cs : dk_commits d' = dk_commits d → journal d sid cs → journal d' sid cs.
Proof. unfold journal. by intros ->. Qed.
Lemma projected_same d d' cs : dk_projections d' = dk_projections d → projected d sid cs → projected d' sid cs.
Proof. unfold projected. by intros ->. Qed.
Lemma marked_same d d' : dk_pending d' = dk_pending d → marked d sid → marked d' sid.
Proof. unfold marked. by intros ->. Qed.
Lemma consistent_same d d' cs :
  dk_commits d' = dk_commits d → dk_projections d' = dk_projections d → dk_pending d' = dk_pending d →
  consistent d sid cs → consistent d' sid cs.
Proof. unfold consistent, journal, projected, marked. by intros -> -> ->. Qed.

Lemma project_written d cs projection :
  reduceSessionEntriesV3 (commit_entries cs) = Ok projection →
  projected (apply_write d (write_projection (marker_file sid) (projection_cache (createRecord <$> cs) projection))) sid cs.
Proof.
  intros Hred _. exists projection. split; [done|]. cbn [apply_write with_projections dk_projections]. by rewrite lookup_insert_eq.
Qed.
Lemma mark_written d : marked (apply_write d (write_pending (marker_file sid) (pendingProjection sid))) sid.
Proof. unfold marked. cbn [apply_write with_pending dk_pending]. by rewrite lookup_insert_eq. Qed.

(** The bytes of the file, and those of a whole or torn record after it. *)
Definition bytes_of (d : Disk) : string := default "" (dk_commits d !! commit_file sid).
Lemma journal_clean d cs : journal_ok sid cs → bytes_of d = journal_bytes cs → journal d sid cs.
Proof. intros Hok Hb. split; [done|]. exists EmptyString. split; [done|]. by rewrite string_app_nil_r. Qed.
Lemma bytes_appended d bytes : bytes_of (apply_write d (append_commits (commit_file sid) bytes)) = bytes_of d +:+ bytes.
Proof. unfold bytes_of. cbn [apply_write with_commits dk_commits]. by rewrite lookup_insert_eq. Qed.
Lemma journal_appended d cs c bytes :
  journal_ok sid cs → extends sid cs c → bytes_of d = journal_bytes cs →
  (∃ rest, terminated (record_line c) = bytes +:+ rest) →
  let d' := apply_write d (append_commits (commit_file sid) bytes) in
  journal d' sid cs ∨ bytes = terminated (record_line c) ∧ journal d' sid (cs ++ [c]).
Proof.
  intros Hok Hex Hb Hpart d'. destruct (torn_line sid c bytes (ex_commit _ _ _ Hex) Hpart) as [->|Hone].
  - right. split; [done|]. apply journal_clean; [by apply journal_ok_snoc|]. unfold d'. by rewrite bytes_appended, Hb, journal_bytes_snoc.
  - left. split; [done|]. exists bytes. split; [done|]. unfold d'. fold (bytes_of (apply_write d (append_commits (commit_file sid) bytes))).
    by rewrite bytes_appended, Hb.
Qed.

(** ** The parts of an append *)

Lemma repairTail_kept d cs tail :
  bytes_of d = journal_bytes cs +:+ tail →
  ∃ ws, repairTail sid (parsed_of cs tail) d = (ws, Ok tt) ∧
    (ws = [] ∨ ws = [truncate_commits (commit_file sid) (String.length (journal_bytes cs))]) ∧
    bytes_of (apply_writes d ws) = journal_bytes cs.
Proof.
  intros Hb. unfold repairTail, parsed_of. cbn [prs_physicalBytes prs_validBytes]. destruct (Nat.leb _ _) eqn:Hle.
  - apply Nat.leb_le in Hle. exists []. split_and!; [done|by left|]. destruct tail as [|a tail]; [|cbn [String.length] in Hle; lia].
    change (apply_writes d []) with d. by rewrite Hb, string_app_nil_r.
  - exists [truncate_commits (commit_file sid) (String.length (journal_bytes cs))]. split_and!; [|by right|].
    + rewrite commitPath_safe. by rewrite (bind_pure _ _ (commit_file sid) d eq_refl).
    + unfold bytes_of in *. cbn [apply_writes foldl apply_write with_commits dk_commits]. rewrite lookup_alter_eq.
      destruct (dk_commits d !! commit_file sid) as [source|]; cbn [default from_option fmap option_fmap option_map id] in *.
      * by rewrite Hb, substring_prefix.
      * by apply journal_bytes_empty in Hb as [-> _].
Qed.

Section Crash.
Context (d0 : Disk) (C : Disk → Prop).

Lemma wp_repairTail cs tail Φ d :
  journal_ok sid cs → one_line tail → bytes_of d = journal_bytes cs +:+ tail → C d → others d0 d sid →
  (∀ d', bytes_of d' = journal_bytes cs → dk_projections d' = dk_projections d → dk_pending d' = dk_pending d →
    others d0 d' sid → C d' ∧ Φ (Ok tt) d') →
  wp C (repairTail sid (parsed_of cs tail)) Φ d.
Proof.
  intros Hok Ht Hb HC Hoth HΦ. destruct (repairTail_kept d cs tail Hb) as (ws & Hr & Hws & Hclean).
  unfold wp. rewrite Hr. cbn [fst snd]. destruct Hws as [-> | ->].
  - destruct (HΦ d) as [_ Hpost]; [done..|]. split; [|done]. by intros ws ->%crash_of_nil.
  - destruct (HΦ _ Hclean) as [HC' Hpost]; [done|done|by apply others_write|]. split; [|done].
    intros ws Hc. inversion Hc as [|part w' k Hp|w' k ws' Hk]; subst; [done|by inversion Hp|].
    by apply crash_of_nil in Hk as ->.
Qed.

Lemma wp_refreshProjection cs projection Φ d :
  reduceSessionEntriesV3 (commit_entries cs) = Ok projection → consistent d sid cs → others d0 d sid →
  (∀ d', consistent d' sid cs → others d0 d' sid → C d') →
  (∀ code d', consistent d' sid cs → others d0 d' sid → Φ (Err code) d') →
  (∀ d', journal d' sid cs → projected d' sid cs → dk_pending d' = dk_pending d → others d0 d' sid → Φ (Ok tt) d') →
  wp C (refreshProjection inject sid (createRecord <$> cs)) Φ d.
Proof.
  intros Hred Hcons Hoth HC HE HΦ. unfold refreshProjection. fold (commit_entries cs).
  apply (wp_step _ _ _ projection); [by rewrite Hred|].
  destruct (inject before_projection_write) as [[]|e] eqn:Hi1; [|apply (wp_fail _ _ _ e); [done|by apply HC|by apply HE]].
  apply (wp_step _ _ _ tt); [done|]. apply (wp_step _ _ _ (marker_file sid)); [by rewrite projectionPath_safe|].
  set (w := write_projection _ _). pose proof (project_written d cs projection Hred) as Hproj. fold w in Hproj.
  assert (journal (apply_write d w) sid cs) as Hj by (apply (journal_same d); [done|apply Hcons]).
  assert (others d0 (apply_write d w) sid) as Ho by by apply others_write.
  assert (consistent (apply_write d w) sid cs) as Hc by (split; [done|by right]).
  apply wp_bind, wp_replace; [done|by apply HC|by apply HC|].
  destruct (inject before_catalog_write) as [[]|e] eqn:Hi2; [|apply (wp_fail _ _ _ e); [done|by apply HC|by apply HE]].
  apply (wp_step _ _ _ tt); [done|]. unfold appendCatalogDeltaUnlocked.
  apply wp_emit.
  - by apply HC.
  - intros part Ht. inversion Ht; subst. apply HC; [by apply (consistent_same (apply_write d w))|by apply others_write].
  - apply HC; [by apply (consistent_same (apply_write d w))|by apply others_write].
  - apply HΦ; [by apply (journal_same (apply_write d w))|by apply (projected_same (apply_write d w))|done|by apply others_write].
Qed.

Lemma wp_appendRecord cs c Φ d :
  journal_ok sid cs → extends sid cs c → bytes_of d = journal_bytes cs → marked d sid → others d0 d sid →
  (∀ d', journal d' sid cs ∨ journal d' sid (cs ++ [c]) → marked d' sid → others d0 d' sid → C d') →
  (∀ d', journal d' sid (cs ++ [c]) → marked d' sid → others d0 d' sid → Φ (Ok tt) d') →
  wp C (appendRecord sid (createRecord c)) Φ d.
Proof.
  intros Hok Hex Hb Hm Hoth HC HΦ. unfold appendRecord. apply (wp_step _ _ _ (commit_file sid)); [by rewrite commitPath_safe|].
  change (default "" _ +:+ _) with (terminated (record_line c)).
  set (line := terminated (record_line c)).
  assert (∀ part, (∃ rest, line = part +:+ rest) → let d' := apply_write d (append_commits (commit_file sid) part) in
    (journal d' sid cs ∨ part = line ∧ journal d' sid (cs ++ [c])) ∧ marked d' sid ∧ others d0 d' sid) as Hpart.
  { intros part Hrest d'. split_and!; [by apply journal_appended|by apply (marked_same d)|by apply others_write]. }
  assert (∃ rest, line = line +:+ rest) as Hall by (exists EmptyString; by rewrite string_app_nil_r).
  apply wp_emit.
  - apply HC; [left; by apply journal_clean|done|done].
  - intros part Ht. inversion Ht as [name part' rest Heq|]; subst. destruct (Hpart part') as (Hj & Hm' & Ho); [by exists rest|].
    apply HC; [tauto|done..].
  - destruct (Hpart line Hall) as (Hj & Hm' & Ho). apply HC; [tauto|done..].
  - destruct (Hpart line Hall) as (Hj & Hm' & Ho). apply HΦ; [|done..]. unfold line, journal.
    split; [by apply journal_ok_snoc|]. exists EmptyString. split; [done|].
    fold (bytes_of (apply_write d (append_commits (commit_file sid) (terminated (record_line c))))).
    by rewrite bytes_appended, Hb, journal_bytes_snoc, string_app_nil_r.
Qed.
End Crash.

(** The journal is the one before, or has the commit at its end. *)
Definition either (d0 : Disk) (cs : list SessionCommitV3) (c : SessionCommitV3) (d : Disk) : Prop :=
  others d0 d sid ∧
  (consistent d sid cs ∨ consistent d sid (cs ++ [c]) ∧ extends sid cs c ∧ Forall (unrelated c) cs).
(** An outcome: a new commit, a repeated one, or an error. *)
Definition append_outcome (d0 : Disk) (cs : list SessionCommitV3) (c : SessionCommitV3)
    (r : res SessionCommitReceiptV3) (d : Disk) : Prop :=
  match r with
  | Ok receipt =>
      others d0 d sid ∧
      (receipt = sessionCommitReceiptV3 c false ∧ journal d sid (cs ++ [c]) ∧ projected d sid (cs ++ [c]) ∧ ¬ marked d sid
         ∧ extends sid cs c ∧ Forall (unrelated c) cs
       ∨ ∃ before x after, cs = before ++ x :: after ∧ Forall (unrelated c) before ∧ repeats c x ∧
           receipt = sessionCommitReceiptV3 x true ∧ journal d sid cs ∧ projected d sid cs)
  | Err _ => either d0 cs c d
  end.

Lemma wp_append_new d0 cs c d :
  journal_ok sid cs → extends sid cs c → Forall (unrelated c) cs → bytes_of d = journal_bytes cs →
  consistent d sid cs → others d0 d sid →
  wp (either d0 cs c) (markPending sid;; lift (inject before_append);; appendRecord sid (createRecord c);;
      lift (inject after_append_fsync);; refreshProjection inject sid ((createRecord <$> cs) ++ [createRecord c]);;
      clearPending sid;; mret (sessionCommitReceiptV3 c false))
    (λ r d', match r with Ok receipt => append_outcome d0 cs c (Ok receipt) d' | Err e => append_outcome d0 cs c (Err (run_error e)) d' end) d.
Proof.
  intros Hok Hex Hfresh Hb Hcons Hoth.
  assert (∀ d', consistent d' sid cs → others d0 d' sid → either d0 cs c d') as Hold by (intros; split; [done|by left]).
  assert (∀ d', consistent d' sid (cs ++ [c]) → others d0 d' sid → either d0 cs c d') as Hnew by (intros; split; [done|by right]).
  apply wp_bind. unfold markPending. apply (wp_step _ _ _ (marker_file sid)); [by rewrite pendingPath_safe|].
  set (w := write_pending _ _). pose proof (mark_written d) as Hm. fold w in Hm.
  assert (others d0 (apply_write d w) sid) as Ho by by apply others_write.
  assert (consistent (apply_write d w) sid cs) as Hc by (split; [apply (journal_same d); [done|apply Hcons]|by left]).
  apply wp_replace; [done|by apply Hold|by apply Hold|].
  destruct (inject before_append) as [[]|e] eqn:Hi1; [|apply (wp_fail _ _ _ e); [done|by apply Hold|by apply Hold]].
  apply (wp_step _ _ _ tt); [done|]. apply wp_bind, (wp_appendRecord d0 _ cs c); [done..| |].
  { intros d' [Hj|Hj] Hm' Ho'; [apply Hold|apply Hnew]; try done; (split; [done|by left]). }
  intros d1 Hj1 Hm1 Ho1. assert (consistent d1 sid (cs ++ [c])) as Hc1 by (split; [done|by left]).
  destruct (inject after_append_fsync) as [[]|e] eqn:Hi2; [|apply (wp_fail _ _ _ e); [done|by apply Hnew|by apply Hnew]].
  apply (wp_step _ _ _ tt); [done|].
  change [createRecord c] with (createRecord <$> [c]). rewrite <-fmap_app.
  destruct (reduceSessionEntriesV3 (commit_entries (cs ++ [c]))) as [projection|e] eqn:Hred.
  2:{ exfalso. destruct Hex as [_ _ Hr]. rewrite <-(commit_entries_one c), <-commit_entries_app, Hred in Hr. done. }
  apply wp_bind, (wp_refreshProjection d0 _ (cs ++ [c]) projection); [done..|by apply Hnew| |].
  { intros e d' ? ?. by apply Hnew. }
  intros d2 Hj2 Hp2 Hm2 Ho2. apply wp_bind. unfold clearPending. apply (wp_step _ _ _ (marker_file sid)); [by rewrite pendingPath_safe|].
  set (u := unlink_pending _).
  assert (journal (apply_write d2 u) sid (cs ++ [c])) as Hj3 by by apply (journal_same d2).
  assert (projected (apply_write d2 u) sid (cs ++ [c])) as Hp3 by by apply (projected_same d2).
  assert (others d0 (apply_write d2 u) sid) as Ho3 by by apply others_write.
  apply wp_replace; [done|apply Hnew; [split; [done|by right]|done]|apply Hnew; [split; [done|by right]|done]|].
  apply wp_ret; [apply Hnew; [split; [done|by right]|done]|]. split; [done|]. left. split_and!; try done.
  unfold marked. cbn [apply_write u with_pending dk_pending]. by rewrite lookup_delete_eq.
Qed.

Lemma wp_appendCommit cs c d :
  commit_ok sid c → consistent d sid cs →
  wp (either d cs c) (appendCommit true inject (SessionCommit_js c)) (append_outcome d cs c) d.
Proof.
  intros Hc Hcons. pose proof Hcons as [[Hok (tail & Ht & Hb)] _]. pose proof Hc as [Hv Hs Hst].
  assert (∀ d', consistent d' sid cs → others d d' sid → either d cs c d') as Hold by (intros; split; [done|by left]).
  unfold appendCommit. apply (wp_step _ _ _ tt); [done|]. apply (wp_step _ _ _ c); [by rewrite Hv|]. rewrite Hs.
  apply wp_run, (wp_step _ _ _ (parsed_of cs tail)); [by apply readJournal_kept|].
  apply wp_bind, (wp_repairTail d _ cs tail); [done..|by apply Hold|done|].
  intros d1 Hb1 Hp1 Hm1 Ho1.
  assert (consistent d1 sid cs) as Hc1.
  { split; [by apply journal_clean|]. destruct Hcons as [_ [Hm|Hp]]; [left; by apply (marked_same d)|right; by apply (projected_same d)]. }
  split; [by apply Hold|]. cbn [prs_records parsed_of]. pose proof (findDuplicate_spec cs c) as Hdup.
  destruct (findDuplicate (createRecord <$> cs) c) as [[x|]|code] eqn:Hfind.
  - apply (wp_step _ _ _ (Some x)); [done|]. destruct Hdup as (before & after & Hcs & Hbefore & Hrep).
    assert (cs ≠ []) as Hne by (rewrite Hcs; by destruct before).
    pose proof (jo_reduced _ _ Hok Hne) as Hred. destruct (reduceSessionEntriesV3 (commit_entries cs)) as [projection|] eqn:Hr; [|done].
    apply wp_bind, (wp_refreshProjection d _ cs projection); [done..| |].
    { intros e d' ? ?. by apply Hold. }
    intros d2 Hj2 Hp2 _ Ho2. apply wp_ret; [apply Hold; [split; [done|by right]|done]|].
    split; [done|]. right. by exists before, x, after.
  - apply (wp_step _ _ _ None); [done|]. fold (commit_entries cs).
    destruct (assertSessionCommitAgainstHeadV3 c _) as [[]|e] eqn:Hhead; [|apply (wp_fail _ _ _ e); [done|by apply Hold|by apply Hold]].
    apply (wp_step _ _ _ tt); [done|].
    destruct (reduceSessionEntriesV3 (commit_entries cs ++ sc_entries c)) as [pj|e] eqn:Hred; [|apply (wp_fail _ _ _ e); [done|by apply Hold|by apply Hold]].
    apply (wp_step _ _ _ pj); [done|]. apply wp_append_new; try done. split; [done|done|by rewrite Hred].
  - apply (wp_fail _ _ _ code); [done|by apply Hold|by apply Hold].
Qed.

(** ** The writes without a fault *)

Hypothesis Hinject : ∀ point, inject point = Ok tt.

(** The projection file and the log of the catalog. *)
Definition refresh_writes (cs : list SessionCommitV3) (projection : SessionProjectionV3) : list write :=
  [write_projection (marker_file sid) (projection_cache (createRecord <$> cs) projection);
   append_delta (terminated (text_of (CatalogDeltaRecord_js (catalogDeltaRecord projection))))].
Lemma refreshProjection_writes cs projection d :
  reduceSessionEntriesV3 (commit_entries cs) = Ok projection →
  refreshProjection inject sid (createRecord <$> cs) d = (refresh_writes cs projection, Ok tt).
Proof.
  intros Hred. unfold refreshProjection. fold (commit_entries cs).
  rewrite (bind_pure _ _ projection) by (unfold lift; by rewrite Hred).
  rewrite (bind_pure _ _ tt) by (unfold lift; by rewrite Hinject). rewrite (bind_pure _ _ (marker_file sid)) by (unfold lift; by rewrite projectionPath_safe).
  eapply (bind_writes _ _ [_]); [done|]. rewrite (bind_pure _ _ tt) by (unfold lift; by rewrite Hinject). done.
Qed.

(** The five writes of a new commit, in their order. *)
Definition commit_writes (cs : list SessionCommitV3) (c : SessionCommitV3) (projection : SessionProjectionV3) : list write :=
  [write_pending (marker_file sid) (pendingProjection sid);
   append_commits (commit_file sid) (terminated (record_line c))]
  ++ refresh_writes (cs ++ [c]) projection ++ [unlink_pending (marker_file sid)].

Lemma appendCommit_start cs c tail d :
  commit_ok sid c → journal_ok sid cs → one_line tail → bytes_of d = journal_bytes cs +:+ tail →
  ∃ repair, (repair = [] ∨ repair = [truncate_commits (commit_file sid) (String.length (journal_bytes cs))]) ∧
    bytes_of (apply_writes d repair) = journal_bytes cs ∧
    ∀ ws r, (duplicate ← lift (findDuplicate (createRecord <$> cs) c);
      match duplicate with
      | Some duplicate => refreshProjection inject sid (createRecord <$> cs);; mret (sessionCommitReceiptV3 duplicate true)
      | None =>
          lift (assertSessionCommitAgainstHeadV3 c (journal_head (commit_entries cs)));;
          lift (reduceSessionEntriesV3 (commit_entries cs ++ sc_entries c));;
          markPending sid;; lift (inject before_append);; appendRecord sid (createRecord c);;
          lift (inject after_append_fsync);; refreshProjection inject sid ((createRecord <$> cs) ++ [createRecord c]);;
          clearPending sid;; mret (sessionCommitReceiptV3 c false)
      end) (apply_writes d repair) = (ws, r) →
    appendCommit true inject (SessionCommit_js c) d =
      (repair ++ ws, match r with Ok a => Ok a | Err code => Err (run_error code) end).
Proof.
  intros [Hv Hs Hst] Hok Ht Hb. destruct (repairTail_kept d cs tail Hb) as (repair & Hr & Hrep & Hclean).
  exists repair. split_and!; [done..|]. intros ws r Hrest. unfold appendCommit.
  rewrite (bind_pure _ _ tt) by done. rewrite (bind_pure _ _ c) by (unfold lift; by rewrite Hv). rewrite Hs. unfold run.
  rewrite (bind_pure _ _ (parsed_of cs tail)) by by apply readJournal_kept.
  erewrite bind_writes; [|exact Hr|exact Hrest]. by destruct r.
Qed.

Lemma appendCommit_new cs c tail d :
  extends sid cs c → journal_ok sid cs → one_line tail → bytes_of d = journal_bytes cs +:+ tail → Forall (unrelated c) cs →
  ∃ repair projection, reduceSessionEntriesV3 (commit_entries (cs ++ [c])) = Ok projection ∧
    (repair = [] ∨ repair = [truncate_commits (commit_file sid) (String.length (journal_bytes cs))]) ∧
    bytes_of (apply_writes d repair) = journal_bytes cs ∧
    appendCommit true inject (SessionCommit_js c) d =
      (repair ++ commit_writes cs c projection, Ok (sessionCommitReceiptV3 c false)).
Proof.
  intros Hex Hok Ht Hb Hfresh. destruct (appendCommit_start cs c tail d) as (repair & Hrep & Hclean & Hstart); [apply Hex|done..|].
  destruct (reduceSessionEntriesV3 (commit_entries (cs ++ [c]))) as [projection|e] eqn:Hred.
  2:{ exfalso. destruct Hex as [_ _ Hr]. rewrite <-(commit_entries_one c), <-commit_entries_app, Hred in Hr. done. }
  exists repair, projection. split_and!; [done..|]. apply (Hstart _ (Ok _)). generalize (apply_writes d repair) as d1. intros d1.
  rewrite (bind_pure _ _ None) by (unfold lift; by rewrite findDuplicate_fresh).
  rewrite (bind_pure _ _ tt) by (unfold lift; by rewrite (ex_head _ _ _ Hex)).
  rewrite (bind_pure _ _ projection) by (unfold lift; by rewrite <-Hred, commit_entries_app, commit_entries_one).
  unfold commit_writes. eapply (bind_writes _ _ [_]).
  { unfold markPending. rewrite (bind_pure _ _ (marker_file sid)) by (unfold lift; by rewrite pendingPath_safe). done. }
  rewrite (bind_pure _ _ tt) by (unfold lift; by rewrite Hinject). eapply (bind_writes _ _ [_]).
  { unfold appendRecord. rewrite (bind_pure _ _ (commit_file sid)) by (unfold lift; by rewrite commitPath_safe). done. }
  rewrite (bind_pure _ _ tt) by (unfold lift; by rewrite Hinject).
  change [createRecord c] with (createRecord <$> [c]). rewrite <-fmap_app.
  eapply bind_writes; [by apply refreshProjection_writes|]. eapply (bind_writes _ _ [_]); [|done].
  unfold clearPending. by rewrite (bind_pure _ _ (marker_file sid)) by (unfold lift; by rewrite pendingPath_safe).
Qed.

Lemma appendCommit_repeat before c after tail d :
  let cs := before ++ c :: after in
  commit_ok sid c → journal_ok sid cs → one_line tail → bytes_of d = journal_bytes cs +:+ tail → Forall (unrelated c) before →
  ∃ repair projection, reduceSessionEntriesV3 (commit_entries cs) = Ok projection ∧
    (repair = [] ∨ repair = [truncate_commits (commit_file sid) (String.length (journal_bytes cs))]) ∧
    bytes_of (apply_writes d repair) = journal_bytes cs ∧
    appendCommit true inject (SessionCommit_js c) d =
      (repair ++ refresh_writes cs projection, Ok (sessionCommitReceiptV3 c true)).
Proof.
  intros cs Hc Hok Ht Hb Hfresh. destruct (appendCommit_start cs c tail d) as (repair & Hrep & Hclean & Hstart); [done..|].
  assert (cs ≠ []) as Hne by (unfold cs; by destruct before).
  pose proof (jo_reduced _ _ Hok Hne) as Hr. destruct (reduceSessionEntriesV3 (commit_entries cs)) as [projection|] eqn:Hred; [|done].
  exists repair, projection. split_and!; [done..|]. apply (Hstart _ (Ok _)).
  rewrite (bind_pure _ _ (Some c)) by (unfold lift; unfold cs; by rewrite findDuplicate_again).
  rewrite <-(app_nil_r (refresh_writes cs projection)). eapply bind_writes; [by apply refreshProjection_writes|done].
Qed.
End Append.
