(* ===== verification/JsonlSafe.v ===== *)
(** * What an append to the JSONL store guarantees

    A crash or a fault at any point leaves the journal before or after the commit,
    a receipt is only given for a commit that is on the disk, and a retry stores the
    commit exactly once. *)

From S2P Require Import Prelude Js JsOps Json JsonSpec CanonicalJson Samples Plan Session SessionReducer SessionSamples SessionEntry SessionCommit SessionPort SessionPortSpec Jsonl JsonlStore JsonlLines JsonlJournal JsonlCrash JsonlAppend.
Local Open Scope Z_scope.

Section Safe.
Context `{JsEngine} `{JsCrypto} `{RP : ReviewPlanContract} `{NodeHost}.

Lemma commit_ok_safe sid c : commit_ok sid c → SAFE_ID sid = true.
Proof.
  intros [Hv <- _]. unfold validateSessionCommitV3, SessionCommit_js in Hv. cbn [mbind res_bind] in Hv.
  apply bind_Ok in Hv as ([] & Hrej & _). apply fail_if_Ok in Hrej. unfold commit_rejected in Hrej.
  rewrite !orb_false_iff, !negb_false_iff in Hrej. by destruct Hrej as [[[[[[[[[_ _] Hid] _] _] _] _] _] _] _].
Qed.

(** C5 An append is atomic: whatever fails at the points of the injector, and
    wherever the process dies, be it in the middle of a line, the journal of the
    session is then the one before or the one with the commit at its end, a
    projection that is not that of the journal is marked, and the files of the
    other sessions are untouched.  The commit is only there if it extends the
    journal and repeats none of its commits. *)
Theorem append_atomic inject sid cs c d ws r crash :
  commit_ok sid c → consistent d sid cs →
  appendCommit true inject (SessionCommit_js c) d = (ws, r) → crash_of ws crash →
  let d' := apply_writes d crash in
  others d d' sid ∧
  (consistent d' sid cs ∨ consistent d' sid (cs ++ [c]) ∧ extends sid cs c ∧ Forall (unrelated c) cs).
Proof.
  intros Hc Hcons Ha Hcrash. destruct (wp_appendCommit inject sid (commit_ok_safe _ _ Hc) cs c d Hc Hcons) as [Hall _].
  rewrite Ha in Hall. by apply Hall.
Qed.

(** C26 A receipt tells the truth: when [appendCommit] answers, the journal on the
    disk ends with the commit, which was not there before, or it has the commit
    that the receipt names as a duplicate, with the same identity, key and
    checksum; and the projection file is that of the journal. *)
Theorem append_receipt_durable inject sid cs c d ws receipt :
  commit_ok sid c → consistent d sid cs →
  appendCommit true inject (SessionCommit_js c) d = (ws, Ok receipt) →
  let d' := apply_writes d ws in
  (receipt = sessionCommitReceiptV3 c false ∧ journal d' sid (cs ++ [c]) ∧ projected d' sid (cs ++ [c]) ∧
     Forall (unrelated c) cs) ∨
  (∃ x, x ∈ cs ∧ repeats c x ∧ receipt = sessionCommitReceiptV3 x true ∧ journal d' sid cs ∧ projected d' sid cs).
Proof.
  intros Hc Hcons Ha. pose proof (wp_appendCommit inject sid (commit_ok_safe _ _ Hc) cs c d Hc Hcons) as Hwp.
  apply (wp_post _ _ _ _ _ _ Hwp) in Ha as [_ [(Hr & Hj & Hp & _ & _ & Hf)|(before & x & after & Hcs & _ & Hrep & Hr & Hj & Hp)]].
  - by left.
  - right. exists x. split_and!; try done. rewrite Hcs. set_solver.
Qed.

Definition no_fault (point : JsonlSessionJournalFaultPointV3) : res unit := Ok tt.

(** C4 A commit is stored exactly once: after an append that was cut short at any
    point, by a fault or by a crash, the same append is answered with the receipt
    of the commit, and the journal has the commit once, at its end, with its
    projection. *)
Theorem append_exactly_once inject sid cs c d ws r crash :
  extends sid cs c → Forall (unrelated c) cs → consistent d sid cs →
  appendCommit true inject (SessionCommit_js c) d = (ws, r) → crash_of ws crash →
  let d1 := apply_writes d crash in
  ∃ duplicate ws1, appendCommit true no_fault (SessionCommit_js c) d1 = (ws1, Ok (sessionCommitReceiptV3 c duplicate)) ∧
    let d2 := apply_writes d1 ws1 in journal d2 sid (cs ++ [c]) ∧ projected d2 sid (cs ++ [c]).
Proof.
  intros Hex Hfresh Hcons Ha Hcrash d1. pose proof (ex_commit _ _ _ Hex) as Hc. pose proof (commit_ok_safe _ _ Hc) as Hsafe.
  destruct (wp_appendCommit inject sid Hsafe cs c d Hc Hcons) as [Hall _]. rewrite Ha in Hall. cbn [fst] in Hall.
  apply Hall in Hcrash as [_ Hd1]. fold d1 in Hd1.
  assert (∃ cs1, consistent d1 sid cs1 ∧ (cs1 = cs ∨ cs1 = cs ++ [c])) as (cs1 & Hc1 & Hcs1).
  { destruct Hd1 as [?|(? & _)]; [exists cs|exists (cs ++ [c])]; auto. }
  pose proof (wp_appendCommit no_fault sid Hsafe cs1 c d1 Hc Hc1) as Hwp.
  destruct Hc1 as [[Hok (tail & Ht & Hb)] _]. destruct Hcs1 as [-> | ->].
  - destruct (appendCommit_new no_fault sid Hsafe (λ _, eq_refl) cs c tail d1) as (repair & pj & _ & _ & _ & Hr); [done..|].
    eexists false, _. split; [exact Hr|]. apply (wp_post _ _ _ _ _ _ Hwp) in Hr as [_ [(_ & Hj & Hp & _)|(b & x & a & _ & _ & _ & Hr & _)]]; [done|].
    by apply (f_equal rc_duplicate) in Hr.
  - destruct (appendCommit_repeat no_fault sid Hsafe (λ _, eq_refl) cs c [] tail d1) as (repair & pj & _ & _ & _ & Hr); [done..|].
    eexists true, _. split; [exact Hr|]. apply (wp_post _ _ _ _ _ _ Hwp) in Hr as [_ [(Hr & _)|(b & x & a & _ & _ & _ & _ & Hj & Hp)]]; [|done].
    by apply (f_equal rc_duplicate) in Hr.
Qed.

(** The durable writes of a new commit are five and in this order: the marker of
    the projection, the record of the commit, the projection, the line of the
    catalog, and the removal of the marker; before them a torn line is cut off. *)
Theorem append_write_order sid cs c tail d :
  extends sid cs c → journal_ok sid cs → Forall (unrelated c) cs → one_line tail →
  default "" (dk_commits d !! commit_file sid) = journal_bytes cs +:+ tail →
  ∃ repair projection, reduceSessionEntriesV3 (commit_entries (cs ++ [c])) = Ok projection ∧
    (repair = [] ∨ repair = [truncate_commits (commit_file sid) (String.length (journal_bytes cs))]) ∧
    appendCommit true no_fault (SessionCommit_js c) d =
      (repair ++ [write_pending (marker_file sid) (pendingProjection sid);
                  append_commits (commit_file sid) (terminated (record_line c));
                  write_projection (marker_file sid) (projection_cache (createRecord <$> cs ++ [c]) projection);
                  append_delta (terminated (text_of (CatalogDeltaRecord_js (catalogDeltaRecord projection))));
                  unlink_pending (marker_file sid)],
       Ok (sessionCommitReceiptV3 c false)).
Proof.
  intros Hex Hok Hfresh Ht Hb. pose proof (commit_ok_safe _ _ (ex_commit _ _ _ Hex)) as Hsafe.
  destruct (appendCommit_new no_fault sid Hsafe (λ _, eq_refl) cs c tail d) as (repair & pj & Hred & Hrep & _ & Hr); [done..|].
  by exists repair, pj.
Qed.

(** A key that is used twice is refused: a commit that shares its identity or its
    key with a commit of the journal, and is not that commit, is an idempotency
    conflict, a commit that does not start at the head is a revision or a sequence
    conflict, and in either case nothing is written but the repair of a torn line. *)
Theorem append_conflict inject sid cs c tail d code :
  commit_ok sid c → journal_ok sid cs → one_line tail →
  default "" (dk_commits d !! commit_file sid) = journal_bytes cs +:+ tail →
  (∃ before x after, cs = before ++ x :: after ∧ Forall (unrelated c) before ∧ ¬ unrelated c x ∧ ¬ repeats c x ∧
     code = "SESSION_COMMIT_IDEMPOTENCY_CONFLICT"%string) ∨
  (Forall (unrelated c) cs ∧ assertSessionCommitAgainstHeadV3 c (journal_head (commit_entries cs)) = Err code) →
  ∃ repair, appendCommit true inject (SessionCommit_js c) d = (repair, Err code) ∧
    let d' := apply_writes d repair in
    others d d' sid ∧ dk_projections d' = dk_projections d ∧ dk_pending d' = dk_pending d ∧
    default "" (dk_commits d' !! commit_file sid) = journal_bytes cs.
Proof.
  intros Hc Hok Ht Hb Hcase. pose proof (commit_ok_safe _ _ Hc) as Hsafe.
  destruct (appendCommit_start inject sid Hsafe cs c tail d) as (repair & Hrep & Hclean & Hstart); [done..|].
  assert (∃ code', run_error code' = code ∧ findDuplicate (createRecord <$> cs) c = Err code' ∨
    run_error code = code ∧ findDuplicate (createRecord <$> cs) c = Ok None ∧
    assertSessionCommitAgainstHeadV3 c (journal_head (commit_entries cs)) = Err code) as (code' & Hcode).
  { destruct Hcase as [(before & x & after & Hcs & Hbefore & Hx & Hnot & ->)|[Hfresh Hhead]].
    - eexists. left. split; [|rewrite Hcs; by apply findDuplicate_clash]. done.
    - exists code. right. split; [|split; [by apply findDuplicate_fresh|done]]. unfold assertSessionCommitAgainstHeadV3 in Hhead.
      apply bind_Err in Hhead as [He|([] & _ & He)]; apply fail_if_Err in He as [_ ->]; done. }
  exists repair. split.
  - rewrite <-(app_nil_r repair) at 1. destruct Hcode as [[<- Hfind]|(Hrun & Hfind & Hhead)].
    + apply (Hstart [] (Err code')). rewrite (bind_err _ _ code') by (unfold lift; by rewrite Hfind). done.
    + rewrite <-Hrun. apply (Hstart [] (Err code)). rewrite (bind_pure _ _ None) by (unfold lift; by rewrite Hfind).
      rewrite (bind_err _ _ code) by (unfold lift; by rewrite Hhead). done.
  - destruct Hrep as [-> | ->]; (split_and!; [by apply others_write||done|done|done|exact Hclean]).
Qed.
End Safe.
