(* ===== verification/JsonlRead.v ===== *)
(** * Reading the JSONL store through the port

    The pages that the store answers are those of its journal, so that the port
    reads it to the end; and the projection that it keeps is the one that the port
    would compute. *)

From S2P Require Import Prelude Js JsOps Json JsonSpec CanonicalJson Samples Plan Session SessionReducer SessionInv SessionLife SessionEntry SessionEntrySpec SessionCommit SessionPort SessionPortSpec Jsonl JsonlStore JsonlLines JsonlJournal JsonlCrash JsonlAppend JsonlSafe.
Local Open Scope Z_scope.

(** ** Pages of numbered entries *)

Ltac bool_lia := apply eq_true_iff_eq; rewrite ?andb_true_iff, ?Z.ltb_lt, ?Z.leb_le; lia.

(** The entries of a window, with the values beside them. *)
Lemma numbered_window {A} sid from (es : list (SessionEntryV3 * A)) (after through : nat) :
  numbered sid from es.*1 →
  List.filter (λ e, (Z.of_nat (from + after) <? en_sequence e.1) && (en_sequence e.1 <=? Z.of_nat (from + through))) es
    = drop after (take through es).
Proof.
  revert from after through. induction es as [|e es IH]; intros from after through Hn; [by rewrite take_nil, drop_nil|].
  assert (numbered sid (S from) es.*1) as Hn'.
  { intros i x Hx. destruct (Hn (S i) x Hx) as [Hs ?]. split; [|done]. rewrite Hs. lia. }
  destruct (Hn 0%nat e.1 eq_refl) as [He _]. cbn [List.filter]. rewrite He.
  destruct through as [|through].
  - replace (_ <=? Z.of_nat (from + 0)) with false by lia. rewrite andb_false_r, take_0, drop_nil.
    specialize (IH (S from) after 0%nat Hn'). rewrite take_0, drop_nil in IH. rewrite <-IH.
    apply List.filter_ext_in. intros x Hx%list_elem_of_In. apply list_elem_of_lookup in Hx as [i Hi].
    destruct (Hn' i x.1) as [Hs _]; [by rewrite list_lookup_fmap, Hi|]. rewrite Hs. bool_lia.
  - rewrite (proj2 (Z.leb_le (Z.of_nat (from + 0) + 1) _)), andb_true_r by lia. cbn [take]. destruct after as [|after].
    + rewrite (proj2 (Z.ltb_lt _ (Z.of_nat (from + 0) + 1))) by lia. rewrite drop_0. f_equal.
      specialize (IH (S from) 0%nat through Hn'). rewrite drop_0 in IH. rewrite <-IH.
      apply List.filter_ext_in. intros x Hx%list_elem_of_In. apply list_elem_of_lookup in Hx as [i Hi].
      destruct (Hn' i x.1) as [Hs _]; [by rewrite list_lookup_fmap, Hi|]. rewrite Hs. bool_lia.
    + rewrite (proj2 (Z.ltb_ge _ (Z.of_nat (from + 0) + 1))) by lia. cbn [drop].
      specialize (IH (S from) after through Hn'). rewrite <-IH.
      apply List.filter_ext. intros x. f_equal; f_equal; lia.
Qed.

Section Read.
Context `{JsEngine} `{JsCrypto} `{RP : ReviewPlanContract} `{NodeHost}.

Definition commit_values (cs : list SessionCommitV3) : list jsval := cs ≫= sc_values.

(** What the commits of a journal decode to. *)
Lemma commit_decoded sid c :
  commit_ok sid c →
  mapM validateSessionEntryV3 (sc_values c) = Ok (sc_entries c) ∧ Forall (λ e, en_sessionId e = sid) (sc_entries c).
Proof.
  intros [Hv <- _]. unfold validateSessionCommitV3, SessionCommit_js in Hv. cbn [mbind res_bind] in Hv.
  apply bind_Ok in Hv as ([] & _ & Hv). apply bind_Ok in Hv as (entries & He & Hv). apply bind_Ok in Hv as ([] & Hg & Hv).
  apply bind_Ok in Hv as ([] & _ & Hv). apply bind_Ok in Hv as (sum & _ & Hv). apply bind_Ok in Hv as ([] & _ & Hv).
  apply (f_equal (λ r, match r with Ok x => sc_entries x | Err _ => [] end)) in Hv. cbn [sc_entries] in Hv. rewrite <-Hv.
  split; [exact He|]. apply fail_if_Ok, orb_false_iff in Hg as [Hg _]. apply existsb_false in Hg.
  eapply Forall_impl; [exact Hg|]. cbn beta. intros e [He' _]%orb_false_iff. apply bool_decide_eq_false, dec_stable in He'. exact He'.
Qed.
Lemma journal_decoded sid cs : Forall (commit_ok sid) cs → mapM validateSessionEntryV3 (commit_values cs) = Ok (commit_entries cs).
Proof.
  intros Hall. apply mapM_Ok. induction Hall as [|c cs Hc _ IH]; [constructor|].
  unfold commit_values, commit_entries, flattenEntries in *. cbn. apply Forall2_app; [|exact IH].
  apply mapM_Ok. by apply (commit_decoded sid).
Qed.
Lemma journal_values sid cs :
  Forall (commit_ok sid) cs → flatten_values (createRecord <$> cs) = zip (commit_entries cs) (commit_values cs).
Proof.
  induction 1 as [|c cs Hc _ IH]; [done|]. unfold flatten_values, commit_values, commit_entries, flattenEntries in *. cbn.
  rewrite IH. destruct (commit_decoded sid c Hc) as [Hd%mapM_Ok%Forall2_length _]. by rewrite zip_with_app.
Qed.

(** The entries of a journal are numbered from 1. *)
Lemma journal_numbered sid cs : journal_ok sid cs → numbered sid 0 (commit_entries cs).
Proof.
  intros [Hall Hch Hred] i e He. destruct cs as [|c cs]; [done|]. specialize (Hred ltac:(done)).
  destruct (reduceSessionEntriesV3 (commit_entries (c :: cs))) as [pj|] eqn:Hr; [|done].
  destruct (reduced_order _ _ Hr) as (Hseq & _ & _). destruct (Hseq i e He) as [Hs Hid]. split; [lia|].
  apply list_elem_of_lookup_2 in He. unfold commit_entries, flattenEntries in He. apply list_elem_of_bind in He as (r & He & Hr').
  apply list_elem_of_fmap in Hr' as (x & -> & Hx). rewrite Forall_forall in Hall.
  destruct (commit_decoded sid x (Hall x Hx)) as [_ Hsid]. rewrite Forall_forall in Hsid. by apply Hsid.
Qed.

(** ** The pages of the store *)

Definition revision_of (cs : list SessionCommitV3) : Z := default 0 (en_revision <$> last (commit_entries cs)).
Lemma journal_head_of sid cs :
  journal_ok sid cs → default {| hd_revision := 0; hd_sequence := 0 |} (journal_head (commit_entries cs)) =
    {| hd_revision := revision_of cs; hd_sequence := Z.of_nat (length (commit_entries cs)) |}.
Proof.
  intros Hok%journal_numbered. pose proof (numbered_last _ _ _ Hok) as Hl. unfold revision_of, journal_head.
  destruct (last (commit_entries cs)) as [e|] eqn:He; cbn in *; [by rewrite Hl|]. apply last_None in He. by rewrite He.
Qed.

Lemma read_input_range request n :
  SessionPort.validateReadInput request = Ok tt →
  0 ≤ default 0 (ri_afterSequence request) ∧ 0 ≤ default (Z.of_nat n) (ri_throughSequence request).
Proof.
  unfold SessionPort.validateReadInput. intros Hin%fail_if_Ok. rewrite !orb_false_iff in Hin. destruct Hin as [[[_ Ha] _] Ht]. split.
  - destruct (ri_afterSequence request) as [z|]; [|done]. apply negb_false_iff, nonNegativeInteger_int in Ha. cbn. lia.
  - destruct (ri_throughSequence request) as [z|]; [|cbn; lia]. apply negb_false_iff, nonNegativeInteger_int in Ht. cbn. lia.
Qed.
(** A page of the entries with their values: the values, and where it ends. *)
Lemma journal_page {A} sid (es : list SessionEntryV3) (values : list A) (after through : Z) (limit : nat) :
  length es = length values → numbered sid 0 es → 0 ≤ after →
  let selected := take limit (drop (Z.to_nat after) (take (Z.to_nat through) (zip es values))) in
  let page := take limit (drop (Z.to_nat after) (take (Z.to_nat through) values)) in
  selected.*2 = page ∧ default after (en_sequence ∘ fst <$> last selected) = after + Z.of_nat (length page).
Proof.
  intros Hlen Hnum Hafter selected page.
  assert (selected.*2 = page) as Hpage by (unfold selected, page; rewrite fmap_take, fmap_drop, fmap_take, snd_zip by lia; done).
  split; [done|]. rewrite <-Hpage, length_fmap.
  assert (numbered sid (Z.to_nat after) selected.*1) as Hs.
  { unfold selected. rewrite fmap_take, fmap_drop, fmap_take, fst_zip by lia. apply numbered_drop.
    intros i e He. rewrite lookup_take in He. case_decide; [|done]. by apply Hnum. }
  apply numbered_last in Hs. rewrite Z2Nat.id, fmap_last, length_fmap in Hs by done.
  rewrite <-Hs. by destruct (last selected).
Qed.
Lemma readEntries_page sid cs d request :
  journal d sid cs → cs ≠ [] → SAFE_ID sid = true → SessionPort.validateReadInput request = Ok tt → ri_sessionId request = sid →
  default (Z.of_nat (length (commit_entries cs))) (ri_throughSequence request) ≤ Z.of_nat (length (commit_entries cs)) →
  JsonlStore.readEntries true request d = ([], Ok (page_of (commit_values cs) (revision_of cs) request)).
Proof.
  intros [Hok (tail & Ht & Hb)] Hne Hsafe Hin Hsid Hthrough. unfold JsonlStore.readEntries.
  rewrite (bind_pure _ _ tt) by done. unfold run. rewrite (bind_pure _ _ tt) by (unfold lift; by rewrite <-Hin).
  rewrite Hsid, (bind_pure _ _ (parsed_of cs tail)) by by apply readJournal_kept. cbn [prs_records parsed_of].
  rewrite (bind_pure _ _ tt) by by destruct cs.
  pose proof (journal_decoded sid cs (jo_commits _ _ Hok)) as Hdec%mapM_Ok%Forall2_length.
  pose proof (journal_numbered _ _ Hok) as Hnum.
  rewrite (journal_values sid) by apply Hok. rewrite fst_zip, (journal_head_of sid) by (done || lia). cbn [hd_sequence hd_revision].
  set (n := length (commit_entries cs)) in *. set (through := default (Z.of_nat n) (ri_throughSequence request)) in *.
  rewrite (bind_pure _ _ tt) by (unfold lift; by rewrite (proj2 (Z.ltb_ge _ _))).
  set (after := default 0 (ri_afterSequence request)). set (limit := default MAX_READ_PAGE (ri_limit request)).
  assert (0 ≤ after ∧ 0 ≤ through) as [Hafter Hthr] by exact (read_input_range request n Hin).
  pose proof (numbered_window sid 0 (zip (commit_entries cs) (commit_values cs)) (Z.to_nat after) (Z.to_nat through)) as Hwin.
  cbn [Nat.add] in Hwin. rewrite fst_zip, !Z2Nat.id in Hwin by lia. specialize (Hwin Hnum).
  rewrite Hwin. destruct (journal_page sid (commit_entries cs) (commit_values cs) after through (Z.to_nat limit)) as [Hp Hnext];
    [by rewrite Hdec|done|done|].
  rewrite Hnext, Hp, <-Hsid. unfold page_of. by rewrite Hdec.
Qed.

(** ** The store below the port *)

Lemma reduced_catalog es pj : reduceSessionEntriesV3 es = Ok pj → ca_sessionId (pj_catalog pj) = sn_sessionId (pj_snapshot pj).
Proof. intros (first & data & st & _ & Hp)%reduce_session_Ok. unfold project_session in Hp. by inv_ok. Qed.
Lemma reduced_session sid cs pj :
  journal_ok sid cs → cs ≠ [] → reduceSessionEntriesV3 (commit_entries cs) = Ok pj → sn_sessionId (pj_snapshot pj) = sid.
Proof.
  intros Hok Hne Hr. destruct (reduced_order _ _ Hr) as (Hseq & _ & Hes).
  destruct (commit_entries cs) as [|e es] eqn:Ees; [done|]. destruct (Hseq 0%nat e eq_refl) as [_ <-].
  apply (journal_numbered sid cs Hok 0%nat). by rewrite Ees.
Qed.
Lemma loadCachedProjection_kept sid cs d :
  journal d sid cs → projected d sid cs → cs ≠ [] → SAFE_ID sid = true →
  loadCachedProjection true sid d = ([], reduceSessionEntriesV3 (commit_entries cs)).
Proof.
  intros [Hok _] Hp Hne Hsafe. destruct (Hp Hne) as (pj & Hr & Hfile). unfold loadCachedProjection, run.
  rewrite (bind_pure _ _ tt) by done. rewrite (bind_pure _ _ (marker_file sid)) by (unfold lift; by rewrite projectionPath_safe).
  rewrite (bind_pure _ _ (Some (projection_cache (createRecord <$> cs) pj))) by (unfold gets; by rewrite Hfile).
  rewrite (bind_pure _ _ (projection_cache (createRecord <$> cs) pj)); [by rewrite Hr|].
  unfold lift, validateProjectionCache. cbn [pc_projection projection_cache].
  rewrite (reduced_catalog _ _ Hr), (reduced_session sid cs pj) by done. by rewrite bool_decide_eq_false_2 by auto.
Qed.

Definition SessionCommitReceipt_js (receipt : SessionCommitReceiptV3) : jsval := JObj
  [("sessionId", JStr (rc_sessionId receipt)); ("commitId", JStr (rc_commitId receipt));
   ("idempotencyKey", JStr (rc_idempotencyKey receipt)); ("revision", JInt (rc_revision receipt));
   ("firstSequence", JInt (rc_firstSequence receipt)); ("lastSequence", JInt (rc_lastSequence receipt));
   ("entryIds", JStrs (rc_entryIds receipt)); ("checksum", JStr (rc_checksum receipt));
   ("duplicate", JBool (rc_duplicate receipt))]%string.
Lemma validateReceipt_created c duplicate :
  validateReceipt (SessionCommitReceipt_js (sessionCommitReceiptV3 c duplicate)) c = Ok (sessionCommitReceiptV3 c duplicate).
Proof.
  unfold validateReceipt, SessionCommitReceipt_js, sessionCommitReceiptV3, JStrs.
  cbn [mbind res_bind rc_sessionId rc_commitId rc_idempotencyKey rc_revision rc_firstSequence rc_lastSequence rc_entryIds
    rc_checksum rc_duplicate get String.eqb Ascii.eqb Bool.eqb js_str js_arr is_arr is_bool js_bool].
  change (onlyKeys _ _) with true. unfold is_str, is_int, JInt. rewrite !bool_decide_eq_true_2, !Z.eqb_refl by done.
  rewrite !length_fmap, Nat.eqb_refl. cbn [negb orb].
  replace (existsb _ _) with false.
  - rewrite <-list_fmap_compose. change (js_str ∘ JStr) with (@id string). by rewrite list_fmap_id.
  - symmetry. apply existsb_false. induction (sc_entries c) as [|e es IH]; constructor; [|exact IH].
    apply negb_false_iff, bool_decide_eq_true_2. done.
Qed.

(** The adapter of the port: its calls find the disks in their order. *)
Definition jsonl_store (disk : nat → Disk) : SessionJournalCommitStoreV3 := {|
  store_readEntries k request := (JsonlStore.readEntries true request (disk k)).2;
  store_appendCommit commit :=
    SessionCommitReceipt_js <$> (JsonlStore.appendCommit true no_fault (SessionCommit_js commit) (disk 0%nat)).2;
  store_cachedProjection := Some (λ sessionId, (loadCachedProjection true sessionId (disk 0%nat)).2);
|}.

Lemma journal_bounds sid cs :
  journal_ok sid cs → cs ≠ [] →
  Z.of_nat (length (commit_entries cs)) ≤ MAX_SAFE_INTEGER ∧ 0 ≤ revision_of cs ≤ MAX_SAFE_INTEGER.
Proof.
  intros Hok Hne. pose proof (jo_reduced _ _ Hok Hne) as Hr.
  destruct (reduceSessionEntriesV3 (commit_entries cs)) as [pj|] eqn:Hred; [|done].
  apply reduce_session_Ok in Hred as (first & data & st & (rest & -> & Hlen & _)%reduce_state_Ok & _).
  unfold MAX_ENTRIES, MAX_SAFE_INTEGER in *. split; [lia|]. unfold revision_of.
  destruct (last (commit_entries cs)) as [e|] eqn:He; [|cbn; lia]. rewrite last_lookup in He. apply list_elem_of_lookup_2 in He.
  pose proof (journal_decoded sid cs (jo_commits _ _ Hok)) as Hdec%mapM_Ok.
  destruct (Forall2_r_elem _ _ _ _ Hdec He) as (v & _ & Hv). apply validateSessionEntryV3_envelope in Hv as [[_ _ _ Hrev _ _ _] _].
  unfold positive_ok, MAX_SAFE_INTEGER in Hrev. cbn. lia.
Qed.

End Read.
