(* ===== verification/JsonlCatalog.v ===== *)
(** * The catalog of the JSONL store

    The catalog file and the log of its deltas are read back, and what they say of a
    session is what its last delta said. *)

From S2P Require Import Prelude Js JsOps Json JsonSpec CanonicalJson Plan Session SessionReducer SessionInv SessionEntry SessionCommit SessionPort Jsonl JsonlStore JsonlLines JsonlJournal JsonlCrash JsonlAppend.
Local Open Scope Z_scope.

Section Catalog.
Context `{JsEngine} `{JsCrypto} `{RP : ReviewPlanContract} `{NodeHost}.

Definition catalog_ok (c : SessionCatalogProjectionV3) : Prop := isCatalogProjection (SessionCatalog_js c) = Some c.
(** A delta that a line can hold. *)
Record delta_ok (r : CatalogDeltaRecordV3) : Prop := {
  do_catalog : catalog_ok (cdr_catalog r);
  do_storable : storable (CatalogDeltaRecord_js r) = true;
}.
Definition delta_line (r : CatalogDeltaRecordV3) : string := text_of (CatalogDeltaRecord_js r).
Definition delta_bytes (rs : list CatalogDeltaRecordV3) : string := lines_bytes (delta_line <$> rs).

Lemma validateCatalogDeltaRecord_created r : catalog_ok (cdr_catalog r) → validateCatalogDeltaRecord (CatalogDeltaRecord_js r) = Ok r.
Proof.
  intros Hc. unfold validateCatalogDeltaRecord, CatalogDeltaRecord_js, delta_payload. cbn [app mbind res_bind].
  cbn [get String.eqb Ascii.eqb Bool.eqb]. change (onlyKeys _ _) with true. change (is_int (JInt FORMAT_VERSION) FORMAT_VERSION) with true.
  cbn [negb orb fail_if mbind res_bind]. rewrite Hc. cbn [mbind res_bind is_bool is_string negb orb fail_if is_str].
  rewrite bool_decide_eq_true_2 by done. cbn [negb fail_if mbind res_bind js_bool]. by destruct r.
Qed.

Lemma delta_line_one_line r : delta_ok r → one_line (delta_line r).
Proof. intros [_ Hs]. by apply line_text_one_line, storable_line. Qed.
Lemma parse_delta_lines rs : Forall delta_ok rs → parse_deltas (delta_line <$> rs) = Ok rs.
Proof.
  induction 1 as [|r rs [Hc Hs] _ IH]; [done|]. cbn [fmap list_fmap parse_deltas].
  pose proof (storable_line _ Hs) as Hl. fold (delta_line r) in Hl.
  pose proof (stored_value _ Hs) as Hp. fold (delta_line r) in Hp.
  rewrite bool_decide_eq_false_2 by (rewrite (line_text_strip _ Hl), (utf8_decode_valid _ (proj2 Hl)); done).
  rewrite Hp. cbn [mbind res_bind]. rewrite (validateCatalogDeltaRecord_created r Hc). cbn [mbind res_bind].
  change (list_fmap _ _ delta_line rs) with (delta_line <$> rs). rewrite IH. done.
Qed.
Lemma delta_bytes_snoc rs r : delta_bytes (rs ++ [r]) = delta_bytes rs +:+ terminated (delta_line r).
Proof.
  unfold delta_bytes. rewrite fmap_app, lines_bytes_app. f_equal.
  change (lines_bytes (delta_line <$> [r])) with (terminated (delta_line r) +:+ ""). apply string_app_nil_r.
Qed.

(** ** The files of the catalog *)

Record cache_ok (base : CatalogCacheV3) : Prop := {
  co_sessions : Forall catalog_ok (cc_sessions base);
  co_recoverable : forallb SAFE_ID (cc_recoverableSessionIds base) = true;
}.
Lemma catalogs_of_created cs : Forall catalog_ok cs → catalogs_of (SessionCatalog_js <$> cs) = Ok cs.
Proof.
  intros Hall. unfold catalogs_of. apply mapM_Ok. induction Hall as [|c cs Hc _ IH]; constructor; [|exact IH].
  unfold catalog_ok in Hc. by rewrite Hc.
Qed.
Lemma validateCatalogCache_created base :
  cache_ok base → validateCatalogCache (CatalogCache_js base) = Ok (base, catalog_checksum base).
Proof.
  intros [Hs Hr]. unfold validateCatalogCache, CatalogCache_js, catalog_payload, JStrs. cbn [app mbind res_bind].
  cbn [get String.eqb Ascii.eqb Bool.eqb]. change (onlyKeys _ _) with true. change (is_int (JInt FORMAT_VERSION) FORMAT_VERSION) with true.
  cbn [negb orb is_arr fail_if mbind res_bind js_arr]. rewrite (catalogs_of_created _ Hs). cbn [mbind res_bind].
  replace (forallb safeId (JStr <$> cc_recoverableSessionIds base)) with true.
  2:{ symmetry. apply forallb_true, Forall_fmap. apply forallb_true in Hr. exact Hr. }
  cbn [negb orb is_string fail_if mbind res_bind is_str js_str].
  unfold catalog_checksum at 1. unfold catalog_payload, JStrs. rewrite bool_decide_eq_true_2 by done. cbn [negb fail_if mbind res_bind].
  do 2 f_equal. destruct base as [sessions ids]. cbn. f_equal. rewrite <-list_fmap_compose.
  change (js_str ∘ JStr) with (@id string). apply list_fmap_id.
Qed.
Lemma validateCatalogState_created sum : validateCatalogState (catalogState sum) sum = Ok tt.
Proof.
  unfold validateCatalogState, catalogState, with_checksum, state_payload. cbn [app mbind res_bind].
  cbn [get String.eqb Ascii.eqb Bool.eqb]. change (onlyKeys _ _) with true. change (is_int (JInt FORMAT_VERSION) FORMAT_VERSION) with true.
  unfold is_str. by rewrite !bool_decide_eq_true_2.
Qed.

(** The disk has the catalog [base] and the deltas [rs], with a torn line or not. *)
Record catalog (d : Disk) (base : CatalogCacheV3) (rs : list CatalogDeltaRecordV3) (tail : string) : Prop := {
  cl_base : dk_catalog d = Some (CatalogCache_js base);
  cl_state : dk_state d = Some (catalogState (catalog_checksum base));
  cl_delta : dk_delta d = Some (delta_bytes rs +:+ tail);
  cl_cache : cache_ok base;
  cl_deltas : Forall delta_ok rs;
  cl_tail : one_line tail;
}.

Lemma readCatalogUnlocked_kept d base rs tail :
  catalog d base rs tail →
  ∃ ws, readCatalogUnlocked d = (ws, Ok (merge_deltas base rs)) ∧
    ws = (if Nat.ltb 0 (String.length tail) then [truncate_delta (String.length (delta_bytes rs))] else []) ∧
    catalog (apply_writes d ws) base rs "".
Proof.
  intros [Hb Hs Hd Hc Hrs Ht].
  assert (readCatalogDeltaUnlocked d = ([], Ok (rs, String.length (delta_bytes rs),
    (String.length (delta_bytes rs) + String.length tail)%nat))) as Hread.
  { unfold readCatalogDeltaUnlocked. rewrite (bind_pure _ _ (Some (delta_bytes rs +:+ tail))) by (unfold gets; by rewrite Hd).
    rewrite (bind_pure _ _ (delta_bytes rs +:+ tail)) by done.
    assert (split_lines (delta_bytes rs +:+ tail) = (delta_line <$> rs, tail)) as ->.
    { apply split_lines_bytes; [|done]. apply Forall_fmap. eapply Forall_impl; [exact Hrs|]. exact delta_line_one_line. }
    rewrite (bind_pure _ _ rs) by (unfold lift; by rewrite parse_delta_lines). rewrite string_app_length, Nat.add_sub. done. }
  unfold readCatalogUnlocked, read_value.
  rewrite (bind_pure _ _ (CatalogCache_js base)) by (rewrite (bind_pure _ _ (dk_catalog d)) by done; by rewrite Hb).
  rewrite (bind_pure _ _ (base, catalog_checksum base)) by (unfold lift; by rewrite validateCatalogCache_created).
  rewrite (bind_pure _ _ (catalogState (catalog_checksum base))) by (rewrite (bind_pure _ _ (dk_state d)) by done; by rewrite Hs).
  rewrite (bind_pure _ _ tt) by (unfold lift; by rewrite validateCatalogState_created).
  rewrite (bind_pure _ _ _ d Hread). cbn [fst snd]. destruct (Nat.ltb _ _) eqn:Hlt.
  - exists [truncate_delta (String.length (delta_bytes rs))]. split; [done|].
    apply Nat.ltb_lt in Hlt. rewrite (proj2 (Nat.ltb_lt 0 (String.length tail))) by lia. split; [done|]. split; try done.
    cbn [apply_writes foldl apply_write with_catalog dk_delta]. rewrite Hd. cbn [fmap option_fmap option_map].
    by rewrite substring_prefix, string_app_nil_r.
  - apply Nat.ltb_ge in Hlt. destruct tail as [|a tail]; [|cbn [String.length] in Hlt; lia].
    exists []. by repeat (split; [done|]).
Qed.
Lemma catalog_appended d base rs tail r :
  catalog d base rs "" → delta_ok r → (∃ rest, terminated (delta_line r) = tail +:+ rest) →
  catalog (apply_write d (append_delta tail)) base rs tail ∨
  tail = terminated (delta_line r) ∧ catalog (apply_write d (append_delta tail)) base (rs ++ [r]) "".
Proof.
  intros [Hb Hs Hd Hc Hrs Ht] Hr Hpart. rewrite string_app_nil_r in Hd.
  destruct (torn_terminated _ _ (delta_line_one_line r Hr) Hpart) as [->|Hone].
  - right. split; [done|]. split; try done; [|by apply Forall_app; rewrite Forall_singleton].
    cbn [apply_write with_catalog dk_delta]. rewrite Hd. cbn. by rewrite string_app_nil_r, delta_bytes_snoc.
  - left. split; try done. cbn [apply_write with_catalog dk_delta]. by rewrite Hd.
Qed.

(** ** What the catalog says of a session *)

Definition entry_of (acc : list (string * SessionCatalogProjectionV3) * list string) (sid : string) :
    option SessionCatalogProjectionV3 * bool := (mget sid acc.1, memb sid acc.2).
Lemma merge_delta_entry acc r sid :
  entry_of (merge_delta acc r) sid =
    if decide (ca_sessionId (cdr_catalog r) = sid) then (Some (cdr_catalog r), cdr_recoverable r) else entry_of acc sid.
Proof.
  unfold entry_of, merge_delta, set_catalog. cbn [fst snd]. case_decide as Hs.
  - subst sid. rewrite mget_mset_eq. f_equal. destruct (cdr_recoverable r); unfold set_add, set_delete.
    + destruct (memb _ acc.2) eqn:Hm; [done|]. apply memb_true. set_solver.
    + apply memb_false. rewrite list_elem_of_In, List.filter_In. intros [_ Hn]. by rewrite String.eqb_refl in Hn.
  - rewrite mget_mset_ne by done. f_equal. destruct (cdr_recoverable r); unfold set_add, set_delete.
    + destruct (memb (ca_sessionId _) acc.2); [done|]. apply eq_true_iff_eq. rewrite !memb_true. set_solver.
    + apply eq_true_iff_eq. rewrite !memb_true, !list_elem_of_In, List.filter_In. 
      destruct (String.eqb_spec (ca_sessionId (cdr_catalog r)) sid); [done|]. cbn. tauto.
Qed.
Definition catalog_entry (base : CatalogCacheV3) (rs : list CatalogDeltaRecordV3) (sid : string) :=
  entry_of (merged base rs) sid.
Lemma catalog_entry_snoc base rs r sid :
  catalog_entry base (rs ++ [r]) sid =
    if decide (ca_sessionId (cdr_catalog r) = sid) then (Some (cdr_catalog r), cdr_recoverable r) else catalog_entry base rs sid.
Proof. unfold catalog_entry, merged. rewrite foldl_app. apply merge_delta_entry. Qed.

(** ** What is listed *)

Lemma catalog_ok_safe c : catalog_ok c → SAFE_ID (ca_sessionId c) = true.
Proof.
  unfold catalog_ok, isCatalogProjection, SessionCatalog_js. cbn [app]. destruct (SAFE_ID (ca_sessionId c)) eqn:Hs; [done|].
  cbn [get String.eqb Ascii.eqb Bool.eqb safeId]. rewrite Hs, andb_false_r. done.
Qed.
Record merged_wf (acc : list (string * SessionCatalogProjectionV3) * list string) : Prop := {
  mw_keys : NoDup acc.1.*1;
  mw_values : Forall (λ kc, kc.1 = ca_sessionId kc.2 ∧ catalog_ok kc.2) acc.1;
}.
Lemma set_catalog_wf m ids c ids' : merged_wf (m, ids) → catalog_ok c → merged_wf (set_catalog m c, ids').
Proof.
  intros [Hk Hv] Hc. unfold set_catalog. split; cbn [fst] in *; [by apply mset_NoDup|]. rewrite Forall_forall in *.
  intros [k x] [[-> ->]|Hin]%mset_elem_weak; [done|by apply (Hv (k, x))].
Qed.
Lemma merged_deltas_wf base rs : cache_ok base → Forall delta_ok rs → merged_wf (merged base rs).
Proof.
  intros [Hs _] Hrs. unfold merged.
  assert (merged_wf (mof ((λ c, (ca_sessionId c, c)) <$> cc_sessions base), remove_dups (cc_recoverableSessionIds base))) as Hbase.
  { revert Hs. generalize (remove_dups (cc_recoverableSessionIds base)) as ids, (cc_sessions base) as cs. intros ids cs Hs.
    induction cs as [|c cs IH] using rev_ind; [split; constructor|].
    apply Forall_app in Hs as [Hs Hc%Forall_inv]. rewrite fmap_app. cbn [fmap list_fmap]. rewrite mof_snoc.
    eapply set_catalog_wf; [by apply IH|done]. }
  revert Hbase. generalize (mof ((λ c, (ca_sessionId c, c)) <$> cc_sessions base), remove_dups (cc_recoverableSessionIds base)) as acc.
  induction Hrs as [|r rs [Hr _] _ IH]; intros acc Hacc; [done|]. cbn [foldl]. apply IH. destruct acc as [m ids].
  unfold merge_delta. cbn [fst snd]. by eapply set_catalog_wf.
Qed.

Lemma listCatalog_kept d base rs :
  catalog d base rs "" →
  ∃ l, listCatalog true d = ([], Ok l) ∧
    ∀ c, c ∈ l ↔ ∃ sid, SAFE_ID sid = true ∧ (catalog_entry base rs sid).1 = Some c.
Proof.
  intros Hc. destruct (readCatalogUnlocked_kept _ _ _ _ Hc) as (ws & Hread & -> & _). cbn [String.length Nat.ltb Nat.leb] in Hread.
  exists (sortCatalog (cc_sessions (merge_deltas base rs))). split.
  { unfold listCatalog, run. rewrite (bind_pure _ _ tt) by done. by rewrite (bind_pure _ _ _ d Hread). }
  intros c. unfold merge_deltas, catalogCache, sortCatalog, catalog_entry, entry_of. cbn [cc_sessions fst].
  rewrite !js_sort_elem, list_elem_of_fmap. destruct (merged_deltas_wf base rs (cl_cache _ _ _ _ Hc) (cl_deltas _ _ _ _ Hc)) as [Hk Hv].
  rewrite Forall_forall in Hv. split.
  - intros ([k x] & -> & Hin). destruct (Hv _ Hin) as [Hkx Hok]. cbn in *. subst k. exists (ca_sessionId x).
    split; [by apply catalog_ok_safe|]. by apply mget_elem.
  - intros (sid & _ & Hg). apply mget_elem_inv in Hg. by exists (sid, c).
Qed.
Lemma listRecoverable_kept d base rs :
  catalog d base rs "" →
  ∃ ids, listRecoverableSessionIds true d = ([], Ok ids) ∧ ∀ sid, sid ∈ ids ↔ (catalog_entry base rs sid).2 = true.
Proof.
  intros Hc. destruct (readCatalogUnlocked_kept _ _ _ _ Hc) as (ws & Hread & -> & _). cbn [String.length Nat.ltb Nat.leb] in Hread.
  exists (sort_texts (cc_recoverableSessionIds (merge_deltas base rs))). split.
  { unfold listRecoverableSessionIds, run. rewrite (bind_pure _ _ tt) by done. by rewrite (bind_pure _ _ _ d Hread). }
  intros sid. unfold merge_deltas, catalogCache, sort_texts, catalog_entry, entry_of. cbn [cc_recoverableSessionIds snd].
  by rewrite !js_sort_elem, elem_of_remove_dups, memb_true.
Qed.
End Catalog.
