(* ===== verification/JsonlRecovery.v ===== *)
(** * Recovery of the JSONL store

    The invariant of the whole store, which a crash during an append or during the
    recovery keeps, and which the next [initialize] turns into a store where every
    projection and the catalog are those of the journals. *)

From S2P Require Import Prelude Js JsOps Json JsonSpec CanonicalJson Plan Session SessionReducer SessionInv SessionEntry SessionCommit SessionPort Jsonl JsonlStore JsonlLines JsonlJournal JsonlCrash JsonlAppend JsonlSafe JsonlRead JsonlCatalog.
Local Open Scope Z_scope.

(** ** Sequences of writes *)

(** [C] holds before and after each write, and after a torn one. *)
Fixpoint safe (C : Disk → Prop) (d : Disk) (ws : list write) : Prop :=
  C d ∧ match ws with
        | [] => True
        | w :: ws => (∀ part, torn_write part w → C (apply_write d part)) ∧ safe C (apply_write d w) ws
        end.
Lemma safe_crash C d ws crash : safe C d ws → crash_of ws crash → C (apply_writes d crash).
Proof.
  revert d crash. induction ws as [|w ws IH]; intros d crash [Hd Hs] Hc; [by apply crash_of_nil in Hc as ->|].
  destruct Hs as [Ht Hs]. inversion Hc as [|part w' k Hp|w' k ws' Hk]; subst; [done|by apply Ht|]. by apply (IH (apply_write d w)).
Qed.
Lemma safe_app C d a b : safe C d a → safe C (apply_writes d a) b → safe C d (a ++ b).
Proof. revert d. induction a as [|w a IH]; intros d Ha Hb; [done|]. destruct Ha as (Hd & Ht & Ha). split; [done|]. split; [done|by apply IH]. Qed.
Lemma safe_here C d ws : safe C d ws → C d.
Proof. destruct ws; by intros [? _]. Qed.
Lemma safe_end C d ws : safe C d ws → C (apply_writes d ws).
Proof. intros Hs. eapply safe_crash; [exact Hs|apply crash_of_all]. Qed.

Section Recovery.
Context `{JsEngine} `{JsCrypto} `{RP : ReviewPlanContract} `{NodeHost}.

(** ** The invariant *)

(** What the catalog should say of the journal. *)
Definition expected (cs : list SessionCommitV3) : option SessionCatalogProjectionV3 * bool :=
  match reduceSessionEntriesV3 (commit_entries cs) with
  | Ok projection => (Some (pj_catalog projection), projectionHasRecoverableRun projection)
  | Err _ => (None, false)
  end.
Lemma expected_nil : expected [] = (None, false).
Proof. done. Qed.

(** A session is marked, or its projection and its catalog entry are those of its
    journal; a session without a commit has no entry. *)
Record session_ok (d : Disk) (base : CatalogCacheV3) (rs : list CatalogDeltaRecordV3) (sid : string) (cs : list SessionCommitV3) : Prop := {
  sk_journal : journal d sid cs;
  sk_derived : marked d sid ∨ projected d sid cs ∧ catalog_entry base rs sid = expected cs;
  sk_new : cs = [] → catalog_entry base rs sid = (None, false);
}.
Definition journals := string → list SessionCommitV3.
Record store (d : Disk) (J : journals) (base : CatalogCacheV3) (rs : list CatalogDeltaRecordV3) (tail : string) : Prop := {
  so_authority : dk_authority d = Some authorityRecord;
  so_catalog : catalog d base rs tail;
  so_sessions : ∀ sid, SAFE_ID sid = true → session_ok d base rs sid (J sid);
  so_pending : ∀ name marker, dk_pending d !! name = Some marker →
    ∃ sid, SAFE_ID sid = true ∧ name = marker_file sid ∧ marker = pendingProjection sid;
}.

(** The names of the files are the encodings of the sessions. *)
Context (Hbase64 : ∀ s, SAFE_ID s = true → base64url_decode (base64url s) = s).

Lemma string_app_inj_r (a b s : string) : a +:+ s = b +:+ s → a = b.
Proof.
  revert b. induction a as [|x a IH]; intros [|y b] Heq; [done| | |].
  - apply (f_equal String.length) in Heq. change (String y b +:+ s) with (String y (b +:+ s)) in Heq.
    change (EmptyString +:+ s) with s in Heq. cbn [String.length] in Heq. rewrite string_app_length in Heq. lia.
  - apply (f_equal String.length) in Heq. change (String x a +:+ s) with (String x (a +:+ s)) in Heq.
    change (EmptyString +:+ s) with s in Heq. cbn [String.length] in Heq. rewrite string_app_length in Heq. lia.
  - change (String x (a +:+ s) = String y (b +:+ s)) in Heq. injection Heq as -> Heq. f_equal. by apply IH.
Qed.
Lemma string_app_inj_l (a b s : string) : s +:+ a = s +:+ b → a = b.
Proof. induction s as [|x s IH]; [done|]. change (String x (s +:+ a) = String x (s +:+ b) → a = b). intros [= Heq]. by apply IH. Qed.
Lemma base64url_inj s t : SAFE_ID s = true → SAFE_ID t = true → base64url s = base64url t → s = t.
Proof. intros Hs Ht Heq. by rewrite <-(Hbase64 s Hs), Heq, Hbase64. Qed.
Lemma commit_file_inj s t : SAFE_ID s = true → SAFE_ID t = true → commit_file s = commit_file t → s = t.
Proof. intros Hs Ht Heq%string_app_inj_r. by apply base64url_inj. Qed.
Lemma marker_file_inj s t : SAFE_ID s = true → SAFE_ID t = true → marker_file s = marker_file t → s = t.
Proof. intros Hs Ht Heq%string_app_inj_r. by apply base64url_inj. Qed.

(** ** Steps of one session *)

Section Step.
Context (sid : string) (Hsafe : SAFE_ID sid = true).

(** A step touches the files of one session and its entry in the catalog. *)
Lemma store_step d d' J J' base rs rs' tail tail' :
  store d J base rs tail → others d d' sid → (∀ s, s ≠ sid → J' s = J s) →
  dk_authority d' = dk_authority d → catalog d' base rs' tail' →
  (∀ s, s ≠ sid → catalog_entry base rs' s = catalog_entry base rs s) →
  (dk_pending d' !! marker_file sid = None ∨ marked d' sid) → session_ok d' base rs' sid (J' sid) →
  store d' J' base rs' tail'.
Proof.
  intros [Hauth Hcat Hses Hpend] (Hoc & Hop & Hom) HJ Ha Hcat' Hent Hmark Hsid. split.
  - by rewrite Ha.
  - done.
  - intros s Hs. destruct (decide (s = sid)) as [->|Hne]; [done|]. rewrite (HJ s Hne).
    destruct (Hses s Hs) as [[Hok (t & Ht & Hb)] Hd Hn].
    assert (marker_file s ≠ marker_file sid) as Hm by (intros Heq; by apply marker_file_inj in Heq).
    split.
    + split; [done|]. exists t. split; [done|]. rewrite Hoc; [done|]. intros Heq. by apply commit_file_inj in Heq.
    + unfold marked, projected in *. rewrite Hom, Hop, Hent by done. exact Hd.
    + by rewrite Hent.
  - intros name marker Hl. destruct (decide (name = marker_file sid)) as [->|Hne]; [|apply (Hpend name); by rewrite <-Hom].
    exists sid. split_and!; [done|done|]. destruct Hmark as [Hm|Hm]; [congruence|]. unfold marked in Hm. congruence.
Qed.

Lemma marker_cases d J base rs tail : store d J base rs tail → dk_pending d !! marker_file sid = None ∨ marked d sid.
Proof.
  intros [_ _ _ Hp]. destruct (dk_pending d !! marker_file sid) as [m|] eqn:Hm; [right|by left].
  destruct (Hp _ _ Hm) as (s & Hs & Heq & ->). apply marker_file_inj in Heq as <-; done.
Qed.

Lemma store_mark d J base rs tail :
  store d J base rs tail →
  let d' := apply_write d (write_pending (marker_file sid) (pendingProjection sid)) in store d' J base rs tail ∧ marked d' sid.
Proof.
  intros Hst d'. pose proof (mark_written sid d) as Hm. split; [|done]. destruct Hst as [Ha Hc Hs Hp] eqn:E.
  apply (store_step d d' J J base rs rs tail tail); try done; [by apply others_write|by destruct Hc|by right|].
  destruct (Hs sid Hsafe) as [Hj _ Hn]. split; [by apply (journal_same _ d)|by left|done].
Qed.
Lemma store_project d J base rs tail cache :
  store d J base rs tail → marked d sid →
  let d' := apply_write d (write_projection (marker_file sid) cache) in store d' J base rs tail ∧ marked d' sid.
Proof.
  intros Hst Hm d'. assert (marked d' sid) as Hm' by done. split; [|done]. destruct Hst as [Ha Hc Hs Hp] eqn:E.
  apply (store_step d d' J J base rs rs tail tail); try done; [by apply others_write|by destruct Hc|by right|].
  destruct (Hs sid Hsafe) as [Hj _ Hn]. split; [by apply (journal_same _ d)|by left|done].
Qed.
Lemma store_unmark d J base rs tail :
  store d J base rs tail → projected d sid (J sid) → catalog_entry base rs sid = expected (J sid) →
  store (apply_write d (unlink_pending (marker_file sid))) J base rs tail.
Proof.
  intros [Ha Hc Hs Hp] Hpr He. set (d' := apply_write _ _).
  apply (store_step d d' J J base rs rs tail tail); try done; [by apply others_write|by destruct Hc| |].
  - left. cbn [d' apply_write with_pending dk_pending]. by rewrite lookup_delete_eq.
  - destruct (Hs sid Hsafe) as [Hj _ Hn]. split; [by apply (journal_same _ d)|by right|done].
Qed.
Lemma store_delta d J base rs r part :
  store d J base rs "" → marked d sid → J sid ≠ [] → delta_ok r → ca_sessionId (cdr_catalog r) = sid →
  (∃ rest, terminated (delta_line r) = part +:+ rest) →
  let d' := apply_write d (append_delta part) in
  store d' J base rs part ∨ part = terminated (delta_line r) ∧ store d' J base (rs ++ [r]) "".
Proof.
  intros [Ha Hc Hs Hp] Hm Hne Hr Hid Hpart d'. destruct (Hs sid Hsafe) as [Hj _ Hn].
  destruct (catalog_appended d base rs part r Hc Hr Hpart) as [Hc'|[-> Hc']]; [left|right; split; [done|]].
  - apply (store_step d d' J J base rs rs "" part); try done; [by right|].
    split; [by apply (journal_same _ d)|by left|done].
  - apply (store_step d d' J J base rs (rs ++ [r]) "" ""); try done; [|by right|].
    + intros s Hne'. rewrite catalog_entry_snoc, decide_False by congruence. done.
    + split; [by apply (journal_same _ d)|by left|done].
Qed.
Lemma store_truncate d J base rs tail size :
  store d J base rs tail → bytes_of sid (apply_write d (truncate_commits (commit_file sid) size)) = journal_bytes (J sid) →
  store (apply_write d (truncate_commits (commit_file sid) size)) J base rs tail.
Proof.
  intros Hst Hb. pose proof (marker_cases _ _ _ _ _ Hst) as Hm. destruct Hst as [Ha Hc Hs Hp]. set (d' := apply_write _ _) in *.
  apply (store_step d d' J J base rs rs tail tail); try done; [by apply others_write|by destruct Hc|].
  destruct (Hs sid Hsafe) as [[Hok _] Hd Hn]. split; [by apply journal_clean|done|done].
Qed.
(** The journals with one more commit. *)
Definition extended (J : journals) (c : SessionCommitV3) : journals := λ s, if decide (s = sid) then J sid ++ [c] else J s.
Lemma store_record d J base rs c part :
  store d J base rs "" → marked d sid → extends sid (J sid) c → bytes_of sid d = journal_bytes (J sid) →
  (∃ rest, terminated (record_line c) = part +:+ rest) →
  let d' := apply_write d (append_commits (commit_file sid) part) in
  store d' J base rs "" ∨ part = terminated (record_line c) ∧ store d' (extended J c) base rs "".
Proof.
  intros [Ha Hc Hs Hp] Hm Hex Hb Hpart d'. destruct (Hs sid Hsafe) as [[Hok _] Hd Hn].
  destruct (journal_appended sid d (J sid) c part Hok Hex Hb Hpart) as [Hj'|[-> Hj']]; [left|right; split; [done|]].
  - apply (store_step d d' J J base rs rs "" ""); try done; [by apply others_write|by destruct Hc|by right].
  - apply (store_step d d' J (extended J c) base rs rs "" ""); try done; [by apply others_write| |by destruct Hc|by right|].
    + intros s Hne. unfold extended. by rewrite decide_False.
    + unfold extended. rewrite decide_True by done. split; [done|by left|by destruct (J sid)].
Qed.

(** ** Sequences of steps *)

Definition kept (J : journals) (base : CatalogCacheV3) (d : Disk) : Prop := ∃ rs tail, store d J base rs tail.

(** The projection, its delta and the removal of the marker. *)
Lemma safe_finish (C : Disk → Prop) d J base rs projection :
  (∀ d', kept J base d' → C d') → store d J base rs "" → marked d sid → J sid ≠ [] →
  reduceSessionEntriesV3 (commit_entries (J sid)) = Ok projection → delta_ok (catalogDeltaRecord projection) →
  let ws := refresh_writes sid (J sid) projection ++ [unlink_pending (marker_file sid)] in
  safe C d ws ∧ store (apply_writes d ws) J base (rs ++ [catalogDeltaRecord projection]) "" ∧
  dk_pending (apply_writes d ws) = delete (marker_file sid) (dk_pending d).
Proof.
  intros HC Hst Hm Hne Hred Hdelta ws. set (r := catalogDeltaRecord projection).
  set (w1 := write_projection (marker_file sid) (projection_cache (createRecord <$> J sid) projection)).
  set (w2 := append_delta (terminated (delta_line r))). set (w3 := unlink_pending (marker_file sid)).
  change ws with [w1; w2; w3].
  assert (ca_sessionId (cdr_catalog r) = sid) as Hid.
  { change (cdr_catalog r) with (pj_catalog projection). rewrite (reduced_catalog _ _ Hred).
    apply (reduced_session sid (J sid)); [|done|done]. destruct Hst as [_ _ Hs _]. by destruct (Hs sid Hsafe) as [[Hok _] _ _]. }
  destruct (store_project d J base rs "" (projection_cache (createRecord <$> J sid) projection) Hst Hm) as [Hst1 Hm1]. fold w1 in Hst1, Hm1.
  pose proof (λ part, store_delta _ J base rs r part Hst1 Hm1 Hne Hdelta Hid) as Hpart.
  assert (store (apply_write (apply_write d w1) w2) J base (rs ++ [r]) "") as Hst2.
  { destruct (Hpart (terminated (delta_line r))) as [Hx|[_ Hx]]; [exists EmptyString; by rewrite string_app_nil_r| |exact Hx].
    exfalso. destruct Hx as [_ Hc _ _]. pose proof (cl_tail _ _ _ _ Hc) as Ht. unfold terminated, one_line in Ht.
    rewrite string_forallb_app in Ht. apply andb_true_iff in Ht as [_ Ht]. discriminate Ht. }
  assert (store (apply_write (apply_write (apply_write d w1) w2) w3) J base (rs ++ [r]) "") as Hst3.
  { apply store_unmark; [done| |].
    - intros _. exists projection. split; [done|]. cbn [apply_write with_projections with_catalog dk_projections w1 w2]. by rewrite lookup_insert_eq.
    - rewrite catalog_entry_snoc, decide_True by done. unfold expected. by rewrite Hred. }
  assert (∀ d' rs' tail', store d' J base rs' tail' → C d') as Hc by (intros; apply HC; by do 2 eexists).
  split_and!; [|exact Hst3|done]. cbn [safe]. split_and!; try first [exact I | by eapply Hc].
  - by inversion 1.
  - intros part Ht. inversion Ht as [|part' rest Heq]; subst. destruct (Hpart part') as [Hx|[-> Hx]]; [by exists rest|by eapply Hc|by eapply Hc].
  - by inversion 1.
Qed.

(** Cutting off a torn record. *)
Lemma safe_repair (C : Disk → Prop) d J base rs tail ws :
  (∀ d', kept J base d' → C d') → store d J base rs tail →
  ws = [] ∨ ws = [truncate_commits (commit_file sid) (String.length (journal_bytes (J sid)))] →
  bytes_of sid (apply_writes d ws) = journal_bytes (J sid) →
  safe C d ws ∧ store (apply_writes d ws) J base rs tail ∧ dk_pending (apply_writes d ws) = dk_pending d.
Proof.
  intros HC Hst [-> | ->] Hclean.
  - assert (kept J base d) as Hk by by do 2 eexists. split; [split; [by apply HC|done]|done].
  - pose proof (store_truncate d J base rs tail _ Hst Hclean) as Hst'.
    split_and!; [|exact Hst'|done]. split; [by apply HC; do 2 eexists|]. split; [by inversion 1|].
    split; [by apply HC; do 2 eexists|done].
Qed.

Lemma validatePendingProjection_created : validatePendingProjection (pendingProjection sid) = Ok sid.
Proof.
  unfold validatePendingProjection, pendingProjection, with_checksum, pending_payload. cbn [app mbind res_bind].
  cbn [get String.eqb Ascii.eqb Bool.eqb]. change (onlyKeys _ _) with true. change (is_int (JInt FORMAT_VERSION) FORMAT_VERSION) with true.
  cbn [safeId]. rewrite Hsafe. unfold is_str, js_str. by rewrite bool_decide_eq_true_2.
Qed.

(** One marker. *)
Lemma recover_pending_safe d J base rs :
  store d J base rs "" → marked d sid →
  (∀ projection, reduceSessionEntriesV3 (commit_entries (J sid)) = Ok projection → delta_ok (catalogDeltaRecord projection)) →
  ∃ ws rs', recover_pending (marker_file sid) d = (ws, Ok tt) ∧ safe (kept J base) d ws ∧
    store (apply_writes d ws) J base rs' "" ∧ dk_pending (apply_writes d ws) = delete (marker_file sid) (dk_pending d).
Proof.
  intros Hst Hm Hdelta. pose proof (so_sessions _ _ _ _ _ Hst sid Hsafe) as [[Hok (cut & Ht & Hb)] _ Hnew].
  destruct (repairTail_kept sid Hsafe d (J sid) cut Hb) as (ws1 & Hr1 & Hws1 & Hb1).
  destruct (safe_repair (kept J base) d J base rs "" ws1 (λ _ Hk, Hk) Hst Hws1 Hb1) as (Hs1 & Hst1 & Hp1).
  unfold recover_pending. set (d1 := apply_writes d ws1) in *.
  assert (marked d1 sid) as Hm1 by (unfold marked; by rewrite Hp1).
  assert (∀ ws2, (if is_nil (createRecord <$> J sid) then mret tt
     else projection ← lift (reduceSessionEntriesV3 (flattenEntries (createRecord <$> J sid)));
          path ← lift (projectionPath sid);
          emit (write_projection path (projection_cache (createRecord <$> J sid) projection));;
          appendCatalogDeltaUnlocked projection) d1 = (ws2, Ok tt) →
    recover_pending (marker_file sid) d = (ws1 ++ ws2 ++ [unlink_pending (marker_file sid)], Ok tt)) as Hrun.
  { intros ws2 Hw2. unfold recover_pending, read_value.
    rewrite (bind_pure _ _ (pendingProjection sid)) by (rewrite (bind_pure _ _ (dk_pending d !! marker_file sid)) by done; by rewrite Hm).
    rewrite (bind_pure _ _ sid) by (unfold lift; by rewrite validatePendingProjection_created).
    rewrite (bind_pure _ _ (base64url sid)) by (unfold lift; by rewrite encode_safe).
    rewrite (bind_pure _ _ tt) by (unfold lift; by rewrite bool_decide_eq_false_2 by auto).
    rewrite (bind_pure _ _ (parsed_of (J sid) cut)) by by apply readJournal_kept.
    eapply bind_writes; [exact Hr1|]. cbn [prs_records parsed_of]. eapply bind_writes; [exact Hw2|done]. }
  destruct (decide (J sid = [])) as [Hnil|Hne].
  - exists (ws1 ++ [unlink_pending (marker_file sid)]), rs. split; [apply (Hrun []); by rewrite Hnil|].
    assert (store (apply_write d1 (unlink_pending (marker_file sid))) J base rs "") as Hst2.
    { apply store_unmark; [done|rewrite Hnil; by intros []|]. rewrite Hnil, expected_nil. by apply Hnew. }
    rewrite apply_writes_app. fold d1. split_and!; [|exact Hst2|cbn; by rewrite Hp1].
    apply safe_app; [done|]. fold d1. split; [by do 2 eexists|]. split; [by inversion 1|]. split; [by do 2 eexists|done].
  - pose proof (jo_reduced _ _ Hok Hne) as Hred. destruct (reduceSessionEntriesV3 (commit_entries (J sid))) as [pj|] eqn:Hr; [|done].
    destruct (safe_finish (kept J base) d1 J base rs pj (λ _ Hk, Hk) Hst1 Hm1 Hne Hr (Hdelta pj eq_refl)) as (Hs2 & Hst2 & Hp2).
    exists (ws1 ++ refresh_writes sid (J sid) pj ++ [unlink_pending (marker_file sid)]), (rs ++ [catalogDeltaRecord pj]).
    split; [|rewrite apply_writes_app; split_and!; [by apply safe_app|exact Hst2|fold d1; by rewrite Hp2, Hp1]].
    apply Hrun. destruct (is_nil _) eqn:Hnil; [by destruct (J sid)|]. fold (commit_entries (J sid)).
    rewrite (bind_pure _ _ pj) by (unfold lift; by rewrite Hr). rewrite (bind_pure _ _ (marker_file sid)) by (unfold lift; by rewrite projectionPath_safe).
    done.
Qed.

(** ** An append *)

Lemma append_safe d J base rs c :
  store d J base rs "" → extends sid (J sid) c → Forall (unrelated c) (J sid) →
  (∀ projection, reduceSessionEntriesV3 (commit_entries (J sid ++ [c])) = Ok projection → delta_ok (catalogDeltaRecord projection)) →
  ∃ ws rs', appendCommit true no_fault (SessionCommit_js c) d = (ws, Ok (sessionCommitReceiptV3 c false)) ∧
    safe (λ d', kept J base d' ∨ kept (extended J c) base d') d ws ∧ store (apply_writes d ws) (extended J c) base rs' "".
Proof.
  intros Hst Hex Hfresh Hdelta. pose proof (so_sessions _ _ _ _ _ Hst sid Hsafe) as [[Hok (cut & Ht & Hb)] _ _].
  set (C := λ d', kept J base d' ∨ kept (extended J c) base d').
  destruct (appendCommit_new no_fault sid Hsafe (λ _, eq_refl) (J sid) c cut d Hex Hok Ht Hb Hfresh) as (ws1 & pj & Hred & Hws1 & Hb1 & Hr).
  destruct (safe_repair C d J base rs "" ws1 (λ _ Hk, or_introl Hk) Hst Hws1 Hb1) as (Hs1 & Hst1 & Hp1).
  set (d1 := apply_writes d ws1) in *. destruct (store_mark d1 J base rs "" Hst1) as [Hst2 Hm2].
  set (w1 := write_pending (marker_file sid) (pendingProjection sid)) in *. set (d2 := apply_write d1 w1) in *.
  set (w2 := append_commits (commit_file sid) (terminated (record_line c))).
  pose proof (λ part, store_record d2 J base rs c part Hst2 Hm2 Hex Hb1) as Hpart.
  assert (store (apply_write d2 w2) (extended J c) base rs "") as Hst3.
  { destruct (Hpart (terminated (record_line c))) as [Hx|[_ Hx]]; [exists EmptyString; by rewrite string_app_nil_r| |exact Hx].
    exfalso. pose proof (so_sessions _ _ _ _ _ Hx sid Hsafe) as [[_ (t & Ht' & Hb')] _ _].
    assert (bytes_of sid (apply_write d2 w2) = journal_bytes (J sid) +:+ terminated (record_line c)) as Hb2.
    { unfold w2. rewrite bytes_appended. change (bytes_of sid d2) with (bytes_of sid d1). by rewrite Hb1. }
    change (bytes_of sid (apply_write d2 w2) = journal_bytes (J sid) +:+ t) in Hb'. rewrite Hb2 in Hb'. apply string_app_inj_l in Hb'.
    rewrite <-Hb' in Ht'. unfold terminated, one_line in Ht'. rewrite string_forallb_app in Ht'. apply andb_true_iff in Ht' as [_ Hf]. discriminate Hf. }
  assert (extended J c sid = J sid ++ [c]) as HJ by (unfold extended; by rewrite decide_True).
  destruct (safe_finish C (apply_write d2 w2) (extended J c) base rs pj) as (Hs4 & Hst4 & _);
    [by right|done|done|rewrite HJ; by destruct (J sid)|by rewrite HJ|by apply Hdelta|]. rewrite HJ in Hs4, Hst4.
  exists (ws1 ++ commit_writes sid (J sid) c pj), (rs ++ [catalogDeltaRecord pj]). split; [exact Hr|].
  rewrite apply_writes_app. fold d1. split; [|exact Hst4]. apply safe_app; [exact Hs1|]. fold d1.
  assert (∀ d' rs' tail', store d' J base rs' tail' → C d') as Hc by (intros; left; by do 2 eexists).
  split; [by eapply Hc|]. split; [by inversion 1|]. split; [by eapply Hc|]. split; [|exact Hs4].
  intros part Hp. inversion Hp as [name part' rest Heq|]; subst.
  destruct (Hpart part') as [Hx|[-> Hx]]; [by exists rest|by eapply Hc|right; by do 2 eexists].
Qed.
End Step.

(** ** The whole recovery *)

(** The order of a directory is any order of its names. *)
Context (Hreaddir : ∀ names, readdir_order names ≡ₚ names).

Lemma substring_suffix a b : String.substring (String.length a) (String.length b) (a +:+ b) = b.
Proof. induction a as [|x a IH]; [apply substring_all|exact IH]. Qed.
Lemma marker_file_json sid : endsWith ".json" (marker_file sid) = true.
Proof.
  unfold endsWith, marker_file. apply bool_decide_eq_true. rewrite string_app_length. cbn [String.length].
  replace (_ + 5 - 5)%nat with (String.length (base64url sid)) by lia. exact (substring_suffix (base64url sid) ".json").
Qed.

Section Loop.
Context (J : journals) (base : CatalogCacheV3).
Hypothesis Hdelta : ∀ sid projection, SAFE_ID sid = true →
  reduceSessionEntriesV3 (commit_entries (J sid)) = Ok projection → delta_ok (catalogDeltaRecord projection).

Lemma for_each_recovers names d rs :
  store d J base rs "" → NoDup names →
  (∀ name, name ∈ names → ∃ sid, SAFE_ID sid = true ∧ name = marker_file sid ∧ marked d sid) →
  ∃ ws rs', for_each recover_pending names d = (ws, Ok tt) ∧ safe (kept J base) d ws ∧ store (apply_writes d ws) J base rs' "" ∧
    ∀ name, dk_pending (apply_writes d ws) !! name = if decide (name ∈ names) then None else dk_pending d !! name.
Proof.
  revert d rs. induction names as [|name names IH]; intros d rs Hst Hnd Hall.
  { exists [], rs. split_and!; [done|split; [by do 2 eexists|done]|done|done]. }
  apply NoDup_cons in Hnd as [Hname Hnd]. destruct (Hall name) as (sid & Hs & -> & Hm); [left|].
  destruct (recover_pending_safe sid Hs d J base rs Hst Hm (λ pj, Hdelta sid pj Hs)) as (ws1 & rs1 & Hr1 & Hs1 & Hst1 & Hp1).
  destruct (IH (apply_writes d ws1) rs1 Hst1 Hnd) as (ws2 & rs2 & Hr2 & Hs2 & Hst2 & Hp2).
  { intros n Hn. destruct (Hall n) as (s & Hss & -> & Hms); [by right|]. exists s. split_and!; [done|done|].
    unfold marked. rewrite Hp1, lookup_delete_ne; [done|]. intros Heq. by rewrite Heq in Hname. }
  exists (ws1 ++ ws2), rs2. split; [|rewrite apply_writes_app; split_and!; [by apply safe_app|exact Hst2|]].
  - cbn [for_each]. eapply bind_writes; [exact Hr1|exact Hr2].
  - intros n. rewrite Hp2, Hp1. destruct (decide (n = marker_file sid)) as [->|Hne].
    + rewrite decide_False, decide_True by (done || left). apply lookup_delete_eq.
    + rewrite lookup_delete_ne by done. repeat case_decide; [done|set_solver|set_solver|done].
Qed.

Lemma recoverPendingUnlocked_safe d rs :
  store d J base rs "" →
  ∃ ws rs', recoverPendingUnlocked d = (ws, Ok tt) ∧ safe (kept J base) d ws ∧ store (apply_writes d ws) J base rs' "" ∧
    dk_pending (apply_writes d ws) = ∅.
Proof.
  intros Hst. pose proof (so_pending _ _ _ _ _ Hst) as Hpend.
  set (names := names_of (dk_pending d)).
  assert (∀ n, n ∈ names ↔ ∃ m, dk_pending d !! n = Some m) as Hin.
  { intros n. unfold names, names_of. rewrite Hreaddir, list_elem_of_fmap. split.
    - intros ([k m] & -> & Hk%elem_of_map_to_list). by exists m.
    - intros [m Hm]. exists (n, m). split; [done|by apply elem_of_map_to_list]. }
  assert (List.filter (endsWith ".json") names = names) as Hfilter.
  { apply List.forallb_filter_id, forallb_true, Forall_forall. intros n [m Hm]%Hin.
    destruct (Hpend n m Hm) as (s & _ & -> & _). apply marker_file_json. }
  destruct (for_each_recovers names d rs Hst) as (ws & rs' & Hr & Hs & Hst' & Hp).
  - unfold names, names_of. rewrite Hreaddir. apply NoDup_fst_map_to_list.
  - intros n [m Hm]%Hin. destruct (Hpend n m Hm) as (s & Hs & -> & ->). by exists s.
  - exists ws, rs'. split_and!; [|done|done|].
    + unfold recoverPendingUnlocked, list_files. rewrite (bind_pure _ _ names); [exact Hr|].
      rewrite (bind_pure _ _ names) by done. by rewrite Hfilter.
    + apply map_eq. intros n. rewrite Hp, lookup_empty. case_decide as Hn; [done|].
      destruct (dk_pending d !! n) as [m|] eqn:Hm; [|done]. destruct Hn. apply Hin. by exists m.
Qed.

Lemma validateAuthority_created : validateAuthority authorityRecord = Ok tt.
Proof.
  unfold validateAuthority, authorityRecord, with_checksum, authority_payload. cbn [app mbind res_bind].
  cbn [get String.eqb Ascii.eqb Bool.eqb]. change (onlyKeys _ _) with true. change (is_int (JInt FORMAT_VERSION) FORMAT_VERSION) with true.
  unfold is_str. by rewrite !bool_decide_eq_true_2.
Qed.

(** [initialize] of a store that was left by a crash. *)
Lemma initialize_safe d rs tail :
  store d J base rs tail →
  ∃ ws rs', initialize false d = (ws, Ok tt) ∧ safe (kept J base) d ws ∧ store (apply_writes d ws) J base rs' "" ∧
    dk_pending (apply_writes d ws) = ∅.
Proof.
  intros Hst. destruct Hst as [Hauth Hcat Hses Hpend] eqn:Est.
  destruct (readCatalogUnlocked_kept _ _ _ _ Hcat) as (ws1 & Hr1 & Hws1 & Hcat1).
  assert (store (apply_writes d ws1) J base rs "" ∧ safe (kept J base) d ws1) as [Hst1 Hs1].
  { destruct (Nat.ltb _ _); subst ws1.
    - assert (store (apply_writes d [truncate_delta (String.length (delta_bytes rs))]) J base rs "") as Hst1.
      { split; [done|done| |done]. intros sid Hs. destruct (Hses sid Hs) as [Hj Hd Hn]. split; [by apply (journal_same _ d)|done|done]. }
      split; [done|]. split; [by do 2 eexists|]. split; [by inversion 1|]. split; [by do 2 eexists|done].
    - split; [by split|]. split; [by do 2 eexists|done]. }
  destruct (recoverPendingUnlocked_safe (apply_writes d ws1) rs Hst1) as (ws2 & rs' & Hr2 & Hs2 & Hst2 & Hp2).
  exists (ws1 ++ ws2), rs'. split; [|rewrite apply_writes_app; split_and!; [by apply safe_app|exact Hst2|exact Hp2]].
  unfold initialize, run. rewrite (bind_pure _ _ (Some authorityRecord)) by (unfold gets; by rewrite Hauth).
  rewrite (bind_pure _ _ tt) by (unfold lift; by rewrite validateAuthority_created).
  rewrite (bind_pure _ _ (Some (catalogState (catalog_checksum base)))) by (unfold gets; by rewrite (cl_state _ _ _ _ Hcat)).
  cbn [orb is_none]. by erewrite bind_writes; [|exact Hr1|exact Hr2].
Qed.
End Loop.

(** Everything that is derived from the journals agrees with them. *)
Definition settled (d : Disk) (J : journals) : Prop :=
  dk_pending d = ∅ ∧
  (∀ sid, SAFE_ID sid = true → journal d sid (J sid) ∧ projected d sid (J sid)) ∧
  (∃ sessions, listCatalog true d = ([], Ok sessions) ∧
    ∀ c, c ∈ sessions ↔ ∃ sid, SAFE_ID sid = true ∧ (expected (J sid)).1 = Some c) ∧
  (∃ ids, listRecoverableSessionIds true d = ([], Ok ids) ∧
    ∀ sid, SAFE_ID sid = true → sid ∈ ids ↔ (expected (J sid)).2 = true).

Lemma store_settled d J base rs : store d J base rs "" → dk_pending d = ∅ → settled d J.
Proof.
  intros [_ Hcat Hses _] Hp.
  assert (∀ sid, SAFE_ID sid = true → projected d sid (J sid) ∧ catalog_entry base rs sid = expected (J sid)) as Hderived.
  { intros sid Hs. destruct (Hses sid Hs) as [_ [Hm|Hd] _]; [|done]. unfold marked in Hm. by rewrite Hp, lookup_empty in Hm. }
  split_and!; [done| | |].
  - intros sid Hs. split; [apply (Hses sid Hs)|by apply Hderived].
  - destruct (listCatalog_kept _ _ _ Hcat) as (l & Hl & Hin). exists l. split; [done|]. intros c. rewrite Hin.
    split; intros (sid & Hs & He); exists sid; (split; [done|]); [|]; by rewrite (proj2 (Hderived sid Hs)) in *.
  - destruct (listRecoverable_kept _ _ _ Hcat) as (l & Hl & Hin). exists l. split; [done|]. intros sid Hs.
    by rewrite Hin, (proj2 (Hderived sid Hs)).
Qed.

(** ** The life of a store

    From an empty directory on, one process at a time: [initialize] and appends of new
    commits, each of them complete or cut short by a crash at any of its writes.
    After a crash the store is closed, and only [initialize] opens it again.  (Not
    here: a deep scrub, and a process that appends while another one has crashed; see
    [deep_scrub_cut_short] below and [torn_catalog_is_continued] in JsonlSamples.v.) *)

Definition nothing : journals := λ _, [].
(** The commit can be appended to the session: it extends the journal, repeats no
    commit of it, and the catalog line of the projection can be stored. *)
Record appendable (J : journals) (sid : string) (c : SessionCommitV3) : Prop := {
  ab_safe : SAFE_ID sid = true;
  ab_extends : extends sid (J sid) c;
  ab_fresh : Forall (unrelated c) (J sid);
  ab_delta : ∀ projection, reduceSessionEntriesV3 (commit_entries (J sid ++ [c])) = Ok projection → delta_ok (catalogDeltaRecord projection);
}.
(** The commits that the files of the sessions hold. *)
Definition holds (d : Disk) (J : journals) : Prop := ∀ sid, SAFE_ID sid = true → journal d sid (J sid).

Inductive store_life : Disk → journals → bool → Prop :=
| life_empty : store_life empty_disk nothing false
| life_initialized d J up ws :
    store_life d J up → initialize false d = (ws, Ok tt) → store_life (apply_writes d ws) J true
| life_initialize_cut d J up ws r crash :
    store_life d J up → initialize false d = (ws, r) → crash_of ws crash → store_life (apply_writes d crash) J false
| life_appended d J sid c ws r :
    store_life d J true → appendable J sid c → appendCommit true no_fault (SessionCommit_js c) d = (ws, r) →
    store_life (apply_writes d ws) (extended sid J c) true
| life_append_cut d J sid c ws r crash K :
    store_life d J true → appendable J sid c → appendCommit true no_fault (SessionCommit_js c) d = (ws, r) → crash_of ws crash →
    K = J ∨ K = extended sid J c → holds (apply_writes d crash) K → store_life (apply_writes d crash) K false.

(** Before the first [initialize] has come to its end there is no state file. *)
Record unopened (d : Disk) : Prop := {
  un_authority : dk_authority d = None ∨ dk_authority d = Some authorityRecord;
  un_state : dk_state d = None;
  un_commits : dk_commits d = ∅;
  un_pending : dk_pending d = ∅;
}.
Definition no_catalog : CatalogCacheV3 := catalogCache [] [].
Definition creation_writes (d : Disk) : list write :=
  (if is_none (dk_authority d) then [write_authority authorityRecord] else []) ++
  [write_catalog (CatalogCache_js no_catalog); write_delta ""; write_state (catalogState (catalog_checksum no_catalog))].

Lemma names_of_empty {A} (files : gmap string A) : files = ∅ → names_of files = [].
Proof. intros ->. unfold names_of. rewrite map_to_list_empty. apply Permutation_nil_r. exact (Hreaddir []). Qed.

Lemma initialize_unopened d : unopened d → initialize false d = (creation_writes d, Ok tt).
Proof.
  intros [Ha Hs Hc Hp]. unfold initialize, run, creation_writes.
  assert (∀ d0, dk_commits d0 = ∅ → dk_pending d0 = ∅ → rebuildCatalogUnlocked d0 =
    ([write_catalog (CatalogCache_js no_catalog); write_delta ""; write_state (catalogState (catalog_checksum no_catalog))], Ok [])) as Hrebuild.
  { intros d0 Hc0 Hp0. unfold rebuildCatalogUnlocked, discoverSessionIds, clearAllPendingUnlocked, list_files, gets.
    unfold mbind, fs_bind, mret, fs_ret, lift, emit. rewrite (names_of_empty _ Hc0). cbn -[names_of CatalogCache_js catalogState].
    rewrite (names_of_empty _ Hp0). done. }
  unfold mbind, fs_bind, gets, emit, lift, mret, fs_ret. destruct Ha as [Ha|Ha]; rewrite Ha.
  - cbn [apply_writes foldl is_none app]. cbn [apply_write with_catalog dk_state]. rewrite Hs. cbn [orb is_none].
    rewrite Hrebuild by done. done.
  - rewrite validateAuthority_created. cbn [apply_writes foldl is_none app]. rewrite Hs. cbn [orb is_none].
    rewrite Hrebuild by done. done.
Qed.

Lemma created_store d : unopened d → store (apply_writes d (creation_writes d)) nothing no_catalog [] "".
Proof.
  intros [Ha Hs Hc Hp].
  assert (apply_writes d (creation_writes d) = {| dk_commits := dk_commits d; dk_projections := dk_projections d; dk_pending := dk_pending d;
    dk_catalog := Some (CatalogCache_js no_catalog); dk_delta := Some EmptyString;
    dk_state := Some (catalogState (catalog_checksum no_catalog)); dk_authority := Some authorityRecord |}) as ->.
  { unfold creation_writes. destruct d as [? ? ? ? ? ? authority]. cbn [dk_authority] in *. by destruct Ha as [-> | ->]. }
  split; cbn [dk_authority dk_pending].
  - done.
  - by split.
  - intros sid _. split; [|right; split; [by intros []|done]|done]. split; [split; [constructor|exact I|done]|].
    exists EmptyString. split; [done|]. cbn [dk_commits]. by rewrite Hc, lookup_empty.
  - intros name marker Hm. by rewrite Hp, lookup_empty in Hm.
Qed.

(** Writes of whole files are not torn. *)
Lemma crash_prefix ws crash :
  crash_of ws crash → Forall (λ w, ∀ part, ¬ torn_write part w) ws → ∃ k, crash = take k ws.
Proof.
  induction 1 as [ws|part w ws Ht|w ws ws' _ IH]; intros Hall; [by exists O|by apply Forall_cons in Hall as [Hw _]; destruct (Hw part)|].
  apply Forall_cons in Hall as [_ Hall]. destruct (IH Hall) as [k ->]. by exists (S k).
Qed.
(** A creation that was cut short has not written the state, or all of it. *)
Lemma creation_crash d crash : unopened d → crash_of (creation_writes d) crash →
  unopened (apply_writes d crash) ∨ store (apply_writes d crash) nothing no_catalog [] "".
Proof.
  intros Hu Hc. pose proof (created_store d Hu) as Hst. unfold creation_writes in *. destruct Hu as [Ha Hs Hco Hp].
  apply crash_prefix in Hc as [k ->]; [|destruct (is_none _); repeat constructor; by inversion 1].
  destruct Ha as [Ha|Ha]; rewrite Ha in Hst |- *; cbn [is_none app] in Hst |- *;
    do 4 (destruct k as [|k]; [first [left; split; cbn; by auto | by right]|]); right; by destruct k.
Qed.

(** The files hold at most one of a journal and its extension. *)
Lemma holds_one d J sid c : appendable J sid c → holds d J → holds d (extended sid J c) → False.
Proof.
  intros [Hs Hex _ _] HJ HK. destruct (HJ sid Hs) as [_ (t & Ht & Hb)]. destruct (HK sid Hs) as [_ (t' & Ht' & Hb')].
  unfold extended in Hb'. rewrite decide_True in Hb' by done. rewrite Hb, journal_bytes_snoc, string_app_assoc in Hb'.
  apply string_app_inj_l in Hb'. subst t. unfold terminated in Ht. revert Ht. unfold one_line. rewrite !string_forallb_app.
  cbn. by rewrite !andb_false_r.
Qed.
Lemma store_holds d J base rs tail : store d J base rs tail → holds d J.
Proof. intros [_ _ Hs _] sid Hsid. by destruct (Hs sid Hsid). Qed.

Definition deltas_ok (J : journals) : Prop := ∀ sid projection, SAFE_ID sid = true →
  reduceSessionEntriesV3 (commit_entries (J sid)) = Ok projection → delta_ok (catalogDeltaRecord projection).
Lemma deltas_extended J sid c : appendable J sid c → deltas_ok J → deltas_ok (extended sid J c).
Proof. intros Hab HJ s projection Hs. unfold extended. case_decide as Heq; [by apply Hab|by apply HJ]. Qed.

(** The invariant of a life. *)
Lemma life_store d J up : store_life d J up →
  deltas_ok J ∧ (J = nothing ∧ unopened d ∧ up = false ∨ ∃ rs tail, store d J no_catalog rs tail ∧ (up = true → tail = EmptyString)).
Proof.
  induction 1 as [|d J up ws _ [HJ IH] Hi|d J up ws r crash _ [HJ IH] Hi Hc|d J sid c ws r _ [HJ IH] Hab Ha
    |d J sid c ws r crash K _ [HJ IH] Hab Ha Hc HK Hholds].
  - split; [by intros sid projection _ [=]|]. left. split_and!; [done| |done]. split; auto.
  - split; [done|]. right. destruct IH as [(-> & Hu & _)|(rs & tail & Hst & _)].
    + rewrite (initialize_unopened d Hu) in Hi. injection Hi as <-. exists [], EmptyString. split; [by apply created_store|done].
    + destruct (initialize_safe J no_catalog HJ d rs tail Hst) as (ws' & rs' & Hr & _ & Hst' & _).
      rewrite Hi in Hr. injection Hr as ->. by exists rs', EmptyString.
  - split; [done|]. destruct IH as [(-> & Hu & _)|(rs & tail & Hst & _)].
    + rewrite (initialize_unopened d Hu) in Hi. injection Hi as <- <-. destruct (creation_crash d crash Hu Hc) as [Hu'|Hst'].
      * by left.
      * right. by exists [], EmptyString.
    + destruct (initialize_safe J no_catalog HJ d rs tail Hst) as (ws' & rs' & Hr & Hs & _).
      rewrite Hi in Hr. injection Hr as -> ->. destruct (safe_crash _ _ _ _ Hs Hc) as (rs1 & tail1 & Hst1). right. by exists rs1, tail1.
  - destruct IH as [(_ & _ & [=])|(rs & tail & Hst & Ht)]. rewrite (Ht eq_refl) in Hst.
    split; [by apply deltas_extended|]. right.
    destruct (append_safe sid (ab_safe _ _ _ Hab) d J no_catalog rs c Hst (ab_extends _ _ _ Hab) (ab_fresh _ _ _ Hab) (ab_delta _ _ _ Hab))
      as (ws' & rs' & Hr & _ & Hst'). rewrite Ha in Hr. injection Hr as -> _. by exists rs', EmptyString.
  - destruct IH as [(_ & _ & [=])|(rs & tail & Hst & Ht)]. rewrite (Ht eq_refl) in Hst.
    destruct (append_safe sid (ab_safe _ _ _ Hab) d J no_catalog rs c Hst (ab_extends _ _ _ Hab) (ab_fresh _ _ _ Hab) (ab_delta _ _ _ Hab))
      as (ws' & rs' & Hr & Hs & _). rewrite Ha in Hr. injection Hr as -> _.
    split; [by destruct HK as [-> | ->]; [|apply deltas_extended]|]. right.
    destruct (safe_crash _ _ _ _ Hs Hc) as [(rs1 & tail1 & Hst1)|(rs1 & tail1 & Hst1)]; destruct HK as [-> | ->].
    + by exists rs1, tail1.
    + destruct (holds_one _ J sid c Hab (store_holds _ _ _ _ _ Hst1) Hholds).
    + destruct (holds_one _ J sid c Hab Hholds (store_holds _ _ _ _ _ Hst1)).
    + by exists rs1, tail1.
Qed.

(** Every crash of an append leaves the files of one of the two journals. *)
Lemma life_append_crash d J sid c ws r crash :
  store_life d J true → appendable J sid c → appendCommit true no_fault (SessionCommit_js c) d = (ws, r) → crash_of ws crash →
  ∃ K, (K = J ∨ K = extended sid J c) ∧ store_life (apply_writes d crash) K false.
Proof.
  intros Hlife Hab Ha Hc. destruct (life_store _ _ _ Hlife) as [HJ [(_ & _ & [=])|(rs & tail & Hst & Ht)]]. rewrite (Ht eq_refl) in Hst.
  destruct (append_safe sid (ab_safe _ _ _ Hab) d J no_catalog rs c Hst (ab_extends _ _ _ Hab) (ab_fresh _ _ _ Hab) (ab_delta _ _ _ Hab))
    as (ws' & rs' & Hr & Hs & _). rewrite Ha in Hr. injection Hr as -> _.
  destruct (safe_crash _ _ _ _ Hs Hc) as [(rs1 & tail1 & Hst1)|(rs1 & tail1 & Hst1)]; [exists J|exists (extended sid J c)]; (split; [auto|]);
    (eapply life_append_cut; [exact Hlife|exact Hab|exact Ha|exact Hc|auto|by eapply store_holds]).
Qed.

(** C25 Recovery: after any life of a store, from an empty directory on, of
    initializations and of appends of new commits (they extend their journal, repeat
    no commit of it, and their catalog line reads back), one process at a time and each
    complete or cut short by a crash at any write (torn lines included), the next
    [initialize] succeeds and makes the derived files agree with the journals: no
    session is marked, every projection file is the reduction of its journal, the
    catalog lists exactly the catalog entries of the sessions with a commit, and the
    recoverable ones are those with a running run; and where that [initialize] is
    cut short as well, the one after it does the same.  A crash during a deep scrub
    is not in such a life, nor is an append by a process that had the store open
    when another one crashed. *)
Theorem initialize_recovers d J up :
  store_life d J up →
  ∃ ws, initialize false d = (ws, Ok tt) ∧ settled (apply_writes d ws) J ∧
    ∀ crash, crash_of ws crash → ∃ ws', initialize false (apply_writes d crash) = (ws', Ok tt) ∧
      settled (apply_writes (apply_writes d crash) ws') J.
Proof.
  assert (∀ d J up, store_life d J up → ∃ ws, initialize false d = (ws, Ok tt) ∧ settled (apply_writes d ws) J) as Hone.
  { clear d J up. intros d J up [HJ [(-> & Hu & _)|(rs & tail & Hst & _)]]%life_store.
    - exists (creation_writes d). split; [by apply initialize_unopened|]. eapply store_settled; [by apply created_store|].
      unfold creation_writes. destruct Hu as [_ _ _ Hp]. by destruct (is_none _).
    - destruct (initialize_safe J no_catalog HJ d rs tail Hst) as (ws & rs' & Hr & _ & Hst' & Hp).
      exists ws. split; [exact Hr|by eapply store_settled]. }
  intros Hlife. destruct (Hone d J up Hlife) as (ws & Hr & Hset). exists ws. split_and!; [done|done|].
  intros crash Hc. eapply Hone. by eapply life_initialize_cut.
Qed.

(** C3 The store survives a crash: when the process dies anywhere in the append of a
    new commit, also in the middle of a record or of a catalog line, the next
    [initialize] succeeds, and then all that the store says of any session is
    derived from its journal, which is the one before the append or the one with
    the commit at its end. *)
Theorem append_crash_initialize d J base rs sid c ws r crash :
  let J' := extended sid J c in
  store d J base rs "" → SAFE_ID sid = true → extends sid (J sid) c → Forall (unrelated c) (J sid) →
  (∀ K, K = J ∨ K = J' → ∀ s projection, SAFE_ID s = true →
    reduceSessionEntriesV3 (commit_entries (K s)) = Ok projection → delta_ok (catalogDeltaRecord projection)) →
  appendCommit true no_fault (SessionCommit_js c) d = (ws, r) → crash_of ws crash →
  let d1 := apply_writes d crash in
  ∃ K ws1, (K = J ∨ K = J') ∧ initialize false d1 = (ws1, Ok tt) ∧ settled (apply_writes d1 ws1) K.
Proof.
  intros J' Hst Hsafe Hex Hfresh Hdelta Ha Hcrash d1.
  destruct (append_safe sid Hsafe d J base rs c Hst Hex Hfresh) as (ws' & rs' & Hr & Hs & _).
  { intros pj Hred. apply (Hdelta J' (or_intror eq_refl) sid pj Hsafe). unfold J', extended. by rewrite decide_True. }
  rewrite Ha in Hr. injection Hr as -> _.
  assert (∃ K, (K = J ∨ K = J') ∧ kept K base d1) as (K & HK & rs1 & tail1 & Hst1).
  { destruct (safe_crash _ _ _ _ Hs Hcrash) as [Hk|Hk]; [exists J|exists J']; auto. }
  destruct (initialize_safe K base (Hdelta K HK) d1 rs1 tail1 Hst1) as (ws1 & rs2 & Hr1 & _ & Hst2 & Hp).
  exists K, ws1. split_and!; [done|exact Hr1|by eapply store_settled].
Qed.

(** ** A deep scrub that is cut short

    [rebuildCatalogUnlocked] replaces the catalog file before the state file that
    names its checksum.  Between the two writes the state names the checksum of the
    old catalog, and the next [initialize], which only rebuilds when it is asked for
    a deep scrub or finds no state, refuses the new one. *)

Lemma scan_writes ids d : Forall (λ w, ∃ name cache, w = write_projection name cache) (scan_projections ids d).1.
Proof.
  revert d. induction ids as [|sid ids IH]; intros d; [constructor|]. cbn [scan_projections]. unfold mbind, fs_bind.
  destruct (readJournal sid d) as [ws0 r0] eqn:Hread.
  assert (ws0 = []) as ->.
  { revert Hread. unfold readJournal, mbind, fs_bind, gets, lift, mret, fs_ret. destruct (commitPath sid); [|by intros [= <- _]].
    cbn [apply_writes foldl]. destruct (_ !! _); [|by intros [= <- _]]. destruct (parseJournal _ _); by intros [= <- _]. }
  destruct r0 as [parsed|]; [|constructor]. cbn [apply_writes foldl]. destruct (is_nil _).
  { specialize (IH d). by destruct (scan_projections ids d). }
  unfold lift, emit, mret, fs_ret. destruct (reduceSessionEntriesV3 _); [|constructor]. cbn [apply_writes foldl].
  destruct (projectionPath sid); [|constructor]. cbn [apply_writes foldl app].
  match goal with |- context [scan_projections ids ?d'] => specialize (IH d'); destruct (scan_projections ids d') as [ws []] end;
    cbn [fst app] in *; rewrite ?app_nil_r; constructor; try done; by do 2 eexists.
Qed.
Lemma scan_keeps ids d ws r : scan_projections ids d = (ws, r) →
  dk_state (apply_writes d ws) = dk_state d ∧ dk_authority (apply_writes d ws) = dk_authority d.
Proof.
  intros Hs. pose proof (scan_writes ids d) as Hall. rewrite Hs in Hall. cbn in Hall. clear Hs. revert d.
  induction Hall as [|w ws (name & cache & ->) _ IH]; intros d; [done|]. exact (IH (apply_write d _)).
Qed.

Lemma deep_scrub_cut_short d sum ids wp projections :
  dk_authority d = Some authorityRecord → dk_state d = Some (catalogState sum) →
  discoverSessionIds d = ([], Ok ids) → scan_projections ids d = (wp, Ok projections) →
  let found := (mof projections).*2 in
  let cache := catalogCache (pj_catalog <$> found) (recoverableSessionIds found) in
  cache_ok cache → catalog_checksum cache ≠ sum →
  ∃ crash, crash_of (deepScrub true d).1 crash ∧ initialize false (apply_writes d crash) = ([], Err "PERSISTENCE_INVALID_DATA").
Proof.
  intros Ha Hs Hids Hscan found cache Hcache Hsum. exists (wp ++ [write_catalog (CatalogCache_js cache)]). split.
  - assert (∃ rest, (deepScrub true d).1 = wp ++ write_catalog (CatalogCache_js cache) :: rest) as [rest ->].
    { unfold deepScrub, rebuildCatalogUnlocked, run, pendingCount, list_files, gets, lift, emit, mret, fs_ret, mbind, fs_bind.
      cbn [requireInitialized negb fail_if apply_writes foldl app]. rewrite Hids. cbn [apply_writes foldl app]. rewrite Hscan.
      fold found. fold cache. cbn [app]. repeat case_match; simplify_eq; cbn [fst]; rewrite ?app_nil_r, <-?app_assoc; eexists; reflexivity. }
    rewrite cons_middle, app_assoc. generalize (wp ++ [write_catalog (CatalogCache_js cache)]). intros ws. induction ws; by constructor.
  - rewrite apply_writes_app. destruct (scan_keeps _ _ _ _ Hscan) as [Hs' Ha']. rewrite Hs in Hs'. rewrite Ha in Ha'.
    set (d1 := apply_writes (apply_writes d wp) _).
    assert (dk_authority d1 = Some authorityRecord) as Ha1 by exact Ha'. assert (dk_state d1 = Some (catalogState sum)) as Hs1 by exact Hs'.
    assert (dk_catalog d1 = Some (CatalogCache_js cache)) as Hc1 by done.
    unfold initialize, run. rewrite (bind_pure _ _ (Some authorityRecord)) by (unfold gets; by rewrite Ha1).
    rewrite (bind_pure _ _ tt) by (unfold lift; by rewrite validateAuthority_created).
    rewrite (bind_pure _ _ (Some (catalogState sum))) by (unfold gets; by rewrite Hs1). cbn [orb is_none].
    unfold readCatalogUnlocked, read_value. rewrite (bind_err _ _ SyntaxError); [done|].
    rewrite (bind_pure _ _ (CatalogCache_js cache)) by (rewrite (bind_pure _ _ (dk_catalog d1)) by done; by rewrite Hc1).
    rewrite (bind_pure _ _ (cache, catalog_checksum cache)) by (unfold lift; by rewrite validateCatalogCache_created).
    rewrite (bind_pure _ _ (catalogState sum)) by (rewrite (bind_pure _ _ (dk_state d1)) by done; by rewrite Hs1).
    rewrite (bind_err _ _ SyntaxError); [done|]. unfold lift, validateCatalogState, catalogState, with_checksum, state_payload.
    cbn [app mbind res_bind get String.eqb Ascii.eqb Bool.eqb]. unfold is_str at 2. rewrite (bool_decide_eq_false_2 (sum = _)) by auto.
    cbn [negb]. by rewrite orb_true_r.
Qed.
End Recovery.
