(* ===== verification/JsonlSamples.v ===== *)
(** * A store of the examples

    A session of two commits on a disk where the first one is stored. *)

From S2P Require Import Prelude Js JsOps Json JsonSpec CanonicalJson Samples Plan ReviewPlan ReviewPlanEvents Session SessionReducer SessionSamples SessionEntry SessionCommit SessionPort SessionPortSpec Jsonl JsonlStore JsonlLines JsonlJournal JsonlCrash JsonlAppend JsonlSafe JsonlRead JsonlCatalog JsonlRecovery.
Local Open Scope Z_scope.

(** Names that are their own encoding. *)
#[export] Instance sample_host : NodeHost := {| base64url s := s; base64url_decode s := s; readdir_order l := l |}.

Definition commit_input (id : string) (revision : nat) : CreateSessionCommitInputV3 :=
  {| ci_sessionId := "s1"; ci_commitId := id; ci_expectedRevision := Z.of_nat revision; ci_idempotencyKey := "key-" +:+ id;
     ci_entries := [sample_value revision] |}.
Definition no_commit : SessionCommitV3 :=
  {| sc_sessionId := ""; sc_commitId := ""; sc_expectedRevision := 0; sc_idempotencyKey := ""; sc_values := [];
     sc_entries := []; sc_checksum := "" |}.
Definition made_commit (id : string) (revision : nat) : SessionCommitV3 :=
  match createSessionCommitV3 (commit_input id revision) with Ok c => c | Err _ => no_commit end.
Definition commit1 : SessionCommitV3 := made_commit "c1" 0.
Definition commit2 : SessionCommitV3 := made_commit "c2" 1.
(** Another commit under the key of the first. *)
Definition commit_other : SessionCommitV3 :=
  match createSessionCommitV3 {| ci_sessionId := "s1"; ci_commitId := "c3"; ci_expectedRevision := 1;
    ci_idempotencyKey := "key-c1"; ci_entries := [sample_value 1] |} with Ok c => c | Err _ => no_commit end.

Lemma commit_ok_created input c :
  createSessionCommitV3 input = Ok c → storable (JsonlCommitRecord_js (createRecord c)) = true → commit_ok (ci_sessionId input) c.
Proof.
  intros Hc Hs. unfold createSessionCommitV3 in Hc. apply bind_Ok in Hc as (sum & _ & Hc).
  split; [by eapply validateSessionCommitV3_reparse| |done]. unfold validateSessionCommitV3 in Hc. inv_ok. done.
Qed.
Lemma commit_ok_of id revision :
  is_ok (createSessionCommitV3 (commit_input id revision)) = true →
  storable (JsonlCommitRecord_js (createRecord (made_commit id revision))) = true →
  commit_ok "s1" (made_commit id revision).
Proof.
  unfold made_commit. destruct (createSessionCommitV3 (commit_input id revision)) as [c|] eqn:Hc; [|done]. intros _ Hs.
  exact (commit_ok_created _ _ Hc Hs).
Qed.
Lemma extends_of id revision cs :
  commit_ok "s1" (made_commit id revision) →
  is_ok (assertSessionCommitAgainstHeadV3 (made_commit id revision) (journal_head (commit_entries cs))) = true →
  is_ok (reduceSessionEntriesV3 (commit_entries cs ++ sc_entries (made_commit id revision))) = true →
  extends "s1" cs (made_commit id revision).
Proof. intros Hc Hh Hr. split; [done| |done]. by destruct (assertSessionCommitAgainstHeadV3 _ _) as [[]|]. Qed.

Lemma extends1 : extends "s1" [] commit1.
Proof. apply extends_of; [apply commit_ok_of; vm_compute; reflexivity|vm_compute; reflexivity|vm_compute; reflexivity]. Qed.
Lemma extends2 : extends "s1" [commit1] commit2.
Proof. apply extends_of; [apply commit_ok_of; vm_compute; reflexivity|vm_compute; reflexivity|vm_compute; reflexivity]. Qed.
Lemma journal1 : journal_ok "s1" [commit1].
Proof. apply (journal_ok_snoc "s1" []); [|exact extends1]. split; [constructor|exact I|done]. Qed.

(** The disk after the first commit. *)
Definition disk1 : Disk := apply_writes empty_disk (appendCommit true no_fault (SessionCommit_js commit1) empty_disk).1.
Lemma disk1_consistent : consistent disk1 "s1" [commit1].
Proof.
  destruct (reduceSessionEntriesV3 (commit_entries [commit1])) as [pj|] eqn:Hr; [|exfalso; vm_compute in Hr; discriminate Hr].
  split.
  - split; [exact journal1|]. exists EmptyString. split; [done|]. vm_compute. reflexivity.
  - right. intros _. exists pj. split; [done|]. vm_compute in Hr. injection Hr as <-. vm_compute. reflexivity.
Qed.
Lemma fresh2 : Forall (unrelated commit2) [commit1].
Proof. constructor; [|constructor]. split; vm_compute; discriminate. Qed.

(** ** The guarantees at the second commit

    The process dies in the middle of the record of the commit. *)

Lemma append_atomic_witness :
  let ws := (appendCommit true no_fault (SessionCommit_js commit2) disk1).1 in
  let d' := apply_writes disk1 (torn_prefix 1 100 ws) in
  dk_commits d' !! "s1.jsonl" ≠ dk_commits disk1 !! "s1.jsonl" ∧
  (consistent d' "s1" [commit1] ∨ consistent d' "s1" [commit1; commit2]).
Proof.
  intros ws d'. split; [vm_compute; discriminate|].
  destruct (append_atomic no_fault "s1" [commit1] commit2 disk1 ws (appendCommit true no_fault (SessionCommit_js commit2) disk1).2
    (torn_prefix 1 100 ws) (ex_commit _ _ _ extends2) disk1_consistent (surjective_pairing _) (torn_prefix_crash 1 100 ws)) as [_ [Hc|[Hc _]]];
    [left; exact Hc|right; exact Hc].
Defined.

Lemma append_receipt_durable_witness :
  ∃ ws receipt, appendCommit true no_fault (SessionCommit_js commit2) disk1 = (ws, Ok receipt) ∧ rc_duplicate receipt = false ∧
    journal (apply_writes disk1 ws) "s1" [commit1; commit2].
Proof.
  assert (match (appendCommit true no_fault (SessionCommit_js commit2) disk1).2 with Ok r => negb (rc_duplicate r) | _ => false end = true)
    as Hv by (vm_compute; reflexivity).
  destruct (appendCommit true no_fault (SessionCommit_js commit2) disk1) as [ws [receipt|]] eqn:Ha; [|discriminate Hv].
  cbn [snd] in Hv. apply negb_true_iff in Hv. exists ws, receipt. split; [reflexivity|]. split; [exact Hv|].
  destruct (append_receipt_durable no_fault "s1" [commit1] commit2 disk1 ws receipt (ex_commit _ _ _ extends2) disk1_consistent Ha)
    as [(_ & Hj & _)|(x & _ & _ & Hr & _)]; [exact Hj|rewrite Hr in Hv; discriminate Hv].
Defined.

Lemma append_exactly_once_witness :
  let ws := (appendCommit true no_fault (SessionCommit_js commit2) disk1).1 in
  let d1 := apply_writes disk1 (torn_prefix 1 100 ws) in
  ∃ duplicate ws1, appendCommit true no_fault (SessionCommit_js commit2) d1 = (ws1, Ok (sessionCommitReceiptV3 commit2 duplicate)) ∧
    journal (apply_writes d1 ws1) "s1" [commit1; commit2].
Proof.
  intros ws d1.
  destruct (append_exactly_once no_fault "s1" [commit1] commit2 disk1 ws (appendCommit true no_fault (SessionCommit_js commit2) disk1).2
    (torn_prefix 1 100 ws) extends2 fresh2 disk1_consistent (surjective_pairing _) (torn_prefix_crash 1 100 ws)) as (dup & ws1 & Hr & Hj & _).
  exists dup, ws1. split; [exact Hr|exact Hj].
Defined.

Lemma append_write_order_witness :
  ∃ projection, (appendCommit true no_fault (SessionCommit_js commit2) disk1).1 =
    [write_pending "s1.json" (pendingProjection "s1"); append_commits "s1.jsonl" (terminated (record_line commit2));
     write_projection "s1.json" (projection_cache [createRecord commit1; createRecord commit2] projection);
     append_delta (terminated (text_of (CatalogDeltaRecord_js (catalogDeltaRecord projection)))); unlink_pending "s1.json"].
Proof.
  assert (default EmptyString (dk_commits disk1 !! commit_file "s1") = journal_bytes [commit1] +:+ EmptyString) as Hb by (vm_compute; reflexivity).
  destruct (append_write_order "s1" [commit1] commit2 EmptyString disk1 extends2 journal1 fresh2 eq_refl Hb) as (repair & pj & _ & [-> | ->] & Hr).
  - exists pj. rewrite Hr. reflexivity.
  - exfalso. apply (f_equal (λ x, length x.1)) in Hr. vm_compute in Hr. discriminate Hr.
Defined.

Lemma commit_other_ok : commit_ok "s1" commit_other.
Proof.
  assert (storable (JsonlCommitRecord_js (createRecord commit_other)) = true) as Hs by (vm_compute; reflexivity).
  unfold commit_other in *. destruct (createSessionCommitV3 _) as [c|] eqn:Hc; [exact (commit_ok_created _ _ Hc Hs)|].
  exfalso. vm_compute in Hc. discriminate Hc.
Qed.
Lemma append_conflict_witness :
  ∃ repair, appendCommit true no_fault (SessionCommit_js commit_other) disk1 = (repair, Err "SESSION_COMMIT_IDEMPOTENCY_CONFLICT").
Proof.
  destruct (append_conflict no_fault "s1" [commit1] commit_other EmptyString disk1 "SESSION_COMMIT_IDEMPOTENCY_CONFLICT" commit_other_ok journal1 eq_refl)
    as (repair & Hr & _).
  - vm_compute. reflexivity.
  - left. exists [], commit1, []. split; [reflexivity|]. split; [constructor|]. split; [|split; [|reflexivity]].
    + intros [_ Hk]. apply Hk. vm_compute. reflexivity.
    + intros [Hid _]. revert Hid. vm_compute. discriminate.
  - exists repair. exact Hr.
Defined.

(** ** The port over disks that grow *)

Definition disk2 : Disk := apply_writes disk1 (appendCommit true no_fault (SessionCommit_js commit2) disk1).1.
Definition growing (k : nat) : Disk := match k with O => disk1 | S _ => disk2 end.
Definition growing_commits (k : nat) : list SessionCommitV3 := match k with O => [commit1] | S _ => [commit1; commit2] end.


(** ** A store from its creation *)

Definition created : Disk := apply_writes empty_disk (initialize false empty_disk).1.
Lemma sample_base64 s : SAFE_ID s = true → base64url_decode (base64url s) = s.
Proof. reflexivity. Qed.
Lemma sample_readdir names : readdir_order names ≡ₚ names.
Proof. reflexivity. Qed.
Lemma unopened_empty : unopened empty_disk.
Proof. split; auto. Qed.
Lemma sample_created : store created nothing no_catalog [] "".
Proof. unfold created. rewrite (initialize_unopened sample_readdir empty_disk unopened_empty). exact (created_store empty_disk unopened_empty). Qed.

Lemma sample_deltas cs projection :
  cs ∈ [[]; [commit1]; [commit1; commit2]] →
  reduceSessionEntriesV3 (commit_entries cs) = Ok projection → delta_ok (catalogDeltaRecord projection).
Proof.
  rewrite !elem_of_cons, elem_of_nil. intros [->|[->|[->|[]]]] Hr; vm_compute in Hr; [discriminate Hr| |];
    injection Hr as <-; split; vm_compute; reflexivity.
Qed.

Definition one : journals := extended "s1" nothing commit1.
Definition store1 : Disk := apply_writes created (appendCommit true no_fault (SessionCommit_js commit1) created).1.
Lemma store1_kept : ∃ rs, store store1 one no_catalog rs "".
Proof.
  assert (Forall (unrelated commit1) (nothing "s1")) as Hfresh by constructor.
  destruct (append_safe sample_base64 "s1" eq_refl created nothing no_catalog [] commit1 sample_created extends1 Hfresh) as (ws & rs & Hr & _ & Hst).
  - intros projection. apply sample_deltas. set_solver.
  - exists rs. unfold store1. rewrite Hr. exact Hst.
Qed.
Lemma one_deltas K s projection :
  K = one ∨ K = extended "s1" one commit2 → reduceSessionEntriesV3 (commit_entries (K s)) = Ok projection →
  delta_ok (catalogDeltaRecord projection).
Proof.
  intros HK. apply sample_deltas. destruct HK as [-> | ->]; unfold one, extended, nothing; repeat case_decide; cbn; set_solver.
Qed.

(** The second commit is stored, and the process dies in the line of the catalog. *)
Definition crashed : Disk :=
  apply_writes store1 (torn_prefix 3 40 (appendCommit true no_fault (SessionCommit_js commit2) store1).1).
Lemma append_crash_initialize_witness :
  ∃ K ws1, (K = one ∨ K = extended "s1" one commit2) ∧ initialize false crashed = (ws1, Ok tt) ∧ settled (apply_writes crashed ws1) K.
Proof.
  destruct store1_kept as [rs Hst].
  exact (append_crash_initialize sample_base64 sample_readdir store1 one no_catalog rs "s1" commit2
    (appendCommit true no_fault (SessionCommit_js commit2) store1).1 (appendCommit true no_fault (SessionCommit_js commit2) store1).2
    (torn_prefix 3 40 (appendCommit true no_fault (SessionCommit_js commit2) store1).1) Hst eq_refl extends2 fresh2
    (λ K HK s projection _, one_deltas K s projection HK) (surjective_pairing _) (torn_prefix_crash 3 40 _)).
Defined.
Lemma life1 : store_life store1 one true.
Proof.
  assert (store_life created nothing true) as Hcreated.
  { eapply life_initialized; [exact life_empty|]. rewrite (initialize_unopened sample_readdir empty_disk unopened_empty). reflexivity. }
  apply (life_appended created nothing "s1" commit1 _ (appendCommit true no_fault (SessionCommit_js commit1) created).2);
    [exact Hcreated| |apply surjective_pairing].
  split; [reflexivity|exact extends1|constructor|]. intros projection. apply sample_deltas. set_solver.
Qed.
Lemma appendable2 : appendable one "s1" commit2.
Proof. split; [reflexivity|exact extends2|exact fresh2|]. intros projection. apply sample_deltas. set_solver. Qed.
Lemma initialize_recovers_witness :
  ∃ K ws, (K = one ∨ K = extended "s1" one commit2) ∧ initialize false crashed = (ws, Ok tt) ∧ settled (apply_writes crashed ws) K.
Proof.
  destruct (life_append_crash sample_base64 sample_readdir store1 one "s1" commit2 _ _ _ life1 appendable2 (surjective_pairing _) (torn_prefix_crash 3 40 _))
    as (K & HK & Hlife).
  destruct (initialize_recovers sample_base64 sample_readdir crashed K false Hlife) as (ws & Hr & Hs & _).
  exists K, ws. split; [exact HK|]. split; [exact Hr|exact Hs].
Defined.

(** The recovery of that crash writes the catalog line that was lost. *)
Example crashed_recovers :
  (initialize false crashed).2 = Ok tt ∧
  let d := apply_writes crashed (initialize false crashed).1 in
  match (listCatalog true d).2 with Ok l => map ca_revision l = [2%Z] | Err _ => False end.
Proof. vm_compute. split; reflexivity. Qed.

(** ** A torn catalog line and a process that goes on

    Unlike [appendCommit] with its [repairTail], [appendCatalogDeltaUnlocked] does not
    look at the end of the log: when one process dies in a catalog line, and another
    process that has the store open appends its next commit, the new line continues
    the torn one.  The commit is durable and acknowledged, but from then on the
    catalog is refused as invalid, by this process and by every later
    [initialize]. *)
Definition third_input : CreateSessionCommitInputV3 :=
  {| ci_sessionId := "s1"; ci_commitId := "c3"; ci_expectedRevision := 2; ci_idempotencyKey := "k3"; ci_entries := [sample_value 2] |}.
Example torn_catalog_is_continued :
  let commit3 := match createSessionCommitV3 third_input with Ok c => c | Err _ => no_commit end in
  let '(ws, r) := appendCommit true no_fault (SessionCommit_js commit3) crashed in
  is_ok r = true ∧
  let d := apply_writes crashed ws in
  (listCatalog true d).2 = Err "PERSISTENCE_INVALID_DATA" ∧ (initialize false d).2 = Err "PERSISTENCE_INVALID_DATA".
Proof. vm_compute. repeat split. Qed.
