(* ===== verification/DraftReplay.v ===== *)
(** * Drafts in the journal

    The entries that a planner service appends at the head of a journal, reduced:
    the guards of the loop accept them, so their effect is that of their handlers
    on the plan, the stable identities and the runs. *)

From S2P Require Import Prelude Js CanonicalJson Plan PlanSpec Subagent Session SessionReducer SessionInv SessionLife SessionPlan SessionReady SessionEntry SessionCommit JournalDrafts.
Local Open Scope Z_scope.

(** ** Updates of one step *)

Lemma mupdate_mupdate {V} k (f g : V → V) m : mupdate k g (mupdate k f m) = mupdate k (g ∘ f) m.
Proof.
  unfold mupdate. rewrite <-list_fmap_compose. apply list_fmap_ext. intros i [k' v] _. cbn.
  by repeat case_decide.
Qed.
Lemma mutate_step_step p k f g : mutate_step (mutate_step p k f) k g = mutate_step p k (g ∘ f).
Proof. unfold mutate_step. cbn [mp_steps with_steps]. by rewrite mupdate_mupdate. Qed.

(** An update that agrees on the one object it meets. *)
Lemma mupdate_ext {V} k (f g : V → V) m : (∀ v, (k, v) ∈ m → f v = g v) → mupdate k f m = mupdate k g m.
Proof.
  intros Hf. unfold mupdate. apply list_fmap_ext. intros i [k' v] Hi. cbn.
  case_decide; [|done]. subst. f_equal. apply Hf. by apply list_elem_of_lookup_2 in Hi.
Qed.
Lemma mutate_step_ext ids p k s f g :
  plan_shape ids p → mget k (mp_steps p) = Some s → f s = g s → mutate_step p k f = mutate_step p k g.
Proof.
  intros Hshape Hs Hf. unfold mutate_step. f_equal. apply mupdate_ext. intros v Hv%mget_elem; [congruence|apply Hshape].
Qed.
Lemma mutate_step_get p k f k' :
  mget k' (mp_steps (mutate_step p k f)) = if decide (k' = k) then f <$> mget k' (mp_steps p) else mget k' (mp_steps p).
Proof. cbn. rewrite mget_mupdate. case_decide; [done|]. by rewrite option_fmap_id. Qed.

Lemma mutated_get p k s f :
  mget k (mp_steps p) = Some s → mget k (mp_steps (mutate_step p k f)) = Some (f s).
Proof. intros Hs. by rewrite mutate_step_get, decide_True, Hs. Qed.

(** An update of the object at the end, whose key is new. *)
Lemma mupdate_snoc {V} k (f : V → V) v m : k ∉ m.*1 → mupdate k f (m ++ [(k, v)]) = m ++ [(k, f v)].
Proof.
  intros Hk. unfold mupdate. rewrite fmap_app. f_equal; [|cbn; by rewrite decide_True].
  transitivity (id <$> m); [|apply list_fmap_id]. apply list_fmap_ext. intros i [k' v'] Hi. cbn.
  rewrite decide_False; [done|]. intros ->. apply Hk. by apply list_elem_of_lookup_2, (list_elem_of_fmap_2 fst) in Hi.
Qed.

Lemma requireStep_of p k s :
  mget k (mp_steps p) = Some s → requireStepRevision (Some p) (mp_planId p) (mp_revision p) k = Ok s.
Proof. intros. apply requireStepRevision_Ok. by exists p. Qed.
Lemma requireAttempt_of p k s aid a :
  mget k (mp_steps p) = Some s → mget aid (ms_attempts s) = Some a →
  requireAttemptRevision (Some p) (mp_planId p) (mp_revision p) k aid = Ok a.
Proof. intros. apply requireAttemptRevision_Ok. by exists p, s. Qed.

Lemma maxInstant_not_before a b : string_ltb (maxInstant a b) b = false.
Proof. unfold maxInstant. destruct (string_ltb a b) eqn:E; [apply string_ltb_irrefl|done]. Qed.

(** A step of the projected graph is a step of the plan. *)
Lemma present_step `{JsEngine} ids p g s :
  project_present p = Ok g → plan_shape ids p → s ∈ gr_steps g →
  ∃ ms, mget (sp_stepId s) (mp_steps p) = Some ms ∧ step_shape ids (sp_stepId s) ms ∧ s = project_step ms ∧
    sp_attempts s = project_attempt <$> (ms_attempts ms).*2.
Proof.
  intros [Hsteps _]%project_present_Ok Hshape Hs. rewrite Hsteps in Hs.
  apply list_elem_of_fmap in Hs as (ms & -> & Hms%js_sort_elem).
  apply list_elem_of_fmap in Hms as ([k ms'] & -> & Hin). pose proof (ps_steps _ _ Hshape _ _ Hin) as Hss.
  exists ms'. cbn [snd project_step sp_stepId sp_attempts]. rewrite (ssh_id _ _ _ Hss), (ordered_attempts_id _ _ _ Hss).
  split_and!; try done. by apply mget_elem; [apply Hshape|].
Qed.

(** ** The handlers on drafts that fit the plan *)

Section Handlers.
Context (p : MutablePlan) (k : string) (s : MutableStep).
Hypothesis Hs : mget k (mp_steps p) = Some s.

Lemma step_changed_run data :
  ssc_planId data = mp_planId p → ssc_planRevision data = mp_revision p → ssc_stepId data = k →
  assertPlanStepTransitionV1 (ms_state s) (ssc_state data) (step_options s data) = Ok tt →
  match attempt_state_for (ssc_state data) with
  | Some state => ma_state <$> latestStepAttempt s = Some state
  | None => True
  end →
  on_step_state_changed (Some p) data =
    Ok (mutate_step p k (λ s, with_step_state s (ssc_state data) (ssc_errorCode data))).
Proof.
  intros Hid Hrev Hk Ht Hl. unfold on_step_state_changed. rewrite Hid, Hrev, Hk, (requireStep_of p k s Hs).
  cbn [mbind res_bind]. rewrite Ht. cbn [assertReducerTransition rethrow mbind res_bind].
  destruct (attempt_state_for _); [rewrite Hl, bool_decide_eq_false_2 by auto|]; done.
Qed.

Lemma attempt_changed_run data a :
  asc_planId data = mp_planId p → asc_planRevision data = mp_revision p → asc_stepId data = k →
  mget (asc_attemptId data) (ms_attempts s) = Some a →
  assertPlanAttemptTransitionV1 (ma_state a) (asc_state data) = Ok tt →
  asc_state data ∈ [A_running; A_interrupted] →
  on_attempt_state_changed (Some p) data =
    Ok (mutate_attempt p k (asc_attemptId data) (λ a, with_attempt_state a (asc_state data) (asc_errorCode data))).
Proof.
  intros Hid Hrev Hk Ha Ht Hst. unfold on_attempt_state_changed. rewrite Hid, Hrev, Hk, (requireAttempt_of p k s _ a Hs Ha).
  cbn [mbind res_bind]. rewrite Ht. cbn [assertReducerTransition rethrow mbind res_bind].
  apply elem_of_cons in Hst as [Hst|Hst%list_elem_of_singleton]; rewrite Hst; done.
Qed.

Lemma attempt_created_run ids data childRunId :
  plan_shape ids p → ac_planId data = mp_planId p → ac_planRevision data = mp_revision p → ac_stepId data = k →
  ac_childRunId data = Some childRunId →
  ac_ordinal data = Z.of_nat (length (ms_attempts s)) + 1 → Z.of_nat (length (ms_attempts s)) < ms_maxAttempts s →
  stable_id "attempt" (ac_attemptId data) ∉ ids → stable_id "child-run" childRunId ∉ ids →
  on_attempt_created ids (Some p) data =
    Ok (stable_id "child-run" childRunId :: stable_id "attempt" (ac_attemptId data) :: ids,
        mutate_step p k (λ s, with_attempts s (ms_attempts s ++ [(ac_attemptId data, new_attempt data)]))).
Proof.
  intros Hshape Hid Hrev Hk Hc Ho Hleft Hfresh Hchild.
  assert (step_shape ids k s) as Hss by (apply (ps_steps _ _ Hshape); by apply mget_elem_inv).
  assert (ac_attemptId data ∉ (ms_attempts s).*1) as Hkey.
  { intros ([ka a] & Heq & Hin)%list_elem_of_fmap. cbn in Heq. apply Hfresh. rewrite Heq. by apply (ssh_attempts _ _ _ Hss ka a). }
  unfold on_attempt_created. rewrite Hid, Hrev, Hk, (requireStep_of p k s Hs), Hc. cbn [mbind res_bind].
  replace (existsb _ _) with false.
  2:{ symmetry. apply existsb_false, Forall_forall. intros [ka a] Hin. cbn. apply Z.eqb_neq.
      apply (list_elem_of_fmap_2 snd), (list_elem_of_fmap_2 ma_ordinal) in Hin.
      rewrite (ssh_ordinals _ _ _ Hss) in Hin. apply elem_of_seqZ in Hin. cbn in Hin. lia. }
  rewrite Ho, Z.eqb_refl. replace (ms_maxAttempts s <? _) with false by lia.
  cbn [negb orb reject_if fail_if mbind res_bind].
  unfold useStableId. rewrite useId_fresh by done. cbn [mbind res_bind].
  rewrite useId_fresh by (apply not_elem_of_cons; split; [|done]; apply not_eq_sym; done).
  cbn [mbind res_bind required_value]. do 2 f_equal. eapply mutate_step_ext; [exact Hshape|exact Hs|].
  by rewrite mset_fresh.
Qed.

Lemma execution_bound_run corr data a request :
  seb_planId data = mp_planId p → seb_planRevision data = mp_revision p → seb_stepId data = k →
  mget (seb_attemptId data) (ms_attempts s) = Some a →
  validateSubagentExecutionRequestV1 (seb_request data) = Ok request → ma_state a = A_running → ma_execution a = None →
  ma_childRunId a = Some (seb_childRunId data) → mget "parentRunId"%string corr = Some (sr_parentRunId request) →
  sr_childRunId request = seb_childRunId data →
  on_subagent_execution_bound (Some p) corr data =
    Ok (mutate_attempt p k (seb_attemptId data)
          (λ a, with_execution a {| ex_request := request; ex_retrySafety := seb_retrySafety data |})).
Proof.
  intros Hid Hrev Hk Ha Hreq Hst He Hc Hcorr Hchild. unfold on_subagent_execution_bound.
  rewrite Hid, Hrev, Hk, (requireAttempt_of p k s _ a Hs Ha), Hreq. cbn [mbind res_bind].
  rewrite Hst, He, Hc, Hcorr, Hchild, !bool_decide_eq_false_2 by auto. done.
Qed.
End Handlers.

(** ** The effect of drafts *)

(** What the drafts of the planner services read and write. *)
Record DraftView := { dv_ids : list string; dv_plan : MutablePlan; dv_runs : SessionRuns }.
Definition view_plan (v : DraftView) (p : MutablePlan) : DraftView :=
  {| dv_ids := dv_ids v; dv_plan := p; dv_runs := dv_runs v |}.

Section Steps.
Context `{JsEngine} (runId : string).

Definition draft_step (v : DraftView) (draft : typed_draft) : res DraftView :=
  match draft.2 with
  | attempt_created d =>
      r ← on_attempt_created (dv_ids v) (Some (dv_plan v)) d;
      Ok {| dv_ids := r.1; dv_plan := r.2; dv_runs := dv_runs v |}
  | step_state_changed d => view_plan v <$> on_step_state_changed (Some (dv_plan v)) d
  | attempt_state_changed d => view_plan v <$> on_attempt_state_changed (Some (dv_plan v)) d
  | subagent_execution_bound d => view_plan v <$> on_subagent_execution_bound (Some (dv_plan v)) draft.1 d
  | plan_decision_recorded d => view_plan v <$> on_plan_decision_recorded (Some (dv_plan v)) d
  | plan_state_changed d => view_plan v <$> on_plan_state_changed (Some (dv_plan v)) d
  | plan_revised d => view_plan v <$> on_plan_revised (Some (dv_plan v)) d
  | step_created d =>
      r ← on_step_created (dv_ids v) (Some (dv_plan v)) d;
      Ok {| dv_ids := r.1; dv_plan := r.2; dv_runs := dv_runs v |}
  | usage_recorded _ usage =>
      runs ← on_usage_recorded (dv_runs v) (Some runId) usage;
      Ok {| dv_ids := dv_ids v; dv_plan := dv_plan v; dv_runs := runs |}
  | _ => Err "SESSION_REDUCER_TRANSITION_INVALID"
  end.
Fixpoint draft_steps (v : DraftView) (drafts : list typed_draft) : res DraftView :=
  match drafts with
  | [] => Ok v
  | draft :: drafts => v ← draft_step v draft; draft_steps v drafts
  end.

Lemma draft_steps_app v a b : draft_steps v (a ++ b) = (w ← draft_steps v a; draft_steps w b).
Proof. revert v. induction a as [|x a IH]; intros v; cbn; [done|]. destruct (draft_step v x); cbn; [apply IH|done]. Qed.

(** Drafts keep the shape of the plan. *)
Lemma draft_steps_shape v drafts v' :
  plan_shape (dv_ids v) (dv_plan v) → draft_steps v drafts = Ok v' → plan_shape (dv_ids v') (dv_plan v').
Proof.
  revert v. induction drafts as [|draft drafts IH]; intros v Hsh; [by intros [= <-]|].
  intros (w & Hw & Hd)%bind_Ok. revert Hd. apply IH.
  pose proof (on_attempt_created_shape _ (Some (dv_plan v)) Hsh) as H1.
  pose proof (on_step_state_changed_shape _ (Some (dv_plan v)) Hsh) as H2.
  pose proof (on_attempt_state_changed_shape _ (Some (dv_plan v)) Hsh) as H3.
  pose proof (on_subagent_execution_bound_shape _ (Some (dv_plan v)) Hsh) as H4.
  pose proof (on_plan_state_changed_shape _ (Some (dv_plan v)) Hsh) as H5.
  pose proof (on_plan_revised_shape _ (Some (dv_plan v)) Hsh) as H6.
  pose proof (on_step_created_shape _ (Some (dv_plan v)) Hsh) as H7.
  unfold draft_step in Hw. destruct draft as [corr []]; try discriminate Hw; cbn [snd fst] in Hw; inv_ok; eauto.
  - match goal with Hd : on_plan_decision_recorded _ _ = Ok _ |- _ =>
      apply on_plan_decision_recorded_same in Hd; injection Hd as <-; exact Hsh end.
  - by eapply H7.
  - by eapply H1.
Qed.
End Steps.

Section Replay.
Context `{JsEngine} `{JsCrypto} `{RP : ReviewPlanContract} (createId : nat → string → string).
Context (sid runId timestamp : string) (pj : SessionProjectionV3) (calls : nat).
Hypothesis HcreateId : ∀ m n kind, createId m kind = createId n kind → m = n.

Abbreviation entry_at := (draft_entry createId sid runId timestamp pj calls).

(** [n] of the entries have been reduced. *)
Record at_index (st : SessionState) (n : nat) : Prop := {
  ai_seq : en_sequence (ss_previous st) = sn_sequence (pj_snapshot pj) + Z.of_nat n;
  ai_rev : sn_revision (pj_snapshot pj) ≤ en_revision (ss_previous st) ≤ sn_revision (pj_snapshot pj) + 1;
  ai_ts : string_ltb timestamp (en_timestamp (ss_previous st)) = false;
  ai_open : me_lifecycle (ss_meta st) = L_open;
  ai_ids : ∀ m, (n ≤ m)%nat → createId (calls + m) "entry" ∉ id_entryIds (ss_ids st);
}.

Lemma entry_at_reaches st n draft :
  at_index st n →
  reduce_entry sid false st (entry_at n draft) =
    (st1 ← apply_entry sid false (entered st (entry_at n draft)) (entry_at n draft); Ok (put_previous st1 (entry_at n draft))).
Proof.
  intros [Hseq Hrev Hts Hopen Hids]. apply reduce_entry_reaches; [done| |done|by apply (Hids n)].
  split; [cbn; lia|]. split; [cbn; lia|done].
Qed.
Lemma entry_at_step st n draft st1 :
  at_index st n → apply_entry sid false (entered st (entry_at n draft)) (entry_at n draft) = Ok st1 →
  ss_meta st1 = ss_meta st →
  id_entryIds (ss_ids st1) = en_entryId (entry_at n draft) :: id_entryIds (ss_ids st) →
  reduce_entry sid false st (entry_at n draft) = Ok (put_previous st1 (entry_at n draft)) ∧
  at_index (put_previous st1 (entry_at n draft)) (S n).
Proof.
  intros Hi Ha Hmeta Hentry. split; [by rewrite entry_at_reaches, Ha|]. destruct Hi as [Hseq Hrev Hts Hopen Hids].
  split; cbn [ss_previous put_previous ss_meta ss_ids en_sequence en_revision en_timestamp draft_entry typed_entry].
  - lia.
  - lia.
  - apply string_ltb_irrefl.
  - by rewrite Hmeta.
  - intros m Hm. rewrite Hentry. apply not_elem_of_cons. split; [|apply Hids; lia].
    cbn. intros Heq%HcreateId. lia.
Qed.

(** The part of the state that the drafts act on, and what they leave alone. *)
Definition at_view (st : SessionState) (v : DraftView) : Prop :=
  ss_plan st = Some (dv_plan v) ∧ id_stableIds (ss_ids st) = dv_ids v ∧ ss_runs st = dv_runs v.
Record kept_rest (st st' : SessionState) : Prop := {
  kr_meta : ss_meta st' = ss_meta st;
  kr_log : ss_log st' = ss_log st;
  kr_checkpoint : ss_checkpoint st' = ss_checkpoint st;
  kr_review : ss_review st' = ss_review st;
}.

Lemma draft_step_replay st n v draft v' :
  at_index st n → at_view st v → draft_step runId v draft = Ok v' →
  ∃ st', reduce_entry sid false st (entry_at n draft) = Ok st' ∧ at_index st' (S n) ∧ at_view st' v' ∧ kept_rest st st'.
Proof.
  intros Hi (Hp & Hs & Hr) Hv.
  assert (∃ st1, apply_entry sid false (entered st (entry_at n draft)) (entry_at n draft) = Ok st1 ∧
    kept_rest st st1 ∧ id_entryIds (ss_ids st1) = en_entryId (entry_at n draft) :: id_entryIds (ss_ids st) ∧
    at_view st1 v') as (st1 & Ha & Hk & Hids & Hv1).
  { destruct draft as [corr data]. unfold apply_entry. cbn [en_data draft_entry typed_entry snd].
    destruct data; try discriminate Hv; cbn [draft_step snd fst] in Hv; unfold entered;
      cbn [ss_plan ss_ids ss_runs put_ids id_stableIds en_runId en_correlation draft_entry typed_entry fst]; rewrite ?Hp, ?Hs, ?Hr;
      inv_ok; match goal with E : ?h = Ok _ |- context [?h] => rewrite E end;
      cbn [fmap res_fmap mbind res_bind]; eexists; split_and!; try done; split_and!; done. }
  destruct (entry_at_step st n draft st1 Hi Ha (kr_meta _ _ Hk) Hids) as [He Hi1].
  eexists. split_and!; [exact He|exact Hi1|exact Hv1|]. by destruct Hk.
Qed.

Lemma draft_steps_replay drafts st n v v' :
  at_index st n → at_view st v → draft_steps runId v drafts = Ok v' →
  ∃ st', reduce_entries sid st (imap (λ i, entry_at (n + i)) drafts) = Ok st' ∧
    at_index st' (n + length drafts) ∧ at_view st' v' ∧ kept_rest st st'.
Proof.
  revert st n v. induction drafts as [|draft drafts IH]; intros st n v Hi Hv Hd.
  { injection Hd as <-. exists st. rewrite Nat.add_0_r. split_and!; done. }
  cbn in Hd. apply bind_Ok in Hd as (w & Hw & Hd).
  destruct (draft_step_replay st n v draft w Hi Hv Hw) as (st1 & E1 & I1 & V1 & K1).
  destruct (IH st1 (S n) w I1 V1 Hd) as (st2 & E2 & I2 & V2 & K2).
  exists st2. split_and!; [|by replace (n + length (draft :: drafts))%nat with (S n + length drafts)%nat by (cbn; lia)|done|].
  - cbn [imap reduce_entries]. rewrite Nat.add_0_r, E1. cbn [mbind res_bind]. rewrite <-E2. f_equal.
    apply imap_ext. intros i d _. unfold compose. f_equal. lia.
  - destruct K1, K2. split; congruence.
Qed.

(** The reducer stops where the change of a step is refused. *)
Lemma draft_steps_refused before corr d after st n v v' code :
  at_index st n → at_view st v → draft_steps runId v before = Ok v' → draft_step runId v' (corr, step_state_changed d) = Err code →
  reduce_entries sid st (imap (λ i, entry_at (n + i)) (before ++ (corr, step_state_changed d) :: after)) = Err code.
Proof.
  intros Hi Hv Hb Hd. destruct (draft_steps_replay before st n v v' Hi Hv Hb) as (st' & Hred & Hi' & (Hp & _ & _) & _).
  rewrite imap_app, reduce_entries_app, Hred. cbn [mbind res_bind imap reduce_entries]. unfold compose. rewrite Nat.add_0_r.
  rewrite entry_at_reaches by done. unfold apply_entry. cbn [en_data draft_entry typed_entry snd entered ss_plan put_ids].
  rewrite Hp. unfold draft_step in Hd. cbn [snd] in Hd. destruct (on_step_state_changed _ _); [done|]. by injection Hd as ->.
Qed.
End Replay.

(** ** Drafts after the head of a journal *)

(** The identities that the runtime creates are new: no two calls return the
    same one, and none is in the journal. *)
Record fresh_ids (createId : nat → string → string) (st : SessionState) : Prop := {
  fi_inj : ∀ m n kind, createId m kind = createId n kind → m = n;
  fi_entry : ∀ n, createId n "entry"%string ∉ id_entryIds (ss_ids st);
  fi_attempt : ∀ n, stable_id "attempt" (createId n "attempt"%string) ∉ id_stableIds (ss_ids st);
  fi_child : ∀ n, stable_id "child-run" (createId n "child-run"%string) ∉ id_stableIds (ss_ids st);
}.

Section Head.
Context `{JsEngine} `{JsCrypto} `{RP : ReviewPlanContract} (createId : nat → string → string).

Lemma project_session_updated first data st pj :
  project_session first data st = Ok pj → ca_updatedAt (pj_catalog pj) = en_timestamp (ss_previous st).
Proof. unfold project_session. intros Hp. by inv_ok. Qed.

(** A running run keeps the session open. *)
Lemma running_open first data st es r :
  reduce_state es = Ok (first, data, st) → r ∈ sn_runs (project_snapshot first data st) → rn_state r = R_running →
  me_lifecycle (ss_meta st) = L_open.
Proof.
  intros Hst Hr Hrun. cbn in Hr. pose proof (reduce_runs_wf _ _ _ _ Hst) as Hwf.
  apply list_elem_of_fmap in Hr as ([k r'] & -> & Hin).
  apply (rw_running _ Hwf _ _ Hin) in Hrun. apply dec_stable. intros Hne. by rewrite (rw_open _ Hwf Hne) in Hrun.
Qed.

Section Drafts.
Context (es : list SessionEntryV3) (pj : SessionProjectionV3) (first : SessionEntryV3) (data : SessionCreatedData) (st : SessionState).
Context (runId now : string) (calls : nat) (p : MutablePlan) (r : SessionRunProjectionV3).
Hypothesis Hes : reduceSessionEntriesV3 es = Ok pj.
Hypothesis Hst : reduce_state es = Ok (first, data, st).
Hypothesis Hr : r ∈ sn_runs (pj_snapshot pj).
Hypothesis Hrun : rn_state r = R_running.
Hypothesis Hfresh : fresh_ids createId st.
Hypothesis Hp : ss_plan st = Some p.

Abbreviation sid := (sn_sessionId (pj_snapshot pj)).
Abbreviation drafted drafts := (imap (draft_entry createId sid runId (maxInstant now (ca_updatedAt (pj_catalog pj))) pj calls) drafts).
Abbreviation view := {| dv_ids := id_stableIds (ss_ids st); dv_plan := p; dv_runs := ss_runs st |}.

Lemma head_index : at_index createId (maxInstant now (ca_updatedAt (pj_catalog pj))) pj calls st 0.
Proof.
  pose proof Hes as (f' & d' & st2 & Hst2 & Hpj)%reduce_session_Ok. rewrite Hst in Hst2. injection Hst2 as <- <- <-.
  pose proof (project_session_Ok _ _ _ _ Hpj) as (Hsn & _). pose proof Hr as Hr'. rewrite Hsn in Hr'. split.
  - rewrite Hsn. cbn. lia.
  - rewrite Hsn. cbn. lia.
  - rewrite (project_session_updated _ _ _ _ Hpj). apply maxInstant_not_before.
  - by eapply running_open.
  - intros m _. apply Hfresh.
Qed.
Lemma drafted_reduces drafts :
  Z.of_nat (length (es ++ drafted drafts)) ≤ MAX_ENTRIES →
  reduce_state (es ++ drafted drafts) = (st' ← reduce_entries sid st (drafted drafts); Ok (first, data, st')).
Proof.
  intros Hlen. rewrite (reduce_state_app _ _ _ _ _ Hst Hlen).
  pose proof Hes as (f' & d' & st2 & Hst2 & Hpj)%reduce_session_Ok. rewrite Hst in Hst2. injection Hst2 as <- <- <-.
  by rewrite (proj1 (project_session_Ok _ _ _ _ Hpj)).
Qed.

(** Drafts whose steps succeed are appended to the journal of a running session. *)
Lemma drafts_appended drafts v' :
  draft_steps runId view drafts = Ok v' → Z.of_nat (length (es ++ drafted drafts)) ≤ MAX_ENTRIES →
  ∃ st', reduce_state (es ++ drafted drafts) = Ok (first, data, st') ∧ at_view st' v' ∧ kept_rest st st'.
Proof.
  intros Hsteps Hlen.
  destruct (draft_steps_replay createId sid runId (maxInstant now (ca_updatedAt (pj_catalog pj))) pj calls
    (fi_inj _ _ Hfresh) drafts st 0 view v' head_index) as (st' & Hred & _ & Hv & Hk); [by split_and!|done|].
  exists st'. split; [|done]. rewrite drafted_reduces by done. change (imap _ drafts) with (drafted drafts) in Hred. by rewrite Hred.
Qed.
(** Where the change of a step is refused, so is the whole journal. *)
Lemma drafts_refused before corr d after v' code :
  draft_steps runId view before = Ok v' → draft_step runId v' (corr, step_state_changed d) = Err code →
  Z.of_nat (length (es ++ drafted (before ++ (corr, step_state_changed d) :: after))) ≤ MAX_ENTRIES →
  reduce_state (es ++ drafted (before ++ (corr, step_state_changed d) :: after)) = Err code.
Proof.
  intros Hb Hd Hlen. rewrite drafted_reduces by done.
  rewrite (draft_steps_refused createId sid runId (maxInstant now (ca_updatedAt (pj_catalog pj))) pj calls
    (fi_inj _ _ Hfresh) before corr d after st 0 view v' code head_index); [done|by split_and!|done|done].
Qed.
End Drafts.
(** The commit extends the head of the journal. *)
Lemma head_commit (c : SessionCommitV3) sid runId timestamp pj calls drafts :
  sc_expectedRevision c = sn_revision (pj_snapshot pj) →
  sc_entries c = imap (draft_entry createId sid runId timestamp pj calls) drafts → drafts ≠ [] →
  assertSessionCommitAgainstHeadV3 c (Some {| hd_revision := sn_revision (pj_snapshot pj);
    hd_sequence := sn_sequence (pj_snapshot pj) |}) = Ok tt.
Proof.
  intros Hexp Hentries Hne. unfold assertSessionCommitAgainstHeadV3. rewrite Hexp, Hentries.
  cbn [default from_option fmap option_fmap option_map hd_revision hd_sequence id].
  rewrite Z.eqb_refl. cbn [negb fail_if mbind res_bind].
  destruct drafts as [|draft drafts]; [done|]. cbn -[Z.add]. by rewrite Z.add_0_r, Z.eqb_refl.
Qed.

End Head.
