(* ===== verification/DagScheduler.v ===== *)
(** * The DAG scheduler: apps/runtime/src/planner/dagScheduler.ts

    One scheduling decision over the durable projection of a session: what is
    ready, what conflicts, what the budgets leave, which decision is returned and
    which journal entries claim the chosen steps.  The journal is the projection
    that [loadProjection] returns and the commit that [appendCommit] receives;
    [createId] is a function of the number of its call and its argument, and the
    two readings of the clock are [now] and [now_claim]. *)

From S2P Require Import Prelude Js CanonicalJson Plan Session SessionReducer SessionEntry SessionCommit JournalDrafts.
Local Open Scope Z_scope.

Definition MAX_PARALLEL_STEPS : Z := 32.
Definition ACTIVE_STEP_STATES : list PlanStepStateV1 := [S_running; S_verifying].
Definition ACTIVE_CHILD_STATES : list PlanAttemptStateV1 := [A_reserved; A_running].

Inductive DagFailureModeV1 := fail_fast | collect_partial.
#[export] Instance DagFailureModeV1_dec : EqDecision DagFailureModeV1.
Proof. solve_decision. Defined.

Record DagScheduleInputV1 := {
  di_sessionId : string;
  di_parentRunId : string;
  di_planId : string;
  di_parentBudget : ExecutionBudget;
  di_failureMode : DagFailureModeV1;
}.

Record DagStepClaimV1 := {
  cl_stepId : string;
  cl_attemptId : string;
  cl_childRunId : string;
  cl_ordinal : Z;
  cl_budget : ExecutionBudget;
}.

Inductive DagDecisionState :=
| D_claimed | D_waiting | D_complete | D_failed | D_blocked | D_cancelled | D_interrupted
| D_budget_exhausted | D_deadlocked.

Record CapacityCounters := {
  cumulativeChildRuns : Z;
  activeChildSlots : Z;
  activeSteps : Z;
}.

Record DagScheduleDecisionV1 := {
  dd_state : DagDecisionState;
  dd_claims : list DagStepClaimV1;
  dd_reasonCode : option string;
  dd_revision : Z;
  dd_counters : CapacityCounters;
}.

(** ** Guards *)

Definition maxParallelSteps_of (policy : option Z) : res Z :=
  let maxParallelSteps := default 2 policy in
  fail_if (negb (isSafeInteger (JInt maxParallelSteps)) || (maxParallelSteps <? 1)
           || (MAX_PARALLEL_STEPS <? maxParallelSteps)) "DAG_SCHEDULER_POLICY_INVALID";;
  Ok maxParallelSteps.

Definition validateInput `{JsEngine} (input : DagScheduleInputV1) : res unit :=
  let budget := di_parentBudget input in
  fail_if (negb (SAFE_ID (di_sessionId input)) || negb (SAFE_ID (di_parentRunId input))
           || negb (SAFE_ID (di_planId input))) "DAG_SCHEDULER_INPUT_INVALID";;
  fail_if (existsb (λ value, negb (isSafeInteger (JInt value)) || (value <? 0))
    [eb_maxTurns budget; eb_maxToolCalls budget; eb_maxChildRuns budget; eb_maxParallelChildren budget;
     eb_maxDepth budget]) "DAG_SCHEDULER_INPUT_INVALID";;
  fail_if (match eb_maxTokens budget with
           | Some n => negb (isSafeInteger (JInt n)) || (n <? 0)
           | None => false
           end
           || match eb_deadlineAt budget with
              | Some d => negb (timestamp (JStr d))
              | None => false
              end) "DAG_SCHEDULER_INPUT_INVALID".

Definition requirePlan (projection : SessionProjectionV3) (planId : string) :
    res SessionPlanGraphProjectionV3 :=
  match pj_planGraph projection with
  | Some plan => fail_if (bool_decide (gr_planId plan ≠ planId)) "DAG_PLAN_NOT_FOUND";; Ok plan
  | None => Err "DAG_PLAN_NOT_FOUND"
  end.

Definition run_active (runId : string) (run : SessionRunProjectionV3) : bool :=
  bool_decide (rn_runId run = runId) && bool_decide (rn_state run = R_running).

Definition requireActiveRun (projection : SessionProjectionV3) (runId : string) : res unit :=
  fail_if (negb (existsb (run_active runId) (sn_runs (pj_snapshot projection))))
    "DAG_PARENT_RUN_NOT_ACTIVE".

Definition currentRunBudgetUsageV1 (projection : SessionProjectionV3) (parentRunId : string) :
    res BudgetUsage :=
  match findb (λ candidate, bool_decide (rn_runId candidate = parentRunId))
          (sn_runs (pj_snapshot projection)) with
  | Some run =>
      fail_if (bool_decide (rn_state run ≠ R_running)) "DAG_PARENT_RUN_NOT_ACTIVE";;
      Ok (normalizeBudgetUsage (rn_usage run))
  | None => Err "DAG_PARENT_RUN_NOT_ACTIVE"
  end.

(** [deadlineAt !== undefined && now >= deadlineAt]. *)
Definition deadlineReached (deadlineAt : option string) (now : string) : bool :=
  match deadlineAt with Some d => negb (string_ltb now d) | None => false end.

(** ** Counters and selection *)

Definition attempt_active (attempt : SessionAttemptProjectionV3) : bool :=
  one_of (ap_state attempt) ACTIVE_CHILD_STATES.
Definition step_active (step : SessionStepProjectionV3) : bool :=
  one_of (sp_state step) ACTIVE_STEP_STATES.

Definition countCapacity (plan : SessionPlanGraphProjectionV3) : CapacityCounters :=
  {| cumulativeChildRuns := reduce_sum (λ step, Z.of_nat (length (sp_attempts step))) (gr_steps plan);
     activeChildSlots :=
       reduce_sum (λ step, Z.of_nat (length (List.filter attempt_active (sp_attempts step))))
         (gr_steps plan);
     activeSteps := Z.of_nat (length (List.filter step_active (gr_steps plan))) |}.

(** [left.order - right.order || left.stepId.localeCompare(right.stepId)] is at most 0. *)
Definition compareSteps `{JsEngine} (left right : SessionStepProjectionV3) : bool :=
  (sp_order left <? sp_order right)
  || (sp_order left =? sp_order right)
     && match localeCompare (sp_stepId left) (sp_stepId right) with Gt => false | _ => true end.

(** The loop, with the number of steps selected so far. *)
Fixpoint select_from (ready : list SessionStepProjectionV3) (claimedKeys : list string)
    (selected capacity : Z) : list SessionStepProjectionV3 :=
  match ready with
  | [] => []
  | step :: ready =>
      if capacity <=? selected then []
      else if existsb (λ key, memb key claimedKeys) (sp_conflictKeys step)
      then select_from ready claimedKeys selected capacity
      else step :: select_from ready (claimedKeys ++ sp_conflictKeys step) (selected + 1) capacity
  end.

Definition selectConflictFree (ready : list SessionStepProjectionV3) (activeKeys : list string)
    (capacity : Z) : list SessionStepProjectionV3 := select_from ready activeKeys 0 capacity.

Definition activeConflictKeys (plan : SessionPlanGraphProjectionV3) : list string :=
  List.filter step_active (gr_steps plan) ≫= sp_conflictKeys.

(** ** Budgets *)

Definition hasMinimumExecutionBudget (remaining : ExecutionBudget) : bool :=
  (0 <? eb_maxTurns remaining)
  && match eb_maxTokens remaining with Some n => 0 <? n | None => true end.

(** The spread of a budget with other turns, tool calls and tokens. *)
Definition with_amounts (budget : ExecutionBudget) (maxTurns maxToolCalls : Z) (maxTokens : option Z) :
    ExecutionBudget :=
  {| eb_maxTurns := maxTurns; eb_maxToolCalls := maxToolCalls; eb_maxTokens := maxTokens;
     eb_maxChildRuns := eb_maxChildRuns budget; eb_maxParallelChildren := eb_maxParallelChildren budget;
     eb_maxDepth := eb_maxDepth budget; eb_deadlineAt := eb_deadlineAt budget |}.

Definition subtractExecutionBudget (remaining requested : ExecutionBudget) : ExecutionBudget :=
  with_amounts remaining
    (Z.max 0 (eb_maxTurns remaining - eb_maxTurns requested))
    (Z.max 0 (eb_maxToolCalls remaining - eb_maxToolCalls requested))
    ((λ n, Z.max 0 (n - default n (eb_maxTokens requested))) <$> eb_maxTokens remaining).

(** The lease of one step while [slots] steps are still to serve. *)
Definition lease (step : SessionStepProjectionV3) (remaining : ExecutionBudget) (slots : Z) :
    ExecutionBudget :=
  let budget := sp_budget step in
  with_amounts budget
    (Z.min (eb_maxTurns budget) (Z.max 1 (eb_maxTurns remaining / slots)))
    (Z.min (eb_maxToolCalls budget) (Z.max 0 (eb_maxToolCalls remaining / slots)))
    (match eb_maxTokens remaining with
     | None => eb_maxTokens budget
     | Some n => Some (Z.min (default n (eb_maxTokens budget)) (Z.max 1 (n / slots)))
     end).

Fixpoint lease_from (steps : list SessionStepProjectionV3) (remaining : ExecutionBudget) :
    list (SessionStepProjectionV3 * ExecutionBudget) :=
  match steps with
  | [] => []
  | step :: rest =>
      let budget := lease step remaining (Z.of_nat (length steps)) in
      if eb_maxTurns budget <? 1 then []
      else (step, budget) :: lease_from rest (subtractExecutionBudget remaining budget)
  end.

Definition allocateBudgetLeases (steps : list SessionStepProjectionV3) (available : ExecutionBudget) :
    list (SessionStepProjectionV3 * ExecutionBudget) :=
  if negb (hasMinimumExecutionBudget available) then [] else lease_from steps available.

Definition remainingExecutionBudget (parent : ExecutionBudget) (usage : BudgetUsage)
    (active : list SessionStepProjectionV3) : ExecutionBudget :=
  let usedTokens := default 0 (pu_inputTokens (bu_provider usage))
                    + default 0 (pu_outputTokens (bu_provider usage)) in
  foldl (λ remaining step, subtractExecutionBudget remaining (sp_budget step))
    (with_amounts parent
       (Z.max 0 (eb_maxTurns parent - bu_turns usage))
       (Z.max 0 (eb_maxToolCalls parent - bu_toolCalls usage))
       ((λ n, Z.max 0 (n - usedTokens)) <$> eb_maxTokens parent))
    active.

(** ** Decisions *)

Definition decision (state : DagDecisionState) (projection : SessionProjectionV3)
    (counters : CapacityCounters) (reasonCode : option string) : DagScheduleDecisionV1 :=
  {| dd_state := state; dd_claims := []; dd_reasonCode := reasonCode;
     dd_revision := sn_revision (pj_snapshot projection); dd_counters := counters |}.

Definition terminalDecision (plan : SessionPlanGraphProjectionV3) (projection : SessionProjectionV3)
    (counters : CapacityCounters) : res DagScheduleDecisionV1 :=
  match gr_state plan with
  | P_succeeded => Ok (decision D_complete projection counters None)
  | P_failed => Ok (decision D_failed projection counters None)
  | P_blocked => Ok (decision D_blocked projection counters None)
  | P_cancelled => Ok (decision D_cancelled projection counters None)
  | P_interrupted => Ok (decision D_interrupted projection counters None)
  | P_draft => Ok (decision D_blocked projection counters (Some "DAG_PLAN_NOT_STARTED"%string))
  | P_running => Err "DAG_PLAN_STATE_INVALID"
  end.

Definition hasAttemptLimitBlock (plan : SessionPlanGraphProjectionV3) : bool :=
  existsb (λ step, bool_decide (sp_state step = S_pending)
                   && (sp_maxAttempts step <=? Z.of_nat (length (sp_attempts step)))) (gr_steps plan).

(** ** Claims *)

(** The three drafts of a claim, under one correlation. *)
Definition claimEvents (input : DagScheduleInputV1) (plan : SessionPlanGraphProjectionV3)
    (step : SessionStepProjectionV3) (claim : DagStepClaimV1) : list JournalEventDraft :=
  let correlation := JObj
    [("parentRunId", JStr (di_parentRunId input)); ("childRunId", JStr (cl_childRunId claim));
     ("planId", JStr (gr_planId plan)); ("stepId", JStr (sp_stepId step));
     ("attemptId", JStr (cl_attemptId claim))]%string in
  let authority :=
    [("planId", JStr (gr_planId plan)); ("planRevision", JInt (gr_revision plan));
     ("stepId", JStr (sp_stepId step))]%string in
  [{| dr_type := "attempt.created"; dr_correlation := correlation;
      dr_data := JObj (authority ++ [("attemptId", JStr (cl_attemptId claim));
        ("ordinal", JInt (cl_ordinal claim)); ("state", JStr "reserved");
        ("childRunId", JStr (cl_childRunId claim))]%string) |};
   {| dr_type := "step.state_changed"; dr_correlation := correlation;
      dr_data := JObj (authority ++ [("state", JStr "running")]%string) |};
   {| dr_type := "attempt.state_changed"; dr_correlation := correlation;
      dr_data := JObj (authority ++ [("attemptId", JStr (cl_attemptId claim)); ("state", JStr "running")]%string) |}].

Section Schedule.
Context `{JsEngine} `{JsCrypto} `{RP : ReviewPlanContract}.
Context (maxParallelSteps : Z) (createId : nat → string → string) (now now_claim : string).

Definition make_claim (index : nat) (leased : SessionStepProjectionV3 * ExecutionBudget) :
    DagStepClaimV1 :=
  {| cl_stepId := sp_stepId leased.1; cl_attemptId := createId (2 * index) "attempt";
     cl_childRunId := createId (2 * index + 1) "child-run";
     cl_ordinal := Z.of_nat (length (sp_attempts leased.1)) + 1; cl_budget := leased.2 |}.

(** The value of the entry that the draft number [index] becomes. *)
Definition claim_value (input : DagScheduleInputV1) (projection : SessionProjectionV3) (calls : nat)
    (index : nat) (draft : JournalEventDraft) : jsval :=
  draft_value createId (di_sessionId input) (di_parentRunId input)
    (maxInstant now_claim (ca_updatedAt (pj_catalog projection))) projection calls index draft.

Definition claim (input : DagScheduleInputV1) (projection : SessionProjectionV3)
    (plan : SessionPlanGraphProjectionV3) (leased : list (SessionStepProjectionV3 * ExecutionBudget))
    (counters : CapacityCounters) : res (DagScheduleDecisionV1 * option SessionCommitV3) :=
  let claims := imap make_claim leased in
  let events := zip leased claims ≫= λ '(l, claim), claimEvents input plan l.1 claim in
  let token := createId (2 * length leased) "dag-claim" in
  let values := imap (claim_value input projection (2 * length leased + 1)) events in
  mapM validateSessionEntryV3 values;;
  commit ← createSessionCommitV3
    {| ci_sessionId := di_sessionId input; ci_commitId := "commit-" +:+ token;
       ci_expectedRevision := sn_revision (pj_snapshot projection);
       ci_idempotencyKey := "idem-" +:+ token; ci_entries := values |};
  let count := Z.of_nat (length claims) in
  Ok ({| dd_state := D_claimed; dd_claims := claims; dd_reasonCode := None;
         dd_revision := sn_revision (pj_snapshot projection) + 1;
         dd_counters := {| cumulativeChildRuns := cumulativeChildRuns counters + count;
                           activeChildSlots := activeChildSlots counters + count;
                           activeSteps := activeSteps counters + count |} |}, Some commit).

Definition orderedReady (plan : SessionPlanGraphProjectionV3) : list SessionStepProjectionV3 :=
  js_sort compareSteps (List.filter (λ step, memb (sp_stepId step) (gr_readyStepIds plan)) (gr_steps plan)).

Definition step_expired (step : SessionStepProjectionV3) : bool :=
  deadlineReached (eb_deadlineAt (sp_budget step)) now.

Definition step_failed (step : SessionStepProjectionV3) : bool :=
  one_of (sp_state step) [S_failed; S_interrupted].

(** [failedStep?.errorCode ?? 'DAG_STEP_FAILED']. *)
Definition failure_code (failedStep : option SessionStepProjectionV3) : string :=
  default "DAG_STEP_FAILED"%string (failedStep ≫= sp_errorCode).

(** What is decided when nothing can be claimed.  The first test repeats the one
    that [schedule] has made before. *)
Definition idle_decision (input : DagScheduleInputV1) (projection : SessionProjectionV3)
    (plan : SessionPlanGraphProjectionV3) (counters : CapacityCounters) (cumulativeCapacity : Z)
    (remaining : ExecutionBudget) : DagScheduleDecisionV1 :=
  let failedStep := findb step_failed (gr_steps plan) in
  let blocked := existsb (λ step, bool_decide (sp_state step = S_blocked)) (gr_steps plan) in
  let expired := List.filter step_expired (orderedReady plan) in
  let live := existsb (λ step, negb (step_expired step)) (orderedReady plan) in
  if (0 <? activeSteps counters) || (0 <? activeChildSlots counters)
  then decision D_waiting projection counters (Some "DAG_ACTIVE_WORK"%string)
  else if forallb (λ step, bool_decide (sp_state step = S_succeeded)) (gr_steps plan)
  then decision D_complete projection counters None
  else if negb (Nat.eqb (length expired) 0)
  then decision D_blocked projection counters (Some "DAG_STEP_DEADLINE_EXCEEDED"%string)
  else if (cumulativeCapacity =? 0) || (eb_maxParallelChildren (di_parentBudget input) =? 0)
  then decision D_budget_exhausted projection counters (Some "DAG_CHILD_BUDGET_EXHAUSTED"%string)
  else if live && negb (existsb (λ step, negb (step_expired step) && hasMinimumExecutionBudget remaining)
                          (orderedReady plan))
  then decision D_budget_exhausted projection counters (Some "DAG_EXECUTION_BUDGET_EXHAUSTED"%string)
  else if blocked then decision D_blocked projection counters (Some "DAG_STEP_BLOCKED"%string)
  else if negb (is_none failedStep)
  then decision D_failed projection counters (Some (failure_code failedStep))
  else if hasAttemptLimitBlock plan
  then decision D_blocked projection counters (Some "DAG_ATTEMPT_LIMIT_REACHED"%string)
  else decision D_deadlocked projection counters (Some "DAG_NO_READY_STEP"%string).

(** [schedule] from the loaded projection on. *)
Definition schedule_running (input : DagScheduleInputV1) (projection : SessionProjectionV3)
    (plan : SessionPlanGraphProjectionV3) : res (DagScheduleDecisionV1 * option SessionCommitV3) :=
  let counters := countCapacity plan in
  let failedStep := findb step_failed (gr_steps plan) in
  let failed := negb (is_none failedStep) in
  let blocked := existsb (λ step, bool_decide (sp_state step = S_blocked)) (gr_steps plan) in
  let fast := bool_decide (di_failureMode input = fail_fast) in
  let expired := List.filter step_expired (orderedReady plan) in
  if fast && (failed || blocked)
  then Ok (if blocked then decision D_blocked projection counters (Some "DAG_STEP_BLOCKED"%string)
           else decision D_failed projection counters (Some (failure_code failedStep)), None)
  else if fast && negb (Nat.eqb (length expired) 0)
  then Ok (decision D_blocked projection counters (Some "DAG_STEP_DEADLINE_EXCEEDED"%string), None)
  else if (0 <? activeSteps counters) || (0 <? activeChildSlots counters)
  then Ok (decision D_waiting projection counters (Some "DAG_ACTIVE_WORK"%string), None)
  else
    let stepCapacity := Z.max 0 (maxParallelSteps - activeSteps counters) in
    let childCapacity :=
      Z.max 0 (eb_maxParallelChildren (di_parentBudget input) - activeChildSlots counters) in
    let cumulativeCapacity :=
      Z.max 0 (eb_maxChildRuns (di_parentBudget input) - cumulativeChildRuns counters) in
    let capacity := Z.min (Z.min stepCapacity childCapacity) cumulativeCapacity in
    usage ← currentRunBudgetUsageV1 projection (di_parentRunId input);
    let remaining := remainingExecutionBudget (di_parentBudget input) usage
                       (List.filter step_active (gr_steps plan)) in
    let liveReady := List.filter (λ step, negb (step_expired step)) (orderedReady plan) in
    let selected := selectConflictFree liveReady (activeConflictKeys plan) capacity in
    let leased := allocateBudgetLeases selected remaining in
    if (0 <? capacity) && negb (Nat.eqb (length selected) 0) && negb (Nat.eqb (length leased) 0)
    then claim input projection plan leased counters
    else Ok (idle_decision input projection plan counters cumulativeCapacity remaining, None).

Definition schedule (input : DagScheduleInputV1) (projection : SessionProjectionV3) :
    res (DagScheduleDecisionV1 * option SessionCommitV3) :=
  validateInput input;;
  plan ← requirePlan projection (di_planId input);
  if bool_decide (gr_state plan ≠ P_running)
  then decided ← terminalDecision plan projection (countCapacity plan); Ok (decided, None)
  else
    requireActiveRun projection (di_parentRunId input);;
    schedule_running input projection plan.
End Schedule.
