(* ===== verification/ClaimEntries.v ===== *)
(** * The entries of a claim

    What the drafts of the scheduler mean to the journal: the typed entries that
    [validateSessionEntryV3] makes of them. *)

From S2P Require Import Prelude Js CanonicalJson Plan Session SessionReducer SessionEntry SessionEntrySpec SessionEntryErrors SessionCommit JournalDrafts DagScheduler.
Local Open Scope Z_scope.

Definition claim_correlation (input : DagScheduleInputV1) (plan : SessionPlanGraphProjectionV3)
    (step : SessionStepProjectionV3) (claim : DagStepClaimV1) : SessionEntryCorrelationV3 :=
  [("parentRunId", di_parentRunId input); ("childRunId", cl_childRunId claim);
   ("planId", gr_planId plan); ("stepId", sp_stepId step); ("attemptId", cl_attemptId claim)]%string.

(** The three payloads of a claim. *)
Definition claim_data (plan : SessionPlanGraphProjectionV3) (step : SessionStepProjectionV3)
    (claim : DagStepClaimV1) : list SessionEntryData :=
  [attempt_created {| ac_planId := gr_planId plan; ac_planRevision := gr_revision plan;
     ac_stepId := sp_stepId step; ac_attemptId := cl_attemptId claim; ac_ordinal := cl_ordinal claim;
     ac_state := A_reserved; ac_childRunId := Some (cl_childRunId claim) |};
   step_state_changed {| ssc_planId := gr_planId plan; ssc_planRevision := gr_revision plan;
     ssc_stepId := sp_stepId step; ssc_state := S_running; ssc_reason := None; ssc_newAttemptId := None;
     ssc_errorCode := None |};
   attempt_state_changed {| asc_planId := gr_planId plan; asc_planRevision := gr_revision plan;
     asc_stepId := sp_stepId step; asc_attemptId := cl_attemptId claim; asc_state := A_running;
     asc_errorCode := None |}].

Section Entries.
Context `{JsEngine} `{JsCrypto} `{RP : ReviewPlanContract}.
Context (createId : nat → string → string) (now_claim : string).

(** The drafts of all claims with their correlations, in order. *)
Definition claim_drafts (input : DagScheduleInputV1) (plan : SessionPlanGraphProjectionV3)
    (leased : list (SessionStepProjectionV3 * ExecutionBudget)) (claims : list DagStepClaimV1) :
    list (SessionEntryCorrelationV3 * SessionEntryData) :=
  zip leased claims ≫= λ '(l, claim),
    (λ data, (claim_correlation input plan l.1 claim, data)) <$> claim_data plan l.1 claim.

Definition claim_entry (input : DagScheduleInputV1) (projection : SessionProjectionV3) (calls : nat)
    (index : nat) (draft : SessionEntryCorrelationV3 * SessionEntryData) : SessionEntryV3 :=
  draft_entry createId (di_sessionId input) (di_parentRunId input)
    (maxInstant now_claim (ca_updatedAt (pj_catalog projection))) projection calls index draft.

(** ** The drafts decode to them *)

Lemma claimEvents_decode input plan step claim :
  Forall2 decodes_to (claimEvents input plan step claim)
    ((λ data, (claim_correlation input plan step claim, data)) <$> claim_data plan step claim).
Proof.
  unfold claimEvents, claim_data. repeat constructor; cbn [dr_type dr_data fields_of snd]; intros runId data.
  - intros Hd%attempt_created_decode. unfold attempt_created_payload in Hd. inv_ok. by read_payload.
  - intros Hd%step_changed_decode. unfold step_state_changed_payload in Hd. inv_ok. by read_payload.
  - intros Hd%attempt_changed_decode. unfold attempt_state_changed_payload in Hd. inv_ok. by read_payload.
Qed.

Lemma claim_values_decode input pj calls drafts typed es :
  Forall2 decodes_to drafts typed →
  mapM validateSessionEntryV3 (imap (claim_value createId now_claim input pj calls) drafts) = Ok es →
  es = imap (claim_entry input pj calls) typed.
Proof. apply entry_values_decode. Qed.

Lemma claim_drafts_decode input plan leased claims :
  Forall2 decodes_to (zip leased claims ≫= λ '(l, claim), claimEvents input plan l.1 claim)
    (claim_drafts input plan leased claims).
Proof.
  unfold claim_drafts. induction (zip leased claims) as [|[l cl] k IH]; [constructor|].
  rewrite !bind_cons. apply Forall2_app; [apply claimEvents_decode|done].
Qed.

(** ** Failures *)

Lemma claimEvents_fails input plan step claim draft runId data :
  draft ∈ claimEvents input plan step claim →
  fails_in ["SESSION_ENTRY_INVALID"%string] (validatePayload (dr_type draft) data runId).
Proof.
  unfold claimEvents. intros Hin.
  repeat (apply elem_of_cons in Hin as [->|Hin]); [..|by apply elem_of_nil in Hin]; cbn [dr_type].
  - apply attempt_created_fails.
  - apply step_changed_fails.
  - apply attempt_changed_fails.
Qed.

Lemma claim_value_fails input pj calls i plan step claim draft :
  draft ∈ claimEvents input plan step claim →
  fails_in ["SESSION_ENTRY_INVALID"%string] (validateSessionEntryV3 (claim_value createId now_claim input pj calls i draft)).
Proof. intros Hin. apply entry_value_fails. intros runId data. by eapply claimEvents_fails. Qed.
End Entries.
