(* ===== verification/DagSelect.v ===== *)
(** * What the DAG scheduler selects and leases

    The greedy selection of steps that share no conflict key, and the split of
    what is left of the budget over the selected steps. *)

From S2P Require Import Prelude Js Samples Plan Session SessionReducer SessionSamples DagScheduler.
Local Open Scope Z_scope.

(** ** Selection *)

(** No two steps at different positions share a conflict key. *)
Definition conflict_free (l : list SessionStepProjectionV3) : Prop :=
  ∀ i j s t k, i ≠ j → l !! i = Some s → l !! j = Some t →
    k ∈ sp_conflictKeys s → k ∉ sp_conflictKeys t.

(** [s] shares a conflict key with [keys]. *)
Definition conflicts (s : SessionStepProjectionV3) (keys : list string) : Prop :=
  ∃ k, k ∈ sp_conflictKeys s ∧ k ∈ keys.

Lemma conflict_check s keys :
  existsb (λ key, memb key keys) (sp_conflictKeys s) = true ↔ conflicts s keys.
Proof. rewrite existsb_true. unfold conflicts. setoid_rewrite memb_true. done. Qed.

Lemma conflict_check_false s keys :
  existsb (λ key, memb key keys) (sp_conflictKeys s) = false ↔ ¬ conflicts s keys.
Proof. rewrite <-conflict_check. by destruct (existsb _ _). Qed.

Lemma conflicts_app s k1 k2 : conflicts s (k1 ++ k2) ↔ conflicts s k1 ∨ conflicts s k2.
Proof. unfold conflicts. set_solver. Qed.

Lemma select_from_sublist ready keys n capacity : select_from ready keys n capacity `sublist_of` ready.
Proof.
  revert keys n. induction ready as [|s ready IH]; intros keys n; cbn; [done|].
  destruct (_ <=? _); [apply sublist_nil_l|]. destruct (existsb _ _); by constructor.
Qed.

Lemma select_from_length ready keys n capacity :
  n ≤ capacity → n + Z.of_nat (length (select_from ready keys n capacity)) ≤ capacity.
Proof.
  revert keys n. induction ready as [|s ready IH]; intros keys n Hn; cbn; [lia|].
  destruct (capacity <=? n) eqn:Hc; [cbn; lia|]. destruct (existsb _ _); [by apply IH|].
  specialize (IH (keys ++ sp_conflictKeys s) (n + 1) ltac:(lia)). cbn [length]. lia.
Qed.

(** Nothing selected conflicts with the keys held before. *)
Lemma select_from_keys ready keys n capacity s :
  s ∈ select_from ready keys n capacity → ¬ conflicts s keys.
Proof.
  revert keys n. induction ready as [|r ready IH]; intros keys n; cbn; [by intros ?%elem_of_nil|].
  destruct (_ <=? _); [by intros ?%elem_of_nil|]. destruct (existsb _ _) eqn:Hc; [by apply IH|].
  apply conflict_check_false in Hc. intros [->|Hs]%elem_of_cons; [done|].
  intros Hk. apply (IH _ _ Hs). apply conflicts_app. by left.
Qed.

Lemma conflict_free_cons r l :
  (∀ t k, t ∈ l → k ∈ sp_conflictKeys r → k ∉ sp_conflictKeys t) → conflict_free l → conflict_free (r :: l).
Proof.
  intros Hr IH [|i] [|j] s t k Hij Hs Ht; cbn in *; simplify_eq.
  - eapply Hr. by apply list_elem_of_lookup_2 in Ht.
  - intros Hk Hk'. apply list_elem_of_lookup_2 in Hs. by eapply Hr.
  - eapply IH; [|exact Hs|exact Ht]. congruence.
Qed.

Lemma select_from_free ready keys n capacity : conflict_free (select_from ready keys n capacity).
Proof.
  revert keys n. induction ready as [|r ready IH]; intros keys n; cbn; [by intros i j s t k ?|].
  destruct (_ <=? _); [by intros i j s t k ?|]. destruct (existsb _ _) eqn:Hc; [by apply IH|].
  apply conflict_free_cons; [|apply IH].
  intros t k Ht%select_from_keys Hk Hk'. apply Ht, conflicts_app. right. by exists k.
Qed.

(** A ready step is passed over only at full capacity or for a conflict. *)
Lemma select_from_greedy ready keys n capacity s :
  s ∈ ready → s ∈ select_from ready keys n capacity ∨
  capacity ≤ n + Z.of_nat (length (select_from ready keys n capacity)) ∨
  conflicts s (keys ++ (select_from ready keys n capacity ≫= sp_conflictKeys)).
Proof.
  revert keys n. induction ready as [|r ready IH]; intros keys n; cbn; [by intros ?%elem_of_nil|].
  intros Hs. destruct (capacity <=? n) eqn:Hn; [right; left; cbn; lia|].
  destruct (existsb _ _) eqn:Hc.
  - apply elem_of_cons in Hs as [->|Hs]; [|by apply IH]. right. right.
    apply conflicts_app. left. by apply conflict_check.
  - apply elem_of_cons in Hs as [->|Hs]; [left; left|].
    destruct (IH (keys ++ sp_conflictKeys r) (n + 1) Hs) as [?|[?|?]]; [left; by right| |].
    + right. left. cbn [length]. lia.
    + right. right. cbn [mbind list_bind foldr]. rewrite app_assoc. done.
Qed.

(** The selection takes a subsequence of the ready steps of at most the given
    capacity, no two of which share a conflict key and none of which needs a key
    that active work holds; a ready step is left out only when the capacity is
    exhausted or when it conflicts with active work or with a selected step. *)
Theorem selectConflictFree_spec ready activeKeys capacity :
  0 ≤ capacity →
  let selected := selectConflictFree ready activeKeys capacity in
  selected `sublist_of` ready ∧ Z.of_nat (length selected) ≤ capacity ∧ conflict_free selected ∧
  (∀ s, s ∈ selected → ¬ conflicts s activeKeys) ∧
  (∀ s, s ∈ ready → s ∉ selected → Z.of_nat (length selected) < capacity →
    conflicts s (activeKeys ++ (selected ≫= sp_conflictKeys))).
Proof.
  intros Hc selected. split_and!.
  - apply select_from_sublist.
  - pose proof (select_from_length ready activeKeys 0 capacity Hc). subst selected. unfold selectConflictFree. lia.
  - apply select_from_free.
  - intros s. apply select_from_keys.
  - intros s Hs Hn Hlt. destruct (select_from_greedy ready activeKeys 0 capacity s Hs) as [?|[Hf|?]]; [done| |done].
    subst selected. unfold selectConflictFree in *. lia.
Qed.

(** Without active work the first ready step is selected. *)
Lemma selectConflictFree_nil ready capacity :
  0 < capacity → selectConflictFree ready [] capacity = [] → ready = [].
Proof.
  destruct ready as [|s ready]; [done|]. intros Hc. unfold selectConflictFree. cbn.
  replace (capacity <=? 0) with false by lia.
  replace (existsb (λ key, memb key []) (sp_conflictKeys s)) with false; [done|].
  symmetry. apply existsb_false, Forall_forall. intros k _. apply memb_false, not_elem_of_nil.
Qed.

(** ** Leases *)

Abbreviation leased_steps := (list (SessionStepProjectionV3 * ExecutionBudget)).

(** The lease [b] narrows the budget of its step. *)
Definition lease_within (l : SessionStepProjectionV3 * ExecutionBudget) : Prop :=
  let own := sp_budget l.1 in
  1 ≤ eb_maxTurns l.2 ≤ eb_maxTurns own ∧
  eb_maxToolCalls l.2 ≤ eb_maxToolCalls own ∧
  match eb_maxTokens own with
  | Some n => ∃ m, eb_maxTokens l.2 = Some m ∧ m ≤ n
  | None => True
  end ∧
  eb_maxChildRuns l.2 = eb_maxChildRuns own ∧ eb_maxParallelChildren l.2 = eb_maxParallelChildren own ∧
  eb_maxDepth l.2 = eb_maxDepth own ∧ eb_deadlineAt l.2 = eb_deadlineAt own.

Lemma lease_lease_within step remaining slots :
  1 ≤ eb_maxTurns (lease step remaining slots) → lease_within (step, lease step remaining slots).
Proof.
  unfold lease_within, lease. cbn. intros Ht. split_and!; try lia; try done.
  destruct (eb_maxTokens remaining), (eb_maxTokens (sp_budget step)); cbn; try done; eexists; (split; [done|]); lia.
Qed.

Lemma lease_from_within steps remaining : Forall lease_within (lease_from steps remaining).
Proof.
  revert remaining. induction steps as [|s steps IH]; intros remaining; [constructor|].
  cbn [lease_from]. destruct (_ <? 1) eqn:Ht; constructor; [|apply IH]. apply lease_lease_within. lia.
Qed.

Lemma lease_from_prefix steps remaining : (lease_from steps remaining).*1 `prefix_of` steps.
Proof.
  revert remaining. induction steps as [|s steps IH]; intros remaining; [done|].
  cbn [lease_from]. destruct (_ <? 1); [apply prefix_nil|]. cbn. by apply prefix_cons.
Qed.

(** Steps with a turn of their own are all served. *)
Lemma lease_from_all steps remaining :
  Forall (λ s, 1 ≤ eb_maxTurns (sp_budget s)) steps → (lease_from steps remaining).*1 = steps.
Proof.
  intros Hs. revert remaining. induction Hs as [|s steps H1 _ IH]; intros remaining; [done|].
  cbn [lease_from]. destruct (_ <? 1) eqn:Ht; [cbn in Ht; lia|]. cbn. by rewrite IH.
Qed.

(** [r - min b (max 1 (r / n))], the step of the accounting below: what one slot
    takes leaves enough for the others, or every slot takes at most one. *)
Lemma slot_share r n b :
  0 ≤ r → 0 < n → 0 ≤ b →
  Z.min b (Z.max 1 (r / n)) + Z.max (Z.max 0 (r - Z.min b (Z.max 1 (r / n)))) (n - 1) ≤ Z.max r n.
Proof.
  intros Hr Hn Hb. assert (r / n * n ≤ r) as Hd by (pose proof (Z.mul_div_le r n Hn); lia).
  assert (0 ≤ r / n) by (apply Z.div_pos; lia).
  destruct (Z.le_gt_cases n r) as [Hle|Hlt].
  - assert (1 ≤ r / n) by (apply Z.div_le_lower_bound; lia). nia.
  - assert (r / n = 0) as -> by (apply Z.div_small; lia). lia.
Qed.

Lemma lease_from_turns steps remaining :
  0 ≤ eb_maxTurns remaining →
  sumZ (λ l, eb_maxTurns l.2) (lease_from steps remaining)
  ≤ Z.max (eb_maxTurns remaining) (Z.of_nat (length steps)).
Proof.
  revert remaining. induction steps as [|s steps IH]; intros remaining Hr; [cbn; lia|].
  cbn [lease_from]. destruct (_ <? 1) eqn:Ht; [cbn; lia|]. rewrite sumZ_cons. cbn [snd].
  specialize (IH (subtractExecutionBudget remaining (lease s remaining (Z.of_nat (length (s :: steps)))))).
  pose proof (slot_share (eb_maxTurns remaining) (Z.of_nat (length (s :: steps)))
    (eb_maxTurns (sp_budget s)) Hr ltac:(cbn; lia)) as Hs.
  revert IH. generalize (sumZ (λ l : SessionStepProjectionV3 * ExecutionBudget, eb_maxTurns l.2)
    (lease_from steps (subtractExecutionBudget remaining (lease s remaining (Z.of_nat (length (s :: steps))))))).
  cbn [lease with_amounts subtractExecutionBudget eb_maxTurns length] in *. intros total IH.
  specialize (IH ltac:(lia)). specialize (Hs ltac:(lia)). lia.
Qed.

Lemma lease_from_toolCalls steps remaining :
  0 ≤ eb_maxToolCalls remaining →
  sumZ (λ l, eb_maxToolCalls l.2) (lease_from steps remaining) ≤ eb_maxToolCalls remaining.
Proof.
  revert remaining. induction steps as [|s steps IH]; intros remaining Hr; [cbn; lia|].
  cbn [lease_from]. destruct (_ <? 1) eqn:Ht; [cbn; lia|]. rewrite sumZ_cons. cbn [snd].
  specialize (IH (subtractExecutionBudget remaining (lease s remaining (Z.of_nat (length (s :: steps)))))).
  assert (0 ≤ eb_maxToolCalls remaining / Z.of_nat (length (s :: steps)) ≤ eb_maxToolCalls remaining) as Hd.
  { split; [apply Z.div_pos; cbn; lia|]. apply Z.div_le_upper_bound; cbn [length]; nia. }
  revert IH. generalize (sumZ (λ l : SessionStepProjectionV3 * ExecutionBudget, eb_maxToolCalls l.2)
    (lease_from steps (subtractExecutionBudget remaining (lease s remaining (Z.of_nat (length (s :: steps))))))).
  cbn [lease with_amounts subtractExecutionBudget eb_maxToolCalls] in *. intros total IH.
  specialize (IH ltac:(lia)). lia.
Qed.

Definition leased_tokens (l : SessionStepProjectionV3 * ExecutionBudget) : Z :=
  default 0 (eb_maxTokens l.2).

Lemma lease_from_tokens steps remaining r :
  eb_maxTokens remaining = Some r → 0 ≤ r →
  Forall (λ s, 0 ≤ default 0 (eb_maxTokens (sp_budget s))) steps →
  sumZ leased_tokens (lease_from steps remaining) ≤ Z.max r (Z.of_nat (length steps)).
Proof.
  intros Hr Hpos Hs. revert remaining r Hr Hpos. induction Hs as [|s steps Hs0 _ IH]; intros remaining r Hr Hpos; [cbn; lia|].
  cbn [lease_from]. destruct (_ <? 1) eqn:Ht; [cbn; lia|]. rewrite sumZ_cons.
  set (b := default r (eb_maxTokens (sp_budget s))).
  assert (0 ≤ b) as Hb by (subst b; destruct (eb_maxTokens (sp_budget s)); cbn in *; lia).
  set (m := Z.min b (Z.max 1 (r / Z.of_nat (length (s :: steps))))).
  assert (eb_maxTokens (lease s remaining (Z.of_nat (length (s :: steps)))) = Some m) as Hm.
  { unfold lease. cbn. by rewrite Hr. }
  pose proof (slot_share r (Z.of_nat (length (s :: steps))) b Hpos ltac:(cbn; lia) Hb) as Hshare.
  fold m in Hshare. unfold leased_tokens at 1. cbn [snd]. rewrite Hm. change (default 0 (Some m)) with m.
  eapply Z.le_trans; [apply Z.add_le_mono_l, (IH _ (Z.max 0 (r - m)))|].
  - change (((λ n, Z.max 0 (n - default n (eb_maxTokens (lease s remaining (Z.of_nat (length (s :: steps)))))))
      <$> eb_maxTokens remaining) = Some (Z.max 0 (r - m))). by rewrite Hm, Hr.
  - lia.
  - cbn [length] in *. lia.
Qed.

(** Leases are bounded: they go to a prefix of the selected steps (to all of
    them when each has a turn), each narrows the budget of its step, their tool
    calls never exceed what is left, and their turns and tokens never exceed
    the larger of what is left and one for each selected step. *)
Theorem allocateBudgetLeases_bounds steps available :
  Forall (λ s, 0 ≤ default 0 (eb_maxTokens (sp_budget s))) steps →
  0 ≤ eb_maxToolCalls available →
  let leased := allocateBudgetLeases steps available in
  leased.*1 `prefix_of` steps ∧ Forall lease_within leased ∧
  sumZ (λ l, eb_maxToolCalls l.2) leased ≤ eb_maxToolCalls available ∧
  sumZ (λ l, eb_maxTurns l.2) leased ≤ Z.max (eb_maxTurns available) (Z.of_nat (length steps)) ∧
  (∀ r, eb_maxTokens available = Some r → sumZ leased_tokens leased ≤ Z.max r (Z.of_nat (length steps))) ∧
  (hasMinimumExecutionBudget available = true → Forall (λ s, 1 ≤ eb_maxTurns (sp_budget s)) steps →
    leased.*1 = steps).
Proof.
  intros Htok Htool leased. subst leased. unfold allocateBudgetLeases.
  destruct (hasMinimumExecutionBudget available) eqn:Hmin; cbn [negb].
  - unfold hasMinimumExecutionBudget in Hmin. apply andb_true_iff in Hmin as [H1 H2]. split_and!.
    + apply lease_from_prefix.
    + apply lease_from_within.
    + by apply lease_from_toolCalls.
    + apply lease_from_turns. lia.
    + intros r Hr. rewrite Hr in H2. apply (lease_from_tokens _ _ _ Hr); [lia|done].
    + intros _. apply lease_from_all.
  - split_and!; cbn; try lia; try done. apply prefix_nil.
Qed.

(** The bound of one for each step is met: with one turn left, two steps are
    leased one turn each. *)
Definition sample_ready (id : string) (order : Z) : SessionStepProjectionV3 :=
  {| sp_stepId := id; sp_title := "A step"; sp_order := order; sp_state := S_pending;
     sp_errorCode := None; sp_dependencies := [];
     sp_access := {| Plan.ac_mode := read_only; ac_paths := [] |}; sp_capabilities := [];
     sp_conflictKeys := [id]; sp_criteria := [sample_criterion]; sp_budget := sample_budget;
     sp_maxAttempts := 1; sp_attemptIds := []; sp_attempts := [] |}.
Definition sample_steps : list SessionStepProjectionV3 :=
  [sample_ready "a" 0; sample_ready "b" 1]%string.
Definition one_turn : ExecutionBudget := with_amounts sample_budget 1 8 None.

Example leases_exceed_remaining :
  eb_maxTurns one_turn = 1 ∧
  sumZ (λ l, eb_maxTurns l.2) (allocateBudgetLeases sample_steps one_turn) = 2.
Proof. split; reflexivity. Qed.

Lemma selectConflictFree_spec_witness :
  selectConflictFree sample_steps ["a"%string] 1 = [sample_ready "b" 1] ∧
  conflict_free (selectConflictFree sample_steps ["a"%string] 1).
Proof.
  split; [reflexivity|].
  exact (proj1 (proj2 (proj2 (selectConflictFree_spec sample_steps ["a"%string] 1 ltac:(lia))))).
Defined.

Lemma allocateBudgetLeases_bounds_witness :
  eb_maxToolCalls one_turn = 8 ∧
  sumZ (λ l, eb_maxToolCalls l.2) (allocateBudgetLeases sample_steps one_turn) ≤ 8.
Proof.
  split; [reflexivity|].
  assert (Forall (λ s, 0 ≤ default 0 (eb_maxTokens (sp_budget s))) sample_steps) as Hs
    by (repeat constructor; cbn; lia).
  exact (proj1 (proj2 (proj2 (allocateBudgetLeases_bounds sample_steps one_turn Hs ltac:(cbn; lia))))).
Defined.
