(* ===== verification/DagSchedule.v ===== *)
(** * Decisions of the DAG scheduler

    What a decision promises: which steps are claimed and within which bounds,
    when a plan is reported complete, that a plan is not reported deadlocked
    while some step can still run, and which errors a call can end with. *)

From S2P Require Import Prelude Js CanonicalJson Graph Samples Plan PlanSpec Subagent Session SessionReducer SessionSamples SessionInv SessionLife SessionPlan SessionReady SessionEntry SessionEntryErrors SessionCommit JournalDrafts DagScheduler ClaimEntries DagSelect.
Local Open Scope Z_scope.

(** ** Idle plans *)

(** No step and no attempt of the plan is at work. *)
Definition idle (plan : SessionPlanGraphProjectionV3) : Prop :=
  ∀ s, s ∈ gr_steps plan → step_active s = false ∧ ∀ a, a ∈ sp_attempts s → attempt_active a = false.

(** [counters.activeSteps > 0 || counters.activeChildSlots > 0]. *)
Definition busy (plan : SessionPlanGraphProjectionV3) : bool :=
  (0 <? activeSteps (countCapacity plan)) || (0 <? activeChildSlots (countCapacity plan)).

Lemma idle_zero plan :
  idle plan ↔ activeSteps (countCapacity plan) = 0 ∧ activeChildSlots (countCapacity plan) = 0.
Proof.
  cbn. rewrite reduce_sum_sumZ, sumZ_zero by (intros; lia).
  change 0 with (Z.of_nat 0). rewrite Nat2Z.inj_iff, filter_length_zero. setoid_rewrite Nat2Z.inj_iff.
  setoid_rewrite filter_length_zero. unfold idle. naive_solver.
Qed.

Lemma busy_false plan : busy plan = false ↔ idle plan.
Proof.
  rewrite idle_zero. unfold busy. rewrite orb_false_iff, !Z.ltb_ge.
  assert (0 ≤ activeSteps (countCapacity plan)) by (cbn; lia).
  assert (0 ≤ activeChildSlots (countCapacity plan)); [|lia].
  cbn. rewrite reduce_sum_sumZ. generalize (gr_steps plan). intros l.
  induction l as [|x l IH]; [done|]. rewrite sumZ_cons. lia.
Qed.

Lemma idle_filter plan : idle plan → List.filter step_active (gr_steps plan) = [].
Proof.
  intros Hi. apply length_zero_iff_nil, filter_length_zero. intros s Hs. by apply Hi.
Qed.

Lemma idle_keys plan : idle plan → activeConflictKeys plan = [].
Proof. intros Hi. unfold activeConflictKeys. by rewrite idle_filter. Qed.

Section Decisions.
Context `{JsEngine} `{JsCrypto} `{RP : ReviewPlanContract} (maxParallelSteps : Z) (createId : nat → string → string) (now now_claim : string).

Abbreviation schedule := (DagScheduler.schedule maxParallelSteps createId now now_claim).
Abbreviation schedule_running := (DagScheduler.schedule_running maxParallelSteps createId now now_claim).
Abbreviation claim := (DagScheduler.claim createId now_claim).

(** ** What an idle plan has to offer *)

Definition live_ready (plan : SessionPlanGraphProjectionV3) : list SessionStepProjectionV3 :=
  List.filter (λ step, negb (step_expired now step)) (orderedReady plan).
Definition expired_ready (plan : SessionPlanGraphProjectionV3) : list SessionStepProjectionV3 :=
  List.filter (step_expired now) (orderedReady plan).
Definition runs_left (input : DagScheduleInputV1) (plan : SessionPlanGraphProjectionV3) : Z :=
  Z.max 0 (eb_maxChildRuns (di_parentBudget input) - cumulativeChildRuns (countCapacity plan)).
Definition slots (input : DagScheduleInputV1) (plan : SessionPlanGraphProjectionV3) : Z :=
  Z.min (Z.min (Z.max 0 maxParallelSteps) (Z.max 0 (eb_maxParallelChildren (di_parentBudget input))))
    (runs_left input plan).
Definition budget_left (input : DagScheduleInputV1) (usage : BudgetUsage) : ExecutionBudget :=
  remainingExecutionBudget (di_parentBudget input) usage [].
Definition chosen (input : DagScheduleInputV1) (plan : SessionPlanGraphProjectionV3) :
    list SessionStepProjectionV3 := selectConflictFree (live_ready plan) [] (slots input plan).
Definition leases (input : DagScheduleInputV1) (plan : SessionPlanGraphProjectionV3)
    (usage : BudgetUsage) : leased_steps :=
  allocateBudgetLeases (chosen input plan) (budget_left input usage).

(** [fail_fast] stops at the first failed, blocked or expired step. *)
Definition stopped (input : DagScheduleInputV1) (plan : SessionPlanGraphProjectionV3) : bool :=
  bool_decide (di_failureMode input = fail_fast)
  && (existsb step_failed (gr_steps plan)
      || existsb (λ step, bool_decide (sp_state step = S_blocked)) (gr_steps plan)
      || negb (Nat.eqb (length (expired_ready plan)) 0)).

Lemma findb_existsb {A} (p : A → bool) l : negb (is_none (findb p l)) = existsb p l.
Proof. unfold findb. induction l as [|x l IH]; cbn; [done|]. by destruct (p x). Qed.

(** The body of a call on an idle plan. *)
Lemma schedule_running_idle input pj plan :
  idle plan → stopped input plan = false →
  schedule_running input pj plan =
    (usage ← currentRunBudgetUsageV1 pj (di_parentRunId input);
     if (0 <? slots input plan) && negb (Nat.eqb (length (chosen input plan)) 0)
        && negb (Nat.eqb (length (leases input plan usage)) 0)
     then claim input pj plan (leases input plan usage) (countCapacity plan)
     else Ok (idle_decision now input pj plan (countCapacity plan) (runs_left input plan)
                (budget_left input usage), None)).
Proof.
  intros Hidle Hstop. pose proof Hidle as [Hs Hc]%idle_zero.
  unfold DagScheduler.schedule_running. rewrite findb_existsb.
  unfold stopped in Hstop. unfold expired_ready in Hstop.
  destruct (bool_decide (di_failureMode input = fail_fast)); cbn [andb] in *.
  - apply orb_false_iff in Hstop as [Hfb Hexp]. rewrite Hfb, Hexp. rewrite Hs, Hc. cbn [orb Z.ltb Z.compare].
    rewrite (idle_keys _ Hidle), (idle_filter _ Hidle), !Z.sub_0_r. done.
  - rewrite Hs, Hc. cbn [orb Z.ltb Z.compare].
    rewrite (idle_keys _ Hidle), (idle_filter _ Hidle), !Z.sub_0_r. done.
Qed.

(** Every call on a plan that is busy or stopped ends without a claim. *)
Lemma schedule_running_stopped input pj plan r :
  busy plan = true ∨ stopped input plan = true → schedule_running input pj plan = Ok r →
  r.2 = None ∧ dd_state r.1 ∈ [D_blocked; D_failed; D_waiting].
Proof.
  intros Hor. unfold DagScheduler.schedule_running. rewrite findb_existsb.
  fold (expired_ready plan). fold (busy plan). unfold stopped in Hor.
  destruct (bool_decide (di_failureMode input = fail_fast)); cbn [andb] in *.
  - destruct (existsb step_failed _ || _); cbn [orb] in *.
    + intros [= <-]. split; [done|]. cbn. destruct (existsb _ _); set_solver.
    + destruct (negb _); [intros [= <-]; cbn; split; [done|set_solver]|].
      destruct Hor as [-> |]; [|done]. intros [= <-]; cbn; split; [done|set_solver].
  - destruct Hor as [-> |]; [|done]. intros [= <-]; cbn; split; [done|set_solver].
Qed.

(** ** Claims *)

(** The entries of the commit that claims [leased]. *)
Definition claim_entries (input : DagScheduleInputV1) (pj : SessionProjectionV3)
    (plan : SessionPlanGraphProjectionV3) (leased : leased_steps) : list SessionEntryV3 :=
  imap (claim_entry createId now_claim input pj (2 * length leased + 1))
    (claim_drafts input plan leased (imap (make_claim createId) leased)).

Lemma claim_Ok input pj plan leased counters d oc :
  claim input pj plan leased counters = Ok (d, oc) →
  dd_state d = D_claimed ∧ dd_claims d = imap (make_claim createId) leased ∧
  dd_revision d = sn_revision (pj_snapshot pj) + 1 ∧
  ∃ c, oc = Some c ∧ sc_entries c = claim_entries input pj plan leased ∧
    mapM validateSessionEntryV3 (sc_values c) = Ok (sc_entries c) ∧
    sc_expectedRevision c = sn_revision (pj_snapshot pj) ∧ sc_sessionId c = di_sessionId input.
Proof.
  unfold DagScheduler.claim. intros Hc. inv_ok.
  match goal with Hcc : createSessionCommitV3 _ = Ok _ |- _ =>
    destruct (createSessionCommitV3_Ok _ _ Hcc) as (Hsid & Hrev & Hvals & Hes) end.
  split_and!; [done..|]. eexists. split_and!; [done| |by rewrite Hvals|done|done].
  exact (claim_values_decode createId now_claim _ _ _ _ _ _ (claim_drafts_decode _ _ _ _) Hes).
Qed.

(** ** Failures of a claim *)

Lemma claim_drafts_elem input plan (leased : leased_steps) (claims : list DagStepClaimV1) draft :
  draft ∈ (zip leased claims ≫= λ '(l, claim), claimEvents input plan l.1 claim) →
  ∃ step claim, draft ∈ claimEvents input plan step claim.
Proof. intros ([l cl] & Hin & _)%list_elem_of_bind. by exists l.1, cl. Qed.

Lemma claim_values_fail input pj plan leased calls :
  fails_in ["SESSION_ENTRY_INVALID"%string] (mapM validateSessionEntryV3
    (imap (claim_value createId now_claim input pj calls)
      (zip leased (imap (make_claim createId) leased) ≫= λ '(l, claim), claimEvents input plan l.1 claim))).
Proof.
  destruct (mapM _ _) as [|code] eqn:Hm; [done|]. apply mapM_Err in Hm as (v & Hv & He).
  apply list_elem_of_lookup in Hv as [i Hv]. rewrite list_lookup_imap in Hv.
  apply fmap_Some in Hv as (draft & Hd & ->).
  apply list_elem_of_lookup_2, claim_drafts_elem in Hd as (step & cl & Hd).
  exact (fails_Err _ _ _ (claim_value_fails createId now_claim input pj calls i plan step cl draft Hd) He).
Qed.

Lemma claim_Err input pj plan leased counters code :
  claim input pj plan leased counters = Err code →
  code ∈ ["SESSION_ENTRY_INVALID"; "SESSION_COMMIT_INVALID"]%string.
Proof.
  unfold DagScheduler.claim. intros [He|(es & Hes & Hc)]%bind_Err.
  - apply (fails_Err _ _ _ (claim_values_fail input pj plan leased _)) in He. set_solver.
  - apply bind_Err in Hc as [Hc|(c & _ & [=])].
    eapply fails_Err in Hc; [|by apply (createSessionCommitV3_fails _ es)]. set_solver.
Qed.

(** The guards in front of the decision. *)
Record runnable (input : DagScheduleInputV1) (pj : SessionProjectionV3)
    (plan : SessionPlanGraphProjectionV3) : Prop := {
  rb_input : validateInput input = Ok tt;
  rb_plan : pj_planGraph pj = Some plan;
  rb_planId : gr_planId plan = di_planId input;
  rb_running : gr_state plan = P_running;
  rb_run : requireActiveRun pj (di_parentRunId input) = Ok tt;
}.

Lemma requirePlan_dag_Ok pj planId plan :
  DagScheduler.requirePlan pj planId = Ok plan ↔ pj_planGraph pj = Some plan ∧ gr_planId plan = planId.
Proof.
  unfold DagScheduler.requirePlan. destruct (pj_planGraph pj) as [g|]; [|naive_solver].
  rewrite bind_Ok. split.
  - intros ([] & Hf%fail_if_Ok & [= ->]). split_bool. split; [done|]. by apply dec_stable.
  - intros [[= ->] <-]. exists tt. split; [|done]. apply fail_if_Ok. by rewrite bool_decide_eq_false_2 by naive_solver.
Qed.

Lemma schedule_runnable input pj plan :
  runnable input pj plan → schedule input pj = schedule_running input pj plan.
Proof.
  intros [Hi Hp Hid Hst Hr]. unfold DagScheduler.schedule. rewrite Hi. cbn [mbind res_bind].
  rewrite (proj2 (requirePlan_dag_Ok _ _ plan)) by done. cbn [mbind res_bind].
  rewrite bool_decide_eq_false_2 by naive_solver. by rewrite Hr.
Qed.

(** A call that returns stopped at the state of the plan or went on to decide. *)
Lemma schedule_Ok input pj r :
  schedule input pj = Ok r →
  ∃ plan, pj_planGraph pj = Some plan ∧ gr_planId plan = di_planId input ∧
    ((gr_state plan ≠ P_running ∧ ∃ d, r = (d, None) ∧ terminalDecision plan pj (countCapacity plan) = Ok d) ∨
     (runnable input pj plan ∧ schedule_running input pj plan = Ok r)).
Proof.
  unfold DagScheduler.schedule. intros Hr. apply bind_Ok in Hr as ([] & Hi & Hr).
  apply bind_Ok in Hr as (plan & [Hp Hid]%requirePlan_dag_Ok & Hr). exists plan. split_and!; [done..|].
  case_bool_decide.
  - apply bind_Ok in Hr as (d & Hd & [= <-]). left. split; [done|]. by exists d.
  - apply bind_Ok in Hr as ([] & Ha & Hr). right. split; [|done]. split; done.
Qed.

(** A claim is made on an idle plan that does not stop, for what is leased. *)
Lemma schedule_claimed input pj d c :
  schedule input pj = Ok (d, Some c) →
  ∃ plan usage, runnable input pj plan ∧ idle plan ∧ stopped input plan = false ∧
    currentRunBudgetUsageV1 pj (di_parentRunId input) = Ok usage ∧
    0 < slots input plan ∧ leases input plan usage ≠ [] ∧
    claim input pj plan (leases input plan usage) (countCapacity plan) = Ok (d, Some c).
Proof.
  intros (plan & Hp & Hid & [(_ & d' & [=] & _)|[Hrun Hr]])%schedule_Ok. exists plan.
  destruct (busy plan) eqn:Hb; [destruct (schedule_running_stopped _ _ _ _ (or_introl Hb) Hr); done|].
  destruct (stopped input plan) eqn:Hs; [destruct (schedule_running_stopped _ _ _ _ (or_intror Hs) Hr); done|].
  apply busy_false in Hb. rewrite (schedule_running_idle _ _ _ Hb Hs) in Hr.
  apply bind_Ok in Hr as (usage & Hu & Hr). exists usage. destruct (_ && _) eqn:Hc; [|done].
  apply andb_true_iff in Hc as [[Hslots _]%andb_true_iff Hl]. split_and!; try done; [lia|].
  by intros Hnil; rewrite Hnil in Hl.
Qed.

Lemma leases_steps input plan usage s :
  s ∈ (leases input plan usage).*1 → s ∈ gr_steps plan ∧ sp_stepId s ∈ gr_readyStepIds plan ∧
    step_expired now s = false.
Proof.
  intros Hs. assert (s ∈ chosen input plan) as Hch.
  { unfold leases, allocateBudgetLeases in Hs. destruct (negb _); [by apply elem_of_nil in Hs|].
    destruct (lease_from_prefix (chosen input plan) (budget_left input usage)) as [k Hk].
    rewrite Hk. set_solver. }
  assert (s ∈ live_ready plan) as Hl.
  { eapply elem_of_sublist; [exact Hch|apply select_from_sublist]. }
  apply filter_elem in Hl as [Ho He]. unfold orderedReady in Ho.
  apply js_sort_elem, filter_elem in Ho as [Hin Hready]. apply memb_true in Hready.
  split_and!; [done|done|]. by apply negb_true_iff.
Qed.

Lemma leases_prefix input plan usage : (leases input plan usage).*1 `prefix_of` chosen input plan.
Proof.
  unfold leases, allocateBudgetLeases. destruct (negb _); [apply prefix_nil|apply lease_from_prefix].
Qed.

Lemma leases_free input plan usage : conflict_free (leases input plan usage).*1.
Proof.
  intros i j s t k Hij Hs Ht. apply (select_from_free (live_ready plan) [] 0 (slots input plan) i j);
    [done| |]; (eapply prefix_lookup_Some; [|apply leases_prefix]); done.
Qed.

Lemma leases_length input plan usage :
  0 ≤ slots input plan → Z.of_nat (length (leases input plan usage)) ≤ slots input plan.
Proof.
  intros Hs. pose proof (prefix_length _ _ (leases_prefix input plan usage)) as Hp. rewrite length_fmap in Hp.
  pose proof (select_from_length (live_ready plan) [] 0 (slots input plan) Hs) as Hc.
  unfold chosen, selectConflictFree in Hp. lia.
Qed.

Lemma leases_within input plan usage : Forall lease_within (leases input plan usage).
Proof. unfold leases, allocateBudgetLeases. destruct (negb _); [constructor|apply lease_from_within]. Qed.

Lemma claims_stepIds leased : cl_stepId <$> imap (make_claim createId) leased = sp_stepId <$> leased.*1.
Proof. rewrite fmap_imap, <-list_fmap_compose. unfold compose. cbn. apply imap_const. Qed.

Lemma claims_budgets leased : cl_budget <$> imap (make_claim createId) leased = leased.*2.
Proof. rewrite fmap_imap. unfold compose. cbn. apply (imap_const snd). Qed.

Lemma imap_concat_length {A B} (f : nat → A → list B) l n :
  (∀ i x, length (f i x) = n) → length (concat (imap f l)) = (n * length l)%nat.
Proof.
  intros Hf. revert f Hf. induction l as [|x l IH]; intros f Hf; cbn; [lia|].
  rewrite length_app, Hf, IH by (intros; apply Hf). lia.
Qed.

Lemma active_run pj runId : requireActiveRun pj runId = Ok tt ↔
  ∃ r, r ∈ sn_runs (pj_snapshot pj) ∧ rn_runId r = runId ∧ rn_state r = R_running.
Proof.
  unfold requireActiveRun. rewrite fail_if_Ok, negb_false_iff, existsb_true. unfold run_active.
  setoid_rewrite andb_true_iff. setoid_rewrite bool_decide_eq_true. done.
Qed.

(** C21 A claim is safe: it is made only while the plan and the parent run are
    running, no step or attempt of the plan is at work and, under [fail_fast], no
    step has failed, is blocked or is expired; it names at least one step, all
    of them ready and within their deadlines, and no two of them share a
    conflict key. *)
Theorem schedule_claims_safe input pj d c :
  schedule input pj = Ok (d, Some c) →
  ∃ plan steps, pj_planGraph pj = Some plan ∧ gr_planId plan = di_planId input ∧
    gr_state plan = P_running ∧
    (∃ r, r ∈ sn_runs (pj_snapshot pj) ∧ rn_runId r = di_parentRunId input ∧ rn_state r = R_running) ∧
    idle plan ∧
    (di_failureMode input = fail_fast → ∀ s, s ∈ gr_steps plan →
      sp_state s ∉ [S_failed; S_interrupted; S_blocked] ∧
      (sp_stepId s ∈ gr_readyStepIds plan → step_expired now s = false)) ∧
    dd_state d = D_claimed ∧ cl_stepId <$> dd_claims d = sp_stepId <$> steps ∧ steps ≠ [] ∧
    (∀ s, s ∈ steps → s ∈ gr_steps plan ∧ sp_stepId s ∈ gr_readyStepIds plan ∧ step_expired now s = false) ∧
    conflict_free steps.
Proof.
  intros (plan & usage & [Hi Hp Hid Hst Hr] & Hidle & Hstop & _ & _ & Hne & Hc)%schedule_claimed.
  apply claim_Ok in Hc as (Hd & Hcl & _). exists plan, (leases input plan usage).*1.
  split_and!; try done.
  - by apply active_run.
  - intros Hfast s Hs. unfold stopped in Hstop. rewrite Hfast in Hstop.
    cbn [bool_decide decide_rel andb] in Hstop. rewrite bool_decide_eq_true_2 in Hstop by done. cbn [andb] in Hstop.
    apply orb_false_iff in Hstop as [[Hf Hb]%orb_false_iff He].
    rewrite existsb_false, Forall_forall in Hf, Hb. specialize (Hf s Hs). specialize (Hb s Hs). split.
    + unfold step_failed, one_of in Hf. split_bool. set_solver.
    + intros Hready. apply negb_false_iff, Nat.eqb_eq in He. unfold expired_ready in He.
      rewrite filter_length_zero in He. apply He. unfold orderedReady. apply js_sort_elem, filter_elem.
      split; [done|by apply memb_true].
  - by rewrite Hcl, claims_stepIds.
  - by intros Hnil%fmap_nil_inv.
  - intros s. apply leases_steps.
  - apply leases_free.
Qed.

(** The parent's budget after the use of its run. *)
Definition turns_left (input : DagScheduleInputV1) (usage : BudgetUsage) : Z :=
  Z.max 0 (eb_maxTurns (di_parentBudget input) - bu_turns usage).
Definition toolCalls_left (input : DagScheduleInputV1) (usage : BudgetUsage) : Z :=
  Z.max 0 (eb_maxToolCalls (di_parentBudget input) - bu_toolCalls usage).

(** A claim stays within the limits: the number of claims is at most the
    scheduler's parallel steps, the parent's parallel children and what is left
    of its child runs; every lease is within the budget of its step; the leased
    tool calls are at most what the run has left, and the leased turns at most
    the larger of what it has left and the number of parallel steps. *)
Theorem schedule_claims_bounded input pj d c :
  schedule input pj = Ok (d, Some c) → 1 ≤ maxParallelSteps →
  ∃ plan usage, pj_planGraph pj = Some plan ∧
    currentRunBudgetUsageV1 pj (di_parentRunId input) = Ok usage ∧
    (1 ≤ Z.of_nat (length (dd_claims d)) ≤ maxParallelSteps) ∧
    Z.of_nat (length (dd_claims d)) ≤ eb_maxParallelChildren (di_parentBudget input) ∧
    cumulativeChildRuns (countCapacity plan) + Z.of_nat (length (dd_claims d))
      ≤ eb_maxChildRuns (di_parentBudget input) ∧
    Forall (λ cl, ∃ s, s ∈ gr_steps plan ∧ sp_stepId s = cl_stepId cl ∧ lease_within (s, cl_budget cl))
      (dd_claims d) ∧
    sumZ (eb_maxToolCalls ∘ cl_budget) (dd_claims d) ≤ toolCalls_left input usage ∧
    sumZ (eb_maxTurns ∘ cl_budget) (dd_claims d) ≤ Z.max (turns_left input usage) maxParallelSteps.
Proof.
  intros (plan & usage & [Hi Hp Hid Hst Hr] & Hidle & Hstop & Hu & Hslots & Hne & Hc)%schedule_claimed Hmax.
  apply claim_Ok in Hc as (_ & -> & _). exists plan, usage.
  pose proof (leases_length input plan usage ltac:(lia)) as Hlen.
  assert (0 < length (leases input plan usage))%nat as Hpos by (destruct (leases input plan usage); cbn; [done|lia]).
  assert (∀ (f : ExecutionBudget → Z) l, sumZ (f ∘ cl_budget) (imap (make_claim createId) l) = sumZ (λ x, f x.2) l) as Hsum.
  { intros f l. rewrite <-sumZ_fmap, claims_budgets. apply sumZ_fmap. }
  rewrite length_imap, !Hsum. unfold slots, runs_left in *. split_and!; try done; try lia.
  - pose proof (leases_within input plan usage) as Hw. rewrite Forall_forall in Hw. apply Forall_forall. intros cl Hcl.
    apply list_elem_of_lookup in Hcl as (i & Hcl). rewrite list_lookup_imap in Hcl.
    destruct (leases input plan usage !! i) as [l|] eqn:Hl; [|done]. injection Hcl as <-. cbn.
    apply list_elem_of_lookup_2 in Hl. exists l.1. split_and!; [|done|].
    + eapply leases_steps. by apply list_elem_of_fmap_2.
    + destruct l as [s b]. by apply (Hw (s, b)).
  - unfold leases, allocateBudgetLeases. destruct (negb _); [cbn; unfold toolCalls_left; lia|].
    apply lease_from_toolCalls. cbn. lia.
  - unfold leases, allocateBudgetLeases. destruct (negb _); [cbn; lia|].
    pose proof (lease_from_turns (chosen input plan) (budget_left input usage) ltac:(cbn; lia)) as Ht.
    pose proof (select_from_length (live_ready plan) [] 0 (slots input plan) ltac:(unfold slots, runs_left; lia)) as Hch.
    unfold chosen, selectConflictFree, slots, runs_left, turns_left in *. cbn [budget_left remainingExecutionBudget foldl with_amounts eb_maxTurns] in *. lia.
Qed.

(** ** Decisions without a claim *)

Lemma currentRunBudgetUsageV1_total (es : list SessionEntryV3) pj runId :
  reduceSessionEntriesV3 es = Ok pj → requireActiveRun pj runId = Ok tt →
  ∃ usage, currentRunBudgetUsageV1 pj runId = Ok usage.
Proof.
  intros Hes (r & Hr & Hid & Hst)%active_run. pose proof (reduced_run_ids _ _ Hes) as Hnd.
  unfold currentRunBudgetUsageV1. destruct (findb _ _) as [r'|] eqn:Hf.
  - apply findb_Some in Hf as [Hr' Hid']. split_bool.
    assert (r' = r) as -> by (eapply (NoDup_fmap_elem rn_runId); [exact Hnd|done|done|congruence]).
    rewrite bool_decide_eq_false_2 by naive_solver. by eexists.
  - rewrite findb_None, Forall_forall in Hf. specialize (Hf r Hr). split_bool. done.
Qed.

(** The decision on an idle plan, without its first test. *)
Lemma idle_decision_idle input pj plan capacity remaining :
  idle plan →
  dd_state (idle_decision now input pj plan (countCapacity plan) capacity remaining) =
  if forallb (λ step, bool_decide (sp_state step = S_succeeded)) (gr_steps plan) then D_complete
  else if negb (Nat.eqb (length (expired_ready plan)) 0) then D_blocked
  else if (capacity =? 0) || (eb_maxParallelChildren (di_parentBudget input) =? 0) then D_budget_exhausted
  else if existsb (λ step, negb (step_expired now step)) (orderedReady plan)
          && negb (existsb (λ step, negb (step_expired now step) && hasMinimumExecutionBudget remaining)
                     (orderedReady plan)) then D_budget_exhausted
  else if existsb (λ step, bool_decide (sp_state step = S_blocked)) (gr_steps plan) then D_blocked
  else if existsb step_failed (gr_steps plan) then D_failed
  else if hasAttemptLimitBlock plan then D_blocked
  else D_deadlocked.
Proof.
  intros [Hs Hc]%idle_zero. unfold idle_decision. rewrite findb_existsb, Hs, Hc. cbn [orb Z.ltb Z.compare].
  fold (expired_ready plan). by repeat case_match.
Qed.

Lemma orderedReady_elem plan s : s ∈ orderedReady plan ↔ s ∈ gr_steps plan ∧ sp_stepId s ∈ gr_readyStepIds plan.
Proof. unfold orderedReady. by rewrite js_sort_elem, filter_elem, memb_true. Qed.

(** Completion: on the projection of a journal, a running plan is reported
    complete exactly when all its steps have succeeded and none of their
    attempts is still at work. *)
Theorem schedule_complete es input pj plan :
  reduceSessionEntriesV3 es = Ok pj → runnable input pj plan →
  (∃ d, schedule input pj = Ok (d, None) ∧ dd_state d = D_complete) ↔
  (∀ s, s ∈ gr_steps plan → sp_state s = S_succeeded ∧ ∀ a, a ∈ sp_attempts s → attempt_active a = false).
Proof.
  intros Hes Hrun. rewrite (schedule_runnable _ _ _ Hrun).
  pose proof (pw_ready _ (reduced_projected_wf _ _ _ Hes (rb_plan _ _ _ Hrun))) as Hready. split.
  - intros (d & Hd & Hst). destruct (busy plan) eqn:Hb.
    { destruct (schedule_running_stopped _ _ _ _ (or_introl Hb) Hd) as [_ Hbad]. cbn in Hbad. rewrite Hst in Hbad. set_solver. }
    destruct (stopped input plan) eqn:Hs.
    { destruct (schedule_running_stopped _ _ _ _ (or_intror Hs) Hd) as [_ Hbad]. cbn in Hbad. rewrite Hst in Hbad. set_solver. }
    apply busy_false in Hb. rewrite (schedule_running_idle _ _ _ Hb Hs) in Hd.
    apply bind_Ok in Hd as (usage & Hu & Hd). destruct (_ && _).
    { apply claim_Ok in Hd as (_ & _ & _ & c & [=] & _). }
    injection Hd as <-. rewrite (idle_decision_idle _ _ _ _ _ Hb) in Hst.
    destruct (forallb _ _) eqn:Hall; [|by repeat case_match].
    rewrite forallb_true, Forall_forall in Hall. intros s Hin. split; [|by apply Hb].
    specialize (Hall s Hin). by split_bool.
  - intros Hall. assert (idle plan) as Hb.
    { intros s Hin. destruct (Hall s Hin) as [Hst Ha]. split; [|done]. unfold step_active. by rewrite Hst. }
    assert (orderedReady plan = []) as Hnone.
    { destruct (orderedReady plan) as [|s l] eqn:Ho; [done|]. assert (s ∈ orderedReady plan) as Hin by (rewrite Ho; left).
      apply orderedReady_elem in Hin as [Hin Hr]. apply Hready in Hr as (_ & Hp & _); [|done].
      destruct (Hall s Hin). congruence. }
    assert (stopped input plan = false) as Hs.
    { unfold stopped, expired_ready. rewrite Hnone. cbn. rewrite orb_false_r.
      apply andb_false_iff. right. apply orb_false_iff. rewrite !existsb_false, !Forall_forall.
      split; intros s Hin; destruct (Hall s Hin) as [Hst _]; unfold step_failed; by rewrite Hst. }
    rewrite (schedule_running_idle _ _ _ Hb Hs).
    destruct (currentRunBudgetUsageV1_total _ _ _ Hes (rb_run _ _ _ Hrun)) as [usage ->]. cbn [mbind res_bind].
    unfold chosen at 1, live_ready. rewrite Hnone. cbn [List.filter selectConflictFree select_from length Nat.eqb negb].
    rewrite andb_false_r. cbn [andb]. eexists. split; [done|]. rewrite (idle_decision_idle _ _ _ _ _ Hb).
    replace (forallb _ _) with true; [done|]. symmetry. apply forallb_true, Forall_forall.
    intros s Hin. apply bool_decide_eq_true. by apply Hall.
Qed.

(** The first step whose dependencies are all done is ready. *)
Lemma startable_exists g :
  projected_wf g → gr_state g = P_running →
  (∀ s, s ∈ gr_steps g → sp_state s = S_succeeded ∨
    sp_state s = S_pending ∧ Z.of_nat (length (sp_attempts s)) < sp_maxAttempts s) →
  (∃ s, s ∈ gr_steps g ∧ sp_state s = S_pending) → ∃ s, s ∈ orderedReady g.
Proof.
  intros Hwf Hrun Hall (s0 & Hs0 & Hp0).
  destruct (acyclic_first (gr_steps g ≫= λ s, (λ d, (d, sp_stepId s)) <$> sp_dependencies s)
    (sp_stepId <$> filter (λ s, sp_state s = S_pending) (gr_steps g))) as (k & Hkin & Hfirst).
  - eapply acyclic_proper; [|exact (pw_acyclic _ Hwf)]. intros a b. unfold edge, projection_requires.
    rewrite list_elem_of_bind. setoid_rewrite list_elem_of_fmap. naive_solver.
  - intros Hnil. assert (sp_stepId s0 ∈ sp_stepId <$> filter (λ s, sp_state s = S_pending) (gr_steps g)) as Hin
      by (apply list_elem_of_fmap_2, list_elem_of_filter; done).
    rewrite Hnil in Hin. by apply elem_of_nil in Hin.
  - apply list_elem_of_fmap in Hkin as (s & -> & [Hp Hs]%list_elem_of_filter). exists s.
    apply orderedReady_elem. split; [done|]. apply (pw_ready _ Hwf s Hs).
    destruct (Hall s Hs) as [?|[_ Hleft]]; [congruence|]. split_and!; [done..|]. intros d Hd.
    pose proof (pw_known _ Hwf s d Hs Hd) as (t & -> & Ht)%list_elem_of_fmap.
    exists t. split_and!; [done|done|]. destruct (Hall t Ht) as [?|[Htp _]]; [done|].
    destruct (Hfirst (sp_stepId t)).
    + apply list_elem_of_fmap_2, list_elem_of_filter. done.
    + apply list_elem_of_bind. exists s. split; [|done]. apply list_elem_of_fmap. by exists (sp_stepId t).
Qed.

(** What a deadlock verdict has excluded on an idle plan. *)
Lemma deadlock_parts input pj plan capacity remaining :
  idle plan →
  dd_state (idle_decision now input pj plan (countCapacity plan) capacity remaining) = D_deadlocked →
  (∃ s, s ∈ gr_steps plan ∧ sp_state s ≠ S_succeeded) ∧ expired_ready plan = [] ∧ capacity ≠ 0 ∧
  eb_maxParallelChildren (di_parentBudget input) ≠ 0 ∧
  (live_ready plan ≠ [] → hasMinimumExecutionBudget remaining = true) ∧
  (∀ s, s ∈ gr_steps plan → sp_state s ∉ [S_blocked; S_failed; S_interrupted]) ∧
  (∀ s, s ∈ gr_steps plan → sp_state s = S_pending → Z.of_nat (length (sp_attempts s)) < sp_maxAttempts s).
Proof.
  intros Hb. rewrite (idle_decision_idle _ _ _ _ _ Hb).
  destruct (forallb _ _) eqn:Hall; [done|]. destruct (negb (Nat.eqb _ _)) eqn:He; [done|].
  destruct ((capacity =? 0) || _) eqn:Hcap; [done|]. destruct (existsb _ (orderedReady plan) && _) eqn:Hmin; [done|].
  destruct (existsb (λ step, bool_decide (sp_state step = S_blocked)) _) eqn:Hbl; [done|].
  destruct (existsb step_failed _) eqn:Hf; [done|]. destruct (hasAttemptLimitBlock plan) eqn:Hlim; [done|]. intros _.
  rewrite existsb_false, Forall_forall in Hbl, Hf. unfold hasAttemptLimitBlock in Hlim.
  rewrite existsb_false, Forall_forall in Hlim. split_and!.
  - apply not_true_iff_false in Hall. rewrite forallb_true in Hall.
    destruct (Exists_dec (λ s, sp_state s ≠ S_succeeded) (gr_steps plan)) as [Hex|Hno].
    + apply Exists_exists in Hex. done.
    + destruct Hall. apply Forall_forall. intros s Hs. apply bool_decide_eq_true, dec_stable. intros Hne.
      apply Hno, Exists_exists. by exists s.
  - apply negb_false_iff, Nat.eqb_eq in He. by apply length_zero_iff_nil.
  - split_bool. lia.
  - split_bool. lia.
  - intros Hlive. destruct (live_ready plan) as [|s l] eqn:Hl; [done|].
    assert (s ∈ live_ready plan) as [Hs Hx]%filter_elem by (rewrite Hl; left).
    apply andb_false_iff in Hmin as [Hmin|Hmin].
    + rewrite existsb_false, Forall_forall in Hmin. rewrite (Hmin s Hs) in Hx. done.
    + apply negb_false_iff, existsb_true in Hmin as (t & _ & Ht). by apply andb_true_iff in Ht as [_ ?].
  - intros s Hs. specialize (Hbl s Hs). specialize (Hf s Hs). unfold step_failed, one_of in Hf. split_bool. set_solver.
  - intros s Hs Hp. specialize (Hlim s Hs). rewrite Hp, bool_decide_eq_true_2 in Hlim by done. cbn in Hlim. lia.
Qed.

(** C31 No false deadlock: on the projection of a journal a plan is reported
    deadlocked only when one of its steps was cancelled or has no turn in its
    budget; every other idle plan has a step to claim or a reason to stop. *)
Theorem schedule_deadlock es input pj plan d oc :
  reduceSessionEntriesV3 es = Ok pj → pj_planGraph pj = Some plan → 1 ≤ maxParallelSteps →
  schedule input pj = Ok (d, oc) → dd_state d = D_deadlocked →
  ∃ s, s ∈ gr_steps plan ∧ (sp_state s = S_cancelled ∨ eb_maxTurns (sp_budget s) = 0).
Proof.
  intros Hes Hplan Hmax Hd Hst. pose proof (reduced_projected_wf _ _ _ Hes Hplan) as Hwf.
  destruct (Exists_dec (λ s, sp_state s = S_cancelled ∨ eb_maxTurns (sp_budget s) = 0) (gr_steps plan))
    as [Hex|Hno]; [by apply Exists_exists|exfalso]. rewrite <-Forall_Exists_neg, Forall_forall in Hno.
  apply schedule_Ok in Hd as (plan' & Hp & _ & Hor). assert (plan' = plan) as -> by congruence.
  destruct Hor as [(Hnr & d' & Heq & Ht)|[Hrun Hd]].
  { injection Heq as <- ->. unfold terminalDecision in Ht. destruct (gr_state plan); try done; injection Ht as <-; done. }
  pose proof (rb_running _ _ _ Hrun) as Hrunning.
  destruct (busy plan) eqn:Hb.
  { destruct (schedule_running_stopped _ _ _ _ (or_introl Hb) Hd) as [_ Hbad]. cbn in Hbad. rewrite Hst in Hbad. set_solver. }
  destruct (stopped input plan) eqn:Hs.
  { destruct (schedule_running_stopped _ _ _ _ (or_intror Hs) Hd) as [_ Hbad]. cbn in Hbad. rewrite Hst in Hbad. set_solver. }
  apply busy_false in Hb. rewrite (schedule_running_idle _ _ _ Hb Hs) in Hd.
  apply bind_Ok in Hd as (usage & Hu & Hd). destruct (_ && _) eqn:Hclaim.
  { apply claim_Ok in Hd as (Hd & _). congruence. }
  injection Hd as Hd _. rewrite <-Hd in Hst. apply deadlock_parts in Hst as ((s0 & Hs0 & Hne0) & He & Hcap & Hch & Hmin & Hstates & Hleft); [|done].
  assert (∀ s, s ∈ gr_steps plan → sp_state s = S_succeeded ∨ sp_state s = S_pending) as Htwo.
  { intros s Hin. specialize (Hstates s Hin). specialize (Hno s Hin). destruct (Hb s Hin) as [Hact _].
    unfold step_active in Hact. destruct (sp_state s) eqn:E; [by right|discriminate Hact|discriminate Hact|by left|..].
    1,2,4: destruct Hstates; set_solver.
    destruct Hno. by left. }
  destruct (startable_exists plan Hwf Hrunning) as (s & Hready).
  { intros s Hin. destruct (Htwo s Hin); [by left|right]. auto. }
  { exists s0. split; [done|]. by destruct (Htwo s0 Hs0). }
  assert (s ∈ live_ready plan) as Hlive.
  { apply filter_elem. split; [done|]. apply negb_true_iff. apply not_true_iff_false. intros Hx.
    assert (s ∈ expired_ready plan) as Hin by (by apply filter_elem). rewrite He in Hin. by apply elem_of_nil in Hin. }
  assert (0 < slots input plan) as Hslots.
  { pose proof (rb_input _ _ _ Hrun) as Hi. unfold validateInput in Hi. inv_ok.
    unfold slots. assert (0 ≤ eb_maxParallelChildren (di_parentBudget input)); [|unfold runs_left in *; lia].
    match goal with Hx : existsb _ _ = false |- _ => cbn [existsb] in Hx end. split_bool. lia. }
  destruct (chosen input plan) as [|c l] eqn:Hch'.
  { apply selectConflictFree_nil in Hch'; [|done]. rewrite Hch' in Hlive. by apply elem_of_nil in Hlive. }
  assert (c ∈ gr_steps plan) as Hc.
  { assert (c ∈ live_ready plan) as Hc; [|by apply filter_elem in Hc as [[Hc _]%orderedReady_elem _]].
    eapply elem_of_sublist; [|apply (select_from_sublist (live_ready plan) [] 0 (slots input plan))].
    change (select_from _ _ _ _) with (chosen input plan). rewrite Hch'. left. }
  assert (leases input plan usage ≠ []) as Hl.
  { unfold leases, allocateBudgetLeases. rewrite Hmin by (intros Hnil; rewrite Hnil in Hlive; by apply elem_of_nil in Hlive).
    cbn [negb]. rewrite Hch'. cbn [lease_from]. destruct (_ <? 1) eqn:Ht; [|done]. cbn in Ht.
    destruct (Hno c Hc). pose proof (pw_budgets _ Hwf c Hc). lia. }
  destruct (leases input plan usage); [done|]. cbn in Hclaim. rewrite andb_true_r in Hclaim. lia.
Qed.

(** ** Errors *)

(** Errors: a call fails with one of five codes, each for its reason: a
    malformed input, a projection without the named plan, a running plan whose
    parent run is not running, or, only after a claim has been decided, entries
    or a commit that the journal's own validators refuse. *)
Theorem schedule_error input pj code :
  schedule input pj = Err code →
  (code = "DAG_SCHEDULER_INPUT_INVALID"%string ∧ validateInput input = Err code) ∨
  (code = "DAG_PLAN_NOT_FOUND"%string ∧ ∀ plan, pj_planGraph pj = Some plan → gr_planId plan ≠ di_planId input) ∨
  (code = "DAG_PARENT_RUN_NOT_ACTIVE"%string ∧
    ∃ plan, pj_planGraph pj = Some plan ∧ gr_planId plan = di_planId input ∧ gr_state plan = P_running ∧
      currentRunBudgetUsageV1 pj (di_parentRunId input) = Err code) ∨
  (code ∈ ["SESSION_ENTRY_INVALID"; "SESSION_COMMIT_INVALID"]%string ∧
    ∃ plan usage, runnable input pj plan ∧ idle plan ∧ stopped input plan = false ∧
      leases input plan usage ≠ []).
Proof.
  unfold DagScheduler.schedule. intros [Hi|([] & Hi & Hr)]%bind_Err.
  { left. split; [|done]. unfold validateInput in Hi.
    repeat match goal with
    | Hx : (_ ≫= _) = Err _ |- _ => apply bind_Err in Hx as [Hx|(? & ? & Hx)]
    | Hx : fail_if _ _ = Err _ |- _ => apply fail_if_Err in Hx as [_ Hx]
    end; done. }
  right. apply bind_Err in Hr as [Hp|(plan & [Hp Hid]%requirePlan_dag_Ok & Hr)].
  { left. unfold DagScheduler.requirePlan in Hp. destruct (pj_planGraph pj) as [g|].
    - apply bind_Err in Hp as [[Hne ->]%fail_if_Err|(? & ? & ?)]; [|done]. split; [done|].
      intros plan [= <-]. by split_bool.
    - injection Hp as <-. by split. }
  right. case_bool_decide as Hst.
  { exfalso. apply bind_Err in Hr as [Ht|(? & ? & ?)]; [|done]. unfold terminalDecision in Ht.
    by destruct (gr_state plan). }
  apply bind_Err in Hr as [Ha|([] & Ha & Hr)].
  { left. unfold requireActiveRun in Ha. apply fail_if_Err in Ha as [Hno ->]. split; [done|].
    exists plan. split_and!; [done..|]. unfold currentRunBudgetUsageV1. destruct (findb _ _) as [r|] eqn:Hf; [|done].
    apply findb_Some in Hf as [Hr Hrid]. apply negb_true_iff in Hno. rewrite existsb_false, Forall_forall in Hno.
    specialize (Hno r Hr). unfold run_active in Hno. rewrite Hrid in Hno. cbn in Hno. split_bool.
    by rewrite bool_decide_eq_true_2. }
  assert (runnable input pj plan) as Hrun by by split.
  destruct (busy plan) eqn:Hb.
  { exfalso. revert Hr. unfold DagScheduler.schedule_running. fold (busy plan). rewrite Hb. by repeat case_match. }
  destruct (stopped input plan) eqn:Hs.
  { exfalso. revert Hr. unfold DagScheduler.schedule_running. rewrite findb_existsb. unfold stopped in Hs.
    fold (expired_ready plan). apply andb_true_iff in Hs as [-> Hs]. cbn [andb].
    destruct (existsb step_failed _ || _); [done|]. cbn [orb] in Hs. by rewrite Hs. }
  apply busy_false in Hb. rewrite (schedule_running_idle _ _ _ Hb Hs) in Hr.
  apply bind_Err in Hr as [Hu|(usage & Hu & Hr)].
  { left. assert (code = "DAG_PARENT_RUN_NOT_ACTIVE"%string) as ->; [|split; [done|by exists plan]].
    revert Hu. unfold currentRunBudgetUsageV1. destruct (findb _ _); [|congruence].
    intros [[_ ->]%fail_if_Err|(? & ? & ?)]%bind_Err; done. }
  right. destruct (_ && _) eqn:Hc; [|done]. apply andb_true_iff in Hc as [_ Hl]. split.
  - by apply claim_Err in Hr.
  - exists plan, usage. split_and!; try done. by intros Hnil; rewrite Hnil in Hl.
Qed.
End Decisions.

(** ** Evaluation at the sample journal *)

Definition sample_createId (n : nat) (kind : string) : string := kind +:+ "-" +:+ js_String (JInt (Z.of_nat n)).

Definition sample_input : DagScheduleInputV1 :=
  {| di_sessionId := "s1"; di_parentRunId := "r1"; di_planId := "p1";
     di_parentBudget := {| eb_maxTurns := 10; eb_maxToolCalls := 20; eb_maxTokens := None;
       eb_maxChildRuns := 4; eb_maxParallelChildren := 2; eb_maxDepth := 1; eb_deadlineAt := None |};
     di_failureMode := fail_fast |}.

Abbreviation sample_schedule := (schedule 2 sample_createId instant instant).

(** A plan with the first step alone, which succeeds. *)
Definition sample_single : list SessionEntryV3 := sample_entries
  ([sample_created; run_started "req-1" None;
    plan_created {| pc_planId := "p1"; pc_planRevision := 1; pc_objective := "Do it"; pc_state := P_draft |};
    sample_step "a" 0 [] ["src"]; sample_plan_to P_running]%string ++ sample_execution).

(** The first of the two steps is cancelled. *)
Definition sample_cancelled : list SessionEntryV3 :=
  sample_entries (sample_opening ++ [sample_step_to "a" S_cancelled]).

Definition schedule_check (es : list SessionEntryV3) (input : DagScheduleInputV1)
    (check : SessionProjectionV3 → res (DagScheduleDecisionV1 * option SessionCommitV3) → bool) : bool :=
  match reduceSessionEntriesV3 es with
  | Ok pj => check pj (sample_schedule input pj)
  | Err _ => false
  end.

Lemma schedule_check_true es input check :
  schedule_check es input check = true →
  ∃ pj, reduceSessionEntriesV3 es = Ok pj ∧ check pj (sample_schedule input pj) = true.
Proof. unfold schedule_check. destruct (reduceSessionEntriesV3 es) as [pj|]; [|done]. by exists pj. Qed.

Definition claims_steps (steps : list string)
    (r : res (DagScheduleDecisionV1 * option SessionCommitV3)) : bool :=
  match r with
  | Ok (d, Some c) => bool_decide (cl_stepId <$> dd_claims d = steps)
  | _ => false
  end.

Lemma sample_claim : ∃ pj d c, reduceSessionEntriesV3 (sample_entries sample_opening) = Ok pj ∧
  sample_schedule sample_input pj = Ok (d, Some c) ∧ cl_stepId <$> dd_claims d = ["a"%string].
Proof.
  destruct (schedule_check_true (sample_entries sample_opening) sample_input (λ _, claims_steps ["a"%string]))
    as (pj & Hpj & Hc); [vm_compute; reflexivity|].
  unfold claims_steps in Hc. destruct (sample_schedule sample_input pj) as [[d [c|]]|] eqn:Hs; try discriminate Hc.
  apply bool_decide_eq_true in Hc. exists pj, d, c. split_and!; assumption.
Qed.

Lemma schedule_claims_safe_witness : ∃ pj d c, sample_schedule sample_input pj = Ok (d, Some c) ∧
  cl_stepId <$> dd_claims d = ["a"%string] ∧ ∃ plan, pj_planGraph pj = Some plan ∧ idle plan.
Proof.
  destruct sample_claim as (pj & d & c & _ & Hs & Hc). exists pj, d, c. split; [exact Hs|]. split; [exact Hc|].
  destruct (schedule_claims_safe 2 sample_createId instant instant _ _ _ _ Hs)
    as (plan & steps & Hp & _ & _ & _ & Hi & _). exists plan. split; assumption.
Defined.

Lemma schedule_claims_bounded_witness : ∃ pj d c, sample_schedule sample_input pj = Ok (d, Some c) ∧
  1 ≤ Z.of_nat (length (dd_claims d)) ≤ 2.
Proof.
  destruct sample_claim as (pj & d & c & _ & Hs & Hc). exists pj, d, c. split; [exact Hs|].
  destruct (schedule_claims_bounded 2 sample_createId instant instant _ _ _ _ Hs ltac:(lia))
    as (plan & usage & _ & _ & Hb & _). exact Hb.
Defined.

Definition runnableb (input : DagScheduleInputV1) (pj : SessionProjectionV3) : bool :=
  is_ok (validateInput input)
  && match pj_planGraph pj with
     | Some plan => bool_decide (gr_planId plan = di_planId input) && bool_decide (gr_state plan = P_running)
     | None => false
     end
  && is_ok (requireActiveRun pj (di_parentRunId input)).

Lemma is_ok_unit (r : res unit) : is_ok r = true → r = Ok tt.
Proof. by destruct r as [[]|]. Qed.

Lemma runnableb_true input pj : runnableb input pj = true → ∃ plan, runnable input pj plan.
Proof.
  unfold runnableb. intros [[Hi%is_ok_unit Hp]%andb_true_iff Hr%is_ok_unit]%andb_true_iff.
  destruct (pj_planGraph pj) as [plan|] eqn:Hpl; [|done]. split_bool. by exists plan.
Qed.

Lemma schedule_complete_witness : ∃ pj plan, reduceSessionEntriesV3 sample_single = Ok pj ∧
  pj_planGraph pj = Some plan ∧ ∀ s, s ∈ gr_steps plan → sp_state s = S_succeeded.
Proof.
  destruct (schedule_check_true sample_single sample_input (λ pj r, runnableb sample_input pj &&
    match r with Ok (d, None) => match dd_state d with D_complete => true | _ => false end | _ => false end))
    as (pj & Hpj & Hc); [vm_compute; reflexivity|].
  apply andb_true_iff in Hc as [Hrun Hc]. destruct (runnableb_true _ _ Hrun) as (plan & Hplan).
  exists pj, plan. split; [exact Hpj|]. split; [exact (rb_plan _ _ _ Hplan)|]. intros s Hs.
  refine (proj1 (proj1 (schedule_complete 2 sample_createId instant instant _ _ _ _ Hpj Hplan) _ s Hs)).
  destruct (sample_schedule sample_input pj) as [[d [c|]]|]; try discriminate Hc.
  exists d. split; [reflexivity|]. destruct (dd_state d); try discriminate Hc. reflexivity.
Defined.

Lemma schedule_deadlock_witness : ∃ pj plan s, reduceSessionEntriesV3 sample_cancelled = Ok pj ∧
  pj_planGraph pj = Some plan ∧ s ∈ gr_steps plan ∧ (sp_state s = S_cancelled ∨ eb_maxTurns (sp_budget s) = 0).
Proof.
  destruct (schedule_check_true sample_cancelled sample_input (λ pj r, runnableb sample_input pj &&
    match r with Ok (d, _) => match dd_state d with D_deadlocked => true | _ => false end | _ => false end))
    as (pj & Hpj & Hc); [vm_compute; reflexivity|].
  apply andb_true_iff in Hc as [Hrun Hc]. destruct (runnableb_true _ _ Hrun) as (plan & Hplan).
  pose proof (rb_plan _ _ _ Hplan) as Hp.
  destruct (sample_schedule sample_input pj) as [[d oc]|] eqn:Hs; [|discriminate Hc].
  assert (dd_state d = D_deadlocked) as Hd by (destruct (dd_state d); try discriminate Hc; reflexivity).
  destruct (schedule_deadlock 2 sample_createId instant instant _ _ _ _ _ _ Hpj Hp ltac:(lia) Hs Hd)
    as (s & Hin & Hor). exists pj, plan, s. split_and!; assumption.
Defined.

Definition other_plan : DagScheduleInputV1 :=
  {| di_sessionId := "s1"; di_parentRunId := "r1"; di_planId := "p2";
     di_parentBudget := di_parentBudget sample_input; di_failureMode := fail_fast |}.

Lemma schedule_error_witness : ∃ pj, reduceSessionEntriesV3 sample_single = Ok pj ∧
  sample_schedule other_plan pj = Err "DAG_PLAN_NOT_FOUND" ∧
  ∀ plan, pj_planGraph pj = Some plan → gr_planId plan ≠ "p2"%string.
Proof.
  destruct (schedule_check_true sample_single other_plan (λ pj r,
    match r with Err code => bool_decide (code = "DAG_PLAN_NOT_FOUND"%string) | _ => false end))
    as (pj & Hpj & Hc); [vm_compute; reflexivity|].
  destruct (sample_schedule other_plan pj) as [|code] eqn:Hs; [discriminate Hc|].
  apply bool_decide_eq_true in Hc as ->. exists pj. split; [exact Hpj|]. split; [exact Hs|].
  destruct (schedule_error 2 sample_createId instant instant _ _ _ Hs) as [[[=] _]|[[_ Hn]|[[[=] _]|[Hin _]]]].
  - exact Hn.
  - apply elem_of_cons in Hin as [[=]|[[=]|Hin%elem_of_nil]%elem_of_cons]. destruct Hin.
Defined.
