(* ===== verification/ClaimReplay.v ===== *)
(** * The claim and the journal: scheduler and reducer together

    The commit that the DAG scheduler appends is accepted by the reducer of the
    same journal, and its effect on the state is that of a claim: every claimed
    step runs under one new running attempt, and nothing else of the plan
    changes. *)

From S2P Require Import Prelude Js CanonicalJson Graph Samples Plan PlanSpec Subagent Session SessionReducer SessionSamples SessionInv SessionLife SessionPlan SessionReady SessionEntry SessionCommit JournalDrafts DraftReplay DagScheduler ClaimEntries DagSelect DagSchedule.
Local Open Scope Z_scope.

(** ** The abstract effect *)

(** The new attempt of a claim, and the step that it makes run. *)
Definition claimed_attempt (cl : DagStepClaimV1) : MutableAttempt :=
  {| ma_attemptId := cl_attemptId cl; ma_ordinal := cl_ordinal cl; ma_state := A_running;
     ma_childRunId := Some (cl_childRunId cl); ma_resultRef := None; ma_resultDigest := None;
     ma_resultStatus := None; ma_verificationRef := None; ma_errorCode := None; ma_execution := None;
     ma_verifications := [] |}.
Definition claimed_step (cl : DagStepClaimV1) (s : MutableStep) : MutableStep :=
  with_step_state (with_attempts s (ms_attempts s ++ [(cl_attemptId cl, claimed_attempt cl)]))
    S_running None.
Definition claimed_plan (p : MutablePlan) (claims : list DagStepClaimV1) : MutablePlan :=
  foldl (λ p cl, mutate_step p (cl_stepId cl) (claimed_step cl)) p claims.

Lemma claimed_plan_ids p claims : mp_planId (claimed_plan p claims) = mp_planId p ∧
  mp_revision (claimed_plan p claims) = mp_revision p ∧ mp_state (claimed_plan p claims) = mp_state p.
Proof.
  revert p. induction claims as [|cl claims IH]; intros p; [done|].
  destruct (IH (mutate_step p (cl_stepId cl) (claimed_step cl))) as (? & ? & ?). done.
Qed.

(** What the claims do to the step [k]. *)
Lemma claimed_plan_steps p claims k :
  NoDup (cl_stepId <$> claims) →
  mget k (mp_steps (claimed_plan p claims)) =
    match List.find (λ cl, bool_decide (cl_stepId cl = k)) claims with
    | Some cl => claimed_step cl <$> mget k (mp_steps p)
    | None => mget k (mp_steps p)
    end.
Proof.
  revert p. induction claims as [|cl claims IH]; intros p; [done|].
  rewrite fmap_cons. intros [Hn Hnd]%NoDup_cons.
  change (claimed_plan p (cl :: claims)) with
    (claimed_plan (mutate_step p (cl_stepId cl) (claimed_step cl)) claims).
  rewrite IH by done. unfold mutate_step at 1 2. cbn [mp_steps with_steps List.find]. rewrite mget_mupdate.
  case_bool_decide as Hk.
  - rewrite decide_True by done.
    destruct (List.find _ claims) as [cl'|] eqn:Hf; [|done]. exfalso. apply find_some in Hf as [Hin Heq].
    split_bool. apply Hn. rewrite Hk, <-Heq. apply list_elem_of_fmap_2. by apply list_elem_of_In.
  - rewrite decide_False by naive_solver. by rewrite option_fmap_id.
Qed.

(** ** The three entries of one claim *)

Lemma stable_id_neq x y : stable_id "attempt" x ≠ stable_id "child-run" y.
Proof. done. Qed.

Section OneClaim.
Context (ids : list string) (p : MutablePlan) (s : MutableStep) (cl : DagStepClaimV1).
Hypothesis Hshape : plan_shape ids p.
Hypothesis Hs : mget (cl_stepId cl) (mp_steps p) = Some s.
Hypothesis Hpending : ms_state s = S_pending.
Hypothesis Hordinal : cl_ordinal cl = Z.of_nat (length (ms_attempts s)) + 1.
Hypothesis Hleft : Z.of_nat (length (ms_attempts s)) < ms_maxAttempts s.
Hypothesis Hattempt : stable_id "attempt" (cl_attemptId cl) ∉ ids.
Hypothesis Hchild : stable_id "child-run" (cl_childRunId cl) ∉ ids.

Definition created_data : AttemptCreatedData :=
  {| ac_planId := mp_planId p; ac_planRevision := mp_revision p; ac_stepId := cl_stepId cl;
     ac_attemptId := cl_attemptId cl; ac_ordinal := cl_ordinal cl; ac_state := A_reserved;
     ac_childRunId := Some (cl_childRunId cl) |}.
Definition step_running_data : StepStateChangedData :=
  {| ssc_planId := mp_planId p; ssc_planRevision := mp_revision p; ssc_stepId := cl_stepId cl;
     ssc_state := S_running; ssc_reason := None; ssc_newAttemptId := None; ssc_errorCode := None |}.
Definition attempt_running_data : AttemptStateChangedData :=
  {| asc_planId := mp_planId p; asc_planRevision := mp_revision p; asc_stepId := cl_stepId cl;
     asc_attemptId := cl_attemptId cl; asc_state := A_running; asc_errorCode := None |}.

Definition reserved_step (s : MutableStep) : MutableStep :=
  with_attempts s (ms_attempts s ++ [(cl_attemptId cl, new_attempt created_data)]).
Definition started_step (s : MutableStep) : MutableStep := with_step_state (reserved_step s) S_running None.

Lemma claim_sshape : step_shape ids (cl_stepId cl) s.
Proof. apply (ps_steps _ _ Hshape). by apply mget_elem_inv. Qed.

Lemma claim_fresh_key : cl_attemptId cl ∉ (ms_attempts s).*1.
Proof.
  intros ([k a] & Heq & Hin)%list_elem_of_fmap. cbn in Heq. apply Hattempt. rewrite Heq.
  by apply (ssh_attempts _ _ _ claim_sshape k a).
Qed.

Lemma attempt_created_claim :
  on_attempt_created ids (Some p) created_data =
    Ok (stable_id "child-run" (cl_childRunId cl) :: stable_id "attempt" (cl_attemptId cl) :: ids,
        mutate_step p (cl_stepId cl) reserved_step).
Proof. by erewrite attempt_created_run. Qed.

Lemma step_running_claim :
  on_step_state_changed (Some (mutate_step p (cl_stepId cl) reserved_step)) step_running_data =
    Ok (mutate_step p (cl_stepId cl) started_step).
Proof.
  pose proof attempt_created_claim as Hc. apply on_attempt_created_shape in Hc as [_ Hsh]; [|done]. cbn in Hsh.
  assert (mget (cl_stepId cl) (mp_steps (mutate_step p (cl_stepId cl) reserved_step)) = Some (reserved_step s)) as Hget
    by (by rewrite mutate_step_get, decide_True, Hs).
  erewrite step_changed_run; [|exact Hget|done..| |]; cbn [step_running_data ssc_state attempt_state_for].
  - by rewrite mutate_step_step.
  - change (ms_state (reserved_step s)) with (ms_state s). by rewrite Hpending.
  - rewrite (latestStepAttempt_last _ (cl_stepId cl) _ (ps_steps _ _ Hsh _ _ (mget_elem_inv _ _ _ Hget))).
    unfold reserved_step. cbn [ms_attempts with_attempts]. by rewrite fmap_app, list_fmap_singleton, last_snoc.
Qed.

Lemma attempt_running_claim :
  on_attempt_state_changed (Some (mutate_step p (cl_stepId cl) started_step)) attempt_running_data =
    Ok (mutate_step p (cl_stepId cl) (claimed_step cl)).
Proof.
  assert (mget (cl_stepId cl) (mp_steps (mutate_step p (cl_stepId cl) started_step)) = Some (started_step s)) as Hget
    by (by rewrite mutate_step_get, decide_True, Hs).
  assert (mget (cl_attemptId cl) (ms_attempts (started_step s)) = Some (new_attempt created_data)) as Ha.
  { cbn. rewrite <-(mset_fresh _ (new_attempt created_data)) by apply claim_fresh_key. apply mget_mset_eq. }
  erewrite attempt_changed_run; [|exact Hget|done..|exact Ha|done|by left].
  unfold mutate_attempt. rewrite mutate_step_step. f_equal. eapply mutate_step_ext; [exact Hshape|exact Hs|].
  unfold claimed_step, compose, started_step, reserved_step, with_step_state, with_attempts. cbn. f_equal.
  exact (mupdate_snoc (cl_attemptId cl) (λ a, with_attempt_state a A_running None) _ _ claim_fresh_key).
Qed.
End OneClaim.

(** ** The drafts of all claims *)

Section Pairs.
Context `{JsEngine} (input : DagScheduleInputV1) (plan : SessionPlanGraphProjectionV3).

(** A pair of a leased step and its claim that may be replayed in [st]. *)
Record replayable (p : MutablePlan) (stable : list string)
    (lc : SessionStepProjectionV3 * ExecutionBudget * DagStepClaimV1) : Prop := {
  rp_id : sp_stepId lc.1.1 = cl_stepId lc.2;
  rp_step : ∃ s, mget (cl_stepId lc.2) (mp_steps p) = Some s ∧ ms_state s = S_pending ∧
    cl_ordinal lc.2 = Z.of_nat (length (ms_attempts s)) + 1 ∧
    Z.of_nat (length (ms_attempts s)) < ms_maxAttempts s;
  rp_attempt : stable_id "attempt" (cl_attemptId lc.2) ∉ stable;
  rp_child : stable_id "child-run" (cl_childRunId lc.2) ∉ stable;
}.

Definition pair_drafts
    (lc : SessionStepProjectionV3 * ExecutionBudget * DagStepClaimV1) :
    list typed_draft :=
  (λ data, (claim_correlation input plan lc.1.1 lc.2, data)) <$> claim_data plan lc.1.1 lc.2.

(** A claim leaves the other pairs replayable. *)
Lemma replayable_next p stable (lc lc' : SessionStepProjectionV3 * ExecutionBudget * DagStepClaimV1) :
  replayable p stable lc' → cl_stepId lc'.2 ≠ cl_stepId lc.2 →
  cl_attemptId lc'.2 ≠ cl_attemptId lc.2 → cl_childRunId lc'.2 ≠ cl_childRunId lc.2 →
  replayable (mutate_step p (cl_stepId lc.2) (claimed_step lc.2))
    (stable_id "child-run" (cl_childRunId lc.2) :: stable_id "attempt" (cl_attemptId lc.2) :: stable) lc'.
Proof.
  intros [Hid (s & Hs & Hrest) Ha Hc] Hstep Hatt Hchild. split; [done|..].
  - exists s. split; [|done]. cbn. by rewrite mget_mupdate, decide_False, option_fmap_id.
  - rewrite !not_elem_of_cons. split_and!; [apply stable_id_neq| |done]. by intros ?%stable_id_inj.
  - rewrite !not_elem_of_cons. split_and!; [by intros ?%stable_id_inj|apply not_eq_sym, stable_id_neq|done].
Qed.

(** The three drafts of a claim have its effect. *)
Lemma pair_steps runId v (lc : SessionStepProjectionV3 * ExecutionBudget * DagStepClaimV1) :
  gr_planId plan = mp_planId (dv_plan v) → gr_revision plan = mp_revision (dv_plan v) →
  plan_shape (dv_ids v) (dv_plan v) → replayable (dv_plan v) (dv_ids v) lc →
  draft_steps runId v (pair_drafts lc) =
    Ok {| dv_ids := stable_id "child-run" (cl_childRunId lc.2) :: stable_id "attempt" (cl_attemptId lc.2) :: dv_ids v;
          dv_plan := mutate_step (dv_plan v) (cl_stepId lc.2) (claimed_step lc.2); dv_runs := dv_runs v |}.
Proof.
  destruct v as [ids p runs], lc as [[step budget] cl]. cbn [dv_ids dv_plan dv_runs fst snd].
  intros Hid Hrev Hshape [Hstep (s & Hs & Hpending & Hordinal & Hleft) Hattempt Hchild]. cbn [fst snd] in *.
  pose proof (attempt_created_claim _ _ _ _ Hshape Hs Hordinal Hleft Hattempt Hchild) as H1.
  pose proof (step_running_claim _ _ _ _ Hshape Hs Hpending Hordinal Hleft Hattempt Hchild) as H2.
  pose proof (attempt_running_claim _ _ _ _ Hshape Hs Hattempt) as H3.
  unfold pair_drafts, claim_data. cbn [fst snd]. rewrite Hid, Hrev, Hstep. cbn [fmap list_fmap draft_steps draft_step snd dv_ids dv_plan dv_runs view_plan].
  change (on_attempt_created ids (Some p) _) with (on_attempt_created ids (Some p) (created_data p cl)).
  rewrite H1. cbn [mbind res_bind dv_ids dv_plan dv_runs fst snd].
  change (on_step_state_changed _ _) with (on_step_state_changed (Some (mutate_step p (cl_stepId cl) (reserved_step p cl))) (step_running_data p cl)).
  rewrite H2. cbn [fmap res_fmap mbind res_bind view_plan dv_ids dv_plan dv_runs].
  change (on_attempt_state_changed _ _) with (on_attempt_state_changed (Some (mutate_step p (cl_stepId cl) (started_step p cl))) (attempt_running_data p cl)).
  rewrite H3. done.
Qed.

Lemma pairs_steps runId pairs v :
  gr_planId plan = mp_planId (dv_plan v) → gr_revision plan = mp_revision (dv_plan v) →
  plan_shape (dv_ids v) (dv_plan v) → Forall (replayable (dv_plan v) (dv_ids v)) pairs →
  NoDup (cl_stepId <$> pairs.*2) → NoDup (cl_attemptId <$> pairs.*2) → NoDup (cl_childRunId <$> pairs.*2) →
  ∃ ids, draft_steps runId v (pairs ≫= pair_drafts) =
    Ok {| dv_ids := ids; dv_plan := claimed_plan (dv_plan v) pairs.*2; dv_runs := dv_runs v |}.
Proof.
  revert v. induction pairs as [|lc pairs IH]; intros v Hid Hrev Hsh Hall H1 H2 H3.
  { exists (dv_ids v). by destruct v. }
  apply Forall_cons in Hall as [Hlc Hall]. pose proof Hlc as [_ (s & Hs & Hpend & Hord & Hleft) Hatt Hch].
  rewrite !fmap_cons in H1, H2, H3. apply NoDup_cons in H1 as [N1 H1]. apply NoDup_cons in H2 as [N2 H2].
  apply NoDup_cons in H3 as [N3 H3]. pose proof (pair_steps runId v lc Hid Hrev Hsh Hlc) as Hone. rewrite bind_cons, draft_steps_app, Hone. cbn [mbind res_bind].
  match goal with |- context [draft_steps _ ?w _] => set (w' := w) end.
  apply (IH w'); try done; unfold w'; cbn [dv_ids dv_plan].
  - exact (draft_steps_shape _ _ _ _ Hsh Hone).
  - apply Forall_forall. intros lc' Hin. rewrite Forall_forall in Hall.
    apply (replayable_next _ _ lc); [by apply Hall|..]; intros Heq.
    + apply N1. rewrite <-Heq. by apply list_elem_of_fmap_2, list_elem_of_fmap_2.
    + apply N2. rewrite <-Heq. by apply list_elem_of_fmap_2, list_elem_of_fmap_2.
    + apply N3. rewrite <-Heq. by apply list_elem_of_fmap_2, list_elem_of_fmap_2.
Qed.
End Pairs.

(** ** The refinement *)

Section Refinement.
Context `{JsEngine} `{JsCrypto} `{RP : ReviewPlanContract} (maxParallelSteps : Z) (createId : nat → string → string).
Context (now now_claim : string).

Lemma leases_stepIds input plan usage :
  NoDup (sp_stepId <$> gr_steps plan) →
  NoDup (sp_stepId <$> (leases maxParallelSteps now input plan usage).*1).
Proof.
  intros Hnd. destruct (leases_prefix maxParallelSteps now input plan usage) as [k Hk].
  assert (NoDup (sp_stepId <$> chosen maxParallelSteps now input plan)) as Hc.
  { eapply sublist_NoDup; [|apply fmap_sublist, select_from_sublist]. unfold live_ready, orderedReady.
    eapply sublist_NoDup; [|apply fmap_sublist, filter_sublist_list].
    rewrite (js_sort_perm compareSteps). eapply sublist_NoDup; [exact Hnd|apply fmap_sublist, filter_sublist_list]. }
  rewrite Hk, fmap_app in Hc. by apply NoDup_app in Hc as [? _].
Qed.

Lemma leased_pairs input plan st p usage :
  project_present p = Ok plan → plan_shape (id_stableIds (ss_ids st)) p → fresh_ids createId st →
  let leased := leases maxParallelSteps now input plan usage in
  Forall (replayable p (id_stableIds (ss_ids st))) (zip leased (imap (make_claim createId) leased)).
Proof.
  intros Hplan Hshape Hfresh leased. pose proof (project_present_wf _ _ Hplan) as Hwf.
  apply Forall_lookup. intros i [l cl] Hl. apply lookup_zip_Some in Hl as [Hl Hcl].
  rewrite list_lookup_imap, Hl in Hcl. injection Hcl as <-.
  destruct (leases_steps maxParallelSteps now input plan usage l.1) as (Hin & Hready & _).
  { apply list_elem_of_fmap_2. by apply list_elem_of_lookup_2 with i. }
  apply (pw_ready _ Hwf _ Hin) in Hready as (_ & Hpend & Hlen & _). split; cbn; [done| |apply Hfresh|apply Hfresh].
  destruct (present_step _ _ _ _ Hplan Hshape Hin) as (ms & Hget & _ & Heq & Hatt). exists ms.
  rewrite Hatt, !length_fmap in *. rewrite Heq in Hpend, Hlen. by split_and!.
Qed.

Lemma created_ids_NoDup kind (f : nat → nat) (g : DagStepClaimV1 → string) leased st :
  fresh_ids createId st → (∀ i j, f i = f j → i = j) →
  (∀ i l, g (make_claim createId i l) = createId (f i) kind) →
  NoDup (g <$> imap (make_claim createId) leased).
Proof.
  intros Hfresh Hf Hg. apply NoDup_alt. intros i j x Hi Hj.
  rewrite list_lookup_fmap, list_lookup_imap in Hi, Hj.
  destruct (leased !! i); [|done]. destruct (leased !! j); [|done]. cbn in Hi, Hj.
  injection Hi as <-. injection Hj as Hj. rewrite !Hg in Hj. symmetry. by apply Hf, (fi_inj _ _ Hfresh _ _ kind).
Qed.

Lemma claim_drafts_pairs input plan leased claims :
  claim_drafts input plan leased claims = zip leased claims ≫= pair_drafts input plan.
Proof. unfold claim_drafts. induction (zip leased claims) as [|[l cl] k IH]; [done|]. rewrite !bind_cons. by rewrite IH. Qed.

End Refinement.

(** ** Evaluation at the sample journal *)

Definition new_id (n : nat) (kind : string) : string := kind +:+ ":" +:+ pretty n.

(** No identity of the state looks like a created one. *)
Definition no_new_ids (st : SessionState) : bool :=
  forallb (λ id, negb (String.prefix "entry:" id)) (id_entryIds (ss_ids st))
  && forallb (λ id, negb (String.prefix "attempt:attempt:" id) && negb (String.prefix "child-run:child-run:" id))
       (id_stableIds (ss_ids st)).

Lemma no_new_ids_fresh st : no_new_ids st = true → fresh_ids new_id st.
Proof.
  unfold no_new_ids. rewrite andb_true_iff, !forallb_true, !Forall_forall. intros [He Hs]. split.
  - intros m n kind Heq. unfold new_id in Heq. apply (inj (String.append kind)), (inj (String.append ":")) in Heq.
    by apply (inj pretty).
  - intros n Hin%He. revert Hin. unfold new_id. generalize (pretty n). intros [] Hx; vm_compute in Hx; done.
  - intros n Hin%Hs. revert Hin. unfold new_id. generalize (pretty n). intros [] Hx; vm_compute in Hx; done.
  - intros n Hin%Hs. revert Hin. unfold new_id. generalize (pretty n). intros [] Hx; vm_compute in Hx; done.
Qed.

Definition new_id_check (es : list SessionEntryV3) : bool :=
  match reduce_state es, reduceSessionEntriesV3 es with
  | Ok (_, _, st), Ok pj =>
      no_new_ids st && match schedule 2 new_id instant instant sample_input pj with
        | Ok (_, Some c) => Z.of_nat (length (es ++ sc_entries c)) <=? MAX_ENTRIES
        | _ => false
        end && bool_decide (di_sessionId sample_input = sn_sessionId (pj_snapshot pj))
  | _, _ => false
  end.

