(* ===== verification/DagRecovery.v ===== *)
(** * Recovery of a plan: apps/runtime/src/planner/dagRecovery.ts

    What becomes of the attempts that were at work when the parent process was
    lost: each one is interrupted, and its step is either rescheduled under a new
    attempt or blocked.  The resolver that rebuilds the dependencies of a child
    run is a function that may fail; [createId] is a function of the number of its
    call and its argument. *)

From S2P Require Import Prelude Js CanonicalJson Plan Subagent Session SessionReducer SessionEntry SessionCommit JournalDrafts DagScheduler.
Local Open Scope Z_scope.

Definition ACTIVE_ATTEMPT_STATES : list PlanAttemptStateV1 :=
  [A_reserved; A_running; A_execution_succeeded; A_verifying].
Definition RECOVERY_INCOMPATIBILITY_CODES : list string :=
  ["RECOVERY_DEPENDENCY_NOT_FOUND"; "RECOVERY_DEPENDENCY_VERSION_MISMATCH"; "RECOVERY_DEPENDENCY_DIGEST_MISMATCH";
   "RECOVERY_CAPABILITY_DRIFT"; "RECOVERY_PROFILE_INCOMPATIBLE"]%string.

(** [DagRecoveryInputV1]. *)
Record DagRecoveryInputV1 := {
  ri_sessionId : string;
  ri_parentRunId : string;
  ri_planId : string;
  ri_parentBudget : ExecutionBudget;
}.
Record DagRecoveredClaimV1 := {
  rcl_stepId : string;
  rcl_previousAttemptId : string;
  rcl_attemptId : string;
  rcl_childRunId : string;
  rcl_request : SubagentExecutionRequestV1;
}.
Record RecoveryCandidate := {
  cd_step : SessionStepProjectionV3;
  cd_attempt : SessionAttemptProjectionV3;
  cd_unknownUsage : option BudgetUsage;
}.
Inductive RecoveryResolution :=
| reschedule (candidate : RecoveryCandidate) (claim : DagRecoveredClaimV1)
| block_step (candidate : RecoveryCandidate) (code : string).
Definition resolved_candidate (r : RecoveryResolution) : RecoveryCandidate :=
  match r with reschedule c _ | block_step c _ => c end.

Inductive DagRecoveryState := V_idle | V_rescheduled | V_blocked_all | V_mixed.
Record RecoveryBlock := { bk_stepId : string; bk_attemptId : string; bk_code : string }.
Record DagRecoveryDecisionV1 := {
  rd_state : DagRecoveryState;
  rd_revision : Z;
  rd_rescheduled : list DagRecoveredClaimV1;
  rd_blocked : list RecoveryBlock;
  rd_unknownUsage : list (string * BudgetUsage);
}.

(** What the resolver is given, and the outcomes of its promise. *)
Record RebuildInput := {
  bi_sessionId : string;
  bi_parentRunId : string;
  bi_plan : SessionPlanGraphProjectionV3;
  bi_step : SessionStepProjectionV3;
  bi_interruptedAttempt : SessionAttemptProjectionV3;
  bi_persistedRequest : SubagentExecutionRequestV1;
  bi_newAttemptId : string;
  bi_newChildRunId : string;
}.
Inductive RebuildResult :=
| rebuild_rejected
| rebuild_compatible (request : jsval)
| rebuild_incompatible (code : string).

(** ** Guards *)

Definition recovery_limit (policy : option Z) : res Z :=
  let maxParallelSteps := default 2 policy in
  fail_if (negb (isSafeInteger (JInt maxParallelSteps)) || (maxParallelSteps <? 1)
           || (MAX_PARALLEL_STEPS <? maxParallelSteps)) "DAG_RECOVERY_POLICY_INVALID";;
  Ok maxParallelSteps.

Definition validateRecoveryInput `{JsEngine} (input : DagRecoveryInputV1) : res unit :=
  let budget := ri_parentBudget input in
  fail_if (negb (SAFE_ID (ri_sessionId input)) || negb (SAFE_ID (ri_parentRunId input))
           || negb (SAFE_ID (ri_planId input))) "DAG_RECOVERY_INPUT_INVALID";;
  fail_if (existsb (λ value, negb (isSafeInteger (JInt value)) || (value <? 0))
    [eb_maxTurns budget; eb_maxToolCalls budget; eb_maxChildRuns budget; eb_maxParallelChildren budget;
     eb_maxDepth budget]) "DAG_RECOVERY_INPUT_INVALID";;
  fail_if (match eb_maxTokens budget with
           | Some n => negb (isSafeInteger (JInt n)) || (n <? 0)
           | None => false
           end
           || match eb_deadlineAt budget with
              | Some d => negb (timestamp (JStr d))
              | None => false
              end) "DAG_RECOVERY_INPUT_INVALID".

Definition requireRecoveryPlan (projection : SessionProjectionV3) (planId : string) :
    res SessionPlanGraphProjectionV3 :=
  match pj_planGraph projection with
  | Some plan => fail_if (bool_decide (gr_planId plan ≠ planId)) "DAG_RECOVERY_PLAN_NOT_FOUND";; Ok plan
  | None => Err "DAG_RECOVERY_PLAN_NOT_FOUND"
  end.
Definition requireRecoveryRun (projection : SessionProjectionV3) (runId : string) : res unit :=
  fail_if (negb (existsb (run_active runId) (sn_runs (pj_snapshot projection))))
    "DAG_RECOVERY_PARENT_RUN_NOT_ACTIVE".

(** ** Budgets *)

Definition remainingBudget (budget : ExecutionBudget) (usage : BudgetUsage) : ExecutionBudget :=
  let usedTokens := default 0 (pu_inputTokens (bu_provider usage))
                    + default 0 (pu_outputTokens (bu_provider usage)) in
  with_amounts budget
    (Z.max 0 (eb_maxTurns budget - bu_turns usage))
    (Z.max 0 (eb_maxToolCalls budget - bu_toolCalls usage))
    ((λ n, Z.max 0 (n - usedTokens)) <$> eb_maxTokens budget).

Definition fitsBudget (requested remaining : ExecutionBudget) : bool :=
  (eb_maxTurns requested <=? eb_maxTurns remaining) && (eb_maxToolCalls requested <=? eb_maxToolCalls remaining)
  && match eb_maxTokens requested, eb_maxTokens remaining with
     | None, _ => true
     | Some n, Some m => n <=? m
     | Some _, None => false
     end.

Definition subtractUsage (remaining : ExecutionBudget) (usage : option BudgetUsage) : ExecutionBudget :=
  match usage with None => remaining | Some usage => remainingBudget remaining usage end.

(** The tokens stay when the request names none. *)
Definition subtractBudget (remaining requested : ExecutionBudget) : ExecutionBudget :=
  with_amounts remaining
    (Z.max 0 (eb_maxTurns remaining - eb_maxTurns requested))
    (Z.max 0 (eb_maxToolCalls remaining - eb_maxToolCalls requested))
    (match eb_maxTokens remaining, eb_maxTokens requested with
     | Some n, Some m => Some (Z.max 0 (n - m))
     | tokens, _ => tokens
     end).

(** The whole budget of the step counts as used. *)
Definition conservativeUsage (budget : ExecutionBudget) : BudgetUsage :=
  {| bu_turns := eb_maxTurns budget; bu_toolCalls := eb_maxToolCalls budget; bu_subagents := eb_maxChildRuns budget;
     bu_provider := {| pu_inputTokens := eb_maxTokens budget; pu_outputTokens := None; pu_cacheReadTokens := None;
                       pu_cacheWriteTokens := None; pu_costUsd := None |} |}.

(** ** Candidates *)

Definition attempt_at_work (attempt : SessionAttemptProjectionV3) : bool :=
  one_of (ap_state attempt) ACTIVE_ATTEMPT_STATES.

(** The attempt of a step that is at work, with the usage that nobody reported. *)
Definition step_candidate (step : SessionStepProjectionV3) : res (option RecoveryCandidate) :=
  match List.filter attempt_at_work (sp_attempts step) with
  | [] => Ok None
  | [attempt] => Ok (Some
      {| cd_step := step; cd_attempt := attempt;
         cd_unknownUsage := if is_none (ap_execution attempt) || negb (is_none (ap_resultRef attempt)) then None
                            else Some (conservativeUsage (sp_budget step)) |})
  | _ => Err "DAG_RECOVERY_ACTIVE_ATTEMPT_CONFLICT"
  end.

Definition collectCandidates `{JsEngine} (plan : SessionPlanGraphProjectionV3) : res (list RecoveryCandidate) :=
  found ← mapM step_candidate (gr_steps plan);
  Ok (js_sort (λ a b, compareSteps (cd_step a) (cd_step b)) (omap id found)).

Definition countAttempts (plan : SessionPlanGraphProjectionV3) : Z :=
  reduce_sum (λ step, Z.of_nat (length (sp_attempts step))) (gr_steps plan).

(** What the loop over the candidates carries on. *)
Record RecoveryCapacity := {
  rm_children : Z;
  rm_parallel : Z;
  rm_usage : ExecutionBudget;
  rm_conflictKeys : list string;
  rm_calls : nat;
}.

Definition recoveryBlock (candidate : RecoveryCandidate) (now : string) (room : RecoveryCapacity) : option string :=
  let step := cd_step candidate in
  match ap_execution (cd_attempt candidate) with
  | None => Some "RECOVERY_DEPENDENCY_BINDING_MISSING"%string
  | Some execution =>
      if match Plan.ac_mode (sp_access step) with read_only => false | _ => true end then Some "RECOVERY_WORKSPACE_WRITE_UNSAFE"%string
      else if match ex_retrySafety execution with read_only_idempotent => false | _ => true end then Some "RECOVERY_RETRY_NOT_SAFE"%string
      else if deadlineReached (eb_deadlineAt (sp_budget step)) now then Some "RECOVERY_STEP_DEADLINE_EXCEEDED"%string
      else if sp_maxAttempts step <=? Z.of_nat (length (sp_attempts step)) then Some "RECOVERY_ATTEMPT_LIMIT_REACHED"%string
      else if rm_children room <? 1 then Some "RECOVERY_CHILD_BUDGET_EXHAUSTED"%string
      else if rm_parallel room <? 1 then Some "RECOVERY_PARALLEL_CAPACITY_EXHAUSTED"%string
      else if existsb (λ key, memb key (rm_conflictKeys room)) (sp_conflictKeys step) then Some "RECOVERY_CONFLICT_UNSAFE"%string
      else if negb (fitsBudget (sp_budget step) (rm_usage room)) then Some "RECOVERY_PARENT_BUDGET_EXHAUSTED"%string
      else None
  end.

(** ** Journal events *)

(** The usage as an object. *)
Definition Usage_js (usage : BudgetUsage) : jsval := JObj
  ([("turns", JInt (bu_turns usage)); ("toolCalls", JInt (bu_toolCalls usage))]%string
   ++ opt_prop "inputTokens" JInt (pu_inputTokens (bu_provider usage))
   ++ [("subagents", JInt (bu_subagents usage))]%string).

Definition recovery_correlation (input : DagRecoveryInputV1) (plan : SessionPlanGraphProjectionV3)
    (step : SessionStepProjectionV3) (attemptId : string) (childRunId : option string) : jsval :=
  JObj ([("parentRunId", JStr (ri_parentRunId input))]%string ++ opt_prop "childRunId" JStr childRunId
        ++ [("planId", JStr (gr_planId plan)); ("stepId", JStr (sp_stepId step)); ("attemptId", JStr attemptId)]%string).

(** The events of a candidate: those of its interruption, then those of its
    block or of its new attempt. *)
Definition interruption_events (input : DagRecoveryInputV1) (plan : SessionPlanGraphProjectionV3)
    (candidate : RecoveryCandidate) (correlation : jsval) (authority : jsobj) : list JournalEventDraft :=
  [{| dr_type := "attempt.state_changed"; dr_correlation := correlation;
      dr_data := JObj (authority ++ [("attemptId", JStr (ap_attemptId (cd_attempt candidate)));
        ("state", JStr "interrupted"); ("errorCode", JStr "RECOVERY_PROCESS_LOST")]%string) |};
   {| dr_type := "step.state_changed"; dr_correlation := correlation;
      dr_data := JObj (authority ++ [("state", JStr "interrupted"); ("errorCode", JStr "RECOVERY_PROCESS_LOST")]%string) |}]
  ++ match cd_unknownUsage candidate with
     | Some usage => [{| dr_type := "usage.recorded"; dr_correlation := correlation;
                         dr_data := JObj [("source", JStr "subagent"); ("usage", Usage_js usage)]%string |}]
     | None => []
     end.

Definition restart_events (plan : SessionPlanGraphProjectionV3) (step : SessionStepProjectionV3)
    (claim : DagRecoveredClaimV1) (correlation : jsval) (authority : jsobj) : list JournalEventDraft :=
  [{| dr_type := "attempt.created"; dr_correlation := correlation;
      dr_data := JObj (authority ++ [("attemptId", JStr (rcl_attemptId claim));
        ("ordinal", JInt (Z.of_nat (length (sp_attempts step)) + 1)); ("state", JStr "reserved");
        ("childRunId", JStr (rcl_childRunId claim))]%string) |};
   {| dr_type := "step.state_changed"; dr_correlation := correlation;
      dr_data := JObj (authority ++ [("state", JStr "pending"); ("reason", JStr "recovery_retry_approved");
        ("newAttemptId", JStr (rcl_attemptId claim))]%string) |};
   {| dr_type := "step.state_changed"; dr_correlation := correlation;
      dr_data := JObj (authority ++ [("state", JStr "running")]%string) |};
   {| dr_type := "attempt.state_changed"; dr_correlation := correlation;
      dr_data := JObj (authority ++ [("attemptId", JStr (rcl_attemptId claim)); ("state", JStr "running")]%string) |};
   {| dr_type := "subagent.execution_bound"; dr_correlation := correlation;
      dr_data := JObj (authority ++ [("attemptId", JStr (rcl_attemptId claim)); ("childRunId", JStr (rcl_childRunId claim));
        ("request", SubagentExecutionRequest_js (rcl_request claim)); ("retrySafety", JStr "read_only_idempotent")]%string) |}].

Definition recoveryEvents (input : DagRecoveryInputV1) (plan : SessionPlanGraphProjectionV3)
    (resolution : RecoveryResolution) : list JournalEventDraft :=
  let candidate := resolved_candidate resolution in
  let step := cd_step candidate in
  let attempt := cd_attempt candidate in
  let oldCorrelation := recovery_correlation input plan step (ap_attemptId attempt) (ap_childRunId attempt) in
  let authority := [("planId", JStr (gr_planId plan)); ("planRevision", JInt (gr_revision plan));
                    ("stepId", JStr (sp_stepId step))]%string in
  interruption_events input plan candidate oldCorrelation authority ++
  match resolution with
  | block_step _ code =>
      [{| dr_type := "step.state_changed"; dr_correlation := oldCorrelation;
          dr_data := JObj (authority ++ [("state", JStr "blocked"); ("errorCode", JStr code)]%string) |}]
  | reschedule _ claim =>
      restart_events plan step claim
        (recovery_correlation input plan step (rcl_attemptId claim) (Some (rcl_childRunId claim))) authority
  end.

(** ** Recovery *)

Definition emptyDecision (projection : SessionProjectionV3) : DagRecoveryDecisionV1 :=
  {| rd_state := V_idle; rd_revision := sn_revision (pj_snapshot projection); rd_rescheduled := [];
     rd_blocked := []; rd_unknownUsage := [] |}.

Definition recovery_state (resolutions : list RecoveryResolution) : DagRecoveryState :=
  let rescheduled := existsb (λ r, match r with reschedule _ _ => true | block_step _ _ => false end) resolutions in
  let blocked := existsb (λ r, match r with reschedule _ _ => false | block_step _ _ => true end) resolutions in
  if rescheduled && blocked then V_mixed else if rescheduled then V_rescheduled else V_blocked_all.

Section Recover.
Context `{JsEngine} `{JsCrypto} `{RP : ReviewPlanContract}.
Context (maxParallelSteps : Z) (resolver : RebuildInput → RebuildResult).
Context (createId : nat → string → string) (now : string).

(** The request that the resolver rebuilds for the new child run, or the code of
    its failure. *)
Definition rebuildSafely (input : DagRecoveryInputV1) (plan : SessionPlanGraphProjectionV3)
    (candidate : RecoveryCandidate) (execution : AttemptExecution) (attemptId childRunId : string) :
    SubagentExecutionRequestV1 + string :=
  match resolver {| bi_sessionId := ri_sessionId input; bi_parentRunId := ri_parentRunId input; bi_plan := plan;
          bi_step := cd_step candidate; bi_interruptedAttempt := cd_attempt candidate;
          bi_persistedRequest := ex_request execution; bi_newAttemptId := attemptId; bi_newChildRunId := childRunId |} with
  | rebuild_rejected => inr "RECOVERY_DEPENDENCY_RESOLVER_FAILED"%string
  | rebuild_incompatible code =>
      inr (if memb code RECOVERY_INCOMPATIBILITY_CODES then code else "RECOVERY_DEPENDENCY_REBUILD_INVALID"%string)
  | rebuild_compatible request =>
      match validateSubagentExecutionRequestV1 request with
      | Ok request =>
          if bool_decide (sr_parentRunId request ≠ ri_parentRunId input) || bool_decide (sr_childRunId request ≠ childRunId)
          then inr "RECOVERY_DEPENDENCY_REBUILD_INVALID"%string else inl request
      | Err _ => inr "RECOVERY_DEPENDENCY_REBUILD_INVALID"%string
      end
  end.

(** One iteration of the loop over the candidates. *)
Definition resolve_candidate (input : DagRecoveryInputV1) (plan : SessionPlanGraphProjectionV3)
    (candidate : RecoveryCandidate) (room : RecoveryCapacity) : RecoveryResolution * RecoveryCapacity :=
  let charged := {| rm_children := rm_children room; rm_parallel := rm_parallel room;
                    rm_usage := subtractUsage (rm_usage room) (cd_unknownUsage candidate);
                    rm_conflictKeys := rm_conflictKeys room; rm_calls := rm_calls room |} in
  match recoveryBlock candidate now charged, ap_execution (cd_attempt candidate) with
  | Some code, _ => (block_step candidate code, charged)
  | None, None => (block_step candidate "RECOVERY_DEPENDENCY_BINDING_MISSING", charged)
  | None, Some execution =>
      let attemptId := createId (rm_calls charged) "attempt" in
      let childRunId := createId (S (rm_calls charged)) "child-run" in
      let called := {| rm_children := rm_children charged; rm_parallel := rm_parallel charged;
                       rm_usage := rm_usage charged; rm_conflictKeys := rm_conflictKeys charged;
                       rm_calls := S (S (rm_calls charged)) |} in
      match rebuildSafely input plan candidate execution attemptId childRunId with
      | inr code => (block_step candidate code, called)
      | inl request =>
          (reschedule candidate
             {| rcl_stepId := sp_stepId (cd_step candidate); rcl_previousAttemptId := ap_attemptId (cd_attempt candidate);
                rcl_attemptId := attemptId; rcl_childRunId := childRunId; rcl_request := request |},
           {| rm_children := rm_children called - 1; rm_parallel := rm_parallel called - 1;
              rm_usage := subtractBudget (rm_usage called) (sp_budget (cd_step candidate));
              rm_conflictKeys := rm_conflictKeys called ++ sp_conflictKeys (cd_step candidate);
              rm_calls := rm_calls called |})
      end
  end.

Fixpoint resolve_candidates (input : DagRecoveryInputV1) (plan : SessionPlanGraphProjectionV3)
    (candidates : list RecoveryCandidate) (room : RecoveryCapacity) : list RecoveryResolution * RecoveryCapacity :=
  match candidates with
  | [] => ([], room)
  | candidate :: candidates =>
      let '(resolution, room) := resolve_candidate input plan candidate room in
      let '(resolutions, room) := resolve_candidates input plan candidates room in
      (resolution :: resolutions, room)
  end.

Definition initial_capacity (input : DagRecoveryInputV1) (plan : SessionPlanGraphProjectionV3) (usage : BudgetUsage) :
    RecoveryCapacity :=
  {| rm_children := Z.max 0 (eb_maxChildRuns (ri_parentBudget input) - countAttempts plan);
     rm_parallel := Z.min maxParallelSteps (eb_maxParallelChildren (ri_parentBudget input));
     rm_usage := remainingBudget (ri_parentBudget input) usage; rm_conflictKeys := []; rm_calls := 0 |}.

(** The value of the entry that the draft number [index] becomes. *)
Definition recovery_value (input : DagRecoveryInputV1) (projection : SessionProjectionV3) (calls index : nat)
    (draft : JournalEventDraft) : jsval :=
  draft_value createId (ri_sessionId input) (ri_parentRunId input)
    (maxInstant now (ca_updatedAt (pj_catalog projection))) projection calls index draft.

Definition recovery_decision (projection : SessionProjectionV3) (candidates : list RecoveryCandidate)
    (resolutions : list RecoveryResolution) : DagRecoveryDecisionV1 :=
  {| rd_state := recovery_state resolutions; rd_revision := sn_revision (pj_snapshot projection) + 1;
     rd_rescheduled := omap (λ r, match r with reschedule _ claim => Some claim | block_step _ _ => None end) resolutions;
     rd_blocked := omap (λ r, match r with
       | reschedule _ _ => None
       | block_step c code => Some {| bk_stepId := sp_stepId (cd_step c); bk_attemptId := ap_attemptId (cd_attempt c); bk_code := code |}
       end) resolutions;
     rd_unknownUsage := omap (λ c, (λ usage, (ap_attemptId (cd_attempt c), usage)) <$> cd_unknownUsage c) candidates |}.

(** [recover] once there are candidates. *)
Definition recover_candidates (input : DagRecoveryInputV1) (projection : SessionProjectionV3)
    (plan : SessionPlanGraphProjectionV3) (candidates : list RecoveryCandidate) :
    res (DagRecoveryDecisionV1 * option SessionCommitV3) :=
  usage ← currentRunBudgetUsageV1 projection (ri_parentRunId input);
  let '(resolutions, room) := resolve_candidates input plan candidates (initial_capacity input plan usage) in
  let events := resolutions ≫= recoveryEvents input plan in
  let token := createId (rm_calls room) "dag-recovery" in
  let values := imap (recovery_value input projection (S (rm_calls room))) events in
  mapM validateSessionEntryV3 values;;
  commit ← createSessionCommitV3
    {| ci_sessionId := ri_sessionId input; ci_commitId := "commit-" +:+ token;
       ci_expectedRevision := sn_revision (pj_snapshot projection);
       ci_idempotencyKey := "idem-" +:+ token; ci_entries := values |};
  Ok (recovery_decision projection candidates resolutions, Some commit).

(** [recover] from the loaded projection on; the commit is the argument of
    [appendCommit]. *)
Definition recover (input : DagRecoveryInputV1) (projection : SessionProjectionV3) :
    res (DagRecoveryDecisionV1 * option SessionCommitV3) :=
  validateRecoveryInput input;;
  plan ← requireRecoveryPlan projection (ri_planId input);
  if bool_decide (gr_state plan ≠ P_running) then Ok (emptyDecision projection, None)
  else
    requireRecoveryRun projection (ri_parentRunId input);;
    candidates ← collectCandidates plan;
    if Nat.eqb (length candidates) 0 then Ok (emptyDecision projection, None)
    else recover_candidates input projection plan candidates.
End Recover.
