(* ===== verification/RecoverySpec.v ===== *)
(** * Recovery: its entries and its safety

    What the drafts of the recovery mean to the journal (the typed entries that
    [validateSessionEntryV3] makes of them), and what its candidates, limits and
    rebuilt requests guarantee. *)

From S2P Require Import Prelude Js CanonicalJson Plan PlanSpec Subagent Session SessionReducer SessionReady SessionEntry SessionEntrySpec SessionEntryErrors SessionCommit JournalDrafts DagScheduler ClaimEntries DagSelect DagSchedule DagRecovery.
Local Open Scope Z_scope.

Definition PROCESS_LOST : string := "RECOVERY_PROCESS_LOST".

Section Typed.
Context (input : DagRecoveryInputV1) (plan : SessionPlanGraphProjectionV3).

Definition typed_correlation (step : SessionStepProjectionV3) (attemptId : string) (childRunId : option string) :
    SessionEntryCorrelationV3 :=
  [("parentRunId", ri_parentRunId input)]%string
  ++ match childRunId with Some c => [("childRunId", c)]%string | None => [] end
  ++ [("planId", gr_planId plan); ("stepId", sp_stepId step); ("attemptId", attemptId)]%string.

Definition step_to (step : SessionStepProjectionV3) (state : PlanStepStateV1) (reason : option StepChangeReason)
    (newAttemptId errorCode : option string) : SessionEntryData := step_state_changed
  {| ssc_planId := gr_planId plan; ssc_planRevision := gr_revision plan; ssc_stepId := sp_stepId step;
     ssc_state := state; ssc_reason := reason; ssc_newAttemptId := newAttemptId; ssc_errorCode := errorCode |}.
Definition attempt_to (step : SessionStepProjectionV3) (attemptId : string) (state : PlanAttemptStateV1)
    (errorCode : option string) : SessionEntryData := attempt_state_changed
  {| asc_planId := gr_planId plan; asc_planRevision := gr_revision plan; asc_stepId := sp_stepId step;
     asc_attemptId := attemptId; asc_state := state; asc_errorCode := errorCode |}.

Definition interruption_data (candidate : RecoveryCandidate) : list SessionEntryData :=
  [attempt_to (cd_step candidate) (ap_attemptId (cd_attempt candidate)) A_interrupted (Some PROCESS_LOST);
   step_to (cd_step candidate) S_interrupted None None (Some PROCESS_LOST)]
  ++ match cd_unknownUsage candidate with Some usage => [usage_recorded "subagent" usage] | None => [] end.
Definition restart_data (step : SessionStepProjectionV3) (claim : DagRecoveredClaimV1) : list SessionEntryData :=
  [attempt_created {| ac_planId := gr_planId plan; ac_planRevision := gr_revision plan; ac_stepId := sp_stepId step;
     ac_attemptId := rcl_attemptId claim; ac_ordinal := Z.of_nat (length (sp_attempts step)) + 1;
     ac_state := A_reserved; ac_childRunId := Some (rcl_childRunId claim) |};
   step_to step S_pending (Some recovery_retry_approved) (Some (rcl_attemptId claim)) None;
   step_to step S_running None None None;
   attempt_to step (rcl_attemptId claim) A_running None;
   subagent_execution_bound {| seb_planId := gr_planId plan; seb_planRevision := gr_revision plan;
     seb_stepId := sp_stepId step; seb_attemptId := rcl_attemptId claim; seb_childRunId := rcl_childRunId claim;
     seb_request := SubagentExecutionRequest_js (rcl_request claim); seb_retrySafety := read_only_idempotent |}].

Definition recovery_drafts (resolution : RecoveryResolution) : list typed_draft :=
  let candidate := resolved_candidate resolution in
  let old := typed_correlation (cd_step candidate) (ap_attemptId (cd_attempt candidate)) (ap_childRunId (cd_attempt candidate)) in
  (pair old <$> interruption_data candidate) ++
  match resolution with
  | block_step _ code => [(old, step_to (cd_step candidate) S_blocked None None (Some code))]
  | reschedule _ claim =>
      pair (typed_correlation (cd_step candidate) (rcl_attemptId claim) (Some (rcl_childRunId claim)))
        <$> restart_data (cd_step candidate) claim
  end.
End Typed.

Section Decode.
Context `{JsEngine} `{JsCrypto} `{RP : ReviewPlanContract}.
Context (input : DagRecoveryInputV1) (plan : SessionPlanGraphProjectionV3).

Lemma correlation_decodes step attemptId childRunId :
  correlation_of (recovery_correlation input plan step attemptId childRunId) =
    typed_correlation input plan step attemptId childRunId.
Proof. by destruct childRunId. Qed.

(** The usage of a budget without tokens has no property for them. *)
Lemma usage_decodes budget usage :
  budgetUsageValue (Usage_js (conservativeUsage budget)) = Ok usage → usage = conservativeUsage budget.
Proof.
  unfold budgetUsageValue, Usage_js, conservativeUsage. cbn [bu_turns bu_toolCalls bu_subagents bu_provider pu_inputTokens].
  intros Hu. destruct (eb_maxTokens budget); inv_ok; match goal with Hr : recordField _ = Ok _ |- _ => injection Hr as <- end; done.
Qed.

Lemma interruption_decodes candidate old :
  (∀ usage, cd_unknownUsage candidate = Some usage → usage = conservativeUsage (sp_budget (cd_step candidate))) →
  old = recovery_correlation input plan (cd_step candidate) (ap_attemptId (cd_attempt candidate)) (ap_childRunId (cd_attempt candidate)) →
  Forall2 decodes_to
    (interruption_events input plan candidate old
      [("planId", JStr (gr_planId plan)); ("planRevision", JInt (gr_revision plan)); ("stepId", JStr (sp_stepId (cd_step candidate)))]%string)
    (pair (typed_correlation input plan (cd_step candidate) (ap_attemptId (cd_attempt candidate)) (ap_childRunId (cd_attempt candidate)))
      <$> interruption_data plan candidate).
Proof.
  intros Husage ->. unfold interruption_events, interruption_data. rewrite fmap_app. apply Forall2_app.
  - repeat constructor; cbn [dr_type dr_correlation dr_data fields_of snd fst]; try apply correlation_decodes; intros runId data.
    + intros Hd%attempt_changed_decode. unfold attempt_state_changed_payload in Hd. inv_ok. by read_payload.
    + intros Hd%step_changed_decode. unfold step_state_changed_payload in Hd. inv_ok. by read_payload.
  - destruct (cd_unknownUsage candidate) as [usage|]; [|constructor]. rewrite (Husage usage) by done.
    repeat constructor; cbn [dr_type dr_correlation dr_data fields_of snd fst]; [apply correlation_decodes|]. intros runId data.
    intros Hd%usage_recorded_decode. unfold usage_recorded_payload in Hd. inv_ok.
    match goal with Hu : budgetUsageValue _ = Ok _ |- _ => apply usage_decodes in Hu as -> end.
    match goal with Hl : literal _ _ = Ok _ |- _ => vm_compute in Hl; injection Hl as <- end. done.
Qed.

Lemma restart_decodes step claim :
  Forall2 decodes_to
    (restart_events plan step claim (recovery_correlation input plan step (rcl_attemptId claim) (Some (rcl_childRunId claim)))
      [("planId", JStr (gr_planId plan)); ("planRevision", JInt (gr_revision plan)); ("stepId", JStr (sp_stepId step))]%string)
    (pair (typed_correlation input plan step (rcl_attemptId claim) (Some (rcl_childRunId claim))) <$> restart_data plan step claim).
Proof.
  unfold restart_events, restart_data.
  repeat constructor; cbn [dr_type dr_correlation dr_data fields_of snd fst]; intros runId data.
  - intros Hd%attempt_created_decode. unfold attempt_created_payload in Hd. inv_ok. by read_payload.
  - intros Hd%step_changed_decode. unfold step_state_changed_payload in Hd. inv_ok. read_payload.
    match goal with Hr : _ = enum_name ?r |- _ => by destruct r end.
  - intros Hd%step_changed_decode. unfold step_state_changed_payload in Hd. inv_ok. by read_payload.
  - intros Hd%attempt_changed_decode. unfold attempt_state_changed_payload in Hd. inv_ok. by read_payload.
  - intros Hd%execution_bound_decode. unfold subagent_execution_bound_payload in Hd. inv_ok. by read_payload.
Qed.

Lemma recovery_decodes resolution :
  (∀ usage, cd_unknownUsage (resolved_candidate resolution) = Some usage →
    usage = conservativeUsage (sp_budget (cd_step (resolved_candidate resolution)))) →
  Forall2 decodes_to (recoveryEvents input plan resolution) (recovery_drafts input plan resolution).
Proof.
  intros Husage. unfold recoveryEvents, recovery_drafts. apply Forall2_app; [by apply interruption_decodes|].
  destruct resolution as [candidate claim|candidate code]; [apply restart_decodes|].
  repeat constructor; cbn [dr_type dr_correlation dr_data fields_of snd fst]; [apply correlation_decodes|]. intros runId data.
  intros Hd%step_changed_decode. unfold step_state_changed_payload in Hd. inv_ok. by read_payload.
Qed.
End Decode.

Definition resolved_claim (r : RecoveryResolution) : option DagRecoveredClaimV1 :=
  match r with reschedule _ claim => Some claim | block_step _ _ => None end.
Definition resolved_block (r : RecoveryResolution) : option RecoveryBlock :=
  match r with
  | reschedule _ _ => None
  | block_step c code => Some {| bk_stepId := sp_stepId (cd_step c); bk_attemptId := ap_attemptId (cd_attempt c); bk_code := code |}
  end.

(** ** Candidates *)

(** A candidate is an attempt at work, alone in its step. *)
Record candidate_of (plan : SessionPlanGraphProjectionV3) (c : RecoveryCandidate) : Prop := {
  co_step : cd_step c ∈ gr_steps plan;
  co_attempt : List.filter attempt_at_work (sp_attempts (cd_step c)) = [cd_attempt c];
  co_usage : ∀ usage, cd_unknownUsage c = Some usage → usage = conservativeUsage (sp_budget (cd_step c));
}.

(** The attempts of the plan that are at work. *)
Definition attempts_at_work (plan : SessionPlanGraphProjectionV3) : list SessionAttemptProjectionV3 :=
  gr_steps plan ≫= λ step, List.filter attempt_at_work (sp_attempts step).

Lemma step_candidate_Ok step oc :
  step_candidate step = Ok oc →
  List.filter attempt_at_work (sp_attempts step) = option_list (cd_attempt <$> oc) ∧
  ∀ c, oc = Some c → cd_step c = step ∧
    ∀ usage, cd_unknownUsage c = Some usage → usage = conservativeUsage (sp_budget step).
Proof.
  unfold step_candidate. destruct (List.filter _ _) as [|a [|]]; intros [= <-]; [done|]. split; [done|].
  intros c [= <-]. split; [done|]. cbn. intros usage. case_match; [done|]. by intros [= <-].
Qed.

Lemma Forall2_with_r {A B} (P : A → B → Prop) (Q : B → Prop) l k :
  Forall2 P l k → Forall Q k → Forall2 (λ x y, P x y ∧ Q y) l k.
Proof. induction 1; intros Hq; constructor; apply Forall_cons in Hq as [??]; auto. Qed.

Section Candidates.
Context `{JsEngine} (plan : SessionPlanGraphProjectionV3) (candidates : list RecoveryCandidate).
Hypothesis Hc : collectCandidates plan = Ok candidates.

Lemma candidates_found : ∃ found, Forall2 (λ s oc, step_candidate s = Ok oc) (gr_steps plan) found ∧
  candidates ≡ₚ omap id found.
Proof.
  unfold collectCandidates in Hc. apply bind_Ok in Hc as (found & Hf & [= <-]). exists found. split; [by apply mapM_Ok|].
  apply js_sort_perm.
Qed.

Lemma candidates_of : Forall (candidate_of plan) candidates.
Proof.
  destruct candidates_found as (found & Hf & Hperm). apply Forall_forall. intros c Hin. rewrite Hperm in Hin.
  apply list_elem_of_omap in Hin as (oc & Hin & Hoc). cbn in Hoc. subst oc.
  apply list_elem_of_lookup in Hin as [i Hi]. destruct (Forall2_lookup_r _ _ _ _ _ Hf Hi) as (s & Hs & Hok).
  destruct (step_candidate_Ok _ _ Hok) as [Hw Hcs]. destruct (Hcs c eq_refl) as [Hst Hu]. cbn in Hw.
  split; rewrite Hst; [by apply list_elem_of_lookup_2 in Hs|done|done].
Qed.

Lemma found_steps (steps : list SessionStepProjectionV3) found :
  Forall2 (λ s oc, step_candidate s = Ok oc) steps found →
  cd_attempt <$> omap id found = (steps ≫= λ s, List.filter attempt_at_work (sp_attempts s)) ∧
  sublist (cd_step <$> omap id found) steps.
Proof.
  induction 1 as [|s oc steps found Hok _ [IH1 IH2]]; [done|].
  destruct (step_candidate_Ok _ _ Hok) as [Hw Hcs]. rewrite bind_cons, Hw, <-IH1.
  destruct oc as [c|]; cbn; (split; [done|]).
  - destruct (Hcs c eq_refl) as [-> _]. by constructor.
  - by constructor.
Qed.

Lemma candidates_attempts : cd_attempt <$> candidates ≡ₚ attempts_at_work plan.
Proof. destruct candidates_found as (found & Hf & ->). by rewrite (proj1 (found_steps _ _ Hf)). Qed.
Lemma candidates_stepIds : NoDup (sp_stepId <$> gr_steps plan) → NoDup (sp_stepId ∘ cd_step <$> candidates).
Proof.
  intros Hnd. destruct candidates_found as (found & Hf & ->). rewrite list_fmap_compose.
  eapply sublist_NoDup; [exact Hnd|apply fmap_sublist, (found_steps _ _ Hf)].
Qed.
End Candidates.

(** ** The loop *)

(** What a new attempt needs: the step only reads and may be repeated, it is
    within its deadline and has an attempt left. *)
Record retry_safe (now : string) (c : RecoveryCandidate) : Prop := {
  rs_access : Plan.ac_mode (sp_access (cd_step c)) = read_only;
  rs_execution : ∃ execution, ap_execution (cd_attempt c) = Some execution ∧ ex_retrySafety execution = read_only_idempotent;
  rs_deadline : deadlineReached (eb_deadlineAt (sp_budget (cd_step c))) now = false;
  rs_attempts : Z.of_nat (length (sp_attempts (cd_step c))) < sp_maxAttempts (cd_step c);
}.

Lemma recoveryBlock_None c now room :
  recoveryBlock c now room = None →
  retry_safe now c ∧ 1 ≤ rm_children room ∧ 1 ≤ rm_parallel room ∧
  (∀ key, key ∈ sp_conflictKeys (cd_step c) → key ∉ rm_conflictKeys room) ∧
  fitsBudget (sp_budget (cd_step c)) (rm_usage room) = true.
Proof.
  unfold recoveryBlock. destruct (ap_execution (cd_attempt c)) as [execution|] eqn:He; [|done].
  destruct (Plan.ac_mode _) eqn:Hm; [|done..].
  destruct (ex_retrySafety execution) eqn:Hr; try done.
  destruct (deadlineReached _ _) eqn:Hd; [done|].
  destruct (_ <=? _) eqn:Hl; [done|]. destruct (rm_children room <? 1) eqn:Hch; [done|].
  destruct (rm_parallel room <? 1) eqn:Hp; [done|]. destruct (existsb _ _) eqn:Hk; [done|].
  destruct (fitsBudget _ _) eqn:Hf; [|done]. intros _. split_and!; [|lia|lia| |done].
  - split; [done|by exists execution|done|lia].
  - intros key Hin Hin'. rewrite existsb_false, Forall_forall in Hk. specialize (Hk key Hin).
    by rewrite <-memb_true, Hk in Hin'.
Qed.

Section Loop.
Context `{JsEngine} (resolver : RebuildInput → RebuildResult) (createId : nat → string → string) (now : string).
Context (input : DagRecoveryInputV1) (plan : SessionPlanGraphProjectionV3).

(** The claim of a candidate, made at the call number [n] of [createId]. *)
Record claim_at (n : nat) (c : RecoveryCandidate) (claim : DagRecoveredClaimV1) : Prop := {
  ca_step : rcl_stepId claim = sp_stepId (cd_step c);
  ca_previous : rcl_previousAttemptId claim = ap_attemptId (cd_attempt c);
  ca_attempt : rcl_attemptId claim = createId n "attempt"%string;
  ca_child : rcl_childRunId claim = createId (S n) "child-run"%string;
  ca_request : validateSubagentExecutionRequestV1 (SubagentExecutionRequest_js (rcl_request claim)) = Ok (rcl_request claim);
  ca_parent : sr_parentRunId (rcl_request claim) = ri_parentRunId input;
  ca_childRun : sr_childRunId (rcl_request claim) = rcl_childRunId claim;
}.

Lemma rebuildSafely_request candidate execution attemptId childRunId request :
  rebuildSafely resolver input plan candidate execution attemptId childRunId = inl request →
  validateSubagentExecutionRequestV1 (SubagentExecutionRequest_js request) = Ok request ∧
  sr_parentRunId request = ri_parentRunId input ∧ sr_childRunId request = childRunId.
Proof.
  unfold rebuildSafely. destruct (resolver _) as [|v|code]; [done| |done].
  destruct (validateSubagentExecutionRequestV1 v) as [r|] eqn:Hr; [|done].
  destruct (_ || _) eqn:He; [done|]. intros [= <-]. apply orb_false_iff in He as [H1 H2].
  apply bool_decide_eq_false, dec_stable in H1. apply bool_decide_eq_false, dec_stable in H2.
  split; [|done]. by eapply validateSubagentExecutionRequestV1_reparse.
Qed.

(** The capacity that a claim leaves. *)
Definition claimed_room (c : RecoveryCandidate) (room : RecoveryCapacity) : RecoveryCapacity :=
  {| rm_children := rm_children room - 1; rm_parallel := rm_parallel room - 1;
     rm_usage := subtractBudget (rm_usage room) (sp_budget (cd_step c));
     rm_conflictKeys := rm_conflictKeys room ++ sp_conflictKeys (cd_step c); rm_calls := S (S (rm_calls room)) |}.
Definition charged_room (c : RecoveryCandidate) (room : RecoveryCapacity) : RecoveryCapacity :=
  {| rm_children := rm_children room; rm_parallel := rm_parallel room;
     rm_usage := subtractUsage (rm_usage room) (cd_unknownUsage c);
     rm_conflictKeys := rm_conflictKeys room; rm_calls := rm_calls room |}.

Definition at_calls (calls : nat) (room : RecoveryCapacity) : RecoveryCapacity :=
  {| rm_children := rm_children room; rm_parallel := rm_parallel room; rm_usage := rm_usage room;
     rm_conflictKeys := rm_conflictKeys room; rm_calls := calls |}.

(** One iteration: the candidate is blocked at the cost of its unknown usage, or
    claimed because it is safe and fits. *)
Inductive resolution_of (c : RecoveryCandidate) (room : RecoveryCapacity) : RecoveryResolution → RecoveryCapacity → Prop :=
| resolved_blocked code calls :
    (rm_calls room ≤ calls)%nat →
    resolution_of c room (block_step c code) (at_calls calls (charged_room c room))
| resolved_claimed claim :
    recoveryBlock c now (charged_room c room) = None → claim_at (rm_calls room) c claim →
    resolution_of c room (reschedule c claim) (claimed_room c (charged_room c room)).

Lemma resolve_candidate_of c room r room' :
  resolve_candidate resolver createId now input plan c room = (r, room') → resolution_of c room r room'.
Proof.
  unfold resolve_candidate. fold (charged_room c room). destruct (recoveryBlock _ _ _) as [code|] eqn:Hb.
  { intros [= <- <-]. by apply (resolved_blocked c room code (rm_calls room)). }
  destruct (ap_execution (cd_attempt c)) as [execution|] eqn:He.
  2:{ intros [= <- <-]. by apply (resolved_blocked c room _ (rm_calls room)). }
  destruct (rebuildSafely _ _ _ _ _ _) as [request|code] eqn:Hr.
  - intros [= <- <-]. apply rebuildSafely_request in Hr as (? & ? & ?). apply (resolved_claimed c room _ Hb). done.
  - intros [= <- <-]. apply (resolved_blocked c room code (S (S (rm_calls room)))). lia.
Qed.

(** The loop resolves the candidates in their order. *)
Inductive resolutions_of : list RecoveryCandidate → RecoveryCapacity → list RecoveryResolution → RecoveryCapacity → Prop :=
| resolutions_nil room : resolutions_of [] room [] room
| resolutions_cons c candidates room r room1 rs room2 :
    resolution_of c room r room1 → resolutions_of candidates room1 rs room2 →
    resolutions_of (c :: candidates) room (r :: rs) room2.

Lemma resolve_candidates_of candidates room rs room' :
  resolve_candidates resolver createId now input plan candidates room = (rs, room') → resolutions_of candidates room rs room'.
Proof.
  revert room rs room'. induction candidates as [|c candidates IH]; intros room rs room'; cbn.
  { intros [= <- <-]. constructor. }
  destruct (resolve_candidate _ _ _ _ _ c room) as [r room1] eqn:Hr.
  destruct (resolve_candidates _ _ _ _ _ candidates room1) as [rs1 room2] eqn:Hrs. intros [= <- <-].
  econstructor; [by apply resolve_candidate_of|by apply IH].
Qed.

Lemma resolution_candidate c room r room' : resolution_of c room r room' → resolved_candidate r = c.
Proof. by destruct 1. Qed.
Lemma resolutions_candidates candidates room rs room' :
  resolutions_of candidates room rs room' → resolved_candidate <$> rs = candidates.
Proof. induction 1 as [|c cs room r room1 rs room2 Hr _ IH]; [done|]. cbn. by rewrite IH, (resolution_candidate _ _ _ _ Hr). Qed.

(** ** Limits *)

(** The candidates that get a new attempt. *)
Definition retried : list RecoveryResolution → list RecoveryCandidate :=
  omap (λ r, match r with reschedule c _ => Some c | block_step _ _ => None end).

Lemma retried_safe candidates room rs room' :
  resolutions_of candidates room rs room' → Forall (retry_safe now) (retried rs).
Proof.
  induction 1 as [|c cs room r room1 rs room2 Hr _ IH]; [constructor|]. destruct Hr as [code calls|claim Hb]; cbn; [done|].
  constructor; [|done]. eapply recoveryBlock_None. exact Hb.
Qed.

(** What the new attempts cost is within what was left. *)
Lemma retried_sum (ok : RecoveryCandidate → Prop) (inv : RecoveryCapacity → Prop) (cost : RecoveryCandidate → Z)
    (remains : RecoveryCapacity → Z) candidates room rs room' :
  (∀ c room n, ok c → inv room → inv (at_calls n (charged_room c room)) ∧
    remains (at_calls n (charged_room c room)) ≤ Z.max 0 (remains room)) →
  (∀ c room, ok c → inv room → recoveryBlock c now room = None → inv (claimed_room c room) ∧
    cost c + Z.max 0 (remains (claimed_room c room)) ≤ Z.max 0 (remains room)) →
  resolutions_of candidates room rs room' → Forall ok candidates → inv room →
  sumZ cost (retried rs) ≤ Z.max 0 (remains room).
Proof.
  intros Hcharge Hclaim Hres. induction Hres as [|c cs room r room1 rs room2 Hr _ IH]; intros Hok Hinv; [cbn; lia|].
  apply Forall_cons in Hok as [Hc Hok]. destruct Hr as [code calls|claim Hb].
  - destruct (Hcharge c room calls Hc Hinv) as [Hi Hle]. specialize (IH Hok Hi). cbn [retried omap list_omap]. fold (retried rs). lia.
  - destruct (Hcharge c room (rm_calls room) Hc Hinv) as [Hi Hle].
    destruct (Hclaim c (charged_room c room) Hc Hi Hb) as [Hi' Hle']. specialize (IH Hok Hi').
    change (retried (reschedule c claim :: rs)) with (c :: retried rs). rewrite sumZ_cons.
    change (at_calls (rm_calls room) (charged_room c room)) with (charged_room c room) in Hle. lia.
Qed.

(** The budget of a candidate and its charge are no debts. *)
Record no_debt (c : RecoveryCandidate) : Prop := {
  nd_budget : 0 ≤ eb_maxTurns (sp_budget (cd_step c)) ∧ 0 ≤ eb_maxToolCalls (sp_budget (cd_step c)) ∧
    0 ≤ default 0 (eb_maxTokens (sp_budget (cd_step c)));
  nd_usage : ∀ usage, cd_unknownUsage c = Some usage → usage = conservativeUsage (sp_budget (cd_step c));
}.

Lemma retried_length candidates room rs room' :
  resolutions_of candidates room rs room' →
  Z.of_nat (length (retried rs)) ≤ Z.max 0 (rm_children room) ∧ Z.of_nat (length (retried rs)) ≤ Z.max 0 (rm_parallel room).
Proof.
  intros Hr. assert (Z.of_nat (length (retried rs)) = sumZ (λ _, 1) (retried rs)) as ->.
  { induction (retried rs) as [|c l IH]; [done|]. rewrite sumZ_cons, <-IH. cbn [length]. lia. }
  split; (eapply (retried_sum (λ _, True) (λ _, True)); [| |exact Hr|by apply Forall_forall|done]);
    [intros; split; [done|cbn; lia]|intros c room0 _ _ (_ & ? & ? & _)%recoveryBlock_None; split; [done|cbn; lia]|
     intros; split; [done|cbn; lia]|intros c room0 _ _ (_ & ? & ? & _)%recoveryBlock_None; split; [done|cbn; lia]].
Qed.

Definition tokens_of (b : ExecutionBudget) : Z := default 0 (eb_maxTokens b).
Definition budget_of (c : RecoveryCandidate) : ExecutionBudget := sp_budget (cd_step c).

Lemma charged_usage c room :
  no_debt c →
  eb_maxTurns (rm_usage (charged_room c room)) ≤ Z.max 0 (eb_maxTurns (rm_usage room)) ∧
  eb_maxToolCalls (rm_usage (charged_room c room)) ≤ Z.max 0 (eb_maxToolCalls (rm_usage room)) ∧
  tokens_of (rm_usage (charged_room c room)) ≤ Z.max 0 (tokens_of (rm_usage room)) ∧
  (is_Some (eb_maxTokens (rm_usage room)) → is_Some (eb_maxTokens (rm_usage (charged_room c room)))).
Proof.
  intros [(H1 & H2 & H3) Hu]. cbn [rm_usage charged_room]. unfold subtractUsage, tokens_of.
  destruct (cd_unknownUsage c) as [usage|]; [|split_and!; [lia..|done]]. rewrite (Hu usage eq_refl).
  unfold remainingBudget, conservativeUsage, with_amounts.
  cbn [bu_turns bu_toolCalls bu_provider pu_inputTokens pu_outputTokens eb_maxTurns eb_maxToolCalls eb_maxTokens].
  cbn [default] in *. split_and!; [lia|lia| |intros [n ->]; by eexists].
  destruct (eb_maxTokens (rm_usage room)) as [n|]; cbn; [|lia]. cbn in H3. destruct (eb_maxTokens _); cbn in *; lia.
Qed.

Lemma claimed_usage c room :
  fitsBudget (budget_of c) (rm_usage room) = true → no_debt c →
  eb_maxTurns (budget_of c) + Z.max 0 (eb_maxTurns (rm_usage (claimed_room c room))) ≤ Z.max 0 (eb_maxTurns (rm_usage room)) ∧
  eb_maxToolCalls (budget_of c) + Z.max 0 (eb_maxToolCalls (rm_usage (claimed_room c room))) ≤ Z.max 0 (eb_maxToolCalls (rm_usage room)) ∧
  (is_Some (eb_maxTokens (rm_usage room)) → is_Some (eb_maxTokens (rm_usage (claimed_room c room))) ∧
    tokens_of (budget_of c) + Z.max 0 (tokens_of (rm_usage (claimed_room c room))) ≤ Z.max 0 (tokens_of (rm_usage room))).
Proof.
  unfold fitsBudget, budget_of, tokens_of. intros [[H1%Z.leb_le H2%Z.leb_le]%andb_true_iff H3]%andb_true_iff [(N1 & N2 & N3) _].
  cbn [rm_usage claimed_room]. unfold subtractBudget, with_amounts. cbn [eb_maxTurns eb_maxToolCalls eb_maxTokens].
  split_and!; [lia|lia|]. intros [n Hn]. rewrite Hn in H3 |- *.
  destruct (eb_maxTokens (sp_budget (cd_step c))) as [m|]; cbn in *; (split; [by eexists|]); lia.
Qed.

Lemma retried_budget candidates room rs room' :
  resolutions_of candidates room rs room' → Forall no_debt candidates →
  sumZ (eb_maxTurns ∘ budget_of) (retried rs) ≤ Z.max 0 (eb_maxTurns (rm_usage room)) ∧
  sumZ (eb_maxToolCalls ∘ budget_of) (retried rs) ≤ Z.max 0 (eb_maxToolCalls (rm_usage room)) ∧
  (is_Some (eb_maxTokens (rm_usage room)) → sumZ (tokens_of ∘ budget_of) (retried rs) ≤ Z.max 0 (tokens_of (rm_usage room))).
Proof.
  intros Hr Hnd. assert (∀ c room, recoveryBlock c now room = None → fitsBudget (budget_of c) (rm_usage room) = true) as Hfit
    by (intros c r Hb; eapply recoveryBlock_None, Hb).
  split_and!.
  - apply (retried_sum no_debt (λ _, True) _ (λ room, eb_maxTurns (rm_usage room)) _ _ _ _) with (3 := Hr); [| |done|done].
    + intros c r n Hc _. split; [done|apply charged_usage, Hc].
    + intros c r Hc _ Hb%Hfit. split; [done|]. by apply claimed_usage.
  - apply (retried_sum no_debt (λ _, True) _ (λ room, eb_maxToolCalls (rm_usage room)) _ _ _ _) with (3 := Hr); [| |done|done].
    + intros c r n Hc _. split; [done|apply charged_usage, Hc].
    + intros c r Hc _ Hb%Hfit. split; [done|]. by apply claimed_usage.
  - intros Hsome. apply (retried_sum no_debt (λ room, is_Some (eb_maxTokens (rm_usage room))) _ (λ room, tokens_of (rm_usage room)) _ _ _ _) with (3 := Hr);
      [| |done|done].
    + intros c r n Hc Hs. destruct (charged_usage c r Hc) as (_ & _ & Hle & Hi). split; [by apply Hi|exact Hle].
    + intros c r Hc Hs Hb%Hfit. destruct (claimed_usage c r Hb Hc) as (_ & _ & Hi). by apply Hi.
Qed.

(** No two of them share a conflict key. *)
Lemma retried_free candidates room rs room' :
  resolutions_of candidates room rs room' →
  conflict_free (cd_step <$> retried rs) ∧
  ∀ c key, c ∈ retried rs → key ∈ sp_conflictKeys (cd_step c) → key ∉ rm_conflictKeys room.
Proof.
  induction 1 as [|c cs room r room1 rs room2 Hr _ [IH1 IH2]].
  { split; [by intros i j s t k ?|]. by intros c key ?%elem_of_nil. }
  destruct Hr as [code calls|claim Hb]; [done|].
  change (retried (reschedule c claim :: rs)) with (c :: retried rs).
  apply recoveryBlock_None in Hb as (_ & _ & _ & Hkeys & _). cbn [claimed_room charged_room rm_conflictKeys] in *. split.
  - rewrite fmap_cons. apply conflict_free_cons; [|done].
    intros t key (c' & -> & Hc')%list_elem_of_fmap Hk Hk'. apply (IH2 c' key Hc' Hk'). apply elem_of_app. by right.
  - intros c' key [->|Hc']%elem_of_cons Hk; [by apply Hkeys|]. intros Hin. apply (IH2 c' key Hc' Hk). apply elem_of_app. by left.
Qed.
End Loop.

(** ** Recovery *)

Section Recover.
Context `{JsEngine} `{JsCrypto} `{RP : ReviewPlanContract} (maxParallelSteps : Z) (resolver : RebuildInput → RebuildResult).
Context (createId : nat → string → string) (now : string).

(** A recovery that commits, with what it found and decided. *)
Record recovers (input : DagRecoveryInputV1) (pj : SessionProjectionV3) (d : DagRecoveryDecisionV1) (c : SessionCommitV3)
    (plan : SessionPlanGraphProjectionV3) (candidates : list RecoveryCandidate) (usage : BudgetUsage)
    (rs : list RecoveryResolution) (calls : nat) : Prop := {
  re_plan : pj_planGraph pj = Some plan;
  re_state : gr_state plan = P_running;
  re_run : requireActiveRun pj (ri_parentRunId input) = Ok tt;
  re_candidates : collectCandidates plan = Ok candidates;
  re_some : candidates ≠ [];
  re_usage : currentRunBudgetUsageV1 pj (ri_parentRunId input) = Ok usage;
  re_resolutions : ∃ room, rm_calls room = calls ∧
    resolutions_of createId now input candidates (initial_capacity maxParallelSteps input plan usage) rs room;
  re_decision : d = recovery_decision pj candidates rs;
  re_entries : sc_entries c = imap (draft_entry createId (ri_sessionId input) (ri_parentRunId input)
    (maxInstant now (ca_updatedAt (pj_catalog pj))) pj (S calls)) (rs ≫= recovery_drafts input plan);
  re_valid : mapM validateSessionEntryV3 (sc_values c) = Ok (sc_entries c);
  re_revision : sc_expectedRevision c = sn_revision (pj_snapshot pj);
}.

Lemma resolutions_decode input plan rs :
  Forall (candidate_of plan) (resolved_candidate <$> rs) →
  Forall2 decodes_to (rs ≫= recoveryEvents input plan) (rs ≫= recovery_drafts input plan).
Proof.
  induction rs as [|r rs IH]; [constructor|]. rewrite fmap_cons, !bind_cons. intros [Hr Hrs]%Forall_cons.
  apply Forall2_app; [|by apply IH]. apply recovery_decodes, Hr.
Qed.

Lemma recover_Ok input pj d c :
  recover maxParallelSteps resolver createId now input pj = Ok (d, Some c) →
  ∃ plan candidates usage rs calls, recovers input pj d c plan candidates usage rs calls.
Proof.
  unfold recover. intros Hr. apply bind_Ok in Hr as ([] & _ & Hr). apply bind_Ok in Hr as (plan & Hplan & Hr).
  destruct (bool_decide _) eqn:Hst; [done|]. apply bool_decide_eq_false, dec_stable in Hst.
  apply bind_Ok in Hr as ([] & Hrun & Hr). apply bind_Ok in Hr as (candidates & Hc & Hr).
  destruct (Nat.eqb _ 0) eqn:Hlen; [done|]. unfold recover_candidates in Hr.
  apply bind_Ok in Hr as (usage & Hu & Hr).
  destruct (resolve_candidates _ _ _ _ _ _ _) as [rs room] eqn:Hres. apply resolve_candidates_of in Hres.
  apply bind_Ok in Hr as (es & Hes & Hr). apply bind_Ok in Hr as (c' & Hcc & Hr). injection Hr as <- <-.
  exists plan, candidates, usage, rs, (rm_calls room).
  destruct (createSessionCommitV3_Ok _ _ Hcc) as (_ & Hrev & Hvals & Hes').
  split; [|exact Hst| |done| |done|by exists room|done| | |done].
  - unfold requireRecoveryPlan in Hplan. destruct (pj_planGraph pj) as [g|]; [|done]. by inv_ok.
  - unfold requireRecoveryRun, requireActiveRun in *. by destruct (negb _).
  - intros ->. done.
  - eapply entry_values_decode; [|exact Hes']. apply resolutions_decode.
    rewrite (resolutions_candidates _ _ _ _ _ _ _ Hres). by apply candidates_of.
  - by rewrite Hvals.
Qed.

Lemma recovery_no_debt es pj plan c :
  reduceSessionEntriesV3 es = Ok pj → pj_planGraph pj = Some plan → candidate_of plan c → no_debt c.
Proof.
  intros Hes Hp [Hstep _ Hu]. split; [|done]. exact (pw_budgets _ (reduced_projected_wf _ _ _ Hes Hp) _ Hstep).
Qed.

Lemma rescheduled_retried pj candidates rs :
  rd_rescheduled (recovery_decision pj candidates rs) = omap resolved_claim rs.
Proof. done. Qed.

(** Every resolution is a claim or a block, of the attempt of its candidate. *)
Lemma resolutions_attempts input (candidates : list RecoveryCandidate) room rs room' :
  resolutions_of createId now input candidates room rs room' →
  (rcl_previousAttemptId <$> omap resolved_claim rs) ++ (bk_attemptId <$> omap resolved_block rs)
    ≡ₚ ap_attemptId ∘ cd_attempt <$> candidates.
Proof.
  induction 1 as [|c cs room r room1 rs room2 Hr _ IH]; [done|]. rewrite fmap_cons, <-IH. destruct Hr as [code calls|claim _ Hc].
  - change (omap resolved_claim (block_step c code :: rs)) with (omap resolved_claim rs).
    change (omap resolved_block (block_step c code :: rs)) with
      ({| bk_stepId := sp_stepId (cd_step c); bk_attemptId := ap_attemptId (cd_attempt c); bk_code := code |} :: omap resolved_block rs).
    rewrite fmap_cons. symmetry. apply Permutation_middle.
  - change (omap resolved_claim (reschedule c claim :: rs)) with (claim :: omap resolved_claim rs).
    change (omap resolved_block (reschedule c claim :: rs)) with (omap resolved_block rs).
    rewrite fmap_cons, (ca_previous _ _ _ _ _ Hc). done.
Qed.

Lemma resolutions_claims input candidates room rs room' :
  resolutions_of createId now input candidates room rs room' →
  Forall2 (λ claim c, ∃ n, claim_at createId input n c claim) (omap resolved_claim rs) (retried rs) ∧
  Forall (λ c, c ∈ candidates) (retried rs).
Proof.
  induction 1 as [|c cs room r room1 rs room2 Hr _ [IH1 IH2]]; [by split; constructor|].
  assert (Forall (λ x, x ∈ c :: cs) (retried rs)) as IH2'.
  { eapply Forall_impl; [exact IH2|]. intros x Hx. by right. }
  destruct Hr as [code calls|claim _ Hc]; [done|]. split.
  - change (omap resolved_claim (reschedule c claim :: rs)) with (claim :: omap resolved_claim rs).
    change (retried (reschedule c claim :: rs)) with (c :: retried rs). constructor; [by exists (rm_calls room)|done].
  - change (retried (reschedule c claim :: rs)) with (c :: retried rs). constructor; [by left|done].
Qed.

(** C22 A recovery is safe, whatever the dependency resolver answers: it decides
    every attempt that was at work exactly once, and it gives a new attempt only
    to read-only steps marked idempotent, within their deadline and their number
    of attempts, with a request bound to the new child run; the new attempts
    share no conflict key, and they are within the parent's child runs, the
    parallel steps and what is left of the turns, the tool calls and the tokens. *)
Theorem recovery_safe es input pj d c :
  reduceSessionEntriesV3 es = Ok pj →
  recover maxParallelSteps resolver createId now input pj = Ok (d, Some c) →
  ∃ plan usage (again : list RecoveryCandidate), pj_planGraph pj = Some plan ∧ gr_state plan = P_running ∧
    currentRunBudgetUsageV1 pj (ri_parentRunId input) = Ok usage ∧
    (rcl_previousAttemptId <$> rd_rescheduled d) ++ (bk_attemptId <$> rd_blocked d)
      ≡ₚ ap_attemptId <$> attempts_at_work plan ∧
    Forall2 (λ claim c, candidate_of plan c ∧ retry_safe now c ∧ ∃ n, claim_at createId input n c claim) (rd_rescheduled d) again ∧
    conflict_free (cd_step <$> again) ∧
    (let left := remainingBudget (ri_parentBudget input) usage in
     Z.of_nat (length again) ≤ Z.max 0 (eb_maxChildRuns (ri_parentBudget input) - countAttempts plan) ∧
     Z.of_nat (length again) ≤ Z.max 0 (Z.min maxParallelSteps (eb_maxParallelChildren (ri_parentBudget input))) ∧
     sumZ (eb_maxTurns ∘ budget_of) again ≤ eb_maxTurns left ∧
     sumZ (eb_maxToolCalls ∘ budget_of) again ≤ eb_maxToolCalls left ∧
     (is_Some (eb_maxTokens left) → sumZ (tokens_of ∘ budget_of) again ≤ tokens_of left)).
Proof.
  intros Hes (plan & candidates & usage & rs & calls & Hre)%recover_Ok.
  destruct Hre as [Hplan Hst _ Hc _ Hu (room & _ & Hres) -> _ _ _].
  pose proof (candidates_of _ _ Hc) as Hof. destruct (resolutions_claims _ _ _ _ _ Hres) as [Hclaims Hin].
  exists plan, usage, (retried rs). split_and!; try done.
  - etransitivity; [exact (resolutions_attempts _ _ _ _ _ Hres)|].
    rewrite list_fmap_compose. by rewrite (candidates_attempts _ _ Hc).
  - rewrite rescheduled_retried. pose proof (retried_safe _ _ _ _ _ _ _ Hres) as Hsafe.
    eapply Forall2_impl; [exact (Forall2_with_r _ _ _ _ (Forall2_with_r _ _ _ _ Hclaims Hsafe) Hin)|].
    intros claim c' [[Hcl Hs] Hcin]. split_and!; [by eapply Forall_forall in Hof|done|done].
  - exact (proj1 (retried_free _ _ _ _ _ _ _ Hres)).
  - destruct (retried_length _ _ _ _ _ _ _ Hres) as [H1 H2].
    destruct (retried_budget _ _ _ _ _ _ _ Hres) as (H3 & H4 & H5).
    { eapply Forall_impl; [exact Hof|]. intros c'. by eapply recovery_no_debt. }
    cbn [initial_capacity rm_children rm_parallel rm_usage] in *. cbv zeta.
    unfold remainingBudget, with_amounts, tokens_of in *. cbn [eb_maxTurns eb_maxToolCalls eb_maxTokens] in *.
    split_and!; [lia|done|lia|lia|]. intros Hs. specialize (H5 Hs). destruct (eb_maxTokens (ri_parentBudget input)); cbn in *; lia.
Qed.
End Recover.
