(* ===== verification/RecoveryReplay.v ===== *)
(** * Recovery and the journal: coordinator and reducer together

    The commit of a recovery is accepted by the reducer of the same journal.  Its
    effect: every attempt that was at work is interrupted, and its step is blocked
    or runs under one new attempt, bound to the rebuilt request. *)

From S2P Require Import Prelude Js CanonicalJson Graph Samples Plan PlanSpec Subagent Session SessionReducer SessionSamples SessionInv SessionLife SessionPlan SessionReady SessionEntry SessionCommit JournalDrafts DraftReplay DagScheduler ClaimEntries DagSelect DagSchedule ClaimReplay DagRecovery RecoverySpec.
Local Open Scope Z_scope.

(** ** The abstract effect *)

Definition lost_attempt (a : MutableAttempt) : MutableAttempt := with_attempt_state a A_interrupted (Some PROCESS_LOST).
Definition lost_step (aid : string) (s : MutableStep) : MutableStep :=
  with_step_state (with_attempts s (mupdate aid lost_attempt (ms_attempts s))) S_interrupted (Some PROCESS_LOST).
(** The attempt of a claim, bound to its request. *)
Definition restarted_attempt (claim : DagRecoveredClaimV1) (ordinal : Z) : MutableAttempt :=
  {| ma_attemptId := rcl_attemptId claim; ma_ordinal := ordinal; ma_state := A_running;
     ma_childRunId := Some (rcl_childRunId claim); ma_resultRef := None; ma_resultDigest := None;
     ma_resultStatus := None; ma_verificationRef := None; ma_errorCode := None;
     ma_execution := Some {| ex_request := rcl_request claim; ex_retrySafety := read_only_idempotent |};
     ma_verifications := [] |}.
Definition restarted_step (claim : DagRecoveredClaimV1) (s : MutableStep) : MutableStep :=
  with_step_state (with_attempts s (ms_attempts s ++
    [(rcl_attemptId claim, restarted_attempt claim (Z.of_nat (length (ms_attempts s)) + 1))])) S_running None.

Definition resolved_id (r : RecoveryResolution) : string := sp_stepId (cd_step (resolved_candidate r)).
Definition resolved_step (r : RecoveryResolution) (s : MutableStep) : MutableStep :=
  let s := lost_step (ap_attemptId (cd_attempt (resolved_candidate r))) s in
  match r with
  | block_step _ code => with_step_state s S_blocked (Some code)
  | reschedule _ claim => restarted_step claim s
  end.
Definition recovered_plan (p : MutablePlan) (rs : list RecoveryResolution) : MutablePlan :=
  foldl (λ p r, mutate_step p (resolved_id r) (resolved_step r)) p rs.

(** The running run [runId] is charged with a usage. *)
Definition charged (runId : string) (runs : SessionRuns) (usage : BudgetUsage) : SessionRuns :=
  match mget runId (ru_runs runs) with
  | Some run => {| ru_runs := mset runId (with_run_usage run usage) (ru_runs runs); ru_activeRunId := ru_activeRunId runs;
                   ru_usage := mergeUsage (ru_usage runs) usage; ru_plannerGeneration := ru_plannerGeneration runs |}
  | None => runs
  end.
Definition charged_all (runId : string) : SessionRuns → list BudgetUsage → SessionRuns := foldl (charged runId).
Definition running_in (runId : string) (runs : SessionRuns) : Prop :=
  ru_activeRunId runs = Some runId ∧ ∃ run, mget runId (ru_runs runs) = Some run ∧ rn_state run = R_running.

Lemma usage_charged runId runs usage :
  running_in runId runs →
  on_usage_recorded runs (Some runId) usage = Ok (charged runId runs usage) ∧ running_in runId (charged runId runs usage).
Proof.
  intros (Ha & run & Hr & Hst). unfold on_usage_recorded, requireRun, running_in, charged. cbn [required_value mbind res_bind].
  cbn [ru_activeRunId ru_runs with_usage]. rewrite Ha, Hr, bool_decide_eq_false_2 by auto. cbn [reject_if fail_if required_value mbind res_bind].
  rewrite Hst, bool_decide_eq_false_2 by auto. split; [done|]. cbn. split; [done|]. eexists. split; [apply mget_mset_eq|done].
Qed.

Lemma recovered_plan_steps p rs k :
  NoDup (resolved_id <$> rs) →
  mget k (mp_steps (recovered_plan p rs)) =
    match List.find (λ r, bool_decide (resolved_id r = k)) rs with
    | Some r => resolved_step r <$> mget k (mp_steps p)
    | None => mget k (mp_steps p)
    end.
Proof.
  revert p. induction rs as [|r rs IH]; intros p; [done|].
  rewrite fmap_cons. intros [Hn Hnd]%NoDup_cons.
  change (recovered_plan p (r :: rs)) with (recovered_plan (mutate_step p (resolved_id r) (resolved_step r)) rs).
  rewrite IH by done. rewrite mutate_step_get. cbn [List.find].
  case_bool_decide as Hk.
  - rewrite decide_True by done.
    destruct (List.find _ rs) as [r'|] eqn:Hf; [|done]. exfalso. apply find_some in Hf as [Hin Heq].
    split_bool. apply Hn. rewrite Hk, <-Heq. apply list_elem_of_fmap_2. by apply list_elem_of_In.
  - rewrite decide_False by naive_solver. done.
Qed.

(** ** Interruption *)

(** The states from which a step may be interrupted. *)
Definition LIVE_STEP_STATES : list PlanStepStateV1 := [S_pending; S_running; S_verifying].

(** A property of every element of a closed list. *)
Ltac each_of H :=
  repeat (apply elem_of_cons in H as [->|H]; [vm_compute; reflexivity|]); by apply not_elem_of_nil in H.

Lemma at_work_interrupts st : st ∈ ACTIVE_ATTEMPT_STATES → assertPlanAttemptTransitionV1 st A_interrupted = Ok tt.
Proof. intros Hst. each_of Hst. Qed.
Lemma live_interrupts st options :
  st ∈ LIVE_STEP_STATES → assertPlanStepTransitionV1 st S_interrupted options = Ok tt.
Proof. intros Hst. unfold LIVE_STEP_STATES in Hst. each_of Hst. Qed.
Lemma other_interrupts st options :
  st ∉ LIVE_STEP_STATES → assertPlanStepTransitionV1 st S_interrupted options = Err "PLAN_TRANSITION_INVALID".
Proof. intros Hst. destruct st; first [vm_compute; reflexivity | destruct Hst; unfold LIVE_STEP_STATES; set_solver]. Qed.

Section OneResolution.
Context `{JsEngine} (runId : string) (v : DraftView) (s : MutableStep) (a : MutableAttempt).
Context (input : DagRecoveryInputV1) (plan : SessionPlanGraphProjectionV3) (c : RecoveryCandidate).
Abbreviation k := (sp_stepId (cd_step c)).
Abbreviation aid := (ap_attemptId (cd_attempt c)).
Abbreviation p := (dv_plan v).
Hypothesis Hid : gr_planId plan = mp_planId p.
Hypothesis Hrev : gr_revision plan = mp_revision p.
Hypothesis Hshape : plan_shape (dv_ids v) p.
Hypothesis Hs : mget k (mp_steps p) = Some s.
Hypothesis Ha : mget aid (ms_attempts s) = Some a.
Hypothesis Hwork : ma_state a ∈ ACTIVE_ATTEMPT_STATES.

Abbreviation old := (typed_correlation input plan (cd_step c) aid (ap_childRunId (cd_attempt c))).

Lemma interrupt_attempt :
  draft_step runId v (old, attempt_to plan (cd_step c) aid A_interrupted (Some PROCESS_LOST)) =
    Ok (view_plan v (mutate_attempt p k aid lost_attempt)).
Proof.
  unfold draft_step, attempt_to. cbn [snd]. rewrite Hid, Hrev.
  erewrite attempt_changed_run; [reflexivity|exact Hs|done|done|done|exact Ha|by apply at_work_interrupts|set_solver].
Qed.

(** A step that is in none of these states is not interrupted. *)
Lemma interrupt_refused :
  ms_state s ∉ LIVE_STEP_STATES →
  draft_step runId (view_plan v (mutate_attempt p k aid lost_attempt))
    (old, step_to plan (cd_step c) S_interrupted None None (Some PROCESS_LOST)) = Err "SESSION_REDUCER_TRANSITION_INVALID".
Proof.
  intros Hother. unfold draft_step, step_to, on_step_state_changed. cbn [snd dv_plan view_plan ssc_planId ssc_planRevision ssc_stepId ssc_state].
  rewrite Hid, Hrev. change (mp_planId p) with (mp_planId (mutate_attempt p k aid lost_attempt)).
  change (mp_revision p) with (mp_revision (mutate_attempt p k aid lost_attempt)).
  erewrite (requireStep_of _ k); [|unfold mutate_attempt; rewrite mutate_step_get, decide_True, Hs by done; reflexivity].
  cbn [mbind res_bind]. change (ms_state (with_attempts s _)) with (ms_state s). by rewrite other_interrupts.
Qed.

Hypothesis Hlive : ms_state s ∈ LIVE_STEP_STATES.
Lemma interrupt_step :
  draft_step runId (view_plan v (mutate_attempt p k aid lost_attempt))
      (old, step_to plan (cd_step c) S_interrupted None None (Some PROCESS_LOST)) =
    Ok (view_plan v (mutate_step p k (lost_step aid))).
Proof.
  unfold draft_step, step_to. cbn [snd dv_plan view_plan]. rewrite Hid, Hrev.
  erewrite (step_changed_run _ k); [| |done|done|done| |done].
  2:{ unfold mutate_attempt. rewrite mutate_step_get, decide_True, Hs by done. reflexivity. }
  - cbn [fmap res_fmap mbind res_bind]. unfold mutate_attempt. rewrite mutate_step_step. done.
  - by apply live_interrupts.
Qed.

Hypothesis Hrunning : running_in runId (dv_runs v).
Abbreviation runs := (charged_all runId (dv_runs v) (option_list (cd_unknownUsage c))).

Lemma interruption_steps :
  draft_steps runId v (pair old <$> interruption_data plan c) =
    Ok {| dv_ids := dv_ids v; dv_plan := mutate_step p k (lost_step aid); dv_runs := runs |}.
Proof.
  unfold interruption_data. rewrite fmap_app, draft_steps_app. cbn [fmap list_fmap draft_steps].
  rewrite interrupt_attempt. cbn [mbind res_bind]. rewrite interrupt_step. cbn [mbind res_bind].
  destruct (cd_unknownUsage c) as [usage|]; cbn [fmap list_fmap draft_steps draft_step snd]; [|done].
  cbn [dv_runs view_plan]. by rewrite (proj1 (usage_charged _ _ usage Hrunning)).
Qed.

Lemma blocked_steps code :
  draft_steps runId v (recovery_drafts input plan (block_step c code)) =
    Ok {| dv_ids := dv_ids v; dv_plan := mutate_step p k (resolved_step (block_step c code)); dv_runs := runs |}.
Proof.
  unfold recovery_drafts. cbn [resolved_candidate]. rewrite draft_steps_app, interruption_steps.
  cbn [mbind res_bind draft_steps]. unfold draft_step, step_to. cbn [snd dv_plan]. rewrite Hid, Hrev.
  erewrite (step_changed_run _ k); [|by apply mutated_get|done..]. cbn [fmap res_fmap mbind res_bind]. by rewrite mutate_step_step.
Qed.

(** ** A new attempt *)

Section Restart.
Context (claim : DagRecoveredClaimV1).
Hypothesis Hlength : length (sp_attempts (cd_step c)) = length (ms_attempts s).
Hypothesis Hleft : Z.of_nat (length (ms_attempts s)) < ms_maxAttempts s.
Hypothesis Hattempt : stable_id "attempt" (rcl_attemptId claim) ∉ dv_ids v.
Hypothesis Hchild : stable_id "child-run" (rcl_childRunId claim) ∉ dv_ids v.
Hypothesis Hrequest : validateSubagentExecutionRequestV1 (SubagentExecutionRequest_js (rcl_request claim)) = Ok (rcl_request claim).
Hypothesis Hparent : sr_parentRunId (rcl_request claim) = ri_parentRunId input.
Hypothesis Hchildrun : sr_childRunId (rcl_request claim) = rcl_childRunId claim.

Abbreviation new := (typed_correlation input plan (cd_step c) (rcl_attemptId claim) (Some (rcl_childRunId claim))).
Abbreviation ids' := (stable_id "child-run" (rcl_childRunId claim) :: stable_id "attempt" (rcl_attemptId claim) :: dv_ids v).

Definition reserved_data : AttemptCreatedData :=
  {| ac_planId := mp_planId p; ac_planRevision := mp_revision p; ac_stepId := k;
     ac_attemptId := rcl_attemptId claim; ac_ordinal := Z.of_nat (length (sp_attempts (cd_step c))) + 1;
     ac_state := A_reserved; ac_childRunId := Some (rcl_childRunId claim) |}.
Definition reserved_again (s : MutableStep) : MutableStep :=
  with_attempts s (ms_attempts s ++ [(rcl_attemptId claim, new_attempt reserved_data)]).

Lemma lost_shape : plan_shape (dv_ids v) (mutate_step p k (lost_step aid)).
Proof.
  refine (draft_steps_shape runId v (pair old <$> interruption_data plan c) _ Hshape interruption_steps).
Qed.

Lemma reserve_again :
  on_attempt_created (dv_ids v) (Some (mutate_step p k (lost_step aid))) reserved_data =
    Ok (ids', mutate_step p k (reserved_again ∘ lost_step aid)).
Proof.
  erewrite (attempt_created_run _ k); [|by apply mutated_get|exact lost_shape|done|done|done|done| | |exact Hattempt|exact Hchild].
  - by rewrite mutate_step_step.
  - cbn. rewrite mupdate_length. by rewrite Hlength.
  - cbn. by rewrite mupdate_length.
Qed.

Lemma reserved_shape : step_shape ids' k (reserved_again (lost_step aid s)).
Proof.
  pose proof (on_attempt_created_shape _ (Some _) lost_shape _ _ reserve_again) as [_ Hsh].
  exact (ps_steps _ _ Hsh _ _ (mget_elem_inv _ _ _ (mutated_get _ _ _ _ Hs))).
Qed.
Lemma reserved_key : rcl_attemptId claim ∉ (ms_attempts (lost_step aid s)).*1.
Proof.
  intros ([k' a'] & Heq & Hin)%list_elem_of_fmap. cbn in Heq. apply Hattempt. rewrite Heq.
  pose proof (ps_steps _ _ lost_shape _ _ (mget_elem_inv _ _ _ (mutated_get _ _ _ _ Hs))) as Hsh.
  by apply (ssh_attempts _ _ _ Hsh k' a').
Qed.
Lemma reserved_get : mget (rcl_attemptId claim) (ms_attempts (reserved_again (lost_step aid s))) = Some (new_attempt reserved_data).
Proof. cbn. rewrite <-(mset_fresh _ (new_attempt reserved_data)) by apply reserved_key. apply mget_mset_eq. Qed.

(** The step is pending again, which its new attempt allows, and then runs. *)
Lemma pending_again :
  on_step_state_changed (Some (mutate_step p k (reserved_again ∘ lost_step aid)))
      {| ssc_planId := mp_planId p; ssc_planRevision := mp_revision p; ssc_stepId := k; ssc_state := S_pending;
         ssc_reason := Some recovery_retry_approved; ssc_newAttemptId := Some (rcl_attemptId claim); ssc_errorCode := None |} =
    Ok (mutate_step p k ((λ s, with_step_state s S_pending None) ∘ (reserved_again ∘ lost_step aid))).
Proof.
  erewrite (step_changed_run _ k); [|by apply mutated_get|done..| |done]; [by rewrite mutate_step_step|].
  unfold step_options, compose. cbn [ssc_newAttemptId ssc_reason mbind option_bind]. rewrite reserved_get.
  cbn [ssc_state ma_ordinal new_attempt ma_state reserved_data ac_ordinal ac_state].
  change (ms_state (reserved_again (lost_step aid s))) with S_interrupted.
  replace (_ =? _) with true; [done|]. symmetry. apply Z.eqb_eq. unfold reserved_again, lost_step.
  cbn [ms_attempts with_attempts with_step_state]. rewrite length_app, mupdate_length, Hlength. cbn [length]. lia.
Qed.

Lemma running_again :
  on_step_state_changed (Some (mutate_step p k ((λ s, with_step_state s S_pending None) ∘ (reserved_again ∘ lost_step aid))))
      {| ssc_planId := mp_planId p; ssc_planRevision := mp_revision p; ssc_stepId := k; ssc_state := S_running;
         ssc_reason := None; ssc_newAttemptId := None; ssc_errorCode := None |} =
    Ok (mutate_step p k ((λ s, with_step_state s S_running None) ∘ (reserved_again ∘ lost_step aid))).
Proof.
  erewrite (step_changed_run _ k); [|by apply mutated_get|done..|]; [by rewrite mutate_step_step|].
  cbn [ssc_state attempt_state_for]. unfold compose.
  change (latestStepAttempt (with_step_state ?x _ _)) with (latestStepAttempt x).
  rewrite (latestStepAttempt_last _ _ _ reserved_shape). unfold reserved_again. cbn [ms_attempts with_attempts].
  by rewrite fmap_app, list_fmap_singleton, last_snoc.
Qed.

Lemma attempt_running_again :
  on_attempt_state_changed (Some (mutate_step p k ((λ s, with_step_state s S_running None) ∘ (reserved_again ∘ lost_step aid))))
      {| asc_planId := mp_planId p; asc_planRevision := mp_revision p; asc_stepId := k; asc_attemptId := rcl_attemptId claim;
         asc_state := A_running; asc_errorCode := None |} =
    Ok (mutate_step p k ((λ s, with_step_state (with_attempts s (ms_attempts s ++
      [(rcl_attemptId claim, with_attempt_state (new_attempt reserved_data) A_running None)])) S_running None) ∘ lost_step aid)).
Proof.
  erewrite (attempt_changed_run _ k); [|by apply mutated_get|done|done|done|exact reserved_get|done|by left].
  unfold mutate_attempt. rewrite mutate_step_step. f_equal. eapply mutate_step_ext; [exact Hshape|exact Hs|].
  unfold compose, reserved_again, with_step_state, with_attempts. cbn [ms_stepId ms_attempts]. f_equal.
  exact (mupdate_snoc _ (λ a, with_attempt_state a A_running None) _ _ reserved_key).
Qed.

Lemma bound_again :
  on_subagent_execution_bound (Some (mutate_step p k ((λ s, with_step_state (with_attempts s (ms_attempts s ++
      [(rcl_attemptId claim, with_attempt_state (new_attempt reserved_data) A_running None)])) S_running None) ∘ lost_step aid))) new
      {| seb_planId := mp_planId p; seb_planRevision := mp_revision p; seb_stepId := k; seb_attemptId := rcl_attemptId claim;
         seb_childRunId := rcl_childRunId claim; seb_request := SubagentExecutionRequest_js (rcl_request claim);
         seb_retrySafety := read_only_idempotent |} =
    Ok (mutate_step p k (resolved_step (reschedule c claim))).
Proof.
  erewrite (execution_bound_run _ k _ (mutated_get _ _ _ _ Hs) _ _ (with_attempt_state (new_attempt reserved_data) A_running None)); [|done|done|done| |exact Hrequest|done|done|done| |done].
  - unfold mutate_attempt. rewrite mutate_step_step. f_equal. eapply mutate_step_ext; [exact Hshape|exact Hs|].
    unfold compose, resolved_step, restarted_step. cbn [resolved_candidate]. unfold with_step_state, with_attempts. cbn [ms_stepId ms_attempts].
    f_equal. etransitivity; [exact (mupdate_snoc _ (λ a, with_execution a
      {| ex_request := rcl_request claim; ex_retrySafety := read_only_idempotent |}) _ _ reserved_key)|].
    do 3 f_equal. unfold restarted_attempt, with_execution. cbn. by rewrite mupdate_length, Hlength.
  - cbn. rewrite <-(mset_fresh _ (with_attempt_state (new_attempt reserved_data) A_running None)) by apply reserved_key. apply mget_mset_eq.
  - cbn. by rewrite Hparent.
Qed.

Lemma rescheduled_steps :
  draft_steps runId v (recovery_drafts input plan (reschedule c claim)) =
    Ok {| dv_ids := ids'; dv_plan := mutate_step p k (resolved_step (reschedule c claim)); dv_runs := runs |}.
Proof.
  unfold recovery_drafts. cbn [resolved_candidate]. rewrite draft_steps_app, interruption_steps. cbn [mbind res_bind].
  unfold restart_data, step_to, attempt_to. rewrite Hid, Hrev. cbn [fmap list_fmap draft_steps draft_step snd fst dv_ids dv_plan dv_runs].
  fold reserved_data. rewrite reserve_again. cbn [fst snd mbind res_bind dv_ids dv_plan dv_runs].
  rewrite pending_again. cbn [fmap res_fmap mbind res_bind view_plan dv_ids dv_plan dv_runs].
  rewrite running_again. cbn [fmap res_fmap mbind res_bind view_plan dv_ids dv_plan dv_runs].
  rewrite attempt_running_again. cbn [fmap res_fmap mbind res_bind view_plan dv_ids dv_plan dv_runs].
  rewrite bound_again. done.
Qed.
End Restart.
End OneResolution.

(** ** All resolutions *)

(** The stable identities of a resolution. *)
Definition resolved_ids (r : RecoveryResolution) : list string :=
  match resolved_claim r with
  | Some claim => [stable_id "child-run" (rcl_childRunId claim); stable_id "attempt" (rcl_attemptId claim)]
  | None => []
  end.
Definition resolved_usage (r : RecoveryResolution) : list BudgetUsage := option_list (cd_unknownUsage (resolved_candidate r)).

Section Resolutions.
Context `{JsEngine} (input : DagRecoveryInputV1) (plan : SessionPlanGraphProjectionV3).

(** The candidate of a resolution is at work in the plan, and its claim fits. *)
Definition placed (p : MutablePlan) (r : RecoveryResolution) : Prop :=
  ∃ s a, mget (resolved_id r) (mp_steps p) = Some s ∧
    mget (ap_attemptId (cd_attempt (resolved_candidate r))) (ms_attempts s) = Some a ∧
    ma_state a ∈ ACTIVE_ATTEMPT_STATES ∧ ms_state s = sp_state (cd_step (resolved_candidate r)) ∧
    match resolved_claim r with
    | Some claim =>
        length (sp_attempts (cd_step (resolved_candidate r))) = length (ms_attempts s) ∧
        Z.of_nat (length (ms_attempts s)) < ms_maxAttempts s ∧
        validateSubagentExecutionRequestV1 (SubagentExecutionRequest_js (rcl_request claim)) = Ok (rcl_request claim) ∧
        sr_parentRunId (rcl_request claim) = ri_parentRunId input ∧ sr_childRunId (rcl_request claim) = rcl_childRunId claim
    | None => True
    end.
(** Its step may be interrupted. *)
Definition live_candidate (c : RecoveryCandidate) : Prop := sp_state (cd_step c) ∈ LIVE_STEP_STATES.
#[export] Instance live_candidate_dec c : Decision (live_candidate c).
Proof. unfold live_candidate. apply _. Defined.

Lemma placed_next p r r' :
  placed p r' → resolved_id r' ≠ resolved_id r →
  placed (mutate_step p (resolved_id r) (resolved_step r)) r'.
Proof.
  intros (s & a & Hs & Hrest) Hne. exists s, a. split; [|exact Hrest]. by rewrite mutate_step_get, decide_False.
Qed.

Lemma resolution_steps runId v r :
  gr_planId plan = mp_planId (dv_plan v) → gr_revision plan = mp_revision (dv_plan v) →
  plan_shape (dv_ids v) (dv_plan v) → running_in runId (dv_runs v) → placed (dv_plan v) r →
  live_candidate (resolved_candidate r) → (∀ x, x ∈ resolved_ids r → x ∉ dv_ids v) →
  draft_steps runId v (recovery_drafts input plan r) =
    Ok {| dv_ids := resolved_ids r ++ dv_ids v; dv_plan := mutate_step (dv_plan v) (resolved_id r) (resolved_step r);
          dv_runs := charged_all runId (dv_runs v) (resolved_usage r) |}.
Proof.
  intros Hid Hrev Hsh Hrun (s & a & Hs & Ha & Hw & Hstate & Hr) Hl Hfresh. unfold live_candidate in Hl. rewrite <-Hstate in Hl.
  destruct r as [c claim|c code].
  - destruct Hr as (Hlen & Hleft & Hreq & Hpar & Hch).
    apply (rescheduled_steps runId v s a input plan c Hid Hrev Hsh Hs Ha Hw Hl Hrun claim); try done; apply Hfresh; cbn; rewrite !elem_of_cons; auto.
  - exact (blocked_steps runId v s a input plan c Hid Hrev Hsh Hs Ha Hw Hl Hrun code).
Qed.

Lemma charged_all_running runId runs usages : running_in runId runs → running_in runId (charged_all runId runs usages).
Proof.
  revert runs. induction usages as [|usage usages IH]; intros runs Hr; [done|]. by apply IH, usage_charged.
Qed.

Lemma resolutions_steps runId rs v :
  gr_planId plan = mp_planId (dv_plan v) → gr_revision plan = mp_revision (dv_plan v) →
  plan_shape (dv_ids v) (dv_plan v) → running_in runId (dv_runs v) → Forall (placed (dv_plan v)) rs →
  Forall live_candidate (resolved_candidate <$> rs) → NoDup (resolved_id <$> rs) → NoDup (rs ≫= resolved_ids) → (∀ x, x ∈ rs ≫= resolved_ids → x ∉ dv_ids v) →
  ∃ ids, draft_steps runId v (rs ≫= recovery_drafts input plan) =
    Ok {| dv_ids := ids; dv_plan := recovered_plan (dv_plan v) rs;
          dv_runs := charged_all runId (dv_runs v) (rs ≫= resolved_usage) |}.
Proof.
  revert v. induction rs as [|r rs IH]; intros v Hid Hrev Hsh Hrun Hall Hlive Hnd Hids Hfresh.
  { exists (dv_ids v). by destruct v. }
  rewrite !bind_cons in Hids, Hfresh. apply NoDup_app in Hids as (_ & Hnew & Hids).
  apply Forall_cons in Hall as [Hr Hall]. apply Forall_cons in Hlive as [Hl Hlive].
  rewrite fmap_cons in Hnd. apply NoDup_cons in Hnd as [Hn Hnd].
  assert (∀ x, x ∈ resolved_ids r → x ∉ dv_ids v) as Hf by (intros x Hx; apply Hfresh; set_solver).
  pose proof (resolution_steps runId v r Hid Hrev Hsh Hrun Hr Hl Hf) as Hone.
  rewrite !bind_cons, draft_steps_app, Hone. cbn [mbind res_bind].
  match goal with |- context [draft_steps _ ?w _] => set (w' := w) in * end.
  destruct (IH w') as [ids E]; unfold w'; cbn [dv_ids dv_plan dv_runs]; try done.
  - exact (draft_steps_shape _ _ _ _ Hsh Hone).
  - by apply charged_all_running.
  - rewrite Forall_forall in Hall |- *. intros r' Hin. apply placed_next; [by apply Hall|].
    intros Heq. apply Hn. rewrite <-Heq. by apply list_elem_of_fmap_2.
  - intros x Hx. rewrite not_elem_of_app. split; [|apply Hfresh; set_solver]. intros Hx'. by apply (Hnew x).
  - exists ids. etransitivity; [exact E|]. unfold w', charged_all. cbn [dv_plan dv_runs]. by rewrite foldl_app.
Qed.

(** The first candidate whose step may not be interrupted stops the replay. *)
Lemma resolutions_stop runId rs v :
  gr_planId plan = mp_planId (dv_plan v) → gr_revision plan = mp_revision (dv_plan v) →
  plan_shape (dv_ids v) (dv_plan v) → running_in runId (dv_runs v) → Forall (placed (dv_plan v)) rs →
  ¬ Forall live_candidate (resolved_candidate <$> rs) → NoDup (resolved_id <$> rs) → NoDup (rs ≫= resolved_ids) →
  (∀ x, x ∈ rs ≫= resolved_ids → x ∉ dv_ids v) →
  ∃ before corr d after v', rs ≫= recovery_drafts input plan = before ++ (corr, step_state_changed d) :: after ∧
    draft_steps runId v before = Ok v' ∧
    draft_step runId v' (corr, step_state_changed d) = Err "SESSION_REDUCER_TRANSITION_INVALID".
Proof.
  revert v. induction rs as [|r rs IH]; intros v Hid Hrev Hsh Hrun Hall Hlive Hnd Hids Hfresh; [by destruct Hlive|].
  rewrite !bind_cons in Hids, Hfresh. apply NoDup_app in Hids as (_ & Hnew & Hids).
  apply Forall_cons in Hall as [Hr Hall]. rewrite fmap_cons in Hnd. apply NoDup_cons in Hnd as [Hn Hnd].
  destruct (decide (live_candidate (resolved_candidate r))) as [Hl|Hl].
  - assert (∀ x, x ∈ resolved_ids r → x ∉ dv_ids v) as Hf by (intros x Hx; apply Hfresh; set_solver).
    pose proof (resolution_steps runId v r Hid Hrev Hsh Hrun Hr Hl Hf) as Hone.
    match type of Hone with _ = Ok ?w => destruct (IH w) as (before & corr & d & after & v' & E & Hb & He) end; cbn [dv_ids dv_plan dv_runs]; try done.
    + exact (draft_steps_shape _ _ _ _ Hsh Hone).
    + by apply charged_all_running.
    + rewrite Forall_forall in Hall |- *. intros r' Hin. apply placed_next; [by apply Hall|].
      intros Heq. apply Hn. rewrite <-Heq. by apply list_elem_of_fmap_2.
    + intros Hrest. apply Hlive. by constructor.
    + intros x Hx. rewrite not_elem_of_app. split; [|apply Hfresh; set_solver]. intros Hx'. by apply (Hnew x).
    + exists (recovery_drafts input plan r ++ before), corr, d, after, v'. split_and!; [|by rewrite draft_steps_app, Hone|done].
      by rewrite bind_cons, E, app_assoc.
  - destruct Hr as (s & a & Hs & Ha & Hw & Hstate & _). unfold live_candidate in Hl. rewrite <-Hstate in Hl.
    rewrite bind_cons. unfold recovery_drafts at 1, interruption_data, step_to. cbn [app fmap list_fmap].
    eexists [_], _, _, _, _. split_and!; [reflexivity| |].
    + cbn [draft_steps]. erewrite (interrupt_attempt runId v s a input plan (resolved_candidate r)); [reflexivity|done..].
    + by apply (interrupt_refused runId v s input plan (resolved_candidate r)).
Qed.
End Resolutions.

(** ** The refinement *)

Section Refinement.
Context `{JsEngine} `{JsCrypto} `{RP : ReviewPlanContract} (maxParallelSteps : Z) (resolver : RebuildInput → RebuildResult).
Context (createId : nat → string → string) (now : string).

(** The identities of the resolutions are new: each claim takes two calls. *)
Lemma resolved_id_calls input candidates room rs room' x :
  resolutions_of createId now input candidates room rs room' → x ∈ rs ≫= resolved_ids →
  ∃ n, (rm_calls room ≤ n)%nat ∧
    (x = stable_id "attempt" (createId n "attempt"%string) ∨ x = stable_id "child-run" (createId (S n) "child-run"%string)).
Proof.
  induction 1 as [room|c cs room r room1 rs room2 Hr _ IH]; [by intros ?%elem_of_nil|].
  rewrite bind_cons, elem_of_app. intros [Hx|Hx].
  - destruct Hr as [|claim _ Hc]; [by apply elem_of_nil in Hx|]. exists (rm_calls room). split; [done|].
    unfold resolved_ids in Hx. cbn [resolved_claim] in Hx. rewrite (ca_attempt _ _ _ _ _ Hc), (ca_child _ _ _ _ _ Hc) in Hx.
    apply elem_of_cons in Hx as [Hx|Hx%list_elem_of_singleton]; auto.
  - destruct (IH Hx) as (n & Hn & Hor). exists n. split; [|done]. destruct Hr; cbn in Hn; lia.
Qed.

Lemma resolved_ids_NoDup st input candidates room rs room' :
  fresh_ids createId st → resolutions_of createId now input candidates room rs room' → NoDup (rs ≫= resolved_ids).
Proof.
  intros Hf. induction 1 as [room|c cs room r room1 rs room2 Hr Hrs IH]; [constructor|].
  rewrite bind_cons. destruct Hr as [|claim _ Hc]; [exact IH|].
  unfold resolved_ids. cbn [resolved_claim]. rewrite (ca_attempt _ _ _ _ _ Hc), (ca_child _ _ _ _ _ Hc).
  assert (∀ x, x ∈ rs ≫= resolved_ids → x ≠ stable_id "child-run" (createId (S (rm_calls room)) "child-run"%string) ∧
    x ≠ stable_id "attempt" (createId (rm_calls room) "attempt"%string)) as Hne.
  { intros x Hx. destruct (resolved_id_calls _ _ _ _ _ _ Hrs Hx) as (n & Hn & [-> | ->]); cbn in Hn; split;
      try apply stable_id_neq; try apply not_eq_sym, stable_id_neq; intros Heq%stable_id_inj%(fi_inj _ _ Hf); lia. }
  apply NoDup_cons. split; [|apply NoDup_cons; split; [|exact IH]].
  - rewrite elem_of_cons. intros [Heq|Hin]; [by destruct (stable_id_neq _ _ (eq_sym Heq))|by destruct (Hne _ Hin)].
  - intros Hin. by destruct (Hne _ Hin).
Qed.

Lemma resolutions_placed ids p plan input candidates room rs room' :
  project_present p = Ok plan → plan_shape ids p →
  Forall (candidate_of plan) candidates → resolutions_of createId now input candidates room rs room' →
  Forall (placed input p) rs.
Proof.
  intros Hplan Hshape Hof. induction 1 as [|c cs room r room1 rs room2 Hr _ IH]; [constructor|].
  apply Forall_cons in Hof as [Hc Hof]. constructor; [|by apply IH].
  destruct Hc as [Hin Hatt _]. destruct (present_step _ _ _ _ Hplan Hshape Hin) as (ms & Hget & Hss & Heq & Hatts).
  assert (cd_attempt c ∈ sp_attempts (cd_step c) ∧ attempt_at_work (cd_attempt c) = true) as [Ha Hw].
  { apply filter_elem. rewrite Hatt. by left. }
  rewrite Hatts in Ha.
  apply list_elem_of_fmap in Ha as (a & Heqa & Ha). apply list_elem_of_fmap in Ha as ([ka a'] & -> & Ha). cbn [snd] in Heqa.
  destruct (ssh_attempts _ _ _ Hss _ _ Ha) as [Hka _].
  exists ms, a'. rewrite (resolution_candidate _ _ _ _ _ _ _ Hr). unfold resolved_id.
  rewrite (resolution_candidate _ _ _ _ _ _ _ Hr). split_and!.
  - exact Hget.
  - rewrite Heqa. cbn. rewrite Hka. apply mget_elem; [apply Hss|done].
  - unfold attempt_at_work, one_of in Hw. apply bool_decide_eq_true in Hw. by rewrite Heqa in Hw.
  - by rewrite Heq.
  - destruct Hr as [|claim Hb Hcl]; [done|]. cbn [resolved_claim]. apply recoveryBlock_None in Hb as ([_ _ _ Hleft] & _).
    rewrite Hatts, !length_fmap in *. split_and!; [done| |by apply Hcl..]. by rewrite Heq in Hleft.
Qed.

Lemma requireActiveRun_running es pj first data st runId :
  reduce_state es = Ok (first, data, st) → pj_snapshot pj = project_snapshot first data st →
  requireActiveRun pj runId = Ok tt → running_in runId (ss_runs st).
Proof.
  intros Hst Hsn (r & Hr & <- & Hrun)%active_run. rewrite Hsn in Hr. cbn in Hr.
  pose proof (reduce_runs_wf _ _ _ _ Hst) as Hwf. apply list_elem_of_fmap in Hr as ([k r'] & -> & Hin). cbn in *.
  rewrite (rw_ids _ Hwf _ _ Hin). split; [by apply (rw_running _ Hwf _ _ Hin)|]. exists r'. split; [|done].
  apply mget_elem; [apply Hwf|done].
Qed.

(** What the decision says of the resolutions. *)
Lemma decision_usage pj candidates rs :
  resolved_candidate <$> rs = candidates → (rd_unknownUsage (recovery_decision pj candidates rs)).*2 = rs ≫= resolved_usage.
Proof.
  intros <-. cbn [recovery_decision rd_unknownUsage]. induction rs as [|r rs IH]; [done|].
  rewrite fmap_cons, bind_cons, <-IH. unfold resolved_usage at 1. cbn [omap list_omap].
  by destruct (cd_unknownUsage (resolved_candidate r)).
Qed.

Lemma resolved_ids_fresh st input candidates room rs room' x :
  fresh_ids createId st → resolutions_of createId now input candidates room rs room' → x ∈ rs ≫= resolved_ids →
  x ∉ id_stableIds (ss_ids st).
Proof.
  intros Hf Hrs Hx. destruct (resolved_id_calls _ _ _ _ _ _ Hrs Hx) as (n & _ & [-> | ->]); apply Hf.
Qed.

Lemma resolved_steps_NoDup plan input candidates room rs room' :
  collectCandidates plan = Ok candidates → NoDup (sp_stepId <$> gr_steps plan) →
  resolutions_of createId now input candidates room rs room' → NoDup (resolved_id <$> rs).
Proof.
  intros Hc Hnd Hrs. pose proof (candidates_stepIds _ _ Hc Hnd) as Hids.
  rewrite <-(resolutions_candidates _ _ _ _ _ _ _ Hrs), <-list_fmap_compose in Hids. exact Hids.
Qed.

End Refinement.

(** ** Evaluation at an interrupted run *)

(** The parent process was lost while the first step was running. *)
Definition lost_journal : list SessionEntryV3 := sample_entries (sample_opening ++ take 4 sample_execution).
Definition sample_recovery : DagRecoveryInputV1 :=
  {| ri_sessionId := "s1"; ri_parentRunId := "r1"; ri_planId := "p1";
     ri_parentBudget := {| eb_maxTurns := 40; eb_maxToolCalls := 40; eb_maxTokens := None; eb_maxChildRuns := 4;
                           eb_maxParallelChildren := 2; eb_maxDepth := 1; eb_deadlineAt := None |} |}.
Definition rebuild_request (i : RebuildInput) : RebuildResult := rebuild_compatible (sample_request (bi_newChildRunId i)).

(** The recovery gives the step one new attempt, and its commit is replayed. *)
Definition recovery_check (resolver : RebuildInput → RebuildResult) (rescheduled blocked : nat) (es : list SessionEntryV3) : bool :=
  match reduce_state es, reduceSessionEntriesV3 es with
  | Ok (_, _, st), Ok pj =>
      no_new_ids st && match recover 2 resolver new_id instant sample_recovery pj with
        | Ok (d, Some c) => (Z.of_nat (length (es ++ sc_entries c)) <=? MAX_ENTRIES)
            && Nat.eqb (length (rd_rescheduled d)) rescheduled && Nat.eqb (length (rd_blocked d)) blocked
        | _ => false
        end && bool_decide (ri_sessionId sample_recovery = sn_sessionId (pj_snapshot pj))
  | _, _ => false
  end.

(** The steps of the lost attempts may be interrupted. *)
Definition live_check (pj : SessionProjectionV3) : bool :=
  match pj_planGraph pj with
  | Some plan => match collectCandidates plan with
                 | Ok candidates => bool_decide (Forall live_candidate candidates)
                 | Err _ => false
                 end
  | None => false
  end.


Lemma recovery_safe_witness : ∃ pj d c plan, reduceSessionEntriesV3 lost_journal = Ok pj ∧
  recover 2 rebuild_request new_id instant sample_recovery pj = Ok (d, Some c) ∧ pj_planGraph pj = Some plan ∧
  (rcl_previousAttemptId <$> rd_rescheduled d) ++ (bk_attemptId <$> rd_blocked d)
    ≡ₚ ap_attemptId <$> attempts_at_work plan.
Proof.
  assert (recovery_check rebuild_request 1 0 lost_journal = true) as Hc by (vm_compute; reflexivity). unfold recovery_check in Hc.
  destruct (reduce_state lost_journal) as [[[first data] st]|] eqn:Hst; [|discriminate Hc].
  destruct (reduceSessionEntriesV3 lost_journal) as [pj|] eqn:Hpj; [|discriminate Hc].
  apply andb_true_iff in Hc as [[_ Hc]%andb_true_iff _].
  destruct (recover 2 rebuild_request new_id instant sample_recovery pj) as [[d [c|]]|] eqn:Hd; try discriminate Hc.
  destruct (recovery_safe 2 rebuild_request new_id instant lost_journal sample_recovery pj d c Hpj Hd)
    as (plan & _ & _ & Hplan & _ & _ & Hperm & _).
  exists pj, d, c, plan. split; [reflexivity|]. split; [exact Hd|]. split; [exact Hplan|exact Hperm].
Defined.

(** The resolver fails: the step is blocked. *)
Example recovery_blocks : recovery_check (λ _, rebuild_rejected) 0 1 lost_journal = true.
Proof. vm_compute. reflexivity. Qed.

(** ** A step that was interrupted before its attempt

    The reducer accepts a journal in which a step is interrupted while its attempt is
    running.  [recover] then takes the attempt as lost and answers with a commit that
    interrupts the step again, which the reducer refuses: the journal cannot be
    recovered. *)
Definition interrupted_journal : list SessionEntryV3 :=
  sample_entries (sample_opening ++ take 4 sample_execution ++ [sample_step_to "a" S_interrupted]).
Example interrupted_step_not_recovered :
  recovery_check rebuild_request 1 0 interrupted_journal = true ∧
  match reduceSessionEntriesV3 interrupted_journal with
  | Ok pj => match recover 2 rebuild_request new_id instant sample_recovery pj with
             | Ok (_, Some c) => reduceSessionEntriesV3 (interrupted_journal ++ sc_entries c) = Err "SESSION_REDUCER_TRANSITION_INVALID"
             | _ => False
             end
  | Err _ => False
  end.
Proof. vm_compute. split; reflexivity. Qed.

(** ** A limit that the order of the candidates exceeds

    Two steps of 20 turns each were at work, and the parent has 40 turns.  The
    first candidate is charged with its own unknown usage only, so it fits and runs
    again; the second is then charged as well.  The run is charged with 40 turns,
    and 20 more are given to the new attempt. *)
Definition working_attempt (id : string) (request : SubagentExecutionRequestV1) : SessionAttemptProjectionV3 :=
  {| ap_attemptId := id; ap_ordinal := 1; ap_state := A_running; ap_childRunId := Some ("child-" +:+ id)%string;
     ap_resultRef := None; ap_resultDigest := None; ap_verificationRef := None; ap_errorCode := None;
     ap_execution := Some {| ex_request := request; ex_retrySafety := read_only_idempotent |}; ap_verifications := [] |}.
Definition working_step (id : string) (order : Z) (request : SubagentExecutionRequestV1) : SessionStepProjectionV3 :=
  {| sp_stepId := id; sp_title := "A step"; sp_order := order; sp_state := S_running; sp_errorCode := None;
     sp_dependencies := []; sp_access := {| Plan.ac_mode := read_only; ac_paths := [] |};
     sp_capabilities := []; sp_conflictKeys := []; sp_criteria := [];
     sp_budget := {| eb_maxTurns := 20; eb_maxToolCalls := 1; eb_maxTokens := None; eb_maxChildRuns := 0;
                     eb_maxParallelChildren := 0; eb_maxDepth := 0; eb_deadlineAt := None |};
     sp_maxAttempts := 2; sp_attemptIds := ["attempt-" +:+ id]%string;
     sp_attempts := [working_attempt ("attempt-" +:+ id)%string request] |}.
Definition working_plan (request : SubagentExecutionRequestV1) : SessionPlanGraphProjectionV3 :=
  {| gr_planId := "p1"; gr_revision := 1; gr_objective := "o"; gr_state := P_running;
     gr_steps := [working_step "a" 0 request; working_step "b" 1 request]; gr_readyStepIds := [] |}.

Example recovery_exceeds_turns :
  (request ← validateSubagentExecutionRequestV1 (sample_request "c");
   candidates ← collectCandidates (working_plan request);
   let resolutions := (resolve_candidates rebuild_request new_id instant sample_recovery (working_plan request) candidates
     (initial_capacity 2 sample_recovery (working_plan request)
       {| bu_turns := 0; bu_toolCalls := 0; bu_subagents := 0;
          bu_provider := {| pu_inputTokens := None; pu_outputTokens := None; pu_cacheReadTokens := None;
                            pu_cacheWriteTokens := None; pu_costUsd := None |} |})).1 in
   Ok (eb_maxTurns (ri_parentBudget sample_recovery), sumZ bu_turns (resolutions ≫= resolved_usage),
       sumZ (eb_maxTurns ∘ budget_of) (retried resolutions))) = Ok (40, 40, 20).
Proof. vm_compute. reflexivity. Qed.
