(* ===== verification/Replan.v ===== *)
(** * Revision of a plan: apps/runtime/src/planner/replanCoordinator.ts

    The coordinator records the decisions of the planner and replaces the plan of a
    run by a new proposal, of which some steps may keep the success of the old
    plan.  It reads the projection and the journal, and everything that it does
    is one commit after the head that the request names.

    The identities of an admitted proposal are asked for by kind and key
    ([plan_id]); those of the entries and the commit by the number of the call
    ([createId]).  The objects of the projection that are compared as texts have
    the property order of the contract, in which they were journaled. *)

From S2P Require Import Prelude Js JsOps Json CanonicalJson Plan Subagent Session SessionReducer SessionEntry SessionCommit SessionPort JournalDrafts DagScheduler PlanValidator.
Local Open Scope Z_scope.

(** The action is the value that was given: an array of one name passes as well. *)
Record PlannerDecisionV1 := {
  dc_action : jsval;
  dc_reasonCode : string;
  dc_stepId : option string;
  dc_attemptId : option string;
}.
Record ReplanStepReuseV1 := { ru_proposalKey : string; ru_priorStepId : string; ru_nextInputDigest : string }.
Record ReplanRequestV1 := {
  rq_sessionId : string;
  rq_parentRunId : string;
  rq_planId : string;
  rq_expectedRevision : Z;
  rq_expectedPlanRevision : Z;
  rq_proposal : jsval;
  rq_reuse : jsval;
}.
Inductive ReplanResultV1 :=
| replan_applied (planId : string) (previousRevision revision : Z) (reusedStepIds newStepIds : list string)
| replan_no_progress (occurrences : Z)
| replan_blocked (occurrences : Z).

(** [exactKeys]: as many keys as names, and every name a key. *)
Definition exact_keys (value : jsobj) (names : list string) : bool :=
  Nat.eqb (length value) (length names) && forallb (hasOwn value) names.

(** ** Decisions *)

Definition is_one_of (v : jsval) (names : list string) : bool := existsb (is_str v) names.

Definition validatePlannerDecisionV1 `{JsEngine} (input : jsval) : res PlannerDecisionV1 :=
  o ← match input with JObj o => Ok o | _ => Err "PLANNER_DECISION_INVALID" end;
  let action := o .: "action" in
  let stepId := o .: "stepId" in
  let attemptId := o .: "attemptId" in
  fail_if (existsb (λ k, negb (memb k ["action"; "reasonCode"; "stepId"; "attemptId"]%string)) (keys o)
           || negb (hasOwn o "action") || negb (hasOwn o "reasonCode")
           || negb (memb (js_String action) ["retry"; "continue"; "fresh_worker"; "replan"; "ask_user"]%string)
           || negb (safeId (o .: "reasonCode"))
           || (negb (is_undef stepId) && negb (safeId stepId))
           || (negb (is_undef attemptId) && negb (safeId attemptId))) "PLANNER_DECISION_INVALID";;
  fail_if ((is_one_of action ["retry"; "continue"; "fresh_worker"]%string && (is_undef stepId || is_undef attemptId))
           || (is_one_of action ["replan"; "ask_user"]%string && (negb (is_undef stepId) || negb (is_undef attemptId))))
    "PLANNER_DECISION_INVALID";;
  Ok {| dc_action := action; dc_reasonCode := js_str (o .: "reasonCode");
        dc_stepId := opt js_str stepId; dc_attemptId := if is_undef stepId then None else opt js_str attemptId |}.

(** ** The checks of a request *)

Definition validateRequest (value : jsval) : res ReplanRequestV1 :=
  input ← match value with JObj o => Ok o | _ => Err "REPLAN_REQUEST_INVALID" end;
  fail_if (negb (exact_keys input (["sessionId"; "parentRunId"; "planId"; "expectedRevision"; "expectedPlanRevision"; "proposal"]%string
                   ++ (if is_undef (input .: "reuse") then [] else ["reuse"%string])))
           || negb (safeId (input .: "sessionId")) || negb (safeId (input .: "parentRunId")) || negb (safeId (input .: "planId"))
           || negb (nonNegativeInteger (input .: "expectedRevision"))
           || negb (positiveInteger (input .: "expectedPlanRevision"))) "REPLAN_REQUEST_INVALID";;
  Ok {| rq_sessionId := js_str (input .: "sessionId"); rq_parentRunId := js_str (input .: "parentRunId");
        rq_planId := js_str (input .: "planId"); rq_expectedRevision := js_int (input .: "expectedRevision");
        rq_expectedPlanRevision := js_int (input .: "expectedPlanRevision"); rq_proposal := input .: "proposal";
        rq_reuse := input .: "reuse" |}.

Definition requirePlanRevisionOf (plan : option SessionPlanGraphProjectionV3) (planId : string) (revision : Z) :
    res SessionPlanGraphProjectionV3 :=
  match plan with
  | Some plan =>
      fail_if (bool_decide (gr_planId plan ≠ planId)) "REPLAN_PLAN_NOT_FOUND";;
      fail_if (negb (gr_revision plan =? revision)) "REPLAN_PLAN_REVISION_CONFLICT";;
      Ok plan
  | None => Err "REPLAN_PLAN_NOT_FOUND"
  end.

Definition step_at_work (step : SessionStepProjectionV3) : bool :=
  one_of (sp_state step) [S_running; S_verifying]
  || existsb (λ attempt, one_of (ap_state attempt) [A_reserved; A_running; A_execution_succeeded; A_verifying]) (sp_attempts step).
Definition requireReplannablePlan (plan : option SessionPlanGraphProjectionV3) (input : ReplanRequestV1) :
    res SessionPlanGraphProjectionV3 :=
  plan ← requirePlanRevisionOf plan (rq_planId input) (rq_expectedPlanRevision input);
  fail_if (negb (one_of (gr_state plan) [P_running; P_blocked; P_failed])) "REPLAN_STATE_INVALID";;
  fail_if (existsb step_at_work (gr_steps plan)) "REPLAN_ACTIVE_ATTEMPT";;
  Ok plan.

Definition requireActiveParentRun (runs : list SessionRunProjectionV3) (parentRunId : string) : res unit :=
  fail_if (negb (existsb (run_active parentRunId) runs)) "REPLAN_PARENT_RUN_INACTIVE".

(** The sets of the loop are the keys and the steps seen so far. *)
Fixpoint reuse_items (plan : SessionPlanGraphProjectionV3) (proposalKeys stepIds : list string) (items : list jsval) :
    res (list ReplanStepReuseV1) :=
  match items with
  | [] => Ok []
  | candidate :: items =>
      o ← match candidate with JObj o => Ok o | _ => Err "REPLAN_REUSE_INVALID" end;
      let proposalKey := js_str (o .: "proposalKey") in
      let priorStepId := js_str (o .: "priorStepId") in
      fail_if (negb (exact_keys o ["proposalKey"; "priorStepId"; "nextInputDigest"]%string)
               || negb (safeId (o .: "proposalKey")) || negb (safeId (o .: "priorStepId"))
               || negb (digest (o .: "nextInputDigest"))
               || memb proposalKey proposalKeys || memb priorStepId stepIds
               || negb (existsb (λ step, String.eqb (sp_stepId step) priorStepId) (gr_steps plan))) "REPLAN_REUSE_INVALID";;
      rest ← reuse_items plan (proposalKey :: proposalKeys) (priorStepId :: stepIds) items;
      Ok ({| ru_proposalKey := proposalKey; ru_priorStepId := priorStepId;
             ru_nextInputDigest := js_str (o .: "nextInputDigest") |} :: rest)
  end.
(** Of [input.reuse ?? []]. *)
Definition validateReuse (input : jsval) (plan : SessionPlanGraphProjectionV3) : res (list ReplanStepReuseV1) :=
  let input := coalesce input (JArr []) in
  fail_if (negb (is_arr input) || Nat.ltb 64 (length (js_arr input))) "REPLAN_REUSE_INVALID";;
  reuse_items plan [] [] (js_arr input).

Definition requireStep (plan : SessionPlanGraphProjectionV3) (stepId : string) : res SessionStepProjectionV3 :=
  match findb (λ step, String.eqb (sp_stepId step) stepId) (gr_steps plan) with
  | Some step => Ok step
  | None => Err "REPLAN_REUSE_INVALID"
  end.

(** ** Definitions of steps *)

(** [JSON.stringify(left) === JSON.stringify(right)]. *)
Definition same_json `{JsEngine} (left right : jsval) : bool := bool_decide (JSON_stringify left = JSON_stringify right).

Definition sameStepDefinition `{JsEngine} (prior : SessionStepProjectionV3) (next : PlanStepV1) : bool :=
  bool_decide (sp_stepId prior = st_stepId next)
  && bool_decide (sp_title prior = st_title next)
  && (sp_order prior =? st_order next)
  && same_json (JStrs (sp_dependencies prior)) (JStrs (st_dependencies next))
  && same_json (PlanAccess_js (sp_access prior)) (PlanAccess_js (st_access next))
  && same_json (JStrs (sp_capabilities prior)) (JStrs (st_capabilities next))
  && same_json (JStrs (sp_conflictKeys prior)) (JStrs (st_conflictKeys next))
  && same_json (JArr (PlanCriterion_js <$> sp_criteria prior)) (JArr (PlanCriterion_js <$> st_criteria next))
  && same_json (PlanBudget_js (sp_budget prior)) (PlanBudget_js (st_budget next))
  && (sp_maxAttempts prior =? st_maxAttempts next).

(** What a signature reads of a step. *)
Definition definition_of (step : SessionStepProjectionV3) : PlanStepV1 :=
  {| st_stepId := sp_stepId step; st_title := sp_title step; st_order := sp_order step; st_state := sp_state step;
     st_dependencies := sp_dependencies step; st_access := sp_access step; st_capabilities := sp_capabilities step;
     st_conflictKeys := sp_conflictKeys step; st_criteria := sp_criteria step; st_budget := sp_budget step;
     st_maxAttempts := sp_maxAttempts step; st_attemptIds := sp_attemptIds step |}.

Section Signature.
Context `{JsEngine}.

(** [.sort()] of numbers compares their texts and puts [undefined] last. *)
Definition order_before (left right : jsval) : bool :=
  match left, right with
  | _, JUndef => true
  | JUndef, _ => false
  | _, _ => negb (text_ltb (js_String right) (js_String left))
  end.
Definition criterion_signature (c : PlanSuccessCriterionV1) : jsval := JObj
  ([("kind", JStr (enum_name (sc_kind c))); ("description", JStr (sc_description c))]%string
   ++ opt_prop "ref" JStr (sc_ref c) ++ opt_prop "expectedDigest" JStr (sc_expectedDigest c)).
Definition step_signature (order : list (string * Z)) (step : PlanStepV1) : jsval := JObj
  [("title", JStr (st_title step)); ("order", JInt (st_order step));
   ("dependencies", JArr (js_sort order_before ((λ d, undef_prop JInt (mget d order)) <$> st_dependencies step)));
   ("access", PlanAccess_js (st_access step)); ("capabilities", JStrs (st_capabilities step));
   ("conflictKeys", JStrs (st_conflictKeys step)); ("criteria", JArr (criterion_signature <$> st_criteria step));
   ("budget", PlanBudget_js (st_budget step)); ("maxAttempts", JInt (st_maxAttempts step))]%string.
Definition planSignature (steps : list PlanStepV1) : jsval :=
  let order := mof ((λ step, (st_stepId step, st_order step)) <$> steps) in
  JArr (step_signature order <$> js_sort (λ left right, st_order left <=? st_order right) steps).

Definition samePlanDefinition (current : SessionPlanGraphProjectionV3) (candidate : PlanGraphV1) : bool :=
  if bool_decide (gr_objective current ≠ pg_objective candidate)
     || negb (Nat.eqb (length (gr_steps current)) (length (pg_steps candidate)))
  then false
  else same_json (planSignature (definition_of <$> gr_steps current)) (planSignature (pg_steps candidate)).
End Signature.

(** ** Drafts *)

Definition decisionDraft (plan : SessionPlanGraphProjectionV3) (outcome reasonCode : string) : string * jsval :=
  ("plan.decision_recorded",
   JObj [("planId", JStr (gr_planId plan)); ("planRevision", JInt (gr_revision plan)); ("action", JStr "replan");
         ("outcome", JStr outcome); ("reasonCode", JStr reasonCode)])%string.

(** [[...prior.attempts].sort((left, right) => right.ordinal - left.ordinal)[0]]. *)
Definition latest_attempt (step : SessionStepProjectionV3) : option SessionAttemptProjectionV3 :=
  head (js_sort (λ left right, ap_ordinal right <=? ap_ordinal left) (sp_attempts step)).
Definition packet_digest (attempt : SessionAttemptProjectionV3) : option string :=
  vr_digest ∘ sr_packetRef ∘ ex_request <$> ap_execution attempt.

(** The proof of a reused step; the caller has checked that the digest is there. *)
Definition reuse_proof (prior : SessionStepProjectionV3) (item : ReplanStepReuseV1) : jsval :=
  JObj [("stepId", JStr (ru_priorStepId item));
        ("previousInputDigest", JStr (default "" (latest_attempt prior ≫= packet_digest)));
        ("nextInputDigest", JStr (ru_nextInputDigest item))]%string.
Definition revisedDraft (plan : SessionPlanGraphProjectionV3) (objective : string) (proofs : list jsval) : string * jsval :=
  ("plan.revised",
   JObj [("planId", JStr (gr_planId plan)); ("fromRevision", JInt (gr_revision plan));
         ("toRevision", JInt (gr_revision plan + 1)%Z); ("objective", JStr objective); ("state", JStr "running");
         ("reuseProofs", JArr proofs)])%string.
Definition stepDraft (planId : string) (revision : Z) (step : PlanStepV1) : string * jsval :=
  ("step.created",
   JObj [("planId", JStr planId); ("planRevision", JInt revision); ("stepId", JStr (st_stepId step));
         ("title", JStr (st_title step)); ("order", JInt (st_order step)); ("state", JStr "pending");
         ("dependencies", JStrs (st_dependencies step)); ("access", PlanAccess_js (st_access step));
         ("capabilities", JStrs (st_capabilities step)); ("conflictKeys", JStrs (st_conflictKeys step));
         ("criteria", JArr (PlanCriterion_js <$> st_criteria step)); ("budget", PlanBudget_js (st_budget step));
         ("maxAttempts", JInt (st_maxAttempts step))])%string.

(** ** The coordinator *)

(** The text before the last colon and after it. *)
Fixpoint last_colon (s : string) : option (string * string) :=
  match s with
  | EmptyString => None
  | String a rest =>
      match last_colon rest with
      | Some (before, after) => Some (String a before, after)
      | None => if Ascii.eqb a ":" then Some (EmptyString, rest) else None
      end
  end.

(** [entry.type === 'plan.decision_recorded'] of the run, about the plan, a replan with the outcome. *)
Definition replan_entry (runId planId outcome : string) (entry : SessionEntryV3) : bool :=
  match en_data entry with
  | plan_decision_recorded data =>
      bool_decide (en_runId entry = Some runId) && bool_decide (pd_planId data = planId)
      && match pd_action data with D_replan => true | _ => false end && bool_decide (pd_outcome data = outcome)
  | _ => false
  end.
Definition count_replans (runId planId outcome : string) (entries : list SessionEntryV3) : Z :=
  Z.of_nat (length (List.filter (replan_entry runId planId outcome) entries)).
Definition count_children (runId : string) (entries : list SessionEntryV3) : Z :=
  Z.of_nat (length (List.filter (λ entry,
    match en_data entry with attempt_created _ => bool_decide (en_runId entry = Some runId) | _ => false end) entries)).

Section Coordinator.
Context `{JsEngine} `{JsCrypto} `{RP : ReviewPlanContract}.
(** The options, the identities and the clock. *)
Context (admission : jsval) (plan_id : PlanRuntimeIdKindV1 → string → string) (createId : nat → string → string) (now : string).

(** The identities of the revised plan: those of the plan and of the reused steps
    and their criteria are kept. *)
Definition replan_id (plan : SessionPlanGraphProjectionV3) (reuse : list ReplanStepReuseV1)
    (kind : PlanRuntimeIdKindV1) (sourceKey : string) : string :=
  let prior_of key := ru_priorStepId <$> findb (λ item, String.eqb (ru_proposalKey item) key) reuse in
  match kind with
  | id_plan => gr_planId plan
  | id_step => default (plan_id kind sourceKey) (prior_of sourceKey)
  | id_criterion =>
      let '(proposalKey, index) := match last_colon sourceKey with
        | Some (key, text) => (key, match number_value text with NInt n => Some (n - 1) | _ => None end)
        | None => (sourceKey, Some (-1))
        end in
      let prior := findb (λ step, bool_decide (prior_of proposalKey = Some (sp_stepId step))) (gr_steps plan) in
      let criterion := prior ≫= λ step, index ≫= λ n, if n <? 0 then None else sp_criteria step !! Z.to_nat n in
      default (plan_id kind sourceKey) (sc_criterionId <$> criterion)
  end.

(** The loop over the reused steps. *)
Definition check_reuse (plan : SessionPlanGraphProjectionV3) (candidate : PlanGraphV1) (reuse : list ReplanStepReuseV1)
    (item : ReplanStepReuseV1) : res unit :=
  prior ← requireStep plan (ru_priorStepId item);
  fail_if (match findb (λ step, String.eqb (st_stepId step) (ru_priorStepId item)) (pg_steps candidate), latest_attempt prior with
           | Some next, Some latest =>
               bool_decide (sp_state prior ≠ S_succeeded) || bool_decide (ap_state latest ≠ A_verified)
               || bool_decide (packet_digest latest ≠ Some (ru_nextInputDigest item))
               || negb (sameStepDefinition prior next)
               || existsb (λ dependency, negb (existsb (λ other, String.eqb (ru_priorStepId other) dependency) reuse))
                    (sp_dependencies prior)
           | _, _ => true
           end) "REPLAN_REUSE_INVALID".

(** [monotonicTimestamp]. *)
Definition monotonicTimestamp (previous : option string) : res string :=
  fail_if (negb (canonicalInstant (JStr now))) "REPLAN_CLOCK_INVALID";;
  Ok (match previous with Some previous => maxInstant now previous | None => now end).

(** The commit of [append]: the history gives the sequence and the time, the
    request the revision. *)
Definition journal_draft (runId planId : string) (draft : string * jsval) : JournalEventDraft :=
  {| dr_type := draft.1; dr_correlation := JObj [("parentRunId", JStr runId); ("planId", JStr planId)]%string; dr_data := draft.2 |}.
Definition replan_commit (sessionId runId planId : string) (expectedRevision expectedPlanRevision : Z)
    (history : list SessionEntryV3) (drafts : list (string * jsval)) (suffix : string) : res SessionCommitV3 :=
  timestamp ← monotonicTimestamp (en_timestamp <$> last history);
  let values := imap (entry_value createId sessionId runId timestamp (Z.of_nat (length history)) (expectedRevision + 1) 0)
    (journal_draft runId planId <$> drafts) in
  mapM validateSessionEntryV3 values;;
  createSessionCommitV3
    {| ci_sessionId := sessionId; ci_commitId := createId (length drafts) "commit"; ci_expectedRevision := expectedRevision;
       ci_idempotencyKey := "replan-" +:+ runId +:+ "-" +:+ js_String (JInt expectedPlanRevision) +:+ "-" +:+ suffix;
       ci_entries := values |}.

Definition request_commit (input : ReplanRequestV1) : list SessionEntryV3 → list (string * jsval) → string → res SessionCommitV3 :=
  replan_commit (rq_sessionId input) (rq_parentRunId input) (rq_planId input) (rq_expectedRevision input) (rq_expectedPlanRevision input).

(** The branches of [replan] after its checks. *)
Definition no_progress (input : ReplanRequestV1) (plan : SessionPlanGraphProjectionV3) (entries : list SessionEntryV3) :
    res (ReplanResultV1 * option SessionCommitV3) :=
  let prior := count_replans (rq_parentRunId input) (rq_planId input) "no_progress" entries in
  let occurrences := prior + 1 in
  if 2 <=? prior then Ok (replan_blocked prior, None)
  else
    let drafts := decisionDraft plan "no_progress" "REPLAN_NO_PROGRESS"
      :: (if (2 <=? occurrences) && bool_decide (gr_state plan = P_running)
          then [("plan.state_changed", JObj [("planId", JStr (gr_planId plan)); ("planRevision", JInt (gr_revision plan));
                                             ("state", JStr "blocked")])]%string
          else []) in
    commit ← request_commit input entries drafts ("no-progress-" +:+ js_String (JInt occurrences));
    Ok (if 2 <=? occurrences then replan_blocked occurrences else replan_no_progress occurrences, Some commit).

Definition applied (input : ReplanRequestV1) (plan : SessionPlanGraphProjectionV3) (candidate : PlanGraphV1)
    (reuse : list ReplanStepReuseV1) (newSteps : list PlanStepV1) (entries : list SessionEntryV3) :
    res (ReplanResultV1 * option SessionCommitV3) :=
  let nextRevision := gr_revision plan + 1 in
  proofs ← mapM (λ item, prior ← requireStep plan (ru_priorStepId item); Ok (reuse_proof prior item)) reuse;
  let drafts := decisionDraft plan "applied" "REPLAN_APPLIED" :: revisedDraft plan (pg_objective candidate) proofs
    :: (stepDraft (gr_planId plan) nextRevision <$> newSteps) in
  commit ← request_commit input entries drafts ("apply-" +:+ js_String (JInt nextRevision));
  Ok (replan_applied (gr_planId plan) (gr_revision plan) nextRevision (ru_priorStepId <$> reuse) (st_stepId <$> newSteps), Some commit).

(** [replan], from the projection and the journal to the commit that it appends. *)
Definition replan (request : jsval) (projection : SessionProjectionV3) (entries : list SessionEntryV3) :
    res (ReplanResultV1 * option SessionCommitV3) :=
  input ← validateRequest request;
  plan ← requireReplannablePlan (pj_planGraph projection) input;
  requireActiveParentRun (sn_runs (pj_snapshot projection)) (rq_parentRunId input);;
  fail_if (negb (sn_revision (pj_snapshot projection) =? rq_expectedRevision input)) "REPLAN_EXPECTED_REVISION_CONFLICT";;
  fail_if (1 <=? count_replans (rq_parentRunId input) (rq_planId input) "applied" entries) "REPLAN_LIMIT_EXCEEDED";;
  reuse ← validateReuse (rq_reuse input) plan;
  options ← validateOptions admission;
  candidate ← validate options (replan_id plan reuse) (rq_proposal input);
  mapM (check_reuse plan candidate reuse) reuse;;
  let newSteps := List.filter (λ step, negb (memb (st_stepId step) (ru_priorStepId <$> reuse))) (pg_steps candidate) in
  let reservedChildren := reduce_sum st_maxAttempts newSteps in
  fail_if (eb_maxChildRuns (po_parentBudget options) <? count_children (rq_parentRunId input) entries + reservedChildren)
    "REPLAN_CHILD_BUDGET_EXCEEDED";;
  if samePlanDefinition plan candidate then no_progress input plan entries
  else applied input plan candidate reuse newSteps entries.

(** [recordDecision]. *)
Definition decision_target (plan : SessionPlanGraphProjectionV3) (decision : PlannerDecisionV1) : res unit :=
  match dc_stepId decision, dc_attemptId decision with
  | Some stepId, Some attemptId =>
      step ← requireStep plan stepId;
      match findb (λ attempt, String.eqb (ap_attemptId attempt) attemptId) (sp_attempts step) with
      | None => Err "PLANNER_DECISION_TARGET_INVALID"
      | Some attempt =>
          fail_if (negb (if is_str (dc_action decision) "retry" then one_of (ap_state attempt) [A_execution_failed; A_rejected]
            else if is_str (dc_action decision) "continue"
                 then bool_decide (ap_state attempt = A_interrupted) && negb (is_none (ap_execution attempt))
            else if is_str (dc_action decision) "fresh_worker"
                 then one_of (ap_state attempt) [A_execution_failed; A_rejected; A_interrupted]
            else false)) "PLANNER_DECISION_TARGET_INVALID"
      end
  | _, _ => Ok tt
  end.
Definition decision_value (plan : SessionPlanGraphProjectionV3) (decision : PlannerDecisionV1) : string * jsval :=
  ("plan.decision_recorded",
   JObj ([("planId", JStr (gr_planId plan)); ("planRevision", JInt (gr_revision plan)); ("action", dc_action decision);
          ("reasonCode", JStr (dc_reasonCode decision))]
         ++ opt_prop "stepId" JStr (dc_stepId decision) ++ opt_prop "attemptId" JStr (dc_attemptId decision)
         ++ [("outcome", JStr "selected")]))%string.
Definition recordDecision (request : jsval) (projection : SessionProjectionV3) (entries : list SessionEntryV3) :
    res (PlannerDecisionV1 * SessionCommitV3) :=
  input ← match request with JObj o => Ok o | _ => Err "PLANNER_DECISION_REQUEST_INVALID" end;
  fail_if (negb (exact_keys input ["sessionId"; "parentRunId"; "planId"; "expectedRevision"; "expectedPlanRevision"; "decision"]%string)
           || negb (safeId (input .: "sessionId")) || negb (safeId (input .: "parentRunId")) || negb (safeId (input .: "planId"))
           || negb (nonNegativeInteger (input .: "expectedRevision"))
           || negb (positiveInteger (input .: "expectedPlanRevision"))) "PLANNER_DECISION_REQUEST_INVALID";;
  decision ← validatePlannerDecisionV1 (input .: "decision");
  fail_if (is_str (dc_action decision) "replan") "PLANNER_DECISION_USE_REPLAN";;
  plan ← requirePlanRevisionOf (pj_planGraph projection) (js_str (input .: "planId")) (js_int (input .: "expectedPlanRevision"));
  requireActiveParentRun (sn_runs (pj_snapshot projection)) (js_str (input .: "parentRunId"));;
  fail_if (negb (sn_revision (pj_snapshot projection) =? js_int (input .: "expectedRevision"))) "REPLAN_EXPECTED_REVISION_CONFLICT";;
  decision_target plan decision;;
  commit ← replan_commit (js_str (input .: "sessionId")) (js_str (input .: "parentRunId")) (js_str (input .: "planId"))
    (js_int (input .: "expectedRevision")) (js_int (input .: "expectedPlanRevision")) entries [decision_value plan decision]
    ("decision-" +:+ js_String (dc_action decision));
  Ok (decision, commit).

(** What the error of [appendCommit] becomes. *)
Definition append_error (code : string) : string :=
  if memb code ["SESSION_COMMIT_REVISION_CONFLICT"; "SESSION_COMMIT_SEQUENCE_CONFLICT"; "SESSION_COMMIT_IDEMPOTENCY_CONFLICT"]%string
  then "REPLAN_EXPECTED_REVISION_CONFLICT" else code.
Definition appended {A B} (appendCommit : SessionCommitV3 → res B) (decided : res (A * option SessionCommitV3)) : res A :=
  r ← decided;
  match r.2 with
  | None => Ok r.1
  | Some commit => match appendCommit commit with Ok _ => Ok r.1 | Err code => Err (append_error code) end
  end.
End Coordinator.

(** [readAll]: the loop over the pages is that of the port. *)
Definition readAll `{JsEngine} `{JsCrypto} `{RP : ReviewPlanContract} `{Store : SessionJournalCommitStoreV3}
    (fuel : nat) (sessionId : string) : option (res (list SessionEntryV3)) :=
  read_pages fuel 0 sessionId [] 0 None.
