(* ===== verification/ReplanFacts.v ===== *)
(** * Facts about a revision

    The entries of the commit of a revision, and what a successful revision has
    checked and computed. *)

From S2P Require Import Prelude Js JsOps CanonicalJson Plan PlanSpec Subagent Session SessionReducer PlanValidator PlanAdmission PlanReplay SessionEntry SessionEntrySpec SessionCommit JournalDrafts Json DraftReplay DagScheduler Replan.
Local Open Scope Z_scope.

(** ** Typed drafts *)

Definition replan_correlation (runId planId : string) : SessionEntryCorrelationV3 :=
  [("parentRunId", runId); ("planId", planId)]%string.

Definition decision_data (plan : SessionPlanGraphProjectionV3) (action : PlannerDecisionActionV3) (outcome reasonCode : string)
    (stepId attemptId : option string) : SessionEntryData :=
  plan_decision_recorded {| pd_planId := gr_planId plan; pd_planRevision := gr_revision plan; pd_action := action;
    pd_outcome := outcome; pd_reasonCode := reasonCode; pd_stepId := stepId; pd_attemptId := attemptId |}.
Definition blocked_data (plan : SessionPlanGraphProjectionV3) : SessionEntryData :=
  plan_state_changed {| psc_planId := gr_planId plan; psc_planRevision := gr_revision plan; psc_state := P_blocked |}.
Definition proof_data (plan : SessionPlanGraphProjectionV3) (item : ReplanStepReuseV1) : ReuseProof :=
  {| rp_stepId := ru_priorStepId item;
     rp_previousInputDigest := default ""%string (r ← findb (λ step, String.eqb (sp_stepId step) (ru_priorStepId item)) (gr_steps plan);
       latest_attempt r ≫= packet_digest);
     rp_nextInputDigest := ru_nextInputDigest item |}.
Definition revised_data (plan : SessionPlanGraphProjectionV3) (objective : string) (reuse : list ReplanStepReuseV1) : SessionEntryData :=
  plan_revised {| pr_planId := gr_planId plan; pr_fromRevision := gr_revision plan; pr_toRevision := gr_revision plan + 1;
    pr_objective := objective; pr_reuseProofs := proof_data plan <$> reuse |}.
Definition created_step (planId : string) (revision : Z) (step : PlanStepV1) : StepCreatedData :=
  {| sd_planId := planId; sd_planRevision := revision; sd_stepId := st_stepId step; sd_title := st_title step;
     sd_order := st_order step; sd_state := st_state step; sd_dependencies := st_dependencies step;
     sd_access := st_access step; sd_capabilities := st_capabilities step; sd_conflictKeys := st_conflictKeys step;
     sd_criteria := st_criteria step; sd_budget := st_budget step; sd_maxAttempts := st_maxAttempts step |}.

Definition typed (runId planId : string) (data : SessionEntryData) : typed_draft := (replan_correlation runId planId, data).

(** ** The drafts decode to them *)

Section Entries.
Context `{JsEngine} `{JsCrypto} `{RP : ReviewPlanContract}.

Abbreviation decodes draft data := (∀ runId planId, decodes_to (journal_draft runId planId draft) (typed runId planId data)).

Lemma decision_decode data runId d : validatePayload "plan.decision_recorded" data runId = Ok d → plan_decision_recorded_payload data = Ok d.
Proof. done. Qed.
Lemma revised_decode data runId d : validatePayload "plan.revised" data runId = Ok d → plan_revised_payload data = Ok d.
Proof. done. Qed.
Lemma step_decode data runId d : validatePayload "step.created" data runId = Ok d → SessionEntry.step_created_payload data = Ok d.
Proof. done. Qed.
Lemma plan_changed_decode data runId d : validatePayload "plan.state_changed" data runId = Ok d → plan_state_changed_payload data = Ok d.
Proof. done. Qed.

Lemma decisionDraft_decodes plan outcome reasonCode :
  decodes (decisionDraft plan outcome reasonCode) (decision_data plan D_replan outcome reasonCode None None).
Proof.
  intros runId planId. split; [done|]. intros rv data. cbn [journal_draft dr_data dr_type decisionDraft fst snd fields_of].
  intros Hd%decision_decode. unfold plan_decision_recorded_payload in Hd. inv_ok. by read_payload.
Qed.

Lemma blocked_decodes plan :
  decodes ("plan.state_changed", JObj [("planId", JStr (gr_planId plan)); ("planRevision", JInt (gr_revision plan)); ("state", JStr "blocked")])%string
    (blocked_data plan).
Proof.
  intros runId planId. split; [done|]. intros rv data. cbn [journal_draft dr_data dr_type fst snd fields_of].
  intros Hd%plan_changed_decode. unfold plan_state_changed_payload in Hd. inv_ok. by read_payload.
Qed.

Lemma reuse_proofs_decode plan seen items proofs out :
  mapM (λ item, prior ← requireStep plan (ru_priorStepId item); Ok (reuse_proof prior item)) items = Ok proofs →
  reuse_proofs seen proofs = Ok out → out = proof_data plan <$> items.
Proof.
  revert seen proofs out. induction items as [|item items IH]; intros seen proofs out Hm Hr.
  { injection Hm as <-. by injection Hr as <-. }
  cbn [mapM] in Hm. apply bind_Ok in Hm as (proof & Hproof & Hm). apply bind_Ok in Hm as (rest & Hrest & [= <-]).
  apply bind_Ok in Hproof as (prior & Hprior & [= <-]). cbn [reuse_proofs] in Hr.
  unfold reuse_proof in Hr. inv_ok. match goal with Hx : reuse_proofs _ _ = Ok _ |- _ => apply (IH _ _ _ Hrest) in Hx as -> end.
  match goal with Hx : recordField _ = Ok _ |- _ => injection Hx as <- end. fields. cbn [get String.eqb Ascii.eqb Bool.eqb] in *. simplify_eq.
  rewrite fmap_cons. f_equal. unfold proof_data. unfold requireStep in Hprior.
  destruct (findb _ (gr_steps plan)) as [prior'|]; [|done]. by injection Hprior as ->.
Qed.

Lemma revisedDraft_decodes plan objective items proofs :
  mapM (λ item, prior ← requireStep plan (ru_priorStepId item); Ok (reuse_proof prior item)) items = Ok proofs →
  decodes (revisedDraft plan objective proofs) (revised_data plan objective items).
Proof.
  intros Hm runId planId. split; [done|]. intros rv data. cbn [journal_draft dr_data dr_type revisedDraft fst snd fields_of].
  intros Hd%revised_decode. unfold plan_revised_payload, replanReuseProofs in Hd. inv_ok.
  match goal with Hr : reuse_proofs _ _ = Ok _ |- _ => rename Hr into Hproofs end.
  read_payload.
  by rewrite (reuse_proofs_decode plan [] items _ _ Hm Hproofs).
Qed.

Lemma stepDraft_decodes planId rev step :
  st_state step = S_pending → st_attemptIds step = [] →
  decodes (stepDraft planId rev step) (Session.step_created (created_step planId rev step)).
Proof.
  intros Hst Hat runId pid. split; [done|]. intros rv data. cbn [journal_draft dr_data dr_type stepDraft fst snd fields_of].
  intros Hd%step_decode. unfold SessionEntry.step_created_payload, validatePlanStepPayload, rethrow in Hd. inv_ok.
  match goal with Hs : match validatePlanStepV1 ?v with _ => _ end = Ok _ |- _ =>
    change v with (PlanStep_js {| st_stepId := st_stepId step; st_title := st_title step; st_order := st_order step;
      st_state := S_pending; st_dependencies := st_dependencies step; st_access := st_access step;
      st_capabilities := st_capabilities step; st_conflictKeys := st_conflictKeys step; st_criteria := st_criteria step;
      st_budget := st_budget step; st_maxAttempts := st_maxAttempts step; st_attemptIds := [] |}) in Hs;
    destruct (validatePlanStepV1 _) as [t|] eqn:Ht; [|done]; apply validatePlanStepV1_decode in Ht; injection Hs as <-
  end.
  subst t. read_payload. unfold created_step. by rewrite Hst.
Qed.
End Entries.

Section Facts.
Context `{JsEngine} `{JsCrypto} `{RP : ReviewPlanContract}.

(** ** Commits *)

(** [c] is the commit of the entries [datas] after the history. *)
Record commit_of (createId : nat → string → string) (now sessionId runId planId : string) (revision planRevision : Z)
    (history : list SessionEntryV3) (suffix : string) (datas : list SessionEntryData) (c : SessionCommitV3) : Prop := {
  co_now : canonicalInstant (JStr now) = true;
  co_valid : mapM validateSessionEntryV3 (sc_values c) = Ok (sc_entries c);
  co_entries : sc_entries c = imap (typed_entry createId sessionId runId
      (match last history with Some e => maxInstant now (en_timestamp e) | None => now end)
      (Z.of_nat (length history)) (revision + 1) 0) (typed runId planId <$> datas);
  co_session : sc_sessionId c = sessionId;
  co_revision : sc_expectedRevision c = revision;
  co_key : sc_idempotencyKey c = "replan-" +:+ runId +:+ "-" +:+ js_String (JInt planRevision) +:+ "-" +:+ suffix;
}.

Abbreviation draft_is runId planId := (λ draft data, decodes_to (journal_draft runId planId draft) (typed runId planId data)).

Lemma created_key ci c : createSessionCommitV3 ci = Ok c → sc_idempotencyKey c = ci_idempotencyKey ci.
Proof. unfold createSessionCommitV3, validateSessionCommitV3. intros Hc. by inv_ok. Qed.

Lemma replan_commit_Ok createId now sid runId planId rev prev history drafts suffix c datas :
  replan_commit createId now sid runId planId rev prev history drafts suffix = Ok c →
  Forall2 (draft_is runId planId) drafts datas →
  commit_of createId now sid runId planId rev prev history suffix datas c.
Proof.
  unfold replan_commit, monotonicTimestamp. intros Hc Hd. inv_ok. split_bool.
  match goal with Hcc : createSessionCommitV3 _ = Ok _ |- _ =>
    pose proof (created_key _ _ Hcc) as Hkey; destruct (createSessionCommitV3_Ok _ _ Hcc) as (Hsid & Hrev & Hvals & Hes) end.
  split; [done|by rewrite Hvals| |done|done|done]. cbn [ci_entries] in Hes.
  eapply entry_values_decode in Hes; [|apply Forall2_fmap; exact Hd].
  rewrite Hes. by destruct (last history).
Qed.

(** ** The outcomes of [replan] *)

Record replan_ready (admission : jsval) (plan_id : PlanRuntimeIdKindV1 → string → string) (request : jsval)
    (pj : SessionProjectionV3) (es : list SessionEntryV3) (input : ReplanRequestV1) (plan : SessionPlanGraphProjectionV3)
    (reuse : list ReplanStepReuseV1) (options : PlanValidatorOptions) (candidate : PlanGraphV1)
    (newSteps : list PlanStepV1) : Prop := {
  rr_input : validateRequest request = Ok input;
  rr_plan : pj_planGraph pj = Some plan;
  rr_planId : gr_planId plan = rq_planId input;
  rr_planRevision : gr_revision plan = rq_expectedPlanRevision input;
  rr_state : gr_state plan ∈ [P_running; P_blocked; P_failed];
  rr_idle : existsb step_at_work (gr_steps plan) = false;
  rr_run : ∃ r, r ∈ sn_runs (pj_snapshot pj) ∧ rn_runId r = rq_parentRunId input ∧ rn_state r = R_running;
  rr_revision : sn_revision (pj_snapshot pj) = rq_expectedRevision input;
  rr_limit : count_replans (rq_parentRunId input) (rq_planId input) "applied" es < 1;
  rr_reuse : validateReuse (rq_reuse input) plan = Ok reuse;
  rr_options : validateOptions admission = Ok options;
  rr_candidate : validate options (replan_id plan_id plan reuse) (rq_proposal input) = Ok candidate;
  rr_checked : Forall (λ item, check_reuse plan candidate reuse item = Ok tt) reuse;
  rr_new : newSteps = List.filter (λ step, negb (memb (st_stepId step) (ru_priorStepId <$> reuse))) (pg_steps candidate);
  rr_children : count_children (rq_parentRunId input) es + sumZ st_maxAttempts newSteps ≤ eb_maxChildRuns (po_parentBudget options);
}.

Lemma one_of_elem `{EqDecision A} (x : A) l : one_of x l = true ↔ x ∈ l.
Proof. unfold one_of. by rewrite bool_decide_eq_true. Qed.

Lemma requireReplannablePlan_Ok o input plan : requireReplannablePlan o input = Ok plan →
  o = Some plan ∧ gr_planId plan = rq_planId input ∧ gr_revision plan = rq_expectedPlanRevision input ∧
  gr_state plan ∈ [P_running; P_blocked; P_failed] ∧ existsb step_at_work (gr_steps plan) = false.
Proof.
  unfold requireReplannablePlan, requirePlanRevisionOf. intros Hp. destruct o; inv_ok. split_bool.
  split_and!; [done|by apply dec_stable|lia|by apply one_of_elem|done].
Qed.

Lemma replan_Ok admission plan_id createId now request pj es r oc :
  replan admission plan_id createId now request pj es = Ok (r, oc) →
  ∃ input plan reuse options candidate newSteps,
    replan_ready admission plan_id request pj es input plan reuse options candidate newSteps ∧
    (if samePlanDefinition plan candidate then no_progress createId now input plan es
     else applied createId now input plan candidate reuse newSteps es) = Ok (r, oc).
Proof.
  unfold replan. intros Hr. repeat inv_ok_step.
  match goal with Hp : requireReplannablePlan _ _ = Ok _ |- _ => apply requireReplannablePlan_Ok in Hp as (? & ? & ? & ? & ?) end.
  match goal with Ha : requireActiveParentRun _ _ = Ok _ |- _ => unfold requireActiveParentRun in Ha end.
  match goal with Hm : mapM (check_reuse _ _ _) _ = Ok _ |- _ => apply mapM_Ok in Hm; rename Hm into Hcheck end.
  repeat inv_ok_step. split_bool. rewrite reduce_sum_sumZ in *.
  do 6 eexists. split; [|done]. split; try done; try lia.
  - match goal with Hx : existsb (run_active _) _ = true |- _ => apply existsb_true in Hx as (run & Hin & Hact) end.
    unfold run_active in Hact. split_bool. by exists run.
  - apply Forall_forall. intros item Hin. by destruct (Forall2_l_elem _ _ _ _ Hcheck Hin) as ([] & _ & ?).
Qed.

(** Without progress, one or two entries are appended, or none. *)
Lemma no_progress_Ok createId now input plan es r oc :
  no_progress createId now input plan es = Ok (r, oc) → gr_planId plan = rq_planId input →
  let prior := count_replans (rq_parentRunId input) (rq_planId input) "no_progress" es in
  (2 ≤ prior ∧ r = replan_blocked prior ∧ oc = None) ∨
  (prior < 2 ∧ ∃ c, oc = Some c ∧
    r = (if 2 <=? prior + 1 then replan_blocked (prior + 1) else replan_no_progress (prior + 1)) ∧
    commit_of createId now (rq_sessionId input) (rq_parentRunId input) (rq_planId input) (rq_expectedRevision input)
      (rq_expectedPlanRevision input) es ("no-progress-" +:+ js_String (JInt (prior + 1)))
      (decision_data plan D_replan "no_progress" "REPLAN_NO_PROGRESS" None None
       :: if (2 <=? prior + 1) && bool_decide (gr_state plan = P_running) then [blocked_data plan] else []) c).
Proof.
  intros Hr Hid prior. unfold no_progress, request_commit in Hr. fold prior in Hr. destruct (2 <=? prior) eqn:Hp.
  - injection Hr as <- <-. left. split_and!; [lia|done|done].
  - right. split; [lia|]. apply bind_Ok in Hr as (c & Hc & [= <- <-]). exists c. split_and!; [done|done|].
    eapply replan_commit_Ok; [exact Hc|]. constructor; [apply decisionDraft_decodes|].
    case_match; repeat constructor; apply blocked_decodes.
Qed.

Lemma applied_Ok createId now input plan candidate reuse newSteps es r oc :
  applied createId now input plan candidate reuse newSteps es = Ok (r, oc) →
  Forall (λ s, st_state s = S_pending ∧ st_attemptIds s = []) newSteps →
  r = replan_applied (gr_planId plan) (gr_revision plan) (gr_revision plan + 1) (ru_priorStepId <$> reuse) (st_stepId <$> newSteps) ∧
  ∃ c, oc = Some c ∧
    commit_of createId now (rq_sessionId input) (rq_parentRunId input) (rq_planId input) (rq_expectedRevision input)
      (rq_expectedPlanRevision input) es ("apply-" +:+ js_String (JInt (gr_revision plan + 1)))
      (decision_data plan D_replan "applied" "REPLAN_APPLIED" None None :: revised_data plan (pg_objective candidate) reuse
       :: ((λ s, Session.step_created (created_step (gr_planId plan) (gr_revision plan + 1) s)) <$> newSteps)) c.
Proof.
  unfold applied, request_commit. intros Hr Hnew. apply bind_Ok in Hr as (proofs & Hproofs & Hr).
  apply bind_Ok in Hr as (c & Hc & [= <- <-]). split; [done|]. exists c. split; [done|].
  eapply replan_commit_Ok; [exact Hc|]. constructor; [apply decisionDraft_decodes|].
  constructor; [by apply revisedDraft_decodes|]. apply Forall2_fmap. clear Hc.
  induction Hnew as [|s l [Hs Ha] _ IH]; constructor; [by apply stepDraft_decodes|done].
Qed.

(** The steps of a candidate are pending and without attempts. *)
Lemma candidate_fresh admission plan_id options v g :
  validateOptions admission = Ok options → validate options plan_id v = Ok g →
  Forall (λ s, st_state s = S_pending ∧ st_attemptIds s = []) (pg_steps g).
Proof.
  intros [Hk _]%validateOptions_Ok (p & _ & _ & Hf & _)%validate_parts; [|done].
  apply Forall_forall. intros s Hs. by destruct (Forall2_r_elem _ _ _ _ Hf Hs) as (q & _ & _ & ? & ? & _).
Qed.
End Facts.
