(* ===== verification/ReplanSafe.v ===== *)
(** * Limits and safety of revisions

    How often a run may revise a plan, what a revision may keep, and what the
    recorded decisions leave alone. *)

From S2P Require Import Prelude Js JsOps Json CanonicalJson Plan PlanSpec Subagent Session SessionReducer SessionEntry SessionEntrySpec SessionCommit JournalDrafts DagScheduler PlanValidator PlanAdmission Replan ReplanFacts.
Local Open Scope Z_scope.

(** ** Decisions of the planner *)

Section Decisions.
Context `{JsEngine} `{JsCrypto} `{RP : ReviewPlanContract}.

Definition decision_action (v : jsval) : PlannerDecisionActionV3 := enum_cast D_ask_user v.

Lemma enumValue_cast `{JsEnum A} d v (a : A) : enumValue A v = Ok a → a = enum_cast d v.
Proof. unfold enumValue, enum_cast. destruct (enum_of v); [by intros [= ->]|done]. Qed.

Lemma decision_value_decodes plan decision runId planId :
  decodes_to (journal_draft runId planId (decision_value plan decision))
    (typed runId planId (decision_data plan (decision_action (dc_action decision)) "selected" (dc_reasonCode decision)
      (dc_stepId decision) (dc_attemptId decision))).
Proof.
  split; [done|]. intros rv data. cbn [journal_draft dr_data dr_type decision_value fst snd fields_of].
  intros Hd%decision_decode. destruct decision as [action reason [s|] [a|]]; cbn [dc_action dc_reasonCode dc_stepId dc_attemptId opt_prop app] in *;
    unfold plan_decision_recorded_payload in Hd; inv_ok;
    match goal with He : enumValue _ ?v = Ok _ |- _ =>
      cbn [get String.eqb Ascii.eqb Bool.eqb] in He; pose proof (enumValue_cast D_ask_user _ _ He) as Hcast; clear He end;
    read_payload; done.
Qed.

(** What is recorded of a decision, and under which key. *)
Lemma recordDecision_Ok createId now request pj es d c :
  recordDecision createId now request pj es = Ok (d, c) →
  ∃ input plan, request = JObj input ∧ pj_planGraph pj = Some plan ∧ gr_planId plan = js_str (input .: "planId") ∧
    validatePlannerDecisionV1 (input .: "decision") = Ok d ∧ decision_target plan d = Ok tt ∧
    commit_of createId now (js_str (input .: "sessionId")) (js_str (input .: "parentRunId")) (js_str (input .: "planId"))
      (js_int (input .: "expectedRevision")) (js_int (input .: "expectedPlanRevision")) es
      ("decision-" +:+ js_String (dc_action d))
      [decision_data plan (decision_action (dc_action d)) "selected" (dc_reasonCode d) (dc_stepId d) (dc_attemptId d)] c.
Proof.
  unfold recordDecision. intros Hr. apply bind_Ok in Hr as (input & Hin & Hr). destruct request; try done. injection Hin as ->.
  repeat inv_ok_step.
  match goal with Hp : requirePlanRevisionOf _ _ _ = Ok _ |- _ => unfold requirePlanRevisionOf in Hp; rename Hp into Hplan end.
  destruct (pj_planGraph pj) as [plan|]; [|done]. repeat inv_ok_step. simplify_eq. split_bool.
  do 2 eexists. split_and!; try done; [by apply dec_stable|].
  eapply replan_commit_Ok; [done|]. constructor; [apply decision_value_decodes|constructor].
Qed.
End Decisions.

(** ** How many revisions *)

Lemma count_replans_app run plan o a b : count_replans run plan o (a ++ b) = count_replans run plan o a + count_replans run plan o b.
Proof. unfold count_replans. by rewrite List.filter_app, length_app, Nat2Z.inj_add. Qed.

(** The data of a replan decision of the run about the plan. *)
Definition replan_data (runId run plan o : string) (data : SessionEntryData) : bool :=
  match data with
  | plan_decision_recorded d =>
      bool_decide (Some runId = Some run) && bool_decide (pd_planId d = plan)
      && match pd_action d with D_replan => true | _ => false end && bool_decide (pd_outcome d = o)
  | _ => false
  end.
Lemma count_commit createId now sid runId planId rev prev es suffix datas c run plan o `{JsEngine} `{JsCrypto} `{RP : ReviewPlanContract} :
  commit_of createId now sid runId planId rev prev es suffix datas c →
  count_replans run plan o (sc_entries c) = Z.of_nat (length (List.filter (replan_data runId run plan o) datas)).
Proof.
  intros Hc. rewrite (co_entries _ _ _ _ _ _ _ _ _ _ _ Hc). unfold count_replans. f_equal.
  rewrite imap_fmap. apply filter_imap. intros i data. done.
Qed.

Lemma count_decision runId plan o reason rest run pl o' :
  List.filter (replan_data runId run pl o') rest = [] →
  Z.of_nat (length (List.filter (replan_data runId run pl o') (decision_data plan D_replan o reason None None :: rest))) =
    if decide (run = runId ∧ pl = gr_planId plan ∧ o' = o) then 1 else 0.
Proof.
  intros Hrest. cbn [List.filter replan_data decision_data pd_planId pd_action pd_outcome].
  case_decide as Hd.
  - destruct Hd as (-> & -> & ->). rewrite !bool_decide_eq_true_2 by done. cbn. by rewrite Hrest.
  - repeat case_bool_decide; cbn; rewrite Hrest; try done. exfalso. apply Hd. split_and!; congruence.
Qed.

Section Limits.
Context `{JsEngine} `{JsCrypto} `{RP : ReviewPlanContract}.

Definition records_replan (e : SessionEntryV3) : bool :=
  match en_data e with
  | plan_decision_recorded d => match pd_action d with D_replan => true | _ => false end
  | _ => false
  end.

(** A journal, the entries of it that the coordinator appended, and those that others
    appended, each in their order. *)
Record Growth := { gw_journal : list SessionEntryV3; gw_own : list SessionEntryV3; gw_others : list SessionEntryV3 }.
Definition own_growth (g : Growth) (added : list SessionEntryV3) : Growth :=
  {| gw_journal := gw_journal g ++ added; gw_own := gw_own g ++ added; gw_others := gw_others g |}.
Definition other_growth (g : Growth) (added : list SessionEntryV3) : Growth :=
  {| gw_journal := gw_journal g ++ added; gw_own := gw_own g; gw_others := gw_others g ++ added |}.
Definition no_growth : Growth := {| gw_journal := []; gw_own := []; gw_others := [] |}.

(** How a journal grows: by what the coordinator appends, whatever its request and
    projection are, and by any entries of others. *)
Inductive planner_step (g : Growth) : Growth → Prop :=
| step_replan admission plan_id createId now request pj r c :
    replan admission plan_id createId now request pj (gw_journal g) = Ok (r, Some c) → planner_step g (own_growth g (sc_entries c))
| step_decision createId now request pj d c :
    recordDecision createId now request pj (gw_journal g) = Ok (d, c) → planner_step g (own_growth g (sc_entries c))
| step_others added : planner_step g (other_growth g added).

Definition within_limits (es : list SessionEntryV3) : Prop :=
  ∀ run plan, count_replans run plan "applied" es ≤ 1 ∧ count_replans run plan "no_progress" es ≤ 2.

Lemma others_no_replan run plan o added :
  Forall (λ e, records_replan e = false) added → count_replans run plan o added = 0.
Proof.
  unfold count_replans. induction 1 as [|e added He _ IH]; [done|]. cbn [List.filter].
  assert (replan_entry run plan o e = false) as ->; [|done].
  unfold replan_entry, records_replan in *. destruct (en_data e); try done. destruct (pd_action _); try done; by rewrite andb_false_r.
Qed.

Lemma replan_counts admission plan_id createId now request pj es r c :
  replan admission plan_id createId now request pj es = Ok (r, Some c) →
  ∃ run0 plan0 o, (o = "applied"%string ∧ count_replans run0 plan0 o es < 1 ∨ o = "no_progress"%string ∧ count_replans run0 plan0 o es < 2) ∧
    ∀ run plan o', count_replans run plan o' (sc_entries c) ≤ (if decide (run = run0 ∧ plan = plan0 ∧ o' = o) then 1 else 0).
Proof.
  intros (input & plan & reuse & options & g & new & Hr & Hb)%replan_Ok.
  pose proof (candidate_fresh _ _ _ _ _ (rr_options _ _ _ _ _ _ _ _ _ _ _ Hr) (rr_candidate _ _ _ _ _ _ _ _ _ _ _ Hr)) as Hfresh.
  exists (rq_parentRunId input), (rq_planId input). destruct (samePlanDefinition plan g).
  - apply no_progress_Ok in Hb as [(_ & _ & [=])|(Hlt & c' & [= <-] & _ & Hc)]; [|apply Hr].
    exists "no_progress"%string. split; [by right|]. intros run pl o'. rewrite (count_commit _ _ _ _ _ _ _ _ _ _ _ _ _ _ Hc).
    rewrite count_decision by by case_match. rewrite (rr_planId _ _ _ _ _ _ _ _ _ _ _ Hr). done.
  - apply applied_Ok in Hb as (_ & c' & [= <-] & Hc).
    2:{ rewrite (rr_new _ _ _ _ _ _ _ _ _ _ _ Hr). apply Forall_forall. intros s Hs%list_elem_of_In%filter_In.
        rewrite Forall_forall in Hfresh. apply Hfresh, list_elem_of_In, Hs. }
    exists "applied"%string. split; [left; split; [done|apply Hr]|]. intros run pl o'. rewrite (count_commit _ _ _ _ _ _ _ _ _ _ _ _ _ _ Hc).
    rewrite count_decision; [by rewrite (rr_planId _ _ _ _ _ _ _ _ _ _ _ Hr)|].
    cbn [List.filter replan_data revised_data]. generalize new. intros l. by induction l as [|s l IHl]; [done|cbn].
Qed.

Lemma decision_counts createId now request pj es d c run plan o :
  recordDecision createId now request pj es = Ok (d, c) → o ≠ "selected"%string → count_replans run plan o (sc_entries c) = 0.
Proof.
  intros (input & pl & _ & _ & _ & _ & _ & Hc)%recordDecision_Ok Ho. rewrite (count_commit _ _ _ _ _ _ _ _ _ _ _ _ _ _ Hc).
  cbn [List.filter replan_data decision_data pd_outcome]. rewrite (bool_decide_eq_false_2 ("selected"%string = o)) by done.
  by rewrite andb_false_r.
Qed.

(** What the coordinator appended is in the journal, with what others appended. *)
Lemma growth_counts g run plan o :
  rtc planner_step no_growth g →
  count_replans run plan o (gw_journal g) = count_replans run plan o (gw_own g) + count_replans run plan o (gw_others g).
Proof.
  assert (count_replans run plan o (gw_journal no_growth) =
    count_replans run plan o (gw_own no_growth) + count_replans run plan o (gw_others no_growth)) as Hnil by done.
  intros Hsteps. revert Hnil. induction Hsteps as [g|g g1 g2 Hstep _ IH]; intros Hg; [done|]. apply IH.
  destruct Hstep; cbn [gw_journal gw_own gw_others own_growth other_growth]; rewrite !count_replans_app; lia.
Qed.

(** C24 Revisions are bounded: however the coordinator is called and whatever others
    append in between, replan decisions included, the coordinator records for a run
    at most one applied revision of a plan and at most two attempts without progress,
    so it does not replan for ever; and where the others record no replan, these are
    the bounds of the whole journal. *)
Theorem replan_bounded g : rtc planner_step no_growth g →
  within_limits (gw_own g) ∧ (Forall (λ e, records_replan e = false) (gw_others g) → within_limits (gw_journal g)).
Proof.
  intros Hsteps. assert (within_limits (gw_own g)) as Hown.
  2:{ split; [done|]. intros Hothers run plan. rewrite !growth_counts, !(others_no_replan _ _ _ _ Hothers) by done.
      destruct (Hown run plan). lia. }
  revert g Hsteps. refine (rtc_ind_r _ _ _ _); [intros run plan; split; discriminate|]. intros g1 g2 Hreach Hstep IH run plan.
  destruct (IH run plan) as [Ha Hn]. pose proof (λ o, growth_counts g1 run plan o Hreach) as Hcount.
  assert (∀ o, 0 ≤ count_replans run plan o (gw_others g1)) as Hpos by (intros o; unfold count_replans; lia).
  destruct Hstep as [admission plan_id createId now request pj r c Hr|createId now request pj d c Hd|added];
    cbn [gw_own own_growth other_growth]; rewrite ?count_replans_app; [| |done].
  - apply replan_counts in Hr as (run0 & plan0 & o & Hlt & Hc).
    pose proof (Hc run plan "applied"%string) as Hca. pose proof (Hc run plan "no_progress"%string) as Hcn.
    pose proof (Hcount o) as Hco. pose proof (Hpos o).
    destruct Hlt as [[-> Hlt]|[-> Hlt]]; repeat case_decide; destruct_and?; simplify_eq; lia.
  - rewrite !(decision_counts _ _ _ _ _ _ _ _ _ _ Hd) by done. lia.
Qed.
End Limits.

(** ** What a revision keeps *)

Section Safe.
Context `{JsEngine} `{JsCrypto} `{RP : ReviewPlanContract}.

Lemma reuse_items_Ok plan keys ids items reuse :
  reuse_items plan keys ids items = Ok reuse →
  NoDup (ru_priorStepId <$> reuse) ∧ NoDup (ru_proposalKey <$> reuse) ∧
  Forall (λ k, k ∉ ids) (ru_priorStepId <$> reuse) ∧ Forall (λ k, k ∉ keys) (ru_proposalKey <$> reuse) ∧
  Forall (λ k, ∃ s, s ∈ gr_steps plan ∧ sp_stepId s = k) (ru_priorStepId <$> reuse).
Proof.
  revert keys ids reuse. induction items as [|item items IH]; intros keys ids reuse Hr.
  { injection Hr as <-. cbn. split_and!; constructor. }
  cbn [reuse_items] in Hr. destruct item as [| | | | |o| |]; try discriminate Hr. repeat inv_ok_step. subst reuse. split_bool.
  match goal with Hx : reuse_items _ _ _ _ = Ok _ |- _ => destruct (IH _ _ _ Hx) as (Hd1 & Hd2 & Hn1 & Hn2 & Hin) end.
  match goal with Hx : existsb _ (gr_steps plan) = true |- _ => apply existsb_true in Hx as (s & Hs & Heq%String.eqb_eq) end.
  repeat match goal with Hx : memb _ _ = false |- _ => apply memb_false in Hx end.
  rewrite !fmap_cons, !NoDup_cons, !Forall_cons. cbn [ru_priorStepId ru_proposalKey].
  rewrite !Forall_forall in *. split_and!; try done; try set_solver.
Qed.

Lemma validateReuse_Ok plan v reuse : validateReuse v plan = Ok reuse →
  NoDup (ru_priorStepId <$> reuse) ∧ NoDup (ru_proposalKey <$> reuse) ∧
  Forall (λ k, ∃ s, s ∈ gr_steps plan ∧ sp_stepId s = k) (ru_priorStepId <$> reuse).
Proof.
  unfold validateReuse. intros Hr. inv_ok. match goal with Hx : reuse_items _ _ _ _ = Ok _ |- _ => destruct (reuse_items_Ok _ _ _ _ _ Hx) as (? & ? & _ & _ & ?) end. done.
Qed.

(** The step [prior] of the plan may stay as the step [next] of the candidate. *)
Record reusable (plan : SessionPlanGraphProjectionV3) (candidate : PlanGraphV1) (reused : list string) (item : ReplanStepReuseV1)
    (prior : SessionStepProjectionV3) (next : PlanStepV1) (latest : SessionAttemptProjectionV3) : Prop := {
  re_prior : findb (λ step, String.eqb (sp_stepId step) (ru_priorStepId item)) (gr_steps plan) = Some prior;
  re_next : next ∈ pg_steps candidate ∧ st_stepId next = ru_priorStepId item;
  re_latest : latest_attempt prior = Some latest;
  re_succeeded : sp_state prior = S_succeeded;
  re_verified : ap_state latest = A_verified;
  re_digest : packet_digest latest = Some (ru_nextInputDigest item);
  re_definition : sameStepDefinition prior next = true;
  re_dependencies : ∀ d, d ∈ sp_dependencies prior → d ∈ reused;
}.

Lemma check_reuse_Ok plan candidate reuse item :
  check_reuse plan candidate reuse item = Ok tt →
  ∃ prior next latest, reusable plan candidate (ru_priorStepId <$> reuse) item prior next latest.
Proof.
  unfold check_reuse, requireStep. intros Hc. apply bind_Ok in Hc as (prior & Hprior & Hc).
  destruct (findb _ (gr_steps plan)) as [prior'|] eqn:Hf; [|done]. injection Hprior as ->. apply fail_if_Ok in Hc.
  destruct (findb _ (pg_steps candidate)) as [next|] eqn:Hn; [|done].
  destruct (latest_attempt prior) as [latest|] eqn:Hl; [|done]. split_bool.
  apply findb_Some in Hn as [Hin Hid%String.eqb_eq]. exists prior, next, latest. split; try done; try by apply dec_stable.
  intros d Hd. match goal with He : existsb _ _ = false |- _ => rewrite existsb_false, Forall_forall in He; specialize (He d Hd) end.
  split_bool. match goal with He : existsb _ _ = true |- _ => apply existsb_true in He as (other & Ho & Heq%String.eqb_eq) end.
  rewrite <-Heq. by apply list_elem_of_fmap_2.
Qed.

(** The kept and the new steps are those of the candidate. *)
Lemma kept_and_new (reused : list string) (steps : list PlanStepV1) :
  NoDup (st_stepId <$> steps) → NoDup reused → (∀ k, k ∈ reused → k ∈ st_stepId <$> steps) →
  st_stepId <$> steps ≡ₚ reused ++ (st_stepId <$> List.filter (λ step, negb (memb (st_stepId step) reused)) steps).
Proof.
  intros Hs Hr Hin. apply NoDup_Permutation; [done| |].
  - apply NoDup_app. split_and!; [done| |].
    + intros k Hk (s & -> & Hf)%list_elem_of_fmap. apply filter_elem in Hf as [_ Hf]. split_bool.
      by apply memb_false in Hf.
    + eapply sublist_NoDup; [exact Hs|apply fmap_sublist, filter_sublist_list].
  - intros k. rewrite elem_of_app. split.
    + intros (s & -> & Hf)%list_elem_of_fmap. destruct (memb (st_stepId s) reused) eqn:Hm; [left; by apply memb_true|right].
      apply list_elem_of_fmap_2, filter_elem. by rewrite Hm.
    + intros [Hk|(s & -> & Hf)%list_elem_of_fmap]; [by apply Hin|].
      apply list_elem_of_fmap_2. by apply filter_elem in Hf as [? _].
Qed.

End Safe.
