(* ===== verification/ReplanReplay.v ===== *)
(** * Revisions and the journal: coordinator and reducer together

    Every commit of the replan coordinator is accepted by the reducer of the
    journal that it was decided on, and its effect on the plan is the outcome
    that the caller is told. *)

From S2P Require Import Prelude Js JsOps Json CanonicalJson Graph Samples Plan PlanSpec Subagent Session SessionReducer SessionSamples SessionInv SessionLife SessionPlan SessionReady SessionEntry SessionCommit JournalDrafts DraftReplay DagScheduler PlanValidator PlanAdmission Replan ReplanFacts ReplanSafe.
Local Open Scope Z_scope.

(** ** The abstract effect *)

Definition kept_steps (p : MutablePlan) (reused : list string) : list (string * MutableStep) :=
  omap (λ k, pair k <$> mget k (mp_steps p)) reused.
Definition added_step (s : PlanStepV1) : string * MutableStep := (st_stepId s, new_step (created_step "" 0 s)).
Definition revised_plan (p : MutablePlan) (objective : string) (reused : list string) (newSteps : list PlanStepV1) : MutablePlan :=
  {| mp_planId := mp_planId p; mp_revision := mp_revision p + 1; mp_objective := objective; mp_state := P_running;
     mp_steps := kept_steps p reused ++ (added_step <$> newSteps) |}.

(** The plan after the outcome. *)
Definition replanned (p : MutablePlan) (candidate : PlanGraphV1) (r : ReplanResultV1) : MutablePlan :=
  match r with
  | replan_applied _ _ _ reused new =>
      revised_plan p (pg_objective candidate) reused (List.filter (λ s, memb (st_stepId s) new) (pg_steps candidate))
  | replan_no_progress _ => p
  | replan_blocked _ => if decide (mp_state p = P_running) then with_plan_state p P_blocked else p
  end.

(** ** The projection of the plan *)

Section Present.
Context `{JsEngine} (ids : list string) (p : MutablePlan) (g : SessionPlanGraphProjectionV3).
Hypothesis Hpres : project_present p = Ok g.
Hypothesis Hshape : plan_shape ids p.

Lemma present_elem k ms : mget k (mp_steps p) = Some ms → project_step ms ∈ gr_steps g.
Proof.
  intros Hk%mget_elem_inv. destruct (project_present_Ok _ _ Hpres) as (-> & _).
  apply list_elem_of_fmap_2, js_sort_elem. by apply (list_elem_of_fmap_2 snd) in Hk.
Qed.

Lemma idle_plan : existsb step_at_work (gr_steps g) = false → existsb (λ kv, active_step kv.2) (mp_steps p) = false.
Proof.
  rewrite !existsb_false, !Forall_forall. intros Hidle [k ms] Hin. cbn [snd].
  pose proof (ps_steps _ _ Hshape _ _ Hin) as Hss.
  specialize (Hidle (project_step ms)). unfold step_at_work in Hidle. unfold active_step.
  assert (project_step ms ∈ gr_steps g) as Hg by (eapply present_elem, mget_elem; [apply Hshape|exact Hin]).
  specialize (Hidle Hg). split_bool. rewrite orb_false_iff. split; [done|].
  rewrite !existsb_false, !Forall_forall in *. intros [ka a] Ha. cbn [snd].
  match goal with Hx : ∀ x, x ∈ sp_attempts _ → _ |- _ => specialize (Hx (project_attempt a)); apply Hx end.
  cbn [project_step sp_attempts]. rewrite (ordered_attempts_id _ _ _ Hss).
  apply list_elem_of_fmap_2. by apply (list_elem_of_fmap_2 snd) in Ha.
Qed.

(** The latest attempt of a projected step is that of the step. *)
Lemma latest_attempt_present k ms : step_shape ids k ms →
  latest_attempt (project_step ms) = project_attempt <$> latestStepAttempt ms.
Proof.
  intros Hss. unfold latest_attempt, latestStepAttempt. cbn [project_step sp_attempts]. rewrite (ordered_attempts_id _ _ _ Hss).
  rewrite js_sort_fmap. by destruct (js_sort _ (ms_attempts ms).*2).
Qed.

(** A step that the coordinator lets stay is one that the reducer lets stay. *)
Lemma reuse_step_present candidate reuse item prior next latest :
  reusable g candidate (ru_priorStepId <$> reuse) item prior next latest →
  ∃ ms, mget (ru_priorStepId item) (mp_steps p) = Some ms ∧ ms_stepId ms = ru_priorStepId item ∧
    reuse_step p (proof_data g <$> reuse) (proof_data g item) = Ok ms.
Proof.
  intros [Hprior [_ _] Hlatest Hsucc Hver Hdig _ Hdeps].
  pose proof Hprior as [Hin Hid%String.eqb_eq]%findb_Some.
  destruct (present_step _ _ _ _ Hpres Hshape Hin) as (ms & Hms & Hss & -> & _). rewrite Hid in Hms, Hss.
  exists ms. split; [done|]. split; [by apply (ssh_id _ _ _ Hss)|].
  rewrite (latest_attempt_present _ _ Hss) in Hlatest.
  destruct (latestStepAttempt ms) as [a|] eqn:Ha; [|done]. injection Hlatest as <-.
  unfold reuse_step. cbn [proof_data rp_stepId rp_previousInputDigest rp_nextInputDigest]. rewrite Hprior. cbn [mbind option_bind].
  rewrite (latest_attempt_present _ _ Hss), Ha. cbn [fmap option_fmap option_map mbind option_bind]. rewrite Hdig. cbn [default from_option id].
  rewrite Hms. cbn [required_value mbind res_bind]. rewrite Ha. cbn [required_value mbind res_bind].
  change (ms_state ms) with (sp_state (project_step ms)). change (ma_state a) with (ap_state (project_attempt a)).
  rewrite Hsucc, Hver, !bool_decide_eq_false_2 by auto.
  assert (existsb (λ d, negb (existsb (λ c, bool_decide (rp_stepId c = d)) (proof_data g <$> reuse))) (ms_dependencies ms) = false) as ->;
    [|done].
  apply existsb_false, Forall_forall. intros d (other & -> & Ho)%Hdeps%list_elem_of_fmap. apply negb_false_iff, existsb_true.
  exists (proof_data g other). split; [by apply list_elem_of_fmap_2|]. cbn. by rewrite bool_decide_eq_true_2.
Qed.

Lemma reuse_steps_present candidate reuse todo acc :
  Forall (λ item, ∃ prior next latest, reusable g candidate (ru_priorStepId <$> reuse) item prior next latest) todo →
  NoDup (ru_priorStepId <$> todo) → Forall (λ item, ru_priorStepId item ∉ acc.*1) todo →
  reuse_steps p (proof_data g <$> reuse) (proof_data g <$> todo) acc = Ok (acc ++ kept_steps p (ru_priorStepId <$> todo)).
Proof.
  intros Hall. revert acc. induction Hall as [|item todo (prior & next & latest & Hr) _ IH]; intros acc Hnd Hacc.
  { by rewrite app_nil_r. }
  apply Forall_cons in Hacc as [Ha Hacc]. rewrite fmap_cons in Hnd. apply NoDup_cons in Hnd as [Hn Hnd].
  destruct (reuse_step_present _ _ _ _ _ _ Hr) as (ms & Hms & Hid & Hs). rewrite !fmap_cons. cbn [reuse_steps]. rewrite Hs.
  cbn [mbind res_bind]. rewrite Hid, mset_fresh by done. rewrite IH; [|done|].
  - rewrite <-app_assoc. unfold kept_steps at 2. cbn [omap list_omap]. by rewrite Hms.
  - apply Forall_forall. intros other Ho. rewrite Forall_forall in Hacc. rewrite fmap_app, not_elem_of_app. split; [by apply Hacc|].
    intros Heq%list_elem_of_singleton. apply Hn. cbn in Heq. rewrite <-Heq. by apply list_elem_of_fmap_2.
Qed.
End Present.

(** ** The drafts *)

Lemma kept_keys p reused : (kept_steps p reused).*1 ⊆ reused.
Proof.
  intros k ([k' ms] & -> & Hin)%list_elem_of_fmap. apply list_elem_of_omap in Hin as (x & Hx & Heq).
  apply fmap_Some in Heq as (m & _ & [= -> ->]). done.
Qed.

Lemma on_step_created_run ids p s planId rev :
  planId = mp_planId p → rev = mp_revision p → stable_id "step" (st_stepId s) ∉ ids → st_stepId s ∉ (mp_steps p).*1 →
  on_step_created ids (Some p) (created_step planId rev s) =
    Ok (stable_id "step" (st_stepId s) :: ids, with_steps p (mp_steps p ++ [added_step s])).
Proof.
  intros -> -> Hid Hn. unfold on_step_created. rewrite (proj2 (requirePlanRevision_Ok _ _ _ p)) by done.
  cbn [mbind res_bind sd_stepId created_step]. unfold useStableId. rewrite useId_fresh by done. cbn [mbind res_bind].
  rewrite (proj2 (mget_None (st_stepId s) (mp_steps p))) by done. cbn. by rewrite mset_fresh.
Qed.

Lemma step_step `{JsEngine} runId rid pid planId rev v s :
  planId = mp_planId (dv_plan v) → rev = mp_revision (dv_plan v) →
  stable_id "step" (st_stepId s) ∉ dv_ids v → st_stepId s ∉ (mp_steps (dv_plan v)).*1 →
  draft_step runId v (typed rid pid (Session.step_created (created_step planId rev s))) =
    Ok {| dv_ids := stable_id "step" (st_stepId s) :: dv_ids v;
          dv_plan := with_steps (dv_plan v) (mp_steps (dv_plan v) ++ [added_step s]); dv_runs := dv_runs v |}.
Proof. intros Hid Hrev H1 H2. unfold draft_step, typed. cbn [snd]. by rewrite on_step_created_run. Qed.

Lemma created_steps_run `{JsEngine} runId rid pid planId rev newSteps v :
  planId = mp_planId (dv_plan v) → rev = mp_revision (dv_plan v) → NoDup (st_stepId <$> newSteps) →
  Forall (λ s, stable_id "step" (st_stepId s) ∉ dv_ids v ∧ st_stepId s ∉ (mp_steps (dv_plan v)).*1) newSteps →
  ∃ ids, draft_steps runId v ((λ s, typed rid pid (Session.step_created (created_step planId rev s))) <$> newSteps) =
    Ok {| dv_ids := ids; dv_plan := with_steps (dv_plan v) (mp_steps (dv_plan v) ++ (added_step <$> newSteps)); dv_runs := dv_runs v |}.
Proof.
  revert v. induction newSteps as [|s newSteps IH]; intros v Hid Hrev Hnd Hall.
  { exists (dv_ids v). destruct v as [i [] r]. cbn. unfold with_steps. cbn. by rewrite app_nil_r. }
  apply Forall_cons in Hall as [[Hs1 Hs2] Hall]. rewrite fmap_cons in Hnd. apply NoDup_cons in Hnd as [Hn Hnd].
  rewrite fmap_cons. cbn [draft_steps]. rewrite step_step by done. cbn [mbind res_bind].
  match goal with |- context [draft_steps _ ?w _] => set (v1 := w) end.
  destruct (IH v1) as (ids & Hsteps); [done|done|done| |].
  - eapply Forall_impl; [apply Forall_and; split; [exact Hall|]|].
    + apply Forall_forall. intros t Ht. instantiate (1 := λ t, st_stepId t ≠ st_stepId s). cbn. intros Heq.
      apply Hn. rewrite <-Heq. by apply list_elem_of_fmap_2.
    + cbn. intros t [[Ht1 Ht2] Hne]. rewrite fmap_app. split.
      * apply not_elem_of_cons. split; [by intros ?%stable_id_inj|done].
      * apply not_elem_of_app. split; [done|]. by intros ?%list_elem_of_singleton.
  - exists ids. rewrite Hsteps. unfold v1, with_steps. cbn. rewrite <-app_assoc. done.
Qed.

(** The identities of new steps come from the runtime. *)
Lemma new_step_id admission plan_id options plan reuse v g s `{JsEngine} :
  validateOptions admission = Ok options → validate options (replan_id plan_id plan reuse) v = Ok g →
  s ∈ pg_steps g → st_stepId s ∉ ru_priorStepId <$> reuse → ∃ key, st_stepId s = plan_id id_step key.
Proof.
  intros [Hk _]%validateOptions_Ok (q & _ & _ & Hf & _)%validate_parts Hs Hn; [|done].
  destruct (Forall2_r_elem _ _ _ _ Hf Hs) as (ps & _ & _ & _ & _ & _ & _ & Hid & _).
  exists (ps_key ps). unfold admitted_id, replan_id in Hid.
  destruct (findb _ reuse) as [item|] eqn:Hfind; [|done]. exfalso. apply Hn. rewrite Hid. cbn.
  apply findb_Some in Hfind as [Hin _]. by apply list_elem_of_fmap_2.
Qed.

Section Refinement.
Context `{JsEngine} `{JsCrypto} `{RP : ReviewPlanContract}.

Lemma decision_step runId rid pid v plan o reason :
  gr_planId plan = mp_planId (dv_plan v) → gr_revision plan = mp_revision (dv_plan v) →
  draft_step runId v (typed rid pid (decision_data plan D_replan o reason None None)) = Ok v.
Proof.
  intros Hid Hrev. unfold draft_step, decision_data, typed. cbn [snd]. unfold on_plan_decision_recorded. cbn [pd_planId pd_planRevision pd_stepId].
  rewrite (proj2 (requirePlanRevision_Ok _ _ _ (dv_plan v))) by done. by destruct v.
Qed.

Lemma blocked_step runId rid pid v plan :
  gr_planId plan = mp_planId (dv_plan v) → gr_revision plan = mp_revision (dv_plan v) → mp_state (dv_plan v) = P_running →
  draft_step runId v (typed rid pid (blocked_data plan)) = Ok (view_plan v (with_plan_state (dv_plan v) P_blocked)).
Proof.
  intros Hid Hrev Hst. unfold draft_step, blocked_data, typed. cbn [snd]. unfold on_plan_state_changed. cbn [psc_planId psc_planRevision psc_state].
  rewrite (proj2 (requirePlanRevision_Ok _ _ _ (dv_plan v))) by done. cbn [mbind res_bind]. by rewrite Hst.
Qed.

Lemma revised_step runId rid pid ids p runs plan candidate reuse objective :
  project_present p = Ok plan → plan_shape ids p → gr_state plan ∈ [P_running; P_blocked; P_failed] →
  existsb step_at_work (gr_steps plan) = false → NoDup (ru_priorStepId <$> reuse) →
  Forall (λ item, ∃ prior next latest, reusable plan candidate (ru_priorStepId <$> reuse) item prior next latest) reuse →
  draft_step runId {| dv_ids := ids; dv_plan := p; dv_runs := runs |} (typed rid pid (revised_data plan objective reuse)) =
    Ok {| dv_ids := ids; dv_plan := revised_plan p objective (ru_priorStepId <$> reuse) []; dv_runs := runs |}.
Proof.
  intros Hpres Hshape Hst Hidle Hnd Hall. unfold draft_step, revised_data, typed. cbn [snd dv_plan]. unfold on_plan_revised.
  cbn [pr_planId pr_fromRevision pr_toRevision pr_objective pr_reuseProofs].
  destruct (project_present_Ok _ _ Hpres) as (_ & _ & _ & _ & _ & _ & _ & _ & _ & Hid & Hrev & _ & Hstate).
  rewrite (proj2 (requirePlanRevision_Ok _ _ _ p)) by done. cbn [mbind res_bind].
  rewrite <-Hstate, (proj2 (one_of_elem _ _)) by done. rewrite Hrev, Z.eqb_refl, (idle_plan _ _ _ Hpres Hshape Hidle).
  cbn [negb orb reject_if fail_if mbind res_bind].
  rewrite (reuse_steps_present _ _ _ Hpres Hshape candidate) by (done || by apply Forall_forall; intros ? _; apply not_elem_of_nil).
  cbn [mbind res_bind fmap res_fmap view_plan dv_ids dv_runs]. unfold revised_plan. by rewrite app_nil_r.
Qed.

(** The drafts of every commit have the effect of the outcome. *)
Lemma replan_drafts admission plan_id createId now request pj es r c st p :
  replan admission plan_id createId now request pj es = Ok (r, Some c) →
  (∃ plan, pj_planGraph pj = Some plan ∧ project_present p = Ok plan) → plan_shape (id_stableIds (ss_ids st)) p →
  (∀ key, stable_id "step" (plan_id id_step key) ∉ id_stableIds (ss_ids st)) →
  ∃ input plan reuse options candidate newSteps datas suffix ids,
    replan_ready admission plan_id request pj es input plan reuse options candidate newSteps ∧
    commit_of createId now (rq_sessionId input) (rq_parentRunId input) (rq_planId input) (rq_expectedRevision input)
      (rq_expectedPlanRevision input) es suffix datas c ∧ datas ≠ [] ∧
    draft_steps (rq_parentRunId input) {| dv_ids := id_stableIds (ss_ids st); dv_plan := p; dv_runs := ss_runs st |}
      (typed (rq_parentRunId input) (rq_planId input) <$> datas) =
      Ok {| dv_ids := ids; dv_plan := replanned p candidate r; dv_runs := ss_runs st |}.
Proof.
  intros (input & plan & reuse & options & g & newSteps & Hr & Hb)%replan_Ok (plan' & Hplan & Hpres) Hshape Hkeys.
  pose proof Hr as [_ Hplan' Hpid _ Hst Hidle _ _ _ Hreuse Hopt Hcand Hcheck Hnew _].
  assert (plan' = plan) as -> by congruence. clear Hplan.
  destruct (project_present_Ok _ _ Hpres) as (_ & _ & _ & _ & _ & _ & _ & _ & _ & Hid & Hrev & _ & Hstate).
  exists input, plan, reuse, options, g, newSteps. destruct (samePlanDefinition plan g).
  - apply no_progress_Ok in Hb as [(_ & _ & [=])|(_ & c' & [= <-] & -> & Hc)]; [|done].
    do 2 eexists. exists (id_stableIds (ss_ids st)). split; [done|]. split; [exact Hc|]. split; [done|].
    rewrite fmap_cons. cbn [draft_steps]. rewrite decision_step by done. cbn [mbind res_bind].
    destruct (2 <=? _); cbn [andb replanned]; [|done].
    rewrite Hstate. destruct (decide (mp_state p = P_running)) as [Hrun|Hrun]; [|by rewrite bool_decide_eq_false_2].
    rewrite bool_decide_eq_true_2 by done. cbn [fmap list_fmap draft_steps]. rewrite blocked_step by done. done.
  - pose proof (candidate_fresh _ _ _ _ _ Hopt Hcand) as Hfresh.
    assert (∀ s, s ∈ newSteps ↔ s ∈ pg_steps g ∧ st_stepId s ∉ ru_priorStepId <$> reuse) as Hin.
    { intros s. rewrite Hnew, filter_elem, negb_true_iff. by rewrite memb_false. }
    apply applied_Ok in Hb as (-> & c' & [= <-] & Hc).
    2:{ apply Forall_forall. intros s [Hs _]%Hin. rewrite Forall_forall in Hfresh. by apply Hfresh. }
    pose proof (validateReuse_Ok _ _ _ Hreuse) as (Hnd & _ & _).
    assert (NoDup (st_stepId <$> newSteps)) as Hnds.
    { rewrite Hnew. eapply sublist_NoDup; [|apply fmap_sublist, filter_sublist_list].
      pose proof Hopt as [Hk _]%validateOptions_Ok.
      pose proof Hcand as (q & _ & _ & _ & _ & _ & _ & Hg%validatePlanGraphV1_wf)%validate_parts; [|done]. apply Hg. }
    destruct (created_steps_run (rq_parentRunId input) (rq_parentRunId input) (rq_planId input)
      (gr_planId plan) (gr_revision plan + 1) newSteps {| dv_ids := id_stableIds (ss_ids st);
        dv_plan := revised_plan p (pg_objective g) (ru_priorStepId <$> reuse) []; dv_runs := ss_runs st |}) as (ids & Hsteps);
      [done|by rewrite Hrev|done| |].
    { apply Forall_forall. intros s [Hs Hn]%Hin. cbn [dv_ids dv_plan revised_plan mp_steps]. split.
      - destruct (new_step_id _ _ _ _ _ _ _ _ Hopt Hcand Hs Hn) as (key & ->). apply Hkeys.
      - rewrite app_nil_r. intros Hk%kept_keys. done. }
    do 2 eexists. exists ids. split; [done|]. split; [exact Hc|]. split; [done|].
    rewrite !fmap_cons. cbn [draft_steps]. rewrite decision_step by done. cbn [mbind res_bind].
    rewrite (revised_step _ _ _ _ _ _ _ g) by (done || by eapply Forall_impl; [exact Hcheck|]; intros item; apply check_reuse_Ok).
    cbn [mbind res_bind]. rewrite <-list_fmap_compose. unfold compose. rewrite Hsteps.
    assert (newSteps = List.filter (λ s, memb (st_stepId s) (st_stepId <$> newSteps)) (pg_steps g)) as Hsame.
    { rewrite Hnew at 1. apply List.filter_ext_in. intros s Hs%list_elem_of_In. apply eq_true_iff_eq.
      rewrite negb_true_iff, memb_false, memb_true. split; [intros; by apply list_elem_of_fmap_2, Hin|].
      by intros (t & -> & [_ Ht]%Hin)%list_elem_of_fmap. }
    do 2 f_equal. unfold replanned. rewrite <-Hsame. unfold with_steps, revised_plan. cbn. by rewrite app_nil_r.
Qed.

(** The history ends where the projection ends. *)
Lemma history_head es pj first data st now :
  reduceSessionEntriesV3 es = Ok pj → reduce_state es = Ok (first, data, st) →
  sn_sequence (pj_snapshot pj) = Z.of_nat (length es) ∧
  maxInstant now (ca_updatedAt (pj_catalog pj)) = match last es with Some e => maxInstant now (en_timestamp e) | None => now end.
Proof.
  intros (f & d & st' & Hst & Hp)%reduce_session_Ok Hst2. rewrite Hst in Hst2. injection Hst2 as <- <- <-.
  pose proof (project_session_Ok _ _ _ _ Hp) as (Hsn & _). rewrite (project_session_updated _ _ _ _ Hp), Hsn.
  split; [cbn; by eapply reduce_sequence_length|].
  by rewrite (oj_last _ _ (reduce_ordered _ _ _ _ Hst)).
Qed.

End Refinement.
