(* ===== verification/ReplanSamples.v ===== *)
(** * A revision of the sample plan

    The sample journal, in which the first step has succeeded, is revised: the first
    step is kept and the second is replaced.  Recorded decisions share a key. *)

From S2P Require Import Prelude Js JsOps Json CanonicalJson Graph Samples Plan PlanSpec Subagent Session SessionReducer SessionSamples SessionInv SessionLife SessionPlan SessionReady SessionEntry SessionCommit JournalDrafts DraftReplay DagScheduler DagSchedule ClaimReplay PlanValidator PlanAdmission Replan ReplanFacts ReplanSafe ReplanReplay.
Local Open Scope Z_scope.

Definition replan_admission : jsval :=
  JObj [("parentBudget", JObj [("maxTurns", JInt 10); ("maxToolCalls", JInt 10); ("maxChildRuns", JInt 4);
      ("maxParallelChildren", JInt 2); ("maxDepth", JInt 1)]);
    ("defaultStepBudget", JObj [("maxTurns", JInt 2)]);
    ("accessGrant", JObj [("mode", JStr "workspace_write"); ("paths", JStrs ["src"])]);
    ("allowedCapabilities", JStrs ["edit"]); ("allowedCriterionKinds", JStrs ["check"; "rule"])]%string.

Definition kept_step_js : jsval :=
  JObj [("key", JStr "kept"); ("title", JStr "A step");
    ("criteria", JArr [JObj [("kind", JStr "check"); ("description", JStr "passes")]]); ("conflictKeys", JStrs ["src"]);
    ("budget", JObj [("maxTurns", JInt 4); ("maxToolCalls", JInt 8)]); ("maxAttempts", JInt 2)]%string.
Definition other_step_js : jsval :=
  JObj [("key", JStr "other"); ("title", JStr "Another step"); ("dependencies", JStrs ["kept"]);
    ("criteria", JArr [JObj [("kind", JStr "rule"); ("description", JStr "holds")]])]%string.

Definition replan_request (steps : list jsval) : jsval :=
  JObj [("sessionId", JStr "s1"); ("parentRunId", JStr "r1"); ("planId", JStr "p1"); ("expectedRevision", JInt 1);
    ("expectedPlanRevision", JInt 1); ("proposal", JObj [("objective", JStr "Do it"); ("steps", JArr steps)]);
    ("reuse", JArr [JObj [("proposalKey", JStr "kept"); ("priorStepId", JStr "a"); ("nextInputDigest", JStr sample_digest)]])]%string.
Definition new_plan_id (kind : PlanRuntimeIdKindV1) (key : string) : string :=
  match kind with id_plan => "plan-" | id_step => "new-" | id_criterion => "criterion-" end +:+ key.

Definition sample_replan (steps : list jsval) : res (ReplanResultV1 * option SessionCommitV3) :=
  pj ← reduceSessionEntriesV3 sample_journal;
  replan replan_admission new_plan_id new_id instant (replan_request steps) pj sample_journal.

(** The sample journal is revised: one step kept, one new. *)
Example sample_replan_applied :
  fst <$> sample_replan [kept_step_js; other_step_js] = Ok (replan_applied "p1" 1 2 ["a"] ["new-other"])%string.
Proof. vm_compute. reflexivity. Qed.
(** A kept step that is defined otherwise is refused. *)
Example sample_replan_changed :
  fst <$> sample_replan [other_step_js; kept_step_js] = Err "REPLAN_REUSE_INVALID".
Proof. vm_compute. reflexivity. Qed.

Definition replan_check : bool :=
  match reduce_state sample_journal, sample_replan [kept_step_js; other_step_js] with
  | Ok (_, _, st), Ok (_, Some c) =>
      no_new_ids st && forallb (λ id, negb (String.prefix "step:new-" id)) (id_stableIds (ss_ids st))
      && (Z.of_nat (length (sample_journal ++ sc_entries c)) <=? MAX_ENTRIES) && String.eqb (sc_sessionId c) "s1"
  | _, _ => false
  end.

Lemma new_keys st key :
  forallb (λ id, negb (String.prefix "step:new-" id)) (id_stableIds (ss_ids st)) = true →
  stable_id "step" (new_plan_id id_step key) ∉ id_stableIds (ss_ids st).
Proof.
  rewrite forallb_true, Forall_forall. intros Hall Hin%Hall. revert Hin. unfold new_plan_id. destruct key; intros Hx; vm_compute in Hx; done.
Qed.

Lemma sample_session pj : reduceSessionEntriesV3 sample_journal = Ok pj → sn_sessionId (pj_snapshot pj) = "s1"%string.
Proof.
  assert (match reduceSessionEntriesV3 sample_journal with Ok p => String.eqb (sn_sessionId (pj_snapshot p)) "s1" | _ => false end = true)
    as Hc by (vm_compute; reflexivity).
  intros Hp. rewrite Hp in Hc. by apply String.eqb_eq.
Qed.



Lemma replan_bounded_witness : ∃ g, gw_own g ≠ [] ∧ rtc planner_step no_growth g ∧ within_limits (gw_own g) ∧ within_limits (gw_journal g).
Proof.
  assert (match sample_replan [kept_step_js; other_step_js] with Ok (_, Some c) => negb (Nat.eqb (length (sc_entries c)) 0) | _ => false end = true) as Hc by (vm_compute; reflexivity).
  assert (forallb (λ e, negb (records_replan e)) sample_journal = true) as Hj by (vm_compute; reflexivity).
  unfold sample_replan in Hc. destruct (reduceSessionEntriesV3 sample_journal) as [pj|] eqn:Hpj; [|discriminate Hc]. cbn [mbind res_bind] in Hc.
  destruct (replan _ _ _ _ _ _ _) as [[r [c|]]|] eqn:Hd; try discriminate Hc.
  assert (rtc planner_step no_growth (own_growth (other_growth no_growth sample_journal) (sc_entries c))) as Hsteps.
  { eapply rtc_l; [exact (step_others no_growth sample_journal)|]. eapply rtc_l; [|reflexivity].
    exact (step_replan (other_growth no_growth sample_journal) _ _ _ _ _ _ _ _ Hd). }
  assert (Forall (λ e, records_replan e = false) sample_journal) as Hothers.
  { apply Forall_forall. intros e He. rewrite forallb_true, Forall_forall in Hj. apply negb_true_iff, Hj, He. }
  destruct (replan_bounded _ Hsteps) as [Hown Hall]. eexists. split; [|split; [exact Hsteps|split; [exact Hown|exact (Hall Hothers)]]].
  cbn. intros Hnil. rewrite Hnil in Hc. discriminate Hc.
Defined.

(** ** Recorded decisions share a key *)

Section Keys.
Context `{JsEngine} `{JsCrypto} `{RP : ReviewPlanContract}.

(** The key of a decision is that of every decision with its action, whatever step
    and attempt it is about and however the journal has grown. *)
Lemma decision_key_shared createId now request input pj es d c createId' now' request' input' pj' es' d' c' :
  recordDecision createId now request pj es = Ok (d, c) → request = JObj input →
  recordDecision createId' now' request' pj' es' = Ok (d', c') → request' = JObj input' →
  input .: "parentRunId" = input' .: "parentRunId" → input .: "expectedPlanRevision" = input' .: "expectedPlanRevision" →
  dc_action d = dc_action d' → sc_idempotencyKey c = sc_idempotencyKey c'.
Proof.
  intros (i & plan & -> & _ & _ & _ & _ & Hc)%recordDecision_Ok [= ->] (i' & plan' & -> & _ & _ & _ & _ & Hc')%recordDecision_Ok [= ->] Hrun Hrev Ha.
  rewrite (co_key _ _ _ _ _ _ _ _ _ _ _ Hc), (co_key _ _ _ _ _ _ _ _ _ _ _ Hc'). by rewrite Hrun, Hrev, Ha.
Qed.
End Keys.

Definition ask_user (revision : Z) : jsval :=
  JObj [("sessionId", JStr "s1"); ("parentRunId", JStr "r1"); ("planId", JStr "p1"); ("expectedRevision", JInt revision);
    ("expectedPlanRevision", JInt 1); ("decision", JObj [("action", JStr "ask_user"); ("reasonCode", JStr "NEED_INPUT")])]%string.
(** The user is asked twice about one plan revision: the second commit follows the
    first in the journal, and has its key. *)
Definition asked_twice : res (SessionCommitV3 * SessionCommitV3) :=
  pj ← reduceSessionEntriesV3 sample_journal;
  first ← recordDecision new_id instant (ask_user 1) pj sample_journal;
  let after := sample_journal ++ sc_entries first.2 in
  pj ← reduceSessionEntriesV3 after;
  second ← recordDecision (λ n, new_id (n + 10)) instant (ask_user 2) pj after;
  Ok (first.2, second.2).
Example second_decision_conflicts :
  match asked_twice with
  | Ok (c, c') => String.eqb (sc_idempotencyKey c) (sc_idempotencyKey c') && negb (String.eqb (sc_commitId c) (sc_commitId c'))
  | Err _ => false
  end = true.
Proof. vm_compute. reflexivity. Qed.

(** An array of one action passes for the action, with no check of its step. *)
Example decision_of_array :
  dc_action <$> validatePlannerDecisionV1 (JObj [("action", JStrs ["retry"]); ("reasonCode", JStr "R")]%string) = Ok (JStrs ["retry"])%string.
Proof. vm_compute. reflexivity. Qed.
