(* ===== verification/SqliteStore.v ===== *)
(** * The SQLite store: apps/runtime/src/session-db/sqliteSessionJournalV3.ts

    The other durable implementation of the commit store.  A table is the list of
    its rows in the order of their insertion; a column of JSON text holds the text,
    except that of a projection, which holds the projection (texts of projections
    are compared as the projections).  An operation is a computation over the
    connection, whose transaction is a second database until it is committed; a
    statement that violates a constraint ends with the error of the driver.  The
    promise chain that makes the appends of a process one after the other is not
    modelled; another process shows in the answer to BEGIN IMMEDIATE. *)

From S2P Require Import Prelude Js JsOps Json CanonicalJson Plan Session SessionReducer SessionEntry SessionCommit SessionPort Jsonl.
Local Open Scope Z_scope.

Definition SCHEMA_VERSION : Z := 1.
Definition BUSY_TIMEOUT_MS : Z := 5000.
Definition MAX_READ_PAGE : Z := 512.

Inductive SqliteSessionJournalFaultPointV3 :=
| after_commit_row | after_entries | after_projection | before_transaction_commit.

Record SqliteSessionJournalProfileV3 := {
  pf_schemaVersion : Z;
  pf_journalMode : string;
  pf_synchronous : Z;
  pf_busyTimeoutMs : Z;
  pf_foreignKeys : bool;
}.

(** ** The database *)

Record SessionRow := {
  sr_session_id : string;
  sr_revision : Z;
  sr_sequence : Z;
  sr_projection_json : SessionProjectionV3;
  sr_updated_at : string;
}.
Record CommitRow := {
  cm_session_id : string;
  cm_revision : Z;
  cm_commit_id : string;
  cm_idempotency_key : string;
  cm_checksum : string;
  cm_first_sequence : Z;
  cm_last_sequence : Z;
  cm_commit_json : string;
}.
Record EntryRow := {
  er_session_id : string;
  er_sequence : Z;
  er_revision : Z;
  er_entry_id : string;
  er_entry_type : string;
  er_entry_json : string;
}.
Record Tables := {
  tb_metadata : list (string * string);
  tb_sessions : list SessionRow;
  tb_commits : list CommitRow;
  tb_entries : list EntryRow;
}.
Record Database := { da_user_version : Z; da_tables : option Tables }.
Definition empty_database : Database := {| da_user_version := 0; da_tables := None |}.

(** [#database] and its transaction. *)
Record Connection := { cn_open : bool; cn_durable : Database; cn_transaction : option Database }.

(** What SQLite leaves open: which row a query with LIMIT 1 and no ORDER BY
    returns, the answers to BEGIN IMMEDIATE and to COMMIT, the pragmas of the
    connection, and the rows of the integrity check. *)
Class SqliteEngine := {
  first_row : list CommitRow → option CommitRow;
  begin_immediate : res unit;
  commit_result : res unit;
  pragma : string → jsval;
  integrity_rows : list string;
}.
(** The documented behaviour of LIMIT 1. *)
Class SqliteLaws `{SqliteEngine} := {
  first_row_some : ∀ l r, first_row l = Some r → r ∈ l;
  first_row_none : ∀ l, first_row l = None → l = [];
}.

Definition Sq (A : Type) : Type := Connection → res A * Connection.
#[export] Instance sq_ret : MRet Sq := λ A a s, (Ok a, s).
#[export] Instance sq_bind : MBind Sq := λ A B f m s,
  match m s with
  | (Ok a, s') => f a s'
  | (Err code, s') => (Err code, s')
  end.
Definition lift {A} (r : res A) : Sq A := λ s, (r, s).

(** Errors of the driver. *)
Definition SQLITE_ERROR : string := "ERR_SQLITE_ERROR".
Definition SQLITE_BUSY : string := "SQLITE_BUSY".

(** Statements see the database of the transaction. *)
Definition database_of (s : Connection) : Database := default (cn_durable s) (cn_transaction s).
Definition with_database (s : Connection) (d : Database) : Connection :=
  match cn_transaction s with
  | Some _ => {| cn_open := cn_open s; cn_durable := cn_durable s; cn_transaction := Some d |}
  | None => {| cn_open := cn_open s; cn_durable := d; cn_transaction := None |}
  end.
Definition select {A} (f : Tables → A) : Sq A := λ s,
  (match da_tables (database_of s) with Some t => Ok (f t) | None => Err SQLITE_ERROR end, s).
Definition update (f : Tables → Tables) : Sq unit := λ s,
  (Ok tt, with_database s {| da_user_version := da_user_version (database_of s); da_tables := f <$> da_tables (database_of s) |}).
Definition constraint (holds : Tables → bool) : Sq unit := b ← select holds; lift (fail_if (negb b) SQLITE_ERROR).

Section Statements.
Context `{SqliteEngine}.

Definition exec_begin : Sq unit := λ s,
  match cn_transaction s, begin_immediate with
  | Some _, _ => (Err SQLITE_ERROR, s)
  | None, Err code => (Err code, s)
  | None, Ok _ => (Ok tt, {| cn_open := cn_open s; cn_durable := cn_durable s; cn_transaction := Some (cn_durable s) |})
  end.
Definition exec_commit : Sq unit := λ s,
  match cn_transaction s, commit_result with
  | None, _ => (Err SQLITE_ERROR, s)
  | Some _, Err code => (Err code, s)
  | Some d, Ok _ => (Ok tt, {| cn_open := cn_open s; cn_durable := d; cn_transaction := None |})
  end.
Definition exec_rollback : Sq unit := λ s,
  match cn_transaction s with
  | None => (Err SQLITE_ERROR, s)
  | Some _ => (Ok tt, {| cn_open := cn_open s; cn_durable := cn_durable s; cn_transaction := None |})
  end.
(** [try { m } catch (error) { try { ROLLBACK } catch {} throw error }]. *)
Definition or_rollback {A} (m : Sq A) : Sq A := λ s,
  match m s with
  | (Err code, s') => (Err code, (exec_rollback s').2)
  | r => r
  end.
End Statements.

(** ** Errors *)

(** [mapSqliteError]: a [RuntimeError] stays. *)
Definition mapSqliteError (code : string) : string :=
  if bool_decide (code = SyntaxError) then "PERSISTENCE_INVALID_DATA"
  else if bool_decide (code = SQLITE_BUSY) then "SESSION_WRITE_CONFLICT"
  else if bool_decide (code = SQLITE_ERROR) then "PERSISTENCE_IO_ERROR"
  else code.
Definition run {A} (m : Sq A) : Sq A := λ s,
  match m s with
  | (Err code, s') => (Err (mapSqliteError code), s')
  | r => r
  end.

(** ** Pragmas and the schema *)

Section Schema.
Context `{SqliteEngine}.

(** The first column of the row of PRAGMA; no row reads [undefined].  A number
    that is not an integer is none of the values that the code compares with. *)
Definition pragma_value (name : string) : Sq jsval := λ s,
  (Ok (if bool_decide (name = "user_version"%string) then JInt (da_user_version (database_of s)) else pragma name), s).
Definition pragmaNumber (name : string) : Sq Z :=
  value ← pragma_value name;
  lift (match value with JNum (NInt n) => Ok n | JNum _ => Ok (-1) | _ => Err SyntaxError end).
Definition pragmaString (name : string) : Sq string :=
  value ← pragma_value name;
  lift (match value with JStr s => Ok s | _ => Err SyntaxError end).

(** [toLowerCase] of a name in ASCII. *)
Fixpoint lower (s : string) : string :=
  match s with
  | EmptyString => EmptyString
  | String a s => String (if is_upper a then ascii_of_nat (nat_of_ascii a + 32) else a) (lower s)
  end.

Definition profile_rejected (p : SqliteSessionJournalProfileV3) : bool :=
  negb (pf_schemaVersion p =? SCHEMA_VERSION) || bool_decide (pf_journalMode p ≠ "wal"%string)
  || negb (pf_synchronous p =? 2) || negb (pf_busyTimeoutMs p =? BUSY_TIMEOUT_MS) || negb (pf_foreignKeys p).
Definition validateProfile : Sq SqliteSessionJournalProfileV3 :=
  schemaVersion ← pragmaNumber "user_version";
  journalMode ← pragmaString "journal_mode";
  synchronous ← pragmaNumber "synchronous";
  busyTimeoutMs ← pragmaNumber "busy_timeout";
  foreignKeys ← pragmaNumber "foreign_keys";
  let profile := {| pf_schemaVersion := schemaVersion; pf_journalMode := lower journalMode;
    pf_synchronous := synchronous; pf_busyTimeoutMs := busyTimeoutMs; pf_foreignKeys := foreignKeys =? 1 |} in
  lift (fail_if (profile_rejected profile) "SESSION_SQLITE_PROFILE_INVALID");;
  mret profile.

Definition validateSchemaMetadata : Sq unit :=
  rows ← select tb_metadata;
  let metadata := mof rows in
  lift (fail_if (negb (bool_decide (mget "backend" metadata = Some "sqlite"%string))
                 || negb (bool_decide (mget "schema_version" metadata = Some (pretty SCHEMA_VERSION)))) SyntaxError).

(** CREATE TABLE fails on a table that exists. *)
Definition create_tables : Sq unit := λ s,
  match da_tables (database_of s) with
  | Some _ => (Err SQLITE_ERROR, s)
  | None => (Ok tt, with_database s {| da_user_version := da_user_version (database_of s);
      da_tables := Some {| tb_metadata := []; tb_sessions := []; tb_commits := []; tb_entries := [] |} |})
  end.
Definition insert_metadata (rows : list (string * string)) : Sq unit :=
  constraint (λ t, negb (existsb (λ row, memb row.1 (tb_metadata t).*1) rows));;
  update (λ t, {| tb_metadata := tb_metadata t ++ rows; tb_sessions := tb_sessions t; tb_commits := tb_commits t;
                  tb_entries := tb_entries t |}).
Definition set_user_version (version : Z) : Sq unit := λ s,
  (Ok tt, with_database s {| da_user_version := version; da_tables := da_tables (database_of s) |}).

Definition migrate : Sq unit :=
  current ← pragmaNumber "user_version";
  lift (fail_if (SCHEMA_VERSION <? current) "SESSION_STORE_VERSION_UNSUPPORTED");;
  if current =? SCHEMA_VERSION then validateSchemaMetadata
  else
    exec_begin;;
    or_rollback (
      create_tables;;
      insert_metadata [("backend", "sqlite"); ("schema_version", pretty SCHEMA_VERSION)]%string;;
      set_user_version SCHEMA_VERSION;;
      exec_commit).

Definition close : Sq unit := λ s,
  (Ok tt, {| cn_open := false; cn_durable := cn_durable s; cn_transaction := None |}).

(** [initialize], from the open file on. *)
Definition initialize : Sq unit := λ s,
  if cn_open s then (Ok tt, s)
  else match (migrate;; validateProfile) s with
       | (Ok _, s') => (Ok tt, {| cn_open := true; cn_durable := cn_durable s'; cn_transaction := cn_transaction s' |})
       | (Err code, s') => (Err (mapSqliteError code), (close s').2)
       end.
(** [database()]. *)
Definition database : Sq unit := λ s, (fail_if (negb (cn_open s)) "SESSION_JOURNAL_NOT_INITIALIZED", s).
Definition profile : Sq SqliteSessionJournalProfileV3 := database;; validateProfile.
End Schema.

(** ** Statements of the journal *)

Section Store.
Context `{JsEngine} `{JsCrypto} `{RP : ReviewPlanContract} `{SqliteEngine}.
(** The fault injector of the tests. *)
Context (inject : SqliteSessionJournalFaultPointV3 → res unit).

Definition in_session {A} (session_id : A → string) (sessionId : string) (row : A) : bool :=
  bool_decide (session_id row = sessionId).
Definition json_text (value : jsval) : string := default "" (JSON_stringify value).
Definition parse_text (text : string) : res jsval :=
  match JSON_parse text with Some value => Ok value | None => Err SyntaxError end.

(** SELECT revision, sequence FROM sessions WHERE session_id = ? *)
Definition session_row (sessionId : string) : Sq (option SessionRow) :=
  select (λ t, head (List.filter (in_session sr_session_id sessionId) (tb_sessions t))).
Definition head_of_row (row : SessionRow) : SessionJournalHeadV3 :=
  {| hd_revision := sr_revision row; hd_sequence := sr_sequence row |}.

Definition parseEntry (input : string) : res (SessionEntryV3 * jsval) :=
  rethrow SyntaxError (value ← parse_text input; entry ← validateSessionEntryV3 value; Ok (entry, value)).
Definition loadAllEntries (sessionId : string) : Sq (list SessionEntryV3) :=
  rows ← select (λ t, order_by (by_int er_sequence) (List.filter (in_session er_session_id sessionId) (tb_entries t)));
  lift (entries ← mapM (λ row, parseEntry (er_entry_json row)) rows; Ok entries.*1).

Definition duplicate_row (candidate : SessionCommitV3) (row : CommitRow) : bool :=
  in_session cm_session_id (sc_sessionId candidate) row
  && (bool_decide (cm_commit_id row = sc_commitId candidate)
      || bool_decide (cm_idempotency_key row = sc_idempotencyKey candidate)).
Definition conflicting_row (candidate : SessionCommitV3) (row : CommitRow) : bool :=
  bool_decide (cm_commit_id row ≠ sc_commitId candidate)
  || bool_decide (cm_idempotency_key row ≠ sc_idempotencyKey candidate)
  || bool_decide (cm_checksum row ≠ sc_checksum candidate).
Definition parseCommit (text : string) : res SessionCommitV3 :=
  rethrow SyntaxError (value ← parse_text text; validateSessionCommitV3 value).
Definition findDuplicate (candidate : SessionCommitV3) : Sq (option SessionCommitV3) :=
  row ← select (λ t, first_row (List.filter (duplicate_row candidate) (tb_commits t)));
  match row with
  | None => mret None
  | Some row =>
      lift (fail_if (conflicting_row candidate row) "SESSION_COMMIT_IDEMPOTENCY_CONFLICT");;
      commit ← lift (parseCommit (cm_commit_json row)); mret (Some commit)
  end.

(** The primary key, the two unique keys and the checks of commits. *)
Definition commit_admitted (row : CommitRow) (t : Tables) : bool :=
  (0 <? cm_revision row) && (0 <? cm_first_sequence row) && (cm_first_sequence row <=? cm_last_sequence row)
  && negb (existsb (λ other, in_session cm_session_id (cm_session_id row) other
            && ((cm_revision other =? cm_revision row) || bool_decide (cm_commit_id other = cm_commit_id row)
                || bool_decide (cm_idempotency_key other = cm_idempotency_key row))) (tb_commits t)).
Definition insert_commit (row : CommitRow) : Sq unit :=
  constraint (commit_admitted row);;
  update (λ t, {| tb_metadata := tb_metadata t; tb_sessions := tb_sessions t; tb_commits := tb_commits t ++ [row];
                  tb_entries := tb_entries t |}).
(** Those of entries, with the foreign key to the commit. *)
Definition entry_admitted (row : EntryRow) (t : Tables) : bool :=
  (0 <? er_sequence row) && (0 <? er_revision row)
  && negb (existsb (λ other, in_session er_session_id (er_session_id row) other
            && ((er_sequence other =? er_sequence row) || bool_decide (er_entry_id other = er_entry_id row))) (tb_entries t))
  && existsb (λ commit, in_session cm_session_id (er_session_id row) commit && (cm_revision commit =? er_revision row))
       (tb_commits t).
Definition insert_entry (row : EntryRow) : Sq unit :=
  constraint (entry_admitted row);;
  update (λ t, {| tb_metadata := tb_metadata t; tb_sessions := tb_sessions t; tb_commits := tb_commits t;
                  tb_entries := tb_entries t ++ [row] |}).
Fixpoint insert_entries (rows : list EntryRow) : Sq unit :=
  match rows with
  | [] => mret tt
  | row :: rows => insert_entry row;; insert_entries rows
  end.
(** INSERT INTO sessions ... ON CONFLICT(session_id) DO UPDATE. *)
Definition put_session (row : SessionRow) (rows : list SessionRow) : list SessionRow :=
  if existsb (in_session sr_session_id (sr_session_id row)) rows
  then (λ other, if in_session sr_session_id (sr_session_id row) other then row else other) <$> rows
  else rows ++ [row].
Definition upsert_session (row : SessionRow) : Sq unit :=
  constraint (λ t, (0 <? sr_revision row) && (0 <? sr_sequence row));;
  update (λ t, {| tb_metadata := tb_metadata t; tb_sessions := put_session row (tb_sessions t); tb_commits := tb_commits t;
                  tb_entries := tb_entries t |}).

Definition commit_row (commit : SessionCommitV3) : CommitRow :=
  {| cm_session_id := sc_sessionId commit; cm_revision := sc_expectedRevision commit + 1;
     cm_commit_id := sc_commitId commit; cm_idempotency_key := sc_idempotencyKey commit;
     cm_checksum := sc_checksum commit; cm_first_sequence := first_sequence commit;
     cm_last_sequence := last_sequence commit; cm_commit_json := json_text (SessionCommit_js commit) |}.
Definition entry_row (entry : SessionEntryV3) (value : jsval) : EntryRow :=
  {| er_session_id := en_sessionId entry; er_sequence := en_sequence entry; er_revision := en_revision entry;
     er_entry_id := en_entryId entry; er_entry_type := js_str ((fields_of value) .: "type");
     er_entry_json := json_text value |}.
Definition entry_rows (commit : SessionCommitV3) : list EntryRow :=
  zip_with entry_row (sc_entries commit) (sc_values commit).
Definition projection_row (sessionId : string) (projection : SessionProjectionV3) : SessionRow :=
  {| sr_session_id := sessionId; sr_revision := sn_revision (pj_snapshot projection);
     sr_sequence := sn_sequence (pj_snapshot projection); sr_projection_json := projection;
     sr_updated_at := ca_updatedAt (pj_catalog projection) |}.

(** ** The commit store *)

Definition appendExclusive (commit : SessionCommitV3) : Sq SessionCommitReceiptV3 :=
  database;;
  exec_begin;;
  or_rollback (
    duplicate ← findDuplicate commit;
    match duplicate with
    | Some duplicate => exec_commit;; mret (sessionCommitReceiptV3 duplicate true)
    | None =>
        current ← session_row (sc_sessionId commit);
        lift (assertSessionCommitAgainstHeadV3 commit (head_of_row <$> current));;
        prior ← loadAllEntries (sc_sessionId commit);
        projection ← lift (reduceSessionEntriesV3 (prior ++ sc_entries commit));
        insert_commit (commit_row commit);;
        lift (inject after_commit_row);;
        insert_entries (entry_rows commit);;
        lift (inject after_entries);;
        upsert_session (projection_row (sc_sessionId commit) projection);;
        lift (inject after_projection);;
        lift (inject before_transaction_commit);;
        exec_commit;;
        mret (sessionCommitReceiptV3 commit false)
    end).
Definition appendCommit (input : jsval) : Sq SessionCommitReceiptV3 :=
  commit ← lift (validateSessionCommitV3 input); run (appendExclusive commit).

Definition validateReadInput (input : ReadSessionEntriesInputV3) : res unit :=
  fail_if (negb (SAFE_ID (ri_sessionId input))
           || match ri_afterSequence input with Some n => negb (nonNegativeInteger (JInt n)) | None => false end
           || match ri_limit input with
              | Some n => negb (isSafeInteger (JInt n)) || (n <? 1) || (MAX_READ_PAGE <? n)
              | None => false
              end
           || match ri_throughSequence input with Some n => negb (nonNegativeInteger (JInt n)) | None => false end)
    "SESSION_READ_INVALID".

Definition readEntries (input : ReadSessionEntriesInputV3) : Sq jsval := run (
  lift (validateReadInput input);;
  database;;
  row ← session_row (ri_sessionId input);
  head ← lift (match row with Some row => Ok (head_of_row row) | None => Err "SESSION_NOT_FOUND" end);
  let through := default (hd_sequence head) (ri_throughSequence input) in
  lift (fail_if (hd_sequence head <? through) "SESSION_READ_INVALID");;
  let after := default 0 (ri_afterSequence input) in
  rows ← select (λ t, limit (default MAX_READ_PAGE (ri_limit input)) (order_by (by_int er_sequence)
    (List.filter (λ row, in_session er_session_id (ri_sessionId input) row
                         && (after <? er_sequence row) && (er_sequence row <=? through)) (tb_entries t))));
  entries ← lift (mapM (λ row, parseEntry (er_entry_json row)) rows);
  let nextAfterSequence := default after (en_sequence ∘ fst <$> last entries) in
  mret (JObj [("sessionId", JStr (ri_sessionId input)); ("entries", JArr entries.*2);
              ("nextAfterSequence", JInt nextAfterSequence); ("hasMore", JBool (nextAfterSequence <? through)%Z);
              ("head", JObj [("revision", JInt (hd_revision head)); ("sequence", JInt (hd_sequence head))])]%string)).

Definition listSessionIds : Sq (list string) := run (
  database;; select (λ t, sr_session_id <$> order_by (by_text sr_session_id) (tb_sessions t))).

(** [parseProjection], after the parse. *)
Definition parseProjection (projection : SessionProjectionV3) (sessionId : string) : res SessionProjectionV3 :=
  fail_if (bool_decide (sn_sessionId (pj_snapshot projection) ≠ sessionId)
           || bool_decide (ca_sessionId (pj_catalog projection) ≠ sessionId)) SyntaxError;;
  Ok projection.
Definition projectionHasRecoverableRun (projection : SessionProjectionV3) : bool :=
  bool_decide (sn_lifecycle (pj_snapshot projection) = L_open)
  && existsb (λ run, bool_decide (rn_state run = R_running)) (sn_runs (pj_snapshot projection)).

(** [rows.filter(parse and test)]. *)
Fixpoint recoverable_ids (rows : list SessionRow) : res (list string) :=
  match rows with
  | [] => Ok []
  | row :: rows =>
      projection ← parseProjection (sr_projection_json row) (sr_session_id row);
      rest ← recoverable_ids rows;
      Ok (if projectionHasRecoverableRun projection then sr_session_id row :: rest else rest)
  end.
Definition listRecoverableSessionIds : Sq (list string) := run (
  database;;
  rows ← select (λ t, order_by (by_text sr_session_id) (tb_sessions t));
  lift (recoverable_ids rows)).

Definition loadCachedProjection (sessionId : string) : Sq SessionProjectionV3 := run (
  database;;
  row ← session_row sessionId;
  lift (match row with
        | Some row => parseProjection (sr_projection_json row) sessionId
        | None => Err "SESSION_NOT_FOUND"
        end)).

(** [JSON.stringify(rebuilt) !== JSON.stringify(cached)] throws. *)
Fixpoint scrub_sessions (sessionIds : list string) : Sq unit :=
  match sessionIds with
  | [] => mret tt
  | sessionId :: sessionIds =>
      entries ← loadAllEntries sessionId;
      rebuilt ← lift (reduceSessionEntriesV3 entries);
      cached ← loadCachedProjection sessionId;
      lift (fail_if (bool_decide (rebuilt ≠ cached)) SyntaxError);;
      scrub_sessions sessionIds
  end.
(** The number of sessions and the report. *)
Definition deepScrub : Sq (Z * string) := run (
  database;;
  let integrity := join "; " integrity_rows in
  lift (fail_if (bool_decide (integrity ≠ "ok"%string)) SyntaxError);;
  sessionIds ← listSessionIds;
  scrub_sessions sessionIds;;
  mret (Z.of_nat (length sessionIds), integrity)).

Definition readCommits (sessionId : string) : Sq (list SessionCommitV3) := run (
  database;;
  rows ← select (λ t, order_by (by_int cm_revision) (List.filter (in_session cm_session_id sessionId) (tb_commits t)));
  lift (fail_if (is_nil rows) "SESSION_NOT_FOUND");;
  lift (mapM (λ row, parseCommit (cm_commit_json row)) rows)).
End Store.
