(* ===== verification/SqliteSpec.v ===== *)
(** * What the SQLite store guarantees

    The store keeps a journal per session: an append is the one of the abstract
    journal below, or changes nothing; a read is a page of the journal; and the
    store answers like the JSONL store. *)

From S2P Require Import Prelude Js JsOps Json JsonSpec CanonicalJson Samples Plan Session SessionReducer SessionSamples SessionInv SessionLife SessionEntry SessionEntrySpec SessionCommit SessionPort SessionPortSpec Jsonl JsonlStore JsonlLines JsonlJournal JsonlCrash JsonlAppend JsonlSafe JsonlRead JsonlSamples SqliteStore.
Local Open Scope Z_scope.

Section Spec.
Context `{JsEngine} `{JsCrypto} `{RP : ReviewPlanContract}.

(** ** The abstract journal *)

(** The commits of one session, and an append of the commit: the receipt and the
    journal after it. *)
Definition journal_append (cs : list SessionCommitV3) (c : SessionCommitV3) :
    res (SessionCommitReceiptV3 * list SessionCommitV3) :=
  duplicate ← Jsonl.findDuplicate (createRecord <$> cs) c;
  match duplicate with
  | Some x => Ok (sessionCommitReceiptV3 x true, cs)
  | None =>
      assertSessionCommitAgainstHeadV3 c (journal_head (commit_entries cs));;
      reduceSessionEntriesV3 (commit_entries cs ++ sc_entries c);;
      Ok (sessionCommitReceiptV3 c false, cs ++ [c])
  end.
Lemma journal_append_first c receipt cs : journal_append [] c = Ok (receipt, cs) → cs = [c].
Proof. unfold journal_append. cbn [fmap list_fmap Jsonl.findDuplicate mbind res_bind]. intros Hi. by inv_ok. Qed.
(** A page of it. *)
Definition journal_read (cs : list SessionCommitV3) (request : ReadSessionEntriesInputV3) : res jsval :=
  SessionPort.validateReadInput request;;
  fail_if (is_nil cs) "SESSION_NOT_FOUND";;
  fail_if (Z.of_nat (length (commit_entries cs)) <? default (Z.of_nat (length (commit_entries cs))) (ri_throughSequence request))
    "SESSION_READ_INVALID";;
  Ok (page_of (commit_values cs) (revision_of cs) request).

(** No two commits share an identity or a key. *)
Definition distinct (cs : list SessionCommitV3) : Prop :=
  ∀ i j x y, cs !! i = Some x → cs !! j = Some y → ¬ unrelated x y → i = j.
Lemma distinct_snoc cs c : distinct cs → Forall (unrelated c) cs → distinct (cs ++ [c]).
Proof.
  intros Hd Hf i j x y Hx Hy Hrel. rewrite Forall_lookup in Hf.
  apply lookup_app_Some in Hx as [Hx|[Hi Hx]], Hy as [Hy|[Hj Hy]].
  - by eapply Hd.
  - apply list_lookup_singleton_Some in Hy as [Hj' <-]. exfalso. apply Hrel. destruct (Hf _ _ Hx). by split; apply not_eq_sym.
  - apply list_lookup_singleton_Some in Hx as [Hi' <-]. exfalso. apply Hrel. by apply (Hf j).
  - apply list_lookup_singleton_Some in Hx as [? _], Hy as [? _]. lia.
Qed.

(** ** The commits of a journal *)

Lemma commit_fields_ok sid c :
  commit_ok sid c →
  0 ≤ sc_expectedRevision c ∧ sc_entries c ≠ [] ∧ length (sc_values c) = length (sc_entries c) ∧
  Forall (λ e, en_sessionId e = sid ∧ en_revision e = sc_expectedRevision c + 1) (sc_entries c) ∧
  (sc_expectedRevision c > 0 → Forall (λ e, is_created e = false) (sc_entries c)).
Proof.
  intros [Hv <- _]. unfold validateSessionCommitV3, SessionCommit_js in Hv. cbn [mbind res_bind] in Hv.
  apply bind_Ok in Hv as ([] & Hrej%fail_if_Ok & Hv). apply bind_Ok in Hv as (entries & He & Hv). apply bind_Ok in Hv as ([] & Hg & Hv).
  apply bind_Ok in Hv as ([] & Hg2 & Hv). apply bind_Ok in Hv as (sum & _ & Hv). apply bind_Ok in Hv as ([] & _ & Hv).
  assert (entries = sc_entries c) as -> by (apply (f_equal (λ r, match r with Ok x => sc_entries x | Err _ => [] end)) in Hv; exact Hv).
  clear Hv. apply fail_if_Ok, orb_false_iff in Hg as [Hg _]. apply existsb_false in Hg. apply fail_if_Ok, orb_false_iff in Hg2 as [_ Hg2].
  cbn [get commit_fields app String.eqb Ascii.eqb Bool.eqb js_arr js_int JInt js_str] in *.
  unfold commit_rejected in Hrej. rewrite !orb_false_iff, !negb_false_iff in Hrej. destruct Hrej as [[[[[[[[[_ _] _] _] Hr] _] _] Hn] _] _].
  cbn [get commit_fields app String.eqb Ascii.eqb Bool.eqb js_arr] in Hr, Hn. apply nonNegativeInteger_int in Hr.
  apply mapM_Ok in He as Hlen. apply Forall2_length in Hlen. apply Nat.eqb_neq in Hn. split_and!.
  - lia.
  - intros Hnil. rewrite Hnil in Hlen. cbn in Hlen. lia.
  - done.
  - eapply Forall_impl; [exact Hg|]. cbn beta. intros e [He1 He2]%orb_false_iff.
    apply bool_decide_eq_false, dec_stable in He1. apply negb_false_iff in He2. split; [done|lia].
  - intros Hpos. rewrite (proj2 (Z.ltb_lt _ _)) in Hg2 by lia. cbn [andb] in Hg2. by apply existsb_false in Hg2.
Qed.

(** Commit [i] of a journal is revision [i + 1]. *)
Lemma journal_last_revision sid cs c : commit_ok sid c →
  default 0 (hd_revision <$> journal_head (commit_entries (cs ++ [c]))) = sc_expectedRevision c + 1.
Proof.
  intros (_ & Hne & _ & Hall & _)%commit_fields_ok. rewrite commit_entries_app, commit_entries_one. unfold journal_head.
  rewrite last_app. destruct (last (sc_entries c)) as [e|] eqn:He; [|by apply last_None in He]. cbn.
  rewrite last_lookup in He. rewrite Forall_lookup in Hall. by apply (Hall _ e He).
Qed.
Lemma first_revision sid c cs : journal_ok sid (c :: cs) → sc_expectedRevision c = 0.
Proof.
  intros [Hall _ Hred]. specialize (Hred ltac:(done)). apply Forall_cons in Hall as [Hc _].
  destruct (commit_fields_ok _ _ Hc) as (Hpos & Hne & _ & _ & Hcreated).
  destruct (reduceSessionEntriesV3 _) as [pj|] eqn:Hr; [|done].
  apply reduce_session_Ok in Hr as (first & data & st & (rest & Hes & _ & Hd & _)%reduce_state_Ok & _).
  destruct (decide (sc_expectedRevision c = 0)) as [|Hn]; [done|]. exfalso. specialize (Hcreated ltac:(lia)).
  change (c :: cs) with ([c] ++ cs) in Hes. rewrite commit_entries_app, commit_entries_one in Hes.
  destruct (sc_entries c) as [|e es]; [done|]. injection Hes as -> _. apply Forall_cons in Hcreated as [Hf _].
  unfold is_created in Hf. by rewrite Hd in Hf.
Qed.
Lemma journal_revisions sid cs :
  journal_ok sid cs → ∀ i c, cs !! i = Some c → sc_expectedRevision c = Z.of_nat i.
Proof.
  intros Hok. pose proof Hok as [Hall Hch _].
  assert (∀ prior rest, cs = prior ++ rest → chained prior rest →
    (∀ x, last prior = Some x → sc_expectedRevision x + 1 = Z.of_nat (length prior)) →
    ∀ i c, rest !! i = Some c → sc_expectedRevision c = Z.of_nat (length prior + i)) as Hgo.
  { intros prior rest. revert prior. induction rest as [|r rest IH]; intros prior Hcs Hchain Hlast i c Hi; [done|].
    assert (commit_ok sid r) as Hr by (rewrite Hcs in Hall; apply Forall_app in Hall as [_ Hall]; by apply Forall_cons in Hall as [? _]).
    assert (sc_expectedRevision r = Z.of_nat (length prior)) as Hrev.
    { destruct Hchain as [[->|Hhead] _].
      - cbn in Hcs. subst cs. rewrite (first_revision sid r rest) by done. done.
      - unfold assertSessionCommitAgainstHeadV3 in Hhead. apply bind_Ok in Hhead as ([] & Hhead%fail_if_Ok & _).
        apply negb_false_iff, Z.eqb_eq in Hhead. destruct prior as [|p prior _] using rev_ind.
        + cbn in Hcs. subst cs. by rewrite (first_revision sid r rest).
        + rewrite last_snoc in Hlast. rewrite Hcs, Forall_app, Forall_app, Forall_singleton in Hall.
          rewrite (journal_last_revision sid prior p) in Hhead by apply Hall. rewrite Hhead. by apply Hlast. }
    destruct i as [|i]; cbn in Hi.
    - injection Hi as <-. rewrite Nat.add_0_r. done.
    - rewrite (IH (prior ++ [r])) with (i := i); rewrite ?length_app; cbn [length]; try done.
      + f_equal. lia.
      + rewrite Hcs. by rewrite <-app_assoc.
      + apply Hchain.
      + intros x. rewrite last_snoc. intros [= <-]. rewrite Hrev. lia. }
  intros i c Hi. rewrite (Hgo [] cs eq_refl Hch) with (i := i); done.
Qed.

(** ** Texts *)

Lemma text_parses v : json_ok v = true → parse_text (json_text v) = Ok v.
Proof.
  intros Hok. destruct (JSON_roundtrip v Hok) as (t & Ht & Hp). unfold parse_text, json_text. rewrite Ht. cbn [default from_option id].
  by rewrite Hp.
Qed.
Lemma commit_json sid c :
  commit_ok sid c → json_ok (SessionCommit_js c) = true ∧ Forall (λ v, json_ok v = true) (sc_values c).
Proof.
  intros [_ _ Hs]. unfold storable in Hs. apply andb_true_iff in Hs as [Hs _].
  assert (json_ok (SessionCommit_js c) = true) as Hc.
  { unfold JsonlCommitRecord_js, record_payload in Hs. cbn [json_ok app forallb snd rec_commit createRecord] in Hs.
    rewrite !andb_true_iff in Hs. tauto. }
  split; [done|]. unfold SessionCommit_js, commit_fields in Hc. cbn [json_ok app forallb snd] in Hc.
  rewrite !andb_true_iff in Hc. apply forallb_true. tauto.
Qed.
Lemma parseCommit_text sid c : commit_ok sid c → parseCommit (json_text (SessionCommit_js c)) = Ok c.
Proof.
  intros Hc. unfold parseCommit. rewrite text_parses by by eapply commit_json. cbn [mbind res_bind].
  by rewrite (jc_valid _ _ Hc).
Qed.
Lemma parseEntry_text e v :
  json_ok v = true → validateSessionEntryV3 v = Ok e → parseEntry (json_text v) = Ok (e, v).
Proof. intros Hv He. unfold parseEntry. rewrite text_parses by done. cbn [mbind res_bind]. by rewrite He. Qed.

Definition row_of (p : SessionEntryV3 * jsval) : EntryRow := entry_row p.1 p.2.
Definition journal_pairs (cs : list SessionCommitV3) : list (SessionEntryV3 * jsval) := zip (commit_entries cs) (commit_values cs).
Lemma zip_with_row es vs : zip_with entry_row es vs = row_of <$> zip es vs.
Proof. revert vs. induction es as [|e es IH]; intros [|v vs]; [done..|]. cbn. by rewrite IH. Qed.
Lemma journal_rows sid cs : Forall (commit_ok sid) cs → cs ≫= entry_rows = row_of <$> journal_pairs cs.
Proof.
  induction 1 as [|c cs Hc _ IH]; [done|]. unfold journal_pairs, commit_values, commit_entries, flattenEntries in *. cbn.
  rewrite IH. unfold entry_rows. rewrite zip_with_row. destruct (commit_fields_ok _ _ Hc) as (_ & _ & Hl & _).
  by rewrite zip_with_app, fmap_app by done.
Qed.
Lemma journal_lengths sid cs : Forall (commit_ok sid) cs → length (commit_entries cs) = length (commit_values cs).
Proof. intros Hall. symmetry. apply (journal_decoded sid) in Hall. apply mapM_Ok in Hall. by eapply Forall2_length. Qed.

Lemma pairs_parse sid cs (l : list (SessionEntryV3 * jsval)) :
  Forall (commit_ok sid) cs → l ⊆ journal_pairs cs → mapM (λ row, parseEntry (er_entry_json row)) (row_of <$> l) = Ok l.
Proof.
  intros Hall Hl. apply mapM_Ok, Forall2_fmap_l, Forall2_same_length_lookup. split; [done|].
  intros i p q Hp Hq. assert (p = q) as <- by congruence. assert (p ∈ journal_pairs cs) as Hin by (apply Hl; by eapply list_elem_of_lookup_2).
  destruct p as [e v]. unfold row_of. cbn [er_entry_json entry_row fst snd].
  apply list_elem_of_lookup in Hin as [j Hj]. unfold journal_pairs in Hj. apply lookup_zip_with_Some in Hj as (e' & v' & [= <- <-] & He & Hv).
  pose proof (journal_decoded sid cs Hall) as Hdec%mapM_Ok. apply parseEntry_text.
  - assert (v ∈ commit_values cs) as Hvin by (by eapply list_elem_of_lookup_2). unfold commit_values in Hvin.
    apply list_elem_of_bind in Hvin as (c & Hvc & Hc). rewrite Forall_forall in Hall. destruct (commit_json _ _ (Hall c Hc)) as [_ Hj].
    rewrite Forall_forall in Hj. by apply Hj.
  - eapply Forall2_lookup_lr in Hdec; [|exact Hv|exact He]. exact Hdec.
Qed.

(** Rows of numbered entries are in the order of their sequence. *)
Lemma rows_sorted sid (l : list (SessionEntryV3 * jsval)) n :
  numbered sid n l.*1 → order_by (by_int er_sequence) (row_of <$> l) = row_of <$> l.
Proof.
  intros Hn. apply js_sort_id. revert n Hn. induction l as [|p l IH]; intros n Hn; [constructor|]. cbn. constructor.
  - apply (IH (S n)). intros i e He. destruct (Hn (S i) e He) as [Hs ?]. split; [|done]. rewrite Hs. lia.
  - apply Forall_fmap, Forall_forall. intros q [i Hi]%list_elem_of_lookup. unfold compose, by_int, row_of. cbn [er_sequence entry_row].
    destruct (Hn 0%nat p.1 eq_refl) as [-> _]. destruct (Hn (S i) q.1) as [-> _]; [rewrite list_lookup_fmap; change (fst <$> l !! i = Some q.1); by rewrite Hi|].
    destruct (Z.compare_spec (Z.of_nat (n + 0) + 1) (Z.of_nat (n + S i) + 1)); [done|done|lia].
Qed.

(** ** The tables of journals *)

Definition session_rows (sid : string) (cs : list SessionCommitV3) : list SessionRow :=
  if is_nil cs then []
  else match reduceSessionEntriesV3 (commit_entries cs) with Ok projection => [projection_row sid projection] | Err _ => [] end.
(** The tables hold the journal [K sid] of every session, and its projection. *)
Record kept (t : Tables) (K : string → list SessionCommitV3) : Prop := {
  kp_metadata : tb_metadata t = [("backend", "sqlite"); ("schema_version", "1")]%string;
  kp_sessions : ∀ sid, List.filter (in_session sr_session_id sid) (tb_sessions t) = session_rows sid (K sid);
  kp_commits : ∀ sid, List.filter (in_session cm_session_id sid) (tb_commits t) = commit_row <$> K sid;
  kp_entries : ∀ sid, List.filter (in_session er_session_id sid) (tb_entries t) = row_of <$> journal_pairs (K sid);
  kp_journals : ∀ sid, journal_ok sid (K sid);
  kp_distinct : ∀ sid, distinct (K sid);
}.

Definition stored (t : Tables) : Database := {| da_user_version := 1; da_tables := Some t |}.
(** An open connection, and one in a transaction. *)
Definition idle (t : Tables) : Connection := {| cn_open := true; cn_durable := stored t; cn_transaction := None |}.
Definition within (t t' : Tables) : Connection :=
  {| cn_open := true; cn_durable := stored t; cn_transaction := Some (stored t') |}.

Lemma sq_step {A B} (m : Sq A) (k : A → Sq B) a s s' : m s = (Ok a, s') → (m ≫= k) s = k a s'.
Proof. unfold mbind, sq_bind. by intros ->. Qed.
Lemma sq_fail {A B} (m : Sq A) (k : A → Sq B) code s s' : m s = (Err code, s') → (m ≫= k) s = (Err code, s').
Proof. unfold mbind, sq_bind. by intros ->. Qed.
Lemma sq_lift {A B} (r : res A) (k : A → Sq B) a s : r = Ok a → (SqliteStore.lift r ≫= k) s = k a s.
Proof. by intros ->. Qed.

Definition sees (s : Connection) (t : Tables) : Prop := da_tables (database_of s) = Some t.
Lemma select_sees {A} (f : Tables → A) s t : sees s t → select f s = (Ok (f t), s).
Proof. unfold select, sees. by intros ->. Qed.

Section Reads.
Context (K : string → list SessionCommitV3) (t : Tables) (s : Connection).
Hypothesis Hkept : kept t K.
Hypothesis Hsees : sees s t.

Lemma session_row_kept sid : session_row sid s = (Ok (head (session_rows sid (K sid))), s).
Proof. unfold session_row. by rewrite (select_sees _ _ t), (kp_sessions _ _ Hkept). Qed.
Lemma head_kept sid : head_of_row <$> head (session_rows sid (K sid)) = journal_head (commit_entries (K sid)).
Proof.
  unfold session_rows. destruct (K sid) as [|c cs] eqn:HK; [done|]. cbn [is_nil]. rewrite <-HK.
  pose proof (jo_reduced _ _ (kp_journals _ _ Hkept sid) ltac:(by rewrite HK)) as Hred.
  destruct (reduceSessionEntriesV3 (commit_entries (K sid))) as [pj|] eqn:Hr; [|done].
  destruct (journal_order _ _ Hr) as (Hseq & _ & _ & Hlen & e & He & Hrev). unfold journal_head. rewrite He.
  cbn. unfold head_of_row. cbn [sr_revision sr_sequence projection_row]. rewrite Hrev, Hlen.
  rewrite last_lookup in He. destruct (Hseq _ _ He) as [-> _]. apply lookup_lt_Some in He. do 2 f_equal. lia.
Qed.
Lemma journal_pairs_numbered sid : numbered sid 0 (journal_pairs (K sid)).*1.
Proof.
  pose proof (kp_journals _ _ Hkept sid) as Hok. unfold journal_pairs.
  rewrite fst_zip by (rewrite (journal_lengths sid) by apply Hok; done). by apply journal_numbered.
Qed.
Lemma loadAllEntries_kept sid : loadAllEntries sid s = (Ok (commit_entries (K sid)), s).
Proof.
  unfold loadAllEntries. erewrite sq_step by by apply select_sees. rewrite (kp_entries _ _ Hkept).
  rewrite (rows_sorted sid _ 0) by apply journal_pairs_numbered.
  pose proof (kp_journals _ _ Hkept sid) as Hok. unfold SqliteStore.lift.
  rewrite (pairs_parse sid (K sid)) by first [apply Hok | done]. cbn [mbind res_bind]. unfold journal_pairs.
  by rewrite fst_zip by (rewrite (journal_lengths sid) by apply Hok; done).
Qed.

(** The query of duplicates agrees with the search of the journal, whichever row
    SQLite returns. *)
Lemma duplicate_rows c x :
  x ∈ List.filter (duplicate_row c) (tb_commits t) ↔
  ∃ y, x = commit_row y ∧ y ∈ K (sc_sessionId c) ∧ ¬ unrelated c y.
Proof.
  assert (List.filter (duplicate_row c) (tb_commits t) =
    List.filter (λ row, bool_decide (cm_commit_id row = sc_commitId c) || bool_decide (cm_idempotency_key row = sc_idempotencyKey c))
      (List.filter (in_session cm_session_id (sc_sessionId c)) (tb_commits t))) as ->.
  { generalize (tb_commits t) as l. intros l. induction l as [|r l IH]; [done|]. cbn. unfold duplicate_row at 1.
    destruct (in_session cm_session_id (sc_sessionId c) r); cbn; [|done]. destruct (_ || _); [f_equal|]; done. }
  rewrite (kp_commits _ _ Hkept), list_elem_of_In, List.filter_In, <-list_elem_of_In, list_elem_of_fmap. unfold unrelated. split.
  - intros [(y & -> & Hy) Hm]. exists y. split_and!; [done..|]. intros [Hid Hkey]. cbn in Hm. rewrite !bool_decide_eq_false_2 in Hm by done. done.
  - intros (y & -> & Hy & Hm). split; [by exists y|]. cbn. apply orb_true_iff. rewrite !bool_decide_eq_true.
    destruct (decide (sc_commitId y = sc_commitId c)); [by left|].
    destruct (decide (sc_idempotencyKey y = sc_idempotencyKey c)); [by right|tauto].
Qed.

Lemma conflicting_repeats c y : conflicting_row c (commit_row y) = false ↔ repeats c y.
Proof.
  unfold conflicting_row, repeats. cbn [cm_commit_id cm_idempotency_key cm_checksum commit_row].
  rewrite !orb_false_iff, !bool_decide_eq_false. split; [intros [[?%dec_stable ?%dec_stable] ?%dec_stable]|]; tauto.
Qed.
Lemma same_commit c x y :
  x ∈ K (sc_sessionId c) → y ∈ K (sc_sessionId c) → repeats c x → ¬ unrelated c y → x = y.
Proof.
  intros [i Hi]%list_elem_of_lookup [j Hj]%list_elem_of_lookup (Hid & Hkey & _) Hrel.
  assert (i = j) as ->; [|congruence]. apply (kp_distinct _ _ Hkept _ i j x y Hi Hj).
  intros [Hx1 Hx2]. apply Hrel. split; intros Heq; [apply Hx1|apply Hx2]; congruence.
Qed.
Lemma findDuplicate_kept `{SqliteLaws} c :
  SqliteStore.findDuplicate c s = (Jsonl.findDuplicate (createRecord <$> K (sc_sessionId c)) c, s).
Proof.
  unfold SqliteStore.findDuplicate. erewrite sq_step by by apply select_sees.
  pose proof (findDuplicate_spec (K (sc_sessionId c)) c) as Hspec.
  destruct (first_row _) as [r|] eqn:Hr.
  - apply first_row_some, duplicate_rows in Hr as (y & -> & Hy & Hrel).
    destruct (Jsonl.findDuplicate _ c) as [[x|]|code].
    + destruct Hspec as (before & after & HK & _ & Hrep). assert (x ∈ K (sc_sessionId c)) as Hx by (rewrite HK; set_solver).
      assert (x = y) as <- by by apply (same_commit c). pose proof (proj2 (conflicting_repeats c x) Hrep) as ->.
      cbn [fail_if]. erewrite sq_step by done. cbn [cm_commit_json commit_row].
      rewrite (sq_lift _ _ x); [done|]. apply (parseCommit_text (sc_sessionId c)).
      pose proof (jo_commits _ _ (kp_journals _ _ Hkept (sc_sessionId c))) as Hall. rewrite Forall_forall in Hall. by apply Hall.
    + rewrite Forall_forall in Hspec. by destruct Hrel; apply Hspec.
    + destruct Hspec as (-> & before & x & after & HK & _ & Hxrel & Hnot).
      assert (x ∈ K (sc_sessionId c)) as Hx by (rewrite HK; set_solver).
      destruct (conflicting_row c (commit_row y)) eqn:Hc; [by erewrite sq_fail by done|].
      apply conflicting_repeats in Hc. destruct Hnot. by rewrite <-(same_commit c y x).
  - apply first_row_none in Hr.
    assert (∀ y, y ∈ K (sc_sessionId c) → unrelated c y) as Hall.
    { intros y Hy. unfold unrelated.
      destruct (decide (sc_commitId y = sc_commitId c)) as [Heq|], (decide (sc_idempotencyKey y = sc_idempotencyKey c)) as [Heq'|]; try done;
        (assert (commit_row y ∈ List.filter (duplicate_row c) (tb_commits t)) as Hin;
          [apply duplicate_rows; exists y; split_and!; [done..|by unfold unrelated; tauto]|]);
        rewrite Hr in Hin; by apply elem_of_nil in Hin. }
    by rewrite findDuplicate_fresh by by apply Forall_forall.
Qed.
End Reads.

(** ** The writes of an append *)

Definition add_commit (row : CommitRow) (t : Tables) : Tables :=
  {| tb_metadata := tb_metadata t; tb_sessions := tb_sessions t; tb_commits := tb_commits t ++ [row]; tb_entries := tb_entries t |}.
Definition add_entries (rows : list EntryRow) (t : Tables) : Tables :=
  {| tb_metadata := tb_metadata t; tb_sessions := tb_sessions t; tb_commits := tb_commits t; tb_entries := tb_entries t ++ rows |}.
Definition add_session (row : SessionRow) (t : Tables) : Tables :=
  {| tb_metadata := tb_metadata t; tb_sessions := put_session row (tb_sessions t); tb_commits := tb_commits t; tb_entries := tb_entries t |}.

Lemma filter_conj {A} (p q : A → bool) l : List.filter (λ x, p x && q x) l = List.filter q (List.filter p l).
Proof. induction l as [|x l IH]; [done|]. cbn. destruct (p x); cbn; [|done]. destruct (q x); [f_equal|]; done. Qed.
Lemma existsb_conj {A} (p q : A → bool) l : existsb (λ x, p x && q x) l = existsb q (List.filter p l).
Proof. induction l as [|x l IH]; [done|]. cbn. destruct (p x); cbn; [|done]. by rewrite IH. Qed.
Lemma constraint_holds (holds : Tables → bool) t0 t :
  holds t = true → constraint holds (within t0 t) = (Ok tt, within t0 t).
Proof. intros Hh. unfold constraint. erewrite sq_step by by apply (select_sees _ _ t). by rewrite Hh. Qed.

Lemma insert_commit_within row t0 t :
  commit_admitted row t = true → insert_commit row (within t0 t) = (Ok tt, within t0 (add_commit row t)).
Proof. intros Ha. unfold insert_commit. by erewrite sq_step by by apply constraint_holds. Qed.
Lemma upsert_session_within row t0 t :
  0 < sr_revision row → 0 < sr_sequence row → upsert_session row (within t0 t) = (Ok tt, within t0 (add_session row t)).
Proof.
  intros Hr Hs. unfold upsert_session. erewrite sq_step; [|apply constraint_holds; lia]. done.
Qed.
Lemma insert_entries_within sid revision rows t0 t :
  Forall (λ row, er_session_id row = sid ∧ 0 < er_sequence row ∧ er_revision row = revision) rows → 0 < revision →
  existsb (λ commit, in_session cm_session_id sid commit && (cm_revision commit =? revision)) (tb_commits t) = true →
  NoDup (er_sequence <$> List.filter (in_session er_session_id sid) (tb_entries t) ++ rows) →
  NoDup (er_entry_id <$> List.filter (in_session er_session_id sid) (tb_entries t) ++ rows) →
  insert_entries rows (within t0 t) = (Ok tt, within t0 (add_entries rows t)).
Proof.
  intros Hrows Hrev. revert t. induction Hrows as [|row rows (Hsid & Hseq & Hr) _ IH]; intros t Hfk Hnd1 Hnd2.
  - unfold add_entries. rewrite app_nil_r. by destruct t.
  - assert (entry_admitted row t = true) as Ha.
    { unfold entry_admitted. rewrite Hsid, Hr, Hfk, existsb_conj, !(proj2 (Z.ltb_lt _ _)) by done. cbn [andb]. rewrite andb_true_r.
      apply negb_true_iff, existsb_false, Forall_forall. intros other Hother. rewrite !fmap_app, !fmap_cons in *.
      apply NoDup_app in Hnd1 as (_ & Hd1 & _), Hnd2 as (_ & Hd2 & _). apply orb_false_iff. split.
      - apply Z.eqb_neq. intros Heq. apply (Hd1 (er_sequence other)); [by apply list_elem_of_fmap_2|rewrite Heq; left].
      - apply bool_decide_eq_false. intros Heq. apply (Hd2 (er_entry_id other)); [by apply list_elem_of_fmap_2|rewrite Heq; left]. }
    assert (insert_entry row (within t0 t) = (Ok tt, within t0 (add_entries [row] t))) as Hins.
    { unfold insert_entry. by erewrite sq_step by by apply constraint_holds. }
    assert (List.filter (in_session er_session_id sid) (tb_entries (add_entries [row] t)) ++ rows =
      List.filter (in_session er_session_id sid) (tb_entries t) ++ row :: rows) as Hsplit.
    { cbn [tb_entries add_entries]. rewrite List.filter_app. cbn [List.filter]. unfold in_session at 2.
      rewrite bool_decide_eq_true_2 by done. by rewrite <-app_assoc. }
    cbn [insert_entries]. erewrite sq_step by exact Hins. rewrite IH by (rewrite ?Hsplit; done).
    unfold add_entries. cbn [tb_metadata tb_sessions tb_commits tb_entries]. by rewrite <-app_assoc.
Qed.

Definition put_journal (sid : string) (cs : list SessionCommitV3) (K : string → list SessionCommitV3) : string → list SessionCommitV3 :=
  λ s, if decide (s = sid) then cs else K s.

(** The upsert replaces the row of the session, or adds it. *)
Lemma projection_rows_put row rows :
  ((length (List.filter (in_session sr_session_id (sr_session_id row)) rows) ≤ 1)%nat →
    List.filter (in_session sr_session_id (sr_session_id row)) (put_session row rows) = [row]) ∧
  (∀ s, s ≠ sr_session_id row →
    List.filter (in_session sr_session_id s) (put_session row rows) = List.filter (in_session sr_session_id s) rows).
Proof.
  assert (∀ s, s ≠ sr_session_id row → in_session sr_session_id s row = false) as Hne.
  { intros s Hs. by apply bool_decide_eq_false_2; auto. }
  assert (in_session sr_session_id (sr_session_id row) row = true) as Heq by by apply bool_decide_eq_true_2.
  unfold put_session. destruct (existsb _ rows) eqn:He; split.
  - intros Hlen. set (p := in_session sr_session_id (sr_session_id row)) in *.
    induction rows as [|x rows IH]; [done|]. cbn in *. destruct (p x) eqn:Hx; cbn.
    + rewrite Heq. f_equal. clear IH He. cbn in Hlen. induction rows as [|y rows IH]; [done|]. cbn in *.
      destruct (p y) eqn:Hy; cbn in *; [lia|]. rewrite Hy. auto.
    + rewrite Hx. by apply IH.
  - intros s Hs. clear He. induction rows as [|x rows IH]; [done|]. cbn.
    destruct (in_session sr_session_id (sr_session_id row) x) eqn:Hx; cbn; [|by rewrite IH].
    rewrite Hne by done. apply bool_decide_eq_true in Hx.
    assert (in_session sr_session_id s x = false) as -> by (apply bool_decide_eq_false_2; congruence). done.
  - intros _. rewrite List.filter_app. cbn [List.filter]. rewrite Heq. apply existsb_false in He.
    replace (List.filter _ rows) with (@nil SessionRow); [done|]. symmetry. induction He as [|x rows Hx _ IH]; [done|]. cbn. by rewrite Hx.
  - intros s Hs. rewrite List.filter_app. cbn [List.filter]. by rewrite Hne, app_nil_r.
Qed.

Section New.
Context (K : string → list SessionCommitV3) (t : Tables) (c : SessionCommitV3) (pj : SessionProjectionV3).
Local Notation sid := (sc_sessionId c).
Local Notation cs := (K sid).
Hypothesis Hkept : kept t K.
Hypothesis Hex : extends sid cs c.
Hypothesis Hfresh : Forall (unrelated c) cs.
Hypothesis Hred : reduceSessionEntriesV3 (commit_entries cs ++ sc_entries c) = Ok pj.

Lemma new_journal : journal_ok sid (cs ++ [c]).
Proof. apply journal_ok_snoc; [by apply kp_journals with t|done]. Qed.
Lemma new_revision : sc_expectedRevision c = Z.of_nat (length cs).
Proof. apply (journal_revisions sid _ new_journal). by rewrite lookup_app_r, Nat.sub_diag by done. Qed.
Lemma new_sequence i e : sc_entries c !! i = Some e → en_sequence e = Z.of_nat (length (commit_entries cs) + i) + 1.
Proof.
  intros He. destruct (journal_order _ _ Hred) as (Hseq & _).
  destruct (Hseq (length (commit_entries cs) + i)%nat e) as [-> _]; [|done]. rewrite lookup_app_r by lia.
  by replace (_ + i - _)%nat with i by lia.
Qed.

Lemma commit_admitted_new : commit_admitted (commit_row c) t = true.
Proof.
  destruct (commit_fields_ok _ _ (ex_commit _ _ _ Hex)) as (Hpos & Hne & _).
  assert (0 < first_sequence c ∧ first_sequence c ≤ last_sequence c) as [Hf Hl].
  { assert (0 < length (sc_entries c))%nat as Hn by (clear -Hne; destruct (sc_entries c); [done|cbn; lia]).
    destruct (lookup_lt_is_Some_2 (sc_entries c) 0) as [e He]; [done|].
    destruct (lookup_lt_is_Some_2 (sc_entries c) (pred (length (sc_entries c)))) as [x Hx]; [lia|].
    unfold first_sequence, last_sequence. rewrite last_lookup, Hx, head_lookup, He. cbn.
    rewrite (new_sequence 0 e He), (new_sequence _ x Hx). lia. }
  unfold commit_admitted. cbn [cm_revision cm_first_sequence cm_last_sequence cm_session_id cm_commit_id cm_idempotency_key commit_row].
  rewrite !(proj2 (Z.ltb_lt _ _)), (proj2 (Z.leb_le _ _)) by lia. cbn [andb]. apply negb_true_iff.
  rewrite existsb_conj, (kp_commits _ _ Hkept). apply existsb_false, Forall_fmap, Forall_forall. intros y Hy.
  unfold compose. cbn [cm_revision cm_commit_id cm_idempotency_key commit_row].
  rewrite Forall_forall in Hfresh. destruct (Hfresh y Hy) as [Hid Hkey]. rewrite !bool_decide_eq_false_2, !orb_false_r by done.
  apply list_elem_of_lookup in Hy as [i Hi]. apply Z.eqb_neq. rewrite new_revision.
  rewrite (journal_revisions sid cs (kp_journals _ _ Hkept _) i y Hi). apply lookup_lt_Some in Hi. lia.
Qed.

Lemma rows_new : (row_of <$> journal_pairs cs) ++ entry_rows c = row_of <$> journal_pairs (cs ++ [c]).
Proof.
  rewrite <-(journal_rows sid cs), <-(journal_rows sid (cs ++ [c])) by first [apply kp_journals with t; done | apply new_journal].
  rewrite bind_app. cbn. by rewrite app_nil_r.
Qed.
Lemma rows_of_entries (A : Type) (f : EntryRow → A) (g : SessionEntryV3 → A) js :
  Forall (commit_ok sid) js → (∀ p, f (row_of p) = g p.1) → f <$> (row_of <$> journal_pairs js) = g <$> commit_entries js.
Proof.
  intros Hall Hfg. rewrite <-list_fmap_compose. rewrite <-(fst_zip (commit_entries js) (commit_values js)) by by rewrite (journal_lengths sid).
  fold (journal_pairs js). rewrite <-list_fmap_compose. apply list_fmap_ext. intros i p _. apply Hfg.
Qed.
Lemma insert_entries_new t0 :
  insert_entries (entry_rows c) (within t0 (add_commit (commit_row c) t))
    = (Ok tt, within t0 (add_entries (entry_rows c) (add_commit (commit_row c) t))).
Proof.
  destruct (commit_fields_ok _ _ (ex_commit _ _ _ Hex)) as (Hpos & Hne & Hlen & Hall & _).
  pose proof (jo_commits _ _ new_journal) as Hcommits.
  destruct (journal_order _ _ Hred) as (Hseq & _ & Hids & _). rewrite <-(commit_entries_one c), <-commit_entries_app in Hids, Hseq.
  apply (insert_entries_within sid (sc_expectedRevision c + 1)).
  - unfold entry_rows. rewrite zip_with_row. apply Forall_fmap, Forall_forall. intros [e v] Hp. unfold compose, row_of. cbn [fst snd entry_row er_session_id er_sequence er_revision].
    apply list_elem_of_lookup in Hp as [i Hp]. apply lookup_zip_with_Some in Hp as (e' & v' & [= <- <-] & He & _).
    rewrite (new_sequence i e He). rewrite Forall_lookup in Hall. destruct (Hall _ _ He). split_and!; [done|lia|done].
  - lia.
  - cbn [tb_commits add_commit]. rewrite existsb_app. apply orb_true_iff. right. cbn [existsb commit_row cm_session_id cm_revision].
    unfold in_session. cbn [cm_session_id]. by rewrite bool_decide_eq_true_2, Z.eqb_refl by done.
  - cbn [tb_entries add_commit]. rewrite (kp_entries _ _ Hkept), rows_new, (rows_of_entries _ _ en_sequence) by done.
    apply NoDup_alt. intros i j x Hi Hj. rewrite list_lookup_fmap in Hi, Hj.
    apply fmap_Some in Hi as (e1 & Hi & ->), Hj as (e2 & Hj & Heq). apply Hseq in Hi as [Hi _], Hj as [Hj _]. lia.
  - cbn [tb_entries add_commit]. by rewrite (kp_entries _ _ Hkept), rows_new, (rows_of_entries _ _ en_entryId).
Qed.

Lemma entry_rows_session : Forall (λ row, er_session_id row = sid) (entry_rows c).
Proof.
  destruct (commit_fields_ok _ _ (ex_commit _ _ _ Hex)) as (_ & _ & _ & Hall & _).
  unfold entry_rows. rewrite zip_with_row. apply Forall_fmap, Forall_forall. intros [e v] [i Hp]%list_elem_of_lookup.
  apply lookup_zip_with_Some in Hp as (e' & v' & [= <- <-] & He & _). rewrite Forall_lookup in Hall. by apply (Hall i).
Qed.
Lemma projection_positive : 0 < sn_revision (pj_snapshot pj) ∧ 0 < sn_sequence (pj_snapshot pj).
Proof.
  destruct (commit_fields_ok _ _ (ex_commit _ _ _ Hex)) as (Hpos & Hne & _ & Hall & _).
  destruct (journal_order _ _ Hred) as (_ & _ & _ & -> & e & He & ->). rewrite last_app in He.
  destruct (last (sc_entries c)) as [x|] eqn:Hx; [|by apply last_None in Hx]. injection He as <-.
  rewrite last_lookup in Hx. rewrite Forall_lookup in Hall. destruct (Hall _ _ Hx) as [_ ->].
  apply lookup_lt_Some in Hx. rewrite length_app. lia.
Qed.

Definition appended : Tables := add_session (projection_row sid pj) (add_entries (entry_rows c) (add_commit (commit_row c) t)).
Lemma kept_appended : kept appended (put_journal sid (cs ++ [c]) K).
Proof.
  pose proof (projection_rows_put (projection_row sid pj) (tb_sessions t)) as [Hput Hother].
  change (sr_session_id (projection_row sid pj)) with sid in Hput, Hother.
  split; unfold put_journal.
  - by apply kp_metadata in Hkept.
  - intros s. cbn [tb_sessions appended add_session add_entries add_commit]. case_decide as Hs.
    + subst s. rewrite Hput.
      * unfold session_rows. destruct (cs ++ [c]) eqn:E; [by destruct cs|]. cbn [is_nil]. rewrite <-E.
        by rewrite commit_entries_app, commit_entries_one, Hred.
      * rewrite (kp_sessions _ _ Hkept). unfold session_rows. destruct (is_nil cs), (reduceSessionEntriesV3 (commit_entries cs)); cbn; lia.
    + rewrite Hother by done. by apply kp_sessions.
  - intros s. cbn [tb_commits appended add_session add_entries add_commit]. rewrite List.filter_app, (kp_commits _ _ Hkept).
    cbn [List.filter]. unfold in_session. cbn [cm_session_id commit_row]. case_decide as Hs.
    + subst s. rewrite bool_decide_eq_true_2, fmap_app by done. done.
    + rewrite bool_decide_eq_false_2 by auto. by rewrite app_nil_r.
  - intros s. cbn [tb_entries appended add_session add_entries add_commit]. rewrite List.filter_app, (kp_entries _ _ Hkept).
    pose proof entry_rows_session as Hall. case_decide as Hs.
    + subst s. rewrite <-rows_new. f_equal. induction Hall as [|row rows Hrow _ IH]; [done|]. cbn [List.filter].
      unfold in_session at 1. rewrite bool_decide_eq_true_2 by done. by f_equal.
    + rewrite <-(app_nil_r (_ <$> _)) at 2. f_equal. induction Hall as [|row rows Hrow _ IH]; [done|]. cbn [List.filter].
      unfold in_session at 1. by rewrite bool_decide_eq_false_2 by congruence.
  - intros s. case_decide as Hs; [subst s; apply new_journal|by apply kp_journals with t].
  - intros s. case_decide as Hs; [apply distinct_snoc; [by apply (kp_distinct t)|done]|by apply (kp_distinct t)].
Qed.
End New.

Lemma kept_ext t K K' : (∀ s, K' s = K s) → kept t K → kept t K'.
Proof. intros HK [H1 H2 H3 H4 H5 H6]. split; [done| | | | |]; intros s; rewrite HK; auto. Qed.

(** ** Appends *)

Section Append.
Context `{SqliteLaws}.
Context (inject : SqliteSessionJournalFaultPointV3 → res unit).

(** No fault, and SQLite takes the transaction. *)
Definition quiet : Prop := begin_immediate = Ok tt ∧ commit_result = Ok tt ∧ ∀ point, inject point = Ok tt.

(** The outcome of the statements of a transaction, and of the operation. *)
Definition transaction_outcome (K : string → list SessionCommitV3) (t : Tables) (c : SessionCommitV3)
    (o : res SessionCommitReceiptV3 * Connection) : Prop :=
  match o with
  | (Ok receipt, s) => ∃ cs t', journal_append (K (sc_sessionId c)) c = Ok (receipt, cs) ∧ s = idle t' ∧
      kept t' (put_journal (sc_sessionId c) cs K)
  | (Err code, s) => (∃ t', s = within t t') ∧ (quiet → journal_append (K (sc_sessionId c)) c = Err code)
  end.
Lemma outcome_fail {A} K t t' c (m : Sq A) (k : A → Sq SessionCommitReceiptV3) code :
  m (within t t') = (Err code, within t t') → (quiet → journal_append (K (sc_sessionId c)) c = Err code) →
  transaction_outcome K t c ((m ≫= k) (within t t')).
Proof. intros Hm Hq. rewrite (sq_fail _ _ _ _ _ Hm). split; [by eexists|done]. Qed.
Lemma commit_within t t' :
  exec_commit (within t t') = match commit_result with Ok _ => (Ok tt, idle t') | Err code => (Err code, within t t') end.
Proof. unfold exec_commit. by destruct commit_result as [[]|]. Qed.


Lemma fault_outcome K t t' c point (k : unit → Sq SessionCommitReceiptV3) :
  transaction_outcome K t c (k tt (within t t')) →
  transaction_outcome K t c ((SqliteStore.lift (inject point) ≫= k) (within t t')).
Proof.
  destruct (inject point) as [[]|code] eqn:Hi; [done|]. intros _. split; [by eexists|].
  intros (_ & _ & Hq). by rewrite Hq in Hi.
Qed.
Lemma append_new_outcome K t c pj :
  kept t K → extends (sc_sessionId c) (K (sc_sessionId c)) c → Forall (unrelated c) (K (sc_sessionId c)) →
  reduceSessionEntriesV3 (commit_entries (K (sc_sessionId c)) ++ sc_entries c) = Ok pj →
  journal_append (K (sc_sessionId c)) c = Ok (sessionCommitReceiptV3 c false, K (sc_sessionId c) ++ [c]) →
  transaction_outcome K t c (
    (insert_commit (commit_row c);; SqliteStore.lift (inject after_commit_row);;
     insert_entries (entry_rows c);; SqliteStore.lift (inject after_entries);;
     upsert_session (projection_row (sc_sessionId c) pj);; SqliteStore.lift (inject after_projection);;
     SqliteStore.lift (inject before_transaction_commit);; exec_commit;; mret (sessionCommitReceiptV3 c false)) (within t t)).
Proof.
  intros Hk Hex Hf Hred Hspec.
  erewrite sq_step by by apply insert_commit_within, (commit_admitted_new K t c pj).
  apply fault_outcome. erewrite sq_step by by apply (insert_entries_new K t c pj).
  destruct (projection_positive K c pj Hex Hred) as [Hrev Hseq].
  apply fault_outcome. erewrite sq_step by by apply upsert_session_within. fold (appended t c pj).
  do 2 apply fault_outcome. pose proof (commit_within t (appended t c pj)) as Hcommit. destruct commit_result as [[]|code] eqn:Hcr.
  - rewrite (sq_step _ _ _ _ _ Hcommit). exists (K (sc_sessionId c) ++ [c]), (appended t c pj).
    split_and!; [done..|]. by apply kept_appended.
  - eapply outcome_fail; [exact Hcommit|]. intros (_ & Hq & _). by rewrite Hq in Hcr.
Qed.
Lemma rollback_outcome {A} (m : Sq A) t :
  match m (within t t) with
  | (Ok a, s) => or_rollback m (within t t) = (Ok a, s)
  | (Err code, s) => ∀ t', s = within t t' → or_rollback m (within t t) = (Err code, idle t)
  end.
Proof. unfold or_rollback. destruct (m (within t t)) as [[a|code] s]; [done|]. by intros t' ->. Qed.

Lemma appendExclusive_outcome K t c :
  kept t K → commit_ok (sc_sessionId c) c →
  match appendExclusive inject c (idle t) with
  | (Ok receipt, s) => ∃ cs t', journal_append (K (sc_sessionId c)) c = Ok (receipt, cs) ∧ s = idle t' ∧
      kept t' (put_journal (sc_sessionId c) cs K)
  | (Err code, s) => s = idle t ∧ (quiet → journal_append (K (sc_sessionId c)) c = Err code)
  end.
Proof.
  intros Hk Hc. unfold appendExclusive. erewrite sq_step by done.
  destruct begin_immediate as [[]|code] eqn:Hb.
  2:{ erewrite sq_fail; [split; [done|]|unfold exec_begin; cbn; by rewrite Hb]. intros (Hq & _). by rewrite Hq in Hb. }
  erewrite (sq_step _ _ tt _ (within t t)) by (unfold exec_begin; cbn; by rewrite Hb).
  match goal with |- context [or_rollback ?m] => set (body := m); pose proof (rollback_outcome body t) as Hroll end.
  assert (transaction_outcome K t c (body (within t t))) as Hbody.
  { assert (journal_append (K (sc_sessionId c)) c = journal_append (K (sc_sessionId c)) c) as Hspec by done.
    unfold journal_append at 1 in Hspec. unfold body. pose proof (findDuplicate_kept K t (within t t) Hk eq_refl c) as Hdup.
    pose proof (findDuplicate_spec (K (sc_sessionId c)) c) as Hcase.
    destruct (Jsonl.findDuplicate _ c) as [[x|]|code] eqn:Hfind; cbn [mbind res_bind] in Hspec.
    - rewrite (sq_step _ _ _ _ _ Hdup). pose proof (commit_within t t) as Hcommit. destruct commit_result as [[]|code] eqn:Hcr.
      + rewrite (sq_step _ _ _ _ _ Hcommit). exists (K (sc_sessionId c)), t. split_and!; [done..|].
        apply (kept_ext _ K); [|done]. intros s. unfold put_journal. by case_decide; subst.
      + eapply outcome_fail; [exact Hcommit|]. intros (_ & Hq & _). by rewrite Hq in Hcr.
    - rewrite (sq_step _ _ _ _ _ Hdup). erewrite sq_step by by apply session_row_kept with t.
      rewrite (head_kept K t Hk).
      destruct (assertSessionCommitAgainstHeadV3 c _) as [[]|code] eqn:Hhead; cbn [mbind res_bind] in Hspec;
        [|eapply outcome_fail; [done|done]].
      erewrite sq_lift by done. erewrite sq_step by by apply loadAllEntries_kept with t.
      destruct (reduceSessionEntriesV3 _) as [pj|code] eqn:Hred; cbn [mbind res_bind] in Hspec; [|eapply outcome_fail; [done|done]].
      erewrite sq_lift by done. apply append_new_outcome; try done. split; [done|done|by rewrite Hred].
    - eapply outcome_fail; [exact Hdup|done]. }
  destruct (body (within t t)) as [[receipt|code] s]; rewrite ?Hroll.
  - exact Hbody.
  - destruct Hbody as [(t' & Hs) Hq]. by rewrite (Hroll t' Hs).
Qed.

Lemma append_outcome_of K t c :
  kept t K → commit_ok (sc_sessionId c) c →
  match SqliteStore.appendCommit inject (SessionCommit_js c) (idle t) with
  | (Ok receipt, s) => ∃ cs t', journal_append (K (sc_sessionId c)) c = Ok (receipt, cs) ∧ s = idle t' ∧
      kept t' (put_journal (sc_sessionId c) cs K)
  | (Err code, s) => s = idle t ∧
      (quiet → ∃ e, journal_append (K (sc_sessionId c)) c = Err e ∧ code = mapSqliteError e)
  end.
Proof.
  intros Hk Hc. unfold SqliteStore.appendCommit. rewrite (sq_lift _ _ c) by apply (jc_valid _ _ Hc). unfold SqliteStore.run.
  pose proof (appendExclusive_outcome K t c Hk Hc) as Ho. destruct (appendExclusive inject c (idle t)) as [[receipt|code] s]; [done|].
  destruct Ho as [-> Hq]. split; [done|]. intros Hquiet. exists code. auto.
Qed.

(** C7 The SQLite store refines the abstract journal: over tables that hold a
    journal for every session, an append is answered with the receipt of the
    abstract append, and the tables then hold the journal after it (the commit at
    its end, or unchanged for a repeated commit); or it fails, and the database is
    as it was.  Without a fault it fails exactly when the abstract append does, and
    whichever row SQLite takes for the duplicate, with that error. *)
Theorem sqlite_append_refines K t c :
  kept t K → commit_ok (sc_sessionId c) c →
  match SqliteStore.appendCommit inject (SessionCommit_js c) (idle t) with
  | (Ok receipt, s) => ∃ cs t', journal_append (K (sc_sessionId c)) c = Ok (receipt, cs) ∧ s = idle t' ∧
      kept t' (put_journal (sc_sessionId c) cs K)
  | (Err code, s) => s = idle t ∧
      (quiet → ∃ e, journal_append (K (sc_sessionId c)) c = Err e ∧ code = mapSqliteError e)
  end.
Proof. apply append_outcome_of. Qed.
End Append.

(** ** Reads *)

(** The rows of a window of the journal, in their order. *)
Lemma window_rows K t sid after through :
  kept t K → 0 ≤ after → 0 ≤ through →
  order_by (by_int er_sequence) (List.filter (λ row, in_session er_session_id sid row && (after <? er_sequence row)
    && (er_sequence row <=? through)) (tb_entries t))
  = row_of <$> drop (Z.to_nat after) (take (Z.to_nat through) (journal_pairs (K sid))).
Proof.
  intros Hk Hafter Hthrough. pose proof (journal_pairs_numbered K t Hk sid) as Hn.
  rewrite (List.filter_ext _ (λ row, in_session er_session_id sid row && ((after <? er_sequence row) && (er_sequence row <=? through))))
    by (intros; by rewrite andb_assoc).
  rewrite filter_conj, (kp_entries _ _ Hk).
  assert (List.filter (λ row, (after <? er_sequence row) && (er_sequence row <=? through)) (row_of <$> journal_pairs (K sid))
    = row_of <$> drop (Z.to_nat after) (take (Z.to_nat through) (journal_pairs (K sid)))) as ->.
  { rewrite <-(numbered_window sid 0 _ (Z.to_nat after) (Z.to_nat through) Hn).
    cbn [Nat.add]. rewrite !Z2Nat.id by done. generalize (journal_pairs (K sid)) as l. intros l.
    induction l as [|p l IH]; [done|]. cbn [List.filter fmap list_fmap]. change (er_sequence (row_of p)) with (en_sequence p.1).
    destruct (_ && _); cbn; [f_equal|]; apply IH. }
  apply (rows_sorted sid _ (Z.to_nat after)). rewrite fmap_drop, fmap_take.
  rewrite <-(take_ge (drop _ _) (length (journal_pairs (K sid)))) by (rewrite length_drop, length_take, length_fmap; lia).
  apply numbered_drop. intros i e He. rewrite lookup_take in He. case_decide; [|done]. by apply Hn.
Qed.
(** A read is a page of the journal, or the error of the journal. *)
Lemma sqlite_read `{SqliteEngine} K t request :
  kept t K →
  SqliteStore.readEntries request (idle t) = (journal_read (K (ri_sessionId request)) request, idle t).
Proof.
  intros Hk. unfold SqliteStore.readEntries, SqliteStore.run, journal_read. set (sid := ri_sessionId request).
  change (SqliteStore.validateReadInput request) with (SessionPort.validateReadInput request).
  destruct (SessionPort.validateReadInput request) as [[]|code] eqn:Hin; cbn [mbind res_bind].
  2:{ assert (code = "SESSION_READ_INVALID"%string) as -> by by apply fail_if_Err in Hin as [_ ->]. done. }
  erewrite sq_step by done. erewrite sq_step by done. erewrite sq_step by by apply session_row_kept with t.
  pose proof (head_kept K t Hk sid) as Hhead. pose proof (kp_journals _ _ Hk sid) as Hok.
  destruct (is_nil (K sid)) eqn:Hnil; [unfold session_rows; by rewrite Hnil|].
  assert (K sid ≠ []) as Hne by (intros Heq; by rewrite Heq in Hnil). cbn [fail_if mbind res_bind].
  pose proof (journal_head_of sid _ Hok) as Hho. rewrite <-Hhead in Hho. destruct (head (session_rows sid (K sid))) as [row|].
  2:{ exfalso. symmetry in Hhead. unfold journal_head in Hhead. apply fmap_None, last_None in Hhead.
      pose proof (jo_reduced _ _ Hok Hne) as Hred. by rewrite Hhead in Hred. }
  cbn [fmap option_fmap option_map default from_option id] in Hho. rewrite (sq_lift _ _ (head_of_row row)) by done. rewrite Hho. cbn [hd_sequence hd_revision].
  set (n := length (commit_entries (K sid))). set (through := default (Z.of_nat n) (ri_throughSequence request)).
  destruct (Z.of_nat n <? through) eqn:Hlt; [done|]. cbn [fail_if mbind res_bind]. erewrite sq_lift by done.
  destruct (read_input_range request n Hin) as [Hafter Hthrough]. erewrite sq_step by by apply select_sees.
  rewrite (window_rows K t sid) by done. set (after := default 0 (ri_afterSequence request)) in *. unfold limit. rewrite <-fmap_take.
  set (selected := take _ (drop _ _)). rewrite (sq_lift _ _ selected).
  2:{ apply (pairs_parse sid (K sid)); [apply Hok|]. intros p Hp. unfold selected in Hp. by eapply subseteq_take, subseteq_drop, subseteq_take in Hp. }
  destruct (journal_page sid (commit_entries (K sid)) (commit_values (K sid)) after through
    (Z.to_nat (default SqliteStore.MAX_READ_PAGE (ri_limit request)))) as [Hpage Hnext];
    [by apply (journal_lengths sid), Hok|by apply journal_numbered|done|].
  fold (journal_pairs (K sid)) in Hpage, Hnext. fold selected in Hpage, Hnext. rewrite Hpage, Hnext.
  unfold page_of. rewrite <-(journal_lengths sid) by apply Hok. done.
Qed.
Lemma sqlite_projection `{SqliteEngine} K t sid :
  kept t K → K sid ≠ [] →
  SqliteStore.loadCachedProjection sid (idle t) = (reduceSessionEntriesV3 (commit_entries (K sid)), idle t).
Proof.
  intros Hk Hne. unfold SqliteStore.loadCachedProjection, SqliteStore.run. erewrite sq_step by done.
  erewrite sq_step by by apply session_row_kept with t. pose proof (kp_journals _ _ Hk sid) as Hok.
  pose proof (jo_reduced _ _ Hok Hne) as Hred. unfold session_rows. replace (is_nil (K sid)) with false by by destruct (K sid).
  destruct (reduceSessionEntriesV3 (commit_entries (K sid))) as [pj|] eqn:Hr; [|done]. cbn [head].
  unfold SqliteStore.lift, parseProjection. cbn [sr_projection_json projection_row].
  rewrite (reduced_catalog _ _ Hr), (reduced_session sid (K sid) pj) by done. by rewrite bool_decide_eq_false_2 by auto.
Qed.

(** ** The two stores *)

Section Agree.
Context `{NodeHost}.

Lemma jsonl_append_result sid cs c d :
  commit_ok sid c → journal d sid cs →
  match journal_append cs c with
  | Ok (receipt, _) => (JsonlStore.appendCommit true no_fault (SessionCommit_js c) d).2 = Ok receipt
  | Err code => ∃ repair, JsonlStore.appendCommit true no_fault (SessionCommit_js c) d = (repair, Err (JsonlStore.run_error code)) ∧
      (repair = [] ∨ repair = [truncate_commits (commit_file sid) (String.length (journal_bytes cs))]) ∧
      bytes_of sid (apply_writes d repair) = journal_bytes cs
  end.
Proof.
  intros Hc [Hok (tail & Ht & Hb)]. pose proof (commit_ok_safe _ _ Hc) as Hsafe. unfold journal_append.
  destruct (appendCommit_start no_fault sid Hsafe cs c tail d) as (repair & Hrep & Hclean & Hstart); [done..|].
  pose proof (findDuplicate_spec cs c) as Hcase.
  destruct (Jsonl.findDuplicate (createRecord <$> cs) c) as [[x|]|code] eqn:Hfind; cbn [mbind res_bind].
  - destruct Hcase as (before & after & Hcs & _). assert (cs ≠ []) as Hne by (rewrite Hcs; by destruct before).
    pose proof (jo_reduced _ _ Hok Hne) as Hred. destruct (reduceSessionEntriesV3 (commit_entries cs)) as [pj|] eqn:Hr; [|done].
    rewrite (Hstart (refresh_writes sid cs pj ++ []) (Ok (sessionCommitReceiptV3 x true))); [done|].
    rewrite (bind_pure _ _ (Some x)) by done. eapply bind_writes; [by apply refreshProjection_writes|done].
  - destruct (assertSessionCommitAgainstHeadV3 c (journal_head (commit_entries cs))) as [[]|code] eqn:Hhead; cbn [mbind res_bind]; [|exists repair; by rewrite (Hstart [] (Err code)), app_nil_r].
    destruct (reduceSessionEntriesV3 (commit_entries cs ++ sc_entries c)) as [pj|code] eqn:Hred; cbn [mbind res_bind]; [|exists repair; by rewrite (Hstart [] (Err code)), app_nil_r].
    destruct (appendCommit_new no_fault sid Hsafe (λ _, eq_refl) cs c tail d) as (rep & pj' & _ & _ & _ & ->); try done.
    split; [done|done|by rewrite Hred].
  - exists repair. by rewrite (Hstart [] (Err code)), app_nil_r.
Qed.
(** An append to the JSONL store is the one of the abstract journal, too. *)
Lemma jsonl_append sid cs c d ws r :
  commit_ok sid c → journal d sid cs → projected d sid cs →
  JsonlStore.appendCommit true no_fault (SessionCommit_js c) d = (ws, r) →
  let '(o, cs') := match journal_append cs c with
                   | Ok (receipt, cs') => (Ok receipt, cs')
                   | Err code => (Err (JsonlStore.run_error code), cs)
                   end in
  r = o ∧ journal (apply_writes d ws) sid cs' ∧ projected (apply_writes d ws) sid cs'.
Proof.
  intros Hc Hj Hp Ha. pose proof (jsonl_append_result sid cs c d Hc Hj) as Hres. pose proof Hj as [Hok _].
  pose proof (wp_appendCommit no_fault sid (commit_ok_safe _ _ Hc) cs c d Hc (conj Hj (or_intror Hp))) as Hwp.
  assert (∀ receipt cs', journal_append cs c = Ok (receipt, cs') →
    (∃ x, receipt = sessionCommitReceiptV3 x true ∧ cs' = cs) ∨ receipt = sessionCommitReceiptV3 c false ∧ cs' = cs ++ [c]) as Hshape.
  { unfold journal_append. intros receipt cs'. destruct (Jsonl.findDuplicate _ c) as [[x|]|]; cbn [mbind res_bind]; try done.
    - intros [= <- <-]. left. by exists x.
    - intros Hi. inv_ok. by right. }
  destruct (journal_append cs c) as [[receipt cs']|code].
  - rewrite Ha in Hres. cbn [snd] in Hres. subst r. split; [done|].
    destruct (wp_post _ _ _ _ _ _ Hwp Ha) as [_ [(Hr & Hj' & Hp' & _)|(b & x & a & _ & _ & _ & Hr & Hj' & Hp')]];
      destruct (Hshape _ _ eq_refl) as [(y & Hy & ->)|[Hy ->]]; try done;
      rewrite Hr in Hy; by apply (f_equal rc_duplicate) in Hy.
  - destruct Hres as (repair & Hr & Hrep & Hclean). rewrite Ha in Hr. injection Hr as -> ->. split; [done|]. split.
    + by apply journal_clean.
    + by destruct Hrep as [-> | ->]; apply (projected_same sid d).
Qed.
Lemma readEntries_beyond sid cs d request :
  journal d sid cs → cs ≠ [] → SAFE_ID sid = true → SessionPort.validateReadInput request = Ok tt → ri_sessionId request = sid →
  Z.of_nat (length (commit_entries cs)) < default (Z.of_nat (length (commit_entries cs))) (ri_throughSequence request) →
  JsonlStore.readEntries true request d = ([], Err "SESSION_READ_INVALID").
Proof.
  intros [Hok (tail & Ht & Hb)] Hne Hsafe Hin Hsid Hthrough. unfold JsonlStore.readEntries.
  rewrite (bind_pure _ _ tt) by done. unfold JsonlStore.run. rewrite (bind_pure _ _ tt) by (unfold JsonlStore.lift; by rewrite <-Hin).
  rewrite Hsid, (bind_pure _ _ (parsed_of cs tail)) by by apply readJournal_kept. cbn [prs_records parsed_of].
  rewrite (bind_pure _ _ tt) by by destruct cs.
  rewrite (journal_values sid) by apply Hok. rewrite fst_zip, (journal_head_of sid) by (done || rewrite (journal_lengths sid) by apply Hok; lia).
  cbn [hd_sequence]. by rewrite (bind_err _ _ "SESSION_READ_INVALID"%string) by (unfold JsonlStore.lift; by rewrite (proj2 (Z.ltb_lt _ _))).
Qed.
Lemma jsonl_read sid cs d request :
  journal d sid cs → ri_sessionId request = sid →
  (JsonlStore.readEntries true request d).2 = journal_read cs request.
Proof.
  intros Hj Hsid. unfold journal_read. destruct (SessionPort.validateReadInput request) as [[]|code] eqn:Hin; cbn [mbind res_bind].
  2:{ assert (code = "SESSION_READ_INVALID"%string) as -> by by apply fail_if_Err in Hin as [_ ->].
      unfold JsonlStore.readEntries. rewrite (bind_pure _ _ tt) by done. unfold JsonlStore.run.
      change (JsonlStore.validateReadInput request) with (SessionPort.validateReadInput request). by rewrite Hin. }
  assert (SAFE_ID sid = true) as Hsafe.
  { unfold SessionPort.validateReadInput in Hin. apply fail_if_Ok in Hin. rewrite !orb_false_iff, Hsid in Hin. by destruct Hin as [[[?%negb_false_iff _] _] _]. }
  destruct cs as [|c cs'] eqn:Hcs.
  - destruct Hj as [Hok (tail & Ht & Hb)]. unfold JsonlStore.readEntries. rewrite (bind_pure _ _ tt) by done. unfold JsonlStore.run.
    rewrite (bind_pure _ _ tt) by (unfold JsonlStore.lift; by rewrite <-Hin).
    by rewrite Hsid, (bind_pure _ _ (parsed_of [] tail)) by by apply readJournal_kept.
  - rewrite <-Hcs in *. assert (cs ≠ []) as Hne by by rewrite Hcs. replace (is_nil cs) with false by by rewrite Hcs. cbn [fail_if mbind res_bind].
    destruct (_ <? _) eqn:Hlt.
    + apply Z.ltb_lt in Hlt. by rewrite (readEntries_beyond sid cs d request).
    + apply Z.ltb_ge in Hlt. by rewrite (readEntries_page sid cs d request).
Qed.

(** What the disk and the tables share of a session. *)
Definition same_journal (d : Disk) (t : Tables) (sid : string) (K : string → list SessionCommitV3) : Prop :=
  kept t K ∧ journal d sid (K sid) ∧ projected d sid (K sid).

(** C8 The SQLite store and the JSONL store are equivalent: over a database and a
    disk that hold the same journal of a session, they give the same receipt to
    the same commits and refuse the same ones, and hold the same journal again
    afterwards; they answer every read with the same page or the same error, and
    load the same projection. *)
Theorem stores_agree `{SqliteLaws} inject sid d t K :
  same_journal d t sid K → SAFE_ID sid = true → quiet inject →
  (∀ c, commit_ok sid c →
    let '(ws, r) := JsonlStore.appendCommit true no_fault (SessionCommit_js c) d in
    let '(r', s') := SqliteStore.appendCommit inject (SessionCommit_js c) (idle t) in
    (∀ receipt, r = Ok receipt ↔ r' = Ok receipt) ∧
    ∃ t' K', s' = idle t' ∧ same_journal (apply_writes d ws) t' sid K') ∧
  (∀ request, ri_sessionId request = sid →
    (JsonlStore.readEntries true request d).2 = (SqliteStore.readEntries request (idle t)).1) ∧
  (K sid ≠ [] →
    (JsonlStore.loadCachedProjection true sid d).2 = (SqliteStore.loadCachedProjection sid (idle t)).1).
Proof.
  intros (Hk & Hj & Hp) Hsafe Hquiet. split_and!.
  - intros c Hc. pose proof (jc_session _ _ Hc) as Hsid. destruct (JsonlStore.appendCommit _ _ _ d) as [ws r] eqn:Ha.
    pose proof (jsonl_append sid (K sid) c d ws r Hc Hj Hp Ha) as Hjsonl.
    assert (commit_ok (sc_sessionId c) c) as Hc' by by rewrite Hsid.
    pose proof (append_outcome_of inject K t c Hk Hc') as Hsql. rewrite Hsid in Hsql.
    destruct (SqliteStore.appendCommit _ _ _) as [[receipt'|code'] s'].
    + destruct Hsql as (cs & t' & Hspec & -> & Hk'). rewrite Hspec in Hjsonl. destruct Hjsonl as (-> & Hj' & Hp').
      split; [done|]. exists t', (put_journal sid cs K). split; [done|].
      assert (put_journal sid cs K sid = cs) as Hput by (unfold put_journal; by rewrite decide_True).
      by split; [|rewrite Hput].
    + destruct Hsql as [-> (e & Hspec & _)%(λ f, f Hquiet)]. rewrite Hspec in Hjsonl. destruct Hjsonl as (-> & Hj' & Hp').
      split; [done|]. by exists t, K.
  - intros request Hsid. rewrite (jsonl_read sid (K sid)), (sqlite_read K t), Hsid by done. done.
  - intros Hne. by rewrite (loadCachedProjection_kept sid (K sid)), (sqlite_projection K t) by done.
Qed.
End Agree.

(** ** Opening, listing and scrubbing *)

Section Open.
Context `{SqliteEngine}.

(** The pragmas took effect. *)
Definition pragmas_ok : Prop :=
  ∃ mode, pragma "journal_mode" = JStr mode ∧ lower mode = "wal"%string ∧ pragma "synchronous" = JInt 2 ∧
    pragma "busy_timeout" = JInt BUSY_TIMEOUT_MS ∧ pragma "foreign_keys" = JInt 1.
Definition closed (d : Database) : Connection := {| cn_open := false; cn_durable := d; cn_transaction := None |}.
Definition no_tables : Tables :=
  {| tb_metadata := [("backend", "sqlite"); ("schema_version", "1")]%string; tb_sessions := []; tb_commits := []; tb_entries := [] |}.

Lemma profile_valid s : pragmas_ok → da_user_version (database_of s) = 1 → ∃ p, validateProfile s = (Ok p, s).
Proof.
  intros (mode & Hj & Hm & Hs & Hb & Hf) Hv. eexists. unfold validateProfile.
  assert (∀ name z, pragma name = JInt z → name ≠ "user_version"%string → pragmaNumber name s = (Ok z, s)) as Hnum.
  { intros name z Hz Hname. unfold pragmaNumber, pragma_value. erewrite sq_step by done. rewrite bool_decide_eq_false_2 by done. by rewrite Hz. }
  assert (pragmaNumber "user_version" s = (Ok 1, s)) as H1v by (unfold pragmaNumber, pragma_value; erewrite sq_step by done; by rewrite Hv).
  assert (pragmaString "journal_mode" s = (Ok mode, s)) as Hmode by (unfold pragmaString, pragma_value; erewrite sq_step by done; cbn; by rewrite Hj).
  rewrite (sq_step _ _ _ _ _ H1v), (sq_step _ _ _ _ _ Hmode), (sq_step _ _ _ _ _ (Hnum "synchronous"%string _ Hs ltac:(done))),
    (sq_step _ _ _ _ _ (Hnum "busy_timeout"%string _ Hb ltac:(done))), (sq_step _ _ _ _ _ (Hnum "foreign_keys"%string _ Hf ltac:(done))).
  unfold profile_rejected. cbn [pf_schemaVersion pf_journalMode pf_synchronous pf_busyTimeoutMs pf_foreignKeys]. rewrite Hm. by erewrite sq_lift by done.
Qed.
Lemma kept_nothing : kept no_tables (λ _, []).
Proof. by split. Qed.

(** A new file becomes a store without sessions; a store is opened as it is; and a
    file of a later version is left alone. *)
Theorem sqlite_initialize :
  pragmas_ok → begin_immediate = Ok tt → commit_result = Ok tt →
  SqliteStore.initialize (closed empty_database) = (Ok tt, idle no_tables) ∧
  (∀ t K, kept t K → SqliteStore.initialize (closed (stored t)) = (Ok tt, idle t)) ∧
  (∀ d, 1 < da_user_version d →
    SqliteStore.initialize (closed d) = (Err "SESSION_STORE_VERSION_UNSUPPORTED"%string, closed d)).
Proof.
  intros Hp Hb Hc. split_and!.
  - assert (migrate (closed empty_database) = (Ok tt, closed (stored no_tables))) as Hm.
    { unfold migrate. erewrite sq_step by done. cbn. unfold mbind, sq_bind, SqliteStore.lift, exec_begin. cbn. rewrite Hb.
      unfold or_rollback. cbn. unfold exec_commit. cbn. by rewrite Hc. }
    unfold SqliteStore.initialize. cbn [cn_open closed]. rewrite (sq_step _ _ _ _ _ Hm).
    by destruct (profile_valid (closed (stored no_tables)) Hp eq_refl) as [p ->].
  - intros t K Hk. assert (migrate (closed (stored t)) = (Ok tt, closed (stored t))) as Hm.
    { change (validateSchemaMetadata (closed (stored t)) = (Ok tt, closed (stored t))). unfold validateSchemaMetadata.
      erewrite sq_step by by apply (select_sees _ _ t). by rewrite (kp_metadata _ _ Hk). }
    unfold SqliteStore.initialize. cbn [cn_open closed]. rewrite (sq_step _ _ _ _ _ Hm).
    by destruct (profile_valid (closed (stored t)) Hp eq_refl) as [p ->].
  - intros d Hd. assert (migrate (closed d) = (Err "SESSION_STORE_VERSION_UNSUPPORTED"%string, closed d)) as Hm.
    { unfold migrate. assert (pragmaNumber "user_version" (closed d) = (Ok (da_user_version d), closed d)) as Hv by done.
      rewrite (sq_step _ _ _ _ _ Hv), (proj2 (Z.ltb_lt _ _)) by (unfold SCHEMA_VERSION; lia). by erewrite sq_fail by done. }
    unfold SqliteStore.initialize. cbn [cn_open closed]. by rewrite (sq_fail _ _ _ _ _ Hm).
Qed.

(** The sessions that are listed are those with a journal. *)
Lemma session_listed K t sid : kept t K → sid ∈ sr_session_id <$> tb_sessions t ↔ K sid ≠ [].
Proof.
  intros Hk. pose proof (kp_sessions _ _ Hk sid) as Hrows. split.
  - intros (row & -> & Hrow)%list_elem_of_fmap HK. rewrite HK in Hrows.
    assert (row ∈ List.filter (in_session sr_session_id (sr_session_id row)) (tb_sessions t)) as Hin.
    { apply list_elem_of_In, List.filter_In. split; [by apply list_elem_of_In|]. by apply bool_decide_eq_true_2. }
    rewrite Hrows in Hin. by apply elem_of_nil in Hin.
  - intros Hne. pose proof (jo_reduced _ _ (kp_journals _ _ Hk sid) Hne) as Hred. unfold session_rows in Hrows.
    replace (is_nil (K sid)) with false in Hrows by by destruct (K sid).
    destruct (reduceSessionEntriesV3 (commit_entries (K sid))) as [pj|]; [|done].
    assert (projection_row sid pj ∈ tb_sessions t) as Hin.
    { apply list_elem_of_In. eapply (List.filter_In (in_session sr_session_id sid)). rewrite Hrows. by left. }
    apply list_elem_of_fmap. by exists (projection_row sid pj).
Qed.
Theorem sqlite_sessions K t :
  kept t K → ∃ ids, SqliteStore.listSessionIds (idle t) = (Ok ids, idle t) ∧ ∀ sid, sid ∈ ids ↔ K sid ≠ [].
Proof.
  intros Hk. eexists. unfold SqliteStore.listSessionIds, SqliteStore.run. erewrite sq_step by done.
  rewrite (select_sees _ _ t) by done. split; [done|]. intros sid. rewrite <-(session_listed K t sid Hk). unfold order_by.
  by rewrite js_sort_perm.
Qed.

(** The scrub of a store that keeps its journals finds nothing. *)
Theorem sqlite_scrub_kept K t :
  kept t K → integrity_rows = ["ok"%string] →
  SqliteStore.deepScrub (idle t) = (Ok (Z.of_nat (length (tb_sessions t)), "ok"%string), idle t).
Proof.
  intros Hk Hi. unfold SqliteStore.deepScrub, SqliteStore.run. erewrite sq_step by done. rewrite Hi. erewrite sq_lift by done.
  destruct (sqlite_sessions K t Hk) as (ids & Hl & Hids). rewrite (sq_step _ _ _ _ _ Hl).
  assert (length ids = length (tb_sessions t)) as Hlen.
  { unfold SqliteStore.listSessionIds, SqliteStore.run in Hl. erewrite sq_step in Hl by done. rewrite (select_sees _ _ t) in Hl by done.
    injection Hl as <-. unfold order_by. by rewrite length_fmap, js_sort_perm. }
  assert (scrub_sessions ids (idle t) = (Ok tt, idle t)) as Hscrub.
  { assert (∀ sid, sid ∈ ids → K sid ≠ []) as Hne by (intros sid; apply Hids). clear Hl Hids Hlen.
    induction ids as [|sid ids IH]; [done|]. cbn [scrub_sessions]. erewrite sq_step by by apply loadAllEntries_kept with t.
    assert (K sid ≠ []) as HK by (apply Hne; left). pose proof (jo_reduced _ _ (kp_journals _ _ Hk sid) HK) as Hred.
    pose proof (sqlite_projection K t sid Hk HK) as Hc. destruct (reduceSessionEntriesV3 (commit_entries (K sid))) as [pj|]; [|done].
    erewrite sq_lift by done. rewrite (sq_step _ _ _ _ _ Hc). rewrite bool_decide_eq_false_2 by auto. erewrite sq_lift by done.
    apply IH. intros s Hs. apply Hne. by right. }
  rewrite (sq_step _ _ _ _ _ Hscrub). by rewrite Hlen.
Qed.
End Open.

(** ** The store below the port *)

Section Port.
Context `{SqliteLaws}.
Context (inject : SqliteSessionJournalFaultPointV3 → res unit).

(** The adapter of the port: its calls find the tables in their order. *)
Definition sqlite_store (tables : nat → Tables) : SessionJournalCommitStoreV3 := {|
  store_readEntries k request := (SqliteStore.readEntries request (idle (tables k))).1;
  store_appendCommit commit :=
    SessionCommitReceipt_js <$> (SqliteStore.appendCommit inject (SessionCommit_js commit) (idle (tables 0%nat))).1;
  store_cachedProjection := Some (λ sessionId, (SqliteStore.loadCachedProjection sessionId (idle (tables 0%nat))).1);
|}.

(** The SQLite store is what the port expects, as the JSONL store is: the port
    reads the session to the end as it stood at its first read, takes its projection
    and accepts the receipt of an append. *)
Theorem sqlite_port_refines (tables : nat → Tables) (K : nat → string → list SessionCommitV3) sid fuel :
  (∀ k, kept (tables k) (K k) ∧ K 0%nat sid `prefix_of` K k sid) → quiet inject →
  K 0%nat sid ≠ [] → SAFE_ID sid = true → (length (commit_entries (K 0%nat sid)) ≤ 512 * fuel)%nat →
  let Store := sqlite_store tables in
  readAllEntries fuel sid = Some (Ok (commit_entries (K 0%nat sid))) ∧
  loadProjection fuel sid = Some (reduceSessionEntriesV3 (commit_entries (K 0%nat sid))) ∧
  ∀ c receipt cs, commit_ok sid c → journal_append (K 0%nat sid) c = Ok (receipt, cs) → rc_duplicate receipt = false →
    SessionPort.appendCommit (SessionCommit_js c) = Ok (receipt, Some {| ev_receipt := receipt; ev_entries := sc_entries c |}).
Proof.
  intros Hk Hquiet Hne Hsafe Hfuel Store.
  assert (∀ k, journal_ok sid (K k sid)) as Hok by (intros k; destruct (Hk k); by apply kp_journals with (tables k)).
  assert (∀ k, K k sid ≠ []) as Hnek by (intros k; destruct (Hk k) as [_ [more ->]]; by destruct (K 0%nat sid)).
  assert (∀ k, length (commit_values (K k sid)) = length (commit_entries (K k sid))) as Hlen
    by (intros k; by rewrite (journal_lengths sid) by apply Hok).
  split_and!.
  - apply (readAllEntries_kept (λ k, commit_values (K k sid)) (λ k, revision_of (K k sid))); try done.
    + intros k request Hin Hsid Hthrough. cbn [Store store_readEntries sqlite_store]. rewrite Hlen in Hthrough.
      rewrite (sqlite_read (K k)), Hsid by apply Hk. unfold journal_read. rewrite Hin. cbn [mbind res_bind fst].
      replace (is_nil (K k sid)) with false by (specialize (Hnek k); by destruct (K k sid)). cbn [fail_if mbind res_bind].
      by rewrite (proj2 (Z.ltb_ge _ _)).
    + intros k. destruct (Hk k) as [_ [more ->]]. exists (commit_values more). unfold commit_values. by rewrite bind_app.
    + intros k. rewrite Hlen. by apply (journal_bounds sid).
    + by apply (journal_decoded sid), Hok.
    + by apply journal_numbered.
    + intros Hnil. pose proof (jo_reduced _ _ (Hok 0%nat) Hne) as Hr. by rewrite Hnil in Hr.
  - unfold loadProjection. rewrite Hsafe. cbn [negb Store store_cachedProjection sqlite_store].
    by rewrite (sqlite_projection (K 0%nat)) by (done || apply Hk).
  - intros c receipt cs Hc Hspec Hdup. pose proof (jc_session _ _ Hc) as Hsid. unfold SessionPort.appendCommit.
    rewrite (jc_valid _ _ Hc). cbn [mbind res_bind Store store_appendCommit sqlite_store].
    assert (commit_ok (sc_sessionId c) c) as Hc' by by rewrite Hsid.
    pose proof (append_outcome_of inject (K 0%nat) (tables 0%nat) c (proj1 (Hk 0%nat)) Hc') as Ho. rewrite Hsid, Hspec in Ho.
    destruct (SqliteStore.appendCommit _ _ _) as [[receipt'|code] s].
    + destruct Ho as (? & ? & [= <- <-] & _). assert (receipt = sessionCommitReceiptV3 c false) as ->.
      { unfold journal_append in Hspec. destruct (Jsonl.findDuplicate _ c) as [[x|]|]; cbn [mbind res_bind] in Hspec; [|inv_ok; done|done].
        injection Hspec as <- _. done. }
      cbn [fst fmap res_fmap mbind res_bind]. by rewrite validateReceipt_created.
    + by destruct Ho as [_ (? & ? & _)%(λ f, f Hquiet)].
Qed.
End Port.
End Spec.

(** ** A concrete database *)

(** A driver that returns the first row, with the pragmas of the store. *)
#[export] Instance sample_sqlite : SqliteEngine := {|
  first_row := head;
  begin_immediate := Ok tt;
  commit_result := Ok tt;
  pragma name := if bool_decide (name = "journal_mode"%string) then JStr "WAL"
    else if bool_decide (name = "synchronous"%string) then JInt 2
    else if bool_decide (name = "busy_timeout"%string) then JInt 5000 else JInt 1;
  integrity_rows := ["ok"%string];
|}.
#[export] Instance sample_sqlite_laws : SqliteLaws.
Proof. split; intros [|x l] *; cbn; try done. intros [= ->]. left. Qed.
Definition no_sqlite_fault (point : SqliteSessionJournalFaultPointV3) : res unit := Ok tt.
Lemma sample_quiet : quiet no_sqlite_fault.
Proof. done. Qed.
Example sample_opens : SqliteStore.initialize (closed empty_database) = (Ok tt, idle no_tables).
Proof. vm_compute. reflexivity. Qed.

Definition journal1_of : string → list SessionCommitV3 := put_journal "s1" [commit1] (λ _, []).
Local Notation after1 := (SqliteStore.appendCommit no_sqlite_fault (SessionCommit_js commit1) (idle no_tables)).
Definition tables1 : Tables := default no_tables (da_tables (cn_durable after1.2)).
Lemma commit1_session : sc_sessionId commit1 = "s1"%string.
Proof. vm_compute. reflexivity. Qed.
Lemma kept1 : kept tables1 journal1_of.
Proof.
  assert (commit_ok (sc_sessionId commit1) commit1) as Hc by (rewrite commit1_session; exact (ex_commit _ _ _ extends1)).
  pose proof (append_outcome_of no_sqlite_fault (λ _, []) no_tables commit1 kept_nothing Hc) as Ho.
  assert (is_ok after1.1 = true) as Hok by (vm_compute; reflexivity).
  unfold tables1. destruct after1 as [[receipt|code] s]; [|done]. destruct Ho as (cs & t' & Hspec & -> & Hk).
  rewrite (journal_append_first _ _ _ Hspec), commit1_session in Hk. exact Hk.
Qed.

Lemma sqlite_append_refines_witness :
  match SqliteStore.appendCommit no_sqlite_fault (SessionCommit_js commit2) (idle tables1) with
  | (Ok receipt, s) => ∃ cs t', journal_append [commit1] commit2 = Ok (receipt, cs) ∧ s = idle t' ∧
      kept t' (put_journal "s1" cs journal1_of)
  | (Err _, _) => False
  end.
Proof.
  assert (sc_sessionId commit2 = "s1"%string) as Hsid by (vm_compute; reflexivity).
  assert (commit_ok (sc_sessionId commit2) commit2) as Hc by (rewrite Hsid; exact (ex_commit _ _ _ extends2)).
  pose proof (sqlite_append_refines no_sqlite_fault journal1_of tables1 commit2 kept1 Hc) as Ho.
  assert (is_ok (SqliteStore.appendCommit no_sqlite_fault (SessionCommit_js commit2) (idle tables1)).1 = true) as Hok by (vm_compute; reflexivity).
  rewrite Hsid in Ho. destruct (SqliteStore.appendCommit _ _ _) as [[receipt|code] s]; [exact Ho|discriminate Hok].
Defined.

Lemma disk1_same : same_journal disk1 tables1 "s1" journal1_of.
Proof.
  split; [exact kept1|]. destruct disk1_consistent as [Hj [Hm|Hp]]; [exfalso; revert Hm; vm_compute; discriminate|].
  split; [exact Hj|exact Hp].
Qed.
Lemma stores_agree_witness :
  let '(ws, r) := JsonlStore.appendCommit true no_fault (SessionCommit_js commit2) disk1 in
  let '(r', s') := SqliteStore.appendCommit no_sqlite_fault (SessionCommit_js commit2) (idle tables1) in
  r = r' ∧ is_ok r' = true ∧ ∃ t' K', s' = idle t' ∧ same_journal (apply_writes disk1 ws) t' "s1" K'.
Proof.
  assert (SAFE_ID "s1" = true) as Hsafe by (vm_compute; reflexivity).
  destruct (stores_agree no_sqlite_fault "s1" disk1 tables1 journal1_of disk1_same Hsafe sample_quiet) as (Ha & _ & _).
  specialize (Ha commit2 (ex_commit _ _ _ extends2)).
  assert (is_ok (SqliteStore.appendCommit no_sqlite_fault (SessionCommit_js commit2) (idle tables1)).1 = true) as Hok by (vm_compute; reflexivity).
  destruct (JsonlStore.appendCommit _ _ _ _) as [ws r], (SqliteStore.appendCommit _ _ _) as [[receipt|code] s']; [|discriminate Hok].
  destruct Ha as [Hr Hs]. split; [exact (proj2 (Hr receipt) eq_refl)|]. split; [reflexivity|exact Hs].
Defined.
